(* ===== verification/_CoqProject ===== *)
-Q . S2P
Prelude.v
Rtp.v
CodecDb.v
PacketBuffer.v
PacketBufferInv.v
PacketBufferFifo.v
PacketBufferQuery.v
Rtcp.v
Dtmf.v
SplMath.v
Resample.v
Vad.v
VadMin.v
VadInv.v
VadOps.v
VadTest.v
SplFilt.v
Stretch.v
StretchSim.v
StretchInv.v
StretchOps.v
StretchTest.v
BitRefl.v
IlbcBits.v
IlbcStream.v
IlbcTables.v
IlbcLsf.v
IlbcDec.v
IlbcExc.v
IlbcExcInv.v
IlbcResidual.v
IlbcLsfInv.v
IlbcPlc.v
IlbcPlcInv.v
IlbcEnh.v
IlbcEnhInv.v
IlbcEnhIf.v
IlbcEnhIfInv.v
IlbcFrame.v
IlbcFrameInv.v
IlbcDecode.v
Automode.v
AutomodeInv.v
BufStats.v
Split.v
RingBuffer.v
G711.v
ArithCoder.v
ArithDecoder.v
ArithLogist.v
ArithSession.v
ArithSafe.v
DelayEst.v
DelayEstInv.v
DelayEstTrack.v
DelayWrap.v
DelayEcho.v
Prog.v
Mcu.v
McuInv.v
RecIn.v
SignalMcu.v
SignalInv.v
Playout.v
