(* ===== verification/Prelude.v ===== *)
(** NetEQ and the signal processing beside it: a verification library.

    This library models the packet side of NetEQ, the adaptive jitter buffer of
    the WebRTC voice engine, with its time-scale modification, the small C libraries it
    stands on, the waveform codecs, the decoder and the bit stream of the iLBC codec, the
    entropy coder of the iSAC codec, the delay estimator of the echo cancellers and the
    voice activity detector, as they are in this repository under [src/trunk/webrtc], and
    proves what makes them correct.

    * The program

    Below, [neteq/] is [modules/audio_coding/neteq/].  NetEQ has two halves.  The
    MCU side receives RTP packets ([neteq/recin.c]) and decides every 10 ms what
    to play ([neteq/signal_mcu.c]); the DSP side decodes and produces samples.  A
    received packet goes through these parts:

<<
      datagram --Rtp--> header, payload --Mcu--> RED split, time stamp scaling
          |                                       |
          |                     DTMF event <------+------> Split (frames)
        Rtcp                      (Dtmf)          |              |
      (loss, jitter)                          CodecDb       PacketBuffer
                                                                 |
      Automode (inter-arrival statistics, target level) <--------+
          |
      BufStats (decision: normal, expand, accelerate, ...)
          |
      Stretch (accelerate, pre-emptive expand: one pitch period less or more)
>>

    The iSAC codec (fixed point, [codecs/isac/fix/source/]) writes its frames with
    an arithmetic coder into a stream of 16-bit words.  One 60 ms packet is a
    sequence of calls: symbols over tables of cumulative probabilities
    ([EncHistMulti]) and spectrum coefficients over a logistic distribution
    ([EncLogisticMulti2]), ended by [EncTerminate]; the decoder makes the matching
    calls ([DecHistBisectMulti], [DecHistOneStepMulti], [DecLogisticMulti2]).

    The iLBC codec ([codecs/ilbc/]) sends frames of 20 or 30 ms as 19 or 25 words.  The
    decoder ([DecodeImpl]) unpacks them ([UnpackBits]), turns indexes into line spectral
    frequencies and those into synthesis filters ([SimpleLsfDeQ], [LsfCheck],
    [DecoderInterpolateLsp]), builds the residual from codebooks ([DecodeResidual]) or,
    for a lost frame, from the last one ([DoThePlc]), enhances it
    ([EnhancerInterface]), filters it and removes low frequencies ([HpOutput]).

    The echo cancellers find out how much later the microphone hears the loudspeaker
    with the delay estimator ([modules/audio_processing/utility/]): spectra become
    32-bit words, a history of far end words is compared with each near end word.

    The voice activity detector ([common_audio/vad/]) tells for every frame of 10,
    20 or 30 ms if it holds speech: the frame is brought to 8 kHz ([Downsampling],
    [Resample48khzTo8khz]), a filter bank gives the energies of six bands in dB
    ([CalculateFeatures]), two mixtures of Gaussians per band give the decision
    and are adapted ([GmmProbability], with [FindMinimum] for the noise floor), and
    an overhang keeps the decision for some frames after speech ([hangover]).

    * Files

    - [Prelude]: machine integers ([u16], [s32], ...: wrap-around as [mod]), array
      accesses that fail out of bounds ([aget], [aset], [aload], [astore]), 16-bit
      reads of byte memory, record update, tactics.
    - [Rtp]: [neteq/rtp.c].  [RTPPayloadInfo] parses a datagram,
      [RedundancySplit] splits RFC 2198 payloads; specified by serialisers of
      RFC 3550 and RFC 2198 packets.
    - [CodecDb]: [neteq/codec_db.c].  The registered codecs; specified as a finite
      map from codec ids to records ([db_lookup]) and an invariant ([db_inv]).
    - [PacketBuffer]: [neteq/packet_buffer.c] as executable definitions;
      [PacketBufferInv]: its invariant [pb_inv], memory safety and the store/fetch
      round trip; [PacketBufferFifo]: refinement of a bounded queue when packets
      are fetched in the order of their insertion, and what goes wrong
      otherwise; [PacketBufferQuery]: search for the packet to play, size in
      samples, default memory settings.
    - [Rtcp]: [neteq/rtcp.c], receiver statistics.
    - [Dtmf]: [neteq/dtmf_buffer.c], the queue of telephone events.
    - [SplMath]: the signal processing library's scalar and vector arithmetic
      ([common_audio/signal_processing/]: [spl_inl.h], [division_operations.c],
      [spl_sqrt_floor.c], [min_max_operations.c], [get_scaling_square.c],
      [energy.c], [dot_product_with_scale.c], [vector_scaling_operations.c]).
    - [Resample]: the resamplers between 48, 16 and 8 kHz
      ([resample_48khz.c], [resample_by_2_internal.c], [resample_fractional.c] in
      [common_audio/signal_processing/]), with their memory safety.
    - [Vad]: all of [common_audio/vad/] as executable definitions; [VadMin]: the
      minimum statistics of [vad_sp.c] against insertion into a sorted list;
      [VadInv]: the invariant [vad_inv] of the instance and the safety of the
      filters and the mixtures; [VadOps]: sequences of calls and the hysteresis
      of the decisions; [VadTest]: the values of the unit tests.
    - [SplFilt]: correlations and short filters of the signal processing library
      ([cross_correlation.c], [auto_correlation.c], [downsample_fast.c],
      [filter_ma_fast_q12.c], [filter_ar_fast_q12.c]).
    - [Stretch]: time-scale modification in the DSP half of NetEQ
      ([neteq/accelerate.c], [neteq/preemptive_expand.c], [neteq/peak_detection.c],
      [neteq/mix_voice_unvoice.c]); [StretchInv]: what each step does to the samples, with
      the cross fade as a function on lists; [StretchOps]: the outcomes of the two
      functions ([Accelerated], [Expanded]) and two channels; [StretchTest]: runs.
    - [BitRefl]: fields of bits of words by reflection; [IlbcBits]: the bit stream of iLBC
      ([codecs/ilbc/]: [pack_bits.c], [unpack_bits.c], [swap_bytes.c],
      [index_conv_enc.c], [index_conv_dec.c]); [IlbcStream]: that it is a bijection.
    - [IlbcTables]: the tables of [constants.c]; [IlbcLsf]: the synthesis filters
      ([simple_lsf_dequant.c], [lsf_check.c], [decoder_interpolate_lsf.c] and what they
      call), [IlbcLsfInv]: their ranges; [IlbcDec]: the decoder's state, its
      initialisation and its invariant [dec_ok]; [IlbcExc]: the residual
      ([decode_residual.c] and what it calls), [IlbcExcInv], [IlbcResidual]: which frames
      have one; [IlbcPlc]: concealment ([do_plc.c], [comp_corr.c], [xcorr_coef.c],
      [hp_output.c]), [IlbcPlcInv]: it never gets louder.
    - [IlbcEnh]: the enhancer of a block ([enhancer.c] and what it calls), [IlbcEnhInv]:
      the search stays inside of the buffer; [IlbcEnhIf]: [enhancer_interface.c],
      [IlbcEnhIfInv]; [IlbcFrame]: frames and packets ([decode.c], the decoder's part of
      [ilbc.c]); [IlbcFrameInv]: where the residual of a frame comes from;
      [IlbcDecode]: the decoder as a whole.
    - [Automode], [AutomodeInv]: [neteq/automode.c], inter-arrival-time histogram
      and target buffer level.
    - [BufStats]: [neteq/bufstats_decision.c], the playout decision.
    - [Split]: [neteq/split_and_insert.c].
    - [RingBuffer]: [modules/audio_processing/utility/ring_buffer.c].
    - [G711]: the waveform codecs G.711 ([codecs/g711/]) and linear PCM
      ([codecs/pcm16b/pcm16b.c]).
    - [ArithCoder], [ArithDecoder], [ArithLogist]: the arithmetic coder of iSAC
      ([codecs/isac/fix/source/arith_routines.c], [arith_routines_hist.c],
      [arith_routines_logist.c]), each function against an abstract coder that
      keeps the number of bytes written, the value written and the width of the
      interval as unbounded integers ([abs_symbol]); [ArithSession]: packets as
      sequences of calls, through the interface [Coded]; [ArithSafe]: the
      decoders on streams that no encoder wrote.
    - [DelayEst]: [utility/delay_estimator.c]; [DelayEstInv]: its invariant and what
      one call does; [DelayEstTrack]: how the estimate settles on a delay;
      [DelayWrap]: the fixed-point half of [utility/delay_estimator_wrapper.c];
      [DelayEcho]: whole sessions of calls.
    - [Prog]: programs with state, early return and out-of-bounds failure, with
      Hoare-style rules for total correctness ([triple], [safe]).
    - [Mcu]: the MCU instance ([neteq/mcu.h]) and the operations that join the
      parts: [neteq/recin.c], [neteq/mcu_reset.c], [neteq/set_fs.c];
      [McuInv]: its invariant [mcu_inv] and the safety of reception;
      [RecIn]: what reception does with a speech packet, time stamp scaling.
    - [SignalMcu]: [neteq/signal_mcu.c], what the MCU tells the DSP every 10 ms;
      [SignalInv]: that every step keeps the instance well-formed and stays in
      the shared memory; [Playout]: the properties of the whole call.

    * How the code is rendered

    A C function is a Rocq function of the same name (without the
    [WebRtcNetEQ_], [WebRtcSpl_] or [WebRtc_] prefix); long functions are cut into
    named steps that follow the order of the source.  Structures are records,
    state is passed explicitly; [RecInInternal] and [SignalMcu], which can leave
    early from many places, are written in the monad of [Prog].  Integers are [Z], with the conversion
    to the C type written where the code stores or converts; signed overflow
    that the code relies on wraps.  Pointers into payload memory are the list of
    bytes from there on, in the byte order of a little-endian build.  A result of
    [None] is an access outside of an array, never an error code: theorems of the
    form "[f x = Some ...]" state that [f] stays inside of its memory.

    Loops whose length is not the length of a list take fuel, chosen as the
    largest number of rounds; running out of fuel is [None] as well, so these
    theorems also state termination.  The bounds: one round per slot for the
    searches of the packet buffer, one per payload byte for splitting and the
    halving of the chunk size, one per 16-bit word for [red_discard], one per
    histogram bin for [iat_find_B] and [iat_back_off], one per stored packet for
    the extraction loop and the discarding of comfort noise in [SignalMcu].  In
    the arithmetic coder: renormalisation writes until the stream of 200 words is
    full ([enc_fuel]) and reads three bytes at most unless the interval is empty,
    in which case the C loop reads on beyond the stream; the bisection halves a
    16-bit size; the single-step search visits every table entry once; the
    candidate of the spectrum search has 512 values, so 600 rounds mean that the C
    loop does not end; the square root makes eleven steps as in the source.
    Loops of a length known beforehand are [for_loop].  A shift by a computed
    amount in the Gaussian probability takes the amount modulo 32, as the
    processors do.  Local arrays that the code does not initialise are arguments
    ([Locals], [Calls], [FrameLocals]) about which only their lengths are assumed: the
    lemmas give a result first and then say that it is the same for all of them.  Such an
    array that is filled from its beginning before it is read is the list of the entries
    written so far ([downsampled], [data]), so that reading on is [None].

    The build is the one of [neteq.gypi] with [NETEQ_VOICEENGINE_CODECS],
    little-endian, without delay logging.  Codec functions are addresses; the
    only one whose result matters here, the duration estimator, is an argument
    ([call_durationEst]) about which nothing is assumed.

    * What the theorems show

    - Memory safety and invariants of whole components for every input:
      [RecIn_safe] (reception as a whole), [SignalMcu_safe] (playout decisions as
      a whole), [PacketBufferInsert_safe], [CodecDb_invariant],
      [Automode_invariant], [RTPPayloadInfo_bounds]; the table decoder of iSAC ends
      inside of the stream or with an error, on every stream
      ([DecHistOneStepMulti_any]); every session of the delay estimator
      ([DelayEstimator_safe]) and of the voice activity detector ([Vad_safe]); every
      received iLBC frame but those of one defect ([DecodeImpl_exact]).
    - Bounds: concealed iLBC frames are never louder than what was received
      ([DoThePlc_never_louder]); the companding laws ([G711_companding]).
    - Liveness: packets are played in time ([PacketBuffer_extract_oldest]), an echo
      is found after 256 blocks ([DelayEstimator_finds_echo]).
    - Refinement of an abstract specification: the packet buffer and the ring
      buffer as queues, the codec database as a map, splitting as a sequence of
      insertions of consecutive pieces, reception of speech as splitting and
      insertion, delivery of a stored payload to the DSP, the telephone-event table
      as a bounded queue, the decisions of the voice activity detector as a
      hysteresis ([Vad_hysteresis]), its minimum statistics as sorted insertion
      ([FindMinimum_correct]), acceleration and pre-emptive expansion as the removal and
      the insertion of one cross-faded pitch period ([Accelerate_correct],
      [PreEmptiveExpand_correct]), alike in both channels ([Accelerate_stereo]), the
      iLBC decoder as a machine that remembers the frame length only, for every sequence
      of packets, losses and expansions ([Ilbc_session_refines]).
    - Round trips: RTP header, redundant payloads, store and fetch of packets,
      registration and lookup of codecs, time stamp scaling, G.711 and PCM
      frames, whole iSAC packets of symbols and coefficients
      ([Isac_stream_roundtrip]), and iLBC frames ([Ilbc_bitstream_roundtrip],
      [Ilbc_unpack_wellformed]).
    - Functional correctness: selection of the lowest time stamp, buffer size,
      target level as a quantile of the histogram, level filter, decision,
      RTCP extended sequence number and loss fraction, square root,
      normalisation, saturation, division, extrema, energy, binary spectra, the check of
      the line spectral frequencies ([LsfCheck_correct]).
    - Defects, as computed instances: [PacketBuffer_reorder_corrupts],
      [RedundancySplit_three_blocks], [Energy_overflow],
      [SplitAndInsert_misaligned], [RecIn_red_events_lost],
      [EncTerminate_overflows], [DecHistBisectMulti_unchecked],
      [DecLogisticMulti2_rejects], [DecLogisticMulti2_runs_away],
      [CalcVad48khz_first_block], [entry_outlives_100_frames],
      [PreEmptiveExpand_slave_overrun], [Accelerate_stale_failure],
      [LsfCheck_last_unlimited], [LsfCheck_still_close], [plc_gain_floor] and the
      unusable frames of [DecodeImpl_exact].

    * What is not modelled

    The rest of the DSP side (playout, concealment), the encoder of iLBC, the other
    codecs, echo cancellation, gain control and noise suppression are signal processing
    whose specification is perceptual or an external standard.  Of the signal
    processing that is modelled the theorems show safety, ranges and structure, not how
    it sounds.  The bandwidth estimator
    that a codec may register is looked up but its effect, which is on the
    codec's own state, is not modelled.  The public interface
    ([neteq/webrtc_neteq.c]) only checks arguments and casts. *)

From Stdlib Require Export ZArith Lia.
From stdpp Require Export base list list_numbers option numbers.

#[export] Set Default Proof Using "Type".
Open Scope Z_scope.

(** ** Machine integers

    A C integer is a [Z]; an operation whose result is stored in a narrower
    object is followed by the conversion to that object's type. *)
Definition u8  (x : Z) : Z := x mod 256.
Definition u16 (x : Z) : Z := x mod 65536.
Definition u32 (x : Z) : Z := x mod 4294967296.
Definition s8  (x : Z) : Z := (x + 128) mod 256 - 128.
Definition s16 (x : Z) : Z := (x + 32768) mod 65536 - 32768.
Definition s32 (x : Z) : Z := (x + 2147483648) mod 4294967296 - 2147483648.

Definition in_u8  (x : Z) : Prop := 0 <= x < 256.
Definition in_u16 (x : Z) : Prop := 0 <= x < 65536.
Definition in_u32 (x : Z) : Prop := 0 <= x < 4294967296.
Definition in_s16 (x : Z) : Prop := -32768 <= x < 32768.
Definition in_s32 (x : Z) : Prop := -2147483648 <= x < 2147483648.

#[global] Arguments in_u8 / _.
#[global] Arguments in_u16 / _.
#[global] Arguments in_u32 / _.
#[global] Arguments in_s16 / _.
#[global] Arguments in_s32 / _.

(** [wrap_lia] unfolds the conversions and lets [lia] reason about the
    quotients they introduce. *)
Ltac wrap_unfold :=
  unfold in_u8, in_u16, in_u32, in_s16, in_s32, u8, u16, u32, s8, s16, s32 in *.
Ltac wrap_lia := wrap_unfold; Z.to_euclidean_division_equations; lia.

Create HintDb wrap.

Lemma u8_range x : in_u8 (u8 x).
Proof. wrap_lia. Qed.
Lemma u16_range x : in_u16 (u16 x).
Proof. wrap_lia. Qed.
Lemma u32_range x : in_u32 (u32 x).
Proof. wrap_lia. Qed.
Lemma s16_range x : in_s16 (s16 x).
Proof. wrap_lia. Qed.
Lemma s32_range x : in_s32 (s32 x).
Proof. wrap_lia. Qed.

Lemma u8_id x : in_u8 x -> u8 x = x.
Proof. wrap_lia. Qed.
Lemma u16_id x : in_u16 x -> u16 x = x.
Proof. wrap_lia. Qed.
Lemma u32_id x : in_u32 x -> u32 x = x.
Proof. wrap_lia. Qed.
Lemma s16_id x : in_s16 x -> s16 x = x.
Proof. wrap_lia. Qed.
Lemma s32_id x : in_s32 x -> s32 x = x.
Proof. wrap_lia. Qed.

#[export] Hint Resolve u8_range u16_range u32_range s16_range s32_range : wrap.

(** The C conversion of a comparison result to [int]. *)
Definition b2z (b : bool) : Z := if b then 1 else 0.

(** ** C arrays

    An array is a list; an access outside of it is [None], the model's value
    for an execution that C leaves undefined.  Operations of the code are
    written in the option monad, so that "returns [Some]" is the statement
    that no access is out of bounds and that no loop runs away. *)
Definition aget {A} (l : list A) (i : Z) : option A :=
  if i <? 0 then None else l !! Z.to_nat i.

Definition aset {A} (l : list A) (i : Z) (v : A) : option (list A) :=
  if (0 <=? i) && (i <? Z.of_nat (length l)) then Some (<[Z.to_nat i := v]> l) else None.

(** [memcpy]-like store of a block at offset [i]. *)
Definition astore {A} (l : list A) (i : Z) (vs : list A) : option (list A) :=
  if (0 <=? i) && (i + Z.of_nat (length vs) <=? Z.of_nat (length l))
  then Some (take (Z.to_nat i) l ++ vs ++ drop (Z.to_nat i + length vs) l)
  else None.

(** [n] elements from offset [i]. *)
Definition aload {A} (l : list A) (i n : Z) : option (list A) :=
  if (0 <=? i) && (0 <=? n) && (i + n <=? Z.of_nat (length l))
  then Some (take (Z.to_nat n) (drop (Z.to_nat i) l))
  else None.

Definition zlen {A} (l : list A) : Z := Z.of_nat (length l).

Create Rewrite HintDb arr.

Lemma aget_lookup {A} (l : list A) i :
  0 <= i -> aget l i = l !! Z.to_nat i.
Proof. intros. unfold aget. destruct (Z.ltb_spec i 0); [lia|done]. Qed.

Lemma aget_is_Some {A} (l : list A) i :
  is_Some (aget l i) <-> 0 <= i < zlen l.
Proof.
  unfold aget, zlen. destruct (Z.ltb_spec i 0).
  - split; [intros [? ?]; done|lia].
  - rewrite lookup_lt_is_Some. lia.
Qed.

Lemma aget_Some_range {A} (l : list A) i x :
  aget l i = Some x -> 0 <= i < zlen l.
Proof. intros H. apply aget_is_Some. eauto. Qed.

Lemma aget_in {A} (l : list A) i :
  0 <= i < zlen l -> exists x, aget l i = Some x.
Proof. intros H. by apply aget_is_Some in H. Qed.

Lemma aset_in {A} (l : list A) i v :
  0 <= i < zlen l -> aset l i v = Some (<[Z.to_nat i := v]> l).
Proof.
  unfold aset, zlen. intros.
  destruct (Z.leb_spec 0 i), (Z.ltb_spec i (Z.of_nat (length l))); simpl; done || lia.
Qed.

Lemma aset_Some {A} (l l' : list A) i v :
  aset l i v = Some l' -> 0 <= i < zlen l /\ l' = <[Z.to_nat i := v]> l.
Proof.
  unfold aset, zlen.
  destruct (Z.leb_spec 0 i), (Z.ltb_spec i (Z.of_nat (length l))); simpl;
    intros; simplify_eq; split; done || lia.
Qed.

Lemma zlen_insert {A} (l : list A) n v : zlen (<[n := v]> l) = zlen l.
Proof. unfold zlen. by rewrite length_insert. Qed.

Lemma zlen_nonneg {A} (l : list A) : 0 <= zlen l.
Proof. unfold zlen. lia. Qed.

Lemma zlen_app {A} (l k : list A) : zlen (l ++ k) = zlen l + zlen k.
Proof. unfold zlen. rewrite length_app. lia. Qed.

Lemma zlen_replicate {A} n (x : A) : zlen (replicate n x) = Z.of_nat n.
Proof. unfold zlen. by rewrite length_replicate. Qed.

Lemma aget_insert_eq {A} (l : list A) i v :
  0 <= i < zlen l -> aget (<[Z.to_nat i := v]> l) i = Some v.
Proof.
  intros. rewrite aget_lookup by lia.
  apply list_lookup_insert_eq. unfold zlen in *. lia.
Qed.

Lemma aget_insert_ne {A} (l : list A) i j v :
  0 <= i -> i <> j -> aget (<[Z.to_nat i := v]> l) j = aget l j.
Proof.
  intros. unfold aget. destruct (Z.ltb_spec j 0); [done|].
  apply list_lookup_insert_ne. lia.
Qed.

Lemma aget_insert {A} (l : list A) i j v :
  0 <= i < zlen l ->
  aget (<[Z.to_nat i := v]> l) j = if decide (i = j) then Some v else aget l j.
Proof.
  intros. case_decide as Heq; [subst; by apply aget_insert_eq|].
  apply aget_insert_ne; lia.
Qed.

Lemma aget_replicate {A} (n : nat) (x : A) i :
  0 <= i < Z.of_nat n -> aget (replicate n x) i = Some x.
Proof. intros. rewrite aget_lookup by lia. apply lookup_replicate_2. lia. Qed.

Lemma aload_in {A} (l : list A) i n :
  0 <= i -> 0 <= n -> i + n <= zlen l ->
  aload l i n = Some (take (Z.to_nat n) (drop (Z.to_nat i) l)).
Proof.
  unfold aload, zlen. intros.
  destruct (Z.leb_spec 0 i), (Z.leb_spec 0 n),
    (Z.leb_spec (i + n) (Z.of_nat (length l))); simpl; done || lia.
Qed.

Lemma aload_Some {A} (l r : list A) i n :
  aload l i n = Some r ->
  0 <= i /\ 0 <= n /\ i + n <= zlen l /\ r = take (Z.to_nat n) (drop (Z.to_nat i) l).
Proof.
  unfold aload, zlen.
  destruct (Z.leb_spec 0 i), (Z.leb_spec 0 n),
    (Z.leb_spec (i + n) (Z.of_nat (length l))); simpl; intros; simplify_eq; auto.
Qed.

Lemma aload_length {A} (l r : list A) i n :
  aload l i n = Some r -> zlen r = n.
Proof.
  intros (?&?&?&->)%aload_Some. unfold zlen in *.
  rewrite length_take, length_drop. lia.
Qed.

Lemma astore_in {A} (l vs : list A) i :
  0 <= i -> i + zlen vs <= zlen l ->
  exists l', astore l i vs = Some l' /\ zlen l' = zlen l.
Proof.
  unfold astore, zlen. intros.
  destruct (Z.leb_spec 0 i),
    (Z.leb_spec (i + Z.of_nat (length vs)) (Z.of_nat (length l))); simpl; try lia.
  eexists; split; [done|].
  rewrite !length_app, length_take, length_drop. lia.
Qed.

Lemma astore_Some {A} (l l' vs : list A) i :
  astore l i vs = Some l' ->
  0 <= i /\ i + zlen vs <= zlen l /\
  l' = take (Z.to_nat i) l ++ vs ++ drop (Z.to_nat i + length vs) l.
Proof.
  unfold astore, zlen.
  destruct (Z.leb_spec 0 i),
    (Z.leb_spec (i + Z.of_nat (length vs)) (Z.of_nat (length l))); simpl;
    intros; simplify_eq; auto.
Qed.

Lemma astore_length {A} (l l' vs : list A) i :
  astore l i vs = Some l' -> zlen l' = zlen l.
Proof.
  intros (?&?&->)%astore_Some. unfold zlen in *.
  rewrite !length_app, length_take, length_drop. lia.
Qed.

(** Reading back a stored block. *)
Lemma aload_astore_eq {A} (l l' vs : list A) i :
  astore l i vs = Some l' -> aload l' i (zlen vs) = Some vs.
Proof.
  intros H. pose proof (astore_length _ _ _ _ H) as Hl.
  apply astore_Some in H as (?&?&->).
  rewrite aload_in by (rewrite ?Hl; unfold zlen in *; lia). f_equal.
  rewrite drop_app_ge by (rewrite length_take; lia).
  rewrite length_take. unfold zlen in *.
  replace (Z.to_nat i - Nat.min (Z.to_nat i) (length l))%nat with 0%nat by lia.
  rewrite drop_0, take_app_le by lia. rewrite take_ge by lia. done.
Qed.

(** A store leaves every disjoint block alone. *)
Lemma aload_astore_disjoint {A} (l l' vs : list A) i j n :
  astore l i vs = Some l' ->
  j + n <= i \/ i + zlen vs <= j ->
  aload l' j n = aload l j n.
Proof.
  intros H Hd. pose proof (astore_length _ _ _ _ H) as Hl.
  apply astore_Some in H as (?&?&Heq).
  unfold aload. unfold zlen in *. rewrite Hl.
  destruct (Z.leb_spec 0 j), (Z.leb_spec 0 n),
    (Z.leb_spec (j + n) (Z.of_nat (length l))); simpl; try done.
  f_equal. apply list_eq. intros k.
  destruct (decide (k < Z.to_nat n)%nat) as [Hk|Hk]; cycle 1.
  { rewrite !lookup_ge_None_2; [done|rewrite length_take; lia..]. }
  rewrite !lookup_take_lt, !lookup_drop by done. subst l'.
  destruct Hd.
  - rewrite lookup_app_l by (rewrite length_take; lia).
    by rewrite lookup_take_lt by lia.
  - rewrite lookup_app_r by (rewrite length_take; lia). rewrite length_take.
    rewrite lookup_app_r by lia. rewrite lookup_drop. f_equal. lia.
Qed.

Lemma aget_aload {A} (l r : list A) i n j :
  aload l i n = Some r -> 0 <= j < n -> aget r j = aget l (i + j).
Proof.
  intros (?&?&?&->)%aload_Some Hj. rewrite !aget_lookup by lia.
  rewrite lookup_take_lt by lia. rewrite lookup_drop. f_equal. lia.
Qed.

Lemma aget_astore {A} (l l' vs : list A) i j :
  astore l i vs = Some l' ->
  aget l' j = if decide (i <= j < i + zlen vs) then aget vs (j - i) else aget l j.
Proof.
  intros (?&?&->)%astore_Some. unfold zlen in *.
  destruct (Z.lt_ge_cases j 0) as [Hj|Hj].
  { unfold aget. rewrite (proj2 (Z.ltb_lt j 0) Hj). case_decide; [lia|done]. }
  rewrite (aget_lookup _ j) by done.
  destruct (decide (j < i)).
  { rewrite lookup_app_l by (rewrite length_take; lia).
    rewrite lookup_take_lt by lia. case_decide; [lia|]. by rewrite aget_lookup. }
  rewrite lookup_app_r by (rewrite length_take; lia). rewrite length_take.
  case_decide.
  - rewrite lookup_app_l by lia. rewrite aget_lookup by lia. f_equal. lia.
  - rewrite lookup_app_r by lia. rewrite lookup_drop, aget_lookup by done. f_equal. lia.
Qed.

Lemma list_eq_aget {A} (l k : list A) :
  zlen l = zlen k -> (forall i, 0 <= i < zlen l -> aget l i = aget k i) -> l = k.
Proof.
  unfold zlen. intros Hlen H. apply list_eq_same_length with (length k); [done|lia|].
  intros i x y Hi Hx Hy. specialize (H (Z.of_nat i)).
  rewrite !aget_lookup, Nat2Z.id in H by lia. rewrite Hx, Hy in H.
  by injection (H ltac:(lia)).
Qed.

#[export] Hint Rewrite @zlen_insert @zlen_app @zlen_replicate : arr.

(** ** Option monad *)
Lemma bind_is_Some {A B} (m : option A) (f : A -> option B) y :
  m ≫= f = Some y -> exists x, m = Some x /\ f x = Some y.
Proof. destruct m; simpl; eauto; done. Qed.

Lemma bind_eq {A B} (m : option A) (f : A -> option B) x : m = Some x -> m ≫= f = f x.
Proof. by intros ->. Qed.

(** [guard_oob b] is [None] when [b] does not hold. *)
Definition assert (b : bool) : option unit := if b then Some tt else None.

(** Decompose every [m ≫= f = Some _] hypothesis. *)
Ltac bind_inv :=
  repeat match goal with
  | H : _ ≫= _ = Some _ |- _ =>
      let x := fresh "x" in let H1 := fresh "Hx" in
      apply bind_is_Some in H as (x & H1 & H); simpl in H
  | H : Some _ = Some _ |- _ => injection H as H; subst
  | H : None = Some _ |- _ => discriminate H
  end.

(** Case analysis on the boolean conditions of a goal or a hypothesis. *)
Ltac bool_lia :=
  repeat match goal with
  | H : (_ && _) = true |- _ => apply andb_prop in H as [? ?]
  | H : (_ || _) = false |- _ => apply orb_false_elim in H as [? ?]
  | H : negb _ = true |- _ => apply negb_true_iff in H
  | H : negb _ = false |- _ => apply negb_false_iff in H
  | H : (_ <? _) = true |- _ => apply Z.ltb_lt in H
  | H : (_ <? _) = false |- _ => apply Z.ltb_ge in H
  | H : (_ <=? _) = true |- _ => apply Z.leb_le in H
  | H : (_ <=? _) = false |- _ => apply Z.leb_gt in H
  | H : (_ =? _) = true |- _ => apply Z.eqb_eq in H
  | H : (_ =? _) = false |- _ => apply Z.eqb_neq in H
  end.

Ltac case_if :=
  match goal with
  | |- context [if ?b then _ else _] =>
      lazymatch type of b with
      | bool => let E := fresh "E" in destruct b eqn:E; bool_lia
      end
  | H : context [if ?b then _ else _] |- _ =>
      lazymatch type of b with
      | bool => let E := fresh "E" in destruct b eqn:E; bool_lia
      end
  end.

(** ** Bits of machine words *)
Lemma land_ones_mod x n : 0 <= n -> Z.land x (2 ^ n - 1) = x mod 2 ^ n.
Proof.
  intros. rewrite <- Z.land_ones by done. f_equal.
  rewrite Z.ones_equiv. lia.
Qed.

Lemma land_255 x : Z.land x 255 = x mod 256.
Proof. exact (land_ones_mod x 8 ltac:(lia)). Qed.

Lemma land_one n : Z.land n 1 = n mod 2.
Proof. change 1 with (2 ^ 1 - 1). by rewrite land_ones_mod by lia. Qed.

Lemma shiftr_one n : Z.shiftr n 1 = n / 2.
Proof. by rewrite Z.shiftr_div_pow2 by lia. Qed.

Lemma lor_shiftl_add a b n :
  0 <= n -> 0 <= b < 2 ^ n -> Z.lor (Z.shiftl a n) b = a * 2 ^ n + b.
Proof.
  intros Hn Hb. rewrite <- Z.shiftl_mul_pow2 by done.
  assert (Z.land (Z.shiftl a n) b = 0) as Hl.
  { apply Z.bits_inj'. intros k Hk. rewrite Z.land_spec, Z.bits_0.
    destruct (Z.lt_ge_cases k n) as [Hkn|Hkn].
    - rewrite Z.shiftl_spec_low by done. done.
    - destruct (Z.eq_dec b 0) as [->|]; [by rewrite Z.bits_0, andb_false_r|].
      rewrite (Z.bits_above_log2 b k); [by rewrite andb_false_r|lia|].
      apply Z.log2_lt_pow2; [lia|].
      apply Z.lt_le_trans with (2 ^ n); [lia|apply Z.pow_le_mono_r; lia]. }
  rewrite <- Z.lxor_lor by done. symmetry. by apply Z.add_nocarry_lxor.
Qed.

(** *** Bytes and little-endian 16-bit words *)
Definition byte_list (l : list Z) : Prop := Forall in_u8 l.

(** [((int16_t * )p)[k]] for the memory [p]. *)
Definition get_w16 (p : list Z) (k : Z) : option Z :=
  b0 ← aget p (2 * k); b1 ← aget p (2 * k + 1); Some (s16 (b0 + 256 * b1)).

(** [p + k] for an [int16_t] pointer [p]. *)
Definition ptr_w16 (p : list Z) (k : Z) : list Z := drop (Z.to_nat (2 * k)) p.

Lemma get_w16_in (p : list Z) k b0 b1 :
  aget p (2 * k) = Some b0 -> aget p (2 * k + 1) = Some b1 ->
  get_w16 p k = Some (s16 (b0 + 256 * b1)).
Proof. unfold get_w16. by intros -> ->. Qed.

(** The two bytes of a word, the way the code extracts them. *)
Lemma w16_lo b0 b1 :
  in_u8 b0 -> in_u8 b1 -> Z.land (s16 (b0 + 256 * b1)) 255 = b0.
Proof. intros. rewrite land_255. wrap_lia. Qed.

Lemma w16_u b0 b1 :
  in_u8 b0 -> in_u8 b1 -> u16 (s16 (b0 + 256 * b1)) = b0 + 256 * b1.
Proof. wrap_lia. Qed.

(** A mask of [b] ones above [a] zeroes. *)
Lemma land_mask x a b :
  0 <= a -> 0 <= b ->
  Z.land x ((2 ^ b - 1) * 2 ^ a) = 2 ^ a * ((x / 2 ^ a) mod 2 ^ b).
Proof.
  intros Ha Hb.
  assert (Z.land x ((2 ^ b - 1) * 2 ^ a)
          = Z.shiftl (Z.land (Z.shiftr x a) (2 ^ b - 1)) a) as ->.
  { apply Z.bits_inj'. intros n Hn.
    rewrite <- Z.shiftl_mul_pow2, Z.land_spec by done.
    destruct (Z.lt_ge_cases n a).
    - rewrite !Z.shiftl_spec_low by lia. by rewrite andb_false_r.
    - rewrite !Z.shiftl_spec, Z.land_spec, Z.shiftr_spec by lia.
      by replace (n - a + a) with n by lia. }
  rewrite Z.shiftl_mul_pow2, land_ones_mod, Z.shiftr_div_pow2 by lia. lia.
Qed.

Lemma land_65280 x : Z.land x 65280 = 256 * ((x / 256) mod 256).
Proof. exact (land_mask x 8 8 ltac:(lia) ltac:(lia)). Qed.

Lemma aget_app_r {A} (l k : list A) i :
  0 <= i -> aget (l ++ k) (zlen l + i) = aget k i.
Proof.
  unfold zlen. intros. rewrite !aget_lookup by lia.
  rewrite lookup_app_r by lia. f_equal. lia.
Qed.

Lemma aget_app_l {A} (l k : list A) i :
  i < zlen l -> aget (l ++ k) i = aget l i.
Proof.
  unfold zlen, aget. intros. destruct (Z.ltb_spec i 0); [done|].
  apply lookup_app_l. lia.
Qed.

Lemma aget_Forall {A} (P : A -> Prop) (l : list A) i x :
  Forall P l -> aget l i = Some x -> P x.
Proof.
  intros HF H. pose proof (aget_Some_range _ _ _ H).
  rewrite aget_lookup in H by lia. by eapply Forall_lookup_1.
Qed.

Lemma ptr_w16_app (l k : list Z) n : zlen l = 2 * n -> ptr_w16 (l ++ k) n = k.
Proof.
  unfold ptr_w16, zlen. intros H. rewrite <- H, Nat2Z.id. apply drop_app_length.
Qed.

Lemma aget_fmap {A B} (f : A -> B) (l : list A) i : aget (f <$> l) i = f <$> aget l i.
Proof. unfold aget. destruct (i <? 0); [done|]. apply list_lookup_fmap. Qed.

Lemma zlen_fmap {A B} (f : A -> B) (l : list A) : zlen (f <$> l) = zlen l.
Proof. unfold zlen. by rewrite length_fmap. Qed.

Lemma aget_cons {A} (x : A) (l : list A) i :
  0 < i -> aget (x :: l) i = aget l (i - 1).
Proof.
  intros. rewrite !aget_lookup by lia.
  replace (Z.to_nat i) with (S (Z.to_nat (i - 1))) by lia. done.
Qed.

Lemma zlen_cons {A} (x : A) (l : list A) : zlen (x :: l) = 1 + zlen l.
Proof. unfold zlen. simpl. lia. Qed.

Lemma zlen_nil {A} : zlen (@nil A) = 0.
Proof. done. Qed.

Lemma elem_of_aget {A} (l : list A) x : x ∈ l <-> exists i, aget l i = Some x.
Proof.
  rewrite list_elem_of_lookup. split; intros [i Hi].
  - exists (Z.of_nat i). rewrite aget_lookup by lia. by rewrite Nat2Z.id.
  - exists (Z.to_nat i). pose proof (aget_Some_range _ _ _ Hi).
    by rewrite aget_lookup in Hi by lia.
Qed.

Lemma Forall_mono {A} (P Q : A -> Prop) (l : list A) :
  Forall P l -> (forall x, P x -> Q x) -> Forall Q l.
Proof. induction 1; eauto. Qed.

(** ** Sums *)
Definition sum_list (l : list Z) : Z := foldr Z.add 0 l.

Lemma sum_list_cons x l : sum_list (x :: l) = x + sum_list l.
Proof. done. Qed.

Lemma sum_list_nonneg l : Forall (fun x => 0 <= x) l -> 0 <= sum_list l.
Proof. induction 1; rewrite ?sum_list_cons; [done|lia]. Qed.

Lemma sum_list_bound (f : Z -> Z) (b : Z) v :
  Forall (fun x => f x <= b) v -> sum_list (f <$> v) <= zlen v * b.
Proof.
  induction 1 as [|x v Hx _ IH]; [done|].
  rewrite zlen_cons, fmap_cons, sum_list_cons. lia.
Qed.

Lemma sum_list_app l k : sum_list (l ++ k) = sum_list l + sum_list k.
Proof. induction l; simpl; [done|]. rewrite IHl. lia. Qed.

Lemma sum_list_insert l i x y :
  aget l i = Some x -> sum_list (<[Z.to_nat i := y]> l) = sum_list l - x + y.
Proof.
  intros H. pose proof (aget_Some_range _ _ _ H). rewrite aget_lookup in H by lia.
  rewrite insert_take_drop by (apply lookup_lt_is_Some; eauto).
  rewrite <- (take_drop_middle _ _ _ H) at 3.
  rewrite !sum_list_app, !sum_list_cons. lia.
Qed.

Lemma sum_list_elem l i x :
  Forall (fun x => 0 <= x) l -> aget l i = Some x -> x <= sum_list l.
Proof.
  intros Hl H. pose proof (sum_list_insert l i x 0 H).
  pose proof (aget_Some_range _ _ _ H).
  assert (0 <= sum_list (<[Z.to_nat i := 0]> l))
    by (apply sum_list_nonneg, Forall_insert; [done|lia]). lia.
Qed.

(** Finite case analysis by evaluation: a decidable predicate that holds on
    [0 .. n-1] holds of every [x] of that range. *)
Lemma forall_below (P : Z -> bool) n x :
  forallb P (seqZ 0 n) = true -> 0 <= x < n -> P x = true.
Proof.
  intros H Hx. rewrite forallb_forall in H. apply H.
  apply list_elem_of_In, elem_of_seqZ. lia.
Qed.

(** The same over [2 ^ n] consecutive values, by halving: no unary numbers. *)
Fixpoint all_dyadic (P : Z -> bool) (n : nat) (from : Z) : bool :=
  match n with
  | O => P from
  | S n => all_dyadic P n from && all_dyadic P n (from + 2 ^ Z.of_nat n)
  end.

Lemma all_dyadic_spec P n : forall from x,
  all_dyadic P n from = true -> from <= x < from + 2 ^ Z.of_nat n -> P x = true.
Proof.
  induction n as [|n IH]; intros from x H Hx; cbn [all_dyadic] in H.
  - change (2 ^ Z.of_nat 0) with 1 in Hx. by replace x with from by lia.
  - apply andb_prop in H as [H1 H2]. rewrite Nat2Z.inj_succ, Z.pow_succ_r in Hx by lia.
    destruct (Z.lt_ge_cases x (from + 2 ^ Z.of_nat n)); [apply (IH _ _ H1)|apply (IH _ _ H2)]; lia.
Qed.

#[global] Arguments ptr_w16 : simpl never.
#[global] Arguments get_w16 : simpl never.
#[global] Arguments aget : simpl never.
#[global] Arguments aset : simpl never.
#[global] Arguments aload : simpl never.
#[global] Arguments astore : simpl never.
#[global] Arguments zlen : simpl never.
#[global] Arguments u8 : simpl never.
#[global] Arguments u16 : simpl never.
#[global] Arguments u32 : simpl never.
#[global] Arguments s16 : simpl never.
#[global] Arguments s32 : simpl never.

(** ** Counting loops *)

(** [for (i = from; i < from + todo; i++)] over a state, with failing accesses. *)
Fixpoint for_loop {A} (todo : nat) (i : Z) (f : Z -> A -> option A) (a : A) : option A :=
  match todo with
  | O => Some a
  | S todo => a ← f i a; for_loop todo (i + 1) f a
  end.

Lemma for_loop_inv {A} (P : Z -> A -> Prop) f todo : forall i a,
  P i a ->
  (forall j b, i <= j < i + Z.of_nat todo -> P j b -> exists b', f j b = Some b' /\ P (j + 1) b') ->
  exists a', for_loop todo i f a = Some a' /\ P (i + Z.of_nat todo) a'.
Proof.
  induction todo as [|todo IH]; intros i a Ha Hstep; cbn [for_loop].
  { exists a. split; [done|]. by replace (i + Z.of_nat 0) with i by lia. }
  destruct (Hstep i a) as (a1 & E & H1); [lia|done|]. rewrite (bind_eq _ _ _ E).
  destruct (IH (i + 1) a1 H1) as (a' & E' & H').
  { intros j b Hj. apply Hstep. lia. }
  exists a'. split; [done|]. by replace (i + Z.of_nat (S todo)) with (i + 1 + Z.of_nat todo) by lia.
Qed.

Lemma for_loop_ext {A} (f g : Z -> A -> option A) todo : forall i a,
  (forall j b, i <= j < i + Z.of_nat todo -> f j b = g j b) -> for_loop todo i f a = for_loop todo i g a.
Proof.
  induction todo as [|todo IH]; intros i a H; cbn [for_loop]; [done|]. rewrite H by lia.
  destruct (g i a) as [b|]; [|done]. cbn [mbind option_bind]. apply IH. intros j c Hj. apply H. lia.
Qed.

(** The bounds of a loop whose length is a C [int]. *)
Lemma for_loop_to {A} (P : A -> Prop) f n a :
  P a -> (forall j b, 0 <= j < n -> P b -> exists b', f j b = Some b' /\ P b') ->
  exists a', for_loop (Z.to_nat n) 0 f a = Some a' /\ P a'.
Proof.
  intros Ha Hstep. destruct (for_loop_inv (fun _ => P) f (Z.to_nat n) 0 a Ha) as (a' & E & H); [|by exists a'].
  intros j b Hj. apply Hstep. lia.
Qed.

(** ** Functional record update

    [r <| f := v |>] is [r] with field [f] replaced by [v].  A record opts in
    with an [Eta] instance, its constructor applied to its own projections;
    the setter of a field is then found by abstracting that projection. *)
Class Eta (R : Type) := eta : R -> R.
Class Upd {R T : Type} (proj : R -> T) := upd : (T -> T) -> R -> R.
#[global] Hint Mode Upd + + + : typeclass_instances.
#[global] Arguments upd {_ _} proj {_} / _ _.

Ltac solve_upd :=
  lazymatch goal with
  | |- @Upd ?R ?T ?proj =>
      let f := constr:(fun (g : T -> T) (r : R) =>
        ltac:(
          let e := eval cbv [eta] in (eta r) in
          let e := eval hnf in e in
          lazymatch (eval pattern (proj r) in e) with
          | ?h _ => exact (h (g (proj r)))
          end)) in
      let f := eval cbv beta in f in
      exact f
  end.
#[export] Hint Extern 1 (Upd _) => solve_upd : typeclass_instances.

Declare Scope rec_scope.
Delimit Scope rec_scope with rec.
Notation "r <| p := v |>" := (upd p (fun _ => v) r)
  (at level 1, p at level 0, v at level 200, left associativity,
   format "r  <| p  :=  v |>") : rec_scope.
#[global] Open Scope rec_scope.
