(* ===== verification/Rtp.v ===== *)
(** RTP parsing and RED splitting: [rtp.h], [rtp.c] of the NetEQ MCU side.

    A datagram is the list of its bytes (little-endian build).  A pointer into
    it is the list of bytes from that address on, so [&p[k]] on an [int16_t]
    pointer is [ptr_w16 p k]; reading outside of the memory is [None]. *)
From S2P Require Import Prelude.

(** ** Data *)

(** Error codes of [neteq_error_codes.h] returned here. *)
Definition RED_SPLIT_ERROR1 : Z := -7001.
Definition RED_SPLIT_ERROR2 : Z := -7002.
Definition RTP_TOO_SHORT_PACKET : Z := -7003.
Definition RTP_CORRUPT_PACKET : Z := -7004.

Record RTPPacket := mkRTPPacket {
  rtp_seqNumber : Z;      (* uint16_t *)
  rtp_timeStamp : Z;      (* uint32_t *)
  rtp_ssrc : Z;           (* uint32_t *)
  rtp_payloadType : Z;    (* int *)
  rtp_payload : list Z;   (* const int16_t *: the bytes from there on *)
  rtp_payloadLen : Z;     (* int16_t *)
  rtp_starts_byte1 : Z;   (* int16_t *)
  rtp_rcuPlCntr : Z       (* int16_t *)
}.

#[export] Instance eta_RTPPacket : Eta RTPPacket := fun r =>
  mkRTPPacket (rtp_seqNumber r) (rtp_timeStamp r) (rtp_ssrc r) (rtp_payloadType r)
    (rtp_payload r) (rtp_payloadLen r) (rtp_starts_byte1 r) (rtp_rcuPlCntr r).

(** ** [WebRtcNetEQ_RTPPayloadInfo] *)

(** The P bit's effect: the padding length is the last byte. *)
Definition rtp_padlength (d : list Z) (i_DatagramLen : Z) : option Z :=
  if negb (Z.land i_DatagramLen 1 =? 0) then
    w ← get_w16 d (Z.shiftr i_DatagramLen 1);
    Some (Z.land w 255)
  else
    w ← get_w16 d (Z.shiftr i_DatagramLen 1 - 1);
    Some (Z.shiftr (u16 w) 8).

(** The four-byte fields: network byte order read through two words. *)
Definition rtp_u32 (wa wb : Z) : Z :=
  u32 (Z.lor (Z.lor (Z.lor (Z.shiftl (Z.land (u16 wa) 255) 24)
                           (Z.shiftl (Z.land (u16 wa) 65280) 8))
                    (Z.land (Z.shiftr (u16 wb) 8) 255))
             (Z.shiftl (Z.land (u16 wb) 255) 8)).

Definition rtp_be16 (w : Z) : Z :=
  Z.lor (Z.land (Z.shiftr (u16 w) 8) 255) (Z.shiftl (u16 (Z.land w 255)) 8).

Definition RTPPayloadInfo (d : list Z) (i_DatagramLen : Z) (RTPheader : RTPPacket)
  : option (Z * RTPPacket) :=
  if i_DatagramLen <? 12 then Some (RTP_TOO_SHORT_PACKET, RTPheader) else
  w0 ← get_w16 d 0; w1 ← get_w16 d 1; w2 ← get_w16 d 2;
  w3 ← get_w16 d 3; w4 ← get_w16 d 4; w5 ← get_w16 d 5;
  let i_IPver := Z.shiftr (u16 (Z.land w0 192)) 6 in
  let i_P := Z.shiftr (u16 (Z.land w0 32)) 5 in
  let i_X := Z.shiftr (u16 (Z.land w0 16)) 4 in
  let i_CC := u16 (Z.land w0 15) in
  i_extlength ← (if i_X =? 1
                 then w ← get_w16 d (7 + 2 * i_CC); Some (rtp_be16 w)
                 else Some (-1));
  i_padlength ← (if i_P =? 1 then rtp_padlength d i_DatagramLen else Some 0);
  let i_startPosition := 12 + 4 * (i_extlength + 1) + 4 * i_CC in
  let h := RTPheader
    <| rtp_payloadType := Z.land (Z.shiftr w0 8) 127 |>
    <| rtp_seqNumber := u16 (rtp_be16 w1) |>
    <| rtp_timeStamp := rtp_u32 w2 w3 |>
    <| rtp_ssrc := rtp_u32 w4 w5 |>
    <| rtp_payload := ptr_w16 d (Z.shiftr i_startPosition 1) |>
    <| rtp_payloadLen := s16 (i_DatagramLen - i_startPosition - i_padlength) |>
    <| rtp_starts_byte1 := 0 |> in
  if negb (i_IPver =? 2) || (rtp_payloadLen h <=? 0) || (16000 <=? rtp_payloadLen h)
     || (i_startPosition <? 12) || (i_DatagramLen <? i_startPosition)
  then Some (RTP_CORRUPT_PACKET, h)
  else Some (0, h).

(** ** [WebRtcNetEQ_RedundancySplit] *)

(** "Discard all but the two last payloads": [off] is [pw16_data] in words from
    the payload, [words] the payload's length in words.  Every round moves
    two words, so [words] rounds are enough. *)
Fixpoint red_discard (fuel : nat) (p : list Z) (words off discarded : Z)
  : option (Z * Z) :=
  match fuel with
  | O => None
  | S fuel =>
      w2 ← get_w16 p (off + 2);
      if negb (Z.land w2 128 =? 0) && (off <? words) then
        w1 ← get_w16 p (off + 1);
        red_discard fuel p words (off + 2)
          (discarded + (4 + Z.shiftl (Z.land (u16 w1) 3) 8
                          + Z.shiftr (Z.land (u16 w1) 65280) 8))
      else Some (off, discarded)
  end.

(** [payloadType = -1; payloadLen = 0] on the headers from index [k] on. *)
Definition red_clear (k : nat) (hs : list RTPPacket) : list RTPPacket :=
  imap (fun i h => if decide (k <= i)%nat
                   then h <| rtp_payloadType := -1 |> <| rtp_payloadLen := 0 |>
                   else h) hs.

Definition red_main (h0 : RTPPacket) (p : list Z) (off blockLength discarded : Z)
  : RTPPacket :=
  h0 <| rtp_starts_byte1 := Z.land (5 + blockLength) 1 |>
     <| rtp_payloadLen := s16 (rtp_payloadLen h0 - (blockLength + 5) - discarded) |>
     <| rtp_payload := ptr_w16 p (off + Z.shiftr (5 + blockLength) 1) |>.

(** The headers [RTPheader[0..i_MaximumPayloads-1]] are the list [hs]; the
    result is the return value, the headers and [*i_No_Of_Payloads]
    ([None] when the code does not write it). *)
Definition RedundancySplit (hs : list RTPPacket) (i_MaximumPayloads : Z)
  : option (Z * list RTPPacket * option Z) :=
  h0 ← aget hs 0;
  let p := rtp_payload h0 in
  w0 ← get_w16 p 0;
  if Z.land w0 128 =? 0 then
    (* only one payload in this packet *)
    let h0 := h0 <| rtp_payloadType := Z.land (u16 w0) 127 |> in
    Some (0, red_main h0 p 0 (-4) 0 :: drop 1 (red_clear 1 hs), Some 1)
  else
    let words := Z.shiftr (rtp_payloadLen h0 + 1) 1 in
    '(off, discarded) ← red_discard (S (S (length p))) p words 0 0;
    if words <=? off then Some (RED_SPLIT_ERROR2, hs, None) else
    w0 ← get_w16 p off; w1 ← get_w16 p (off + 1); w2 ← get_w16 p (off + 2);
    let uw16_secondPayload := Z.land (u16 w0) 127 in
    let h0 := h0 <| rtp_payloadType := Z.land (u16 w2) 127 |> in
    let uw16_offsetTimeStamp :=
      u16 (Z.shiftr (Z.land (u16 w0) 65280) 2 + Z.shiftr (Z.land (u16 w1) 252) 2) in
    let i_blockLength :=
      Z.shiftl (Z.land (u16 w1) 3) 8 + Z.shiftr (Z.land (u16 w1) 65280) 8 in
    if i_MaximumPayloads <? 2 then
      Some (0, red_main h0 p off i_blockLength discarded :: drop 1 (red_clear 1 hs),
            Some 1)
    else
      h1 ← aget hs 1;
      let h1 := h1
        <| rtp_payloadType := uw16_secondPayload |>
        <| rtp_payload := ptr_w16 p (off + Z.shiftr 5 1) |>
        <| rtp_starts_byte1 := Z.land 5 1 |>
        <| rtp_seqNumber := rtp_seqNumber h0 |>
        <| rtp_timeStamp := u32 (rtp_timeStamp h0 - uw16_offsetTimeStamp) |>
        <| rtp_ssrc := rtp_ssrc h0 |>
        <| rtp_payloadLen := s16 i_blockLength |> in
      Some (0, red_main h0 p off i_blockLength discarded :: h1
                 :: drop 2 (red_clear 2 hs), Some 2).

(** ** Reference format: an RFC 3550 serialiser *)

Definition be16 (x : Z) : list Z := [x / 256; x mod 256].
Definition be32 (x : Z) : list Z :=
  [x / 16777216; (x / 65536) mod 256; (x / 256) mod 256; x mod 256].

Record RtpSpec := mkRtpSpec {
  sp_marker : bool; sp_pt : Z; sp_seq : Z; sp_ts : Z; sp_ssrc : Z;
  sp_csrc : list Z;                  (* contributing sources *)
  sp_ext : option (Z * list Z);      (* profile, 32-bit words *)
  sp_payload : list Z;
  sp_pad : Z                         (* number of padding bytes, 0 for none *)
}.

Definition is_Some_b {A} (o : option A) : bool := match o with Some _ => true | None => false end.

Definition rtp_header_bytes (s : RtpSpec) : list Z :=
  [128 + 32 * b2z (0 <? sp_pad s) + 16 * b2z (is_Some_b (sp_ext s)) + zlen (sp_csrc s);
   128 * b2z (sp_marker s) + sp_pt s]
  ++ be16 (sp_seq s) ++ be32 (sp_ts s) ++ be32 (sp_ssrc s).

Definition rtp_ext_bytes (s : RtpSpec) : list Z :=
  match sp_ext s with
  | None => []
  | Some (profile, ws) => be16 profile ++ be16 (zlen ws) ++ concat (be32 <$> ws)
  end.

Definition rtp_pad_bytes (s : RtpSpec) : list Z :=
  if 0 <? sp_pad s then replicate (Z.to_nat (sp_pad s - 1)) 0 ++ [sp_pad s] else [].

Definition rtp_prefix (s : RtpSpec) : list Z :=
  rtp_header_bytes s ++ concat (be32 <$> sp_csrc s) ++ rtp_ext_bytes s.

Definition rtp_serialize (s : RtpSpec) : list Z :=
  rtp_prefix s ++ sp_payload s ++ rtp_pad_bytes s.

Record rtp_wf (s : RtpSpec) : Prop := {
  wf_pt : 0 <= sp_pt s < 128;
  wf_seq : in_u16 (sp_seq s);
  wf_ts : in_u32 (sp_ts s);
  wf_ssrc : in_u32 (sp_ssrc s);
  wf_csrc : zlen (sp_csrc s) <= 15;
  wf_ext : forall pr ws, sp_ext s = Some (pr, ws) -> in_u16 pr /\ zlen ws < 65536;
  wf_payload : 0 < zlen (sp_payload s) < 16000;
  wf_pad : in_u8 (sp_pad s)
}.

(** ** Field extraction *)

Lemma rtp_be16_bytes b0 b1 :
  in_u8 b0 -> in_u8 b1 -> rtp_be16 (s16 (b0 + 256 * b1)) = 256 * b0 + b1.
Proof.
  intros H0 H1. unfold rtp_be16. rewrite w16_u, w16_lo by done.
  rewrite u16_id by (wrap_unfold; lia).
  rewrite Z.shiftr_div_pow2, land_255 by lia.
  replace (((b0 + 256 * b1) / 2 ^ 8) mod 256) with b1 by wrap_lia.
  rewrite Z.lor_comm, lor_shiftl_add; wrap_unfold; lia.
Qed.

Lemma rtp_u32_bytes b0 b1 b2 b3 :
  in_u8 b0 -> in_u8 b1 -> in_u8 b2 -> in_u8 b3 ->
  rtp_u32 (s16 (b0 + 256 * b1)) (s16 (b2 + 256 * b3)) =
  16777216 * b0 + 65536 * b1 + 256 * b2 + b3.
Proof.
  intros. unfold rtp_u32. rewrite !w16_u by done.
  rewrite land_65280, !land_255, Z.shiftr_div_pow2 by lia.
  replace ((b0 + 256 * b1) mod 256) with b0 by wrap_lia.
  replace ((b0 + 256 * b1) / 256 mod 256) with b1 by wrap_lia.
  replace ((b2 + 256 * b3) mod 256) with b2 by wrap_lia.
  replace (((b2 + 256 * b3) / 2 ^ 8) mod 256) with b3 by wrap_lia.
  replace (Z.shiftl (256 * b1) 8) with (Z.shiftl b1 16)
    by (rewrite !Z.shiftl_mul_pow2 by lia; lia).
  rewrite <- Z.lor_assoc, (Z.lor_comm b3), (lor_shiftl_add b2 b3 8) by (wrap_unfold; lia).
  replace (b2 * 2 ^ 8 + b3) with (256 * b2 + b3) by lia.
  rewrite <- Z.lor_assoc, (lor_shiftl_add b1 _ 16) by (wrap_unfold; lia).
  rewrite lor_shiftl_add by (wrap_unfold; lia).
  rewrite u32_id; wrap_unfold; lia.
Qed.

Lemma be16_bytes x : in_u16 x -> Forall in_u8 (be16 x).
Proof. intros. repeat constructor; wrap_lia. Qed.
Lemma be32_bytes x : in_u32 x -> Forall in_u8 (be32 x).
Proof. intros. repeat constructor; wrap_lia. Qed.

(** The first header byte decodes to version, P, X and CC. *)
Lemma rtp_byte0 p x cc b1 :
  0 <= cc < 16 -> in_u8 b1 ->
  let w := s16 (128 + 32 * b2z p + 16 * b2z x + cc + 256 * b1) in
  Z.shiftr (u16 (Z.land w 192)) 6 = 2 /\ Z.shiftr (u16 (Z.land w 32)) 5 = b2z p /\
  Z.shiftr (u16 (Z.land w 16)) 4 = b2z x /\ u16 (Z.land w 15) = cc.
Proof.
  intros Hcc Hb w.
  assert (Hw : forall m, Z.land 255 m = m ->
    Z.land w m = Z.land (128 + 32 * b2z p + 16 * b2z x + cc) m).
  { intros m Hm. rewrite <- (w16_lo (128 + _ + _ + cc) b1), <- Z.land_assoc, Hm;
      [done| |done]. destruct p, x; simpl; wrap_unfold; lia. }
  rewrite !Hw by done.
  pose (P := fun cc => bool_decide (
    Z.shiftr (u16 (Z.land (128 + 32 * b2z p + 16 * b2z x + cc) 192)) 6 = 2 /\
    Z.shiftr (u16 (Z.land (128 + 32 * b2z p + 16 * b2z x + cc) 32)) 5 = b2z p /\
    Z.shiftr (u16 (Z.land (128 + 32 * b2z p + 16 * b2z x + cc) 16)) 4 = b2z x /\
    u16 (Z.land (128 + 32 * b2z p + 16 * b2z x + cc) 15) = cc)).
  assert (HP : P cc = true).
  { apply forall_below with 16; [|done]. unfold P. destruct p, x; vm_compute; done. }
  by apply bool_decide_eq_true in HP.
Qed.

Lemma rtp_byte1 m pt b0 :
  0 <= pt < 128 -> in_u8 b0 ->
  Z.land (Z.shiftr (s16 (b0 + 256 * (128 * b2z m + pt))) 8) 127 = pt.
Proof.
  intros. rewrite (land_ones_mod _ 7), Z.shiftr_div_pow2 by lia.
  destruct m; simpl; wrap_lia.
Qed.

(** ** Reading the serialised form back *)

Lemma zlen_concat_be32 ws : zlen (concat (be32 <$> ws)) = 4 * zlen ws.
Proof. induction ws; [done|]. unfold zlen in *; csimpl; lia. Qed.

Lemma zlen_rtp_header s : zlen (rtp_header_bytes s) = 12.
Proof. done. Qed.

Definition rtp_start (s : RtpSpec) : Z :=
  12 + 4 * zlen (sp_csrc s)
  + match sp_ext s with Some (_, ws) => 4 * (zlen ws + 1) | None => 0 end.

Lemma zlen_rtp_prefix s : zlen (rtp_prefix s) = rtp_start s.
Proof.
  unfold rtp_prefix, rtp_start, rtp_ext_bytes.
  rewrite !zlen_app, zlen_rtp_header, zlen_concat_be32.
  destruct (sp_ext s) as [[pr ws]|]; [|unfold zlen; simpl; lia].
  rewrite (zlen_app (be16 pr)), zlen_app, zlen_concat_be32. unfold zlen; simpl; lia.
Qed.

Lemma zlen_rtp_pad s : in_u8 (sp_pad s) -> zlen (rtp_pad_bytes s) = sp_pad s.
Proof.
  intros H. unfold rtp_pad_bytes. destruct (Z.ltb_spec 0 (sp_pad s)).
  - rewrite zlen_app, zlen_replicate. unfold zlen; simpl; lia.
  - unfold in_u8 in *. unfold zlen; simpl; lia.
Qed.

(** The extension length field, at word [7 + 2 * CC]. *)
Lemma rtp_ext_word s rest pr ws :
  rtp_wf s -> sp_ext s = Some (pr, ws) ->
  get_w16 (rtp_serialize s ++ rest) (7 + 2 * zlen (sp_csrc s))
  = Some (s16 (zlen ws / 256 + 256 * (zlen ws mod 256))).
Proof.
  intros Hwf He. unfold rtp_serialize, rtp_prefix, rtp_ext_bytes. rewrite He.
  pose proof (zlen_nonneg (sp_csrc s)).
  assert (forall k, 0 <= k -> aget
    (((rtp_header_bytes s ++ concat (be32 <$> sp_csrc s) ++
      be16 pr ++ be16 (zlen ws) ++ concat (be32 <$> ws)) ++
      sp_payload s ++ rtp_pad_bytes s) ++ rest)
    (12 + (4 * zlen (sp_csrc s) + (2 + k)))
    = aget (be16 (zlen ws) ++ (concat (be32 <$> ws) ++ sp_payload s ++
                               rtp_pad_bytes s ++ rest)) k) as Hk.
  { intros k Hk. rewrite <- !app_assoc, <- (zlen_rtp_header s), aget_app_r by lia.
    rewrite <- zlen_concat_be32, aget_app_r by lia.
    by rewrite (aget_app_r (be16 pr)) by lia. }
  apply get_w16_in.
  - replace (2 * _) with (12 + (4 * zlen (sp_csrc s) + (2 + 0))) by lia.
    by rewrite Hk by lia.
  - replace (2 * _ + 1) with (12 + (4 * zlen (sp_csrc s) + (2 + 1))) by lia.
    by rewrite Hk by lia.
Qed.

(** The padding length, in the last byte of the datagram. *)
Lemma rtp_padlength_last d pad rest :
  in_u8 pad -> byte_list rest -> byte_list d ->
  (Z.odd (zlen d + 1) = true -> rest <> []) ->
  rtp_padlength (d ++ [pad] ++ rest) (zlen d + 1) = Some pad.
Proof.
  intros Hp Hr Hd Hrest. unfold rtp_padlength.
  rewrite (land_ones_mod _ 1), Z.shiftr_div_pow2 by lia.
  change (2 ^ 1) with 2. pose proof (zlen_nonneg d) as Hlen.
  assert (aget (d ++ [pad] ++ rest) (zlen d) = Some pad) as Hlast.
  { rewrite <- (Z.add_0_r (zlen d)) at 1. by rewrite aget_app_r by lia. }
  destruct (Z.eqb_spec ((zlen d + 1) mod 2) 0) as [E|E]; simpl.
  - destruct (aget_in d (zlen d - 1)) as [b Hb]; [wrap_lia|].
    rewrite (get_w16_in _ _ b pad).
    + cbn. rewrite w16_u, Z.shiftr_div_pow2 by
        (done || lia || by apply (aget_Forall in_u8 d (zlen d - 1))).
      pose proof (aget_Forall in_u8 d (zlen d - 1) b Hd Hb). f_equal. wrap_lia.
    + rewrite <- Hb, <- (aget_app_l d ([pad] ++ rest)) by lia. f_equal. wrap_lia.
    + rewrite <- Hlast. f_equal. wrap_lia.
  - destruct rest as [|b rest].
    { rewrite Zmod_odd in E. destruct (Z.odd _); [by destruct Hrest|done]. }
    inversion Hr; subst.
    rewrite (get_w16_in _ _ pad b).
    + cbn. by rewrite w16_lo.
    + rewrite <- Hlast. f_equal. wrap_lia.
    + replace (2 * ((zlen d + 1) / 2) + 1) with (zlen d + 1) by wrap_lia.
      by rewrite aget_app_r by lia.
Qed.

Definition rtp_parsed (s : RtpSpec) (rest : list Z) (h0 : RTPPacket) : RTPPacket :=
  mkRTPPacket (sp_seq s) (sp_ts s) (sp_ssrc s) (sp_pt s)
    (sp_payload s ++ rtp_pad_bytes s ++ rest) (zlen (sp_payload s)) 0
    (rtp_rcuPlCntr h0).

Definition rtp_bytes (s : RtpSpec) : Prop :=
  byte_list (sp_payload s) /\ Forall in_u32 (sp_csrc s) /\
  (forall pr ws, sp_ext s = Some (pr, ws) -> Forall in_u32 ws).

Lemma be32_concat_bytes ws : Forall in_u32 ws -> byte_list (concat (be32 <$> ws)).
Proof.
  induction 1; [constructor|]. apply Forall_app_2; [by apply be32_bytes|done].
Qed.

Lemma rtp_prefix_bytes s : rtp_wf s -> rtp_bytes s -> byte_list (rtp_prefix s).
Proof.
  intros [] (_ & Hc & He). unfold rtp_prefix, rtp_header_bytes, byte_list.
  pose proof (zlen_nonneg (sp_csrc s)). rewrite !Forall_app. split_and!;
    [|by apply be16_bytes|by apply be32_bytes..|by apply be32_concat_bytes|].
  - unfold is_Some_b. apply Forall_cons_2; [|apply Forall_cons_2; [|by apply Forall_nil]].
    + destruct (0 <? _), (sp_ext s); simpl; wrap_unfold; lia.
    + destruct (sp_marker s); simpl; wrap_unfold; lia.
  - unfold rtp_ext_bytes. destruct (sp_ext s) as [[pr ws]|] eqn:E; [|constructor].
    destruct (wf_ext0 pr ws eq_refl). pose proof (zlen_nonneg ws).
    rewrite !Forall_app. split_and!; try apply be16_bytes; wrap_unfold; [lia..|].
    apply be32_concat_bytes; eauto.
Qed.

Lemma zlen_rtp_serialize s :
  in_u8 (sp_pad s) ->
  zlen (rtp_serialize s) = rtp_start s + zlen (sp_payload s) + sp_pad s.
Proof.
  intros. unfold rtp_serialize.
  rewrite !zlen_app, zlen_rtp_prefix, zlen_rtp_pad by done. lia.
Qed.

Lemma rtp_serialize_padlength s rest :
  rtp_wf s -> rtp_bytes s -> byte_list rest -> 0 < sp_pad s ->
  (Z.odd (zlen (rtp_serialize s)) = true -> rest <> []) ->
  rtp_padlength (rtp_serialize s ++ rest) (zlen (rtp_serialize s)) = Some (sp_pad s).
Proof.
  intros Hwf Hb Hr Hp Hodd.
  pose (d := rtp_prefix s ++ sp_payload s ++ replicate (Z.to_nat (sp_pad s - 1)) 0).
  assert (rtp_serialize s = d ++ [sp_pad s]) as Hd.
  { unfold rtp_serialize, rtp_pad_bytes, d.
    destruct (Z.ltb_spec 0 (sp_pad s)); [|lia]. by rewrite <- !app_assoc. }
  rewrite Hd, <- app_assoc, zlen_app in *. change (zlen [sp_pad s]) with 1.
  apply rtp_padlength_last; [apply Hwf|done| |done].
  unfold d, byte_list. rewrite !Forall_app.
  split_and!; [by apply rtp_prefix_bytes|by destruct Hb|].
  apply Forall_replicate. wrap_unfold; lia.
Qed.

(** The six header words. *)
Lemma rtp_header_words s rest :
  let d := rtp_serialize s ++ rest in
  get_w16 d 0 = Some (s16 (128 + 32 * b2z (0 <? sp_pad s)
                  + 16 * b2z (is_Some_b (sp_ext s)) + zlen (sp_csrc s)
                  + 256 * (128 * b2z (sp_marker s) + sp_pt s))) /\
  get_w16 d 1 = Some (s16 (sp_seq s / 256 + 256 * (sp_seq s mod 256))) /\
  get_w16 d 2 = Some (s16 (sp_ts s / 16777216 + 256 * ((sp_ts s / 65536) mod 256))) /\
  get_w16 d 3 = Some (s16 ((sp_ts s / 256) mod 256 + 256 * (sp_ts s mod 256))) /\
  get_w16 d 4 = Some (s16 (sp_ssrc s / 16777216 + 256 * ((sp_ssrc s / 65536) mod 256))) /\
  get_w16 d 5 = Some (s16 ((sp_ssrc s / 256) mod 256 + 256 * (sp_ssrc s mod 256))).
Proof. done. Qed.

Lemma be32_value x :
  in_u32 x ->
  rtp_u32 (s16 (x / 16777216 + 256 * ((x / 65536) mod 256)))
          (s16 ((x / 256) mod 256 + 256 * (x mod 256))) = x.
Proof. intros. rewrite rtp_u32_bytes; wrap_lia. Qed.

Lemma be16_value x :
  in_u16 x -> rtp_be16 (s16 (x / 256 + 256 * (x mod 256))) = x.
Proof. intros. rewrite rtp_be16_bytes; wrap_lia. Qed.

(** The extension length the parser reads, [-1] without the X bit. *)
Lemma rtp_extlength s rest :
  rtp_wf s ->
  (if b2z (is_Some_b (sp_ext s)) =? 1
   then w ← get_w16 (rtp_serialize s ++ rest) (7 + 2 * zlen (sp_csrc s));
        Some (rtp_be16 w)
   else Some (-1))
  = Some ((rtp_start s - 12 - 4 * zlen (sp_csrc s)) / 4 - 1).
Proof.
  intros Hwf. unfold rtp_start. destruct (sp_ext s) as [[pr ws]|] eqn:E;
    cbn [is_Some_b b2z Z.eqb Pos.eqb].
  - rewrite (rtp_ext_word _ _ _ _ Hwf E). cbn [mbind option_bind].
    destruct (wf_ext _ Hwf _ _ E). pose proof (zlen_nonneg ws).
    rewrite be16_value by (wrap_unfold; lia). f_equal. wrap_lia.
  - f_equal. wrap_lia.
Qed.

Lemma rtp_padding s rest :
  rtp_wf s -> rtp_bytes s -> byte_list rest ->
  (Z.odd (zlen (rtp_serialize s)) = true -> rest <> []) ->
  (if b2z (0 <? sp_pad s) =? 1
   then rtp_padlength (rtp_serialize s ++ rest) (zlen (rtp_serialize s))
   else Some 0) = Some (sp_pad s).
Proof.
  intros Hwf Hb Hr Hodd. destruct (Z.ltb_spec 0 (sp_pad s)); simpl.
  - by apply rtp_serialize_padlength.
  - destruct Hwf. f_equal. wrap_unfold; lia.
Qed.

Lemma rtp_serialize_app s rest :
  rtp_serialize s ++ rest = rtp_prefix s ++ (sp_payload s ++ rtp_pad_bytes s ++ rest).
Proof.
  unfold rtp_serialize. generalize (rtp_prefix s). intros p.
  by rewrite <- !app_assoc.
Qed.

Lemma rtp_start_div4 s : exists k, rtp_start s = 4 * k.
Proof. unfold rtp_start. destruct (sp_ext s) as [[??]|]; eexists; [instantiate (1 := 3 + zlen (sp_csrc s) + (zlen l + 1))|instantiate (1 := 3 + zlen (sp_csrc s))]; lia. Qed.

Lemma rtp_start_ge s : 12 + 4 * zlen (sp_csrc s) <= rtp_start s.
Proof. unfold rtp_start. destruct (sp_ext s) as [[??]|]; [pose proof (zlen_nonneg l)|]; lia. Qed.

Lemma RTPPayloadInfo_serialize_eq s rest h0 :
  rtp_wf s -> rtp_bytes s -> byte_list rest ->
  (Z.odd (zlen (rtp_serialize s)) = true -> rest <> []) ->
  RTPPayloadInfo (rtp_serialize s ++ rest) (zlen (rtp_serialize s)) h0
  = Some (0, rtp_parsed s rest h0).
Proof.
  intros Hwf Hb Hr Hodd. pose proof (zlen_nonneg (sp_csrc s)).
  pose proof (zlen_rtp_serialize s (wf_pad _ Hwf)) as Hlen.
  pose proof (rtp_start_ge s). destruct (rtp_start_div4 s) as [k Hk].
  destruct (wf_pad _ Hwf), (wf_payload _ Hwf), (wf_pt _ Hwf).
  pose proof (wf_csrc _ Hwf).
  destruct (rtp_header_words s rest) as (E0 & E1 & E2 & E3 & E4 & E5).
  unfold RTPPayloadInfo. rewrite E0, E1, E2, E3, E4, E5.
  case_if; [lia|].
  destruct (rtp_byte0 (0 <? sp_pad s) (is_Some_b (sp_ext s)) (zlen (sp_csrc s))
     (128 * b2z (sp_marker s) + sp_pt s)) as (Hv & HP & HX & HCC);
    [destruct Hwf; lia|destruct (sp_marker s); simpl; wrap_unfold; lia|].
  cbn [mbind option_bind]. cbv zeta. rewrite Hv, HP, HX, HCC.
  rewrite rtp_extlength by done. cbn [mbind option_bind].
  rewrite rtp_padding by done. cbn [mbind option_bind].
  replace (12 + 4 * _ + 4 * zlen (sp_csrc s)) with (rtp_start s) by wrap_lia.
  rewrite Hlen, Z.shiftr_div_pow2, rtp_byte1
    by (lia || destruct (0 <? _), (sp_ext s); simpl; wrap_unfold; lia).
  destruct Hwf. rewrite !be16_value, !be32_value, u16_id by done.
  replace (rtp_start s + _ + _ - _ - _) with (zlen (sp_payload s)) by lia.
  rewrite s16_id by (wrap_unfold; lia).
  rewrite rtp_serialize_app, ptr_w16_app by (rewrite zlen_rtp_prefix; wrap_lia).
  simpl.
  repeat case_if; try discriminate;
    repeat match goal with H : _ || _ = true |- _ => apply orb_prop in H as [H|H] end;
    bool_lia; try lia.
  done.
Qed.

(** The bytes a parsed header designates: [payloadLen] bytes from the payload
    pointer, one byte later when [starts_byte1] is set. *)
Definition rtp_data (h : RTPPacket) : option (list Z) :=
  aload (rtp_payload h) (rtp_starts_byte1 h) (rtp_payloadLen h).

Lemma rtp_data_app h pre l rest :
  rtp_payload h = pre ++ l ++ rest -> rtp_starts_byte1 h = zlen pre ->
  rtp_payloadLen h = zlen l -> rtp_data h = Some l.
Proof.
  unfold rtp_data. intros -> -> ->. pose proof (zlen_nonneg rest).
  rewrite aload_in by (rewrite ?zlen_app; auto using zlen_nonneg; lia).
  unfold zlen. rewrite !Nat2Z.id, drop_app_length. f_equal. apply take_app_length.
Qed.

(** ** Reference format of RFC 2198 *)

Definition red_block_header (pt off len : Z) : list Z :=
  [128 + pt; off / 64; 4 * (off mod 64) + len / 256; len mod 256].

(** One redundant block and the primary block. *)
Definition red_serialize2 (pt1 off : Z) (sec : list Z) (pt : Z) (main : list Z)
  : list Z :=
  red_block_header pt1 off (zlen sec) ++ [pt] ++ sec ++ main.

(** Two redundant blocks and the primary block. *)
Definition red_serialize3 (pt1 off1 : Z) (d1 : list Z) (pt2 off2 : Z) (d2 : list Z)
    (pt : Z) (main : list Z) : list Z :=
  red_block_header pt1 off1 (zlen d1) ++ red_block_header pt2 off2 (zlen d2)
  ++ [pt] ++ d1 ++ d2 ++ main.

Record red_wf2 (pt1 off : Z) (sec : list Z) (pt : Z) (main : list Z) : Prop := {
  rw_pt1 : 0 <= pt1 < 128; rw_pt : 0 <= pt < 128; rw_off : 0 <= off < 16384;
  rw_sec : 0 < zlen sec < 1024; rw_main : 0 < zlen main < 15000;
  rw_sec_b : byte_list sec; rw_main_b : byte_list main
}.

(** The pointer arithmetic [&p[n >> 1]] with [starts_byte1 = n & 1]. *)
Lemma ptr_half_app (pre l : list Z) off n :
  0 <= off -> 0 <= n -> zlen pre = 2 * off + n ->
  exists pre', ptr_w16 (pre ++ l) (off + Z.shiftr n 1) = pre' ++ l
               /\ zlen pre' = Z.land n 1.
Proof.
  intros Ho Hn Hp. rewrite Z.shiftr_div_pow2, (land_ones_mod _ 1) by lia.
  change (2 ^ 1) with 2. unfold ptr_w16.
  exists (drop (Z.to_nat (2 * (off + n / 2))) pre).
  unfold zlen in *. rewrite length_drop. split; [|wrap_lia].
  apply drop_app_le. wrap_lia.
Qed.

(** What the code extracts from the two words of a block header. *)
Lemma red_word0 b0 b1 :
  in_u8 b0 -> in_u8 b1 ->
  Z.land (u16 (s16 (b0 + 256 * b1))) 127 = b0 mod 128 /\
  Z.land (s16 (b0 + 256 * b1)) 128 = 128 * (b0 / 128) /\
  Z.shiftr (Z.land (u16 (s16 (b0 + 256 * b1))) 65280) 2 = 64 * b1.
Proof.
  intros. rewrite w16_u, land_65280, (land_ones_mod _ 7), Z.shiftr_div_pow2 by done.
  rewrite (land_mask _ 7 1) by done.
  split_and!; wrap_lia.
Qed.

Lemma red_word1 b0 b1 :
  in_u8 b0 -> in_u8 b1 ->
  Z.shiftr (Z.land (u16 (s16 (b0 + 256 * b1))) 252) 2 = b0 / 4 /\
  Z.shiftl (Z.land (u16 (s16 (b0 + 256 * b1))) 3) 8
    + Z.shiftr (Z.land (u16 (s16 (b0 + 256 * b1))) 65280) 8 = 256 * (b0 mod 4) + b1.
Proof.
  intros. rewrite w16_u, land_65280, (land_ones_mod _ 2) by done.
  rewrite (land_mask _ 2 6), !Z.shiftr_div_pow2, Z.shiftl_mul_pow2 by done.
  split; wrap_lia.
Qed.

(** No further block header at [off + 2]: the discarding loop stops at once. *)
Lemma red_discard_stop fuel p words off disc w :
  get_w16 p (off + 2) = Some w -> Z.land w 128 = 0 ->
  red_discard (S fuel) p words off disc = Some (off, disc).
Proof. intros Hw H. simpl. rewrite Hw. cbn. by rewrite H. Qed.

Section Red2.
Context (pt1 off : Z) (sec : list Z) (pt : Z) (main rest : list Z).
Context (wf : red_wf2 pt1 off sec pt main).
Let p := red_serialize2 pt1 off sec pt main ++ rest.

Lemma red2_words : exists b,
  in_u8 b /\
  get_w16 p 0 = Some (s16 (128 + pt1 + 256 * (off / 64))) /\
  get_w16 p 1 = Some (s16 (4 * (off mod 64) + zlen sec / 256
                           + 256 * (zlen sec mod 256))) /\
  get_w16 p 2 = Some (s16 (pt + 256 * b)).
Proof using wf.
  destruct wf. destruct sec as [|b l]; [unfold zlen in *; simpl in *; lia|].
  inversion rw_sec_b0. exists b. split_and!; done.
Qed.

Lemma zlen_red2 : zlen (red_serialize2 pt1 off sec pt main)
                  = 5 + zlen sec + zlen main.
Proof. unfold red_serialize2. rewrite !zlen_app. unfold zlen. simpl. lia. Qed.

(** The word expressions of the code on these words. *)
Lemma red2_fields w0 w1 w2 b :
  in_u8 b ->
  w0 = s16 (128 + pt1 + 256 * (off / 64)) ->
  w1 = s16 (4 * (off mod 64) + zlen sec / 256 + 256 * (zlen sec mod 256)) ->
  w2 = s16 (pt + 256 * b) ->
  Z.land w0 128 = 128 /\ Z.land w2 128 = 0 /\
  Z.land (u16 w0) 127 = pt1 /\ Z.land (u16 w2) 127 = pt /\
  u16 (Z.shiftr (Z.land (u16 w0) 65280) 2 + Z.shiftr (Z.land (u16 w1) 252) 2) = off /\
  Z.shiftl (Z.land (u16 w1) 3) 8 + Z.shiftr (Z.land (u16 w1) 65280) 8 = zlen sec.
Proof using wf.
  destruct wf. intros Hb -> -> ->.
  destruct (red_word0 (128 + pt1) (off / 64)) as (-> & -> & ->); [wrap_lia..|].
  destruct (red_word0 pt b) as (-> & -> & _); [wrap_unfold; lia|done|].
  destruct (red_word1 (4 * (off mod 64) + zlen sec / 256) (zlen sec mod 256))
    as (-> & ->); [wrap_lia..|].
  split_and!; wrap_lia.
Qed.

(** The code's split of the block into its two parts, for the header that
    carries it. *)
Lemma RedundancySplit_two h0 h1 :
  rtp_payload h0 = p ->
  rtp_payloadLen h0 = zlen (red_serialize2 pt1 off sec pt main) ->
  exists h0' h1',
    RedundancySplit [h0; h1] 2 = Some (0, [h0'; h1'], Some 2) /\
    rtp_data h0' = Some main /\ rtp_data h1' = Some sec /\
    rtp_payloadType h0' = pt /\ rtp_payloadType h1' = pt1 /\
    rtp_timeStamp h0' = rtp_timeStamp h0 /\
    rtp_timeStamp h1' = u32 (rtp_timeStamp h0 - off) /\
    rtp_seqNumber h0' = rtp_seqNumber h0 /\ rtp_seqNumber h1' = rtp_seqNumber h0 /\
    rtp_ssrc h0' = rtp_ssrc h0 /\ rtp_ssrc h1' = rtp_ssrc h0.
Proof using wf.
  intros Hp Hl. rewrite zlen_red2 in Hl. destruct red2_words as (b & Hb & E0 & E1 & E2).
  destruct (red2_fields _ _ _ b Hb eq_refl eq_refl eq_refl)
    as (F0 & F2 & F3 & F4 & F5 & F6).
  destruct wf.
  unfold RedundancySplit. change (aget [h0; h1] 0) with (Some h0).
  cbn [mbind option_bind]. rewrite Hp, E0. cbn [mbind option_bind]. rewrite F0.
  change (128 =? 0) with false. cbn iota.
  rewrite (red_discard_stop _ p _ 0 _ _ E2 F2). cbn [mbind option_bind].
  case_if.
  { rewrite Z.shiftr_div_pow2 in * by lia. wrap_lia. }
  rewrite E0. cbn [mbind option_bind]. change (0 + 1) with 1. rewrite E1.
  cbn [mbind option_bind]. change (0 + 2) with 2. rewrite E2. cbn [mbind option_bind].
  change (2 <? 2) with false. cbn iota. change (aget [h0; h1] 1) with (Some h1).
  cbn [mbind option_bind]. rewrite F3, F4, F5, F6.
  do 2 eexists. split; [done|].
  split; [|split; [|done]].
  - destruct (ptr_half_app (red_block_header pt1 off (zlen sec) ++ [pt] ++ sec)
      (main ++ rest) 0 (5 + zlen sec)) as (pre & Hpre & Hz);
      [lia..|rewrite !zlen_app; unfold zlen; simpl; lia|].
    eapply (rtp_data_app _ pre main rest); simpl; [|done|].
    + rewrite <- Hpre. f_equal. subst p. unfold red_serialize2.
      by rewrite <- !app_assoc.
    + rewrite Hl, s16_id; wrap_unfold; lia.
  - eapply (rtp_data_app _ [pt] sec (main ++ rest)); simpl.
    + subst p. unfold red_serialize2. by rewrite <- !app_assoc.
    + done.
    + apply s16_id. wrap_unfold; lia.
Qed.
End Red2.

(** ** Bounds of the parsed fields *)

Lemma get_w16_total p k :
  0 <= k -> 2 * k + 1 < zlen p -> exists w, get_w16 p k = Some w.
Proof.
  intros Hk Hl. destruct (aget_in p (2 * k)) as [b0 H0]; [lia|].
  destruct (aget_in p (2 * k + 1)) as [b1 H1]; [lia|].
  eexists. by apply get_w16_in.
Qed.

Lemma rtp_be16_nonneg w : 0 <= rtp_be16 w.
Proof.
  unfold rtp_be16. apply Z.lor_nonneg. rewrite land_255.
  rewrite Z.shiftl_nonneg. wrap_lia.
Qed.

Lemma rtp_padlength_range d D pad : rtp_padlength d D = Some pad -> in_u8 pad.
Proof.
  unfold rtp_padlength. case_if; intros H; bind_inv;
    rewrite ?land_255, ?Z.shiftr_div_pow2 by lia; wrap_lia.
Qed.

Lemma rtp_padlength_total d D :
  12 <= D < zlen d -> exists pad, rtp_padlength d D = Some pad.
Proof.
  intros H. unfold rtp_padlength. rewrite !Z.shiftr_div_pow2, (land_ones_mod _ 1) by lia.
  change (2 ^ 1) with 2. case_if.
  - destruct (get_w16_total d (D / 2)) as [w ->]; [wrap_lia..|]. eauto.
  - destruct (get_w16_total d (D / 2 - 1)) as [w ->]; [wrap_lia..|]. eauto.
Qed.

(** ** Properties *)

(** C30. Parsing the RFC 3550 serialisation of a packet - any marker, CSRC list,
    header extension and padding - returns 0, the packet's fields, and a
    payload pointer and length that designate exactly its payload.  The memory
    may continue behind the datagram, and has to when its length is odd: the
    last byte is read through a 16-bit word. *)
Theorem RTPPayloadInfo_roundtrip s rest h0 :
  rtp_wf s -> rtp_bytes s -> byte_list rest ->
  (Z.odd (zlen (rtp_serialize s)) = true -> rest <> []) ->
  exists h,
    RTPPayloadInfo (rtp_serialize s ++ rest) (zlen (rtp_serialize s)) h0 = Some (0, h) /\
    rtp_data h = Some (sp_payload s) /\
    rtp_payloadType h = sp_pt s /\ rtp_seqNumber h = sp_seq s /\
    rtp_timeStamp h = sp_ts s /\ rtp_ssrc h = sp_ssrc s /\
    rtp_rcuPlCntr h = rtp_rcuPlCntr h0.
Proof.
  intros. eexists. rewrite RTPPayloadInfo_serialize_eq by done.
  split; [done|]. split; [|done].
  by apply (rtp_data_app _ [] (sp_payload s) (rtp_pad_bytes s ++ rest)).
Qed.

Definition rtp_example : RtpSpec :=
  mkRtpSpec true 103 258 65793 3735928559 [7; 8] (Some (48862, [1; 2])) [1; 2; 3] 4.
Definition rtp_h0 : RTPPacket := mkRTPPacket 0 0 0 0 [] 0 0 9.

Lemma RTPPayloadInfo_roundtrip_witness :
  exists h, RTPPayloadInfo (rtp_serialize rtp_example ++ [0])
              (zlen (rtp_serialize rtp_example)) rtp_h0 = Some (0, h) /\
    rtp_data h = Some [1; 2; 3] /\ rtp_payloadType h = 103 /\ rtp_seqNumber h = 258 /\
    rtp_timeStamp h = 65793 /\ rtp_ssrc h = 3735928559 /\ rtp_rcuPlCntr h = 9.
Proof.
  apply (RTPPayloadInfo_roundtrip rtp_example [0] rtp_h0).
  - split; simpl; unfold zlen, in_u8, in_u16, in_u32; simpl; try lia.
    intros pr ws [= <- <-]. simpl. lia.
  - split_and!.
    + repeat constructor; done.
    + repeat constructor; done.
    + intros pr ws [= <- <-]. repeat constructor; done.
  - repeat constructor; done.
  - done.
Defined.

(** Whatever the bytes of a datagram of at most 65535 bytes, if the parser
    accepts it then header, payload and padding partition the datagram: the
    payload pointer is the datagram advanced by an even number of bytes, at
    least the 12 header bytes, and pointer plus length stays inside; every
    numeric field is in the range of its type.  Neither the 16-bit length nor
    the attacker-controlled extension and padding lengths can break this. *)
Theorem RTPPayloadInfo_bounds d D h0 h :
  byte_list d -> D <= 65535 ->
  RTPPayloadInfo d D h0 = Some (0, h) ->
  exists start pad,
    12 <= start /\ 0 <= pad <= 255 /\ start + rtp_payloadLen h + pad = D /\
    0 < rtp_payloadLen h < 16000 /\
    rtp_payload h = drop (Z.to_nat start) d /\ rtp_starts_byte1 h = 0 /\
    0 <= rtp_payloadType h < 128 /\ in_u16 (rtp_seqNumber h) /\
    in_u32 (rtp_timeStamp h) /\ in_u32 (rtp_ssrc h).
Proof.
  intros Hd HD. unfold RTPPayloadInfo. case_if; [done|]. intros H. bind_inv.
  case_if; [done|]. bind_inv.
  assert (-1 <= x5) as Hext.
  { destruct (_ =? 1); bind_inv; [|lia].
    match goal with |- context [rtp_be16 ?w] => pose proof (rtp_be16_nonneg w) end. lia. }
  assert (in_u8 x6) as Hpad.
  { destruct (Z.shiftr _ 5 =? 1); bind_inv; [by eapply rtp_padlength_range|done]. }
  set (ext := x5) in *.
  assert (0 <= u16 (Z.land x 15)) by apply u16_range.
  set (cc := u16 (Z.land x 15)) in *. simpl in *.
  exists (12 + 4 * (ext + 1) + 4 * cc), x6.
  rewrite s16_id in * by wrap_lia. unfold in_u8 in Hpad.
  split_and!; try lia; try apply u16_range; try apply u32_range.
  - unfold ptr_w16. rewrite Z.shiftr_div_pow2 by lia. do 2 f_equal. wrap_lia.
  - rewrite (land_ones_mod _ 7) by lia. apply Z.mod_pos_bound. lia.
  - rewrite (land_ones_mod _ 7) by lia. apply Z.mod_pos_bound. lia.
Qed.

Lemma RTPPayloadInfo_bounds_witness :
  exists h, RTPPayloadInfo (rtp_serialize rtp_example ++ [0]) 39 rtp_h0 = Some (0, h) /\
  exists start pad,
    12 <= start /\ 0 <= pad <= 255 /\ start + rtp_payloadLen h + pad = 39 /\
    0 < rtp_payloadLen h < 16000 /\
    rtp_payload h = drop (Z.to_nat start) (rtp_serialize rtp_example ++ [0]) /\
    rtp_starts_byte1 h = 0 /\
    0 <= rtp_payloadType h < 128 /\ in_u16 (rtp_seqNumber h) /\
    in_u32 (rtp_timeStamp h) /\ in_u32 (rtp_ssrc h).
Proof.
  eexists. split; [vm_compute; reflexivity|].
  eapply (RTPPayloadInfo_bounds (rtp_serialize rtp_example ++ [0]) 39 rtp_h0).
  - vm_compute. repeat constructor; discriminate.
  - discriminate.
  - vm_compute; reflexivity.
Defined.

(** A parse never reads outside of a memory that holds the datagram, one
    byte more, and at least the 76 bytes up to which the extension length can
    lie (word [7 + 2 * 15]). *)
Theorem RTPPayloadInfo_total d D h0 :
  byte_list d -> D < zlen d -> 76 <= zlen d ->
  exists r, RTPPayloadInfo d D h0 = Some r.
Proof.
  intros Hd HD Hz. unfold RTPPayloadInfo. case_if; [eauto|].
  destruct (get_w16_total d 0) as [w0 ->]; [lia..|].
  destruct (get_w16_total d 1) as [w1 ->]; [lia..|].
  destruct (get_w16_total d 2) as [w2 ->]; [lia..|].
  destruct (get_w16_total d 3) as [w3 ->]; [lia..|].
  destruct (get_w16_total d 4) as [w4 ->]; [lia..|].
  destruct (get_w16_total d 5) as [w5 ->]; [lia..|].
  cbn [mbind option_bind]. cbv zeta.
  assert (0 <= u16 (Z.land w0 15) < 16) as Hcc.
  { rewrite (land_ones_mod _ 4) by lia. wrap_lia. }
  destruct (get_w16_total d (7 + 2 * u16 (Z.land w0 15))) as [we ->]; [lia..|].
  destruct (rtp_padlength_total d D) as [pad ->]; [lia|].
  destruct (_ =? 1), (_ =? 1); cbn [mbind option_bind]; destruct (_ || _); eauto.
Qed.

Lemma RTPPayloadInfo_total_witness :
  exists r, RTPPayloadInfo (replicate 80 255) 40 rtp_h0 = Some r.
Proof.
  apply RTPPayloadInfo_total.
  - vm_compute. repeat constructor; discriminate.
  - done.
  - done.
Defined.

(** C31. Splitting an RFC 2198 payload with one redundant block gives two
    headers that designate exactly the primary and the redundant block's
    bytes, with their payload types, the redundant timestamp moved back by the
    14-bit offset modulo 2^32, and sequence number and SSRC copied. *)
Theorem RedundancySplit_roundtrip pt1 off sec pt main rest h0 h1 :
  red_wf2 pt1 off sec pt main ->
  rtp_payload h0 = red_serialize2 pt1 off sec pt main ++ rest ->
  rtp_payloadLen h0 = zlen (red_serialize2 pt1 off sec pt main) ->
  exists h0' h1',
    RedundancySplit [h0; h1] 2 = Some (0, [h0'; h1'], Some 2) /\
    rtp_data h0' = Some main /\ rtp_data h1' = Some sec /\
    rtp_payloadType h0' = pt /\ rtp_payloadType h1' = pt1 /\
    rtp_timeStamp h0' = rtp_timeStamp h0 /\
    rtp_timeStamp h1' = u32 (rtp_timeStamp h0 - off) /\
    rtp_seqNumber h0' = rtp_seqNumber h0 /\ rtp_seqNumber h1' = rtp_seqNumber h0 /\
    rtp_ssrc h0' = rtp_ssrc h0 /\ rtp_ssrc h1' = rtp_ssrc h0.
Proof. intros. by apply (RedundancySplit_two pt1 off sec pt main rest). Qed.

Lemma RedundancySplit_roundtrip_witness :
  let h0 := mkRTPPacket 7 100 1 96
              (red_serialize2 3 160 [10; 11; 12] 4 [20; 21] ++ []) 10 0 0 in
  exists h0' h1',
    RedundancySplit [h0; rtp_h0] 2 = Some (0, [h0'; h1'], Some 2) /\
    rtp_data h0' = Some [20; 21] /\ rtp_data h1' = Some [10; 11; 12] /\
    rtp_payloadType h0' = 4 /\ rtp_payloadType h1' = 3 /\
    rtp_timeStamp h0' = 100 /\ rtp_timeStamp h1' = u32 (100 - 160) /\
    rtp_seqNumber h0' = 7 /\ rtp_seqNumber h1' = 7 /\
    rtp_ssrc h0' = 1 /\ rtp_ssrc h1' = 1.
Proof.
  intros h0.
  apply (RedundancySplit_roundtrip 3 160 [10; 11; 12] 4 [20; 21] [] h0 rtp_h0);
    [|done|done].
  split; unfold zlen; simpl; try lia; repeat constructor; done.
Defined.

(** With two redundant blocks the code discards the first block header but not
    its data: the "redundant" header designates the first block's bytes, and
    the main header starts inside the second block. *)
Example RedundancySplit_three_blocks :
  let h0 := mkRTPPacket 7 100 1 96
     (red_serialize3 3 320 [10; 11] 3 160 [12; 13] 4 [20; 21; 22; 23]) 17 0 0 in
  exists h0' h1',
    RedundancySplit [h0; rtp_h0] 2 = Some (0, [h0'; h1'], Some 2) /\
    rtp_data h1' = Some [10; 11] /\ rtp_timeStamp h1' = u32 (100 - 160) /\
    rtp_data h0' = Some [12; 13; 20; 21].
Proof. do 2 eexists. vm_compute. split_and!; reflexivity. Qed.

(** The extension length is read before the datagram's length is known to
    cover it: a 12-byte datagram with the X bit reads the 8th word. *)
Example RTPPayloadInfo_short_extension :
  RTPPayloadInfo (144 :: replicate 11 0) 12 rtp_h0 = None.
Proof. reflexivity. Qed.
