(* ===== verification/CodecDb.v ===== *)
(** The codec database of the NetEQ MCU side: [codec_db.h], [codec_db.c].

    The thirteen arrays of [CodecDbInst_t] indexed by a slot number
    ([payloadType], [funcDecode], ..., [codec_fs]) are one list of slot records;
    [position] (indexed by codec id) and [CNGpayloadType] are lists.  Function
    and state pointers are addresses, 0 for NULL.  The build is the one of
    [neteq.gypi] ([NETEQ_VOICEENGINE_CODECS]): every codec but G.726 and the
    48 kHz PCM16b, and three CNG sample rates. *)
From S2P Require Import Prelude.

(** ** Data *)

(** [enum WebRtcNetEQDecoder] of [interface/webrtc_neteq.h]. *)
Definition kDecoderReservedStart : Z := 0.
Definition kDecoderPCMu : Z := 1.
Definition kDecoderPCMa : Z := 2.
Definition kDecoderPCMu_2ch : Z := 3.
Definition kDecoderPCMa_2ch : Z := 4.
Definition kDecoderILBC : Z := 5.
Definition kDecoderISAC : Z := 6.
Definition kDecoderISACswb : Z := 7.
Definition kDecoderISACfb : Z := 8.
Definition kDecoderPCM16B : Z := 9.
Definition kDecoderPCM16Bwb : Z := 10.
Definition kDecoderPCM16Bswb32kHz : Z := 11.
Definition kDecoderPCM16Bswb48kHz : Z := 12.
Definition kDecoderPCM16B_2ch : Z := 13.
Definition kDecoderPCM16Bwb_2ch : Z := 14.
Definition kDecoderPCM16Bswb32kHz_2ch : Z := 15.
Definition kDecoderG722 : Z := 16.
Definition kDecoderG722_2ch : Z := 17.
Definition kDecoderRED : Z := 18.
Definition kDecoderAVT : Z := 19.
Definition kDecoderCNG : Z := 20.
Definition kDecoderArbitrary : Z := 21.
Definition kDecoderG729 : Z := 22.
Definition kDecoderG729_1 : Z := 23.
Definition kDecoderG726_16 : Z := 24.
Definition kDecoderG726_24 : Z := 25.
Definition kDecoderG726_32 : Z := 26.
Definition kDecoderG726_40 : Z := 27.
Definition kDecoderG722_1_16 : Z := 28.
Definition kDecoderG722_1_24 : Z := 29.
Definition kDecoderG722_1_32 : Z := 30.
Definition kDecoderG722_1C_24 : Z := 31.
Definition kDecoderG722_1C_32 : Z := 32.
Definition kDecoderG722_1C_48 : Z := 33.
Definition kDecoderOpus : Z := 34.
Definition kDecoderSPEEX_8 : Z := 35.
Definition kDecoderSPEEX_16 : Z := 36.
Definition kDecoderCELT_32 : Z := 37.
Definition kDecoderCELT_32_2ch : Z := 38.
Definition kDecoderGSMFR : Z := 39.
Definition kDecoderAMR : Z := 40.
Definition kDecoderAMRWB : Z := 41.
Definition kDecoderReservedEnd : Z := 42.

Definition NUM_CODECS : Z := 47.
Definition NUM_TOTAL_CODECS : Z := kDecoderReservedEnd.
Definition NUM_CNG_CODECS : Z := 3.

Definition CODEC_DB_FULL : Z := -5001.
Definition CODEC_DB_NOT_EXIST1 : Z := -5002.
Definition CODEC_DB_NOT_EXIST2 : Z := -5003.
Definition CODEC_DB_NOT_EXIST3 : Z := -5004.
Definition CODEC_DB_NOT_EXIST4 : Z := -5005.
Definition CODEC_DB_UNKNOWN_CODEC : Z := -5006.
Definition CODEC_DB_PAYLOAD_TAKEN : Z := -5007.
Definition CODEC_DB_UNSUPPORTED_CODEC : Z := -5008.
Definition CODEC_DB_UNSUPPORTED_FS : Z := -5009.
Definition AMBIGUOUS_ILBC_FRAME_SIZE : Z := -4010.

(** A function or state pointer. *)
Definition ptr := Z.
Definition NULL : ptr := 0.

(** One slot: index [k] of the arrays indexed by slot. *)
Record CodecEntry := mkCodecEntry {
  ce_payloadType : Z;
  ce_funcDecode : ptr; ce_funcDecodeRCU : ptr; ce_funcDecodePLC : ptr;
  ce_funcDecodeInit : ptr; ce_funcAddLatePkt : ptr; ce_funcGetMDinfo : ptr;
  ce_funcGetPitch : ptr; ce_funcUpdBWEst : ptr; ce_funcDurationEst : ptr;
  ce_funcGetErrorCode : ptr; ce_codec_state : ptr; ce_codec_fs : Z
}.

Definition empty_entry : CodecEntry := mkCodecEntry (-1) 0 0 0 0 0 0 0 0 0 0 0 0.

Record CodecDbInst := mkCodecDbInst {
  db_position : list Z;
  db_nrOfCodecs : Z;
  db_entry : list CodecEntry;
  db_CNGpayloadType : list Z
}.

#[export] Instance eta_CodecDbInst : Eta CodecDbInst := fun r =>
  mkCodecDbInst (db_position r) (db_nrOfCodecs r) (db_entry r) (db_CNGpayloadType r).

(** The pointers handed to the DSP side. *)
Record CodecFuncInst := mkCodecFuncInst {
  cf_funcDecode : ptr; cf_funcDecodeRCU : ptr; cf_funcDecodePLC : ptr;
  cf_funcDecodeInit : ptr; cf_funcAddLatePkt : ptr; cf_funcGetMDinfo : ptr;
  cf_funcUpdBWEst : ptr; cf_funcDurationEst : ptr; cf_funcGetErrorCode : ptr;
  cf_codec_state : ptr; cf_codec_fs : Z; cf_timeStamp : Z
}.

Record SplitInfo := mkSplitInfo { si_deltaBytes : Z; si_deltaTime : Z }.
#[export] Instance eta_SplitInfo : Eta SplitInfo := fun r =>
  mkSplitInfo (si_deltaBytes r) (si_deltaTime r).

Definition NO_SPLIT : Z := -1.

(** ** Operations *)

Definition DbReset : CodecDbInst :=
  mkCodecDbInst (replicate (Z.to_nat NUM_TOTAL_CODECS) (-1)) 0
    (replicate (Z.to_nat NUM_CODECS) empty_entry)
    (replicate (Z.to_nat NUM_CNG_CODECS) (-1)).

Definition DbIsCNGPayload (inst : CodecDbInst) (payloadType : Z) : bool :=
  existsb (fun t => negb (t =? -1) && (t =? payloadType)) (db_CNGpayloadType inst).

(** The search of [DbGetCodec] from codec [i] on; [Some None] when it finds
    nothing. *)
Fixpoint db_search (entries : list CodecEntry) (payloadType i : Z) (position : list Z)
  : option (option Z) :=
  match position with
  | [] => Some None
  | pos :: position =>
      if negb (pos =? -1) then
        e ← aget entries pos;
        if ce_payloadType e =? payloadType then Some (Some i)
        else db_search entries payloadType (i + 1) position
      else db_search entries payloadType (i + 1) position
  end.

Definition DbGetCodec (inst : CodecDbInst) (payloadType : Z) : option Z :=
  r ← db_search (db_entry inst) payloadType 0 (db_position inst);
  match r with
  | Some i => Some i
  | None => if DbIsCNGPayload inst payloadType then Some kDecoderCNG
            else Some CODEC_DB_NOT_EXIST3
  end.

Definition DbGetPayload (inst : CodecDbInst) (codecID : Z) : option Z :=
  pos ← aget (db_position inst) codecID;
  if pos =? -1 then Some CODEC_DB_NOT_EXIST2
  else e ← aget (db_entry inst) pos; Some (ce_payloadType e).

Definition db_reserved (codec : Z) : bool :=
  (codec <=? kDecoderReservedStart) || (kDecoderReservedEnd <=? codec).

(** The pointers of slot [pos]; [funcDurationEst] and [timeStamp] are not
    written. *)
Definition db_ptrs (e : CodecEntry) (p : CodecFuncInst) : CodecFuncInst :=
  mkCodecFuncInst (ce_funcDecode e) (ce_funcDecodeRCU e) (ce_funcDecodePLC e)
    (ce_funcDecodeInit e) (ce_funcAddLatePkt e) (ce_funcGetMDinfo e)
    (ce_funcUpdBWEst e) (cf_funcDurationEst p) (ce_funcGetErrorCode e)
    (ce_codec_state e) (ce_codec_fs e) (cf_timeStamp p).

Definition DbGetPtrs (inst : CodecDbInst) (codec : Z) (p : CodecFuncInst)
  : option (Z * CodecFuncInst) :=
  pos ← aget (db_position inst) codec;
  let pos := if (codec <=? kDecoderReservedStart) || (kDecoderReservedEnd <=? codec)
                || (NUM_TOTAL_CODECS <? codec) then -1 else pos in
  if 0 <=? pos then
    e ← aget (db_entry inst) pos; Some (0, db_ptrs e p)
  else Some (CODEC_DB_NOT_EXIST1, mkCodecFuncInst 0 0 0 0 0 0 0 0 0 0 0 0).

(** The codecs the [switch] of [DbAdd] lets through. *)
Definition db_supported : list Z :=
  [kDecoderPCM16B; kDecoderPCM16B_2ch; kDecoderPCMu; kDecoderPCMa; kDecoderPCMu_2ch;
   kDecoderPCMa_2ch; kDecoderILBC; kDecoderISAC; kDecoderISACswb; kDecoderISACfb;
   kDecoderOpus; kDecoderG722; kDecoderG722_2ch; kDecoderPCM16Bwb; kDecoderPCM16Bwb_2ch;
   kDecoderPCM16Bswb32kHz; kDecoderPCM16Bswb32kHz_2ch; kDecoderCNG; kDecoderAVT;
   kDecoderRED; kDecoderArbitrary; kDecoderG729; kDecoderG729_1; kDecoderG722_1_16;
   kDecoderG722_1_24; kDecoderG722_1_32; kDecoderG722_1C_24; kDecoderG722_1C_32;
   kDecoderG722_1C_48; kDecoderSPEEX_8; kDecoderSPEEX_16; kDecoderCELT_32;
   kDecoderCELT_32_2ch; kDecoderGSMFR; kDecoderAMR; kDecoderAMRWB].

Definition db_fs_ok (codec_fs : Z) : bool :=
  (codec_fs =? 8000) || (codec_fs =? 16000) || (codec_fs =? 32000) || (codec_fs =? 48000).

Definition CNGpos (codec_fs : Z) : Z :=
  if codec_fs =? 16000 then 1 else if codec_fs =? 32000 then 2 else 0.

(** Moving the slots above [i] down by one, [n] times. *)
Fixpoint db_shift (n : nat) (i : Z) (es : list CodecEntry) : option (list CodecEntry * Z) :=
  match n with
  | O => Some (es, i)
  | S n => e ← aget es (i + 1); es ← aset es i e; db_shift n (i + 1) es
  end.

Definition DbRemove (inst : CodecDbInst) (codec : Z) : option (Z * CodecDbInst) :=
  if db_reserved codec then Some (CODEC_DB_UNSUPPORTED_CODEC, inst) else
  pos ← aget (db_position inst) codec;
  if pos =? -1 then Some (CODEC_DB_NOT_EXIST4, inst) else
  position ← aset (db_position inst) codec (-1);
  '(es, i) ← db_shift (Z.to_nat (db_nrOfCodecs inst - 1 - pos)) pos (db_entry inst);
  es ← aset es i empty_entry;
  Some (0, inst
    <| db_entry := es |>
    <| db_position := (fun p => if pos <=? p then p - 1 else p) <$> position |>
    <| db_nrOfCodecs := db_nrOfCodecs inst - 1 |>
    <| db_CNGpayloadType := if codec =? kDecoderCNG
                            then (fun _ => -1) <$> db_CNGpayloadType inst
                            else db_CNGpayloadType inst |>).

(** The CNG bookkeeping of [DbAdd]: the instance with the payload type noted,
    [insertCNGcodec] and [overwriteCNGcodec]. *)
Definition db_add_cng (inst : CodecDbInst) (payloadType codec_fs : Z)
  : option (CodecDbInst * bool * bool) :=
  known ← DbGetPayload inst kDecoderCNG;
  let insertCNG := known =? CODEC_DB_NOT_EXIST2 in
  let pos := CNGpos codec_fs in
  let overwriteCNG := if pos =? 0 then negb insertCNG else false in
  cng ← aset (db_CNGpayloadType inst) pos payloadType;
  Some (inst <| db_CNGpayloadType := cng |>, insertCNG, overwriteCNG).

(** Storing the slot: [overwriteCNG] keeps the codec's slot, otherwise a new
    one is taken at the end, the codec's old one having been removed. *)
Definition db_store (inst : CodecDbInst) (codec : Z) (e : CodecEntry) (overwriteCNG : bool)
  : option (Z * CodecDbInst) :=
  if db_nrOfCodecs inst =? NUM_CODECS then Some (CODEC_DB_FULL, inst) else
  old ← aget (db_position inst) codec;
  inst ← (if negb (old =? -1) && negb overwriteCNG
          then '(_, inst) ← DbRemove inst codec; Some inst else Some inst);
  if overwriteCNG then
    es ← aset (db_entry inst) old e; Some (0, inst <| db_entry := es |>)
  else
    let temp := db_nrOfCodecs inst in
    position ← aset (db_position inst) codec temp;
    es ← aset (db_entry inst) temp e;
    Some (0, inst <| db_position := position |> <| db_entry := es |>
                  <| db_nrOfCodecs := temp + 1 |>).

(** [e] carries the function pointers, the state and the sampling rate of the
    call, and the payload type. *)
Definition DbAdd (inst : CodecDbInst) (codec : Z) (e : CodecEntry)
  : option (Z * CodecDbInst) :=
  if db_reserved codec then Some (CODEC_DB_UNSUPPORTED_CODEC, inst) else
  if negb (db_fs_ok (ce_codec_fs e)) then Some (CODEC_DB_UNSUPPORTED_FS, inst) else
  if negb (existsb (Z.eqb codec) db_supported)
  then Some (CODEC_DB_UNSUPPORTED_CODEC, inst) else
  taken ← DbGetCodec inst (ce_payloadType e);
  if 0 <? taken then Some (CODEC_DB_PAYLOAD_TAKEN, inst) else
  '(inst, insertCNG, overwriteCNG) ←
    (if codec =? kDecoderCNG then db_add_cng inst (ce_payloadType e) (ce_codec_fs e)
     else Some (inst, false, false));
  if negb (codec =? kDecoderCNG) || insertCNG || overwriteCNG
  then db_store inst codec e overwriteCNG
  else Some (0, inst).

(** [x] is one of the labels of a [switch]. *)
Definition is_case (x : Z) (labels : list Z) : bool := existsb (Z.eqb x) labels.

(** The frame-based codecs: [deltaBytes] and [deltaTime] of one frame. *)
Definition split_frames (inst : SplitInfo) (codecID codedsize : Z) : Z * SplitInfo :=
  let ret b t := (0, mkSplitInfo b t) in
  if codecID =? kDecoderG722_1_16 then ret 40 320
  else if codecID =? kDecoderG722_1_24 then ret 60 320
  else if codecID =? kDecoderG722_1_32 then ret 80 320
  else if codecID =? kDecoderG722_1C_24 then ret 60 640
  else if codecID =? kDecoderG722_1C_32 then ret 80 640
  else if codecID =? kDecoderG722_1C_48 then ret 120 640
  else if codecID =? kDecoderG729 then ret 10 80
  else if codecID =? kDecoderILBC then
    if is_case codedsize [50; 100; 150; 200; 250; 300; 350; 400; 450; 500; 550; 600]
    then ret 50 240
    else if is_case codedsize [38; 76; 114; 152; 190; 228; 266; 304; 342; 380; 418; 456]
    then ret 38 160
    else (AMBIGUOUS_ILBC_FRAME_SIZE, inst)
  else if codecID =? kDecoderGSMFR then ret 33 160
  else (CODEC_DB_UNKNOWN_CODEC, inst <| si_deltaBytes := NO_SPLIT |>).

Definition DbGetSplitInfo (inst : SplitInfo) (codecID codedsize : Z) : Z * SplitInfo :=
  let ret b t := (0, mkSplitInfo b t) in
  if is_case codecID [kDecoderISAC; kDecoderISACswb; kDecoderISACfb; kDecoderOpus;
       kDecoderArbitrary; kDecoderAMR; kDecoderAMRWB; kDecoderSPEEX_8; kDecoderSPEEX_16;
       kDecoderCELT_32; kDecoderCELT_32_2ch; kDecoderG729_1]
  then (0, inst <| si_deltaBytes := NO_SPLIT |>)
  else if is_case codecID [kDecoderPCMu; kDecoderPCMa; kDecoderPCMu_2ch; kDecoderPCMa_2ch]
  then ret (-12) 1
  else if is_case codecID [kDecoderG722; kDecoderG722_2ch] then ret (-14) 0
  else if is_case codecID [kDecoderPCM16B; kDecoderPCM16B_2ch] then ret (-12) 2
  else if is_case codecID [kDecoderPCM16Bwb; kDecoderPCM16Bwb_2ch] then ret (-14) 2
  else if is_case codecID [kDecoderPCM16Bswb32kHz; kDecoderPCM16Bswb32kHz_2ch]
  then ret (-18) 2
  else split_frames inst codecID codedsize.

(** "There currently are no MD codecs." *)
Definition DbIsMDCodec (codecID : Z) : bool := false.

(** The index of the first CNG slot with this payload type. *)
Fixpoint cng_index (i : Z) (cng : list Z) (payloadType : Z) : option Z :=
  match cng with
  | [] => None
  | t :: cng => if negb (t =? -1) && (t =? payloadType) then Some i
                else cng_index (i + 1) cng payloadType
  end.

Definition DbGetSampleRate (inst : CodecDbInst) (payloadType : Z) : option Z :=
  match cng_index 0 (db_CNGpayloadType inst) payloadType with
  | Some i => Some (if i =? 1 then 16000 else if i =? 2 then 32000 else 8000)
  | None =>
      i ← DbGetCodec inst payloadType;
      if 0 <=? i then
        '(r, p) ← DbGetPtrs inst i (mkCodecFuncInst 0 0 0 0 0 0 0 0 0 0 0 0);
        Some (if r =? 0 then cf_codec_fs p else 0)
      else Some 0
  end.

(** ** Abstract view and invariant *)

(** The database as the callers see it: a partial map from codec ids to slot
    records. *)
Definition db_lookup (inst : CodecDbInst) (codec : Z) : option CodecEntry :=
  pos ← aget (db_position inst) codec;
  if pos =? -1 then None else aget (db_entry inst) pos.

(** [position] is an injection of the registered codecs onto the slots below
    [nrOfCodecs], registered payload types are distinct, and the reserved id 0
    is never registered. *)
Record db_inv (inst : CodecDbInst) : Prop := {
  di_position : zlen (db_position inst) = NUM_TOTAL_CODECS;
  di_entry : zlen (db_entry inst) = NUM_CODECS;
  di_CNG : zlen (db_CNGpayloadType inst) = NUM_CNG_CODECS;
  di_nr : 0 <= db_nrOfCodecs inst;
  di_range : forall c p, aget (db_position inst) c = Some p ->
             p = -1 \/ 0 <= p < db_nrOfCodecs inst;
  di_inj : forall c c' p, aget (db_position inst) c = Some p ->
           aget (db_position inst) c' = Some p -> p <> -1 -> c = c';
  di_onto : forall p, 0 <= p < db_nrOfCodecs inst ->
            exists c, aget (db_position inst) c = Some p;
  di_reserved : aget (db_position inst) 0 = Some (-1);
  di_distinct : forall c c' e e', db_lookup inst c = Some e -> db_lookup inst c' = Some e' ->
                ce_payloadType e = ce_payloadType e' -> c = c';
}.

(** ** Lemmas *)

Section Search.
Context (es : list CodecEntry) (pt : Z).

Lemma db_search_spec position : forall i,
  Forall (fun p => p = -1 \/ 0 <= p < zlen es) position ->
  exists r, db_search es pt i position = Some r /\
  match r with
  | Some c => exists p e, i <= c /\ aget position (c - i) = Some p /\ p <> -1 /\
                          aget es p = Some e /\ ce_payloadType e = pt
  | None => forall k p e, aget position k = Some p -> p <> -1 ->
                          aget es p = Some e -> ce_payloadType e <> pt
  end.
Proof.
  induction position as [|pos position IH]; intros i HF.
  { exists None. split; [done|]. intros k p e H.
    apply aget_Some_range in H. unfold zlen in H; simpl in H; lia. }
  inversion HF as [|?? Hpos HF']; subst.
  assert (Hnext : (forall e, pos <> -1 -> aget es pos = Some e -> ce_payloadType e <> pt) ->
    exists r, db_search es pt (i + 1) position = Some r /\
    match r with
    | Some c => exists p e, i <= c /\ aget (pos :: position) (c - i) = Some p /\
                  p <> -1 /\ aget es p = Some e /\ ce_payloadType e = pt
    | None => forall k p e, aget (pos :: position) k = Some p -> p <> -1 ->
                aget es p = Some e -> ce_payloadType e <> pt
    end).
  { intros Hno. destruct (IH (i + 1) HF') as ([c|] & Hs & H); eexists; split; eauto.
    - destruct H as (p & e & Hc & Hp & Hr). exists p, e. split; [lia|].
      rewrite aget_cons by lia. by replace (c - i - 1) with (c - (i + 1)) by lia.
    - intros k p e Hk. pose proof (aget_Some_range _ _ _ Hk).
      destruct (decide (k = 0)) as [->|].
      + injection Hk as <-. intros. by apply Hno.
      + rewrite aget_cons in Hk by lia. by eapply H. }
  cbn [db_search]. destruct (Z.eqb_spec pos (-1)) as [->|Hne]; cbn [negb].
  { by apply Hnext. }
  destruct Hpos as [|Hpos]; [done|]. destruct (aget_in _ _ Hpos) as [e He].
  rewrite He. cbn. destruct (Z.eqb_spec (ce_payloadType e) pt) as [Heq|Hpt].
  - exists (Some i). split; [done|]. exists pos, e. split; [lia|].
    by rewrite Z.sub_diag.
  - apply Hnext. intros e' _ He'. by simplify_eq.
Qed.
End Search.

Section Inv.
Context (inst : CodecDbInst) (Hinv : db_inv inst).

Lemma db_nr_bound : db_nrOfCodecs inst <= 41.
Proof using Hinv.
  destruct Hinv. destruct (db_position inst) as [|p0 ps] eqn:E.
  { done. }
  injection di_reserved0 as ->.
  assert (seqZ 0 (db_nrOfCodecs inst) ⊆+ ps) as Hsub.
  { apply NoDup_submseteq; [apply NoDup_seqZ|]. intros p Hp%elem_of_seqZ.
    destruct (di_onto0 p) as [c Hc]; [lia|].
    apply elem_of_aget. exists (c - 1). pose proof (aget_Some_range _ _ _ Hc).
    destruct (decide (c = 0)) as [->|]; [injection Hc; lia|].
    by rewrite aget_cons in Hc by lia. }
  apply submseteq_length in Hsub. rewrite length_seqZ in Hsub.
  rewrite zlen_cons in di_position0. unfold zlen, NUM_TOTAL_CODECS,
    kDecoderReservedEnd in *. lia.
Qed.

Lemma db_positions_ok :
  Forall (fun p => p = -1 \/ 0 <= p < zlen (db_entry inst)) (db_position inst).
Proof using Hinv.
  pose proof db_nr_bound. destruct Hinv. apply list.Forall_forall.
  intros p [c Hc]%elem_of_aget. rewrite di_entry0. unfold NUM_CODECS.
  destruct (di_range0 _ _ Hc); [by left|right; lia].
Qed.

Lemma db_lookup_Some c e :
  db_lookup inst c = Some e <->
  exists p, aget (db_position inst) c = Some p /\ p <> -1 /\
            aget (db_entry inst) p = Some e.
Proof using Type.
  unfold db_lookup. split.
  - intros H. bind_inv. destruct (Z.eqb_spec x (-1)); [done|]. eauto.
  - intros (p & -> & Hp & He). cbn. by destruct (Z.eqb_spec p (-1)).
Qed.

Lemma db_lookup_range c e : db_lookup inst c = Some e -> 0 < c < NUM_TOTAL_CODECS.
Proof using Hinv.
  intros (p & Hp & Hne & He)%db_lookup_Some. destruct Hinv.
  pose proof (aget_Some_range _ _ _ Hp).
  destruct (decide (c = 0)) as [->|]; [by simplify_eq|]. lia.
Qed.

(** [DbGetCodec] in terms of the abstract map. *)
Lemma DbGetCodec_lookup pt :
  exists r, DbGetCodec inst pt = Some r /\
  ((exists e, db_lookup inst r = Some e /\ ce_payloadType e = pt) \/
   ((forall c e, db_lookup inst c = Some e -> ce_payloadType e <> pt) /\
    r = if DbIsCNGPayload inst pt then kDecoderCNG else CODEC_DB_NOT_EXIST3)).
Proof using Hinv.
  destruct (db_search_spec (db_entry inst) pt (db_position inst) 0 db_positions_ok)
    as ([c|] & Hs & H); unfold DbGetCodec; rewrite Hs; cbn [mbind option_bind].
  - destruct H as (p & e & Hc & Hp & Hne & He & Hpt). rewrite Z.sub_0_r in Hp.
    exists c. split; [done|]. left. exists e. split; [|done].
    apply db_lookup_Some. eauto.
  - destruct (DbIsCNGPayload inst pt); eexists; (split; [done|]); right;
      (split; [|done]); intros c e (p & Hp & Hne & He)%db_lookup_Some; by eapply H.
Qed.

Lemma db_taken_le0 pt r :
  DbGetCodec inst pt = Some r -> r <= 0 ->
  forall c e, db_lookup inst c = Some e -> ce_payloadType e <> pt.
Proof using Hinv.
  intros H Hr. destruct (DbGetCodec_lookup pt) as (r' & H' & [(e & He & _)|[Hno _]]);
    [|done]. assert (r' = r) as -> by congruence.
  apply db_lookup_range in He. lia.
Qed.
End Inv.

Lemma db_shift_spec n : forall i es,
  0 <= i -> i + Z.of_nat n < zlen es ->
  exists es', db_shift n i es = Some (es', i + Z.of_nat n) /\ zlen es' = zlen es /\
    forall k, aget es' k = if decide (i <= k < i + Z.of_nat n) then aget es (k + 1)
                           else aget es k.
Proof.
  induction n as [|n IH]; intros i es Hi Hn; cbn [db_shift].
  { exists es. split; [by rewrite Z.add_0_r|]. split; [done|]. intros k.
    by rewrite decide_False by lia. }
  destruct (aget_in es (i + 1)) as [e He]; [lia|]. rewrite He. cbn.
  rewrite aset_in by lia. cbn.
  destruct (IH (i + 1) (<[Z.to_nat i:=e]> es)) as (es' & Hs & Hl & H);
    [lia|rewrite zlen_insert; lia|].
  exists es'. rewrite Hs. split; [do 2 f_equal; lia|]. rewrite zlen_insert in Hl.
  split; [done|]. intros k. rewrite H.
  repeat case_decide; try lia; try (rewrite aget_insert_ne by lia; done).
  assert (k = i) as -> by lia. rewrite aget_insert_eq by lia. done.
Qed.

(** The slots and positions after [DbRemove]. *)
Section Remove.
Context (inst : CodecDbInst) (Hinv : db_inv inst).
Context (codec pos : Z).
Context (Hpos : aget (db_position inst) codec = Some pos) (Hne : pos <> -1).

Definition removed (inst' : CodecDbInst) : Prop :=
  zlen (db_position inst') = NUM_TOTAL_CODECS /\
  zlen (db_entry inst') = NUM_CODECS /\
  zlen (db_CNGpayloadType inst') = NUM_CNG_CODECS /\
  db_nrOfCodecs inst' = db_nrOfCodecs inst - 1 /\
  (forall c p, aget (db_position inst) c = Some p ->
     aget (db_position inst') c
     = Some (if decide (c = codec) then -1 else if decide (pos < p) then p - 1 else p)) /\
  (forall p, 0 <= p < db_nrOfCodecs inst - 1 ->
     aget (db_entry inst') p
     = aget (db_entry inst) (if decide (pos <= p) then p + 1 else p)).

Lemma db_pos_range : 0 <= pos < db_nrOfCodecs inst.
Proof using All. destruct Hinv. destruct (di_range0 _ _ Hpos); [done|lia]. Qed.

Lemma DbRemove_removed :
  exists inst', DbRemove inst codec = Some (0, inst') /\ removed inst'.
Proof using All.
  pose proof (db_nr_bound _ Hinv). pose proof db_pos_range.
  pose proof (aget_Some_range _ _ _ Hpos) as Hc.
  assert (codec <> 0) as Hc0.
  { intros ->. destruct Hinv. by simplify_eq. }
  destruct Hinv. unfold DbRemove, db_reserved.
  rewrite di_position0 in Hc. unfold NUM_TOTAL_CODECS in Hc.
  case_if. { apply orb_prop in E as [E|E]; bool_lia; unfold kDecoderReservedStart in *; lia. }
  rewrite Hpos. cbn [mbind option_bind]. rewrite (proj2 (Z.eqb_neq pos (-1))) by done.
  rewrite aset_in by (rewrite di_position0; done). cbn [mbind option_bind].
  destruct (db_shift_spec (Z.to_nat (db_nrOfCodecs inst - 1 - pos)) pos (db_entry inst))
    as (es' & -> & Hl & Hes); [lia|rewrite di_entry0; unfold NUM_CODECS; lia|].
  cbn [mbind option_bind].
  rewrite aset_in by (rewrite Hl, di_entry0; unfold NUM_CODECS; lia).
  cbn [mbind option_bind]. eexists. split; [done|].
  unfold removed; simpl. rewrite !zlen_fmap, !zlen_insert, Hl.
  split_and!; try done.
  - destruct (codec =? kDecoderCNG); [rewrite zlen_fmap|]; done.
  - intros c p Hp. rewrite aget_fmap, aget_insert by (rewrite di_position0; done).
    destruct (decide (codec = c)) as [->|Hcc].
    + rewrite decide_True by done. simpl. by case_if; [lia|].
    + rewrite (decide_False (P := c = codec)), Hp by done. simpl.
      destruct (di_range0 _ _ Hp) as [->|].
      { case_if; [lia|]. by rewrite decide_False by lia. }
      assert (p <> pos) by (intros ->; apply Hcc; by rewrite (di_inj0 _ _ _ Hp Hpos)).
      case_if; case_decide; try lia; done.
  - intros p Hp. rewrite aget_insert_ne, Hes by lia.
    repeat case_decide; try lia; done.
Qed.

Lemma removed_lookup inst' :
  removed inst' ->
  forall c, db_lookup inst' c = if decide (c = codec) then None else db_lookup inst c.
Proof using All.
  intros (Hl1 & Hl2 & Hl3 & Hnr & Hp & He) c. unfold db_lookup.
  pose proof db_pos_range. destruct Hinv.
  destruct (aget (db_position inst) c) as [p|] eqn:Hcp.
  - rewrite (Hp _ _ Hcp). cbn [mbind option_bind].
    destruct (decide (c = codec)) as [->|Hcc]; [done|].
    destruct (di_range0 _ _ Hcp) as [->|].
    { by rewrite decide_False by lia. }
    assert (p <> pos) by (intros ->; by apply Hcc, (di_inj0 _ _ _ Hcp Hpos)).
    set (q := if decide (pos < p) then p - 1 else p).
    assert (0 <= q < db_nrOfCodecs inst - 1 /\ (if decide (pos <= q) then q + 1 else q) = p)
      as [Hq Hqp] by (subst q; repeat case_decide; lia).
    destruct (Z.eqb_spec q (-1)), (Z.eqb_spec p (-1)); try lia.
    by rewrite He, Hqp by lia.
  - destruct (aget (db_position inst') c) eqn:Hc'.
    + exfalso. apply aget_Some_range in Hc'. rewrite Hl1, <- di_position0 in Hc'.
      by apply aget_is_Some in Hc' as [? ?]; simplify_eq.
    + cbn. by case_decide.
Qed.
End Remove.

(** Positions of a removed database come from positions of the original. *)
Lemma removed_inv inst codec pos inst' :
  db_inv inst -> aget (db_position inst) codec = Some pos -> pos <> -1 ->
  removed inst codec pos inst' -> db_inv inst'.
Proof.
  intros Hinv Hpos Hne Hrem.
  pose proof (db_pos_range _ Hinv _ _ Hpos Hne) as Hpr.
  pose proof (removed_lookup _ Hinv _ _ Hpos Hne _ Hrem) as Hlook.
  destruct Hrem as (Hl1 & Hl2 & Hl3 & Hnr & Hp & He). destruct Hinv.
  assert (forall c p', aget (db_position inst') c = Some p' ->
    exists p, aget (db_position inst) c = Some p /\
    p' = if decide (c = codec) then -1 else if decide (pos < p) then p - 1 else p) as Hold.
  { intros c p' H. pose proof (aget_Some_range _ _ _ H) as Hr.
    rewrite Hl1, <- di_position0 in Hr. destruct (aget_in _ _ Hr) as [p Hcp].
    exists p. split; [done|]. rewrite (Hp _ _ Hcp) in H. by simplify_eq. }
  split; try done; try lia.
  - intros c p' (p & Hcp & ->)%Hold. rewrite Hnr.
    destruct (decide (c = codec)) as [|Hcc]; [by left|].
    destruct (di_range0 _ _ Hcp) as [->|]; [left; by rewrite decide_False by lia|].
    assert (p <> pos) by (intros ->; by apply Hcc, (di_inj0 _ _ _ Hcp Hpos)).
    right. case_decide; lia.
  - intros c c' p' (p & Hcp & H1)%Hold (q & Hcq & H2)%Hold Hn.
    destruct (decide (c = codec)) as [|Hcc], (decide (c' = codec)) as [|Hcc']; try done;
      subst p'; try lia.
    destruct (di_range0 _ _ Hcp) as [->|]; [by rewrite decide_False in Hn by lia|].
    destruct (di_range0 _ _ Hcq) as [->|].
    { exfalso. rewrite (decide_False (P := pos < -1)) in H2 by lia. congruence. }
    assert (p <> pos) by (intros ->; by apply Hcc, (di_inj0 _ _ _ Hcp Hpos)).
    assert (q <> pos) by (intros ->; by apply Hcc', (di_inj0 _ _ _ Hcq Hpos)).
    assert (p = q) as -> by (repeat case_decide; lia).
    apply (di_inj0 _ _ _ Hcp Hcq). lia.
  - intros p Hpr'. rewrite Hnr in Hpr'.
    set (q := if decide (pos <= p) then p + 1 else p).
    assert (0 <= q < db_nrOfCodecs inst /\ q <> pos /\
            (if decide (pos < q) then q - 1 else q) = p) as (Hq & Hqp & Hback)
      by (subst q; repeat case_decide; lia).
    destruct (di_onto0 q Hq) as [c Hc]. exists c. rewrite (Hp _ _ Hc), Hback.
    rewrite decide_False; [done|]. intros ->. congruence.
  - rewrite (Hp _ _ di_reserved0). rewrite (decide_False (P := pos < -1)) by lia.
    by case_decide.
  - intros c c' e e'. rewrite !Hlook. repeat case_decide; try done. by apply di_distinct0.
Qed.

(** Writing a record to a slot, and appending one. *)
Lemma db_append_spec inst codec e :
  db_inv inst -> 0 < codec < NUM_TOTAL_CODECS ->
  aget (db_position inst) codec = Some (-1) ->
  (forall c e', db_lookup inst c = Some e' -> ce_payloadType e' <> ce_payloadType e) ->
  exists position es,
    aset (db_position inst) codec (db_nrOfCodecs inst) = Some position /\
    aset (db_entry inst) (db_nrOfCodecs inst) e = Some es /\
    let inst' := inst <| db_position := position |> <| db_entry := es |>
                      <| db_nrOfCodecs := db_nrOfCodecs inst + 1 |> in
    db_inv inst' /\
    (forall c, db_lookup inst' c = if decide (c = codec) then Some e else db_lookup inst c).
Proof.
  intros Hinv Hc Hpos Hfresh. pose proof (db_nr_bound _ Hinv). destruct Hinv.
  assert (0 <= codec < zlen (db_position inst)) as Hcl by (rewrite di_position0; lia).
  assert (0 <= db_nrOfCodecs inst < zlen (db_entry inst)) as Hel
    by (rewrite di_entry0; unfold NUM_CODECS; lia).
  do 2 eexists. split; [by apply aset_in|]. split; [by apply aset_in|].
  intros inst'.
  assert (Hlook : forall c, db_lookup inst' c
                = if decide (c = codec) then Some e else db_lookup inst c).
  { intros c. unfold db_lookup, inst'; simpl. rewrite aget_insert by done.
    destruct (decide (codec = c)) as [->|].
    - rewrite decide_True by done. cbn. rewrite (proj2 (Z.eqb_neq _ _)) by lia.
      by rewrite aget_insert_eq.
    - rewrite decide_False by congruence. destruct (aget (db_position inst) c) eqn:E; [|done].
      cbn. destruct (Z.eqb_spec z (-1)); [done|].
      destruct (di_range0 _ _ E); [done|]. by rewrite aget_insert_ne by lia. }
  split; [|done]. split; subst inst'; simpl; rewrite ?zlen_insert; try done; try lia.
  - intros c p. rewrite aget_insert by done. case_decide; intros Hp; simplify_eq; [lia|].
    destruct (di_range0 _ _ Hp); [by left|lia].
  - intros c c' p. rewrite !aget_insert by done.
    repeat case_decide; intros Hp Hp' Hn; simplify_eq; try done.
    + destruct (di_range0 _ _ Hp'); lia.
    + destruct (di_range0 _ _ Hp); lia.
    + by eapply di_inj0.
  - intros p Hp. destruct (decide (p = db_nrOfCodecs inst)) as [->|].
    + exists codec. by rewrite aget_insert_eq.
    + destruct (di_onto0 p) as [c Hcp]; [lia|]. exists c.
      rewrite aget_insert_ne; [done|lia|]. intros ->. simplify_eq. lia.
  - rewrite aget_insert_ne by lia. done.
  - intros c c' e1 e2. rewrite !Hlook. repeat case_decide; intros; simplify_eq; try done.
    + exfalso. by eapply Hfresh; eauto.
    + exfalso. by eapply Hfresh; eauto.
    + by eapply di_distinct0.
Qed.

Lemma db_overwrite_spec inst codec old e :
  db_inv inst -> aget (db_position inst) codec = Some old -> old <> -1 ->
  (forall c e', db_lookup inst c = Some e' -> ce_payloadType e' <> ce_payloadType e) ->
  exists es, aset (db_entry inst) old e = Some es /\
    let inst' := inst <| db_entry := es |> in
    db_inv inst' /\
    (forall c, db_lookup inst' c = if decide (c = codec) then Some e else db_lookup inst c).
Proof.
  intros Hinv Hpos Hne Hfresh. pose proof (db_nr_bound _ Hinv). destruct Hinv.
  destruct (di_range0 _ _ Hpos) as [|Hr]; [done|].
  assert (0 <= old < zlen (db_entry inst)) as Hel
    by (rewrite di_entry0; unfold NUM_CODECS; lia).
  eexists. split; [by apply aset_in|]. intros inst'.
  assert (Hlook : forall c, db_lookup inst' c
                = if decide (c = codec) then Some e else db_lookup inst c).
  { intros c. unfold db_lookup, inst'; simpl.
    destruct (decide (c = codec)) as [->|Hcc].
    - rewrite Hpos. cbn. rewrite (proj2 (Z.eqb_neq _ _)) by done.
      by rewrite aget_insert_eq.
    - destruct (aget (db_position inst) c) eqn:E; [|done]. cbn.
      destruct (Z.eqb_spec z (-1)); [done|]. rewrite aget_insert_ne; [done|lia|].
      intros ->. by apply Hcc, (di_inj0 _ _ _ E Hpos). }
  split; [|done]. split; subst inst'; simpl; rewrite ?zlen_insert; try done.
  intros c c' e1 e2. rewrite !Hlook. repeat case_decide; intros; simplify_eq; try done.
  - exfalso. by eapply Hfresh; eauto.
  - exfalso. by eapply Hfresh; eauto.
  - by eapply di_distinct0.
Qed.

Lemma db_cng_inv inst cng :
  db_inv inst -> zlen cng = NUM_CNG_CODECS -> db_inv (inst <| db_CNGpayloadType := cng |>).
Proof. intros [] Hz. by split. Qed.

Lemma db_reserved_false codec :
  db_reserved codec = false -> 0 < codec < NUM_TOTAL_CODECS.
Proof.
  unfold db_reserved, kDecoderReservedStart, NUM_TOTAL_CODECS. intros. bool_lia. lia.
Qed.

(** Removing a registered codec. *)
Lemma DbRemove_present inst codec pos :
  db_inv inst -> aget (db_position inst) codec = Some pos -> pos <> -1 ->
  exists inst', DbRemove inst codec = Some (0, inst') /\ db_inv inst' /\
    aget (db_position inst') codec = Some (-1) /\
    (forall c, db_lookup inst' c = if decide (c = codec) then None else db_lookup inst c).
Proof.
  intros Hinv Hpos Hne.
  destruct (DbRemove_removed _ Hinv _ _ Hpos Hne) as (inst' & Hr & Hrem).
  exists inst'. split; [done|]. split; [by eapply removed_inv|].
  split; [|by eapply removed_lookup].
  destruct Hrem as (_ & _ & _ & _ & Hp & _). rewrite (Hp _ _ Hpos).
  by rewrite decide_True.
Qed.

(** Storing: appended or overwritten, the abstract map gains one binding. *)
Lemma db_store_spec inst codec e (ow : bool) :
  db_inv inst -> 0 < codec < NUM_TOTAL_CODECS ->
  (ow = true -> is_Some (db_lookup inst codec)) ->
  (forall c e', db_lookup inst c = Some e' -> ce_payloadType e' <> ce_payloadType e) ->
  exists inst', db_store inst codec e ow = Some (0, inst') /\ db_inv inst' /\
    (forall c, db_lookup inst' c = if decide (c = codec) then Some e else db_lookup inst c).
Proof.
  intros Hinv Hc How Hfresh. pose proof (db_nr_bound _ Hinv).
  unfold db_store. rewrite (proj2 (Z.eqb_neq (db_nrOfCodecs inst) _)) by
    (unfold NUM_CODECS; lia).
  destruct (aget_in (db_position inst) codec) as [old Hold].
  { rewrite (di_position _ Hinv). lia. }
  rewrite Hold. cbn [mbind option_bind]. destruct ow; cbn [negb].
  - rewrite andb_false_r. cbn [mbind option_bind].
    destruct (How eq_refl) as [e0 (p & Hp & Hne & _)%db_lookup_Some]. simplify_eq.
    destruct (db_overwrite_spec _ _ _ e Hinv Hold Hne Hfresh) as (es & -> & H2). eauto.
  - rewrite andb_true_r. destruct (Z.eqb_spec old (-1)) as [->|Hne]; cbn [negb].
    + cbn [mbind option_bind].
      destruct (db_append_spec _ _ e Hinv Hc Hold Hfresh) as (ps & es & -> & H2).
      cbn [mbind option_bind]. destruct H2 as [-> H2]. eauto.
    + destruct (DbRemove_present _ _ _ Hinv Hold Hne) as (inst1 & -> & Hinv1 & Hp1 & Hl1).
      cbn [mbind option_bind].
      destruct (db_append_spec inst1 codec e Hinv1 Hc Hp1) as (ps & es & -> & H2).
      { intros c e'. rewrite Hl1. case_decide; [done|]. apply Hfresh. }
      cbn [mbind option_bind]. destruct H2 as [-> [Hinv2 Hl2]].
      eexists. split; [done|]. split; [done|]. intros c. rewrite Hl2.
      case_decide; [done|]. rewrite Hl1. by rewrite decide_False.
Qed.

(** When the checks of [DbAdd] pass. *)
Definition db_accepts (inst : CodecDbInst) (codec : Z) (e : CodecEntry) : Prop :=
  db_reserved codec = false /\ db_fs_ok (ce_codec_fs e) = true /\
  existsb (Z.eqb codec) db_supported = true /\
  (forall c e', db_lookup inst c = Some e' -> ce_payloadType e' <> ce_payloadType e) /\
  DbIsCNGPayload inst (ce_payloadType e) = false.

(** A CNG codec that is registered and not the 8 kHz one only has its payload
    type noted. *)
Definition db_cng_noted (inst : CodecDbInst) (codec : Z) (e : CodecEntry) : bool :=
  (codec =? kDecoderCNG) && is_case (ce_codec_fs e) [16000; 32000] &&
  match db_lookup inst kDecoderCNG with
  | Some e0 => negb (ce_payloadType e0 =? CODEC_DB_NOT_EXIST2)
  | None => false
  end.

Lemma CNGpos_range fs : 0 <= CNGpos fs < 3.
Proof. unfold CNGpos. repeat case_if; lia. Qed.

Lemma DbGetPayload_lookup inst codec :
  db_inv inst -> 0 <= codec < NUM_TOTAL_CODECS ->
  DbGetPayload inst codec
  = Some match db_lookup inst codec with
         | Some e => ce_payloadType e | None => CODEC_DB_NOT_EXIST2 end.
Proof.
  intros Hinv Hc. pose proof (db_nr_bound _ Hinv). destruct Hinv.
  unfold DbGetPayload, db_lookup.
  destruct (aget_in (db_position inst) codec) as [p Hp]; [by rewrite di_position0|].
  rewrite Hp. cbn. destruct (Z.eqb_spec p (-1)); [done|].
  destruct (di_range0 _ _ Hp); [done|].
  destruct (aget_in (db_entry inst) p) as [e He].
  { rewrite di_entry0. unfold NUM_CODECS. lia. }
  by rewrite He.
Qed.

(** The payload-type check of [DbAdd]. *)
Lemma db_taken_spec inst codec e :
  db_inv inst -> exists taken, DbGetCodec inst (ce_payloadType e) = Some taken /\
  (0 < taken \/
   taken <= 0 /\
   (forall c e', db_lookup inst c = Some e' -> ce_payloadType e' <> ce_payloadType e) /\
   DbIsCNGPayload inst (ce_payloadType e) = false) /\
  (0 < taken -> ~ db_accepts inst codec e).
Proof.
  intros Hinv. destruct (DbGetCodec_lookup _ Hinv (ce_payloadType e))
    as (r & Hr & [(e0 & He0 & Hpt)|[Hno ->]]); eexists; (split; [exact Hr|]).
  - pose proof (db_lookup_range _ Hinv _ _ He0). split; [left; lia|].
    intros _ (_ & _ & _ & Hf & _). by eapply Hf.
  - unfold kDecoderCNG, CODEC_DB_NOT_EXIST3.
    destruct (DbIsCNGPayload inst (ce_payloadType e)) eqn:E.
    + split; [by left|]. intros _ (_ & _ & _ & _ & Hf). congruence.
    + split; [by right|]. lia.
Qed.

(** The CNG part, and whether a slot is stored. *)
Lemma db_add_cng_spec inst e :
  db_inv inst -> exists cng ins ow,
    db_add_cng inst (ce_payloadType e) (ce_codec_fs e)
    = Some (inst <| db_CNGpayloadType := cng |>, ins, ow) /\
    zlen cng = NUM_CNG_CODECS /\
    (ow = true -> is_Some (db_lookup inst kDecoderCNG)) /\
    ins || ow = negb (db_cng_noted inst kDecoderCNG e).
Proof.
  intros Hinv. unfold db_add_cng.
  rewrite DbGetPayload_lookup by done. cbn [mbind option_bind].
  rewrite aset_in by (rewrite (di_CNG _ Hinv); apply CNGpos_range).
  cbn [mbind option_bind]. do 3 eexists. split; [done|].
  rewrite zlen_insert. split; [by apply di_CNG|].
  unfold db_cng_noted, is_case, CNGpos. simpl existsb.
  destruct (db_lookup inst kDecoderCNG) as [e0|];
    destruct (Z.eqb_spec (ce_codec_fs e) 16000), (Z.eqb_spec (ce_codec_fs e) 32000);
    simpl; try lia; split; eauto; try (by intros); rewrite ?orb_false_r, ?orb_true_r;
    rewrite ?andb_true_r, ?andb_false_r; try done;
    try (by destruct (_ =? _)).
Qed.

(** A refusal leaves the database as it is. *)
Ltac refused := do 2 eexists; split; [done|]; split; [done|]; split;
  [split; [done|intros (? & ? & ? & _); congruence]|split_and!; done].

Lemma DbAdd_spec inst codec e :
  db_inv inst ->
  exists r inst', DbAdd inst codec e = Some (r, inst') /\ db_inv inst' /\
    (r = 0 <-> db_accepts inst codec e) /\ (r <> 0 -> inst' = inst) /\
    r <> CODEC_DB_FULL /\
    (r = 0 -> forall c, db_lookup inst' c =
       if decide (c = codec /\ db_cng_noted inst codec e = false)
       then Some e else db_lookup inst c).
Proof.
  intros Hinv. unfold DbAdd.
  destruct (db_reserved codec) eqn:E1; [refused|].
  destruct (db_fs_ok (ce_codec_fs e)) eqn:E2; cbn [negb]; [|refused].
  destruct (existsb _ _) eqn:E3; cbn [negb]; [|refused].
  destruct (db_taken_spec inst codec e Hinv) as (taken & -> & Ht & Hno).
  cbn [mbind option_bind]. destruct (Z.ltb_spec 0 taken).
  { do 2 eexists; split; [done|]; split; [done|]; split; [|done].
    split; [done|]. intros. by destruct Hno. }
  destruct Ht as [|(_ & Hfresh & Hcng)]; [lia|].
  assert (db_accepts inst codec e) as Hacc by by split_and!.
  pose proof (db_reserved_false _ E1) as Hc.
  destruct (Z.eqb_spec codec kDecoderCNG) as [->|Hne]; cbn [negb orb].
  - destruct (db_add_cng_spec inst e Hinv) as (cng & ins & ow & -> & Hz & How & Hor).
    cbn [mbind option_bind]. rewrite Hor.
    pose proof (db_cng_inv _ _ Hinv Hz) as Hinv1.
    destruct (db_cng_noted inst kDecoderCNG e) eqn:En; cbn [negb].
    + do 2 eexists; split; [done|]. split; [done|]. split; [done|]. split; [done|].
      split; [done|]. intros _ c. rewrite decide_False by (intros [? ?]; congruence). done.
    + destruct (db_store_spec _ kDecoderCNG e ow Hinv1 Hc How Hfresh)
        as (inst' & -> & Hinv' & Hl).
      do 2 eexists; split; [done|]. split; [done|]. split; [done|]. split; [done|].
      split; [done|]. intros _ c. rewrite Hl.
      destruct (decide (c = kDecoderCNG)) as [->|]; [by rewrite decide_True|].
      rewrite decide_False by (intros [? ?]; congruence). done.
  - cbn [mbind option_bind].
    assert (db_cng_noted inst codec e = false) as Hn.
    { unfold db_cng_noted. by rewrite (proj2 (Z.eqb_neq _ _) Hne). }
    destruct (db_store_spec _ codec e false Hinv Hc ltac:(done) Hfresh)
      as (inst' & -> & Hinv' & Hl).
    do 2 eexists; split; [done|]. split; [done|]. split; [done|]. split; [done|].
    split; [done|]. intros _ c. rewrite Hl.
    destruct (decide (c = codec)) as [->|]; [by rewrite decide_True|].
    rewrite decide_False by (intros [? ?]; congruence). done.
Qed.

(** ** The payload types noted for comfort noise *)

Lemma DbRemove_cng db codec r db' :
  codec <> kDecoderCNG -> DbRemove db codec = Some (r, db') ->
  db_CNGpayloadType db' = db_CNGpayloadType db.
Proof.
  intros Hne H. unfold DbRemove in H. rewrite (proj2 (Z.eqb_neq _ _) Hne) in H.
  case_match; [by simplify_eq|]. bind_inv. case_match; [by simplify_eq|]. bind_inv.
  by repeat (case_match; simplify_eq/=; bind_inv).
Qed.

Lemma db_store_cng db codec e ow r db' :
  codec <> kDecoderCNG \/ ow = true \/ aget (db_position db) codec = Some (-1) ->
  db_store db codec e ow = Some (r, db') -> db_CNGpayloadType db' = db_CNGpayloadType db.
Proof.
  intros Hne H. unfold db_store in H. case_match; [by simplify_eq|].
  apply bind_is_Some in H as (old & Hold & H). apply bind_is_Some in H as (db1 & Hs & H).
  assert (db_CNGpayloadType db1 = db_CNGpayloadType db) as <-.
  { destruct (negb (old =? -1) && negb ow) eqn:E; [|congruence]. apply andb_prop in E as [E1 E2].
    destruct (DbRemove db codec) as [[r1 db2]|] eqn:Hr; [|done]. simplify_eq/=.
    apply DbRemove_cng in Hr; [done|]. intros ->. destruct Hne as [|[->|Hp]]; [done|done|].
    rewrite Hp in Hold. injection Hold as <-. done. }
  case_match; bind_inv; by simplify_eq/=.
Qed.

Lemma DbAdd_cng db codec e r db' :
  codec <> kDecoderCNG -> DbAdd db codec e = Some (r, db') ->
  db_CNGpayloadType db' = db_CNGpayloadType db.
Proof.
  intros Hne H. unfold DbAdd in H. rewrite (proj2 (Z.eqb_neq _ _) Hne) in H.
  do 3 (case_match; [by simplify_eq|]). apply bind_is_Some in H as (? & ? & H).
  case_match; [by simplify_eq|]. cbn [mbind option_bind negb orb] in H.
  apply db_store_cng in H; [done|by left].
Qed.

Lemma DbAdd_cng_noted db e db' :
  db_inv db -> DbAdd db kDecoderCNG e = Some (0, db') ->
  (forall e0, db_lookup db kDecoderCNG = Some e0 -> ce_payloadType e0 <> CODEC_DB_NOT_EXIST2) ->
  db_CNGpayloadType db' = <[Z.to_nat (CNGpos (ce_codec_fs e)) := ce_payloadType e]> (db_CNGpayloadType db).
Proof.
  intros Hinv H Hpt. unfold DbAdd in H. rewrite Z.eqb_refl in H.
  do 3 (case_match; [by simplify_eq|]). apply bind_is_Some in H as (? & ? & H).
  case_match; [by simplify_eq|]. unfold db_add_cng in H. rewrite DbGetPayload_lookup in H by done.
  cbn [mbind option_bind] in H. rewrite aset_in in H by (rewrite (di_CNG _ Hinv); apply CNGpos_range).
  cbn [mbind option_bind negb orb] in H. set (ins := _ =? CODEC_DB_NOT_EXIST2) in H.
  assert (Hins : ins = true -> aget (db_position db) kDecoderCNG = Some (-1)).
  { unfold ins. intros Hi%Z.eqb_eq. destruct (db_lookup db kDecoderCNG) as [e0|] eqn:El; [by destruct (Hpt e0)|].
    destruct (aget_in (db_position db) kDecoderCNG) as [p Hp]; [rewrite (di_position _ Hinv); done|].
    destruct (Z.eq_dec p (-1)) as [->|Hne]; [done|]. exfalso.
    pose proof (db_pos_range _ Hinv _ _ Hp Hne). pose proof (db_nr_bound _ Hinv).
    destruct (aget_in (db_entry db) p) as [e1 He]; [rewrite (di_entry _ Hinv); unfold NUM_CODECS; lia|].
    assert (db_lookup db kDecoderCNG = Some e1) by (apply db_lookup_Some; eauto). congruence. }
  case_match; [|by injection H as <-]. apply db_store_cng in H; [exact H|]. right.
  destruct ins; [right; by apply Hins|left]. cbn [orb] in *. done.
Qed.

Lemma DbReset_inv : db_inv DbReset.
Proof.
  assert (Hp : forall c p, aget (db_position DbReset) c = Some p -> p = -1).
  { intros c p H. unfold DbReset in H. cbn [db_position] in H.
    pose proof (aget_Some_range _ _ _ H) as Hr. rewrite zlen_replicate in Hr.
    rewrite aget_replicate in H by lia. by simplify_eq. }
  split; try done.
  - intros c p H. left. by eapply Hp.
  - intros c c' p H _ Hn. by apply Hp in H.
  - simpl. lia.
  - intros c c' e e' (p & H & Hne & _)%db_lookup_Some. by apply Hp in H.
Qed.

(** The lookups of the code in terms of the abstract map. *)
Lemma DbGetPtrs_lookup inst codec e p :
  db_inv inst -> db_lookup inst codec = Some e ->
  DbGetPtrs inst codec p = Some (0, db_ptrs e p).
Proof.
  intros Hinv Hl. pose proof (db_lookup_range _ Hinv _ _ Hl) as Hc.
  apply db_lookup_Some in Hl as (pos & Hp & Hne & He).
  unfold DbGetPtrs. rewrite Hp. cbn [mbind option_bind].
  unfold NUM_TOTAL_CODECS, kDecoderReservedStart in *.
  destruct (Z.leb_spec codec 0), (Z.leb_spec kDecoderReservedEnd codec),
    (Z.ltb_spec kDecoderReservedEnd codec); try lia. cbn [orb].
  pose proof (aget_Some_range _ _ _ He). destruct (Z.leb_spec 0 pos); [|lia].
  by rewrite He.
Qed.

Lemma DbGetCodec_registered inst codec e :
  db_inv inst -> db_lookup inst codec = Some e ->
  DbGetCodec inst (ce_payloadType e) = Some codec.
Proof.
  intros Hinv Hl. destruct (DbGetCodec_lookup _ Hinv (ce_payloadType e))
    as (r & -> & [(e' & He' & Hpt)|[Hno _]]).
  - f_equal. by eapply di_distinct.
  - by destruct (Hno _ _ Hl).
Qed.

(** Databases the MCU can produce. *)
Inductive db_reachable : CodecDbInst -> Prop :=
| dbr_reset : db_reachable DbReset
| dbr_add inst codec e r inst' :
    db_reachable inst -> DbAdd inst codec e = Some (r, inst') -> db_reachable inst'
| dbr_remove inst codec r inst' :
    db_reachable inst -> DbRemove inst codec = Some (r, inst') -> db_reachable inst'.

Lemma DbRemove_spec inst codec :
  db_inv inst ->
  exists r inst', DbRemove inst codec = Some (r, inst') /\ db_inv inst' /\
    (r = 0 <-> is_Some (db_lookup inst codec)) /\ (r <> 0 -> inst' = inst) /\
    (forall c, db_lookup inst' c = if decide (c = codec) then None else db_lookup inst c).
Proof.
  intros Hinv.
  assert (Hnone : forall r, db_lookup inst codec = None -> r <> 0 ->
    DbRemove inst codec = Some (r, inst) ->
    exists r inst', DbRemove inst codec = Some (r, inst') /\ db_inv inst' /\
    (r = 0 <-> is_Some (db_lookup inst codec)) /\ (r <> 0 -> inst' = inst) /\
    (forall c, db_lookup inst' c = if decide (c = codec) then None else db_lookup inst c)).
  { intros r Hn Hr H. exists r, inst. rewrite Hn. split; [done|]. split; [done|].
    split; [split; [done|by intros [? ?]]|]. split; [done|]. intros c.
    case_decide; [by subst|done]. }
  destruct (db_reserved codec) eqn:E.
  { apply (Hnone CODEC_DB_UNSUPPORTED_CODEC); [|done|unfold DbRemove; by rewrite E].
    destruct (db_lookup inst codec) eqn:Hl; [|done].
    apply (db_lookup_range _ Hinv) in Hl. unfold db_reserved in E.
    unfold NUM_TOTAL_CODECS, kDecoderReservedStart in *.
    apply orb_prop in E as [E|E]; bool_lia; lia. }
  pose proof (db_reserved_false _ E) as Hc.
  destruct (aget_in (db_position inst) codec) as [pos Hpos].
  { rewrite (di_position _ Hinv). lia. }
  destruct (decide (pos = -1)) as [->|Hne].
  - apply (Hnone CODEC_DB_NOT_EXIST4); [|done|].
    + unfold db_lookup. by rewrite Hpos.
    + unfold DbRemove. by rewrite E, Hpos.
  - destruct (DbRemove_present _ _ _ Hinv Hpos Hne) as (inst' & Hr & Hinv' & _ & Hl).
    exists 0, inst'. split; [done|]. split; [done|]. split; [|done].
    split; [intros _|done]. pose proof (DbGetPayload_lookup inst codec Hinv ltac:(lia)) as Hg.
    pose proof (db_pos_range _ Hinv _ _ Hpos Hne). pose proof (db_nr_bound _ Hinv).
    destruct (aget_in (db_entry inst) pos) as [e He].
    { rewrite (di_entry _ Hinv). unfold NUM_CODECS. lia. }
    exists e. apply db_lookup_Some. eauto.
Qed.

Lemma db_reachable_inv inst : db_reachable inst -> db_inv inst.
Proof.
  induction 1 as [|inst codec e r inst' _ IH H|inst codec r inst' _ IH H].
  - apply DbReset_inv.
  - destruct (DbAdd_spec _ codec e IH) as (? & ? & H' & ? & _). by simplify_eq.
  - destruct (DbRemove_spec _ codec IH) as (? & ? & H' & ? & _). by simplify_eq.
Qed.

(** ** Properties *)

(** C32. In every database reached from the reset by additions and removals,
    [position] maps the registered codecs one to one onto the first
    [nrOfCodecs] slots, registered payload types are distinct, and the table
    is never full: at most 41 of its 47 slots are used. *)
Theorem CodecDb_invariant inst :
  db_reachable inst -> db_inv inst /\ db_nrOfCodecs inst <= 41.
Proof. intros H%db_reachable_inv. split; [done|by apply db_nr_bound]. Qed.

(** C28. [DbAdd] implements a map update: it returns 0 exactly when the codec id
    is supported, the sampling rate is one of the four, and the payload type is
    free; then the codec is bound to the new slot record and every other
    binding is unchanged (a second, wideband comfort-noise registration binds
    nothing).  Every accepted comfort-noise registration has its payload type noted
    in [CNGpayloadType], at 1 for 16 kHz, at 2 for 32 kHz and at 0 for 8 and 48 kHz
    (as long as the registered one is not -5003, the error code of the lookup);
    the other entries, and all of them for another codec, stay.  On every other
    input it changes nothing, and it never answers [CODEC_DB_FULL] nor reads outside
    of its arrays. *)
Theorem DbAdd_refines inst codec e :
  db_reachable inst ->
  exists r inst', DbAdd inst codec e = Some (r, inst') /\
    (r = 0 <-> db_accepts inst codec e) /\ (r <> 0 -> inst' = inst) /\
    r <> CODEC_DB_FULL /\
    (r = 0 -> forall c, db_lookup inst' c =
       if decide (c = codec /\ db_cng_noted inst codec e = false)
       then Some e else db_lookup inst c) /\
    (r = 0 -> codec = kDecoderCNG ->
       (forall e0, db_lookup inst kDecoderCNG = Some e0 -> ce_payloadType e0 <> -5003) ->
       db_CNGpayloadType inst' =
         <[Z.to_nat (if ce_codec_fs e =? 16000 then 1 else if ce_codec_fs e =? 32000 then 2 else 0) := ce_payloadType e]>
           (db_CNGpayloadType inst)) /\
    (codec <> kDecoderCNG -> db_CNGpayloadType inst' = db_CNGpayloadType inst).
Proof.
  intros H%db_reachable_inv. destruct (DbAdd_spec _ codec e H)
    as (r & inst' & Ha & _ & H1 & H2 & H3 & H4). exists r, inst'. split_and!; try done.
  - intros -> -> Hpt. rewrite (DbAdd_cng_noted _ _ _ H Ha Hpt). unfold CNGpos. by repeat case_if.
  - intros Hne. by apply (DbAdd_cng _ _ _ _ _ Hne Ha).
Qed.

(** C29. [DbRemove] implements the deletion of a binding: it returns 0 exactly
    when the codec is registered, and afterwards the codec is unbound and every
    other codec has the record it had, although slots and positions moved. *)
Theorem DbRemove_refines inst codec :
  db_reachable inst ->
  exists r inst', DbRemove inst codec = Some (r, inst') /\
    (r = 0 <-> is_Some (db_lookup inst codec)) /\ (r <> 0 -> inst' = inst) /\
    (forall c, db_lookup inst' c = if decide (c = codec) then None else db_lookup inst c).
Proof.
  intros H%db_reachable_inv. destruct (DbRemove_spec _ codec H)
    as (r & inst' & ? & _ & ?). eauto.
Qed.

(** Registration round trip: after a successful [DbAdd] that stores the
    codec, its payload type is mapped back to the codec, the codec to its
    payload type and to exactly the function pointers, state and sampling rate
    that were registered. *)
Theorem DbAdd_roundtrip inst codec e inst' p :
  db_reachable inst -> DbAdd inst codec e = Some (0, inst') ->
  db_cng_noted inst codec e = false ->
  DbGetCodec inst' (ce_payloadType e) = Some codec /\
  DbGetPayload inst' codec = Some (ce_payloadType e) /\
  DbGetPtrs inst' codec p = Some (0, db_ptrs e p).
Proof.
  intros Hr%db_reachable_inv Ha Hn.
  destruct (DbAdd_spec _ codec e Hr) as (r & i2 & Ha' & Hinv & Hacc & _ & _ & Hl).
  assert (r = 0 /\ i2 = inst') as [-> ->] by (split; congruence).
  assert (db_lookup inst' codec = Some e) as He by (rewrite Hl by done; by rewrite decide_True).
  split; [by apply DbGetCodec_registered|]. split; [|by apply DbGetPtrs_lookup].
  pose proof (db_lookup_range _ Hinv _ _ He).
  rewrite DbGetPayload_lookup by (done || lia). by rewrite He.
Qed.

(** A database with G.711 mu-law (type 0) and iSAC (type 103). *)
Definition ex_pcmu : CodecEntry := mkCodecEntry 0 11 12 13 14 15 16 17 18 19 20 21 8000.
Definition ex_isac : CodecEntry := mkCodecEntry 103 31 32 33 34 35 36 37 38 39 40 41 16000.
Definition ex_add (inst : CodecDbInst) (codec : Z) (e : CodecEntry) : CodecDbInst :=
  match DbAdd inst codec e with Some (_, i) => i | None => inst end.
Definition ex_db1 : CodecDbInst := Eval vm_compute in ex_add DbReset kDecoderPCMu ex_pcmu.
Definition ex_db : CodecDbInst := Eval vm_compute in ex_add ex_db1 kDecoderISAC ex_isac.

Lemma ex_db1_reachable : db_reachable ex_db1.
Proof. apply (dbr_add DbReset kDecoderPCMu ex_pcmu 0); [constructor|by vm_compute]. Qed.
Lemma ex_db_reachable : db_reachable ex_db.
Proof. apply (dbr_add ex_db1 kDecoderISAC ex_isac 0); [apply ex_db1_reachable|by vm_compute]. Qed.

Lemma CodecDb_invariant_witness : db_inv ex_db /\ db_nrOfCodecs ex_db <= 41.
Proof. apply (CodecDb_invariant ex_db). apply ex_db_reachable. Defined.

(** Two comfort-noise registrations: the second one is only noted. *)
Definition ex_cng : CodecEntry := mkCodecEntry 13 1 2 3 4 5 6 7 8 9 10 11 8000.
Definition ex_cng_wb : CodecEntry := mkCodecEntry 98 1 2 3 4 5 6 7 8 9 10 11 16000.
Definition ex_cng_db : CodecDbInst := Eval vm_compute in ex_add ex_db1 kDecoderCNG ex_cng.

Lemma ex_cng_db_reachable : db_reachable ex_cng_db.
Proof. apply (dbr_add ex_db1 kDecoderCNG ex_cng 0); [apply ex_db1_reachable|by vm_compute]. Qed.

Lemma DbAdd_refines_witness :
  exists inst', DbAdd ex_cng_db kDecoderCNG ex_cng_wb = Some (0, inst') /\
    (forall c, db_lookup inst' c = db_lookup ex_cng_db c) /\ db_CNGpayloadType inst' = [13; 98; -1].
Proof.
  destruct (DbAdd_refines ex_cng_db kDecoderCNG ex_cng_wb ex_cng_db_reachable)
    as (r & inst' & E & _ & _ & _ & Hl & Hn & _).
  assert (Hr : option_map fst (DbAdd ex_cng_db kDecoderCNG ex_cng_wb) = Some 0) by (vm_compute; reflexivity).
  rewrite E in Hr. injection Hr as ->. exists inst'. split; [exact E|]. split.
  - intros c. rewrite Hl by done. rewrite decide_False; [done|]. intros [_ H]. vm_compute in H. discriminate.
  - rewrite Hn; [reflexivity|done|done|]. intros e0 H. vm_compute in H. injection H as <-. discriminate.
Defined.

Lemma DbRemove_refines_witness :
  exists r inst', DbRemove ex_db kDecoderPCMu = Some (r, inst') /\
    (r = 0 <-> is_Some (db_lookup ex_db kDecoderPCMu)) /\ (r <> 0 -> inst' = ex_db) /\
    (forall c, db_lookup inst' c = if decide (c = kDecoderPCMu) then None
                                   else db_lookup ex_db c).
Proof. apply (DbRemove_refines ex_db). apply ex_db_reachable. Defined.

Lemma DbAdd_roundtrip_witness :
  DbGetCodec ex_db 103 = Some kDecoderISAC /\ DbGetPayload ex_db kDecoderISAC = Some 103 /\
  DbGetPtrs ex_db kDecoderISAC (mkCodecFuncInst 0 0 0 0 0 0 0 0 0 0 0 0)
  = Some (0, db_ptrs ex_isac (mkCodecFuncInst 0 0 0 0 0 0 0 0 0 0 0 0)).
Proof.
  apply (DbAdd_roundtrip ex_db1 kDecoderISAC ex_isac ex_db).
  - apply ex_db1_reachable.
  - vm_compute. reflexivity.
  - vm_compute. reflexivity.
Defined.

(** [DbGetPtrs] reads [position[codec]] before it checks the id. *)
Example DbGetPtrs_reads_first :
  DbGetPtrs ex_db (-1) (mkCodecFuncInst 0 0 0 0 0 0 0 0 0 0 0 0) = None.
Proof. reflexivity. Qed.
