(* ===== verification/PacketBuffer.v ===== *)
(** The packet buffer of the NetEQ MCU side: [packet_buffer.h],
    [packet_buffer.c].

    The seven arrays of [PacketBuf_t] with one entry per packet slot are one
    list of slot records.  The payload memory is the list of its bytes; a
    position in it ([currentMemoryPos], [payloadLocation]) is the offset in
    16-bit words from [startPayloadMemory].  An access outside of an array, of
    the payload memory or of the packet handed in is [None]. *)
From S2P Require Import Prelude CodecDb Rtp.

(** ** Data *)

Definition PBUFFER_INIT_ERROR : Z := -4001.
Definition PBUFFER_NONEXISTING_PACKET : Z := -4008.
Definition PBUFFER_NOT_INITIALIZED : Z := -4009.
Definition NETEQ_OTHER_ERROR : Z := -1000.
Definition PBUFFER_MIN_MEMORY_SIZE : Z := 150.
Definition WEBRTC_SPL_WORD16_MAX : Z := 32767.
Definition WEBRTC_SPL_WORD32_MAX : Z := 2147483647.

Record Slot := mkSlot {
  sl_timeStamp : Z;
  sl_payloadLocation : Z;
  sl_seqNumber : Z;
  sl_payloadType : Z;
  sl_payloadLengthBytes : Z;
  sl_rcuPlCntr : Z;
  sl_waitingTime : Z
}.

#[export] Instance eta_Slot : Eta Slot := fun r =>
  mkSlot (sl_timeStamp r) (sl_payloadLocation r) (sl_seqNumber r) (sl_payloadType r)
    (sl_payloadLengthBytes r) (sl_rcuPlCntr r) (sl_waitingTime r).

Record PacketBuf := mkPacketBuf {
  pb_packSizeSamples : Z;
  pb_started : bool;            (* startPayloadMemory != NULL *)
  pb_memory : list Z;           (* the bytes from startPayloadMemory on *)
  pb_memorySizeW16 : Z;
  pb_currentMemoryPos : Z;
  pb_numPacketsInBuffer : Z;
  pb_insertPosition : Z;
  pb_maxInsertPositions : Z;
  pb_slot : list Slot;
  pb_discardedPackets : Z
}.

#[export] Instance eta_PacketBuf : Eta PacketBuf := fun r =>
  mkPacketBuf (pb_packSizeSamples r) (pb_started r) (pb_memory r) (pb_memorySizeW16 r)
    (pb_currentMemoryPos r) (pb_numPacketsInBuffer r) (pb_insertPosition r)
    (pb_maxInsertPositions r) (pb_slot r) (pb_discardedPackets r).

(** Size of [n] bytes in 16-bit words, [(n + 1) >> 1]. *)
Definition words (n : Z) : Z := Z.shiftr (n + 1) 1.

(** ** [WebRtcNetEQ_PacketBufferInit] *)

(** The index [pos] after the slot arrays, for pointers of [sizeof_ptr] bytes. *)
Definition slot_arrays_size (maxNoOfPackets sizeof_ptr : Z) : Z :=
  Z.shiftl maxNoOfPackets 1 + maxNoOfPackets * (sizeof_ptr / 2) + maxNoOfPackets
  + maxNoOfPackets + maxNoOfPackets + maxNoOfPackets + maxNoOfPackets * 4 / 2.

Definition zero_slot : Slot := mkSlot 0 0 0 0 0 0 0.

(** [memory_given] is [pw16_memory != NULL].  The result is [None] when the slot
    arrays do not fit the memory: the code has no check for that. *)
Definition PacketBufferInit (sizeof_ptr : Z) (inst : PacketBuf) (maxNoOfPackets : Z)
    (memory_given : bool) (memorySize : Z) : option (Z * PacketBuf) :=
  if (memorySize <? PBUFFER_MIN_MEMORY_SIZE) || negb memory_given
     || (maxNoOfPackets <? 2) || (600 <? maxNoOfPackets)
  then Some (PBUFFER_INIT_ERROR, inst)
  else
    let pos := slot_arrays_size maxNoOfPackets sizeof_ptr in
    _ ← assert (pos <=? memorySize);
    let memorySizeW16 := memorySize - pos in
    Some (0, mkPacketBuf 0 true (replicate (Z.to_nat (2 * memorySizeW16)) 0)
               memorySizeW16 0 0 0 maxNoOfPackets
               (replicate (Z.to_nat maxNoOfPackets) (zero_slot <| sl_payloadType := -1 |>))
               0).

(** ** [WebRtcNetEQ_PacketBufferFlush] *)
Definition flush_slot (s : Slot) : Slot :=
  s <| sl_payloadLengthBytes := 0 |> <| sl_payloadType := -1 |>
    <| sl_timeStamp := 0 |> <| sl_seqNumber := 0 |>.

Definition PacketBufferFlush (inst : PacketBuf) : Z * PacketBuf :=
  if negb (pb_started inst) then (0, inst) else
  (0, inst <| pb_slot := flush_slot <$> pb_slot inst |>
           <| pb_numPacketsInBuffer := 0 |>
           <| pb_currentMemoryPos := 0 |>
           <| pb_insertPosition := 0 |>).

(** ** [WebRtcNetEQ_IsSyncPayload] of [mcu_dsp_common.c] *)
Definition SYNC_PAYLOAD_LEN_BYTES : Z := 7.
Definition kSyncPayload : list Z := [97; 118; 115; 121; 110; 99; 0].

Definition IsSyncPayload (payload : list Z) (payload_len_bytes : Z) : option bool :=
  if negb (payload_len_bytes =? SYNC_PAYLOAD_LEN_BYTES) then Some false
  else b ← aload payload 0 SYNC_PAYLOAD_LEN_BYTES;
       Some (bool_decide (b = kSyncPayload)).

(** The payload bytes from a slot's location on. *)
Definition slot_payload (memory : list Z) (s : Slot) : list Z :=
  ptr_w16 memory (sl_payloadLocation s).

(** ** [WebRtcNetEQ_PacketBufferInsert] *)

(** "Clear the position in the buffer." *)
Definition clear_slot (s : Slot) : Slot :=
  s <| sl_payloadType := -1 |> <| sl_payloadLengthBytes := 0 |>.

(** The AV-sync loop from slot [i], [n] slots left: [inl tt] for "return 0",
    else the slots and the packet count. *)
Fixpoint av_sync_loop (memory : list Z) (p : RTPPacket) (n : nat) (i : Z)
    (slots : list Slot) (num : Z) : option (unit + list Slot * Z) :=
  match n with
  | O => Some (inr (slots, num))
  | S n =>
      s ← aget slots i;
      if (sl_seqNumber s =? rtp_seqNumber p) && (0 <? sl_payloadLengthBytes s) then
        sync ← IsSyncPayload (rtp_payload p) (rtp_payloadLen p);
        if (sync : bool) then Some (inl tt) else
        sync ← IsSyncPayload (slot_payload memory s) (sl_payloadLengthBytes s);
        if (sync : bool) then
          slots ← aset slots i (clear_slot s); Some (inr (slots, num - 1))
        else av_sync_loop memory p n (i + 1) slots num
      else av_sync_loop memory p n (i + 1) slots num
  end.

(** The non-empty slot with the lowest payload location below [temp], from
    slot [i] on. *)
Fixpoint lowest_location (slots : list Slot) (i temp nextPos : Z) : Z * Z :=
  match slots with
  | [] => (temp, nextPos)
  | s :: slots =>
      if negb (sl_payloadLengthBytes s =? 0) && (sl_payloadLocation s <? temp)
      then lowest_location slots (i + 1) (sl_payloadLocation s) i
      else lowest_location slots (i + 1) temp nextPos
  end.

(** [payloadLengthBytes[i]], for [i] up to the number of slots.  [PacketBufferInit] cuts
    the slot arrays out of one block, [rcuPlCntr] behind [payloadLengthBytes]: the entry
    behind the last one is the first entry of [rcuPlCntr]. *)
Definition length_entry (slots : list Slot) (i : Z) : option Z :=
  if i =? zlen slots then s ← aget slots 0; Some (sl_rcuPlCntr s)
  else s ← aget slots i; Some (sl_payloadLengthBytes s).

(** [while (payloadLengthBytes[nextPos] == 0 && nextPos < max) nextPos++]: the entry is
    read before the index is compared, at the end the one behind the array. *)
Fixpoint next_nonempty (fuel : nat) (slots : list Slot) (max nextPos : Z) : option Z :=
  match fuel with
  | O => None
  | S fuel =>
      len ← length_entry slots nextPos;
      if (len =? 0) && (nextPos <? max) then next_nonempty fuel slots max (nextPos + 1)
      else Some nextPos
  end.

(** [while (payloadLengthBytes[nextPos] == 0) nextPos++]: without a bound, an
    empty buffer would run out of the array. *)
Fixpoint next_nonempty_unbounded (fuel : nat) (slots : list Slot) (nextPos : Z) : option Z :=
  match fuel with
  | O => None
  | S fuel =>
      s ← aget slots nextPos;
      if sl_payloadLengthBytes s =? 0 then next_nonempty_unbounded fuel slots (nextPos + 1)
      else Some nextPos
  end.

(** Finding the position of a packet in a non-empty buffer: [None] as the third
    component when the buffer is corrupt. *)
Definition find_position (inst : PacketBuf) (need : Z)
  : option (PacketBuf * option Z) :=
  let ip := pb_insertPosition inst + 1 in
  let ip := if pb_maxInsertPositions inst <=? ip then 0 else ip in
  let inst := inst <| pb_insertPosition := ip |> in
  if pb_memorySizeW16 inst <=? pb_currentMemoryPos inst + need then
    let inst := inst <| pb_currentMemoryPos := 0 |> in
    let '(_, nextPos) := lowest_location (pb_slot inst) 0 (pb_memorySizeW16 inst) (-1) in
    Some (inst, if nextPos =? -1 then None else Some nextPos)
  else
    let fuel := S (Z.to_nat (pb_maxInsertPositions inst)) in
    nextPos ← next_nonempty fuel (pb_slot inst) (pb_maxInsertPositions inst) (ip + 1);
    nextPos ← (if nextPos =? pb_maxInsertPositions inst
               then next_nonempty_unbounded fuel (pb_slot inst) 0
               else Some nextPos);
    Some (inst, Some nextPos).

(** The two flushing checks; the flag is [*flushed]. *)
Definition flush_if_full (inst : PacketBuf) (need nextPos : Z) : option (PacketBuf * bool) :=
  s ← aget (pb_slot inst) nextPos;
  let '(inst, flushed) :=
    if (pb_currentMemoryPos inst <=? sl_payloadLocation s)
       && (sl_payloadLocation s <? pb_currentMemoryPos inst + need)
    then ((PacketBufferFlush inst).2, true) else (inst, false) in
  s ← aget (pb_slot inst) (pb_insertPosition inst);
  Some (if negb (sl_payloadLengthBytes s =? 0)
        then ((PacketBufferFlush inst).2, true) else (inst, flushed)).

(** Copying the payload and the packet information to the found position. *)
Definition insert_at_position (inst : PacketBuf) (p : RTPPacket) : option PacketBuf :=
  bytes ← aload (rtp_payload p) (if rtp_starts_byte1 p =? 0 then 0 else 1) (rtp_payloadLen p);
  memory ← astore (pb_memory inst) (2 * pb_currentMemoryPos inst) bytes;
  slots ← aset (pb_slot inst) (pb_insertPosition inst)
            (mkSlot (rtp_timeStamp p) (pb_currentMemoryPos inst) (rtp_seqNumber p)
               (s16 (rtp_payloadType p)) (rtp_payloadLen p) (rtp_rcuPlCntr p) 0);
  Some (inst <| pb_memory := memory |> <| pb_slot := slots |>
             <| pb_numPacketsInBuffer := pb_numPacketsInBuffer inst + 1 |>
             <| pb_currentMemoryPos := pb_currentMemoryPos inst + words (rtp_payloadLen p) |>).

(** The part of the function after the AV-sync loop. *)
Definition insert_packet (inst : PacketBuf) (p : RTPPacket)
  : option (Z * bool * PacketBuf) :=
  let need := words (rtp_payloadLen p) in
  if negb (pb_numPacketsInBuffer inst =? 0) then
    '(inst, nextPos) ← find_position inst need;
    match nextPos with
    | None => Some (-1, true, (PacketBufferFlush inst).2)
    | Some nextPos =>
        '(inst, flushed) ← flush_if_full inst need nextPos;
        inst ← insert_at_position inst p;
        Some (0, flushed, inst)
    end
  else
    inst ← insert_at_position
             (inst <| pb_currentMemoryPos := 0 |> <| pb_insertPosition := 0 |>) p;
    Some (0, false, inst).

(** The result is the return value, [*flushed] and the buffer. *)
Definition PacketBufferInsert (inst : PacketBuf) (p : RTPPacket) (av_sync : bool)
  : option (Z * bool * PacketBuf) :=
  if negb (pb_started inst) then Some (-1, false, inst) else
  if (Z.shiftl (pb_memorySizeW16 inst) 1 <? rtp_payloadLen p) || (rtp_payloadLen p <=? 0)
  then Some (-1, false, inst) else
  r ← (if av_sync
       then av_sync_loop (pb_memory inst) p (Z.to_nat (pb_maxInsertPositions inst)) 0
              (pb_slot inst) (pb_numPacketsInBuffer inst)
       else Some (inr (pb_slot inst, pb_numPacketsInBuffer inst)));
  match r with
  | inl _ => Some (0, false, inst)
  | inr (slots, num) =>
      insert_packet (inst <| pb_slot := slots |> <| pb_numPacketsInBuffer := num |>) p
  end.

(** ** [WebRtcNetEQ_PacketBufferExtract]

    [p] is the packet struct of the caller, with the memory its [payload]
    points to.  The result is the return value, the packet, [*waitingTime]
    when it is written, and the buffer. *)
Definition PacketBufferExtract (inst : PacketBuf) (p : RTPPacket) (bufferPosition : Z)
  : option (Z * RTPPacket * option Z * PacketBuf) :=
  if negb (pb_started inst) then Some (PBUFFER_NOT_INITIALIZED, p, None, inst) else
  if (bufferPosition <? 0) || (pb_maxInsertPositions inst <=? bufferPosition)
  then Some (NETEQ_OTHER_ERROR, p, None, inst) else
  s ← aget (pb_slot inst) bufferPosition;
  if sl_payloadLengthBytes s <=? 0
  then Some (PBUFFER_NONEXISTING_PACKET, p <| rtp_payloadLen := 0 |>, None, inst) else
  bytes ← aload (pb_memory inst) (2 * sl_payloadLocation s)
            (2 * words (sl_payloadLengthBytes s));
  dest ← astore (rtp_payload p) 0 bytes;
  slots ← aset (pb_slot inst) bufferPosition
            (mkSlot 0 0 0 (-1) 0 (sl_rcuPlCntr s) 0);
  Some (0,
    p <| rtp_payload := dest |>
      <| rtp_payloadLen := sl_payloadLengthBytes s |>
      <| rtp_payloadType := sl_payloadType s |>
      <| rtp_seqNumber := sl_seqNumber s |>
      <| rtp_timeStamp := sl_timeStamp s |>
      <| rtp_rcuPlCntr := sl_rcuPlCntr s |>
      <| rtp_starts_byte1 := 0 |>,
    Some (sl_waitingTime s),
    inst <| pb_slot := slots |>
         <| pb_numPacketsInBuffer := pb_numPacketsInBuffer inst - 1 |>).

(** ** [WebRtcNetEQ_PacketBufferFindLowestTimestamp] *)

(** The best candidate so far: [*buffer_position], the smallest difference,
    [*payload_type] and the RCU counter. *)
Record Candidate := mkCandidate {
  ca_position : Z; ca_diff : Z; ca_payload_type : Z; ca_rcu : Z
}.

Definition no_candidate : Candidate :=
  mkCandidate (-1) WEBRTC_SPL_WORD32_MAX (-1) WEBRTC_SPL_WORD16_MAX.

(** "Check if payload should be discarded." *)
Definition too_old (s : Slot) (new_diff : Z) : bool :=
  (new_diff <? 0) && (-30000 <? new_diff) && (0 <? sl_payloadLengthBytes s).

Definition better_candidate (s : Slot) (new_diff : Z) (c : Candidate) : bool :=
  ((new_diff <? ca_diff c) ||
   ((new_diff =? ca_diff c) && (sl_rcuPlCntr s <? ca_rcu c)))
  && (0 <? sl_payloadLengthBytes s).

(** Both loops, from slot [i] on: the slots, how many packets were thrown away,
    and the candidate. *)
Fixpoint lowest_timestamp (current_time_stamp : Z) (erase : bool) (slots : list Slot)
    (i : Z) (c : Candidate) : list Slot * Z * Candidate :=
  match slots with
  | [] => ([], 0, c)
  | s :: slots =>
      let new_diff := s32 (u32 (sl_timeStamp s - current_time_stamp)) in
      if erase && too_old s new_diff then
        let '(slots, n, c) := lowest_timestamp current_time_stamp erase slots (i + 1) c in
        (clear_slot s :: slots, n + 1, c)
      else
        let c := if better_candidate s new_diff c
                 then mkCandidate i new_diff (sl_payloadType s) (sl_rcuPlCntr s) else c in
        let '(slots, n, c) := lowest_timestamp current_time_stamp erase slots (i + 1) c in
        (s :: slots, n, c)
  end.

(** What the function reports: [*time_stamp], [*buffer_position],
    [*payload_type]. *)
Record Lowest := mkLowest { lo_time_stamp : Z; lo_position : Z; lo_payload_type : Z }.

(** The result is the return value, the three outputs (not written when the
    buffer is not initialised), and the buffer. *)
Definition PacketBufferFindLowestTimestamp (inst : PacketBuf) (current_time_stamp : Z)
    (erase_old_packets : bool) : option (Z * option Lowest * PacketBuf) :=
  if negb (pb_started inst) then Some (PBUFFER_NOT_INITIALIZED, None, inst) else
  if pb_numPacketsInBuffer inst <=? 0 then Some (0, Some (mkLowest 0 (-1) (-1)), inst) else
  scanned ← aload (pb_slot inst) 0 (pb_maxInsertPositions inst);
  let '(slots, n, c) :=
    lowest_timestamp current_time_stamp erase_old_packets scanned 0 no_candidate in
  let inst := inst <| pb_slot := slots ++ drop (length slots) (pb_slot inst) |>
                   <| pb_numPacketsInBuffer := pb_numPacketsInBuffer inst - n |>
                   <| pb_discardedPackets := u16 (pb_discardedPackets inst + n) |> in
  if 0 <=? ca_position c then
    s ← aget (pb_slot inst) (ca_position c);
    Some (0, Some (mkLowest (sl_timeStamp s) (ca_position c) (ca_payload_type c)), inst)
  else Some (0, Some (mkLowest 0 (ca_position c) (ca_payload_type c)), inst).

(** ** [WebRtcNetEQ_IncrementWaitingTimes] *)
Definition IncrementWaitingTimes (inst : PacketBuf) : PacketBuf :=
  inst <| pb_slot := (fun s => if sl_payloadLengthBytes s =? 0 then s
                               else s <| sl_waitingTime := s32 (sl_waitingTime s + 1) |>)
                     <$> pb_slot inst |>.

(** ** [WebRtcNetEQ_PacketBufferGetPacketSize], [WebRtcNetEQ_PacketBufferGetSize]

    [call_durationEst f state payload len] is the call of the codec's duration
    estimator at address [f]. *)
Section GetSize.
Context (call_durationEst : ptr -> ptr -> list Z -> Z -> Z).

Definition PacketBufferGetPacketSize (inst : PacketBuf) (buffer_pos : Z)
    (db : CodecDbInst) (codec_pos last_duration : Z) (av_sync : bool) : option Z :=
  e ← aget (db_entry db) codec_pos;
  if ce_funcDurationEst e =? NULL then Some last_duration else
  s ← aget (pb_slot inst) buffer_pos;
  sync ← (if av_sync
          then IsSyncPayload (slot_payload (pb_memory inst) s) (sl_payloadLengthBytes s)
          else Some false);
  if (sync : bool) then Some last_duration else
  Some (call_durationEst (ce_funcDurationEst e) (ce_codec_state e)
          (slot_payload (pb_memory inst) s) (sl_payloadLengthBytes s)).

(** The database position of a payload type, the codec lookup's error code
    when there is none. *)
Definition size_codec_pos (db : CodecDbInst) (payload_type : Z) : option Z :=
  codec ← DbGetCodec db payload_type;
  if 0 <=? codec then aget (db_position db) codec else Some codec.

(** The loop from slot [i] on, with [last_duration], [last_codec_pos],
    [last_payload_type] and [size_samples]. *)
Fixpoint size_loop (inst : PacketBuf) (db : CodecDbInst) (av_sync : bool) (slots : list Slot)
    (i last_duration last_codec_pos last_payload_type size_samples : Z) : option Z :=
  match slots with
  | [] => Some size_samples
  | s :: slots =>
      if sl_payloadLengthBytes s =? 0 then
        size_loop inst db av_sync slots (i + 1) last_duration last_codec_pos
          last_payload_type size_samples
      else
        codec_pos ← (if sl_payloadType s =? last_payload_type then Some last_codec_pos
                     else size_codec_pos db (sl_payloadType s));
        last_duration ←
          (if 0 <=? codec_pos then
             temp ← PacketBufferGetPacketSize inst i db codec_pos last_duration av_sync;
             Some (if 0 <=? temp then temp else last_duration)
           else Some last_duration);
        size_loop inst db av_sync slots (i + 1) last_duration codec_pos
          (sl_payloadType s) (s32 (size_samples + last_duration))
  end.

Definition PacketBufferGetSize (inst : PacketBuf) (db : CodecDbInst) (av_sync : bool)
  : option Z :=
  size ← size_loop inst db av_sync (pb_slot inst) 0 (pb_packSizeSamples inst) (-1) (-1) 0;
  Some (if size <? 0 then 0 else size).
End GetSize.

(** ** [WebRtcNetEQ_GetDefaultCodecSettings] *)

(** [codecBytes] and [codecBuffers] of the audio codecs up to G.722. *)
Definition settings_table1 : list (Z * (Z * Z)) :=
  [(kDecoderPCMu, (1680, 30)); (kDecoderPCMu_2ch, (1680, 30));
   (kDecoderPCMa, (1680, 30)); (kDecoderPCMa_2ch, (1680, 30));
   (kDecoderILBC, (380, 10)); (kDecoderISAC, (960, 8)); (kDecoderISACswb, (1560, 8));
   (kDecoderISACfb, (1560, 8)); (kDecoderOpus, (15300, 30)); (kDecoderPCM16B, (3360, 15));
   (kDecoderPCM16B_2ch, (3360, 15)); (kDecoderPCM16Bwb, (6720, 15));
   (kDecoderPCM16Bwb_2ch, (6720, 15)); (kDecoderPCM16Bswb32kHz, (13440, 15));
   (kDecoderPCM16Bswb32kHz_2ch, (13440, 15)); (kDecoderPCM16Bswb48kHz, (20160, 15));
   (kDecoderG722, (1680, 15)); (kDecoderG722_2ch, (1680, 15)); (kDecoderRED, (0, 0));
   (kDecoderAVT, (0, 0)); (kDecoderCNG, (0, 0))].

(** The remaining codecs. *)
Definition settings_table2 : list (Z * (Z * Z)) :=
  [(kDecoderG729, (210, 20)); (kDecoderG729_1, (840, 10)); (kDecoderG726_16, (400, 10));
   (kDecoderG726_24, (600, 10)); (kDecoderG726_32, (800, 10)); (kDecoderG726_40, (1000, 10));
   (kDecoderG722_1_16, (420, 10)); (kDecoderG722_1_24, (630, 10));
   (kDecoderG722_1_32, (840, 10)); (kDecoderG722_1C_24, (630, 10));
   (kDecoderG722_1C_32, (840, 10)); (kDecoderG722_1C_48, (1260, 10));
   (kDecoderSPEEX_8, (1250, 10)); (kDecoderSPEEX_16, (1250, 10));
   (kDecoderCELT_32, (1250, 10)); (kDecoderCELT_32_2ch, (1250, 10));
   (kDecoderGSMFR, (340, 10)); (kDecoderAMR, (384, 10)); (kDecoderAMRWB, (744, 10));
   (kDecoderArbitrary, (6720, 15))].

Fixpoint settings_find (codec : Z) (table : list (Z * (Z * Z))) : option (Z * Z) :=
  match table with
  | [] => None
  | (c, r) :: table => if codec =? c then Some r else settings_find codec table
  end.

Definition codec_settings (codec : Z) : option (Z * Z) :=
  settings_find codec (settings_table1 ++ settings_table2).

(** The loop: [ok], [*maxBytes], [*maxSlots]. *)
Fixpoint settings_loop (codecs : list Z) (ok maxBytes maxSlots : Z) : Z * Z * Z :=
  match codecs with
  | [] => (ok, maxBytes, maxSlots)
  | c :: codecs =>
      let '(ok, b, n) := match codec_settings c with
                         | Some (b, n) => (ok, b, n)
                         | None => (CODEC_DB_UNKNOWN_CODEC, 0, 0)
                         end in
      settings_loop codecs ok (Z.max maxBytes b) (Z.max maxSlots n)
  end.

Definition per_slot_overhead (sizeof_ptr : Z) : Z :=
  s16 (4 + sizeof_ptr + 2 + 2 + 2 + 2 + 4).

(** The return value, [*maxBytes], [*maxSlots], [*per_slot_overhead_bytes]. *)
Definition GetDefaultCodecSettings (sizeof_ptr : Z) (codecID : list Z) : Z * Z * Z * Z :=
  let '(ok, maxBytes, maxSlots) := settings_loop codecID 0 0 0 in
  (ok, maxBytes + per_slot_overhead sizeof_ptr * maxSlots, maxSlots,
   per_slot_overhead sizeof_ptr).
