(* ===== verification/PacketBufferInv.v ===== *)
(** The packet buffer's well-formedness invariant, and that every operation
    keeps it, stays inside its arrays and memory, and terminates. *)
From S2P Require Import Prelude CodecDb Rtp PacketBuffer.

Definition live (s : Slot) : bool := negb (sl_payloadLengthBytes s =? 0).

Fixpoint live_count (l : list Slot) : Z :=
  match l with [] => 0 | s :: l => b2z (live s) + live_count l end.

(** A slot of a buffer with [mem] words of payload memory. *)
Definition slot_ok (mem : Z) (s : Slot) : Prop :=
  0 <= sl_payloadLengthBytes s /\
  (live s = true -> 0 <= sl_payloadLocation s /\
     sl_payloadLocation s + words (sl_payloadLengthBytes s) <= mem).

Record pb_inv (inst : PacketBuf) : Prop := {
  pi_started : pb_started inst = true;
  pi_max : 2 <= pb_maxInsertPositions inst;
  pi_slots : zlen (pb_slot inst) = pb_maxInsertPositions inst;
  pi_mem : 0 <= pb_memorySizeW16 inst;
  pi_memory : zlen (pb_memory inst) = 2 * pb_memorySizeW16 inst;
  pi_position : 0 <= pb_insertPosition inst < pb_maxInsertPositions inst;
  pi_current : 0 <= pb_currentMemoryPos inst <= pb_memorySizeW16 inst;
  pi_count : pb_numPacketsInBuffer inst = live_count (pb_slot inst);
  pi_slot : Forall (slot_ok (pb_memorySizeW16 inst)) (pb_slot inst)
}.

(** The packet handed in owns the bytes its length promises. *)
Definition packet_ok (p : RTPPacket) : Prop :=
  (rtp_starts_byte1 p = 0 \/ rtp_starts_byte1 p = 1) /\
  rtp_starts_byte1 p + rtp_payloadLen p <= zlen (rtp_payload p).

(** ** Counting live slots *)

Lemma words_spec n : words n = (n + 1) / 2.
Proof. unfold words. by rewrite Z.shiftr_div_pow2 by lia. Qed.

Ltac words_lia := rewrite ?words_spec in *; Z.to_euclidean_division_equations; lia.

Lemma live_count_nonneg l : 0 <= live_count l.
Proof. induction l as [|s l IH]; simpl; [lia|]. destruct (live s); simpl; lia. Qed.

Lemma live_count_insert l i s s' :
  aget l i = Some s ->
  live_count (<[Z.to_nat i := s']> l) = live_count l - b2z (live s) + b2z (live s').
Proof.
  intros H. pose proof (aget_Some_range _ _ _ H). rewrite aget_lookup in H by lia.
  generalize dependent (Z.to_nat i). clear. intros n.
  revert n. induction l as [|x l IH]; intros [|n] H; simpl in *; simplify_eq; [lia|].
  rewrite (IH _ H). lia.
Qed.

Lemma live_count_pos l i s : aget l i = Some s -> live s = true -> 0 < live_count l.
Proof.
  intros H Hl. pose proof (live_count_insert l i s (clear_slot s) H) as Hc.
  rewrite Hl in Hc. simpl in Hc. pose proof (live_count_nonneg (<[Z.to_nat i:=clear_slot s]> l)).
  lia.
Qed.

Lemma live_count_ex l :
  0 < live_count l -> exists i s, aget l i = Some s /\ live s = true.
Proof.
  induction l as [|x l IH]; simpl; [lia|]. intros H. destruct (live x) eqn:E.
  - by exists 0, x.
  - destruct IH as (i & s & Hi & Hs); [done|]. exists (i + 1), s.
    pose proof (aget_Some_range _ _ _ Hi). rewrite aget_cons by lia.
    by replace (i + 1 - 1) with i by lia.
Qed.

Lemma live_count_all_empty l :
  (forall i s, aget l i = Some s -> live s = false) -> live_count l = 0.
Proof.
  intros H. pose proof (live_count_nonneg l).
  destruct (decide (live_count l = 0)); [done|].
  destruct (live_count_ex l) as (i & s & Hi & Hs); [lia|]. by rewrite (H _ _ Hi) in Hs.
Qed.

Lemma live_count_fmap_flush l : live_count (flush_slot <$> l) = 0.
Proof. induction l; [done|]. csimpl. done. Qed.

Lemma slot_ok_cleared mem s :
  sl_payloadLengthBytes s = 0 -> slot_ok mem s.
Proof. intros H. split; [lia|]. unfold live. by rewrite H. Qed.

Lemma slots_ok_insert mem l i s :
  Forall (slot_ok mem) l -> slot_ok mem s -> Forall (slot_ok mem) (<[i := s]> l).
Proof. intros. by apply Forall_insert. Qed.

(** ** Flush and initialisation *)

Lemma Flush_inv inst : pb_inv inst -> pb_inv (PacketBufferFlush inst).2.
Proof.
  intros []. unfold PacketBufferFlush. rewrite pi_started0. simpl.
  split; simpl; rewrite ?zlen_fmap, ?live_count_fmap_flush; try done; try lia.
  apply Forall_fmap, Forall_true. intros s. by apply slot_ok_cleared.
Qed.

Lemma Init_inv sizeof_ptr inst max mem r inst' :
  PacketBufferInit sizeof_ptr inst max true mem = Some (r, inst') ->
  r = 0 -> pb_inv inst'.
Proof.
  unfold PacketBufferInit. case_if; [intros; simplify_eq; done|].
  unfold assert. destruct (Z.leb_spec (slot_arrays_size max sizeof_ptr) mem); [|done].
  cbn [mbind option_bind]. intros [= <- <-] _. bool_lia.
  split; simpl; rewrite ?zlen_replicate; try done; try lia.
  - induction (Z.to_nat max); simpl; lia.
  - apply Forall_replicate. by apply slot_ok_cleared.
Qed.

(** ** The AV-sync loop *)

Lemma IsSyncPayload_total p n :
  n <= zlen p -> exists b, IsSyncPayload p n = Some b.
Proof.
  intros H. unfold IsSyncPayload, SYNC_PAYLOAD_LEN_BYTES.
  destruct (Z.eqb_spec n 7) as [->|]; simpl; [|eauto].
  rewrite aload_in by lia. simpl. eauto.
Qed.

Lemma zlen_ptr_w16 p k : 0 <= k -> zlen (ptr_w16 p k) = Z.max 0 (zlen p - 2 * k).
Proof. intros. unfold ptr_w16, zlen. rewrite length_drop. lia. Qed.

Lemma slot_sync_total memory mem s :
  zlen memory = 2 * mem -> slot_ok mem s -> live s = true ->
  exists b, IsSyncPayload (slot_payload memory s) (sl_payloadLengthBytes s) = Some b.
Proof.
  intros Hm [Hl Hlive] Hs. destruct (Hlive Hs). apply IsSyncPayload_total.
  unfold slot_payload. rewrite zlen_ptr_w16 by done. words_lia.
Qed.

Lemma live_pos mem s : slot_ok mem s -> (0 <? sl_payloadLengthBytes s) = live s.
Proof.
  intros [H _]. unfold live.
  destruct (Z.ltb_spec 0 (sl_payloadLengthBytes s)), (Z.eqb_spec (sl_payloadLengthBytes s) 0);
    simpl; done || lia.
Qed.

Lemma av_sync_loop_ok memory mem p num slots n : forall i,
  zlen memory = 2 * mem -> Forall (slot_ok mem) slots -> packet_ok p ->
  num = live_count slots -> 0 <= i -> i + Z.of_nat n <= zlen slots ->
  exists r, av_sync_loop memory p n i slots num = Some r /\
  match r with
  | inl _ => True
  | inr (slots', num') => zlen slots' = zlen slots /\ num' = live_count slots' /\
      Forall (slot_ok mem) slots'
  end.
Proof.
  intros i Hm HF Hp Hn. revert i. induction n as [|n IH]; intros i Hi Hin; cbn [av_sync_loop].
  { eexists. split; [done|]. done. }
  destruct (aget_in slots i) as [s Hs]; [lia|]. rewrite Hs. cbn [mbind option_bind].
  pose proof (aget_Forall _ _ _ _ HF Hs) as Hok. rewrite (live_pos mem) by done.
  destruct (_ =? _), (live s) eqn:Hl; cbn [andb]; try (apply IH; lia).
  destruct (IsSyncPayload_total (rtp_payload p) (rtp_payloadLen p)) as [b ->].
  { destruct Hp as [[?|?] ?]; lia. }
  cbn [mbind option_bind]. destruct b; [by eexists|].
  destruct (slot_sync_total memory mem s) as [b ->]; [done..|].
  cbn [mbind option_bind]. destruct b; [|apply IH; lia].
  rewrite aset_in by lia. cbn [mbind option_bind]. eexists. split; [done|].
  cbn beta iota. rewrite zlen_insert, (live_count_insert _ _ _ _ Hs), Hl. simpl.
  split; [done|]. split; [lia|]. apply slots_ok_insert; [done|]. by apply slot_ok_cleared.
Qed.

(** ** Finding a position *)

Lemma lowest_location_spec l : forall i temp np,
  let '(temp', np') := lowest_location l i temp np in
  temp' <= temp /\
  ((np' = np /\ temp' = temp) \/
   exists s, i <= np' /\ aget l (np' - i) = Some s /\ live s = true /\
             temp' = sl_payloadLocation s) /\
  (forall k s, aget l k = Some s -> live s = true -> temp' <= sl_payloadLocation s).
Proof.
  induction l as [|x l IH]; intros i temp np; cbn [lowest_location].
  { split; [lia|]. split; [by left|]. intros k s H.
    apply aget_Some_range in H. unfold zlen in H; simpl in H; lia. }
  fold (live x). destruct (live x && (sl_payloadLocation x <? temp)) eqn:E.
  - bool_lia. specialize (IH (i + 1) (sl_payloadLocation x) i).
    destruct (lowest_location l (i + 1) (sl_payloadLocation x) i) as [t' n'].
    destruct IH as (Ht & Hw & Hall). split; [lia|]. split.
    + right. destruct Hw as [[-> ->]|(s & Hi & Hs & Hlv & ->)].
      * exists x. rewrite Z.sub_diag. done.
      * exists s. rewrite aget_cons by lia.
        replace (n' - i - 1) with (n' - (i + 1)) by lia. split; [lia|done].
    + intros k s Hk Hl. pose proof (aget_Some_range _ _ _ Hk).
      destruct (decide (k = 0)) as [->|]; [by injection Hk as ->|].
      rewrite aget_cons in Hk by lia. by eapply Hall.
  - specialize (IH (i + 1) temp np).
    destruct (lowest_location l (i + 1) temp np) as [t' n'].
    destruct IH as (Ht & Hw & Hall). split; [lia|]. split.
    + destruct Hw as [Hw|(s & Hi & Hs & Hlv & ->)]; [by left|]. right.
      exists s. rewrite aget_cons by lia.
      replace (n' - i - 1) with (n' - (i + 1)) by lia. split; [lia|done].
    + intros k s Hk Hl. pose proof (aget_Some_range _ _ _ Hk).
      destruct (decide (k = 0)) as [->|].
      * injection Hk as ->. rewrite Hl in E. simpl in E. bool_lia. lia.
      * rewrite aget_cons in Hk by lia. by eapply Hall.
Qed.

(** The forward search: the first live slot at or after the start, or the end
    of the array. *)
Definition first_live (slots : list Slot) (from np : Z) : Prop :=
  from <= np /\
  (exists s, aget slots np = Some s /\ live s = true) /\
  (forall k s, from <= k < np -> aget slots k = Some s -> live s = false).

Lemma next_nonempty_spec slots fuel : forall np,
  0 < zlen slots -> 0 <= np <= zlen slots -> zlen slots - np < Z.of_nat fuel ->
  exists np', next_nonempty fuel slots (zlen slots) np = Some np' /\
    (first_live slots np np' \/
     np' = zlen slots /\ (forall k s, np <= k -> aget slots k = Some s -> live s = false)).
Proof.
  induction fuel as [|fuel IH]; intros np Hpos Hnp Hf; cbn [next_nonempty]; [lia|].
  unfold length_entry. destruct (Z.ltb_spec np (zlen slots)).
  - destruct (Z.eqb_spec np (zlen slots)); [lia|]. destruct (aget_in slots np) as [s Hs]; [lia|]. rewrite Hs. cbn [mbind option_bind].
    assert (Hl : live s = negb (sl_payloadLengthBytes s =? 0)) by done. rewrite andb_true_r.
    destruct (sl_payloadLengthBytes s =? 0).
    + destruct (IH (np + 1)) as (np' & -> & H'); [lia..|]. exists np'. split; [done|].
      destruct H' as [(Hle & Hex & Hbefore)|[Hend Hall]].
      * left. split; [lia|]. split; [done|]. intros k s' Hk Hks.
        destruct (decide (k = np)) as [->|]; [by simplify_eq|]. apply (Hbefore k); [lia|done].
      * right. split; [done|]. intros k s' Hk Hks.
        destruct (decide (k = np)) as [->|]; [by simplify_eq|]. apply (Hall k); [lia|done].
    + exists np. split; [done|]. left. split; [lia|]. split; [by exists s|]. lia.
  - assert (np = zlen slots) as -> by lia. rewrite Z.eqb_refl. destruct (aget_in slots 0) as [s0 E0]; [lia|].
    rewrite E0. cbn [mbind option_bind]. rewrite andb_false_r.
    exists (zlen slots). split; [done|]. right. split; [done|]. intros k s Hk Hks. apply aget_Some_range in Hks. lia.
Qed.

Lemma next_nonempty_unbounded_spec slots fuel : forall np,
  0 <= np -> zlen slots - np < Z.of_nat fuel ->
  (exists k s, np <= k /\ aget slots k = Some s /\ live s = true) ->
  exists np', next_nonempty_unbounded fuel slots np = Some np' /\ first_live slots np np'.
Proof.
  induction fuel as [|fuel IH]; intros np Hnp Hf (k & s0 & Hk & Hks & Hl0);
    cbn [next_nonempty_unbounded]; pose proof (aget_Some_range _ _ _ Hks); [lia|].
  destruct (aget_in slots np) as [s Hs]; [lia|]. rewrite Hs. cbn [mbind option_bind].
  assert (Hl : live s = negb (sl_payloadLengthBytes s =? 0)) by done.
  destruct (sl_payloadLengthBytes s =? 0).
  - simpl in Hl. assert (k <> np) by (intros ->; congruence).
    destruct (IH (np + 1)) as (np' & -> & (Hle & Hex & Hbefore)); [lia..| |].
    { exists k, s0. split; [lia|done]. }
    exists np'. split; [done|]. split; [lia|]. split; [done|]. intros j s' Hj Hjs.
    destruct (decide (j = np)) as [->|]; [by simplify_eq|]. apply (Hbefore j); [lia|done].
  - exists np. split; [done|]. split; [lia|]. split; [by exists s|]. lia.
Qed.

#[local] Arguments next_nonempty : simpl never.
#[local] Arguments next_nonempty_unbounded : simpl never.

(** The cyclic search [find_position] does when the payload fits at the end:
    the first live slot after the new insert position, or from slot 0. *)
Definition cyclic_next (slots : list Slot) (ip np : Z) : Prop :=
  first_live slots (ip + 1) np \/
  ((forall k s, ip + 1 <= k -> aget slots k = Some s -> live s = false) /\
   first_live slots 0 np).

Definition next_ip (inst : PacketBuf) : Z :=
  let ip := pb_insertPosition inst + 1 in
  if pb_maxInsertPositions inst <=? ip then 0 else ip.

(** [find_position] on a buffer that holds a packet: it always finds one. *)
Lemma find_position_spec inst need :
  pb_inv inst -> 0 < live_count (pb_slot inst) ->
  exists np, 0 <= np < pb_maxInsertPositions inst /\
    (exists s, aget (pb_slot inst) np = Some s /\ live s = true) /\
    if decide (pb_memorySizeW16 inst <= pb_currentMemoryPos inst + need) then
      find_position inst need
      = Some (inst <| pb_insertPosition := next_ip inst |> <| pb_currentMemoryPos := 0 |>,
              Some np) /\
      (forall k s s', aget (pb_slot inst) k = Some s -> live s = true ->
         aget (pb_slot inst) np = Some s' -> sl_payloadLocation s' <= sl_payloadLocation s)
    else
      find_position inst need
      = Some (inst <| pb_insertPosition := next_ip inst |>, Some np) /\
      cyclic_next (pb_slot inst) (next_ip inst) np.
Proof.
  intros [] Hlc. destruct (live_count_ex _ Hlc) as (k & s & Hk & Hl).
  pose proof (aget_Forall _ _ _ _ pi_slot0 Hk) as [Hs0 Hs1]. specialize (Hs1 Hl).
  assert (0 < words (sl_payloadLengthBytes s)) as Hw.
  { unfold live in Hl. bool_lia. words_lia. }
  unfold find_position. fold (next_ip inst). cbn [pb_memorySizeW16 pb_currentMemoryPos
    pb_slot pb_maxInsertPositions upd eta]. cbv zeta.
  case_decide as Hd; destruct (Z.leb_spec (pb_memorySizeW16 inst)
    (pb_currentMemoryPos inst + need)) as [Hle|Hle]; simpl in *; try lia.
  - pose proof (lowest_location_spec (pb_slot inst) 0 (pb_memorySizeW16 inst) (-1)) as H.
    destruct (lowest_location (pb_slot inst) 0 (pb_memorySizeW16 inst) (-1)) as [t np].
    destruct H as (Ht & [[-> ->]|(s' & Hnp & Hs' & Hl' & ->)] & Hall).
    { specialize (Hall _ _ Hk Hl). lia. }
    rewrite Z.sub_0_r in Hs'. pose proof (aget_Some_range _ _ _ Hs').
    exists np. split; [lia|]. split; [eauto|].
    destruct (Z.eqb_spec np (-1)); [lia|]. split; [done|].
    intros k' s1 s2 Hk' Hl1 Hs2. simplify_eq. by eapply Hall.
  - assert (0 <= next_ip inst < pb_maxInsertPositions inst) as Hip.
    { unfold next_ip. case_if; lia. }
    rewrite <- pi_slots0 in *.
    destruct (next_nonempty_spec (pb_slot inst) (S (Z.to_nat (zlen (pb_slot inst))))
      (next_ip inst + 1)) as (np & -> & H); [lia..|]. cbn [mbind option_bind].
    destruct H as [Hf|[-> Hno]].
    + destruct Hf as (Hge & (s' & Hs' & Hl') & Hb). pose proof (aget_Some_range _ _ _ Hs').
      destruct (Z.eqb_spec np (zlen (pb_slot inst))); [lia|]. cbn [mbind option_bind].
      exists np. split; [lia|]. split; [eauto|]. split; [done|]. left. split; [lia|]. eauto.
    + rewrite Z.eqb_refl. pose proof (aget_Some_range _ _ _ Hk).
      destruct (next_nonempty_unbounded_spec (pb_slot inst)
        (S (Z.to_nat (zlen (pb_slot inst)))) 0) as (np & -> & Hf); [lia..| |].
      { exists k, s. split; [lia|done]. }
      cbn [mbind option_bind]. destruct Hf as (Hge & (s' & Hs' & Hl') & Hb).
      pose proof (aget_Some_range _ _ _ Hs').
      exists np. split; [lia|]. split; [eauto|]. split; [done|]. right. split; [done|].
      split; [lia|]. eauto.
Qed.

(** ** Flushing and storing *)

Lemma flush_slot_dead s : live (flush_slot s) = false.
Proof. done. Qed.

Lemma Flush_slots inst i s :
  pb_started inst = true ->
  aget (pb_slot (PacketBufferFlush inst).2) i = Some s -> live s = false.
Proof.
  intros Hst. unfold PacketBufferFlush. rewrite Hst. simpl. rewrite aget_fmap.
  destruct (aget (pb_slot inst) i); intros; simplify_eq/=; done.
Qed.

Lemma flush_if_full_spec inst need np :
  pb_inv inst -> 0 <= np < pb_maxInsertPositions inst ->
  exists inst' fl s', flush_if_full inst need np = Some (inst', fl) /\ pb_inv inst' /\
    aget (pb_slot inst') (pb_insertPosition inst') = Some s' /\ live s' = false /\
    if fl : bool then inst' = (PacketBufferFlush inst).2
    else inst' = inst /\
         exists s, aget (pb_slot inst) np = Some s /\
           ~ (pb_currentMemoryPos inst <= sl_payloadLocation s
              < pb_currentMemoryPos inst + need).
Proof.
  intros Hinv Hnp. pose proof (Flush_inv _ Hinv) as Hfinv.
  assert (forall i, 0 <= i < pb_maxInsertPositions inst ->
    exists s, aget (pb_slot inst) i = Some s) as Hget.
  { intros i Hi. apply aget_in. by rewrite (pi_slots _ Hinv). }
  assert (exists s, aget (pb_slot (PacketBufferFlush inst).2)
                      (pb_insertPosition (PacketBufferFlush inst).2) = Some s)
    as [sf Hsf].
  { apply aget_in. rewrite (pi_slots _ Hfinv). apply (pi_position _ Hfinv). }
  pose proof (Flush_slots _ _ _ (pi_started _ Hinv) Hsf) as Hdead.
  unfold flush_if_full. destruct (Hget np Hnp) as [s Hs]. rewrite Hs.
  cbn [mbind option_bind]. destruct (_ && _) eqn:E.
  - rewrite Hsf. cbn [mbind option_bind]. fold (live sf). rewrite Hdead.
    exists (PacketBufferFlush inst).2, true, sf. done.
  - destruct (Hget (pb_insertPosition inst) (pi_position _ Hinv)) as [si Hsi].
    rewrite Hsi. cbn [mbind option_bind]. fold (live si). destruct (live si) eqn:El.
    + exists (PacketBufferFlush inst).2, true, sf. done.
    + exists inst, false, si. do 4 (split; [done|]). split; [done|]. exists s.
      split; [done|]. intros [H1 H2].
      rewrite (proj2 (Z.leb_le _ _) H1), (proj2 (Z.ltb_lt _ _) H2) in E. done.
Qed.

(** The slot record of a packet stored at word [pos]. *)
Definition stored_slot (p : RTPPacket) (pos : Z) : Slot :=
  mkSlot (rtp_timeStamp p) pos (rtp_seqNumber p) (s16 (rtp_payloadType p))
    (rtp_payloadLen p) (rtp_rcuPlCntr p) 0.

Lemma packet_data p :
  packet_ok p -> 0 <= rtp_payloadLen p ->
  exists data, rtp_data p = Some data /\ zlen data = rtp_payloadLen p /\
    aload (rtp_payload p) (if rtp_starts_byte1 p =? 0 then 0 else 1) (rtp_payloadLen p)
    = Some data.
Proof.
  intros [Hs Hl] Hp. unfold rtp_data.
  assert ((if rtp_starts_byte1 p =? 0 then 0 else 1) = rtp_starts_byte1 p) as ->
    by (destruct Hs as [-> | ->]; done).
  eexists. rewrite aload_in by lia. split; [done|]. split; [|done].
  unfold zlen in *. rewrite length_take, length_drop. lia.
Qed.

Lemma insert_at_position_spec inst p s0 :
  pb_inv inst -> packet_ok p -> 0 < rtp_payloadLen p ->
  aget (pb_slot inst) (pb_insertPosition inst) = Some s0 -> live s0 = false ->
  pb_currentMemoryPos inst + words (rtp_payloadLen p) <= pb_memorySizeW16 inst ->
  exists data memory, rtp_data p = Some data /\ zlen data = rtp_payloadLen p /\
    astore (pb_memory inst) (2 * pb_currentMemoryPos inst) data = Some memory /\
    let inst' := inst
      <| pb_memory := memory |>
      <| pb_slot := <[Z.to_nat (pb_insertPosition inst) :=
                      stored_slot p (pb_currentMemoryPos inst)]> (pb_slot inst) |>
      <| pb_numPacketsInBuffer := pb_numPacketsInBuffer inst + 1 |>
      <| pb_currentMemoryPos := pb_currentMemoryPos inst + words (rtp_payloadLen p) |> in
    insert_at_position inst p = Some inst' /\ pb_inv inst'.
Proof.
  intros [] Hp Hl Hs0 Hdead Hfit.
  destruct (packet_data p Hp) as (data & Hd & Hz & Hload); [lia|].
  destruct (astore_in (pb_memory inst) data (2 * pb_currentMemoryPos inst))
    as (memory & Hst & Hzm); [lia|rewrite Hz; words_lia|].
  exists data, memory. do 3 (split; [done|]). split.
  - unfold insert_at_position. rewrite Hload. cbn [mbind option_bind].
    rewrite Hst. cbn [mbind option_bind]. by rewrite aset_in by lia.
  - assert (0 < words (rtp_payloadLen p)) by words_lia.
    split; simpl; rewrite ?zlen_insert, ?Hzm; try done; try lia.
    + rewrite (live_count_insert _ _ _ _ Hs0), Hdead. unfold live; simpl.
      destruct (Z.eqb_spec (rtp_payloadLen p) 0); simpl; lia.
    + apply slots_ok_insert; [done|]. split; simpl; lia.
Qed.

(** ** The whole insertion *)

(** [inst'] is [inst0] with the packet stored at its insert position. *)
Definition stored (inst0 : PacketBuf) (p : RTPPacket) (inst' : PacketBuf) : Prop :=
  exists data memory, rtp_data p = Some data /\ zlen data = rtp_payloadLen p /\
    astore (pb_memory inst0) (2 * pb_currentMemoryPos inst0) data = Some memory /\
    inst' = inst0
      <| pb_memory := memory |>
      <| pb_slot := <[Z.to_nat (pb_insertPosition inst0) :=
                      stored_slot p (pb_currentMemoryPos inst0)]> (pb_slot inst0) |>
      <| pb_numPacketsInBuffer := pb_numPacketsInBuffer inst0 + 1 |>
      <| pb_currentMemoryPos := pb_currentMemoryPos inst0 + words (rtp_payloadLen p) |>.

(** The buffer a packet of [need] words is stored into, with the flush flag:
    the four ways the code finds a place. *)
Inductive placed (inst : PacketBuf) (need : Z) : bool -> PacketBuf -> Prop :=
| placed_empty :
    live_count (pb_slot inst) = 0 ->
    placed inst need false (inst <| pb_currentMemoryPos := 0 |> <| pb_insertPosition := 0 |>)
| placed_flush :
    0 < live_count (pb_slot inst) -> placed inst need true (PacketBufferFlush inst).2
| placed_wrap np s s0 :
    pb_memorySizeW16 inst <= pb_currentMemoryPos inst + need ->
    (forall k s s', aget (pb_slot inst) k = Some s -> live s = true ->
       aget (pb_slot inst) np = Some s' -> sl_payloadLocation s' <= sl_payloadLocation s) ->
    aget (pb_slot inst) np = Some s -> live s = true ->
    ~ (0 <= sl_payloadLocation s < need) ->
    aget (pb_slot inst) (next_ip inst) = Some s0 -> live s0 = false ->
    placed inst need false
      (inst <| pb_insertPosition := next_ip inst |> <| pb_currentMemoryPos := 0 |>)
| placed_fit np s s0 :
    pb_currentMemoryPos inst + need < pb_memorySizeW16 inst ->
    cyclic_next (pb_slot inst) (next_ip inst) np ->
    aget (pb_slot inst) np = Some s -> live s = true ->
    ~ (pb_currentMemoryPos inst <= sl_payloadLocation s < pb_currentMemoryPos inst + need) ->
    aget (pb_slot inst) (next_ip inst) = Some s0 -> live s0 = false ->
    placed inst need false (inst <| pb_insertPosition := next_ip inst |>).

Lemma next_ip_range inst : pb_inv inst -> 0 <= next_ip inst < pb_maxInsertPositions inst.
Proof. intros []. unfold next_ip. case_if; lia. Qed.

Lemma Flush_moved inst ip cur :
  pb_started inst = true ->
  (PacketBufferFlush (inst <| pb_insertPosition := ip |> <| pb_currentMemoryPos := cur |>)).2
  = (PacketBufferFlush inst).2.
Proof. intros H. unfold PacketBufferFlush. simpl. rewrite H. done. Qed.

Lemma Flush_moved_ip inst ip :
  pb_started inst = true ->
  (PacketBufferFlush (inst <| pb_insertPosition := ip |>)).2 = (PacketBufferFlush inst).2.
Proof. intros H. unfold PacketBufferFlush. simpl. rewrite H. done. Qed.

Lemma insert_at_stored inst0 p s0 :
  pb_inv inst0 -> packet_ok p -> 0 < rtp_payloadLen p ->
  aget (pb_slot inst0) (pb_insertPosition inst0) = Some s0 -> live s0 = false ->
  pb_currentMemoryPos inst0 + words (rtp_payloadLen p) <= pb_memorySizeW16 inst0 ->
  exists inst', insert_at_position inst0 p = Some inst' /\ pb_inv inst' /\ stored inst0 p inst'.
Proof.
  intros Hinv Hp Hl Hs Hd Hf.
  destruct (insert_at_position_spec _ _ _ Hinv Hp Hl Hs Hd Hf)
    as (data & mem & H1 & H2 & H3 & H4 & H5).
  eexists. split; [exact H4|]. split; [done|]. exists data, mem. done.
Qed.

(** After a placement that does not flush by itself. *)
Lemma flush_and_store inst p np :
  pb_inv inst -> packet_ok p -> 0 < rtp_payloadLen p -> 0 <= np < pb_maxInsertPositions inst ->
  pb_currentMemoryPos inst + words (rtp_payloadLen p) <= pb_memorySizeW16 inst ->
  words (rtp_payloadLen p) <= pb_memorySizeW16 inst ->
  exists fl inst0 inst',
    ('(i, fl) ← flush_if_full inst (words (rtp_payloadLen p)) np;
     i ← insert_at_position i p; Some (0, fl, i)) = Some (0, fl, inst') /\
    pb_inv inst' /\ stored inst0 p inst' /\
    if fl : bool then inst0 = (PacketBufferFlush inst).2
    else inst0 = inst /\
      (exists s, aget (pb_slot inst) np = Some s /\
         ~ (pb_currentMemoryPos inst <= sl_payloadLocation s
            < pb_currentMemoryPos inst + words (rtp_payloadLen p))) /\
      (exists s0, aget (pb_slot inst) (pb_insertPosition inst) = Some s0 /\ live s0 = false).
Proof.
  intros Hinv Hp Hl Hnp Hf1 Hf2.
  destruct (flush_if_full_spec _ (words (rtp_payloadLen p)) _ Hinv Hnp)
    as (i & fl & s' & -> & Hi & Hs' & Hd & Hfl). cbn [mbind option_bind].
  destruct (insert_at_stored i p s' Hi Hp Hl Hs' Hd) as (inst' & -> & Hinv' & Hst).
  { destruct fl; [subst i|by destruct Hfl as [-> _]].
    unfold PacketBufferFlush. rewrite (pi_started _ Hinv). simpl. lia. }
  cbn [mbind option_bind]. exists fl, i, inst'. do 3 (split; [done|]).
  destruct fl; [done|]. destruct Hfl as [-> Hex]. eauto.
Qed.

Lemma insert_packet_spec inst p :
  pb_inv inst -> packet_ok p -> 0 < rtp_payloadLen p <= 2 * pb_memorySizeW16 inst ->
  exists fl inst0 inst', insert_packet inst p = Some (0, fl, inst') /\ pb_inv inst' /\
    placed inst (words (rtp_payloadLen p)) fl inst0 /\ stored inst0 p inst'.
Proof.
  intros Hinv Hp Hl. assert (words (rtp_payloadLen p) <= pb_memorySizeW16 inst) as Hw by words_lia.
  assert (0 < words (rtp_payloadLen p)) as Hw0 by words_lia.
  unfold insert_packet. rewrite (pi_count _ Hinv).
  pose proof (live_count_nonneg (pb_slot inst)).
  destruct (Z.eqb_spec (live_count (pb_slot inst)) 0) as [Hz|Hz]; cbn [negb].
  - assert (pb_inv (inst <| pb_currentMemoryPos := 0 |> <| pb_insertPosition := 0 |>)) as Hi.
    { destruct Hinv. split; simpl; try done; lia. }
    destruct (aget_in (pb_slot inst) 0) as [s Hs].
    { destruct Hinv. lia. }
    destruct (insert_at_stored _ p s Hi Hp) as (inst' & -> & Hinv' & Hst); [lia|done| |simpl; lia|].
    { destruct (live s) eqn:E; [|done]. pose proof (live_count_pos _ _ _ Hs E). lia. }
    cbn [mbind option_bind]. do 3 eexists. split; [done|]. split; [done|]. split; [|done].
    by apply placed_empty.
  - destruct (find_position_spec inst (words (rtp_payloadLen p)) Hinv)
      as (np & Hnp & (s & Hs & Hsl) & Hfind); [lia|].
    pose proof (next_ip_range _ Hinv) as Hip.
    destruct (decide _) as [Hd|Hd]; destruct Hfind as [-> Hcase]; cbn [mbind option_bind].
    + set (i := _ <| pb_currentMemoryPos := 0 |>).
      assert (pb_inv i) as Hi by (destruct Hinv; split; simpl; try done; lia).
      destruct (flush_and_store i p np) as (fl & inst0 & inst' & -> & Hinv' & Hst & Hfl);
        [done|done|lia|done|simpl; lia|done|].
      exists fl, inst0, inst'. split; [done|]. split; [done|]. split; [|done]. destruct fl.
      * subst inst0 i. rewrite Flush_moved by apply Hinv. apply placed_flush. lia.
      * destruct Hfl as (-> & (s1 & Hs1 & Hn) & (s0 & Hs0 & Hd0)). simpl in *.
        apply (placed_wrap _ _ np s1 s0); eauto; congruence || lia.
    + set (i := _ <| pb_insertPosition := _ |>).
      assert (pb_inv i) as Hi by (destruct Hinv; split; simpl; try done; lia).
      destruct (flush_and_store i p np) as (fl & inst0 & inst' & -> & Hinv' & Hst & Hfl);
        [done|done|lia|done|simpl; lia|done|].
      exists fl, inst0, inst'. split; [done|]. split; [done|]. split; [|done]. destruct fl.
      * subst inst0 i. rewrite Flush_moved_ip by apply Hinv. apply placed_flush. lia.
      * destruct Hfl as (-> & (s1 & Hs1 & Hn) & (s0 & Hs0 & Hd0)). simpl in *.
        apply (placed_fit _ _ np s1 s0); eauto; congruence || lia.
Qed.

(** ** Operations *)

Lemma set_slots_inv inst slots num :
  pb_inv inst -> zlen slots = zlen (pb_slot inst) -> num = live_count slots ->
  Forall (slot_ok (pb_memorySizeW16 inst)) slots ->
  pb_inv (inst <| pb_slot := slots |> <| pb_numPacketsInBuffer := num |>).
Proof. intros [] ? ? ?. split; simpl; try done. lia. Qed.

Definition len_ok (inst : PacketBuf) (p : RTPPacket) : bool :=
  negb ((Z.shiftl (pb_memorySizeW16 inst) 1 <? rtp_payloadLen p) || (rtp_payloadLen p <=? 0)).

Lemma len_ok_range inst p :
  len_ok inst p = true <-> 0 < rtp_payloadLen p <= 2 * pb_memorySizeW16 inst.
Proof.
  unfold len_ok. rewrite Z.shiftl_mul_pow2 by lia.
  destruct (Z.ltb_spec (pb_memorySizeW16 inst * 2 ^ 1) (rtp_payloadLen p)),
    (Z.leb_spec (rtp_payloadLen p) 0); simpl; split; done || lia.
Qed.

(** What an insertion does: refuse, drop a redundant sync packet, or - possibly
    after deleting the sync version of the packet - place and store. *)
Lemma PacketBufferInsert_cases inst p av_sync :
  pb_inv inst -> packet_ok p ->
  (len_ok inst p = false /\ PacketBufferInsert inst p av_sync = Some (-1, false, inst)) \/
  (len_ok inst p = true /\ av_sync = true /\
   PacketBufferInsert inst p av_sync = Some (0, false, inst)) \/
  (len_ok inst p = true /\ exists inst1 fl inst0 inst',
     PacketBufferInsert inst p av_sync = Some (0, fl, inst') /\ pb_inv inst' /\
     pb_inv inst1 /\ (av_sync = false -> inst1 = inst) /\
     placed inst1 (words (rtp_payloadLen p)) fl inst0 /\ stored inst0 p inst').
Proof.
  intros Hinv Hp. unfold PacketBufferInsert. rewrite (pi_started _ Hinv). cbn [negb].
  pose proof (len_ok_range inst p) as Hr. unfold len_ok in *.
  destruct (_ || _); [by left|]. right. cbn [negb] in *.
  assert (0 < rtp_payloadLen p <= 2 * pb_memorySizeW16 inst) as Hlen by by apply Hr.
  destruct av_sync.
  - pose proof (pi_max _ Hinv). pose proof (pi_slots _ Hinv).
    destruct (av_sync_loop_ok (pb_memory inst) (pb_memorySizeW16 inst) p
      (pb_numPacketsInBuffer inst) (pb_slot inst) (Z.to_nat (pb_maxInsertPositions inst)) 0)
      as (r & -> & Hres); try apply Hinv; try done; try lia.
    cbn [mbind option_bind]. destruct r as [|[slots num]]; [by left|]. right. split; [done|].
    destruct Hres as (Hz & Hn & HF). pose proof (set_slots_inv _ _ _ Hinv Hz Hn HF) as Hi1.
    destruct (insert_packet_spec _ p Hi1 Hp Hlen) as (fl & i0 & i' & H1 & H2 & H3 & H4).
    eexists _, fl, i0, i'. split; [exact H1|]. split; [done|]. split; [exact Hi1|]. done.
  - right. split; [done|]. cbn [mbind option_bind].
    assert (inst <| pb_slot := pb_slot inst |>
      <| pb_numPacketsInBuffer := pb_numPacketsInBuffer inst |> = inst) as -> by by destruct inst.
    destruct (insert_packet_spec _ p Hinv Hp Hlen) as (fl & i0 & i' & H1 & H2 & H3 & H4).
    exists inst, fl, i0, i'. done.
Qed.

Lemma PacketBufferExtract_live inst p pos s :
  pb_inv inst -> aget (pb_slot inst) pos = Some s -> live s = true ->
  2 * words (sl_payloadLengthBytes s) <= zlen (rtp_payload p) ->
  exists data p' inst',
    PacketBufferExtract inst p pos = Some (0, p', Some (sl_waitingTime s), inst') /\
    aload (pb_memory inst) (2 * sl_payloadLocation s) (sl_payloadLengthBytes s) = Some data /\
    rtp_data p' = Some data /\ rtp_starts_byte1 p' = 0 /\
    rtp_payloadLen p' = sl_payloadLengthBytes s /\ rtp_payloadType p' = sl_payloadType s /\
    rtp_seqNumber p' = sl_seqNumber s /\ rtp_timeStamp p' = sl_timeStamp s /\
    rtp_rcuPlCntr p' = sl_rcuPlCntr s /\ pb_inv inst' /\
    inst' = inst <| pb_slot := <[Z.to_nat pos := mkSlot 0 0 0 (-1) 0 (sl_rcuPlCntr s) 0]>
                               (pb_slot inst) |>
                 <| pb_numPacketsInBuffer := pb_numPacketsInBuffer inst - 1 |>.
Proof.
  intros Hinv Hs Hl Hdest. pose proof (aget_Some_range _ _ _ Hs) as Hr.
  pose proof (aget_Forall _ _ _ _ (pi_slot _ Hinv) Hs) as [Hs0 Hs1].
  destruct (Hs1 Hl) as [Hloc Hfit].
  assert (0 < sl_payloadLengthBytes s) as Hpos by (unfold live in Hl; bool_lia; lia).
  pose proof (pi_memory _ Hinv) as Hm. pose proof (pi_slots _ Hinv).
  set (n := sl_payloadLengthBytes s) in *. set (k := sl_payloadLocation s) in *.
  assert (n <= 2 * words n) as Hn by words_lia.
  set (bytes := take (Z.to_nat (2 * words n)) (drop (Z.to_nat (2 * k)) (pb_memory inst))).
  assert (Hb : aload (pb_memory inst) (2 * k) (2 * words n) = Some bytes) by (apply aload_in; lia).
  pose proof (aload_length _ _ _ _ Hb) as Hbz.
  destruct (astore_in (rtp_payload p) bytes 0) as (dest & Hd & Hdz); [lia..|].
  exists (take (Z.to_nat n) (drop (Z.to_nat (2 * k)) (pb_memory inst))).
  do 2 eexists. split.
  { unfold PacketBufferExtract. rewrite (pi_started _ Hinv). cbn [negb].
    case_if; [apply orb_prop in E as [E|E]; bool_lia; lia|].
    rewrite Hs. cbn [mbind option_bind]. fold n. case_if; [lia|].
    fold k. rewrite Hb. cbn [mbind option_bind]. rewrite Hd. cbn [mbind option_bind].
    rewrite aset_in by done. done. }
  split; [apply aload_in; lia|]. split.
  { unfold rtp_data; simpl.
    apply astore_Some in Hd as (_ & _ & ->). simpl.
    pose proof (zlen_nonneg (drop (length bytes) (rtp_payload p))).
    rewrite aload_in by (rewrite ?zlen_app; lia). f_equal. change (drop (Z.to_nat 0) ?l) with l.
    rewrite take_app_le by (unfold zlen in *; lia).
    subst bytes. rewrite take_take. f_equal. lia. }
  simpl. do 6 (split; [done|]). split; [|done].
  destruct Hinv. split; simpl; rewrite ?zlen_insert; try done.
  - rewrite (live_count_insert _ _ _ _ Hs), Hl. simpl. lia.
  - apply slots_ok_insert; [done|]. by apply slot_ok_cleared.
Qed.

(** ** Properties *)

(** C6. Insertion is memory safe: in every well-formed buffer and for every
    packet that owns the bytes its length promises, the insertion terminates,
    never reads or writes outside of the block that holds the slot arrays and the
    payload memory, or of the packet - within the block the only access outside of its
    array is the read of the entry behind [payloadLengthBytes], the first one of
    [rcuPlCntr], when the search comes to its end (packet_buffer.c:272), and the
    unbounded search for a non-empty slot always ends - and leaves a well-formed buffer: the packet counter equals the number
    of non-empty slots and all payloads lie inside the memory.  It answers -1
    exactly for a payload length that is not positive or exceeds the memory,
    and then changes nothing. *)
Theorem PacketBufferInsert_safe inst p av_sync :
  pb_inv inst -> packet_ok p ->
  exists r fl inst', PacketBufferInsert inst p av_sync = Some (r, fl, inst') /\
    pb_inv inst' /\
    (r = 0 <-> 0 < rtp_payloadLen p <= 2 * pb_memorySizeW16 inst) /\
    (r <> 0 -> r = -1 /\ fl = false /\ inst' = inst).
Proof.
  intros Hinv Hp. pose proof (len_ok_range inst p) as Hr.
  destruct (PacketBufferInsert_cases inst p av_sync Hinv Hp)
    as [[Hl H]|[(Hl & _ & H)|(Hl & i1 & fl & i0 & i' & H & Hi' & _)]];
    rewrite Hl in Hr; do 3 eexists; (split; [exact H|]); (split; [done|]).
  - split; [|done]. split; [done|]. by intros ?%Hr.
  - split; [|done]. split; [|done]. intros _. by apply Hr.
  - split; [|done]. split; [|done]. intros _. by apply Hr.
Qed.

(** C7. Store and fetch: a packet accepted by the buffer (without AV-sync
    handling) is found at the insert position, and extracting that position
    gives back its payload bytes - realigned when they started at an odd
    address - and all its header fields with waiting time zero, whatever the
    buffer held before and whether or not it had to be flushed. *)
Theorem PacketBuffer_roundtrip inst p fl inst' q :
  pb_inv inst -> packet_ok p -> in_s16 (rtp_payloadType p) ->
  PacketBufferInsert inst p false = Some (0, fl, inst') ->
  2 * words (rtp_payloadLen p) <= zlen (rtp_payload q) ->
  exists q' inst'',
    PacketBufferExtract inst' q (pb_insertPosition inst') = Some (0, q', Some 0, inst'') /\
    rtp_data q' = rtp_data p /\ rtp_payloadLen q' = rtp_payloadLen p /\
    rtp_payloadType q' = rtp_payloadType p /\ rtp_seqNumber q' = rtp_seqNumber p /\
    rtp_timeStamp q' = rtp_timeStamp p /\ rtp_rcuPlCntr q' = rtp_rcuPlCntr p /\
    pb_inv inst'' /\ pb_numPacketsInBuffer inst'' = pb_numPacketsInBuffer inst' - 1.
Proof.
  intros Hinv Hp Hpt H Hq.
  destruct (PacketBufferInsert_cases inst p false Hinv Hp)
    as [[Hl H']|[(Hl & ? & H')|(Hl & i1 & fl1 & i0 & i' & H' & Hi' & _ & _ & _ & Hst)]];
    [congruence|done|].
  assert (i' = inst') as -> by congruence.
  apply len_ok_range in Hl.
  destruct Hst as (data & mem & Hd & Hz & Hm & Heq).
  assert (Hs : aget (pb_slot inst') (pb_insertPosition inst')
               = Some (stored_slot p (pb_currentMemoryPos i0))).
  { subst inst'. simpl. apply aget_insert_eq. destruct Hi'. simpl in *.
    rewrite zlen_insert in *. lia. }
  destruct (PacketBufferExtract_live _ q _ _ Hi' Hs) as
    (data' & q' & i'' & He & Hd' & Hdat & _ & F1 & F2 & F3 & F4 & F5 & Hi'' & Heq'').
  { unfold live. simpl. by rewrite (proj2 (Z.eqb_neq _ _)) by lia. }
  { done. }
  simpl in *. exists q', i''. split; [done|].
  rewrite Hdat, Hd, F1, F2, F3, F4, F5. rewrite s16_id by done.
  split; [|subst i''; done]. subst inst'. simpl in Hd'.
  pose proof (aload_astore_eq _ _ _ _ Hm) as Hback. rewrite Hz in Hback. congruence.
Qed.

(** A buffer of four slots with 152 words of payload memory, and packets. *)
Definition ex_blank : PacketBuf := mkPacketBuf 0 false [] 0 0 0 0 0 [] 0.
Definition ex_buf : PacketBuf := Eval vm_compute in
  match PacketBufferInit 8 ex_blank 4 true 200 with Some (_, b) => b | None => ex_blank end.
Definition ex_packet (seq ts : Z) (data : list Z) : RTPPacket :=
  mkRTPPacket seq ts 1 0 data (zlen data) 0 0.
Definition ex_insert (b : PacketBuf) (p : RTPPacket) : PacketBuf :=
  match PacketBufferInsert b p false with Some (_, _, b) => b | None => b end.
Definition ex_buf1 : PacketBuf := Eval vm_compute in
  ex_insert ex_buf (ex_packet 1 160 [1; 2; 3]).

Lemma ex_buf_inv : pb_inv ex_buf.
Proof. apply (Init_inv 8 ex_blank 4 200 0); [vm_compute; reflexivity|done]. Qed.

Lemma ex_packet_ok seq ts data : packet_ok (ex_packet seq ts data).
Proof. split; [by left|]. simpl. lia. Qed.

Lemma ex_buf1_inv : pb_inv ex_buf1.
Proof.
  destruct (PacketBufferInsert_cases ex_buf (ex_packet 1 160 [1; 2; 3]) false ex_buf_inv
    (ex_packet_ok _ _ _)) as [[? _]|[(_ & ? & _)|(_ & i1 & fl & i0 & i' & H & Hi & _)]];
    [done|done|].
  by injection H as <- <-.
Qed.

Lemma PacketBufferInsert_safe_witness :
  exists r fl inst', PacketBufferInsert ex_buf1 (ex_packet 2 320 [4; 5]) true
                     = Some (r, fl, inst') /\ pb_inv inst' /\
    (r = 0 <-> 0 < 2 <= 2 * pb_memorySizeW16 ex_buf1) /\
    (r <> 0 -> r = -1 /\ fl = false /\ inst' = ex_buf1).
Proof.
  apply (PacketBufferInsert_safe ex_buf1 (ex_packet 2 320 [4; 5]) true).
  - exact ex_buf1_inv.
  - apply ex_packet_ok.
Defined.

Lemma PacketBuffer_roundtrip_witness :
  let p := mkRTPPacket 2 320 1 8 [9; 4; 5; 6] 3 1 0 in
  let q := ex_packet 0 0 (replicate 10 0) in
  exists q' inst'',
    PacketBufferExtract (ex_insert ex_buf1 p) q 1 = Some (0, q', Some 0, inst'') /\
    rtp_data q' = Some [4; 5; 6] /\ rtp_payloadLen q' = 3 /\
    rtp_payloadType q' = 8 /\ rtp_seqNumber q' = 2 /\ rtp_timeStamp q' = 320 /\
    rtp_rcuPlCntr q' = 0 /\ pb_inv inst'' /\ pb_numPacketsInBuffer inst'' = 1.
Proof.
  intros p q.
  apply (PacketBuffer_roundtrip ex_buf1 p false (ex_insert ex_buf1 p) q).
  - exact ex_buf1_inv.
  - split; [by right|]. simpl. unfold zlen. simpl. lia.
  - simpl. lia.
  - vm_compute. reflexivity.
  - done.
Defined.
