(* ===== verification/PacketBufferFifo.v ===== *)
(** The packet buffer used first-in first-out - packets inserted as they
    arrive and extracted oldest first - refines a queue of packets that may be
    emptied by an insertion (the flush on overflow).  The payload memory is a
    ring that live payloads share; the refinement relation says how. *)
From S2P Require Import Prelude CodecDb Rtp PacketBuffer PacketBufferInv.

(** ** The abstract queue *)

(** What the user of the buffer stores and gets back. *)
Record Item := mkItem {
  it_seq : Z; it_timestamp : Z; it_type : Z; it_rcu : Z; it_data : list Z
}.

Inductive Label := LInsert (it : Item) (flushed : bool) | LExtract (it : Item).

Inductive queue_step : list Item -> Label -> list Item -> Prop :=
| qs_insert q it : queue_step q (LInsert it false) (q ++ [it])
| qs_insert_flush q it : queue_step q (LInsert it true) [it]
| qs_extract q it : queue_step (it :: q) (LExtract it) q.

Inductive queue_run : list Item -> list Label -> list Item -> Prop :=
| qr_nil q : queue_run q [] q
| qr_snoc q ls q1 l q2 :
    queue_run q ls q1 -> queue_step q1 l q2 -> queue_run q (ls ++ [l]) q2.

(** ** The concrete steps *)

Definition item_of (p : RTPPacket) (data : list Z) : Item :=
  mkItem (rtp_seqNumber p) (rtp_timeStamp p) (rtp_payloadType p) (rtp_rcuPlCntr p) data.

(** The slot of the oldest packet. *)
Definition oldest (inst : PacketBuf) : Z :=
  (pb_insertPosition inst + 1 - pb_numPacketsInBuffer inst) mod pb_maxInsertPositions inst.

Inductive buffer_step : PacketBuf -> Label -> PacketBuf -> Prop :=
| bs_insert inst p data fl inst' :
    packet_ok p -> in_s16 (rtp_payloadType p) -> rtp_data p = Some data ->
    PacketBufferInsert inst p false = Some (0, fl, inst') ->
    buffer_step inst (LInsert (item_of p data) fl) inst'
| bs_extract inst q q' wt data inst' :
    PacketBufferExtract inst q (oldest inst) = Some (0, q', wt, inst') ->
    rtp_data q' = Some data ->
    buffer_step inst (LExtract (item_of q' data)) inst'.

Inductive buffer_run : PacketBuf -> list Label -> PacketBuf -> Prop :=
| br_nil inst : buffer_run inst [] inst
| br_snoc inst ls inst1 l inst2 :
    buffer_run inst ls inst1 -> buffer_step inst1 l inst2 ->
    buffer_run inst (ls ++ [l]) inst2.

(** ** The refinement relation *)

Definition slot_end (s : Slot) : Z := sl_payloadLocation s + words (sl_payloadLengthBytes s).

(** A slot holds an item. *)
Definition slot_item (memory : list Z) (s : Slot) (it : Item) : Prop :=
  sl_seqNumber s = it_seq it /\ sl_timeStamp s = it_timestamp it /\
  sl_payloadType s = it_type it /\ sl_rcuPlCntr s = it_rcu it /\
  sl_payloadLengthBytes s = zlen (it_data it) /\
  aload memory (2 * sl_payloadLocation s) (sl_payloadLengthBytes s) = Some (it_data it).

(** Payloads one behind the other. *)
Fixpoint chain (ls : list Slot) : Prop :=
  match ls with
  | [] => True
  | s :: ls => Forall (fun t => slot_end s <= sl_payloadLocation t) ls /\ chain ls
  end.

(** Either all payloads lie below the write position, in order of arrival, or
    the oldest ones lie above it and the newer ones, from word 0 on, below. *)
Inductive layout (cur : Z) : list Slot -> Prop :=
| one_lap ls : chain ls -> Forall (fun s => slot_end s <= cur) ls -> layout cur ls
| two_laps a s b :
    a <> [] -> chain a -> Forall (fun s => cur <= sl_payloadLocation s) a ->
    chain (s :: b) -> sl_payloadLocation s = 0 ->
    Forall (fun s => slot_end s <= cur) (s :: b) ->
    layout cur (a ++ s :: b).

(** How far slot [i] is behind the oldest one. *)
Definition off (max h i : Z) : Z := (i - h) mod max.

(** The live slots are [ls], oldest first, ending at the insert position. *)
Definition ring (max ip : Z) (slots ls : list Slot) : Prop :=
  zlen ls <= max /\
  forall i s, aget slots i = Some s ->
    if decide (off max (ip + 1 - zlen ls) i < zlen ls)
    then live s = true /\ aget ls (off max (ip + 1 - zlen ls) i) = Some s
    else live s = false.

Record fifo (inst : PacketBuf) (ls : list Slot) (q : list Item) : Prop := {
  ff_inv : pb_inv inst;
  ff_ring : ring (pb_maxInsertPositions inst) (pb_insertPosition inst) (pb_slot inst) ls;
  ff_items : Forall2 (slot_item (pb_memory inst)) ls q;
  ff_layout : layout (pb_currentMemoryPos inst) ls;
  ff_num : pb_numPacketsInBuffer inst = zlen ls
}.

(** ** Ring arithmetic *)

Lemma off_range max h i : 0 < max -> 0 <= off max h i < max.
Proof. intros. by apply Z.mod_pos_bound. Qed.

Lemma mod_pred x m : 0 < m -> 0 < x mod m -> (x - 1) mod m = x mod m - 1.
Proof.
  intros Hm Hx. pose proof (Z.mod_pos_bound x m Hm). pose proof (Z.div_mod x m ltac:(lia)).
  symmetry. apply (Z.mod_unique_pos _ _ (x / m)); lia.
Qed.

(** The slot before a live slot that is not the oldest is live. *)
Lemma off_pred max h i :
  0 < max -> 0 < off max h i -> off max h (i - 1) = off max h i - 1.
Proof.
  intros Hm H. unfold off in *. rewrite <- mod_pred by done. f_equal. lia.
Qed.

Lemma off_pred_0 max h :
  0 < max -> 0 < off max h 0 -> off max h (max - 1) = off max h 0 - 1.
Proof.
  intros Hm H. rewrite <- off_pred by done. unfold off.
  replace (max - 1 - h) with (0 - 1 - h + 1 * max) by lia. by apply Z.mod_add; lia.
Qed.

Lemma off_inj max h i j :
  0 <= i < max -> 0 <= j < max -> off max h i = off max h j -> i = j.
Proof.
  unfold off. intros Hi Hj H.
  assert ((i - j) mod max = 0) as Hz.
  { replace (i - j) with ((i - h) - (j - h)) by lia.
    rewrite Zminus_mod, H, Z.sub_diag. by apply Z.mod_0_l; lia. }
  apply Z.mod_divide in Hz as [k Hk]; [|lia].
  assert (k = 0) by nia. lia.
Qed.

Lemma off_head max h : 0 < max -> off max h (h mod max) = 0.
Proof.
  intros Hm. unfold off. rewrite Zminus_mod_idemp_l, Z.sub_diag. by apply Z.mod_0_l; lia.
Qed.

Lemma off_shift_head max h i :
  0 < max -> 0 <= i < max -> i <> h mod max -> off max (h + 1) i = off max h i - 1.
Proof.
  intros Hm Hi Hne. assert (0 < off max h i).
  { pose proof (off_range max h i Hm). destruct (decide (off max h i = 0)) as [E|]; [|lia].
    exfalso. apply Hne. apply (off_inj max h); [done|by apply Z.mod_pos_bound|].
    by rewrite off_head. }
  unfold off in *. rewrite <- mod_pred by done. f_equal. lia.
Qed.

Lemma off_shift_head_eq max h :
  0 < max -> off max (h + 1) (h mod max) = max - 1.
Proof.
  intros Hm. unfold off. rewrite Zminus_mod_idemp_l.
  replace (h - (h + 1)) with (max - 1 + (-1) * max) by lia.
  rewrite Z.mod_add by lia. apply Z.mod_small. lia.
Qed.

Lemma off_next inst (ls : list Slot) :
  pb_inv inst -> zlen ls < pb_maxInsertPositions inst ->
  off (pb_maxInsertPositions inst) (pb_insertPosition inst + 1 - zlen ls) (next_ip inst)
  = zlen ls.
Proof.
  intros Hinv Hl. pose proof (zlen_nonneg ls). unfold off, next_ip. destruct Hinv. case_if.
  - replace (0 - (pb_insertPosition inst + 1 - zlen ls))
      with (zlen ls + (-1) * pb_maxInsertPositions inst) by lia.
    rewrite Z.mod_add by lia. by apply Z.mod_small.
  - replace (pb_insertPosition inst + 1 - (pb_insertPosition inst + 1 - zlen ls))
      with (zlen ls) by lia. by apply Z.mod_small.
Qed.

Lemma off_next_full inst (ls : list Slot) :
  pb_inv inst -> zlen ls = pb_maxInsertPositions inst ->
  off (pb_maxInsertPositions inst) (pb_insertPosition inst + 1 - zlen ls) (next_ip inst)
  = 0.
Proof.
  intros Hinv Hl. unfold off, next_ip. destruct Hinv. rewrite Hl. case_if.
  - replace (0 - _) with (0 * pb_maxInsertPositions inst) by lia. apply Z.mod_mul. lia.
  - replace (_ - _) with (1 * pb_maxInsertPositions inst) by lia. apply Z.mod_mul. lia.
Qed.

(** ** The ring of slots *)

Lemma off_cong max h h' i :
  0 < max -> h mod max = h' mod max -> off max h i = off max h' i.
Proof. intros Hm H. unfold off. rewrite Zminus_mod, H, <- Zminus_mod. done. Qed.

Lemma next_ip_mod inst :
  pb_inv inst -> next_ip inst = (pb_insertPosition inst + 1) mod pb_maxInsertPositions inst.
Proof.
  intros []. unfold next_ip. case_if.
  - replace (pb_insertPosition inst + 1) with (pb_maxInsertPositions inst) by lia.
    by rewrite Z.mod_same by lia.
  - by rewrite Z.mod_small by lia.
Qed.

Lemma off_lt (max h : Z) (ls : list Slot) i :
  0 < max -> off max h i < zlen ls -> exists s, aget ls (off max h i) = Some s.
Proof. intros Hm H. apply aget_in. pose proof (off_range max h i Hm). lia. Qed.

(** A next slot that is empty means that the ring is not full. *)
Lemma ring_not_full inst ls s0 :
  pb_inv inst -> ring (pb_maxInsertPositions inst) (pb_insertPosition inst) (pb_slot inst) ls ->
  aget (pb_slot inst) (next_ip inst) = Some s0 -> live s0 = false ->
  zlen ls < pb_maxInsertPositions inst.
Proof.
  intros Hinv [Hle Hr] Hs Hd.
  destruct (decide (zlen ls = pb_maxInsertPositions inst)) as [E|]; [|lia].
  specialize (Hr _ _ Hs). rewrite off_next_full in Hr by done.
  pose proof (pi_max _ Hinv). rewrite decide_True in Hr by lia. destruct Hr. congruence.
Qed.

Lemma ring_append inst ls s :
  pb_inv inst -> ring (pb_maxInsertPositions inst) (pb_insertPosition inst) (pb_slot inst) ls ->
  zlen ls < pb_maxInsertPositions inst -> live s = true ->
  ring (pb_maxInsertPositions inst) (next_ip inst)
    (<[Z.to_nat (next_ip inst) := s]> (pb_slot inst)) (ls ++ [s]).
Proof.
  intros Hinv [Hle Hr] Hlt Hl. pose proof (pi_max _ Hinv) as Hm.
  pose proof (off_next _ _ Hinv Hlt) as Hoff. pose proof (next_ip_range _ Hinv) as Hip.
  pose proof (pi_slots _ Hinv) as Hz.
  assert (Hz1 : zlen (ls ++ [s]) = zlen ls + 1) by by rewrite zlen_app.
  assert (Hh : forall i, off (pb_maxInsertPositions inst) (next_ip inst + 1 - zlen (ls ++ [s])) i
    = off (pb_maxInsertPositions inst) (pb_insertPosition inst + 1 - zlen ls) i).
  { intros i. apply off_cong; [lia|]. rewrite Hz1, next_ip_mod by done.
    replace (_ + 1 - (zlen ls + 1)) with
      ((pb_insertPosition inst + 1) mod pb_maxInsertPositions inst - zlen ls) by lia.
    by rewrite Zminus_mod_idemp_l. }
  split; [lia|]. intros i t Hi. rewrite Hh, Hz1.
  rewrite aget_insert in Hi by lia. destruct (decide (next_ip inst = i)) as [<-|Hne].
  - simplify_eq. rewrite Hoff, decide_True by lia. split; [done|].
    rewrite <- (Z.add_0_r (zlen ls)). by rewrite aget_app_r by lia.
  - pose proof (Hr _ _ Hi) as Hri. pose proof (aget_Some_range _ _ _ Hi).
    set (o := off _ _ i) in *.
    assert (o <> zlen ls).
    { intros Eo. apply Hne. eapply (off_inj (pb_maxInsertPositions inst)
        (pb_insertPosition inst + 1 - zlen ls)); [lia..|]. by rewrite Hoff. }
    destruct (decide (o < zlen ls)).
    + rewrite decide_True by lia. rewrite aget_app_l by lia. done.
    + by rewrite decide_False by lia.
Qed.

Lemma ring_single max ip slots s :
  0 < max -> zlen slots = max -> 0 <= ip < max -> live s = true ->
  (forall i t, aget slots i = Some t -> live t = false) ->
  ring max ip (<[Z.to_nat ip := s]> slots) [s].
Proof.
  intros Hm Hz Hip Hl Hd. change (zlen [s]) with 1. split; [unfold zlen; simpl; lia|].
  change (zlen [s]) with 1.
  intros i t Hi. replace (ip + 1 - 1) with ip by lia.
  rewrite aget_insert in Hi by lia. pose proof (off_range max ip i Hm).
  destruct (decide (ip = i)) as [<-|Hne].
  - simplify_eq. unfold off. rewrite Z.sub_diag, Z.mod_0_l by lia.
    by rewrite decide_True by lia.
  - pose proof (aget_Some_range _ _ _ Hi). rewrite decide_False; [by eapply Hd|].
    intros Ho. apply Hne. apply (off_inj max ip); [lia..|].
    unfold off at 1. rewrite Z.sub_diag, Z.mod_0_l by lia. lia.
Qed.

(** The search of the insertion finds the oldest packet. *)
Lemma cyclic_next_oldest inst ls np s s0 :
  pb_inv inst -> ring (pb_maxInsertPositions inst) (pb_insertPosition inst) (pb_slot inst) ls ->
  cyclic_next (pb_slot inst) (next_ip inst) np ->
  aget (pb_slot inst) np = Some s -> live s = true ->
  aget (pb_slot inst) (next_ip inst) = Some s0 -> live s0 = false ->
  aget ls 0 = Some s.
Proof.
  intros Hinv [Hle Hr] Hc Hs Hl Hs0 Hd. pose proof (pi_max _ Hinv) as Hm.
  pose proof (pi_slots _ Hinv) as Hz. pose proof (aget_Some_range _ _ _ Hs) as Hnp.
  pose proof (next_ip_range _ Hinv) as Hip.
  set (max := pb_maxInsertPositions inst) in *.
  set (h := pb_insertPosition inst + 1 - zlen ls) in *.
  pose proof (Hr _ _ Hs) as Hrs. destruct (decide _) as [Ho|]; [|congruence].
  destruct Hrs as [_ Hls]. pose proof (off_range max h np ltac:(lia)) as Hor.
  destruct (decide (off max h np = 0)) as [E|Hpos]; [by rewrite E in Hls|]. exfalso.
  assert (Hlive : forall j, 0 <= j < max -> off max h j = off max h np - 1 ->
    exists t, aget (pb_slot inst) j = Some t /\ live t = true).
  { intros j Hj Hoj. destruct (aget_in (pb_slot inst) j) as [t Ht]; [lia|].
    exists t. split; [done|]. specialize (Hr _ _ Ht). rewrite decide_True in Hr by lia. tauto. }
  destruct (decide (np = 0)) as [->|Hnp0].
  - destruct (Hlive (max - 1)) as (t & Ht & Hlt); [lia|apply off_pred_0; lia|].
    destruct Hc as [(? & _)|[Hno _]]; [lia|].
    destruct (decide (next_ip inst = max - 1)) as [E|]; [rewrite E in Hs0; congruence|].
    rewrite (Hno (max - 1) t) in Hlt; [done|lia|done].
  - destruct (Hlive (np - 1)) as (t & Ht & Hlt); [lia|apply off_pred; lia|].
    destruct Hc as [(Hge & _ & Hb)|[_ (Hge & _ & Hb)]].
    + destruct (decide (next_ip inst = np - 1)) as [E|]; [rewrite E in Hs0; congruence|].
      rewrite (Hb (np - 1) t) in Hlt; [done|lia|done].
    + rewrite (Hb (np - 1) t) in Hlt; [done|lia|done].
Qed.

(** ** The layout of the payload memory *)

(** A slot whose payload does not touch the words [cur .. cur + need - 1]. *)
Definition apart (cur need : Z) (s : Slot) : Prop :=
  slot_end s <= cur \/ cur + need <= sl_payloadLocation s.

Lemma chain_app ls s :
  chain (ls ++ [s]) <-> chain ls /\ Forall (fun t => slot_end t <= sl_payloadLocation s) ls.
Proof.
  induction ls as [|t ls IH]; simpl.
  - split; [done|]. intros _. by repeat constructor.
  - rewrite IH, Forall_app, !Forall_cons_iff. intuition auto using List.Forall_nil.
Qed.

Lemma chain_above cur need s ls :
  chain (s :: ls) -> sl_payloadLocation s <= slot_end s -> cur + need <= sl_payloadLocation s ->
  Forall (fun t => cur + need <= sl_payloadLocation t) (s :: ls).
Proof.
  intros [H _] Hs Hl. constructor; [done|]. apply (Forall_mono _ _ _ H). simpl. lia.
Qed.

Lemma layout_tail cur s ls : layout cur (s :: ls) -> layout cur ls.
Proof.
  inversion 1 as [? Hc Hf|a t b Hne Hc Ha Hb H0 Hbe Heq]; subst.
  - apply one_lap; [apply Hc|]. by inversion Hf.
  - destruct a as [|u a]; [done|]. injection Heq as -> <-. destruct a as [|u a]; simpl.
    + by apply one_lap.
    + apply (two_laps cur (u :: a) t b); try done; [apply Hc|by inversion Ha].
Qed.

Section Extend.
Context (cur need : Z) (new : Slot) (Hneed : 0 < need).
Context (Hend : slot_end new = sl_payloadLocation new + need).

Lemma layout_fit ls s :
  sl_payloadLocation new = cur -> layout cur ls -> aget ls 0 = Some s ->
  sl_payloadLocation s < slot_end s ->
  ~ (cur <= sl_payloadLocation s < cur + need) ->
  layout (cur + need) (ls ++ [new]) /\ Forall (apart cur need) ls.
Proof using Hneed Hend.
  intros Hnew Hl Hs Hpos Hn. destruct Hl as [ls Hc Hf|a t b Hne Hc Ha Hb H0 Hbe].
  - split; [apply one_lap|].
    + apply chain_app. split; [done|]. by rewrite Hnew.
    + apply Forall_app. split; [|constructor; [lia|done]].
      apply (Forall_mono _ _ _ Hf). simpl. lia.
    + apply (Forall_mono _ _ _ Hf). intros u Hu. by left.
  - destruct a as [|u a]; [done|]. injection Hs as ->.
    apply Forall_cons_iff in Ha as [Hsc Ha].
    assert (Forall (fun t => cur + need <= sl_payloadLocation t) (s :: a)) as Ha'.
    { apply (chain_above cur need s a Hc); lia. }
    split.
    + rewrite <- app_assoc. apply (two_laps _ (s :: a) t (b ++ [new])); try done.
      * apply (chain_app (t :: b) new). split; [done|]. by rewrite Hnew.
      * apply (Forall_app _ (t :: b) [new]). split; [|constructor; [lia|done]].
        apply (Forall_mono _ _ _ Hbe). simpl. lia.
    + apply Forall_app. split.
      * apply (Forall_mono _ _ _ Ha'). intros v Hv. by right.
      * apply (Forall_mono _ _ _ Hbe). intros v Hv. by left.
Qed.

(** Wrapping to word 0 when every payload starts at word [need] or later. *)
Lemma layout_wrap ls :
  sl_payloadLocation new = 0 -> layout cur ls -> ls <> [] ->
  Forall (fun s => need <= sl_payloadLocation s) ls ->
  layout need (ls ++ [new]) /\ Forall (apart 0 need) ls.
Proof using Hneed Hend.
  intros Hnew Hl Hne Hf. split.
  - destruct Hl as [ls Hc _|a t b ? Hc Ha Hb H0 Hbe].
    + apply (two_laps need ls new []); try done.
      constructor; [lia|done].
    + exfalso. apply Forall_app in Hf as [_ Hf]. apply Forall_cons_iff in Hf as [Hf _]. lia.
  - apply (Forall_mono _ _ _ Hf). intros s Hs. right. lia.
Qed.
End Extend.

Lemma slot_item_store memory memory' cur data s it :
  astore memory (2 * cur) data = Some memory' -> apart cur (words (zlen data)) s ->
  slot_item memory s it -> slot_item memory' s it.
Proof.
  intros Hst Hap (H1 & H2 & H3 & H4 & H5 & H6). split_and!; try done.
  rewrite <- H6. apply (aload_astore_disjoint _ _ _ _ _ _ Hst).
  unfold apart, slot_end in Hap. words_lia.
Qed.

Lemma items_store memory memory' cur data ls q :
  astore memory (2 * cur) data = Some memory' ->
  Forall (apart cur (words (zlen data))) ls ->
  Forall2 (slot_item memory) ls q -> Forall2 (slot_item memory') ls q.
Proof.
  intros Hst Hap H. induction H; inversion Hap; subst; constructor; eauto using slot_item_store.
Qed.

Lemma stored_slot_item memory memory' cur p data :
  astore memory (2 * cur) data = Some memory' -> zlen data = rtp_payloadLen p ->
  in_s16 (rtp_payloadType p) ->
  slot_item memory' (stored_slot p cur) (item_of p data).
Proof.
  intros Hst Hz Ht. unfold slot_item; simpl. rewrite s16_id by done.
  split_and!; try done. rewrite <- Hz. by apply aload_astore_eq with memory.
Qed.

(** ** Simulation *)

Lemma fifo_close inst0 ls q p data inst' :
  let new := stored_slot p (pb_currentMemoryPos inst0) in
  let need := words (rtp_payloadLen p) in
  pb_inv inst' -> stored inst0 p inst' -> rtp_data p = Some data ->
  in_s16 (rtp_payloadType p) ->
  ring (pb_maxInsertPositions inst0) (pb_insertPosition inst0)
    (<[Z.to_nat (pb_insertPosition inst0) := new]> (pb_slot inst0)) (ls ++ [new]) ->
  Forall2 (slot_item (pb_memory inst0)) ls q ->
  layout (pb_currentMemoryPos inst0 + need) (ls ++ [new]) ->
  Forall (apart (pb_currentMemoryPos inst0) need) ls ->
  pb_numPacketsInBuffer inst0 = zlen ls ->
  fifo inst' (ls ++ [new]) (q ++ [item_of p data]).
Proof.
  intros new need Hinv (data' & memory & Hd & Hz & Hm & ->) Hdata Ht Hring Hitems Hlay Hap Hn.
  assert (data' = data) as -> by congruence.
  split; simpl; [done|done| |done|rewrite zlen_app, Hn; done].
  apply Forall2_app; [|constructor; [|constructor]].
  - eapply items_store; [exact Hm| |exact Hitems]. by rewrite Hz.
  - by apply stored_slot_item with (pb_memory inst0).
Qed.

Lemma ring_live inst ls q i s :
  fifo inst ls q -> aget ls i = Some s ->
  exists k, aget (pb_slot inst) k = Some s /\ live s = true.
Proof.
  intros [Hinv [Hle Hr] _ _ _] Hi. pose proof (aget_Some_range _ _ _ Hi) as Hrange.
  pose proof (pi_max _ Hinv) as Hm. set (max := pb_maxInsertPositions inst) in *.
  set (h := pb_insertPosition inst + 1 - zlen ls) in *.
  pose proof (pi_slots _ Hinv). pose proof (Z.mod_pos_bound (h + i) max ltac:(lia)).
  destruct (aget_in (pb_slot inst) ((h + i) mod max)) as [t Ht]; [lia|].
  specialize (Hr _ _ Ht).
  assert (off max h ((h + i) mod max) = i) as Ho.
  { unfold off. rewrite Zminus_mod_idemp_l. replace (h + i - h) with i by lia.
    apply Z.mod_small. lia. }
  rewrite Ho, decide_True in Hr by lia. destruct Hr as [Hl Ht'].
  exists ((h + i) mod max). split; [congruence|]. congruence.
Qed.

Lemma fifo_slots_ok inst ls q i s :
  fifo inst ls q -> aget ls i = Some s -> sl_payloadLocation s < slot_end s /\
  0 <= sl_payloadLocation s.
Proof.
  intros Hf Hi. destruct (ring_live _ _ _ _ _ Hf Hi) as (k & Hk & Hl).
  destruct (aget_Forall _ _ _ _ (pi_slot _ (ff_inv _ _ _ Hf)) Hk) as [H0 H1].
  destruct (H1 Hl). unfold slot_end, live in *. bool_lia. split; [words_lia|done].
Qed.

Lemma fifo_nonempty inst ls q :
  fifo inst ls q -> live_count (pb_slot inst) = zlen ls.
Proof. intros []. rewrite <- (pi_count _ ff_inv0). done. Qed.

Lemma all_dead l i s : live_count l = 0 -> aget l i = Some s -> live s = false.
Proof.
  intros Hz H. destruct (live s) eqn:E; [|done].
  pose proof (live_count_pos _ _ _ H E). lia.
Qed.

Section Step.
Context (inst : PacketBuf) (ls : list Slot) (q : list Item) (p : RTPPacket) (data : list Z).
Context (Hf : fifo inst ls q) (Hp : packet_ok p) (Ht : in_s16 (rtp_payloadType p)).
Context (Hd : rtp_data p = Some data).
Let need := words (rtp_payloadLen p).

(** Into a buffer without packets, wherever its positions are. *)
Lemma fifo_insert_empty inst0 inst' :
  0 < rtp_payloadLen p -> pb_inv inst' -> stored inst0 p inst' ->
  2 <= pb_maxInsertPositions inst0 -> zlen (pb_slot inst0) = pb_maxInsertPositions inst0 ->
  0 <= pb_insertPosition inst0 < pb_maxInsertPositions inst0 ->
  pb_numPacketsInBuffer inst0 = 0 ->
  (forall i s, aget (pb_slot inst0) i = Some s -> live s = false) ->
  exists ls', fifo inst' ls' [item_of p data].
Proof using Hd Ht.
  intros Hl Hinv Hst Hm Hz Hip Hn Hdead. eexists.
  apply (fifo_close inst0 [] [] p data inst' Hinv Hst Hd Ht); simpl; try done.
  - apply ring_single; try done; [lia|]. unfold live; simpl.
    by rewrite (proj2 (Z.eqb_neq _ _)) by lia.
  - apply one_lap; [by split|]. constructor; [|done]. unfold slot_end; simpl. lia.
Qed.

Lemma fifo_insert_placed fl inst0 inst' :
  0 < rtp_payloadLen p -> pb_inv inst' -> placed inst need fl inst0 -> stored inst0 p inst' ->
  exists ls', fifo inst' ls' (if fl then [item_of p data] else q ++ [item_of p data]).
Proof using Hf Hd Ht.
  intros Hl Hinv' Hpl Hst. pose proof (ff_inv _ _ _ Hf) as Hinv.
  pose proof (ff_ring _ _ _ Hf) as Hring. pose proof (next_ip_range _ Hinv).
  pose proof (pi_max _ Hinv) as Hmax.
  assert (0 < need) as Hneed by (subst need; words_lia).
  pose proof (fifo_nonempty _ _ _ Hf) as Hlc.
  assert (live (stored_slot p 0) = true) as Hnl.
  { unfold live; simpl. by rewrite (proj2 (Z.eqb_neq _ _)) by lia. }
  destruct Hpl as [Hz|_|np s s0 Hw Hlow Hs Hsl Hno Hs0 Hd0|np s s0 Hw Hc Hs Hsl Hno Hs0 Hd0].
  - assert (q = []) as ->.
    { pose proof (ff_items _ _ _ Hf) as H2. apply Forall2_length in H2.
      destruct q; [done|]. unfold zlen in *. simpl in *. lia. }
    apply (fifo_insert_empty _ _ Hl Hinv' Hst); simpl; try apply Hinv; [lia| |].
    + by rewrite (pi_count _ Hinv).
    + intros i s. by apply all_dead.
  - apply (fifo_insert_empty _ _ Hl Hinv' Hst);
      unfold PacketBufferFlush; rewrite (pi_started _ Hinv); simpl;
      rewrite ?zlen_fmap; try apply Hinv; [lia|done|].
    intros i s. rewrite aget_fmap. destruct (aget (pb_slot inst) i); intros; by simplify_eq/=.
  - pose proof (ring_not_full _ _ _ Hinv Hring Hs0 Hd0) as Hnf.
    assert (Forall (fun s => need <= sl_payloadLocation s) ls) as Habove.
    { apply list.Forall_forall. intros t [i Hi]%elem_of_aget.
      destruct (ring_live _ _ _ _ _ Hf Hi) as (k & Hk & Hkl).
      pose proof (Hlow _ _ _ Hk Hkl Hs).
      destruct (aget_Forall _ _ _ _ (pi_slot _ Hinv) Hs) as [_ H1]. destruct (H1 Hsl). lia. }
    assert (ls <> []) as Hne.
    { intros ->. pose proof (live_count_pos _ _ _ Hs Hsl). unfold zlen in Hlc. simpl in *. lia. }
    destruct (layout_wrap (pb_currentMemoryPos inst) need (stored_slot p 0) Hneed
      ltac:(done) ls ltac:(done) (ff_layout _ _ _ Hf) Hne Habove) as [Hlay Hap].
    eexists. eapply fifo_close; try eassumption; simpl; try apply Hf.
    by apply ring_append.
  - pose proof (ring_not_full _ _ _ Hinv Hring Hs0 Hd0) as Hnf.
    pose proof (cyclic_next_oldest _ _ _ _ _ Hinv Hring Hc Hs Hsl Hs0 Hd0) as Hold.
    destruct (fifo_slots_ok _ _ _ _ _ Hf Hold) as [Hpos _].
    destruct (layout_fit (pb_currentMemoryPos inst) need
      (stored_slot p (pb_currentMemoryPos inst)) Hneed ltac:(done) ls s ltac:(done)
      (ff_layout _ _ _ Hf) Hold Hpos Hno) as [Hlay Hap].
    eexists. eapply fifo_close; try eassumption; simpl; try apply Hf.
    by apply ring_append.
Qed.

Lemma fifo_insert fl inst' :
  PacketBufferInsert inst p false = Some (0, fl, inst') ->
  exists ls', fifo inst' ls' (if fl then [item_of p data] else q ++ [item_of p data]).
Proof using All.
  intros H. destruct (PacketBufferInsert_cases inst p false (ff_inv _ _ _ Hf) Hp)
    as [[Hl H']|[(Hl & ? & H')|(Hl & i1 & fl1 & i0 & i' & H' & Hi' & _ & Hsame & Hpl & Hst)]];
    [congruence|done|].
  rewrite Hsame in Hpl by done. assert (i' = inst' /\ fl1 = fl) as [-> ->] by (split; congruence).
  apply len_ok_range in Hl. by eapply fifo_insert_placed; eauto; lia.
Qed.
End Step.

Lemma Extract_success inst dest pos q' wt inst' :
  pb_inv inst -> PacketBufferExtract inst dest pos = Some (0, q', wt, inst') ->
  exists s, aget (pb_slot inst) pos = Some s /\ live s = true /\
    2 * words (sl_payloadLengthBytes s) <= zlen (rtp_payload dest).
Proof.
  intros Hinv. unfold PacketBufferExtract. rewrite (pi_started _ Hinv). cbn [negb].
  destruct (_ || _); [done|]. intros H. apply bind_is_Some in H as (s & Hs & H).
  destruct (Z.leb_spec (sl_payloadLengthBytes s) 0); [done|].
  apply bind_is_Some in H as (b & Hb & H). apply bind_is_Some in H as (d & Hd & H).
  exists s. split; [done|]. split.
  - unfold live. by rewrite (proj2 (Z.eqb_neq _ _)) by lia.
  - rewrite <- (aload_length _ _ _ _ Hb). apply astore_Some in Hd. lia.
Qed.

Lemma oldest_off inst ls q :
  fifo inst ls q ->
  0 <= oldest inst < pb_maxInsertPositions inst /\
  oldest inst = (pb_insertPosition inst + 1 - zlen ls) mod pb_maxInsertPositions inst /\
  off (pb_maxInsertPositions inst) (pb_insertPosition inst + 1 - zlen ls) (oldest inst) = 0.
Proof.
  intros []. pose proof (pi_max _ ff_inv0). unfold oldest. rewrite ff_num0.
  split; [by apply Z.mod_pos_bound; lia|]. split; [done|]. apply off_head. lia.
Qed.

(** The ring without its oldest slot. *)
Lemma ring_pop max ip slots s0 ls s :
  0 < max -> zlen slots = max -> live s = false ->
  ring max ip slots (s0 :: ls) ->
  ring max ip (<[Z.to_nat ((ip + 1 - zlen (s0 :: ls)) mod max) := s]> slots) ls.
Proof.
  intros Hm Hz Hd [Hle Hr]. rewrite zlen_cons in *. pose proof (zlen_nonneg ls).
  split; [lia|]. intros i t Hi.
  set (h := ip + 1 - (1 + zlen ls)) in *. replace (ip + 1 - zlen ls) with (h + 1) by lia.
  pose proof (Z.mod_pos_bound h max Hm).
  rewrite aget_insert in Hi by lia. destruct (decide (h mod max = i)) as [<-|Hne].
  - rewrite off_shift_head_eq by lia. simplify_eq. by rewrite decide_False by lia.
  - pose proof (aget_Some_range _ _ _ Hi). rewrite off_shift_head by lia.
    pose proof (off_range max h i Hm).
    assert (off max h i <> 0).
    { intros E. apply Hne. apply (off_inj max h); [lia..|]. by rewrite off_head. }
    specialize (Hr _ _ Hi). destruct (decide (off max h i < 1 + zlen ls)).
    + rewrite decide_True by lia. rewrite aget_cons in Hr by lia. done.
    + by rewrite decide_False by lia.
Qed.

Lemma fifo_extract inst ls q dest q' wt data inst' :
  fifo inst ls q ->
  PacketBufferExtract inst dest (oldest inst) = Some (0, q', wt, inst') ->
  rtp_data q' = Some data ->
  exists q1 ls1, q = item_of q' data :: q1 /\ fifo inst' ls1 q1.
Proof.
  intros Hf He Hdata. pose proof (ff_inv _ _ _ Hf) as Hinv.
  destruct (oldest_off _ _ _ Hf) as (Hr & Heq & Ho).
  destruct (Extract_success _ _ _ _ _ _ Hinv He) as (s & Hs & Hl & Hdest).
  pose proof (pi_max _ Hinv). pose proof (pi_slots _ Hinv).
  destruct (ff_ring _ _ _ Hf) as [Hle Hring]. pose proof (Hring _ _ Hs) as H1. rewrite Ho in H1.
  destruct (decide (0 < zlen ls)) as [Hpos|]; [|congruence]. destruct H1 as [_ Hls].
  destruct ls as [|s' ls]; [done|]. injection Hls as ->.
  pose proof (ff_items _ _ _ Hf) as Hitems.
  inversion Hitems as [|? it ? q1 (I1 & I2 & I3 & I4 & I5 & I6) Hrest]; subst.
  destruct (PacketBufferExtract_live _ dest _ _ Hinv Hs Hl Hdest)
    as (data' & q2 & i2 & He2 & Hd2 & Hdat2 & _ & F1 & F2 & F3 & F4 & F5 & Hi2 & Heqi).
  assert (q2 = q' /\ i2 = inst') as [-> Hi] by (split; congruence).
  exists q1, ls. split.
  - unfold item_of. rewrite F2, F3, F4, F5, I1, I2, I3, I4.
    assert (data = it_data it) as -> by congruence. by destruct it.
  - rewrite <- Hi. rewrite Heqi in Hi2 |- *. split; simpl.
    + exact Hi2.
    + rewrite Heq. apply (ring_pop _ _ _ s); [lia|done|done|]. by split.
    + done.
    + apply layout_tail with s. apply Hf.
    + rewrite (ff_num _ _ _ Hf), zlen_cons. lia.
Qed.

(** ** Properties *)

(** A freshly initialised buffer. *)
Definition pb_fresh (inst : PacketBuf) : Prop :=
  exists sizeof_ptr blank max mem,
    PacketBufferInit sizeof_ptr blank max true mem = Some (0, inst).

Lemma fresh_fifo inst : pb_fresh inst -> fifo inst [] [].
Proof.
  intros (sz & blank & max & mem & H). pose proof (Init_inv _ _ _ _ _ _ H eq_refl) as Hinv.
  assert (pb_numPacketsInBuffer inst = 0) as Hn.
  { revert H. unfold PacketBufferInit. destruct (_ || _); [done|].
    intros H. bind_inv. by simplify_eq/=. }
  split; [done| | |by apply one_lap|done].
  - split; [pose proof (pi_max _ Hinv); unfold zlen; simpl; lia|].
    intros i s Hi. pose proof (off_range (pb_maxInsertPositions inst)
      (pb_insertPosition inst + 1 - @zlen Slot []) i) as Ho.
    pose proof (pi_max _ Hinv). rewrite decide_False by (unfold zlen in *; simpl in *; lia).
    eapply all_dead; [|done]. by rewrite <- (pi_count _ Hinv).
  - constructor.
Qed.

(** C5. Used first-in first-out, the packet buffer is a queue: every sequence of
    insertions and oldest-first extractions that starts from a freshly
    initialised buffer does exactly what a queue does that an insertion either
    extends or - when it reports a flush - replaces by the new packet alone.
    In particular every packet comes out in order with all header fields and
    byte-identical payload, although payloads share one wrapping memory ring. *)
Theorem PacketBuffer_refines_queue inst0 labels inst :
  pb_fresh inst0 -> buffer_run inst0 labels inst ->
  exists q, queue_run [] labels q /\
    (exists ls, fifo inst ls q) /\ pb_numPacketsInBuffer inst = zlen q.
Proof.
  intros Hfresh Hrun.
  assert (exists q ls, queue_run [] labels q /\ fifo inst ls q) as (q & ls & Hq & Hf).
  { induction Hrun as [inst|inst ls inst1 l inst2 _ IH Hstep].
    - exists [], []. split; [constructor|by apply fresh_fifo].
    - destruct (IH Hfresh) as (q & sl & Hq & Hf).
      destruct Hstep as [inst1 p data fl inst2 Hp Ht Hd Hi|inst1 d q' wt data inst2 He Hd].
      + destruct (fifo_insert inst1 sl q p data Hf Hp Ht Hd _ _ Hi) as (ls' & Hf').
        eexists _, ls'. split; [|exact Hf']. econstructor; [done|]. destruct fl; constructor.
      + destruct (fifo_extract _ _ _ _ _ _ _ _ Hf He Hd) as (q1 & ls1 & -> & Hf1).
        exists q1, ls1. split; [|done]. econstructor; [done|]. constructor. }
  exists q. split; [done|]. split; [by exists ls|].
  rewrite (ff_num _ _ _ Hf). unfold zlen.
  by rewrite (Forall2_length (ff_items _ _ _ Hf)).
Qed.

(** Progress of the first-in first-out use: while the counter is positive,
    extracting the oldest slot into a large enough packet succeeds and delivers
    the queue's head. *)
Theorem PacketBuffer_extract_oldest inst ls q dest :
  fifo inst ls q -> 0 < pb_numPacketsInBuffer inst ->
  2 * pb_memorySizeW16 inst <= zlen (rtp_payload dest) ->
  exists q' wt inst' data q1, q = item_of q' data :: q1 /\
    PacketBufferExtract inst dest (oldest inst) = Some (0, q', Some wt, inst') /\
    rtp_data q' = Some data /\ exists ls', fifo inst' ls' q1.
Proof.
  intros Hf Hn Hdest. pose proof (ff_inv _ _ _ Hf) as Hinv.
  destruct (oldest_off _ _ _ Hf) as (Hr & Heq & Ho).
  destruct (aget_in (pb_slot inst) (oldest inst)) as [s Hs]; [by rewrite (pi_slots _ Hinv)|].
  destruct (ff_ring _ _ _ Hf) as [Hle Hring]. pose proof (Hring _ _ Hs) as H1. rewrite Ho in H1.
  rewrite decide_True in H1 by (rewrite <- (ff_num _ _ _ Hf); lia). destruct H1 as [Hl _].
  destruct (aget_Forall _ _ _ _ (pi_slot _ Hinv) Hs) as [_ H1]. destruct (H1 Hl).
  destruct (PacketBufferExtract_live _ dest _ _ Hinv Hs Hl ltac:(lia))
    as (data & q' & i2 & He & _ & Hdat & _).
  destruct (fifo_extract _ _ _ _ _ _ _ _ Hf He Hdat) as (q1 & ls1 & Hq & Hf1).
  exists q', (sl_waitingTime s), i2, data, q1. eauto.
Qed.

(** Insert two packets, extract one. *)
Definition ex_p1 : RTPPacket := ex_packet 1 160 [1; 2; 3].
Definition ex_p2 : RTPPacket := ex_packet 2 320 [4; 5].
Definition ex_dest : RTPPacket := ex_packet 0 0 (replicate 400 0).
Definition ex_buf2 : PacketBuf := Eval vm_compute in ex_insert ex_buf1 ex_p2.
Definition ex_extract (b : PacketBuf) (pos : Z) : PacketBuf :=
  match PacketBufferExtract b ex_dest pos with Some (_, _, _, b) => b | None => b end.
Definition ex_buf3 : PacketBuf := Eval vm_compute in ex_extract ex_buf2 0.
Definition ex_labels : list Label :=
  [LInsert (item_of ex_p1 [1; 2; 3]) false; LInsert (item_of ex_p2 [4; 5]) false;
   LExtract (item_of ex_p1 [1; 2; 3])].

Lemma ex_buf_fresh : pb_fresh ex_buf.
Proof. exists 8, ex_blank, 4, 200. vm_compute. reflexivity. Qed.

Lemma ex_buf_run2 : buffer_run ex_buf (take 2 ex_labels) ex_buf2.
Proof.
  apply (br_snoc _ [LInsert (item_of ex_p1 [1; 2; 3]) false] ex_buf1).
  - apply (br_snoc _ [] ex_buf); [constructor|].
    constructor; [apply ex_packet_ok|simpl; lia|done|vm_compute; reflexivity].
  - constructor; [apply ex_packet_ok|simpl; lia|done|vm_compute; reflexivity].
Qed.

Lemma ex_buf_run : buffer_run ex_buf ex_labels ex_buf3.
Proof.
  apply (br_snoc _ (take 2 ex_labels) ex_buf2); [apply ex_buf_run2|].
  destruct (PacketBufferExtract ex_buf2 ex_dest (oldest ex_buf2)) as [[[[r q'] wt] b]|] eqn:E;
    [|by vm_compute in E].
  assert (LExtract (item_of ex_p1 [1; 2; 3]) = LExtract (item_of q' [1; 2; 3])
          /\ rtp_data q' = Some [1; 2; 3] /\ r = 0 /\ b = ex_buf3) as (-> & Hd & -> & ->)
    by (vm_compute in E; injection E as <- <- <- <-; by vm_compute).
  by eapply bs_extract.
Qed.

Lemma PacketBuffer_refines_queue_witness :
  exists q, queue_run [] ex_labels q /\
    (exists ls, fifo ex_buf3 ls q) /\ pb_numPacketsInBuffer ex_buf3 = zlen q.
Proof.
  apply (PacketBuffer_refines_queue ex_buf ex_labels ex_buf3).
  - exact ex_buf_fresh.
  - exact ex_buf_run.
Defined.

Lemma ex_buf1_fifo : exists ls, fifo ex_buf1 ls [item_of ex_p1 [1; 2; 3]].
Proof.
  destruct (fifo_insert ex_buf [] [] ex_p1 [1; 2; 3] (fresh_fifo _ ex_buf_fresh)
    (ex_packet_ok _ _ _) ltac:(simpl; lia) eq_refl false ex_buf1) as [ls H];
    [vm_compute; reflexivity|].
  by exists ls.
Qed.

Lemma PacketBuffer_extract_oldest_witness :
  exists ls, fifo ex_buf1 ls [item_of ex_p1 [1; 2; 3]] /\
  exists q' wt inst' data q1, [item_of ex_p1 [1; 2; 3]] = item_of q' data :: q1 /\
    PacketBufferExtract ex_buf1 ex_dest (oldest ex_buf1) = Some (0, q', Some wt, inst') /\
    rtp_data q' = Some data /\ exists ls', fifo inst' ls' q1.
Proof.
  destruct ex_buf1_fifo as [ls H]. exists ls. split; [exact H|].
  apply (PacketBuffer_extract_oldest ex_buf1 ls _ ex_dest H).
  - reflexivity.
  - vm_compute. discriminate.
Defined.

(** ** Out-of-order extraction: six slots, 102 words of payload memory. *)
Definition reorder_start : PacketBuf :=
  match PacketBufferInit 8 ex_blank 6 true 174 with Some (_, b) => b | None => ex_blank end.
Definition reorder_packet (seq nbytes : Z) : RTPPacket :=
  ex_packet seq seq (replicate (Z.to_nat nbytes) seq).
Definition reorder_result : PacketBuf :=
  let b := ex_insert reorder_start (reorder_packet 1 180) in
  let b := ex_insert b (reorder_packet 2 10) in
  let b := ex_extract b 0 in
  let b := ex_insert b (reorder_packet 3 100) in
  let b := ex_insert b (reorder_packet 4 20) in
  let b := ex_extract b 2 in
  let b := ex_insert b (reorder_packet 5 90) in
  ex_insert b (reorder_packet 6 16).

(** The order of extraction matters.  Packets A, B, D, E are stored at words
    0, 90, 0 and 50; A and then D - which arrived after B - are extracted; F
    wraps to word 0; G is then checked against B only and stored over the
    beginning of E, which is still in the buffer: extracting E succeeds with
    E's header and six bytes of G's payload. *)
Example PacketBuffer_reorder_corrupts :
  pb_numPacketsInBuffer reorder_result = 4 /\
  exists q b, PacketBufferExtract reorder_result ex_dest 3 = Some (0, q, Some 0, b) /\
    rtp_seqNumber q = 4 /\
    rtp_data q = Some (replicate 6 6 ++ replicate 14 4).
Proof. split; [reflexivity|]. do 2 eexists. vm_compute. split_and!; reflexivity. Qed.
