(* ===== verification/PacketBufferQuery.v ===== *)
(** The queries of the packet buffer: the packet with the lowest timestamp,
    waiting times, the size in samples, and the default memory settings. *)
From S2P Require Import Prelude CodecDb Rtp PacketBuffer PacketBufferInv.

(** ** Finding the lowest timestamp *)

(** Signed distance of a slot's timestamp from the current one. *)
Definition ts_diff (current_time_stamp : Z) (s : Slot) : Z :=
  s32 (u32 (sl_timeStamp s - current_time_stamp)).

(** The effect of the call on a slot. *)
Definition scan_slot (current_time_stamp : Z) (erase : bool) (s : Slot) : Slot :=
  if erase && too_old s (ts_diff current_time_stamp s) then clear_slot s else s.

(** Candidate [c] is at least as good as difference [d] with counter [r]. *)
Definition at_least (c : Candidate) (d r : Z) : Prop :=
  ca_diff c < d \/ (ca_diff c = d /\ ca_rcu c <= r).

Section Lowest.
Context (now : Z) (erase : bool) (mem : Z).

Lemma lowest_timestamp_spec l : forall i c,
  Forall (slot_ok mem) l ->
  let '(l', n, c') := lowest_timestamp now erase l i c in
  l' = scan_slot now erase <$> l /\ live_count l' = live_count l - n /\
  at_least c' (ca_diff c) (ca_rcu c) /\
  (forall k s, aget l' k = Some s -> live s = true ->
     at_least c' (ts_diff now s) (sl_rcuPlCntr s)) /\
  (c' = c \/ exists k s, aget l' k = Some s /\ live s = true /\
     c' = mkCandidate (i + k) (ts_diff now s) (sl_payloadType s) (sl_rcuPlCntr s)).
Proof using Type.
  induction l as [|x l IH]; intros i c HF; cbn [lowest_timestamp].
  { split; [done|]. split; [done|]. split; [by right|]. split; [|by left].
    intros k s Hk. apply aget_Some_range in Hk. unfold zlen in Hk; simpl in Hk; lia. }
  apply Forall_cons_iff in HF as [Hx HF]. fold (ts_diff now x).
  assert (Hstep : forall c1 x',
    x' = scan_slot now erase x -> at_least c1 (ca_diff c) (ca_rcu c) ->
    (live x' = true -> at_least c1 (ts_diff now x') (sl_rcuPlCntr x')) ->
    (c1 = c \/ live x' = true /\
       c1 = mkCandidate i (ts_diff now x') (sl_payloadType x') (sl_rcuPlCntr x')) ->
    let '(l', n, c') := lowest_timestamp now erase l (i + 1) c1 in
    x' :: l' = scan_slot now erase <$> x :: l /\
    live_count (x' :: l') = live_count (x :: l) - (n + (b2z (live x) - b2z (live x'))) /\
    at_least c' (ca_diff c) (ca_rcu c) /\
    (forall k s, aget (x' :: l') k = Some s -> live s = true ->
       at_least c' (ts_diff now s) (sl_rcuPlCntr s)) /\
    (c' = c \/ exists k s, aget (x' :: l') k = Some s /\ live s = true /\
       c' = mkCandidate (i + k) (ts_diff now s) (sl_payloadType s) (sl_rcuPlCntr s))).
  { intros c1 x' Hx' Hc1 Hlx Hcase. specialize (IH (i + 1) c1 HF).
    destruct (lowest_timestamp now erase l (i + 1) c1) as [[l' n] c'].
    destruct IH as (-> & Hn & Hc' & Hall & Hex). split; [by rewrite Hx'|].
    split; [simpl; lia|]. split; [unfold at_least in *; lia|]. split.
    - intros k s Hk Hl. pose proof (aget_Some_range _ _ _ Hk).
      destruct (decide (k = 0)) as [->|].
      + injection Hk as <-. specialize (Hlx Hl). unfold at_least in *. lia.
      + rewrite aget_cons in Hk by lia. by eapply Hall.
    - destruct Hex as [->|(k & s & Hk & Hl & ->)].
      + destruct Hcase as [->|[Hl ->]]; [by left|]. right. exists 0, x'.
        by rewrite Z.add_0_r.
      + right. exists (k + 1), s. pose proof (aget_Some_range _ _ _ Hk).
        rewrite aget_cons by lia. replace (k + 1 - 1) with k by lia.
        split; [done|]. split; [done|]. f_equal. lia. }
  destruct (erase && too_old x (ts_diff now x)) eqn:Eo.
  - specialize (Hstep c (clear_slot x)).
    destruct (lowest_timestamp now erase l (i + 1) c) as [[l' n] c'].
    assert (live x = true) as Hlx.
    { unfold too_old in Eo. bool_lia. rewrite <- (live_pos mem) by done. by apply Z.ltb_lt. }
    rewrite Hlx in Hstep. change (live (clear_slot x)) with false in Hstep.
    cbn [b2z] in Hstep.
    destruct Hstep as (H1 & H2 & H3); [unfold scan_slot; by rewrite Eo|by right|done|by left|].
    split; [done|]. split; [lia|done].
  - set (c1 := if better_candidate x (ts_diff now x) c then _ else c).
    specialize (Hstep c1 x).
    destruct (lowest_timestamp now erase l (i + 1) c1) as [[l' n] c'].
    assert (scan_slot now erase x = x) as Hsame by (unfold scan_slot; by rewrite Eo).
    rewrite Z.sub_diag, Z.add_0_r in Hstep.
    assert (better_candidate x (ts_diff now x) c = true <->
      live x = true /\ ~ at_least c (ts_diff now x) (sl_rcuPlCntr x)) as Hb.
    { unfold better_candidate, at_least. rewrite (live_pos mem) by done.
      destruct (Z.ltb_spec (ts_diff now x) (ca_diff c)),
        (Z.eqb_spec (ts_diff now x) (ca_diff c)),
        (Z.ltb_spec (sl_rcuPlCntr x) (ca_rcu c)), (live x); simpl;
        (split; [intros Ht; first [discriminate Ht | split; [done|lia]]
                |intros [Hl Hn]; first [done | exfalso; apply Hn; lia]]). }
    apply Hstep; [done|..]; subst c1; destruct (better_candidate x (ts_diff now x) c) eqn:E.
    + destruct (proj1 Hb eq_refl) as [_ H]. unfold at_least in *; simpl. lia.
    + by right.
    + intros _. by right.
    + intros Hl. unfold at_least in *. destruct (decide (ca_diff c < ts_diff now x \/
        ca_diff c = ts_diff now x /\ ca_rcu c <= sl_rcuPlCntr x)) as [|Hn]; [done|].
      destruct Hb as [_ Hb]. discriminate Hb. by split.
    + right. split; [|done]. by apply Hb.
    + by left.
Qed.
End Lowest.

Lemma scan_slot_dead now erase mem s : slot_ok mem s -> live s = false -> scan_slot now erase s = s.
Proof.
  intros Hok Hd. unfold scan_slot, too_old. rewrite (live_pos mem) by done.
  by rewrite Hd, !andb_false_r.
Qed.

Lemma scan_slot_ok now erase mem s : slot_ok mem s -> slot_ok mem (scan_slot now erase s).
Proof. intros H. unfold scan_slot. case_if; [by apply slot_ok_cleared|done]. Qed.

Lemma aload_all {A} (l : list A) : aload l 0 (zlen l) = Some l.
Proof.
  pose proof (zlen_nonneg l). rewrite aload_in by lia. f_equal.
  change (drop (Z.to_nat 0) l) with l. apply take_ge. unfold zlen. lia.
Qed.

Lemma all_dead_of_count l : live_count l <= 0 ->
  forall i s, aget l i = Some s -> live s = false.
Proof.
  intros Hz i s H. destruct (live s) eqn:E; [|done].
  pose proof (live_count_pos _ _ _ H E). lia.
Qed.

(** ** The size of the buffer in samples *)

Lemma s32_add_l x y : s32 (s32 x + y) = s32 (x + y).
Proof. wrap_lia. Qed.

Section Size.
Context (call : ptr -> ptr -> list Z -> Z -> Z) (inst : PacketBuf) (db : CodecDbInst).
Context (Hdb : db_inv db).
Context (Hnone : forall c e, db_lookup db c = Some e -> ce_funcDurationEst e = NULL).

(** A position the loop may use without an estimator being called. *)
Definition plain_pos (pos : Z) : Prop :=
  pos < 0 \/ exists e, aget (db_entry db) pos = Some e /\ ce_funcDurationEst e = NULL.

Lemma size_codec_pos_plain pt :
  exists pos, size_codec_pos db pt = Some pos /\ plain_pos pos.
Proof using Hdb Hnone.
  assert (Hpos : forall c, 0 <= c < NUM_TOTAL_CODECS ->
    exists pos, aget (db_position db) c = Some pos /\ plain_pos pos).
  { intros c Hc. destruct (aget_in (db_position db) c) as [pos Hp].
    { by rewrite (di_position _ Hdb). }
    exists pos. split; [done|]. destruct (decide (pos < 0)) as [|Hge]; [by left|]. right.
    pose proof (db_nr_bound _ Hdb). destruct (di_range _ Hdb _ _ Hp); [lia|].
    destruct (aget_in (db_entry db) pos) as [e He].
    { rewrite (di_entry _ Hdb). unfold NUM_CODECS. lia. }
    exists e. split; [done|]. apply (Hnone c). apply db_lookup_Some.
    exists pos. split; [done|]. split; [lia|done]. }
  unfold size_codec_pos. destruct (DbGetCodec_lookup _ Hdb pt)
    as (r & -> & [(e & He & _)|[_ ->]]); cbn [mbind option_bind].
  - pose proof (db_lookup_range _ Hdb _ _ He). destruct (Z.leb_spec 0 r); [|lia].
    apply Hpos. lia.
  - destruct (DbIsCNGPayload db pt); cbn.
    + by apply Hpos.
    + eexists. split; [done|]. by left.
Qed.

Lemma plain_packet_size i pos d :
  0 <= pos -> plain_pos pos -> PacketBufferGetPacketSize call inst i db pos d false = Some d.
Proof using Type.
  intros Hp [|(e & He & Hn)]; [lia|]. unfold PacketBufferGetPacketSize.
  rewrite He. cbn [mbind option_bind]. by rewrite Hn.
Qed.

Lemma size_loop_plain slots : forall i d lpos lpt x,
  0 <= d -> plain_pos lpos ->
  size_loop call inst db false slots i d lpos lpt (s32 x)
  = Some (s32 (x + live_count slots * d)).
Proof using Hdb Hnone.
  induction slots as [|s slots IH]; intros i d lpos lpt x Hd Hpl; cbn [size_loop live_count].
  { do 2 f_equal. lia. }
  unfold live. destruct (sl_payloadLengthBytes s =? 0); cbn [negb b2z].
  { rewrite IH by done. do 2 f_equal. }
  destruct (size_codec_pos_plain (sl_payloadType s)) as (pos & Hpos & Hp).
  set (cp := if sl_payloadType s =? lpt then Some lpos else size_codec_pos db (sl_payloadType s)).
  assert (exists pos, cp = Some pos /\ plain_pos pos) as (pos' & -> & Hp').
  { subst cp. destruct (_ =? lpt); eauto. }
  cbn [mbind option_bind]. destruct (Z.leb_spec 0 pos').
  - rewrite plain_packet_size by done. cbn [mbind option_bind].
    rewrite (proj2 (Z.leb_le 0 d)) by done. rewrite s32_add_l, IH by done.
    do 2 f_equal. lia.
  - cbn [mbind option_bind]. rewrite s32_add_l, IH by done. do 2 f_equal. lia.
Qed.
End Size.

(** ** Default settings *)

Lemma slot_arrays_overhead n sizeof_ptr :
  sizeof_ptr = 4 \/ sizeof_ptr = 8 ->
  2 * slot_arrays_size n sizeof_ptr = per_slot_overhead sizeof_ptr * n.
Proof.
  unfold slot_arrays_size. rewrite Z.shiftl_mul_pow2 by lia.
  intros [-> | ->];
    [change (per_slot_overhead 4) with 20; change (4 / 2) with 2
    |change (per_slot_overhead 8) with 24; change (8 / 2) with 4];
    Z.to_euclidean_division_equations; lia.
Qed.

Lemma settings_find_In c t r : settings_find c t = Some r -> (c, r) ∈ t.
Proof.
  induction t as [|[c' r'] t IH]; simpl; [done|]. destruct (Z.eqb_spec c c') as [->|].
  - intros [= ->]. left.
  - intros H. right. by apply IH.
Qed.

Definition setting_ok (e : Z * (Z * Z)) : bool :=
  (0 <=? e.2.1) && (e.2.1 mod 2 =? 0) && (0 <=? e.2.2) && (e.2.2 <=? 30).

Lemma codec_settings_ok c b n :
  codec_settings c = Some (b, n) -> 0 <= b /\ b mod 2 = 0 /\ 0 <= n <= 30.
Proof.
  intros H%settings_find_In.
  assert (forallb setting_ok (settings_table1 ++ settings_table2) = true) as Hall by done.
  rewrite forallb_forall in Hall. specialize (Hall _ (proj1 (list_elem_of_In _ _) H)).
  unfold setting_ok in Hall. simpl in Hall. bool_lia. lia.
Qed.

Lemma settings_loop_spec codecs : forall ok b n,
  0 <= b -> b mod 2 = 0 -> 0 <= n <= 30 ->
  let '(_, b', n') := settings_loop codecs ok b n in
  b <= b' /\ b' mod 2 = 0 /\ n <= n' <= 30 /\
  (forall c bc nc, c ∈ codecs -> codec_settings c = Some (bc, nc) -> bc <= b' /\ nc <= n').
Proof.
  induction codecs as [|c codecs IH]; intros ok b n Hb Hm Hn; cbn [settings_loop].
  { split; [lia|]. split; [done|]. split; [lia|]. intros ? ? ? H. by apply not_elem_of_nil in H. }
  assert (exists ok1 b1 n1, match codec_settings c with Some (b, n) => (ok, b, n)
     | None => (CODEC_DB_UNKNOWN_CODEC, 0, 0) end = (ok1, b1, n1) /\
     0 <= b1 /\ b1 mod 2 = 0 /\ 0 <= n1 <= 30 /\
     (forall bc nc, codec_settings c = Some (bc, nc) -> bc = b1 /\ nc = n1))
    as (ok1 & b1 & n1 & -> & Hb1 & Hm1 & Hn1 & Heq).
  { destruct (codec_settings c) as [[bc nc]|] eqn:E.
    - destruct (codec_settings_ok _ _ _ E) as (? & ? & ?). do 3 eexists. split; [done|].
      split_and!; try done; try lia; intros ? ? [= <- <-]; done.
    - do 3 eexists. split; [done|]. split_and!; try done; lia. }
  specialize (IH ok1 (Z.max b b1) (Z.max n n1)).
  destruct (settings_loop codecs ok1 (Z.max b b1) (Z.max n n1)) as [[ok' b'] n'].
  destruct IH as (H1 & H2 & H3 & H4); [lia| |lia|].
  { destruct (Z.max_spec b b1) as [[_ ->]|[_ ->]]; done. }
  split; [lia|]. split; [done|]. split; [lia|]. intros c' bc nc Hc Hs.
  apply elem_of_cons in Hc as [->|Hc]; [|by eapply H4].
  apply Heq in Hs as [-> ->]. lia.
Qed.

(** The search in every well-formed buffer, whatever the counters. *)
Lemma FindLowest_total inst now erase :
  pb_inv inst ->
  exists lo inst',
    PacketBufferFindLowestTimestamp inst now erase = Some (0, Some lo, inst') /\
    pb_inv inst' /\ pb_slot inst' = scan_slot now erase <$> pb_slot inst /\
    pb_packSizeSamples inst' = pb_packSizeSamples inst /\
    ((lo = mkLowest 0 (-1) (-1) /\
      forall i s, aget (pb_slot inst') i = Some s -> live s = true ->
        at_least no_candidate (ts_diff now s) (sl_rcuPlCntr s)) \/
     exists s, aget (pb_slot inst') (lo_position lo) = Some s /\ live s = true /\
       lo_time_stamp lo = sl_timeStamp s /\ lo_payload_type lo = sl_payloadType s /\
       forall j t, aget (pb_slot inst') j = Some t -> live t = true ->
         ts_diff now s < ts_diff now t \/
         (ts_diff now s = ts_diff now t /\ sl_rcuPlCntr s <= sl_rcuPlCntr t)).
Proof.
  intros Hinv. unfold PacketBufferFindLowestTimestamp.
  rewrite (pi_started _ Hinv), (pi_count _ Hinv). cbn [negb].
  destruct (Z.leb_spec (live_count (pb_slot inst)) 0) as [Hz|Hz].
  { pose proof (all_dead_of_count _ Hz) as Hd. do 2 eexists. split; [done|].
    split; [done|]. split; [|split; [done|left; split; [done|]]].
    - symmetry. transitivity (id <$> pb_slot inst); [|apply list_fmap_id].
      apply list_fmap_ext. intros i s Hs.
      assert (aget (pb_slot inst) (Z.of_nat i) = Some s) as Hi
        by (rewrite aget_lookup, Nat2Z.id by lia; done).
      eapply scan_slot_dead; [by eapply aget_Forall; [apply Hinv|]|by eapply Hd].
    - intros i s Hs Hl. rewrite (Hd _ _ Hs) in Hl. done. }
  rewrite <- (pi_slots _ Hinv), aload_all. cbn [mbind option_bind].
  pose proof (lowest_timestamp_spec now erase (pb_memorySizeW16 inst) (pb_slot inst) 0
    no_candidate (pi_slot _ Hinv)) as H.
  destruct (lowest_timestamp now erase (pb_slot inst) 0 no_candidate) as [[l n] c].
  destruct H as (-> & Hn & _ & Hall & Hex).
  rewrite length_fmap, drop_all, app_nil_r.
  set (inst' := inst <| pb_slot := _ |> <| pb_numPacketsInBuffer := _ |>
                     <| pb_discardedPackets := _ |>).
  assert (pb_inv inst') as Hinv'.
  { pose proof (pi_slot _ Hinv) as HF. pose proof (pi_count _ Hinv).
    split; simpl; rewrite ?zlen_fmap; try apply Hinv; try lia.
    apply Forall_fmap. apply (Forall_mono _ _ _ HF). intros s. apply scan_slot_ok. }
  destruct Hex as [->|(k & s & Hk & Hl & ->)].
  - do 2 eexists. do 4 (split; [done|]). left. done.
  - pose proof (aget_Some_range _ _ _ Hk). simpl ca_position.
    rewrite (proj2 (Z.leb_le _ _)) by lia. simpl pb_slot. rewrite Z.add_0_l, Hk.
    cbn [mbind option_bind]. do 2 eexists. do 4 (split; [done|]).
    right. exists s. simpl. split_and!; try done.
Qed.

(** How old a packet is: the ticks since its time stamp, modulo 2^32. *)
Definition ticks_old (now : Z) (s : Slot) : Z := (now - sl_timeStamp s) mod 2 ^ 32.

(** A packet that is 1 to 29999 ticks old leaves its slot empty. *)
Definition discard_old (now : Z) (s : Slot) : Slot :=
  if live s && (1 <=? ticks_old now s) && (ticks_old now s <=? 29999)
  then s <| sl_payloadType := -1 |> <| sl_payloadLengthBytes := 0 |> else s.

Lemma scan_slot_discard now erase mem s : slot_ok mem s ->
  scan_slot now erase s = if erase : bool then discard_old now s else s.
Proof.
  intros Hok. unfold scan_slot. destruct erase; [|done]. cbn [andb]. unfold too_old, discard_old. rewrite (live_pos mem s Hok).
  assert ((ts_diff now s <? 0) && (-30000 <? ts_diff now s) = (1 <=? ticks_old now s) && (ticks_old now s <=? 29999)) as ->.
  { apply eq_true_iff_eq. rewrite !andb_true_iff, !Z.ltb_lt, !Z.leb_le. unfold ts_diff, ticks_old. change (2 ^ 32) with 4294967296. wrap_lia. }
  by destruct (live s); rewrite ?andb_false_r, ?andb_true_r.
Qed.

(** ** Properties *)

(** C8. Finding the next packet to play: the call answers 0 in every well-formed
    buffer, discards - when asked to - exactly the packets whose timestamp is 1
    to 29999 ticks older than the current one (modulo 2^32), and reports a
    stored packet that is minimal, first by its signed timestamp distance and
    then by its redundancy counter, among those that remain; it reports position
    -1 exactly when none remains.  The redundancy counters of the stored packets are
    below 32767, the counter that stands for no packet. *)
Theorem FindLowestTimestamp_correct inst now erase :
  pb_inv inst ->
  (forall i s, aget (pb_slot inst) i = Some s -> sl_rcuPlCntr s < WEBRTC_SPL_WORD16_MAX) ->
  exists lo inst',
    PacketBufferFindLowestTimestamp inst now erase = Some (0, Some lo, inst') /\
    pb_inv inst' /\ pb_slot inst' = (if erase then discard_old now <$> pb_slot inst else pb_slot inst) /\
    ((lo = mkLowest 0 (-1) (-1) /\
      forall i s, aget (pb_slot inst') i = Some s -> live s = false) \/
     exists s, aget (pb_slot inst') (lo_position lo) = Some s /\ live s = true /\
       lo_time_stamp lo = sl_timeStamp s /\ lo_payload_type lo = sl_payloadType s /\
       forall j t, aget (pb_slot inst') j = Some t -> live t = true ->
         ts_diff now s < ts_diff now t \/
         (ts_diff now s = ts_diff now t /\ sl_rcuPlCntr s <= sl_rcuPlCntr t)).
Proof.
  intros Hinv Hrcu.
  destruct (FindLowest_total inst now erase Hinv) as (lo & inst' & H & Hi' & Hsl & _ & Hlo).
  exists lo, inst'. split; [done|]. split; [done|]. split.
  { rewrite Hsl. transitivity ((if erase then discard_old now else id) <$> pb_slot inst); [|destruct erase; [done|apply list_fmap_id]].
    apply list_fmap_ext. intros i s Hs. pose proof (pi_slot _ Hinv) as HF. rewrite list.Forall_lookup in HF.
    rewrite (scan_slot_discard now erase _ s (HF i s Hs)). by destruct erase. }
  destruct Hlo as [[Hlo Hall]|(s & Hs & Hl & Ht & Hp & Hmin)]; [left|right; eauto 10].
  split; [done|]. intros i s Hi. destruct (live s) eqn:E; [|done]. exfalso.
  destruct (Hall _ _ Hi E) as [Hlt|[_ Hle]]; simpl in *.
  - pose proof (s32_range (u32 (sl_timeStamp s - now))). unfold ts_diff in Hlt.
    unfold WEBRTC_SPL_WORD32_MAX, in_s32 in *. lia.
  - rewrite Hsl, aget_fmap in Hi. destruct (aget (pb_slot inst) i) as [s0|] eqn:E0; [|done].
    injection Hi as <-. pose proof (Hrcu _ _ E0).
    unfold scan_slot in Hle. destruct (_ && _); simpl in Hle; lia.
Qed.

Lemma FindLowestTimestamp_correct_witness :
  exists lo inst',
    PacketBufferFindLowestTimestamp ex_buf1 100 true = Some (0, Some lo, inst') /\
    pb_inv inst' /\ pb_slot inst' = discard_old 100 <$> pb_slot ex_buf1 /\
    ((lo = mkLowest 0 (-1) (-1) /\
      forall i s, aget (pb_slot inst') i = Some s -> live s = false) \/
     exists s, aget (pb_slot inst') (lo_position lo) = Some s /\ live s = true /\
       lo_time_stamp lo = sl_timeStamp s /\ lo_payload_type lo = sl_payloadType s /\
       forall j t, aget (pb_slot inst') j = Some t -> live t = true ->
         ts_diff 100 s < ts_diff 100 t \/
         (ts_diff 100 s = ts_diff 100 t /\ sl_rcuPlCntr s <= sl_rcuPlCntr t)).
Proof.
  apply (FindLowestTimestamp_correct ex_buf1 100 true).
  - exact ex_buf1_inv.
  - intros i s H. assert (Forall (fun s => sl_rcuPlCntr s < WEBRTC_SPL_WORD16_MAX)
      (pb_slot ex_buf1)) as HF by (vm_compute; repeat constructor).
    exact (aget_Forall _ _ _ _ HF H).
Defined.

(** The buffer size in samples: with no registered duration estimator every
    stored packet counts for the duration of the last decoded one, so the size
    is that duration times the number of packets in the buffer, computed in 32
    bits and never negative; no array is left. *)
Theorem PacketBufferGetSize_fixed call inst db :
  pb_inv inst -> db_inv db ->
  (forall c e, db_lookup db c = Some e -> ce_funcDurationEst e = NULL) ->
  0 <= pb_packSizeSamples inst ->
  PacketBufferGetSize call inst db false
  = Some (Z.max 0 (s32 (pb_numPacketsInBuffer inst * pb_packSizeSamples inst))).
Proof.
  intros Hinv Hdb Hn Hp. unfold PacketBufferGetSize.
  pose proof (size_loop_plain call inst db Hdb Hn (pb_slot inst) 0 _ (-1) (-1) 0 Hp) as H.
  change (s32 0) with 0 in H. rewrite H by (left; lia). cbn [mbind option_bind].
  rewrite (pi_count _ Hinv), Z.add_0_l. f_equal. case_if; lia.
Qed.

Lemma PacketBufferGetSize_fixed_witness :
  PacketBufferGetSize (fun _ _ _ _ => 0) ex_buf1 DbReset false
  = Some (Z.max 0 (s32 (pb_numPacketsInBuffer ex_buf1 * pb_packSizeSamples ex_buf1))).
Proof.
  apply (PacketBufferGetSize_fixed (fun _ _ _ _ => 0) ex_buf1 DbReset).
  - exact ex_buf1_inv.
  - exact DbReset_inv.
  - intros c e (p & Hp & Hne & _)%db_lookup_Some. exfalso. apply Hne.
    assert (Forall (fun p => p = -1) (db_position DbReset)) as HF
      by (vm_compute; repeat constructor).
    exact (aget_Forall _ _ _ _ HF Hp).
  - discriminate.
Defined.

(** The default settings suffice: for every list of codecs, the memory size
    and slot count [GetDefaultCodecSettings] recommends are accepted by
    [PacketBufferInit] whenever they reach its minimum of 150 words and two
    slots; the slot arrays then fit, and the payload memory that remains holds
    the [codecBytes] of every codec of the list, which has no more slots than
    recommended. *)
Theorem DefaultCodecSettings_suffice sizeof_ptr codecs ok maxBytes maxSlots overhead blank :
  sizeof_ptr = 4 \/ sizeof_ptr = 8 ->
  GetDefaultCodecSettings sizeof_ptr codecs = (ok, maxBytes, maxSlots, overhead) ->
  2 <= maxSlots -> 2 * PBUFFER_MIN_MEMORY_SIZE <= maxBytes ->
  exists inst, PacketBufferInit sizeof_ptr blank maxSlots true (Z.shiftr maxBytes 1)
               = Some (0, inst) /\
    pb_inv inst /\ pb_maxInsertPositions inst = maxSlots /\
    forall c b n, c ∈ codecs -> codec_settings c = Some (b, n) ->
      b <= 2 * pb_memorySizeW16 inst /\ n <= maxSlots.
Proof.
  intros Hsz H Hs Hb. unfold GetDefaultCodecSettings in H.
  pose proof (settings_loop_spec codecs 0 0 0) as Hl.
  destruct (settings_loop codecs 0 0 0) as [[ok' b'] n']. injection H as -> <- -> <-.
  destruct Hl as (Hb' & Hm & Hn & Hall); [lia|done|lia|].
  pose proof (slot_arrays_overhead maxSlots _ Hsz) as Hov.
  unfold PBUFFER_MIN_MEMORY_SIZE in *.
  assert (Z.shiftr (b' + per_slot_overhead sizeof_ptr * maxSlots) 1
          = b' / 2 + slot_arrays_size maxSlots sizeof_ptr) as Hmem.
  { rewrite Z.shiftr_div_pow2, <- Hov by lia. change (2 ^ 1) with 2.
    Z.to_euclidean_division_equations; lia. }
  assert (exists inst, PacketBufferInit sizeof_ptr blank maxSlots true
     (Z.shiftr (b' + per_slot_overhead sizeof_ptr * maxSlots) 1) = Some (0, inst) /\
     pb_maxInsertPositions inst = maxSlots /\ pb_memorySizeW16 inst = b' / 2)
    as (inst & Hi & Hmax & Hw).
  { unfold PacketBufferInit, PBUFFER_MIN_MEMORY_SIZE. rewrite Hmem.
    case_if; [repeat (apply orb_prop in E as [E|E]); bool_lia; try done; exfalso;
              Z.to_euclidean_division_equations; lia|].
    unfold assert. rewrite (proj2 (Z.leb_le _ _)) by (Z.to_euclidean_division_equations; lia).
    cbn [mbind option_bind]. eexists. split; [done|]. simpl. split; [done|lia]. }
  exists inst. split; [done|]. split; [by eapply Init_inv|]. split; [done|].
  intros c b n Hc Hcs. destruct (Hall _ _ _ Hc Hcs).
  rewrite Hw. Z.to_euclidean_division_equations; lia.
Qed.

Lemma DefaultCodecSettings_suffice_witness :
  exists inst, PacketBufferInit 8 ex_blank 30 true (Z.shiftr 2400 1) = Some (0, inst) /\
    pb_inv inst /\ pb_maxInsertPositions inst = 30 /\
    forall c b n, c ∈ [kDecoderPCMu; kDecoderILBC; kDecoderAVT] ->
      codec_settings c = Some (b, n) -> b <= 2 * pb_memorySizeW16 inst /\ n <= 30.
Proof.
  apply (DefaultCodecSettings_suffice 8 [kDecoderPCMu; kDecoderILBC; kDecoderAVT] 0 2400 30 24).
  - by right.
  - vm_compute. reflexivity.
  - discriminate.
  - discriminate.
Defined.

(** The initialisation does not check that its slot arrays fit: 600 slots in
    the minimum memory of 150 words are accepted. *)
Example PacketBufferInit_overrun :
  PacketBufferInit 8 ex_blank 600 true PBUFFER_MIN_MEMORY_SIZE = None.
Proof. reflexivity. Qed.
