(* ===== verification/Rtcp.v ===== *)
(** RTCP receiver statistics of the NetEQ MCU side: [rtcp.h], [rtcp.c]. *)
From S2P Require Import Prelude.

(** ** Data *)

Record RTCP := mkRTCP {
  rc_cycles : Z;      (* uint16_t *)
  rc_max_seq : Z;     (* uint16_t *)
  rc_base_seq : Z;    (* uint16_t *)
  rc_received : Z;    (* uint32_t *)
  rc_rec_prior : Z;   (* uint32_t *)
  rc_exp_prior : Z;   (* uint32_t *)
  rc_jitter : Z;      (* uint32_t, Q4 *)
  rc_transit : Z      (* int32_t *)
}.

#[export] Instance eta_RTCP : Eta RTCP := fun r =>
  mkRTCP (rc_cycles r) (rc_max_seq r) (rc_base_seq r) (rc_received r) (rc_rec_prior r)
    (rc_exp_prior r) (rc_jitter r) (rc_transit r).

(** ** Operations *)

Definition RTCPInit (uw16_seqNo : Z) : RTCP := mkRTCP 0 uw16_seqNo uw16_seqNo 0 0 0 0 0.

(** [WEBRTC_SPL_ABS_W32] on an [int32_t]. *)
Definition ABS_W32 (x : Z) : Z := if 0 <=? x then x else s32 (- x).

(** The number of packets and the highest sequence number. *)
Definition rtcp_update_seq (r : RTCP) (uw16_seqNo : Z) : RTCP :=
  let r := r <| rc_received := u32 (rc_received r + 1) |> in
  let w16_SeqDiff := s16 (uw16_seqNo - rc_max_seq r) in
  if 0 <=? w16_SeqDiff then
    let r := if uw16_seqNo <? rc_max_seq r
             then r <| rc_cycles := u16 (rc_cycles r + 1) |> else r in
    r <| rc_max_seq := uw16_seqNo |>
  else r.

(** The interarrival jitter in Q4. *)
Definition rtcp_update_jitter (r : RTCP) (uw32_timeStamp uw32_recTime : Z) : RTCP :=
  let r :=
    if 1 <? rc_received r then
      let w32_TimeDiff := s32 (u32 (uw32_recTime - u32 (uw32_timeStamp - rc_transit r))) in
      let w32_TimeDiff := ABS_W32 w32_TimeDiff in
      let w32_JitterDiff := s32 (u32 (s32 (Z.shiftl w32_TimeDiff 4) - rc_jitter r)) in
      r <| rc_jitter := u32 (rc_jitter r + Z.shiftr (s32 (w32_JitterDiff + 8)) 4) |>
    else r in
  r <| rc_transit := s32 (u32 (uw32_timeStamp - uw32_recTime)) |>.

Definition RTCPUpdate (r : RTCP) (uw16_seqNo uw32_timeStamp uw32_recTime : Z) : RTCP :=
  rtcp_update_jitter (rtcp_update_seq r uw16_seqNo) uw32_timeStamp uw32_recTime.

(** What [RTCPGetStats] reports. *)
Record RtcpStats := mkRtcpStats {
  rs_fraction_lost : Z; rs_cum_lost : Z; rs_ext_max : Z; rs_jitter : Z
}.

Definition rtcp_ext_max (r : RTCP) : Z :=
  u32 (u32 (Z.shiftl (rc_cycles r) 16) + rc_max_seq r).

Definition RTCPGetStats (r : RTCP) (doNotReset : bool) : RtcpStats * RTCP :=
  let ext_max := rtcp_ext_max r in
  let exp_nr := u32 (ext_max - rc_base_seq r + 1) in
  let cum_lost :=
    if rc_received r =? 0 then 0
    else if rc_received r <? exp_nr then
      let l := u32 (exp_nr - rc_received r) in if 16777215 <? l then 16777215 else l
    else 0 in
  let exp_interval := u32 (exp_nr - rc_exp_prior r) in
  let rec_interval := u32 (rc_received r - rc_rec_prior r) in
  let r' := if doNotReset then r
            else r <| rc_exp_prior := exp_nr |> <| rc_rec_prior := rc_received r |> in
  let lost := s32 (u32 (exp_interval - rec_interval)) in
  let fraction :=
    if (exp_interval =? 0) || (lost <=? 0) || (rc_received r =? 0) then 0
    else u16 (u32 (s32 (Z.shiftl lost 8)) / exp_interval) in
  let fraction := if 255 <? fraction then 255 else fraction in
  (mkRtcpStats fraction cum_lost ext_max (Z.shiftr (rc_jitter r) 4), r').

(** ** Specification: unbounded sequence numbers

    [es] are the extended sequence numbers of the received packets, in order
    of arrival; the code sees them modulo 2^16. *)

Fixpoint rtcp_run (r : RTCP) (pkts : list (Z * Z * Z)) : RTCP :=
  match pkts with
  | [] => r
  | (e, ts, rec) :: pkts => rtcp_run (RTCPUpdate r (u16 e) ts rec) pkts
  end.

(** The highest number so far, and every packet within half the 16-bit space
    of it when it arrives. *)
Fixpoint highest (m : Z) (pkts : list (Z * Z * Z)) : Z :=
  match pkts with [] => m | (e, _, _) :: pkts => highest (Z.max m e) pkts end.

Fixpoint near (m : Z) (pkts : list (Z * Z * Z)) : Prop :=
  match pkts with
  | [] => True
  | (e, _, _) :: pkts => 0 <= e < 4294967296 /\ -32768 <= e - m < 32768 /\ near (Z.max m e) pkts
  end.

Record rtcp_tracks (r : RTCP) (base m n : Z) : Prop := {
  rt_m : 0 <= m < 4294967296;
  rt_max : rc_max_seq r = m mod 65536;
  rt_cycles : rc_cycles r = m / 65536;
  rt_base : rc_base_seq r = base;
  rt_received : rc_received r = u32 n
}.

Lemma rtcp_update_tracks r base m n e ts rec :
  rtcp_tracks r base m n -> 0 <= e < 4294967296 -> -32768 <= e - m < 32768 ->
  rtcp_tracks (RTCPUpdate r (u16 e) ts rec) base (Z.max m e) (n + 1).
Proof.
  intros [] He Hd. unfold RTCPUpdate, rtcp_update_jitter.
  assert (rtcp_tracks (rtcp_update_seq r (u16 e)) base (Z.max m e) (n + 1)) as [].
  { unfold rtcp_update_seq. simpl. rewrite rt_max0.
    destruct (Z.leb_spec 0 (s16 (u16 e - m mod 65536)));
      [destruct (Z.ltb_spec (u16 e) (m mod 65536))|];
      split; simpl; rewrite ?rt_received0, ?rt_cycles0; try done; wrap_lia. }
  destruct (1 <? rc_received (rtcp_update_seq r (u16 e))); split; simpl; done.
Qed.

Lemma rtcp_run_tracks pkts : forall r base m n,
  rtcp_tracks r base m n -> near m pkts ->
  rtcp_tracks (rtcp_run r pkts) base (highest m pkts) (n + zlen pkts).
Proof.
  induction pkts as [|[[e ts] rec] pkts IH]; intros r base m n Hr Hn; cbn [rtcp_run highest near] in *.
  - by rewrite Z.add_0_r.
  - destruct Hn as (He & Hd & Hn).
    pose proof (IH _ _ _ _ (rtcp_update_tracks r base m n e ts rec Hr He Hd) Hn) as H.
    rewrite zlen_cons. by replace (n + (1 + zlen pkts)) with (n + 1 + zlen pkts) by lia.
Qed.

(** ** Properties *)

(** The receiver statistics reconstruct the extended sequence number: for
    every stream whose packets arrive within half the 16-bit space of the
    highest number so far, in any order and with any losses and duplicates, the
    reported extended maximum is the true highest sequence number (below 2^32),
    wrap-arounds included, and the cumulative loss is the number of missing
    packets, clamped to 0 and to 2^24 - 1. *)
Theorem RTCP_extended_sequence base pkts keep :
  in_u16 base -> near base pkts -> 0 < zlen pkts < 4294967296 ->
  let '(s, _) := RTCPGetStats (rtcp_run (RTCPInit base) pkts) keep in
  rs_ext_max s = highest base pkts /\
  rs_cum_lost s = Z.min 16777215 (Z.max 0 (u32 (highest base pkts - base + 1) - zlen pkts)).
Proof.
  intros Hb Hn Hz.
  assert (rtcp_tracks (RTCPInit base) base base 0) as H0 by (split; simpl; wrap_lia).
  destruct (rtcp_run_tracks _ _ _ _ _ H0 Hn). unfold RTCPGetStats. simpl.
  unfold rtcp_ext_max. rewrite rt_cycles0, rt_max0, rt_base0, rt_received0, Z.add_0_l.
  rewrite (u32_id (zlen pkts)) by (wrap_unfold; lia). rewrite Z.shiftl_mul_pow2 by lia.
  set (m := highest base pkts) in *. change (2 ^ 16) with 65536.
  rewrite (u32_id (m / 65536 * 65536)), (u32_id (_ + m mod 65536)) by wrap_lia.
  replace (m / 65536 * 65536 + m mod 65536) with m by (Z.to_euclidean_division_equations; lia).
  split; [done|]. pose proof (u32_range (m - base + 1)).
  destruct (Z.eqb_spec (zlen pkts) 0); [lia|].
  destruct (Z.ltb_spec (zlen pkts) (u32 (m - base + 1))); [|lia].
  rewrite (u32_id (u32 _ - zlen pkts)) by (wrap_unfold; lia).
  destruct (Z.ltb_spec 16777215 (u32 (m - base + 1) - zlen pkts)); lia.
Qed.

Lemma RTCP_extended_sequence_witness :
  let '(s, _) := RTCPGetStats
    (rtcp_run (RTCPInit 65534) [(65534, 0, 0); (65537, 480, 481); (65535, 160, 500)]) false in
  rs_ext_max s = highest 65534 [(65534, 0, 0); (65537, 480, 481); (65535, 160, 500)] /\
  rs_cum_lost s = Z.min 16777215 (Z.max 0 (u32 (65537 - 65534 + 1) - 3)).
Proof.
  apply (RTCP_extended_sequence 65534 [(65534, 0, 0); (65537, 480, 481); (65535, 160, 500)] false).
  - simpl; lia.
  - simpl; lia.
  - unfold zlen; simpl; lia.
Defined.

(** The fraction lost is the RFC 3550 one: for an interval in which less than
    2^23 packets were expected, it is 256 times the share of the expected
    packets that did not arrive, rounded down and at most 255, and 0 when none
    is missing; the reset stores the counters of this report. *)
Theorem RTCP_fraction_lost r s r' :
  RTCPGetStats r false = (s, r') ->
  0 < rc_received r ->
  let exp_nr := u32 (rtcp_ext_max r - rc_base_seq r + 1) in
  let expected := u32 (exp_nr - rc_exp_prior r) in
  let received := u32 (rc_received r - rc_rec_prior r) in
  0 < expected < 8388608 -> received < 8388608 ->
  rs_fraction_lost s = Z.min 255 (256 * Z.max 0 (expected - received) / expected) /\
  rc_exp_prior r' = exp_nr /\ rc_rec_prior r' = rc_received r.
Proof.
  intros H Hr exp_nr expected received He Hrec. unfold RTCPGetStats in H.
  fold exp_nr expected received in H. injection H as <- <-. simpl. split; [|done].
  assert (0 <= received) by apply u32_range.
  assert (s32 (u32 (expected - received)) = expected - received) as -> by wrap_lia.
  rewrite (proj2 (Z.eqb_neq expected 0)), (proj2 (Z.eqb_neq (rc_received r) 0)) by lia.
  rewrite orb_false_r. cbn [orb]. destruct (Z.leb_spec (expected - received) 0) as [Hle|Hlt].
  - rewrite Z.max_l, Z.mul_0_r, Zdiv_0_l by lia. done.
  - rewrite Z.shiftl_mul_pow2 by lia. change (2 ^ 8) with 256.
    rewrite (s32_id (_ * 256)), (u32_id (_ * 256)) by (wrap_unfold; lia).
    replace ((expected - received) * 256) with (256 * Z.max 0 (expected - received)) by lia.
    set (l := Z.max 0 (expected - received)).
    assert (0 <= 256 * l / expected <= 256).
    { split; [apply Z.div_pos; lia|]. apply Z.div_le_upper_bound; lia. }
    rewrite u16_id by (wrap_unfold; lia). destruct (Z.ltb_spec 255 (256 * l / expected)); lia.
Qed.

Lemma RTCP_fraction_lost_witness :
  let r := mkRTCP 0 109 100 6 0 0 0 0 in
  rs_fraction_lost (RTCPGetStats r false).1 = Z.min 255 (256 * Z.max 0 (10 - 6) / 10) /\
  rc_exp_prior (RTCPGetStats r false).2 = 10 /\ rc_rec_prior (RTCPGetStats r false).2 = 6.
Proof.
  intros r. apply (RTCP_fraction_lost r (RTCPGetStats r false).1 (RTCPGetStats r false).2).
  - reflexivity.
  - reflexivity.
  - split; reflexivity.
  - reflexivity.
Defined.
