(* ===== verification/Dtmf.v ===== *)
(** The telephone-event queue of NetEQ: [dtmf_buffer.h], [dtmf_buffer.c].

    The five arrays [EventQueue], [EventQueueVolume], [EventQueueEnded],
    [EventQueueStartTime], [EventQueueEndTime] are one list of four records. *)
From S2P Require Import Prelude.

(** ** Data *)

Definition MAX_DTMF_QUEUE_SIZE : Z := 4.
Definition DTMF_DEC_PARAMETER_ERROR : Z := -6001.
Definition DTMF_INSERT_ERROR : Z := -6002.

Record Event := mkEvent {
  ev_event : Z; ev_volume : Z; ev_ended : Z;
  ev_start : Z; ev_end : Z    (* uint32_t *)
}.
#[export] Instance eta_Event : Eta Event := fun r =>
  mkEvent (ev_event r) (ev_volume r) (ev_ended r) (ev_start r) (ev_end r).

Definition no_event : Event := mkEvent (-1) 0 0 0 0.

Record Dtmf := mkDtmf {
  dt_MaxPLCtime : Z;
  dt_CurrentPLCtime : Z;
  dt_queue : list Event;
  dt_EventBufferSize : Z;
  dt_framelen : Z
}.
#[export] Instance eta_Dtmf : Eta Dtmf := fun r =>
  mkDtmf (dt_MaxPLCtime r) (dt_CurrentPLCtime r) (dt_queue r) (dt_EventBufferSize r)
    (dt_framelen r).

(** ** Operations *)

(** Moving the entries [i+1 ..] down to [i ..], [n] times. *)
Fixpoint dtmf_shift (n : nat) (i : Z) (q : list Event) : option (list Event) :=
  match n with
  | O => Some q
  | S n => e ← aget q (i + 1); q ← aset q i e; dtmf_shift n (i + 1) q
  end.

Definition DtmfRemoveEvent (d : Dtmf) : option Dtmf :=
  q ← dtmf_shift 3 0 (dt_queue d);
  q ← aset q 3 no_event;
  Some (d <| dt_queue := q |> <| dt_EventBufferSize := dt_EventBufferSize d - 1 |>).

Definition DtmfDecoderInit (d : Dtmf) (fs MaxPLCtime : Z) : Z * Dtmf :=
  if (negb (fs =? 8000) && negb (fs =? 16000) && negb (fs =? 32000) && negb (fs =? 48000))
     || (MaxPLCtime <? 0)
  then (DTMF_DEC_PARAMETER_ERROR, d)
  else (0, mkDtmf MaxPLCtime 0 (replicate 4 no_event) 0
             (if fs =? 8000 then 80 else if fs =? 16000 then 160
              else if fs =? 32000 then 320 else 480)).

(** The last entry below [EventBufferSize] with this event that has not ended,
    or any of this event when the packet ends it; [position] so far. *)
Fixpoint dtmf_match (value endEvent : Z) (n : nat) (i position : Z) (q : list Event) : option Z :=
  match n with
  | O => Some position
  | S n =>
      e ← aget q i;
      let hit := (ev_event e =? value) && ((ev_ended e =? 0) || negb (endEvent =? 0)) in
      dtmf_match value endEvent n (i + 1) (if hit then i else position) q
  end.

(** The four fields of a telephone-event payload of two words. *)
Definition dtmf_fields (w0 w1 : Z) : Z * Z * Z * Z :=
  let value := Z.land w0 255 in
  let endEvent := Z.shiftr (Z.land w0 32768) 15 in
  let Volume := Z.shiftr (Z.land w0 16128) 8 in
  let Duration := s16 (Z.lor (Z.land (Z.shiftr (u16 w1) 8) 255)
                             (Z.shiftl (u16 (Z.land w1 255)) 8)) in
  (value, endEvent, Volume, Duration).

(** Updating a matching event, or storing a new one. *)
Definition dtmf_store (d : Dtmf) (value endEvent Volume Duration timeStamp : Z) : option Dtmf :=
  position ← dtmf_match value endEvent (Z.to_nat (dt_EventBufferSize d)) 0 (-1) (dt_queue d);
  if -1 <? position then
    e ← aget (dt_queue d) position;
    let e := e <| ev_volume := Volume |> in
    let e := if ev_end e <? u32 (timeStamp + Duration)
             then e <| ev_end := u32 (ev_start e + Duration) |> else e in
    let e := if negb (endEvent =? 0) then e <| ev_ended := 1 |> else e in
    q ← aset (dt_queue d) position e;
    Some (d <| dt_queue := q |>)
  else
    let size := if dt_EventBufferSize d =? MAX_DTMF_QUEUE_SIZE
                then dt_EventBufferSize d - 1 else dt_EventBufferSize d in
    q ← aset (dt_queue d) size
          (mkEvent value Volume endEvent timeStamp (u32 (timeStamp + Duration)));
    Some (d <| dt_queue := q |> <| dt_EventBufferSize := size + 1 |>).

Definition DtmfInsertEvent (d : Dtmf) (encoded : list Z) (len timeStamp : Z)
  : option (Z * Dtmf) :=
  if len =? 4 then
    w0 ← get_w16 encoded 0; w1 ← get_w16 encoded 1;
    let '(value, endEvent, Volume, Duration) := dtmf_fields w0 w1 in
    if (value <? 0) || (15 <? value) then Some (0, d) else
    if 36 <? Volume then Some (0, d) else
    d ← dtmf_store d value endEvent Volume Duration timeStamp;
    Some (0, d)
  else Some (DTMF_INSERT_ERROR, d).

(** Less than a frame left of an event that has not ended. *)
Definition dtmf_continue (d : Dtmf) (e0 : Event) (currTimeStamp : Z) : option Dtmf :=
  let d := d <| dt_CurrentPLCtime := s16 (u32 (currTimeStamp - ev_end e0)) |> in
  d ← (if (dt_MaxPLCtime d <? dt_CurrentPLCtime d)
          || (dt_CurrentPLCtime d <? - dt_MaxPLCtime d)
       then d ← DtmfRemoveEvent d; Some (d <| dt_CurrentPLCtime := 0 |>)
       else Some d);
  e1 ← aget (dt_queue d) 1;
  if (-1 <? ev_event e1) && (u32 (currTimeStamp + dt_framelen d) <=? ev_start e1)
  then d ← DtmfRemoveEvent d; Some (d <| dt_CurrentPLCtime := 0 |>)
  else Some d.

(** The return value, [*event] and [*volume] when they are written, and the
    instance. *)
Definition DtmfDecode (d : Dtmf) (currTimeStamp : Z) : option (Z * option (Z * Z) * Dtmf) :=
  if dt_EventBufferSize d <? 1 then Some (0, None, d) else
  e0 ← aget (dt_queue d) 0;
  if currTimeStamp <? ev_start e0 then Some (0, None, d) else
  let out := Some (ev_event e0, ev_volume e0) in
  let frame_end := u32 (currTimeStamp + dt_framelen d) in
  if frame_end <=? ev_end e0 then
    let d := d <| dt_CurrentPLCtime := 0 |> in
    d ← (if (ev_end e0 =? frame_end) && negb (ev_ended e0 =? 0)
         then DtmfRemoveEvent d else Some d);
    Some (dt_framelen d, out, d)
  else
    e1 ← aget (dt_queue d) 1;
    if negb (ev_ended e0 =? 0) || (-1 <? ev_event e1) then
      d ← DtmfRemoveEvent d;
      Some (dt_framelen d, out, d <| dt_CurrentPLCtime := 0 |>)
    else
      d ← dtmf_continue d e0 currTimeStamp;
      Some (dt_framelen d, out, d).

(** ** Abstract queue and invariant *)

Definition event_ok (e : Event) : Prop :=
  0 <= ev_event e <= 15 /\ 0 <= ev_volume e <= 36 /\ (ev_ended e = 0 \/ ev_ended e = 1).

(** The queue [q] of pending events, oldest first, fills the table from entry 0;
    the rest of the table is free. *)
Record dtmf_queue (d : Dtmf) (q : list Event) : Prop := {
  dq_table : dt_queue d = q ++ replicate (4 - length q) no_event;
  dq_len : (length q <= 4)%nat;
  dq_size : dt_EventBufferSize d = zlen q;
  dq_events : Forall event_ok q
}.

(** The event a matching packet updates: the last one. *)
Definition matches (value endEvent : Z) (e : Event) : bool :=
  (ev_event e =? value) && ((ev_ended e =? 0) || negb (endEvent =? 0)).

Definition updated (Volume endEvent Duration timeStamp : Z) (e : Event) : Event :=
  mkEvent (ev_event e) Volume (if negb (endEvent =? 0) then 1 else ev_ended e) (ev_start e)
    (if ev_end e <? u32 (timeStamp + Duration) then u32 (ev_start e + Duration) else ev_end e).

(** The queue after a packet: the last match is updated, otherwise the event is
    appended, in place of the newest one when four are pending. *)
Inductive dtmf_inserted (value endEvent Volume Duration timeStamp : Z) (q : list Event)
  : list Event -> Prop :=
| di_update q1 e q2 :
    q = q1 ++ e :: q2 -> matches value endEvent e = true ->
    Forall (fun e => matches value endEvent e = false) q2 ->
    dtmf_inserted value endEvent Volume Duration timeStamp q
      (q1 ++ updated Volume endEvent Duration timeStamp e :: q2)
| di_append :
    Forall (fun e => matches value endEvent e = false) q ->
    dtmf_inserted value endEvent Volume Duration timeStamp q
      (take 3 q ++ [mkEvent value Volume endEvent timeStamp (u32 (timeStamp + Duration))]).

(** The queue after a frame at time [now]: an event that has started is played;
    it leaves the queue when it is over, when another event waits, or when its
    end is further away than the longest concealment time. *)
Definition dtmf_played (d : Dtmf) (q : list Event) (now : Z) : Z * option (Z * Z) * list Event :=
  match q with
  | [] => (0, None, [])
  | e :: q' =>
      if now <? ev_start e then (0, None, q) else
      let frame_end := u32 (now + dt_framelen d) in
      let late := s16 (u32 (now - ev_end e)) in
      let ended := negb (ev_ended e =? 0) in
      let leaves :=
        if frame_end <=? ev_end e then (ev_end e =? frame_end) && ended
        else ended || negb (bool_decide (q' = [])) || (dt_MaxPLCtime d <? late)
             || (late <? - dt_MaxPLCtime d) in
      (dt_framelen d, Some (ev_event e, ev_volume e), if leaves then q' else q)
  end.

(** ** Lemmas *)

Lemma event_queue_cases (q : list Event) :
  (length q <= 4)%nat ->
  q = [] \/ (exists a, q = [a]) \/ (exists a b, q = [a; b]) \/
  (exists a b c, q = [a; b; c]) \/ (exists a b c e, q = [a; b; c; e]).
Proof.
  destruct q as [|a [|b [|c [|e [|]]]]]; simpl; intros; eauto 10; lia.
Qed.

Lemma DtmfRemoveEvent_queue d e q :
  dtmf_queue d (e :: q) ->
  exists d', DtmfRemoveEvent d = Some d' /\ dtmf_queue d' q /\
    dt_MaxPLCtime d' = dt_MaxPLCtime d /\ dt_framelen d' = dt_framelen d.
Proof.
  intros [Ht Hl Hs He]. apply Forall_cons_iff in He as [_ He].
  unfold DtmfRemoveEvent. rewrite Ht.
  destruct (event_queue_cases q) as [->|[(a & ->)|[(a & b & ->)|[(a & b & c & ->)|(?&?&?&?&->)]]]];
    [simpl in Hl; lia|..]; cbn in Hl |- *; try lia;
    (eexists; split; [reflexivity|]; split; [|done]); split; simpl; try done; try lia;
    rewrite Hs; done.
Qed.

Lemma dtmf_match_spec value endEvent l : forall pre pos rest,
  exists r, dtmf_match value endEvent (length l) (zlen pre) pos (pre ++ l ++ rest) = Some r /\
  ((r = pos /\ Forall (fun e => matches value endEvent e = false) l) \/
   exists l1 e l2, l = l1 ++ e :: l2 /\ r = zlen pre + zlen l1 /\
     matches value endEvent e = true /\
     Forall (fun e => matches value endEvent e = false) l2).
Proof.
  induction l as [|x l IH]; intros pre pos rest; cbn [dtmf_match length].
  { eexists. split; [done|]. by left. }
  assert (aget (pre ++ (x :: l) ++ rest) (zlen pre) = Some x) as Hx.
  { rewrite <- (Z.add_0_r (zlen pre)) at 1. by rewrite aget_app_r by lia. }
  rewrite Hx. cbn [mbind option_bind]. fold (matches value endEvent x).
  assert (Hpre : pre ++ (x :: l) ++ rest = (pre ++ [x]) ++ l ++ rest) by by rewrite <- app_assoc.
  assert (Hz : zlen pre + 1 = zlen (pre ++ [x])) by by rewrite zlen_app.
  rewrite Hpre, Hz.
  destruct (IH (pre ++ [x]) (if matches value endEvent x then zlen pre else pos) rest)
    as (r & -> & Hr). exists r. split; [done|].
  destruct Hr as [[-> Hno]|(l1 & e & l2 & -> & -> & He & Hl2)].
  - destruct (matches value endEvent x) eqn:E.
    + right. exists [], x, l. split; [done|]. split; [unfold zlen; simpl; lia|]. done.
    + left. split; [done|]. by constructor.
  - right. exists (x :: l1), e, l2. split; [done|]. rewrite zlen_app, zlen_cons.
    split; [unfold zlen; simpl; lia|]. done.
Qed.

Lemma replicate_4 (q : list Event) : (length q <= 4)%nat ->
  (length (q ++ replicate (4 - length q) no_event) = 4)%nat.
Proof. intros. rewrite length_app, length_replicate. lia. Qed.

(** Overwriting an entry of the table. *)
Lemma table_update (q1 : list Event) e q2 rest e' :
  aset ((q1 ++ e :: q2) ++ rest) (zlen q1) e' = Some ((q1 ++ e' :: q2) ++ rest).
Proof.
  pose proof (zlen_nonneg q1). pose proof (zlen_nonneg q2). pose proof (zlen_nonneg rest).
  rewrite aset_in by (rewrite !zlen_app, zlen_cons; lia). f_equal.
  unfold zlen. rewrite Nat2Z.id, <- !app_assoc.
  rewrite insert_app_r_alt by lia. by rewrite Nat.sub_diag.
Qed.

Lemma table_get (q1 : list Event) e q2 rest :
  aget ((q1 ++ e :: q2) ++ rest) (zlen q1) = Some e.
Proof.
  rewrite aget_lookup by apply zlen_nonneg. unfold zlen. rewrite Nat2Z.id, <- app_assoc.
  rewrite lookup_app_r by lia. by rewrite Nat.sub_diag.
Qed.

Lemma dtmf_store_queue d q value endEvent Volume Duration timeStamp :
  dtmf_queue d q -> event_ok (mkEvent value Volume endEvent timeStamp 0) ->
  exists d' q', dtmf_store d value endEvent Volume Duration timeStamp = Some d' /\
    dtmf_queue d' q' /\ dtmf_inserted value endEvent Volume Duration timeStamp q q' /\
    dt_MaxPLCtime d' = dt_MaxPLCtime d /\ dt_framelen d' = dt_framelen d.
Proof.
  intros [Ht Hl Hs He] (Hv & Hvol & Hend). simpl in Hv, Hvol, Hend.
  unfold dtmf_store. rewrite Hs, Ht.
  replace (Z.to_nat (zlen q)) with (length q) by (unfold zlen; lia).
  destruct (dtmf_match_spec value endEvent q [] (-1) (replicate (4 - length q) no_event))
    as (r & Hm & Hr). change (zlen []) with 0 in Hm. simpl app in Hm. rewrite Hm.
  cbn [mbind option_bind].
  destruct Hr as [[-> Hno]|(q1 & e & q2 & -> & -> & Hme & Hq2)].
  - change (-1 <? -1) with false. cbn iota.
    set (size := if zlen q =? _ then _ else _).
    assert (size = zlen (take 3 q) /\ (length (take 3 q) <= 3)%nat) as [-> Hl3].
    { subst size. unfold zlen, MAX_DTMF_QUEUE_SIZE. rewrite length_take. case_if; lia. }
    set (new := mkEvent value Volume endEvent timeStamp _).
    assert (Hset : aset (q ++ replicate (4 - length q) no_event) (zlen (take 3 q)) new
      = Some ((take 3 q ++ [new]) ++ replicate (4 - length (take 3 q ++ [new])) no_event)).
    { destruct (event_queue_cases q Hl) as [->|[(a & ->)|[(a & b & ->)|[(a & b & c & ->)|
        (a & b & c & f & ->)]]]]; reflexivity. }
    rewrite Hset. cbn [mbind option_bind].
    do 2 eexists. split; [done|]. split; [|split; [by apply di_append|done]].
    split; simpl; [done|rewrite length_app; simpl; lia|by rewrite zlen_app|].
    apply Forall_app. split; [by apply Forall_take|]. constructor; [|done]. done.
  - rewrite Z.add_0_l. pose proof (zlen_nonneg q1).
    destruct (Z.ltb_spec (-1) (zlen q1)); [|lia].
    assert (aget ((q1 ++ e :: q2) ++ replicate (4 - length (q1 ++ e :: q2)) no_event) (zlen q1)
      = Some e) as ->.
    { apply table_get. }
    cbn [mbind option_bind]. rewrite table_update. cbn [mbind option_bind].
    do 2 eexists. split; [done|]. split; [|split; [by eapply di_update|done]].
    apply Forall_app in He as [He1 He2]. apply Forall_cons_iff in He2 as [Hev He2].
    assert (Hlen : length (q1 ++ updated Volume endEvent Duration timeStamp e :: q2)
                   = length (q1 ++ e :: q2)) by by rewrite !length_app.
    set (u := if negb (endEvent =? 0) then _ else _).
    assert (u = updated Volume endEvent Duration timeStamp e) as ->.
    { subst u. unfold updated. destruct e; simpl. by repeat case_if. }
    split; simpl; rewrite ?Hlen; try done.
    + unfold zlen in *. by rewrite Hlen.
    + apply Forall_app. split; [done|]. constructor; [|done]. unfold event_ok, updated in *. simpl.
      split; [tauto|]. split; [tauto|]. case_if; [by right|tauto].
Qed.

Lemma dtmf_fields_bytes b0 b1 b2 b3 :
  in_u8 b0 -> in_u8 b1 -> in_u8 b2 -> in_u8 b3 ->
  dtmf_fields (s16 (b0 + 256 * b1)) (s16 (b2 + 256 * b3))
  = (b0, b1 / 128, b1 mod 64, s16 (256 * b2 + b3)).
Proof.
  intros. unfold dtmf_fields. rewrite (w16_lo b0 b1) by done.
  rewrite (land_mask _ 15 1), (land_mask _ 8 6), !Z.shiftr_div_pow2 by done.
  rewrite (w16_u b2 b3), (w16_lo b2 b3), land_255 by done.
  rewrite (u16_id b2) by (wrap_unfold; lia).
  replace (((b2 + 256 * b3) / 2 ^ 8) mod 256) with b3 by wrap_lia.
  rewrite Z.lor_comm, lor_shiftl_add by (wrap_unfold; lia).
  replace (b2 * 2 ^ 8 + b3) with (256 * b2 + b3) by lia.
  change (2 ^ 15) with 32768. change (2 ^ 8) with 256.
  change (2 ^ 1) with 2. change (2 ^ 6) with 64.
  replace (32768 * _ / 32768) with (b1 / 128) by wrap_lia.
  replace (256 * _ / 256) with (b1 mod 64) by wrap_lia. done.
Qed.

Lemma queue_second d e q :
  dtmf_queue d (e :: q) ->
  aget (dt_queue d) 0 = Some e /\
  exists e1, aget (dt_queue d) 1 = Some e1 /\ (-1 <? ev_event e1) = negb (bool_decide (q = [])).
Proof.
  intros [Ht Hl _ He]. rewrite Ht. split; [done|].
  destruct q as [|e1 q]; [by eexists|]. exists e1. split; [done|].
  apply Forall_cons_iff in He as [_ He]. apply Forall_cons_iff in He as [(Hv & _) _].
  rewrite (proj2 (Z.ltb_lt _ _)) by lia. done.
Qed.

Lemma dtmf_queue_plc d q t : dtmf_queue d q -> dtmf_queue (d <| dt_CurrentPLCtime := t |>) q.
Proof. intros []. by split. Qed.

Lemma dtmf_continue_queue d e now :
  dtmf_queue d [e] ->
  let late := s16 (u32 (now - ev_end e)) in
  exists d', dtmf_continue d e now = Some d' /\ dt_framelen d' = dt_framelen d /\
    dtmf_queue d' (if (dt_MaxPLCtime d <? late) || (late <? - dt_MaxPLCtime d)
                   then [] else [e]).
Proof.
  intros Hq late. unfold dtmf_continue.
  set (d1 := d <| dt_CurrentPLCtime := _ |>).
  assert (dtmf_queue d1 [e]) as Hq1 by by apply dtmf_queue_plc.
  change (dt_MaxPLCtime d1) with (dt_MaxPLCtime d).
  change (dt_CurrentPLCtime d1) with late.
  destruct (_ || _).
  - destruct (DtmfRemoveEvent_queue _ _ _ Hq1) as (d2 & -> & Hq2 & _ & Hfl).
    cbn [mbind option_bind]. simpl dt_queue. rewrite (dq_table _ _ Hq2).
    simpl. eexists. split; [done|]. split; [done|]. by apply dtmf_queue_plc.
  - cbn [mbind option_bind]. rewrite (dq_table _ _ Hq1). simpl. by eexists.
Qed.

Lemma DtmfDecode_queue d q now :
  dtmf_queue d q ->
  exists d', DtmfDecode d now = Some ((dtmf_played d q now).1.1, (dtmf_played d q now).1.2, d') /\
    dtmf_queue d' (dtmf_played d q now).2.
Proof.
  intros Hq. unfold DtmfDecode, dtmf_played. rewrite (dq_size _ _ Hq).
  destruct q as [|e q]; [by eexists|]. rewrite zlen_cons. pose proof (zlen_nonneg q).
  destruct (Z.ltb_spec (1 + zlen q) 1); [lia|].
  destruct (queue_second _ _ _ Hq) as (-> & e1 & He1 & Hlt). cbn [mbind option_bind].
  destruct (now <? ev_start e); [by eexists|]. cbv zeta.
  destruct (u32 (now + dt_framelen d) <=? ev_end e).
  - set (d1 := d <| dt_CurrentPLCtime := 0 |>).
    assert (dtmf_queue d1 (e :: q)) as Hq1 by by apply dtmf_queue_plc.
    destruct (_ && _); cbn [mbind option_bind].
    + destruct (DtmfRemoveEvent_queue _ _ _ Hq1) as (d2 & -> & Hq2 & _ & Hfl).
      cbn [mbind option_bind]. eexists. simpl. rewrite Hfl. done.
    + by eexists.
  - rewrite He1. cbn [mbind option_bind]. rewrite Hlt.
    destruct (negb (ev_ended e =? 0) || negb (bool_decide (q = []))) eqn:E.
    + destruct (DtmfRemoveEvent_queue _ _ _ Hq) as (d2 & -> & Hq2 & _ & Hfl).
      cbn [mbind option_bind orb]. exists (d2 <| dt_CurrentPLCtime := 0 |>).
      split; [simpl; by rewrite Hfl|by apply dtmf_queue_plc].
    + cbn [orb]. apply orb_false_elim in E as [_ E].
      destruct (bool_decide_reflect (q = [])) as [->|]; [|done].
      destruct (dtmf_continue_queue _ _ now Hq) as (d' & -> & Hfl & Hq').
      cbn [mbind option_bind]. exists d'. simpl. by rewrite Hfl.
Qed.

(** ** Properties *)

Inductive dtmf_reachable : Dtmf -> Prop :=
| dtr_init d fs plc d' : DtmfDecoderInit d fs plc = (0, d') -> dtmf_reachable d'
| dtr_insert d bytes len ts r d' :
    dtmf_reachable d -> byte_list bytes ->
    DtmfInsertEvent d bytes len ts = Some (r, d') -> dtmf_reachable d'
| dtr_decode d now r out d' :
    dtmf_reachable d -> DtmfDecode d now = Some (r, out, d') -> dtmf_reachable d'.

Lemma DtmfInsertEvent_queue d q b0 b1 b2 b3 rest len ts :
  dtmf_queue d q -> in_u8 b0 -> in_u8 b1 -> in_u8 b2 -> in_u8 b3 ->
  exists r d' q', DtmfInsertEvent d (b0 :: b1 :: b2 :: b3 :: rest) len ts = Some (r, d') /\
    dtmf_queue d' q' /\
    if (len =? 4) && (b0 <=? 15) && (b1 mod 64 <=? 36) then
      r = 0 /\ dtmf_inserted b0 (b1 / 128) (b1 mod 64) (s16 (256 * b2 + b3)) ts q q'
    else r = (if len =? 4 then 0 else DTMF_INSERT_ERROR) /\ d' = d.
Proof.
  intros Hq H0 H1 H2 H3. unfold DtmfInsertEvent. destruct (Z.eqb_spec len 4) as [->|]; simpl andb.
  2: { exists DTMF_INSERT_ERROR, d, q. done. }
  rewrite (get_w16_in _ 0 b0 b1) by done. cbn [mbind option_bind].
  rewrite (get_w16_in _ 1 b2 b3) by done. cbn [mbind option_bind].
  rewrite dtmf_fields_bytes by done. unfold in_u8 in *.
  destruct (Z.ltb_spec b0 0); [lia|].
  destruct (Z.ltb_spec 15 b0), (Z.leb_spec b0 15); try lia; simpl andb; cbn [orb].
  { exists 0, d, q. done. }
  destruct (Z.ltb_spec 36 (b1 mod 64)), (Z.leb_spec (b1 mod 64) 36); try lia.
  { exists 0, d, q. done. }
  destruct (dtmf_store_queue d q b0 (b1 / 128) (b1 mod 64) (s16 (256 * b2 + b3)) ts Hq)
    as (d' & q' & -> & Hq' & Hins & _).
  { unfold event_ok; simpl. split; [lia|]. split; [|Z.to_euclidean_division_equations; lia].
    split; [apply Z.mod_pos_bound|]; lia. }
  cbn [mbind option_bind]. exists 0, d', q'. done.
Qed.

Lemma dtmf_reachable_queue d : dtmf_reachable d -> exists q, dtmf_queue d q.
Proof.
  induction 1 as [d fs plc d' H|d bytes len ts r d' _ [q Hq] Hb H|d now r out d' _ [q Hq] H].
  - exists []. unfold DtmfDecoderInit in H. destruct (_ || _); [done|].
    injection H as <-. split; simpl; done || lia.
  - destruct (Z.eqb_spec len 4) as [->|Hl].
    + destruct bytes as [|b0 [|b1 [|b2 [|b3 rest]]]];
        try (unfold DtmfInsertEvent in H; simpl in H; bind_inv; done).
      do 4 (apply Forall_cons_iff in Hb as [? Hb]).
      destruct (DtmfInsertEvent_queue d q b0 b1 b2 b3 rest 4 ts Hq)
        as (r' & d2 & q' & H' & Hq' & _); try done. exists q'. congruence.
    + unfold DtmfInsertEvent in H. rewrite (proj2 (Z.eqb_neq _ _) Hl) in H. exists q. congruence.
  - destruct (DtmfDecode_queue d q now Hq) as (d2 & H' & Hq'). eexists.
    assert (d2 = d') as <- by congruence. exact Hq'.
Qed.

(** C39. The telephone-event buffer is a bounded queue: in every reachable state
    the table holds, from entry 0 on, a queue of at most four events with event
    codes 0 to 15 and volumes 0 to 36, and a packet of four bytes either leaves
    it alone (unsupported event or too quiet), or updates the last pending
    event of the same code that has not ended (any, when the packet carries the
    end bit), or is appended - replacing the newest one when four are pending. *)
Theorem Dtmf_insert_correct d b0 b1 b2 b3 rest len ts :
  dtmf_reachable d -> in_u8 b0 -> in_u8 b1 -> in_u8 b2 -> in_u8 b3 ->
  exists q r d' q', dtmf_queue d q /\
    DtmfInsertEvent d (b0 :: b1 :: b2 :: b3 :: rest) len ts = Some (r, d') /\
    dtmf_queue d' q' /\
    if (len =? 4) && (b0 <=? 15) && (b1 mod 64 <=? 36) then
      r = 0 /\ dtmf_inserted b0 (b1 / 128) (b1 mod 64) (s16 (256 * b2 + b3)) ts q q'
    else r = (if len =? 4 then 0 else DTMF_INSERT_ERROR) /\ d' = d.
Proof.
  intros [q Hq]%dtmf_reachable_queue H0 H1 H2 H3. exists q.
  destruct (DtmfInsertEvent_queue d q b0 b1 b2 b3 rest len ts Hq H0 H1 H2 H3)
    as (r & d' & q' & H). exists r, d', q'. done.
Qed.

(** Playing events: a call returns 0 and writes nothing while no event has
    started, and otherwise the oldest event with one frame of samples; the event
    leaves the queue exactly when it ended with this frame, when less than a
    frame of it is left and it has ended or another event waits, or when its
    end is further away than the longest concealment time.  No other event is
    ever dropped: the second removal in the code is dead. *)
Theorem Dtmf_decode_correct d now :
  dtmf_reachable d ->
  exists q d', dtmf_queue d q /\
    DtmfDecode d now = Some ((dtmf_played d q now).1.1, (dtmf_played d q now).1.2, d') /\
    dtmf_queue d' (dtmf_played d q now).2.
Proof.
  intros [q Hq]%dtmf_reachable_queue. exists q.
  destruct (DtmfDecode_queue d q now Hq) as (d' & H). eauto.
Qed.

Definition ex_dtmf : Dtmf :=
  Eval vm_compute in (DtmfDecoderInit (mkDtmf 0 0 [] 0 0) 8000 400).2.
Definition ex_dtmf1 : Dtmf := Eval vm_compute in
  match DtmfInsertEvent ex_dtmf [5; 10; 0; 160] 4 1000 with Some (_, d) => d | None => ex_dtmf end.

Lemma ex_dtmf_reachable : dtmf_reachable ex_dtmf.
Proof. by apply (dtr_init (mkDtmf 0 0 [] 0 0) 8000 400). Qed.

Lemma ex_dtmf1_reachable : dtmf_reachable ex_dtmf1.
Proof.
  apply (dtr_insert ex_dtmf [5; 10; 0; 160] 4 1000 0); [apply ex_dtmf_reachable| |by vm_compute].
  repeat (apply Forall_cons_2; [simpl; lia|]). apply List.Forall_nil.
Qed.

Lemma Dtmf_insert_correct_witness :
  exists q r d' q', dtmf_queue ex_dtmf1 q /\
    DtmfInsertEvent ex_dtmf1 [5; 138; 1; 64] 4 1000 = Some (r, d') /\ dtmf_queue d' q' /\
    (r = 0 /\ dtmf_inserted 5 1 10 320 1000 q q').
Proof.
  apply (Dtmf_insert_correct ex_dtmf1 5 138 1 64 [] 4 1000); [apply ex_dtmf1_reachable|..];
    simpl; lia.
Defined.

Lemma Dtmf_decode_correct_witness :
  exists q d', dtmf_queue ex_dtmf1 q /\
    DtmfDecode ex_dtmf1 1000 = Some ((dtmf_played ex_dtmf1 q 1000).1.1,
                                     (dtmf_played ex_dtmf1 q 1000).1.2, d') /\
    dtmf_queue d' (dtmf_played ex_dtmf1 q 1000).2.
Proof. apply (Dtmf_decode_correct ex_dtmf1 1000). apply ex_dtmf1_reachable. Defined.

(** A duration of 2^15 ticks or more becomes negative: the event's end lies
    before its start. *)
Example Dtmf_long_duration :
  match DtmfInsertEvent ex_dtmf [5; 10; 128; 0] 4 100000 with
  | Some (_, d) => aget (dt_queue d) 0 = Some (mkEvent 5 10 0 100000 67232)
  | None => False
  end.
Proof. reflexivity. Qed.
