(* ===== verification/SplMath.v ===== *)
(** The fixed-point arithmetic of the signal processing library:
    [common_audio/signal_processing], [spl_inl.h], [division_operations.c],
    [spl_sqrt_floor.c], [min_max_operations.c], [get_scaling_square.c],
    [energy.c], [dot_product_with_scale.c], [vector_scaling_operations.c].

    Results that C stores in a narrower type are converted ([s16], [s32]);
    vectors are lists of samples. *)
From S2P Require Import Prelude.

(** ** Saturation ([spl_inl.h]) *)

Definition SatW32ToW16 (value32 : Z) : Z :=
  let out16 := s16 value32 in
  if 32767 <? value32 then 32767 else if value32 <? -32768 then -32768 else out16.

Definition AddSatW16 (a b : Z) : Z := SatW32ToW16 (a + b).
Definition SubSatW16 (var1 var2 : Z) : Z := SatW32ToW16 (var1 - var2).

Definition AddSatW32 (l_var1 l_var2 : Z) : Z :=
  let l_sum := s32 (l_var1 + l_var2) in
  if l_var1 <? 0 then
    if (l_var2 <? 0) && (0 <=? l_sum) then -2147483648 else l_sum
  else if (0 <? l_var2) && (l_sum <? 0) then 2147483647 else l_sum.

Definition SubSatW32 (l_var1 l_var2 : Z) : Z :=
  let l_diff := s32 (l_var1 - l_var2) in
  if l_var1 <? 0 then
    if (0 <? l_var2) && (0 <? l_diff) then -2147483648 else l_diff
  else if (l_var2 <? 0) && (l_diff <? 0) then 2147483647 else l_diff.

(** ** Sizes and normalisation ([spl_inl.h]) *)

(** [!(mask & x)] *)
Definition clear (mask x : Z) : bool := Z.land mask x =? 0.

Definition GetSizeInBits (n : Z) : Z :=
  let bits := if clear 0xFFFF0000 n then 0 else 16 in
  let bits := if clear 0x0000FF00 (Z.shiftr n bits) then bits else bits + 8 in
  let bits := if clear 0x000000F0 (Z.shiftr n bits) then bits else bits + 4 in
  let bits := if clear 0x0000000C (Z.shiftr n bits) then bits else bits + 2 in
  let bits := if clear 0x00000002 (Z.shiftr n bits) then bits else bits + 1 in
  if clear 0x00000001 (Z.shiftr n bits) then bits else bits + 1.

Definition NormW32 (a : Z) : Z :=
  if a =? 0 then 0 else
  let a := if a <? 0 then Z.lnot a else a in
  let zeros := if clear 0xFFFF8000 a then 16 else 0 in
  let zeros := if clear 0xFF800000 (Z.shiftl a zeros) then zeros + 8 else zeros in
  let zeros := if clear 0xF8000000 (Z.shiftl a zeros) then zeros + 4 else zeros in
  let zeros := if clear 0xE0000000 (Z.shiftl a zeros) then zeros + 2 else zeros in
  if clear 0xC0000000 (Z.shiftl a zeros) then zeros + 1 else zeros.

Definition NormU32 (a : Z) : Z :=
  if a =? 0 then 0 else
  let zeros := if clear 0xFFFF0000 a then 16 else 0 in
  let zeros := if clear 0xFF000000 (u32 (Z.shiftl a zeros)) then zeros + 8 else zeros in
  let zeros := if clear 0xF0000000 (u32 (Z.shiftl a zeros)) then zeros + 4 else zeros in
  let zeros := if clear 0xC0000000 (u32 (Z.shiftl a zeros)) then zeros + 2 else zeros in
  if clear 0x80000000 (u32 (Z.shiftl a zeros)) then zeros + 1 else zeros.

Definition NormW16 (a : Z) : Z :=
  if a =? 0 then 0 else
  let a := if a <? 0 then Z.lnot a else a in
  let zeros := if clear 0xFF80 a then 8 else 0 in
  let zeros := if clear 0xF800 (Z.shiftl a zeros) then zeros + 4 else zeros in
  let zeros := if clear 0xE000 (Z.shiftl a zeros) then zeros + 2 else zeros in
  if clear 0xC000 (Z.shiftl a zeros) then zeros + 1 else zeros.

(** ** Division ([division_operations.c]) *)

Definition DivU32U16 (num den : Z) : Z := if negb (den =? 0) then num / den else 4294967295.
Definition DivW32W16 (num den : Z) : Z :=
  if negb (den =? 0) then s32 (Z.quot num den) else 2147483647.
Definition DivW32W16ResW16 (num den : Z) : Z :=
  if negb (den =? 0) then s16 (Z.quot num den) else 32767.

(** [k] rounds of the shift-and-subtract loop. *)
Fixpoint div_q31_loop (k : nat) (L_num L_den div : Z) : Z :=
  match k with
  | O => div
  | S k =>
      let div := s32 (Z.shiftl div 1) in
      let L_num := s32 (Z.shiftl L_num 1) in
      if L_den <=? L_num then div_q31_loop k (L_num - L_den) L_den (div + 1)
      else div_q31_loop k L_num L_den div
  end.

Definition DivResultInQ31 (num den : Z) : Z :=
  if num =? 0 then 0 else
  let div := div_q31_loop 31 (if num <? 0 then s32 (- num) else num)
                             (if den <? 0 then s32 (- den) else den) 0 in
  if xorb (num <? 0) (den <? 0) then s32 (- div) else div.

(** ** Square root ([spl_sqrt_floor.c]) *)

(** [WEBRTC_SPL_SQRT_ITER(N)] on [(value, root)]. *)
Definition sqrt_iter (st : Z * Z) (N : Z) : Z * Z :=
  let '(value, root) := st in
  let try1 := root + Z.shiftl 1 N in
  let t := s32 (Z.shiftl try1 N) in
  if t <=? value then (value - t, Z.lor root (Z.shiftl 2 N)) else (value, root).

Definition SqrtFloor (value : Z) : Z :=
  Z.shiftr (fold_left sqrt_iter [15; 14; 13; 12; 11; 10; 9; 8; 7; 6; 5; 4; 3; 2; 1; 0]
              (value, 0)).2 1.

(** ** Extrema ([min_max_operations.c]) *)

Definition WORD16_MAX : Z := 32767.
Definition WORD16_MIN : Z := -32768.
Definition WORD32_MAX : Z := 2147483647.
Definition WORD32_MIN : Z := -2147483648.

(** A running extremum: [better x m] is the code's comparison of the element
    [x] with the extremum [m] so far. *)
Definition above (x m : Z) : bool := m <? x.
Definition below (x m : Z) : bool := x <? m.

Fixpoint vec_ext (better : Z -> Z -> bool) (m : Z) (v : list Z) : Z :=
  match v with [] => m | x :: v => vec_ext better (if better x m then x else m) v end.

(** The index functions: element [i] on, extremum [m] found at [idx]. *)
Fixpoint vec_ext_index (better : Z -> Z -> bool) (i m idx : Z) (v : list Z) : Z :=
  match v with
  | [] => idx
  | x :: v => if better x m then vec_ext_index better (i + 1) x i v
              else vec_ext_index better (i + 1) m idx v
  end.

Definition MaxAbsValueW16C (vector : list Z) : Z :=
  match vector with
  | [] => -1
  | _ => let maximum := vec_ext above 0 (Z.abs <$> vector) in
         s16 (if WORD16_MAX <? maximum then WORD16_MAX else maximum)
  end.

(** [abs] of the smallest [int] is that [int], stored as an unsigned. *)
Definition MaxAbsValueW32C (vector : list Z) : Z :=
  match vector with
  | [] => -1
  | _ => let maximum := vec_ext above 0 ((fun x => u32 (s32 (Z.abs x))) <$> vector) in
         s32 (if maximum <? WORD32_MAX then maximum else WORD32_MAX)
  end.

Definition MaxValueW16C (vector : list Z) : Z := vec_ext above WORD16_MIN vector.
Definition MaxValueW32C (vector : list Z) : Z := vec_ext above WORD32_MIN vector.
Definition MinValueW16C (vector : list Z) : Z := vec_ext below WORD16_MAX vector.
Definition MinValueW32C (vector : list Z) : Z := vec_ext below WORD32_MAX vector.

Definition vec_index (better : Z -> Z -> bool) (m : Z) (vector : list Z) : Z :=
  match vector with [] => -1 | _ => vec_ext_index better 0 m 0 vector end.

Definition MaxAbsIndexW16 (vector : list Z) : Z := vec_index above 0 (Z.abs <$> vector).
Definition MaxIndexW16 (vector : list Z) : Z := vec_index above WORD16_MIN vector.
Definition MaxIndexW32 (vector : list Z) : Z := vec_index above WORD32_MIN vector.
Definition MinIndexW16 (vector : list Z) : Z := vec_index below WORD16_MAX vector.
Definition MinIndexW32 (vector : list Z) : Z := vec_index below WORD32_MAX vector.

(** ** Energy ([get_scaling_square.c], [energy.c], [dot_product_with_scale.c]) *)

(** [smax] over the vector: the absolute value is an [int16_t]. *)
Fixpoint scaling_smax (smax : Z) (v : list Z) : Z :=
  match v with
  | [] => smax
  | x :: v => let sabs := s16 (if 0 <? x then x else - x) in
              scaling_smax (if smax <? sabs then sabs else smax) v
  end.

Definition GetScalingSquare (in_vector : list Z) (times : Z) : Z :=
  let nbits := GetSizeInBits (u32 times) in
  let smax := scaling_smax (-1) in_vector in
  let t := NormW32 (s32 (smax * smax)) in
  if smax =? 0 then 0 else if nbits <? t then 0 else nbits - t.

Fixpoint energy_loop (scaling en : Z) (v : list Z) : Z :=
  match v with
  | [] => en
  | x :: v => energy_loop scaling (s32 (en + Z.shiftr (x * x) scaling)) v
  end.

(** The energy and [*scale_factor]. *)
Definition Energy (vector : list Z) : Z * Z :=
  let scaling := GetScalingSquare vector (zlen vector) in
  (energy_loop scaling 0 vector, scaling).

(** The unrolled loop adds the same terms in the same order. *)
Fixpoint DotProductWithScale_loop (sum scaling : Z) (v1 v2 : list Z) : Z :=
  match v1, v2 with
  | x :: v1, y :: v2 =>
      DotProductWithScale_loop (s32 (sum + Z.shiftr (x * y) scaling)) scaling v1 v2
  | _, _ => sum
  end.

Definition DotProductWithScale (vector1 vector2 : list Z) (scaling : Z) : Z :=
  DotProductWithScale_loop 0 scaling vector1 vector2.

(** ** Scaling ([vector_scaling_operations.c]) *)

Definition VectorBitShiftW16 (v : list Z) (right_shifts : Z) : list Z :=
  (fun x => if 0 <? right_shifts then Z.shiftr x right_shifts
            else s16 (Z.shiftl x (- right_shifts))) <$> v.
Definition VectorBitShiftW32 (v : list Z) (right_shifts : Z) : list Z :=
  (fun x => if 0 <? right_shifts then Z.shiftr x right_shifts
            else s32 (Z.shiftl x (- right_shifts))) <$> v.
Definition VectorBitShiftW32ToW16 (v : list Z) (right_shifts : Z) : list Z :=
  (fun x => SatW32ToW16 (if 0 <=? right_shifts then Z.shiftr x right_shifts
                         else s32 (Z.shiftl x (s16 (- right_shifts))))) <$> v.
Definition ScaleVector (v : list Z) (gain right_shifts : Z) : list Z :=
  (fun x => s16 (Z.shiftr (x * gain) right_shifts)) <$> v.
Definition ScaleVectorWithSat (v : list Z) (gain right_shifts : Z) : list Z :=
  (fun x => SatW32ToW16 (Z.shiftr (x * gain) right_shifts)) <$> v.
Definition ScaleAndAddVectors (in1 : list Z) (gain1 shift1 : Z) (in2 : list Z)
    (gain2 shift2 : Z) : list Z :=
  zip_with (fun x y => s16 (s16 (Z.shiftr (gain1 * x) shift1)
                            + s16 (Z.shiftr (gain2 * y) shift2))) in1 in2.

(** ** Saturation is clamping *)

Definition clamp (lo hi x : Z) : Z := Z.max lo (Z.min hi x).

(** The saturating additions, subtractions and the 32-to-16-bit
    conversion compute the exact result clamped to the result type, although
    they detect the overflow on the wrapped sum. *)
Theorem Saturation_correct (a b c d x : Z) (Ha : in_s32 a) (Hb : in_s32 b)
    (Hc : in_s16 c) (Hd : in_s16 d) (Hx : in_s32 x) :
  SatW32ToW16 x = clamp (-32768) 32767 x /\
  AddSatW16 c d = clamp (-32768) 32767 (c + d) /\
  SubSatW16 c d = clamp (-32768) 32767 (c - d) /\
  AddSatW32 a b = clamp (-2147483648) 2147483647 (a + b) /\
  SubSatW32 a b = clamp (-2147483648) 2147483647 (a - b).
Proof.
  unfold AddSatW16, SubSatW16, SatW32ToW16, AddSatW32, SubSatW32, clamp.
  repeat split; repeat case_if; bool_lia; cbn [andb] in *; try discriminate; wrap_lia.
Qed.

Example Saturation_correct_witness :
  in_s32 (-2147483648) /\ AddSatW32 (-2147483648) (-1) = -2147483648.
Proof.
  split; [simpl; lia|].
  refine (eq_trans (proj1 (proj2 (proj2 (proj2
    (Saturation_correct (-2147483648) (-1) 0 0 0 _ _ _ _ _))))) _);
    [simpl; lia..|reflexivity].
Defined.

(** ** Normalisation and size: a binary search on shift counts *)

Lemma clear_mask x a b :
  0 <= a -> 0 <= b -> 0 <= x < 2 ^ (a + b) ->
  clear ((2 ^ b - 1) * 2 ^ a) x = (x <? 2 ^ a).
Proof.
  intros Ha Hb Hx. unfold clear. rewrite Z.land_comm, land_mask by done.
  rewrite Z.pow_add_r in Hx by done.
  pose proof (Z.pow_pos_nonneg 2 a ltac:(lia) Ha).
  rewrite (Z.mod_small (x / 2 ^ a)) by
    (split; [apply Z.div_pos; lia|apply Z.div_lt_upper_bound; lia]).
  destruct (Z.ltb_spec x (2 ^ a)).
  - rewrite Z.div_small by lia. by rewrite Z.mul_0_r.
  - apply Z.eqb_neq. assert (1 <= x / 2 ^ a) by (apply Z.div_le_lower_bound; lia). nia.
Qed.

(** One step of a leading-zero count: [x] shifted by [z] is below [2 ^ w],
    and at most [2k] more positions are missing. *)
Definition norm_inv (w k x z : Z) : Prop :=
  0 <= z /\ x * 2 ^ z < 2 ^ w /\ 2 ^ w <= x * 2 ^ z * 2 ^ k.

Lemma norm_step w b k x z y m u :
  norm_inv w (2 * k) x z -> 0 < k <= w -> k <= b -> 0 <= x ->
  y = x * 2 ^ z -> m = (2 ^ b - 1) * 2 ^ (w - k) -> u = z + k ->
  norm_inv w k x (if clear m y then u else z).
Proof.
  intros (Hz & Hlt & Hge) Hk Hb Hx -> -> ->. unfold norm_inv.
  assert (0 <= x * 2 ^ z) by (apply Z.mul_nonneg_nonneg; [|apply Z.pow_nonneg]; lia).
  rewrite clear_mask; [|lia..|split; [done|]]; cycle 1.
  { apply Z.lt_le_trans with (1 := Hlt). apply Z.pow_le_mono_r; lia. }
  replace (2 * k) with (k + k) in Hge by lia. rewrite Z.pow_add_r in Hge by lia.
  assert (2 ^ w = 2 ^ (w - k) * 2 ^ k) as Hw by (rewrite <- Z.pow_add_r; [f_equal|..]; lia).
  pose proof (Z.pow_pos_nonneg 2 k ltac:(lia) ltac:(lia)).
  destruct (Z.ltb_spec (x * 2 ^ z) (2 ^ (w - k))); simpl.
  - rewrite Z.pow_add_r by lia. repeat split; try lia; nia.
  - repeat split; try lia; nia.
Qed.

Lemma norm_start w k x : 0 < x < 2 ^ w -> 0 <= w -> w <= k -> norm_inv w k x 0.
Proof.
  intros Hx Hw Hk. unfold norm_inv. pose proof (Z.pow_le_mono_r 2 w k ltac:(lia) Hk).
  rewrite Z.pow_0_r. repeat split; nia.
Qed.

Lemma shiftl_small x z : 0 <= z -> Z.shiftl x z = x * 2 ^ z.
Proof. by apply Z.shiftl_mul_pow2. Qed.

Lemma u32_shiftl_small w k x z :
  norm_inv w k x z -> w <= 32 -> 0 <= x -> u32 (Z.shiftl x z) = x * 2 ^ z.
Proof.
  intros (Hz & Hlt & _) Hw Hx. rewrite Z.shiftl_mul_pow2 by done.
  apply u32_id. simpl. pose proof (Z.pow_le_mono_r 2 w 32 ltac:(lia) Hw).
  assert (0 <= x * 2 ^ z) by (apply Z.mul_nonneg_nonneg; [|apply Z.pow_nonneg]; lia). lia.
Qed.

(** Runs [norm_step] for the first [let] of the goal. *)
Ltac norm_let k b tac :=
  match goal with
  | H : norm_inv ?w _ ?x _ |- norm_inv _ _ _ (let z := ?A in @?f z) =>
      change (norm_inv w 1 x (f A));
      let H' := fresh in
      assert (norm_inv w k x A) as H' by
        (eapply (norm_step w b); [exact H|lia|lia|lia|tac H|reflexivity|reflexivity]);
      clear H; revert H'; generalize A; intros ? H'; cbv beta
  end.
Ltac norm_last b tac :=
  match goal with
  | H : norm_inv ?w _ ?x _ |- norm_inv _ _ _ _ =>
      eapply (norm_step w b); [exact H|lia|lia|lia|tac H|reflexivity|reflexivity]
  end.
Ltac at_zero H := rewrite Z.pow_0_r; lia.
Ltac by_shiftl H := apply shiftl_small, H.
Ltac by_u32_shiftl H := eapply u32_shiftl_small; [exact H|lia..].

Lemma NormU32_pos a : 0 < a < 2 ^ 32 -> norm_inv 32 1 a (NormU32 a).
Proof.
  intros Ha. cbv beta delta [NormU32]. destruct (Z.eqb_spec a 0); [lia|].
  assert (norm_inv 32 32 a 0) by (apply norm_start; lia).
  norm_let 16 16 at_zero. norm_let 8 8 by_u32_shiftl. norm_let 4 4 by_u32_shiftl.
  norm_let 2 2 by_u32_shiftl. norm_last 1 by_u32_shiftl.
Qed.

(** Replaces the first [let] of the goal by a value equal to its body. *)
Ltac let_is v :=
  match goal with
  | |- norm_inv ?w ?k ?x (let z := _ in @?f z) => change (norm_inv w k x (f v)); cbv beta
  end.

Lemma NormW32_pos a : 0 < a < 2 ^ 31 -> norm_inv 31 1 a (NormW32 a).
Proof.
  intros Ha. cbv beta delta [NormW32]. destruct (Z.eqb_spec a 0); [lia|].
  assert (norm_inv 31 32 a 0) by (apply norm_start; lia).
  destruct (Z.ltb_spec a 0); [lia|]. let_is a.
  norm_let 16 17 at_zero. norm_let 8 9 by_shiftl. norm_let 4 5 by_shiftl.
  norm_let 2 3 by_shiftl. norm_last 2 by_shiftl.
Qed.

Lemma NormW16_pos a : 0 < a < 2 ^ 15 -> norm_inv 15 1 a (NormW16 a).
Proof.
  intros Ha. cbv beta delta [NormW16]. destruct (Z.eqb_spec a 0); [lia|].
  assert (norm_inv 15 16 a 0) by (apply norm_start; lia).
  destruct (Z.ltb_spec a 0); [lia|]. let_is a.
  norm_let 8 9 at_zero. norm_let 4 5 by_shiftl. norm_let 2 3 by_shiftl.
  norm_last 2 by_shiftl.
Qed.

Lemma NormW32_neg a : a < -1 -> NormW32 a = NormW32 (Z.lnot a).
Proof.
  intros Ha. unfold NormW32 at 1.
  destruct (Z.eqb_spec a 0); [lia|]. destruct (Z.ltb_spec a 0); [|lia].
  unfold NormW32. unfold Z.lnot at 2.
  destruct (Z.eqb_spec (Z.lnot a) 0) as [E|]; [unfold Z.lnot in E; lia|].
  destruct (Z.ltb_spec (Z.lnot a) 0) as [E|]; [unfold Z.lnot in E; lia|]. done.
Qed.

Lemma NormW16_neg a : a < -1 -> NormW16 a = NormW16 (Z.lnot a).
Proof.
  intros Ha. unfold NormW16 at 1.
  destruct (Z.eqb_spec a 0); [lia|]. destruct (Z.ltb_spec a 0); [|lia].
  unfold NormW16.
  destruct (Z.eqb_spec (Z.lnot a) 0) as [E|]; [unfold Z.lnot in E; lia|].
  destruct (Z.ltb_spec (Z.lnot a) 0) as [E|]; [unfold Z.lnot in E; lia|]. done.
Qed.

(** The largest shift that keeps [a] in the signed [w + 1]-bit range. *)
Definition headroom (w a n : Z) : Prop :=
  0 <= n <= w /\ - 2 ^ w <= a * 2 ^ n < 2 ^ w /\
  ~ (- 2 ^ w <= a * 2 ^ (n + 1) < 2 ^ w).

Lemma norm_inv_headroom w a n :
  norm_inv w 1 a n -> 0 < a -> headroom w a n.
Proof.
  intros (Hn & Hlt & Hge) Ha.
  assert (0 <= w) by (destruct (Z.neg_nonneg_cases w); [|done];
    rewrite (Z.pow_neg_r 2 w) in Hlt by done; pose proof (Z.pow_pos_nonneg 2 n); nia).
  assert (n <= w) by (apply (Z.pow_le_mono_r_iff 2); nia).
  unfold headroom. rewrite Z.pow_add_r by lia. nia.
Qed.

Lemma norm_inv_headroom_neg w a n :
  norm_inv w 1 (Z.lnot a) n -> a < -1 -> headroom w a n.
Proof.
  intros (Hn & Hlt & Hge) Ha. unfold Z.lnot in *.
  assert (0 <= w) by (destruct (Z.neg_nonneg_cases w); [|done];
    rewrite (Z.pow_neg_r 2 w) in Hlt by done; pose proof (Z.pow_pos_nonneg 2 n); nia).
  assert (n < w) as Hnw.
  { apply (Z.pow_lt_mono_r_iff 2); nia. }
  unfold headroom.
  assert (2 ^ w = 2 ^ n * 2 ^ (w - n)) as Hw by (rewrite <- Z.pow_add_r; [f_equal|..]; lia).
  assert (2 ^ (w - n) = 2 * 2 ^ (w - n - 1)) as Hw2
    by (rewrite <- Z.pow_succ_r; [f_equal|..]; lia).
  rewrite (Z.pow_add_r 2 n 1) by lia.
  pose proof (Z.pow_pos_nonneg 2 n ltac:(lia) Hn).
  pose proof (Z.pow_pos_nonneg 2 (w - n - 1) ltac:(lia) ltac:(lia)).
  rewrite Hw2 in Hw. rewrite Hw in *. clear Hw Hw2.
  generalize dependent (2 ^ (w - n - 1)). generalize dependent (2 ^ n).
  intros P HP Q Hlt Hge HQ. rewrite ?Z.pow_1_r in *. rewrite <- Z.sub_1_r in *.
  assert (- a - 1 < 2 * Q) by nia. repeat split; nia.
Qed.

(** The normalisation functions return the largest left shift that keeps
    a non-zero argument in its type: one more position would overflow. *)
Theorem Norm_correct (a b c : Z) (Ha : in_s32 a) (Hb : in_u32 b) (Hc : in_s16 c)
    (Ha0 : a <> 0) (Hb0 : b <> 0) (Hc0 : c <> 0) :
  headroom 31 a (NormW32 a) /\ headroom 15 c (NormW16 c) /\
  (0 <= NormU32 b <= 31 /\ 2 ^ 31 <= b * 2 ^ NormU32 b < 2 ^ 32).
Proof.
  simpl in *. split; [|split; [|split; [split|split]]].
  - destruct (Z.lt_ge_cases 0 a).
    + apply norm_inv_headroom; [|done]. apply NormW32_pos. lia.
    + destruct (Z.eq_dec a (-1)) as [->|]; [vm_compute; intuition discriminate|].
      rewrite NormW32_neg by lia. apply norm_inv_headroom_neg; [|lia].
      apply NormW32_pos. unfold Z.lnot. lia.
  - destruct (Z.lt_ge_cases 0 c).
    + apply norm_inv_headroom; [|done]. apply NormW16_pos. lia.
    + destruct (Z.eq_dec c (-1)) as [->|]; [vm_compute; intuition discriminate|].
      rewrite NormW16_neg by lia. apply norm_inv_headroom_neg; [|lia].
      apply NormW16_pos. unfold Z.lnot. lia.
  - destruct (NormU32_pos b) as (H0 & H1 & H2); [lia|].
    apply H0.
  - destruct (NormU32_pos b) as (H0 & H1 & H2); [lia|].
    destruct (Z.lt_ge_cases 31 (NormU32 b)) as [Hlt|]; [|done].
    pose proof (Z.pow_le_mono_r 2 32 (NormU32 b) ltac:(lia) ltac:(lia)). nia.
  - destruct (NormU32_pos b) as (H0 & H1 & H2); lia.
  - destruct (NormU32_pos b) as (H0 & H1 & H2); [lia|done].
Qed.

Example Norm_correct_witness :
  headroom 31 (-5) (NormW32 (-5)) /\ NormW32 (-5) = 28.
Proof.
  split; [|reflexivity].
  refine (proj1 (Norm_correct (-5) 1 1 _ _ _ _ _ _)); simpl; lia.
Defined.

(** ** Size in bits *)

Definition size_inv (k x bits : Z) : Prop :=
  0 <= bits /\ 1 <= x / 2 ^ bits < 2 ^ k.

Lemma size_step k b x bits y m u :
  size_inv (2 * k) x bits -> 0 < k -> k <= b -> y = x / 2 ^ bits ->
  m = (2 ^ b - 1) * 2 ^ k -> u = bits + k ->
  size_inv k x (if clear m y then bits else u).
Proof.
  intros (Hb & Hx) Hk Hkb -> -> ->. unfold size_inv.
  rewrite clear_mask; [|lia..|split; [lia|]]; cycle 1.
  { apply Z.lt_le_trans with (1 := proj2 Hx). apply Z.pow_le_mono_r; lia. }
  replace (2 * k) with (k + k) in Hx by lia. rewrite Z.pow_add_r in Hx by lia.
  pose proof (Z.pow_pos_nonneg 2 k ltac:(lia) ltac:(lia)).
  destruct (Z.ltb_spec (x / 2 ^ bits) (2 ^ k)); [repeat split; lia|].
  rewrite Z.pow_add_r, <- Z.div_div by lia. split; [lia|split].
  - apply Z.div_le_lower_bound; lia.
  - apply Z.div_lt_upper_bound; lia.
Qed.

Ltac size_let k :=
  match goal with
  | H : size_inv _ ?x _ |- context [let z := ?A in @?f z] =>
      change (f A = Z.log2 x + 1); 
      let H' := fresh in
      assert (size_inv k x A) as H' by
        (eapply (size_step k k); [exact H|lia|lia|
           rewrite ?Z.shiftr_div_pow2 by apply H; try reflexivity; by rewrite Z.div_1_r
          |reflexivity|reflexivity]);
      clear H; revert H'; generalize A; intros ? H'; cbv beta
  end.

(** [GetSizeInBits] is the length of the binary representation. *)
Lemma GetSizeInBits_spec (n : Z) (Hn : in_u32 n) :
  GetSizeInBits n = if n =? 0 then 0 else Z.log2 n + 1.
Proof.
  destruct (Z.eqb_spec n 0) as [->|]; [reflexivity|]. simpl in Hn.
  assert (size_inv 32 n 0) by (unfold size_inv; rewrite Z.div_1_r; lia).
  cbv beta delta [GetSizeInBits].
  size_let 16. size_let 8. size_let 4. size_let 2. size_let 1.
  match goal with H : size_inv 1 n ?b |- _ => destruct H as (Hb & H1);
    rewrite Z.shiftr_div_pow2 by done;
    assert (n / 2 ^ b = 1) as E by lia; rewrite E; cbn;
    rewrite (Z.log2_unique n b); [done|lia|];
    pose proof (Z.div_mod n (2 ^ b)); pose proof (Z.mod_pos_bound n (2 ^ b));
    pose proof (Z.pow_pos_nonneg 2 b); rewrite E in *; unfold Z.succ;
    rewrite Z.pow_add_r by lia; lia end.
Qed.

(** ** Square root *)

(** After the rounds above [N]: [root] is twice a multiple of [2 ^ N] whose
    square is what was subtracted from [v], and the next bit brackets it. *)
Definition sqrt_inv (N v : Z) (st : Z * Z) : Prop :=
  exists r, st = (v - r * r, 2 * r) /\ 0 <= r /\ r mod 2 ^ N = 0 /\
            r * r <= v < (r + 2 ^ N) * (r + 2 ^ N).

Lemma sqrt_iter_step N v st :
  0 <= N <= 15 -> 0 <= v < 2 ^ 31 -> sqrt_inv (N + 1) v st ->
  sqrt_inv N v (sqrt_iter st N).
Proof.
  intros HN Hv (r & -> & Hr & Hm & Hlo & Hhi). unfold sqrt_iter, sqrt_inv.
  rewrite (Z.shiftl_mul_pow2 1), !Z.shiftl_mul_pow2 by lia.
  rewrite Z.pow_add_r in Hm, Hhi by lia. rewrite Z.pow_1_r in *.
  apply Z.mod_divide in Hm as [q ->]; [|pose proof (Z.pow_pos_nonneg 2 N); lia].
  assert (0 < 2 ^ N <= 2 ^ 15) as HP
    by (split; [apply Z.pow_pos_nonneg|apply Z.pow_le_mono_r]; lia).
  rewrite Z.lor_comm.
  assert (Z.lor (2 * 2 ^ N) (2 * (q * (2 ^ N * 2))) = 2 * (q * (2 ^ N * 2)) + 2 * 2 ^ N) as ->.
  { rewrite Z.lor_comm.
    replace (2 * (q * (2 ^ N * 2))) with (q * 2 ^ (N + 2))
      by (rewrite Z.pow_add_r by lia; ring).
    rewrite <- (Z.shiftl_mul_pow2 q) at 1 by lia.
    replace (2 * 2 ^ N) with (2 ^ (N + 1)) by (rewrite Z.pow_add_r by lia; ring).
    rewrite lor_shiftl_add; [done|lia|]. split; [apply Z.pow_nonneg; lia|].
    apply Z.pow_lt_mono_r; lia. }
  assert (2 ^ N <= 2 ^ 14 \/ 2 ^ N = 2 ^ 15) as HP'.
  { destruct (Z.eq_dec N 15) as [->|]; [by right|left; apply Z.pow_le_mono_r; lia]. }
  generalize dependent (2 ^ N). intros P ? Hlo Hhi HP HP'.
  assert (0 <= q) by nia.
  assert (q * (P * 2) <= 46340) by nia.
  assert ((2 * (q * (P * 2)) + 1 * P) * P < 2147483648).
  { destruct HP' as [|HP']; [nia|]. assert (q = 0) as -> by nia. nia. }
  rewrite s32_id by (simpl; nia).
  destruct (Z.leb_spec ((2 * (q * (P * 2)) + 1 * P) * P) (v - q * (P * 2) * (q * (P * 2)))).
  - exists ((2 * q + 1) * P). rewrite Z.mod_mul by lia.
    split; [f_equal; ring|]. repeat split; nia.
  - exists (q * 2 * P). rewrite Z.mod_mul by lia.
    split; [f_equal; ring|]. repeat split; nia.
Qed.

(** [SqrtFloor] is the integer square root of a non-negative argument. *)
Theorem SqrtFloor_correct (v : Z) (Hv : 0 <= v < 2147483648) :
  SqrtFloor v = Z.sqrt v.
Proof.
  assert (sqrt_inv 16 v (v, 0)) as H.
  { exists 0. rewrite Z.mod_0_l by done. repeat split; try lia. f_equal; lia. }
  unfold SqrtFloor.
  assert (forall n, (n <= 16)%nat ->
    sqrt_inv (16 - Z.of_nat n) v
      (fold_left sqrt_iter (take n [15; 14; 13; 12; 11; 10; 9; 8; 7; 6; 5; 4; 3; 2; 1; 0])
         (v, 0))) as Hn.
  { induction n as [|n IH]; intros Hle; [done|].
    destruct (lookup_lt_is_Some_2 [15; 14; 13; 12; 11; 10; 9; 8; 7; 6; 5; 4; 3; 2; 1; 0] n)
      as [N HN]; [simpl; lia|].
    assert (N = 15 - Z.of_nat n) as ->.
    { do 16 (destruct n as [|n]; [by injection HN as <-|]). lia. }
    rewrite (take_S_r _ _ _ HN), fold_left_app. cbn [fold_left].
    replace (16 - Z.of_nat (S n)) with (15 - Z.of_nat n) by lia.
    apply sqrt_iter_step; [lia|lia|].
    replace (15 - Z.of_nat n + 1) with (16 - Z.of_nat n) by lia. apply IH. lia. }
  destruct (Hn 16%nat) as (r & Hr & Hpos & _ & Hlo & Hhi); [done|].
  cbn [take] in Hr. rewrite Hr. cbn [snd].
  rewrite Z.shiftr_div_pow2 by done. change (2 ^ 1) with 2.
  rewrite (Z.mul_comm 2), Z.div_mul by done.
  symmetry. apply Z.sqrt_unique. unfold Z.succ. cbn in Hhi. lia.
Qed.

Example SqrtFloor_correct_witness : SqrtFloor 2147483647 = 46340.
Proof.
  refine (eq_trans (SqrtFloor_correct 2147483647 _) _); [lia|reflexivity].
Defined.

(** ** Energy *)

(** Sixteen-bit samples other than -32768. *)
Definition samples (v : list Z) : Prop := Forall (fun x => -32768 < x < 32768) v.

Lemma scaling_smax_spec v m :
  samples v -> -1 <= m <= 32767 ->
  m <= scaling_smax m v <= 32767 /\ Forall (fun x => Z.abs x <= scaling_smax m v) v.
Proof.
  intros H. revert m. induction H as [|x v Hx _ IH]; intros m Hm; simpl; [split; [lia|done]|].
  rewrite (s16_id (if 0 <? x then x else - x)) by (simpl; case_if; lia).
  destruct (IH (if m <? (if 0 <? x then x else - x) then (if 0 <? x then x else - x) else m))
    as (H1 & H2); [repeat case_if; lia|].
  split; [revert H1; repeat case_if; lia|].
  constructor; [revert H1; repeat case_if; lia|done].
Qed.

(** With terms that add up to less than [2 ^ 31], no partial sum wraps. *)
Lemma energy_loop_exact scaling v en :
  0 <= scaling -> 0 <= en ->
  en + sum_list ((fun x => Z.shiftr (x * x) scaling) <$> v) < 2147483648 ->
  energy_loop scaling en v = en + sum_list ((fun x => Z.shiftr (x * x) scaling) <$> v).
Proof.
  intros Hs. revert en. induction v as [|x v IH]; intros en Hen Hsum; [simpl; lia|].
  rewrite fmap_cons, sum_list_cons in *. cbn [energy_loop].
  assert (0 <= Z.shiftr (x * x) scaling) by (apply Z.shiftr_nonneg; nia).
  assert (0 <= sum_list ((fun x => Z.shiftr (x * x) scaling) <$> v)).
  { apply sum_list_nonneg, Forall_fmap, list.Forall_forall.
    intros y _. apply Z.shiftr_nonneg. nia. }
  rewrite s32_id by (simpl; lia). rewrite IH; lia.
Qed.

(** The scaling leaves room for [times] squares of the largest sample. *)
Lemma GetScalingSquare_room v times :
  samples v -> 0 < times < 4294967296 ->
  let s := GetScalingSquare v times in
  0 <= s <= 32 /\ forall x, x ∈ v -> times * Z.shiftr (x * x) s < 2147483648.
Proof.
  intros Hv Ht. unfold GetScalingSquare. cbv zeta.
  destruct (scaling_smax_spec v (-1) Hv) as (Hm & Hall); [lia|].
  set (m := scaling_smax (-1) v) in *.
  rewrite u32_id, s32_id by (simpl; nia).
  rewrite GetSizeInBits_spec by (simpl; lia).
  destruct (Z.eqb_spec times 0); [lia|].
  pose proof (Z.log2_spec times ltac:(lia)) as [_ Hlog].
  assert (0 <= Z.log2 times < 32) as Hb
    by (split; [apply Z.log2_nonneg|apply Z.log2_lt_pow2; lia]).
  destruct (Z.eqb_spec m 0) as [E|E].
  { split; [lia|]. clearbody m. subst m. intros x Hx. rewrite list.Forall_forall in Hall.
    specialize (Hall x Hx). cbv beta in Hall. replace x with 0 by lia. change (Z.shiftr (0 * 0) 0) with 0. lia. }
  pose proof (NormW32_pos (m * m) ltac:(nia)) as (Hn & Hlt & _).
  set (t := NormW32 (m * m)) in *. unfold Z.succ in Hlog.
  set (b := Z.log2 times + 1) in *.
  assert (forall s, 0 <= s -> b - t <= s -> forall x, x ∈ v ->
    times * Z.shiftr (x * x) s < 2147483648) as Hgen.
  { intros s Hs0 Hs x Hx. rewrite list.Forall_forall in Hall. specialize (Hall x Hx).
    rewrite Z.shiftr_div_pow2 by done.
    pose proof (Z.pow_pos_nonneg 2 s ltac:(lia) Hs0) as Hps.
    pose proof (Z.mul_div_le (x * x) (2 ^ s) Hps) as Hdiv.
    assert (x * x <= m * m) by nia.
    pose proof (Z.pow_le_mono_r 2 b (t + s) ltac:(lia) ltac:(lia)) as Hbts.
    rewrite Z.pow_add_r in Hbts by lia.
    pose proof (Z.pow_pos_nonneg 2 t ltac:(lia) Hn) as Hpt.
    generalize dependent (2 ^ b). generalize dependent (2 ^ t). generalize dependent (2 ^ s).
    intros S HS Hdiv T HT1 HT B HB1 HB2.
    assert (0 <= x * x / S) by (apply Z.div_pos; nia).
    generalize dependent (x * x / S). intros d Hdiv Hd.
    assert (times * d * T * S < 2 ^ 31 * (T * S)); [|nia].
    apply Z.le_lt_trans with (times * (m * m) * T); [nia|].
    apply Z.lt_le_trans with (times * 2 ^ 31); [nia|]. nia. }
  destruct (Z.ltb_spec b t); split; try lia; apply Hgen; lia.
Qed.

(** For samples other than -32768 the scaling chosen by
    [GetScalingSquare] keeps every partial sum of [Energy] below [2 ^ 31]:
    the result is the exact sum of the scaled squares. *)
Theorem Energy_correct (vector : list Z)
    (Hv : Forall (fun x => -32768 < x < 32768) vector) (Hl : zlen vector < 2147483648) :
  exists scaling, 0 <= scaling <= 32 /\
    Energy vector = (sum_list ((fun x => Z.shiftr (x * x) scaling) <$> vector), scaling) /\
    0 <= (Energy vector).1 < 2147483648.
Proof.
  unfold Energy. simpl fst. exists (GetScalingSquare vector (zlen vector)).
  destruct (decide (vector = [])) as [->|Hne]; [by split_and!|].
  assert (0 < zlen vector) by (destruct vector; [done|]; rewrite zlen_cons;
    pose proof (zlen_nonneg vector); lia).
  destruct (GetScalingSquare_room vector (zlen vector) Hv) as (Hs & Hroom); [lia|].
  set (s := GetScalingSquare vector (zlen vector)) in *.
  assert (0 <= sum_list ((fun x => Z.shiftr (x * x) s) <$> vector) < 2147483648) as Hsum.
  { split.
    - apply sum_list_nonneg, Forall_fmap, list.Forall_forall.
      intros y _. apply Z.shiftr_nonneg. nia.
    - assert (sum_list ((fun x => Z.shiftr (x * x) s) <$> vector)
              <= zlen vector * (2147483647 / zlen vector)).
      { apply sum_list_bound, list.Forall_forall. intros x Hx.
        apply Z.div_le_lower_bound; [done|]. specialize (Hroom x Hx). lia. }
      pose proof (Z.mul_div_le 2147483647 (zlen vector)). lia. }
  split; [done|]. rewrite energy_loop_exact by lia. by split.
Qed.

Example Energy_correct_witness :
  0 <= (Energy [32767; -32767; 100]).1 < 2147483648 /\
  Energy [32767; -32767; 100] = (536838144 + 536838144 + 5000, 1).
Proof.
  split; [|reflexivity].
  refine (match Energy_correct [32767; -32767; 100] _ _ with
          | ex_intro _ _ (conj _ (conj _ H)) => H end);
    [repeat constructor; lia|reflexivity].
Defined.

(** The absolute value of the sample -32768 wraps to -32768 in
    [GetScalingSquare], which therefore ignores it: two such samples get no
    scaling and their energy overflows to a negative number. *)
Example Energy_overflow :
  GetScalingSquare [-32768; -32768] 2 = 0 /\ Energy [-32768; -32768] = (-2147483648, 0).
Proof. split; reflexivity. Qed.

(** ** Division *)

Lemma div_q31_step k num den div :
  0 <= num < den -> den <= 1073741824 -> 0 <= div -> (k <= 31)%nat ->
  (div + 1) * 2 ^ Z.of_nat k <= 2147483648 ->
  div_q31_loop k num den div = (div * den + num) * 2 ^ Z.of_nat k / den.
Proof.
  revert num div. induction k as [|k IH]; intros num div Hn Hd Hdiv Hk Hb; cbn [div_q31_loop].
  { rewrite Z.pow_0_r, Z.mul_1_r. apply (Z.div_unique _ _ _ num); lia. }
  rewrite Nat2Z.inj_succ, Z.pow_succ_r in * by lia.
  pose proof (Z.pow_pos_nonneg 2 (Z.of_nat k) ltac:(lia) ltac:(lia)).
  rewrite !Z.shiftl_mul_pow2 by done. change (2 ^ 1) with 2.
  rewrite (s32_id (div * 2)), (s32_id (num * 2)) by (simpl; nia).
  destruct (Z.leb_spec den (num * 2)).
  - rewrite IH; [f_equal; ring|lia|lia|lia|lia|nia].
  - rewrite IH; [f_equal; ring|lia|lia|lia|lia|nia].
Qed.

(** For a numerator smaller than the denominator in absolute value, and
    a denominator of at most [2 ^ 30] in absolute value, [DivResultInQ31] is
    the quotient in Q31 truncated towards zero. *)
Theorem DivResultInQ31_correct (num den : Z) (Hn : Z.abs num < Z.abs den)
    (Hd : Z.abs den <= 1073741824) :
  DivResultInQ31 num den = Z.quot (num * 2 ^ 31) den.
Proof.
  unfold DivResultInQ31. destruct (Z.eqb_spec num 0) as [->|Hz]; [by rewrite Z.quot_0_l by lia|].
  replace (if num <? 0 then s32 (- num) else num) with (Z.abs num)
    by (case_if; rewrite ?s32_id by (simpl; lia); lia).
  replace (if den <? 0 then s32 (- den) else den) with (Z.abs den)
    by (case_if; rewrite ?s32_id by (simpl; lia); lia).
  rewrite div_q31_step by lia. change (Z.of_nat 31) with 31.
  rewrite Z.mul_0_l, Z.add_0_l.
  assert (0 <= Z.abs num * 2 ^ 31 / Z.abs den < 2 ^ 31)
    by (split; [apply Z.div_pos|apply Z.div_lt_upper_bound]; lia).
  rewrite <- (Z.quot_div_nonneg (Z.abs num * 2 ^ 31)) in * by lia.
  destruct (Z.ltb_spec num 0), (Z.ltb_spec den 0); simpl xorb; cbv iota.
  - by rewrite !Z.abs_neq, Z.mul_opp_l, Z.quot_opp_opp by lia.
  - rewrite (Z.abs_neq num), (Z.abs_eq den), Z.mul_opp_l, Z.quot_opp_l in * by lia.
    rewrite s32_id by (simpl; lia). lia.
  - rewrite (Z.abs_eq num), (Z.abs_neq den), Z.quot_opp_r in * by lia.
    rewrite s32_id by (simpl; lia). lia.
  - by rewrite !Z.abs_eq by lia.
Qed.

Example DivResultInQ31_correct_witness : DivResultInQ31 (-1) 3 = -715827882.
Proof.
  refine (eq_trans (DivResultInQ31_correct (-1) 3 _ _) _); [lia|lia|reflexivity].
Defined.

(** Beyond that denominator the doubled remainder overflows. *)
Example DivResultInQ31_overflow :
  DivResultInQ31 2147483646 2147483647 = 0 /\
  Z.quot (2147483646 * 2 ^ 31) 2147483647 = 2147483646.
Proof. split; reflexivity. Qed.

(** ** Extrema *)

(** [i] is the first position of a largest rank, [m] its element. *)
Definition first_best (r : Z -> Z) (v : list Z) (i m : Z) : Prop :=
  aget v i = Some m /\ (forall j x, aget v j = Some x -> r x <= r m) /\
  (forall j x, j < i -> aget v j = Some x -> r x < r m).

Section extrema.
Context (better : Z -> Z -> bool) (r : Z -> Z).
Hypothesis better_rank : forall x y, better x y = (r y <? r x).

Lemma first_best_snoc v i m x :
  first_best r v i m ->
  first_best r (v ++ [x]) (if better x m then zlen v else i) (if better x m then x else m).
Proof using better_rank.
  intros (Hi & Hall & Hbefore). rewrite better_rank.
  assert (forall j y, aget (v ++ [x]) j = Some y ->
            (j < zlen v /\ aget v j = Some y) \/ (j = zlen v /\ y = x)) as Hcase.
  { intros j y Hj. pose proof (aget_Some_range _ _ _ Hj) as Hr.
    rewrite zlen_app, zlen_cons, (zlen_nil (A:=Z)) in Hr.
    destruct (Z.lt_ge_cases j (zlen v)).
    - left. by rewrite aget_app_l in Hj by done.
    - right. replace j with (zlen v + 0) in Hj by lia. rewrite aget_app_r in Hj by done.
      injection Hj as <-. lia. }
  pose proof (aget_Some_range _ _ _ Hi).
  destruct (Z.ltb_spec (r m) (r x)) as [Hlt|Hge].
  - split; [|split].
    + replace (zlen v) with (zlen v + 0) by lia. by rewrite aget_app_r.
    + intros j y [[_ Hj]|[-> ->]]%Hcase; [apply Hall in Hj; lia|lia].
    + intros j y Hlt' [[_ Hj]|[-> ->]]%Hcase; [apply Hall in Hj; lia|lia].
  - split; [|split].
    + by rewrite aget_app_l by lia.
    + intros j y [[_ Hj]|[-> ->]]%Hcase; [by eapply Hall|lia].
    + intros j y Hlt' [[_ Hj]|[-> ->]]%Hcase; [by eapply Hbefore|lia].
Qed.

Lemma vec_ext_index_spec v pre m idx :
  first_best r pre idx m ->
  first_best r (pre ++ v) (vec_ext_index better (zlen pre) m idx v) (vec_ext better m v).
Proof using better_rank.
  revert pre m idx. induction v as [|x v IH]; intros pre m idx H; simpl.
  { by rewrite app_nil_r. }
  apply (first_best_snoc _ _ _ x) in H. apply IH in H.
  rewrite <- (assoc_L (++)), zlen_app, zlen_cons, (zlen_nil (A:=Z)) in H. simpl in H.
  replace (zlen pre + (1 + 0)) with (zlen pre + 1) in H by lia.
  by destruct (better x m).
Qed.

(** The start value must not beat the first element. *)
Lemma vec_index_spec v m :
  (forall x y, r x = r y -> x = y) ->
  v <> [] -> Forall (fun x => r m <= r x) v ->
  first_best r v (vec_index better m v) (vec_ext better m v).
Proof using better_rank.
  intros Hinj Hne Hall. destruct v as [|x v]; [done|]. apply Forall_cons_iff in Hall as [Hx _].
  unfold vec_index. cbn [vec_ext_index vec_ext].
  assert ((if better x m then x else m) = x) as ->.
  { rewrite better_rank. destruct (Z.ltb_spec (r m) (r x)); [done|apply Hinj; lia]. }
  assert ((if better x m then vec_ext_index better (0 + 1) x 0 v
           else vec_ext_index better (0 + 1) m 0 v) = vec_ext_index better 1 x 0 v) as ->.
  { rewrite better_rank. destruct (Z.ltb_spec (r m) (r x)); [done|].
    by replace m with x by (apply Hinj; lia). }
  apply (vec_ext_index_spec v [x] x 0). split; [done|]. split.
  - intros j y Hj. pose proof (aget_Some_range _ _ _ Hj) as Hr.
    rewrite zlen_cons, (zlen_nil (A:=Z)) in Hr. replace j with 0 in Hj by lia. by injection Hj as ->.
  - intros j y Hlt Hj. pose proof (aget_Some_range _ _ _ Hj). lia.
Qed.
End extrema.

(** Over a non-empty vector the index functions return the first
    position of an extremum, and the value functions return its value. *)
Theorem Extrema_correct (v w : list Z) (Hv : Forall in_s16 v) (Hw : Forall in_s32 w)
    (Hvne : v <> []) (Hwne : w <> []) :
  first_best id v (MaxIndexW16 v) (MaxValueW16C v) /\
  first_best Z.opp v (MinIndexW16 v) (MinValueW16C v) /\
  first_best id w (MaxIndexW32 w) (MaxValueW32C w) /\
  first_best Z.opp w (MinIndexW32 w) (MinValueW32C w) /\
  exists m, first_best id (Z.abs <$> v) (MaxAbsIndexW16 v) m /\
            MaxAbsValueW16C v = Z.min 32767 m.
Proof.
  split; [|split; [|split; [|split]]].
  1-4: apply vec_index_spec;
    [intros; unfold above, below, id; lia|intros; unfold id in *; lia|done
    |eapply Forall_mono; [eassumption|];
     unfold id, WORD16_MIN, WORD16_MAX, WORD32_MIN, WORD32_MAX; simpl; lia].
  assert (Forall (fun x => 0 <= x <= 32768) (Z.abs <$> v)) as Habs.
  { apply Forall_fmap. eapply Forall_mono; [done|]. simpl. lia. }
  assert (first_best id (Z.abs <$> v) (MaxAbsIndexW16 v) (vec_ext above 0 (Z.abs <$> v))) as H.
  { apply vec_index_spec; [done|done| |].
    - intros E. by apply fmap_nil_inv in E.
    - eapply Forall_mono; [done|]. unfold id. simpl. lia. }
  exists (vec_ext above 0 (Z.abs <$> v)). split; [done|].
  destruct H as (Hm & _). eapply aget_Forall in Hm; [|done]. simpl in Hm.
  assert (MaxAbsValueW16C v = s16 (if WORD16_MAX <? vec_ext above 0 (Z.abs <$> v)
    then WORD16_MAX else vec_ext above 0 (Z.abs <$> v))) as -> by (by destruct v).
  unfold WORD16_MAX in *. rewrite s16_id by (case_if; simpl; lia). case_if; lia.
Qed.

Example Extrema_correct_witness :
  first_best Z.opp [4; -3; 7; -3] (MinIndexW16 [4; -3; 7; -3]) (MinValueW16C [4; -3; 7; -3]).
Proof.
  refine (proj1 (proj2 (Extrema_correct [4; -3; 7; -3] [1] _ _ _ _)));
    [repeat constructor; simpl; lia..|done|done].
Defined.
