(* ===== verification/Resample.v ===== *)
(** The resamplers between 48 kHz and 8 or 16 kHz:
    [common_audio/signal_processing/resample_48khz.c] with their filters of
    [resample_by_2_internal.c] and [resample_fractional.c].  Input and output of
    most filters lie in one array [tmpmem], at offsets that overlap. *)
From S2P Require Import Prelude SplMath.

Definition kResampleAllpass : list (list Z) := [[821; 6110; 12382]; [3050; 9368; 15063]].

Definition kCoefficients48To32 : list (list Z) :=
  [[778; -2050; 1087; 23285; 12903; -3783; 441; 222];
   [222; 441; -3783; 12903; 23285; 1087; -2050; 778]].

Definition kCoefficients32To24 : list (list Z) :=
  [[767; -2362; 2434; 24406; 10620; -3838; 721; 90];
   [386; -381; -2646; 19062; 19062; -2646; -381; 386];
   [90; 721; -3838; 10620; 24406; 2434; -2362; 767]].

(** ** Filters by two *)

(** [diff >> 14], towards zero. *)
Definition scale_trunc (diff : Z) : Z :=
  let diff := Z.shiftr diff 14 in
  if diff <? 0 then diff + 1 else diff.

Definition scale_round (diff : Z) : Z := Z.shiftr (s32 (diff + 8192)) 14.

(** One sample through the three sections of an all-pass filter, whose state
    begins at entry [k]; the output is the new entry [k + 3]. *)
Definition allpass (row : Z) (state : list Z) (k tmp0 : Z) : option (list Z * Z) :=
  coef ← aget kResampleAllpass row;
  c0 ← aget coef 0; c1 ← aget coef 1; c2 ← aget coef 2;
  s0 ← aget state k; s1 ← aget state (k + 1); s2 ← aget state (k + 2); s3 ← aget state (k + 3);
  let tmp1 := s32 (s0 + s32 (scale_round (s32 (tmp0 - s1)) * c0)) in
  state ← aset state k tmp0;
  let tmp0 := s32 (s1 + s32 (scale_trunc (s32 (tmp1 - s2)) * c1)) in
  state ← aset state (k + 1) tmp1;
  let y := s32 (s2 + s32 (scale_trunc (s32 (tmp0 - s3)) * c2)) in
  state ← aset state (k + 3) y;
  state ← aset state (k + 2) tmp0;
  Some (state, y).

(** A 16-bit sample as filter input. *)
Definition widen (x : Z) : Z := s32 (s32 (Z.shiftl x 15) + 16384).

(** Saturation to 16 bits. *)
Definition saturate (x : Z) : Z :=
  let x := if 0x7FFF <? x then 0x7FFF else x in
  if x <? -0x8000 then -0x8000 else x.

(** A filter loop over [len] samples: [get] and [put] say where a sample comes
    from and how the filter output changes the memory. *)
Definition filter_loop (row k len : Z) (get : list Z -> Z -> option Z) (put : list Z -> Z -> Z -> option (list Z))
    (st : list Z * list Z) : option (list Z * list Z) :=
  for_loop (Z.to_nat len) 0 (fun i st =>
    let '(mem, state) := st in
    x ← get mem i;
    r ← allpass row state k x;
    mem ← put mem i r.2;
    Some (mem, r.1)) st.

Definition DownBy2IntToShort (mem : list Z) (inp len : Z) (out : list Z) (ofs : Z) (state : list Z)
    : option (list Z * list Z * list Z) :=
  let len := Z.shiftr len 1 in
  st ← filter_loop 1 0 len (fun mem i => aget mem (inp + 2 * i))
         (fun mem i y => aset mem (inp + 2 * i) (Z.shiftr y 1)) (mem, state);
  st ← filter_loop 0 4 len (fun mem i => aget mem (inp + 1 + 2 * i))
         (fun mem i y => aset mem (inp + 1 + 2 * i) (Z.shiftr y 1)) st;
  let '(mem, state) := st in
  (* two output samples per round *)
  out ← for_loop (Z.to_nat ((len + 1) / 2)) 0 (fun j out =>
    let i := 2 * j in
    a ← aget mem (inp + 2 * i); b ← aget mem (inp + 2 * i + 1);
    c ← aget mem (inp + 2 * i + 2); d ← aget mem (inp + 2 * i + 3);
    out ← aset out (ofs + i) (saturate (Z.shiftr (s32 (a + b)) 15));
    aset out (ofs + i + 1) (saturate (Z.shiftr (s32 (c + d)) 15))) out;
  Some (mem, out, state).

Definition DownBy2ShortToInt (inp : list Z) (len : Z) (mem : list Z) (out : Z) (state : list Z)
    : option (list Z * list Z) :=
  let len := Z.shiftr len 1 in
  st ← filter_loop 1 0 len (fun _ i => x ← aget inp (2 * i); Some (widen x))
         (fun mem i y => aset mem (out + i) (Z.shiftr y 1)) (mem, state);
  filter_loop 0 4 len (fun _ i => x ← aget inp (2 * i + 1); Some (widen x))
    (fun mem i y => o ← aget mem (out + i); aset mem (out + i) (s32 (o + Z.shiftr y 1))) st.

Definition UpBy2ShortToInt (inp : list Z) (len : Z) (mem : list Z) (out : Z) (state : list Z)
    : option (list Z * list Z) :=
  st ← filter_loop 0 4 len (fun _ i => x ← aget inp i; Some (widen x))
         (fun mem i y => aset mem (out + 2 * i) (Z.shiftr y 15)) (mem, state);
  filter_loop 1 0 len (fun _ i => x ← aget inp i; Some (widen x))
    (fun mem i y => aset mem (out + 1 + 2 * i) (Z.shiftr y 15)) st.

Definition UpBy2IntToInt (mem : list Z) (inp len out : Z) (state : list Z) : option (list Z * list Z) :=
  st ← filter_loop 0 4 len (fun mem i => aget mem (inp + i)) (fun mem i y => aset mem (out + 2 * i) y) (mem, state);
  filter_loop 1 0 len (fun mem i => aget mem (inp + i)) (fun mem i y => aset mem (out + 1 + 2 * i) y) st.

(** The output is a 16-bit array of its own. *)
Definition UpBy2IntToShort (mem : list Z) (inp len : Z) (out : list Z) (state : list Z)
    : option (list Z * list Z) :=
  st ← filter_loop 0 4 len (fun _ i => aget mem (inp + i))
         (fun out i y => aset out (2 * i) (saturate (Z.shiftr y 15))) (out, state);
  filter_loop 1 0 len (fun _ i => aget mem (inp + i))
    (fun out i y => aset out (1 + 2 * i) (saturate (Z.shiftr y 15))) st.

(** The low-pass filters; [get] reads input sample [i].  The first loop works
    one odd sample behind, with the last one of the call before in [state[12]]. *)
Definition lp_delayed (len out : Z) (get : list Z -> Z -> option Z) (st : list Z * list Z)
    : option (list Z * list Z) :=
  let '(mem, state) := st in
  tmp0 ← aget state 12;
  r ← for_loop (Z.to_nat len) 0 (fun i st =>
        let '(mem, state, tmp0) := st in
        r ← allpass 1 state 0 tmp0;
        mem ← aset mem (out + 2 * i) (Z.shiftr r.2 1);
        tmp0 ← get mem (2 * i + 1);
        Some (mem, r.1, tmp0)) (mem, state, tmp0);
  Some r.1.

(** The average with the other branch. *)
Definition lp_average (pos : Z) (mem : list Z) (y : Z) : option (list Z) :=
  o ← aget mem pos;
  aset mem pos (Z.shiftr (s32 (o + Z.shiftr y 1)) 15).

Definition lp_by_2 (len out : Z) (get : list Z -> Z -> option Z) (st : list Z * list Z)
    : option (list Z * list Z) :=
  let len := Z.shiftr len 1 in
  st ← lp_delayed len out get st;
  st ← filter_loop 0 4 len (fun mem i => get mem (2 * i)) (fun mem i y => lp_average (out + 2 * i) mem y) st;
  st ← filter_loop 1 8 len (fun mem i => get mem (2 * i))
         (fun mem i y => aset mem (out + 1 + 2 * i) (Z.shiftr y 1)) st;
  filter_loop 0 12 len (fun mem i => get mem (2 * i + 1)) (fun mem i y => lp_average (out + 1 + 2 * i) mem y) st.

Definition LPBy2ShortToInt (inp : list Z) (len : Z) (mem : list Z) (out : Z) (state : list Z)
    : option (list Z * list Z) :=
  lp_by_2 len out (fun _ i => x ← aget inp i; Some (widen x)) (mem, state).

Definition LPBy2IntToInt (mem : list Z) (inp len out : Z) (state : list Z) : option (list Z * list Z) :=
  lp_by_2 len out (fun mem i => aget mem (inp + i)) (mem, state).

(** ** Fractional filters *)

(** [tmp += coef[j] * In[from + j]], from 2^14. *)
Definition inner_product (coefs mem : list Z) (from : Z) : option Z :=
  for_loop 8 0 (fun j tmp =>
    c ← aget coefs j; x ← aget mem (from + j);
    Some (s32 (tmp + s32 (c * x)))) (Z.shiftl 1 14).

Definition Resample48khzTo32khz (mem : list Z) (inp out K : Z) : option (list Z) :=
  for_loop (Z.to_nat K) 0 (fun m mem =>
    c0 ← aget kCoefficients48To32 0; c1 ← aget kCoefficients48To32 1;
    y ← inner_product c0 mem (inp + 3 * m);
    mem ← aset mem (out + 2 * m) y;
    y ← inner_product c1 mem (inp + 3 * m + 1);
    aset mem (out + 2 * m + 1) y) mem.

Definition Resample32khzTo24khz (mem : list Z) (inp out K : Z) : option (list Z) :=
  for_loop (Z.to_nat K) 0 (fun m mem =>
    c0 ← aget kCoefficients32To24 0; c1 ← aget kCoefficients32To24 1; c2 ← aget kCoefficients32To24 2;
    y ← inner_product c0 mem (inp + 4 * m);
    mem ← aset mem (out + 3 * m) y;
    y ← inner_product c1 mem (inp + 4 * m + 1);
    mem ← aset mem (out + 3 * m + 1) y;
    y ← inner_product c2 mem (inp + 4 * m + 2);
    aset mem (out + 3 * m + 2) y) mem.

(** ** The resamplers *)

Record State48khzTo16khz := mk48_16 { S_48_48 : list Z; S_48_32 : list Z; S_32_16 : list Z }.
Record State16khzTo48khz := mk16_48 { S_16_32 : list Z; S_32_24 : list Z; S16_24_48 : list Z }.
Record State48khzTo8khz := mk48_8 { S_48_24 : list Z; S_24_24 : list Z; S_24_16 : list Z; S_16_8 : list Z }.
Record State8khzTo48khz := mk8_48 { S_8_16 : list Z; S_16_12 : list Z; S_12_24 : list Z; S8_24_48 : list Z }.

(** The history of a fractional filter: the old one goes before the input at
    [lo], the last eight inputs at [hi] are kept. *)
Definition swap_history (mem hist : list Z) (lo hi : Z) : option (list Z * list Z) :=
  mem ← astore mem lo hist;
  hist ← aload mem hi 8;
  Some (mem, hist).

(** The results are the output, the state and the temporary memory. *)
Definition Resample48khzTo16khz (inp out : list Z) (state : State48khzTo16khz) (tmpmem : list Z)
    : option (list Z * State48khzTo16khz * list Z) :=
  a ← LPBy2ShortToInt inp 480 tmpmem 16 (S_48_48 state);
  h ← swap_history a.1 (S_48_32 state) 8 488;
  mem ← Resample48khzTo32khz h.1 8 0 160;
  r ← DownBy2IntToShort mem 0 320 out 0 (S_32_16 state);
  Some (r.1.2, mk48_16 a.2 h.2 r.2, r.1.1).

Definition Resample16khzTo48khz (inp out : list Z) (state : State16khzTo48khz) (tmpmem : list Z)
    : option (list Z * State16khzTo48khz * list Z) :=
  a ← UpBy2ShortToInt inp 160 tmpmem 16 (S_16_32 state);
  h ← swap_history a.1 (S_32_24 state) 8 328;
  mem ← Resample32khzTo24khz h.1 8 0 80;
  r ← UpBy2IntToShort mem 0 240 out (S16_24_48 state);
  Some (r.1, mk16_48 a.2 h.2 r.2, mem).

(** [out] begins at entry [ofs] of its array. *)
Definition Resample48khzTo8khz (inp out : list Z) (ofs : Z) (state : State48khzTo8khz) (tmpmem : list Z)
    : option (list Z * State48khzTo8khz * list Z) :=
  a ← DownBy2ShortToInt inp 480 tmpmem 256 (S_48_24 state);
  b ← LPBy2IntToInt a.1 256 240 16 (S_24_24 state);
  h ← swap_history b.1 (S_24_16 state) 8 248;
  mem ← Resample48khzTo32khz h.1 8 0 80;
  r ← DownBy2IntToShort mem 0 160 out ofs (S_16_8 state);
  Some (r.1.2, mk48_8 a.2 b.2 h.2 r.2, r.1.1).

Definition Resample8khzTo48khz (inp out : list Z) (state : State8khzTo48khz) (tmpmem : list Z)
    : option (list Z * State8khzTo48khz * list Z) :=
  a ← UpBy2ShortToInt inp 80 tmpmem 264 (S_8_16 state);
  h ← swap_history a.1 (S_16_12 state) 256 416;
  mem ← Resample32khzTo24khz h.1 256 240 40;
  b ← UpBy2IntToInt mem 240 120 0 (S_12_24 state);
  r ← UpBy2IntToShort b.1 0 240 out (S8_24_48 state);
  Some (r.1, mk8_48 a.2 h.2 b.2 r.2, b.1).

Definition zeros (n : nat) : list Z := replicate n 0.

Definition ResetResample48khzTo16khz : State48khzTo16khz := mk48_16 (zeros 16) (zeros 8) (zeros 8).
Definition ResetResample16khzTo48khz : State16khzTo48khz := mk16_48 (zeros 8) (zeros 8) (zeros 8).
Definition ResetResample48khzTo8khz : State48khzTo8khz := mk48_8 (zeros 8) (zeros 16) (zeros 8) (zeros 8).
Definition ResetResample8khzTo48khz : State8khzTo48khz := mk8_48 (zeros 8) (zeros 8) (zeros 8) (zeros 8).

(** ** Memory safety *)

(** A loop body that keeps lengths keeps them over the whole loop. *)
Definition lens (m s : Z) (st : list Z * list Z) : Prop := zlen st.1 = m /\ zlen st.2 = s.

Lemma aset_zlen {A} (l : list A) i v m : zlen l = m -> 0 <= i < m -> exists l', aset l i v = Some l' /\ zlen l' = m.
Proof. intros Hl Hi. rewrite aset_in by lia. eexists. split; [reflexivity|]. by rewrite zlen_insert. Qed.

Lemma allpass_safe row state k x m :
  0 <= row < 2 -> zlen state = m -> 0 <= k -> k + 4 <= m ->
  exists state' y, allpass row state k x = Some (state', y) /\ zlen state' = m.
Proof.
  intros Hrow Hl Hk Hm. unfold allpass.
  assert (Hc : exists c, aget kResampleAllpass row = Some c /\ exists c0 c1 c2, c = [c0; c1; c2]).
  { assert (row = 0 \/ row = 1) as [-> | ->] by lia; eexists; (split; [reflexivity|]); repeat eexists. }
  destruct Hc as (c & -> & c0 & c1 & c2 & ->). cbn [mbind option_bind].
  change (aget [c0; c1; c2] 0) with (Some c0). change (aget [c0; c1; c2] 1) with (Some c1).
  change (aget [c0; c1; c2] 2) with (Some c2). cbn [mbind option_bind].
  destruct (aget_in state k) as [s0 ->]; [lia|]. destruct (aget_in state (k + 1)) as [s1 ->]; [lia|].
  destruct (aget_in state (k + 2)) as [s2 ->]; [lia|]. destruct (aget_in state (k + 3)) as [s3 ->]; [lia|].
  cbn [mbind option_bind]. rewrite !aset_in by (rewrite ?zlen_insert; lia). cbn [mbind option_bind].
  rewrite !aset_in by (rewrite ?zlen_insert; lia). cbn [mbind option_bind].
  rewrite !aset_in by (rewrite ?zlen_insert; lia). cbn [mbind option_bind].
  rewrite !aset_in by (rewrite ?zlen_insert; lia). cbn [mbind option_bind].
  eexists _, _. split; [reflexivity|]. rewrite !zlen_insert. done.
Qed.

Lemma filter_loop_safe row k len get put mem state m s :
  0 <= row < 2 -> 0 <= k -> k + 4 <= s -> zlen mem = m -> zlen state = s ->
  (forall mem i, zlen mem = m -> 0 <= i < len -> exists x, get mem i = Some x) ->
  (forall mem i y, zlen mem = m -> 0 <= i < len -> exists mem', put mem i y = Some mem' /\ zlen mem' = m) ->
  exists mem' state', filter_loop row k len get put (mem, state) = Some (mem', state') /\
    zlen mem' = m /\ zlen state' = s.
Proof.
  intros Hrow Hk Hs Hm Hst Hget Hput. unfold filter_loop.
  match goal with |- context [for_loop _ 0 ?f _] =>
    destruct (for_loop_to (lens m s) f len (mem, state)) as ([mem' state'] & E & H1 & H2) end; [done| |by exists mem', state'].
  intros i [mem0 state0] Hi [H1 H2]. cbn [fst snd] in *.
  destruct (Hget mem0 i H1 Hi) as [x Ex]. rewrite (bind_eq _ _ _ Ex).
  destruct (allpass_safe row state0 k x s Hrow H2 Hk Hs) as (state1 & y & Ea & Hs1). rewrite (bind_eq _ _ _ Ea). cbn [fst snd].
  destruct (Hput mem0 i y H1 Hi) as (mem1 & Ep & Hm1). rewrite (bind_eq _ _ _ Ep). by exists (mem1, state1).
Qed.

(** [seq_safe] runs one step of a filter whose loops stay in their memory. *)
Ltac fl_step :=
  match goal with
  | |- context [filter_loop ?row ?k ?len ?get ?put (?mem, ?state)] =>
      let m := fresh "mem" in let s := fresh "state" in let E := fresh "E" in
      let H1 := fresh "Hm" in let H2 := fresh "Hs" in
      destruct (filter_loop_safe row k len get put mem state (zlen mem) (zlen state)) as (m & s & E & H1 & H2);
        [lia|lia|try lia|reflexivity|reflexivity| | |rewrite ?(bind_eq _ _ _ E)]
  end.

Ltac in_bounds :=
  intros; cbv beta;
  repeat match goal with
    | |- context [aget ?l ?i ≫= _] =>
        let x := fresh "x" in let E := fresh "E" in
        destruct (aget_in l i) as [x E]; [lia|rewrite (bind_eq _ _ _ E)]
    end;
  first [by eexists | apply aget_in; lia | apply aset_zlen; [done|lia]].

Lemma DownBy2ShortToInt_safe inp len mem out state :
  0 <= len <= zlen inp -> 0 <= out -> out + Z.shiftr len 1 <= zlen mem -> zlen state = 8 ->
  exists mem' state', DownBy2ShortToInt inp len mem out state = Some (mem', state') /\
    zlen mem' = zlen mem /\ zlen state' = 8.
Proof.
  intros Hi Ho Hm Hs. unfold DownBy2ShortToInt. rewrite shiftr_one in *. cbv zeta.
  assert (2 * (len / 2) <= len) by (Z.to_euclidean_division_equations; lia).
  fl_step; [in_bounds..|]. fl_step; [in_bounds..|].
  eexists _, _. split; [eassumption|]. lia.
Qed.

Lemma UpBy2ShortToInt_safe inp len mem out state :
  0 <= len <= zlen inp -> 0 <= out -> out + 2 * len <= zlen mem -> zlen state = 8 ->
  exists mem' state', UpBy2ShortToInt inp len mem out state = Some (mem', state') /\
    zlen mem' = zlen mem /\ zlen state' = 8.
Proof.
  intros Hi Ho Hm Hs. unfold UpBy2ShortToInt.
  fl_step; [in_bounds..|]. fl_step; [in_bounds..|].
  eexists _, _. split; [eassumption|]. lia.
Qed.

Lemma UpBy2IntToInt_safe mem inp len out state :
  0 <= len -> 0 <= inp -> inp + len <= zlen mem -> 0 <= out -> out + 2 * len <= zlen mem -> zlen state = 8 ->
  exists mem' state', UpBy2IntToInt mem inp len out state = Some (mem', state') /\
    zlen mem' = zlen mem /\ zlen state' = 8.
Proof.
  intros Hl Hi Hi2 Ho Hm Hs. unfold UpBy2IntToInt.
  fl_step; [in_bounds..|]. fl_step; [in_bounds..|].
  eexists _, _. split; [eassumption|]. lia.
Qed.

Lemma UpBy2IntToShort_safe mem inp len out state :
  0 <= len -> 0 <= inp -> inp + len <= zlen mem -> 2 * len <= zlen out -> zlen state = 8 ->
  exists out' state', UpBy2IntToShort mem inp len out state = Some (out', state') /\
    zlen out' = zlen out /\ zlen state' = 8.
Proof.
  intros Hl Hi Hi2 Ho Hs. unfold UpBy2IntToShort.
  fl_step; [in_bounds..|]. fl_step; [in_bounds..|].
  eexists _, _. split; [eassumption|]. lia.
Qed.

Lemma DownBy2IntToShort_safe mem inp len out ofs state :
  0 <= len -> len mod 4 = 0 -> 0 <= inp -> inp + len <= zlen mem -> 0 <= ofs -> ofs + len / 2 <= zlen out -> zlen state = 8 ->
  exists mem' out' state', DownBy2IntToShort mem inp len out ofs state = Some (mem', out', state') /\
    zlen mem' = zlen mem /\ zlen out' = zlen out /\ zlen state' = 8.
Proof.
  intros Hl Hl4 Hi Hi2 Ho Ho2 Hs. unfold DownBy2IntToShort. rewrite shiftr_one. cbv zeta.
  assert (Hq : exists q, len = 4 * q) by (exists (len / 4); Z.to_euclidean_division_equations; lia).
  destruct Hq as [q ->]. replace (4 * q / 2) with (2 * q) in * by (Z.to_euclidean_division_equations; lia).
  fl_step; [in_bounds..|]. fl_step; [in_bounds..|].
  replace ((2 * q + 1) / 2) with q by (Z.to_euclidean_division_equations; lia).
  match goal with |- context [for_loop _ 0 ?f out] =>
    destruct (for_loop_to (fun o => zlen o = zlen out) f q out) as (out' & E' & Hz) end; [done| |].
  - intros j o Hj Hz. cbv zeta.
    destruct (aget_in mem1 (inp + 2 * (2 * j))) as [a Ea]; [lia|].
    destruct (aget_in mem1 (inp + 2 * (2 * j) + 1)) as [b Eb]; [lia|].
    destruct (aget_in mem1 (inp + 2 * (2 * j) + 2)) as [c Ec]; [lia|].
    destruct (aget_in mem1 (inp + 2 * (2 * j) + 3)) as [d Ed]; [lia|].
    rewrite Ea, Eb, Ec, Ed. cbn [mbind option_bind].
    destruct (aset_zlen o (ofs + 2 * j) (saturate (Z.shiftr (s32 (a + b)) 15)) (zlen out) Hz) as (o1 & E1 & H1); [lia|].
    rewrite (bind_eq _ _ _ E1). apply aset_zlen; [done|lia].
  - rewrite (bind_eq _ _ _ E'). eexists _, out', _. split; [reflexivity|]. lia.
Qed.

Lemma lp_average_safe pos mem y m : zlen mem = m -> 0 <= pos < m ->
  exists mem', lp_average pos mem y = Some mem' /\ zlen mem' = m.
Proof.
  intros Hm Hp. unfold lp_average. destruct (aget_in mem pos) as [o Eo]; [lia|]. rewrite (bind_eq _ _ _ Eo).
  apply aset_zlen; [done|lia].
Qed.

Lemma lp_by_2_safe len out get mem state :
  0 <= len -> 0 <= out -> out + len <= zlen mem -> zlen state = 16 ->
  (forall mem' i, zlen mem' = zlen mem -> 0 <= i < len -> exists x, get mem' i = Some x) ->
  exists mem' state', lp_by_2 len out get (mem, state) = Some (mem', state') /\
    zlen mem' = zlen mem /\ zlen state' = 16.
Proof.
  intros Hl Ho Hm Hs Hget. unfold lp_by_2. rewrite shiftr_one. cbv zeta.
  assert (2 * (len / 2) <= len) by (Z.to_euclidean_division_equations; lia).
  assert (E1 : exists mem1 state1, lp_delayed (len / 2) out get (mem, state) = Some (mem1, state1) /\
    zlen mem1 = zlen mem /\ zlen state1 = 16).
  { unfold lp_delayed. destruct (aget_in state 12) as [t0 Et]; [lia|]. rewrite (bind_eq _ _ _ Et).
    match goal with |- context [for_loop _ 0 ?f ?a] =>
      destruct (for_loop_to (fun st : list Z * list Z * Z => lens (zlen mem) 16 st.1) f (len / 2) a) as ([[m1 s1] t1] & E & H1 & H2) end;
      [by split| |].
    - intros i [[m1 s1] t1] Hi [H1 H2]. cbn [fst snd] in *.
      destruct (allpass_safe 1 s1 0 t1 16) as (s2 & y & Ea & Hs2); [lia|done|lia|lia|]. rewrite (bind_eq _ _ _ Ea). cbn [fst snd].
      destruct (aset_zlen m1 (out + 2 * i) (Z.shiftr y 1) (zlen mem) H1) as (m2 & Em & Hm2); [lia|]. rewrite (bind_eq _ _ _ Em).
      destruct (Hget m2 (2 * i + 1) Hm2) as [x Ex]; [lia|]. rewrite (bind_eq _ _ _ Ex). by exists (m2, s2, x).
    - rewrite (bind_eq _ _ _ E). by exists m1, s1. }
  destruct E1 as (mem1 & state1 & E1 & Hm1 & Hs1). rewrite (bind_eq _ _ _ E1).
  fl_step; [intros; apply Hget; lia|intros; apply lp_average_safe; [done|lia]|].
  fl_step; [intros; apply Hget; lia|in_bounds|].
  fl_step; [intros; apply Hget; lia|intros; apply lp_average_safe; [done|lia]|].
  eexists _, _. split; [eassumption|]. lia.
Qed.

Lemma inner_product_safe coefs mem from : zlen coefs = 8 -> 0 <= from -> from + 8 <= zlen mem ->
  exists y, inner_product coefs mem from = Some y.
Proof.
  intros Hc Hf Hm. unfold inner_product. change 8%nat with (Z.to_nat 8).
  match goal with |- context [for_loop _ 0 ?f ?a] => destruct (for_loop_to (fun _ => True) f 8 a) as (y & E & _) end;
    [done| |by exists y].
  intros j t Hj _. destruct (aget_in coefs j) as [c Ec]; [lia|]. destruct (aget_in mem (from + j)) as [x Ex]; [lia|].
  rewrite Ec, Ex. cbn [mbind option_bind]. by eexists.
Qed.

Lemma Resample48khzTo32khz_safe mem inp out K :
  0 <= K -> 0 <= inp -> inp + 3 * K + 6 <= zlen mem -> 0 <= out -> out + 2 * K <= zlen mem ->
  exists mem', Resample48khzTo32khz mem inp out K = Some mem' /\ zlen mem' = zlen mem.
Proof.
  intros HK Hi Hi2 Ho Ho2. unfold Resample48khzTo32khz. apply for_loop_to; [done|].
  intros m mem0 Hm Hz. cbn [aget kCoefficients48To32 mbind option_bind].
  change (aget kCoefficients48To32 0) with (Some [778; -2050; 1087; 23285; 12903; -3783; 441; 222]).
  change (aget kCoefficients48To32 1) with (Some [222; 441; -3783; 12903; 23285; 1087; -2050; 778]).
  cbn [mbind option_bind].
  destruct (inner_product_safe [778; -2050; 1087; 23285; 12903; -3783; 441; 222] mem0 (inp + 3 * m)) as [y Ey];
    [done|lia|lia|]. rewrite (bind_eq _ _ _ Ey).
  destruct (aset_zlen mem0 (out + 2 * m) y (zlen mem) Hz) as (mem1 & E1 & H1); [lia|]. rewrite (bind_eq _ _ _ E1).
  destruct (inner_product_safe [222; 441; -3783; 12903; 23285; 1087; -2050; 778] mem1 (inp + 3 * m + 1)) as [y2 Ey2];
    [done|lia|lia|]. rewrite (bind_eq _ _ _ Ey2).
  apply aset_zlen; [done|lia].
Qed.

Lemma Resample32khzTo24khz_safe mem inp out K :
  0 <= K -> 0 <= inp -> inp + 4 * K + 6 <= zlen mem -> 0 <= out -> out + 3 * K <= zlen mem ->
  exists mem', Resample32khzTo24khz mem inp out K = Some mem' /\ zlen mem' = zlen mem.
Proof.
  intros HK Hi Hi2 Ho Ho2. unfold Resample32khzTo24khz. apply for_loop_to; [done|].
  intros m mem0 Hm Hz.
  change (aget kCoefficients32To24 0) with (Some [767; -2362; 2434; 24406; 10620; -3838; 721; 90]).
  change (aget kCoefficients32To24 1) with (Some [386; -381; -2646; 19062; 19062; -2646; -381; 386]).
  change (aget kCoefficients32To24 2) with (Some [90; 721; -3838; 10620; 24406; 2434; -2362; 767]).
  cbn [mbind option_bind].
  destruct (inner_product_safe [767; -2362; 2434; 24406; 10620; -3838; 721; 90] mem0 (inp + 4 * m)) as [y Ey];
    [done|lia|lia|]. rewrite (bind_eq _ _ _ Ey).
  destruct (aset_zlen mem0 (out + 3 * m) y (zlen mem) Hz) as (mem1 & E1 & H1); [lia|]. rewrite (bind_eq _ _ _ E1).
  destruct (inner_product_safe [386; -381; -2646; 19062; 19062; -2646; -381; 386] mem1 (inp + 4 * m + 1)) as [y2 Ey2];
    [done|lia|lia|]. rewrite (bind_eq _ _ _ Ey2).
  destruct (aset_zlen mem1 (out + 3 * m + 1) y2 (zlen mem) H1) as (mem2 & E2 & H2); [lia|]. rewrite (bind_eq _ _ _ E2).
  destruct (inner_product_safe [90; 721; -3838; 10620; 24406; 2434; -2362; 767] mem2 (inp + 4 * m + 2)) as [y3 Ey3];
    [done|lia|lia|]. rewrite (bind_eq _ _ _ Ey3).
  apply aset_zlen; [done|lia].
Qed.

Lemma swap_history_safe mem hist lo hi :
  zlen hist = 8 -> 0 <= lo -> lo + 8 <= zlen mem -> 0 <= hi -> hi + 8 <= zlen mem ->
  exists mem' hist', swap_history mem hist lo hi = Some (mem', hist') /\ zlen mem' = zlen mem /\ zlen hist' = 8.
Proof.
  intros Hh Hlo Hlo2 Hhi Hhi2. unfold swap_history.
  destruct (astore_in mem hist lo) as (mem' & E & Hz); [lia|lia|]. rewrite (bind_eq _ _ _ E).
  assert (Hl : exists h, aload mem' hi 8 = Some h) by (rewrite aload_in by lia; by eexists).
  destruct Hl as (h & Eh). rewrite (bind_eq _ _ _ Eh). exists mem', h. split; [done|]. split; [done|].
  apply aload_length in Eh. lia.
Qed.

(** The sizes of the filter states. *)
Definition state_48_16_ok (s : State48khzTo16khz) : Prop :=
  zlen (S_48_48 s) = 16 /\ zlen (S_48_32 s) = 8 /\ zlen (S_32_16 s) = 8.
Definition state_16_48_ok (s : State16khzTo48khz) : Prop :=
  zlen (S_16_32 s) = 8 /\ zlen (S_32_24 s) = 8 /\ zlen (S16_24_48 s) = 8.
Definition state_48_8_ok (s : State48khzTo8khz) : Prop :=
  zlen (S_48_24 s) = 8 /\ zlen (S_24_24 s) = 16 /\ zlen (S_24_16 s) = 8 /\ zlen (S_16_8 s) = 8.
Definition state_8_48_ok (s : State8khzTo48khz) : Prop :=
  zlen (S_8_16 s) = 8 /\ zlen (S_16_12 s) = 8 /\ zlen (S_12_24 s) = 8 /\ zlen (S8_24_48 s) = 8.

Lemma Resample48khzTo8khz_safe inp out ofs state tmpmem :
  480 <= zlen inp -> 496 <= zlen tmpmem -> 0 <= ofs -> ofs + 80 <= zlen out -> state_48_8_ok state ->
  exists out' state' tmpmem', Resample48khzTo8khz inp out ofs state tmpmem = Some (out', state', tmpmem') /\
    zlen out' = zlen out /\ state_48_8_ok state' /\ zlen tmpmem' = zlen tmpmem.
Proof.
  intros Hi Ht Ho Ho2 (H1 & H2 & H3 & H4). unfold Resample48khzTo8khz.
  destruct (DownBy2ShortToInt_safe inp 480 tmpmem 256 (S_48_24 state)) as (m1 & s1 & E1 & Z1 & L1);
    [lia|lia|change (Z.shiftr 480 1) with 240; lia|done|]. rewrite (bind_eq _ _ _ E1). cbn [fst snd].
  unfold LPBy2IntToInt.
  destruct (lp_by_2_safe 240 16 (fun mem i => aget mem (256 + i)) m1 (S_24_24 state)) as (m2 & s2 & E2 & Z2 & L2);
    [lia|lia|lia|done|intros; apply aget_in; lia|]. rewrite (bind_eq _ _ _ E2). cbn [fst snd].
  destruct (swap_history_safe m2 (S_24_16 state) 8 248) as (m3 & h & E3 & Z3 & L3); [done|lia|lia|lia|lia|].
  rewrite (bind_eq _ _ _ E3). cbn [fst snd].
  destruct (Resample48khzTo32khz_safe m3 8 0 80) as (m4 & E4 & Z4); [lia|lia|lia|lia|lia|]. rewrite (bind_eq _ _ _ E4).
  destruct (DownBy2IntToShort_safe m4 0 160 out ofs (S_16_8 state)) as (m5 & o & s5 & E5 & Z5 & Zo & L5);
    [lia|done|lia|lia|lia|change (160 / 2) with 80; lia|done|]. rewrite (bind_eq _ _ _ E5). cbn [fst snd].
  eexists _, _, _. split; [reflexivity|]. split; [done|]. split; [by repeat split|lia].
Qed.

Lemma Resample48khzTo16khz_safe inp out state tmpmem :
  480 <= zlen inp -> 496 <= zlen tmpmem -> 160 <= zlen out -> state_48_16_ok state ->
  exists out' state' tmpmem', Resample48khzTo16khz inp out state tmpmem = Some (out', state', tmpmem') /\
    zlen out' = zlen out /\ state_48_16_ok state' /\ zlen tmpmem' = zlen tmpmem.
Proof.
  intros Hi Ht Ho (H1 & H2 & H3). unfold Resample48khzTo16khz, LPBy2ShortToInt.
  destruct (lp_by_2_safe 480 16 (fun _ i => x ← aget inp i; Some (widen x)) tmpmem (S_48_48 state)) as (m1 & s1 & E1 & Z1 & L1);
    [lia|lia|lia|done|in_bounds|]. rewrite (bind_eq _ _ _ E1). cbn [fst snd].
  destruct (swap_history_safe m1 (S_48_32 state) 8 488) as (m3 & h & E3 & Z3 & L3); [done|lia|lia|lia|lia|].
  rewrite (bind_eq _ _ _ E3). cbn [fst snd].
  destruct (Resample48khzTo32khz_safe m3 8 0 160) as (m4 & E4 & Z4); [lia|lia|lia|lia|lia|]. rewrite (bind_eq _ _ _ E4).
  destruct (DownBy2IntToShort_safe m4 0 320 out 0 (S_32_16 state)) as (m5 & o & s5 & E5 & Z5 & Zo & L5);
    [lia|done|lia|lia|lia|change (320 / 2) with 160; lia|done|]. rewrite (bind_eq _ _ _ E5). cbn [fst snd].
  eexists _, _, _. split; [reflexivity|]. split; [done|]. split; [by repeat split|lia].
Qed.

Lemma Resample16khzTo48khz_safe inp out state tmpmem :
  160 <= zlen inp -> 336 <= zlen tmpmem -> 480 <= zlen out -> state_16_48_ok state ->
  exists out' state' tmpmem', Resample16khzTo48khz inp out state tmpmem = Some (out', state', tmpmem') /\
    zlen out' = zlen out /\ state_16_48_ok state' /\ zlen tmpmem' = zlen tmpmem.
Proof.
  intros Hi Ht Ho (H1 & H2 & H3). unfold Resample16khzTo48khz.
  destruct (UpBy2ShortToInt_safe inp 160 tmpmem 16 (S_16_32 state)) as (m1 & s1 & E1 & Z1 & L1);
    [lia|lia|lia|done|]. rewrite (bind_eq _ _ _ E1). cbn [fst snd].
  destruct (swap_history_safe m1 (S_32_24 state) 8 328) as (m3 & h & E3 & Z3 & L3); [done|lia|lia|lia|lia|].
  rewrite (bind_eq _ _ _ E3). cbn [fst snd].
  destruct (Resample32khzTo24khz_safe m3 8 0 80) as (m4 & E4 & Z4); [lia|lia|lia|lia|lia|]. rewrite (bind_eq _ _ _ E4).
  destruct (UpBy2IntToShort_safe m4 0 240 out (S16_24_48 state)) as (o & s5 & E5 & Zo & L5);
    [lia|lia|lia|lia|done|]. rewrite (bind_eq _ _ _ E5). cbn [fst snd].
  eexists _, _, _. split; [reflexivity|]. split; [done|]. split; [by repeat split|lia].
Qed.

Lemma Resample8khzTo48khz_safe inp out state tmpmem :
  80 <= zlen inp -> 424 <= zlen tmpmem -> 480 <= zlen out -> state_8_48_ok state ->
  exists out' state' tmpmem', Resample8khzTo48khz inp out state tmpmem = Some (out', state', tmpmem') /\
    zlen out' = zlen out /\ state_8_48_ok state' /\ zlen tmpmem' = zlen tmpmem.
Proof.
  intros Hi Ht Ho (H1 & H2 & H3 & H4). unfold Resample8khzTo48khz.
  destruct (UpBy2ShortToInt_safe inp 80 tmpmem 264 (S_8_16 state)) as (m1 & s1 & E1 & Z1 & L1);
    [lia|lia|lia|done|]. rewrite (bind_eq _ _ _ E1). cbn [fst snd].
  destruct (swap_history_safe m1 (S_16_12 state) 256 416) as (m3 & h & E3 & Z3 & L3); [done|lia|lia|lia|lia|].
  rewrite (bind_eq _ _ _ E3). cbn [fst snd].
  destruct (Resample32khzTo24khz_safe m3 256 240 40) as (m4 & E4 & Z4); [lia|lia|lia|lia|lia|]. rewrite (bind_eq _ _ _ E4).
  destruct (UpBy2IntToInt_safe m4 240 120 0 (S_12_24 state)) as (m5 & s5 & E5 & Z5 & L5); [lia|lia|lia|lia|lia|done|].
  rewrite (bind_eq _ _ _ E5). cbn [fst snd].
  destruct (UpBy2IntToShort_safe m5 0 240 out (S8_24_48 state)) as (o & s6 & E6 & Zo & L6);
    [lia|lia|lia|lia|done|]. rewrite (bind_eq _ _ _ E6). cbn [fst snd].
  eexists _, _, _. split; [reflexivity|]. split; [done|]. split; [by repeat split|lia].
Qed.
