(* ===== verification/Vad.v ===== *)
(** The voice activity detector: [common_audio/vad/]: [webrtc_vad.c],
    [vad_core.c], [vad_filterbank.c], [vad_gmm.c], [vad_sp.c].  A frame of 10, 20
    or 30 ms is brought to 8 kHz, split into six bands whose energies in dB are
    the features, and classified by two Gaussian mixtures that adapt. *)
From S2P Require Import Prelude SplMath Resample.

Definition kNumChannels : Z := 6.
Definition kNumGaussians : Z := 2.
Definition kMinEnergy : Z := 10.

Definition kSpectrumWeight : list Z := [6; 8; 10; 12; 14; 16].
Definition kNoiseUpdateConst : Z := 655.
Definition kSpeechUpdateConst : Z := 6554.
Definition kBackEta : Z := 154.
Definition kMinimumDifference : list Z := [544; 544; 576; 576; 576; 576].
Definition kMaximumSpeech : list Z := [11392; 11392; 11520; 11520; 11520; 11520].
Definition kMinimumMean : list Z := [640; 768].
Definition kMaximumNoise : list Z := [9216; 9088; 8960; 8832; 8704; 8576].
Definition kNoiseDataWeights : list Z := [34; 62; 72; 66; 53; 25; 94; 66; 56; 62; 75; 103].
Definition kSpeechDataWeights : list Z := [48; 82; 45; 87; 50; 47; 80; 46; 83; 41; 78; 81].
Definition kNoiseDataMeans : list Z := [6738; 4892; 7065; 6715; 6771; 3369; 7646; 3863; 7820; 7266; 5020; 4362].
Definition kSpeechDataMeans : list Z :=
  [8306; 10085; 10078; 11823; 11843; 6309; 9473; 9571; 10879; 7581; 8180; 7483].
Definition kNoiseDataStds : list Z := [378; 1064; 493; 582; 688; 593; 474; 697; 475; 688; 421; 455].
Definition kSpeechDataStds : list Z := [555; 505; 567; 524; 585; 1231; 509; 828; 492; 1540; 1079; 850].
Definition kMaxSpeechFrames : Z := 6.
Definition kMinStd : Z := 384.
Definition kDefaultMode : Z := 0.
Definition kInitCheck : Z := 42.

(** The instance; [downsampling_filter_states] is cut into its two halves. *)
Record VadInst := mkVad {
  v_vad : Z;
  v_down_8 : list Z;
  v_down_16 : list Z;
  v_state_48_to_8 : State48khzTo8khz;
  v_noise_means : list Z;
  v_speech_means : list Z;
  v_noise_stds : list Z;
  v_speech_stds : list Z;
  v_frame_counter : Z;
  v_over_hang : Z;
  v_num_of_speech : Z;
  v_index_vector : list Z;
  v_low_value_vector : list Z;
  v_mean_value : list Z;
  v_upper_state : list Z;
  v_lower_state : list Z;
  v_hp_filter_state : list Z;
  v_over_hang_max_1 : list Z;
  v_over_hang_max_2 : list Z;
  v_individual : list Z;
  v_total : list Z;
  v_init_flag : Z;
}.
#[export] Instance eta_vad : Eta VadInst :=
  fun r => mkVad (v_vad r) (v_down_8 r) (v_down_16 r) (v_state_48_to_8 r) (v_noise_means r) (v_speech_means r)
    (v_noise_stds r) (v_speech_stds r) (v_frame_counter r) (v_over_hang r) (v_num_of_speech r) (v_index_vector r)
    (v_low_value_vector r) (v_mean_value r) (v_upper_state r) (v_lower_state r) (v_hp_filter_state r)
    (v_over_hang_max_1 r) (v_over_hang_max_2 r) (v_individual r) (v_total r) (v_init_flag r).

(** [WEBRTC_SPL_MUL_16_16] and [WEBRTC_SPL_MUL_16_16_RSFT]. *)
Definition mul_16_16 (a b : Z) : Z := s16 a * s16 b.
Definition mul_16_16_rsft (a b c : Z) : Z := Z.shiftr (mul_16_16 a b) c.

(** ** [vad_sp.c] *)

Definition kAllPassCoefsQ13 : Z * Z := (5243, 1392).
Definition kSmoothingDown : Z := 6553.
Definition kSmoothingUp : Z := 32439.

(** The output and the filter state; the output memory is [signal_out]. *)
Definition Downsampling (signal_in signal_out filter_state : list Z) (in_length : Z)
    : option (list Z * list Z) :=
  t1 ← aget filter_state 0;
  t2 ← aget filter_state 1;
  r ← for_loop (Z.to_nat (Z.shiftr in_length 1)) 0 (fun n st =>
        let '(out, tmp32_1, tmp32_2) := st in
        x ← aget signal_in (2 * n);
        let tmp16_1 := s16 (Z.shiftr tmp32_1 1 + mul_16_16_rsft kAllPassCoefsQ13.1 x 14) in
        out ← aset out n tmp16_1;
        let tmp32_1 := s32 (x - mul_16_16_rsft kAllPassCoefsQ13.1 tmp16_1 12) in
        x ← aget signal_in (2 * n + 1);
        let tmp16_2 := s16 (Z.shiftr tmp32_2 1 + mul_16_16_rsft kAllPassCoefsQ13.2 x 14) in
        o ← aget out n;
        out ← aset out n (s16 (o + tmp16_2));
        let tmp32_2 := s32 (x - mul_16_16_rsft kAllPassCoefsQ13.2 tmp16_2 12) in
        Some (out, tmp32_1, tmp32_2)) (signal_out, t1, t2);
  let '(out, t1, t2) := r in
  filter_state ← aset filter_state 0 t1;
  filter_state ← aset filter_state 1 t2;
  Some (out, filter_state).

(** What C leaves open, for one call: the age and the value behind the last entry
    of [index_vector] and of [low_value_vector], which is no element of the arrays
    ([None] where the access fails), and what a shift by a count outside of 0 to 31
    gives. *)
Record Machine := mkMachine { m_past : option (Z * Z); m_shift : Z -> Z -> Z }.

(** Removal of entry [i] of the sixteen entries of a channel: the entries above
    move down by one, the last one from behind them ([next]); it is then
    overwritten. *)
Definition remove_entry (v : list Z) (i next fill : Z) : option (list Z) :=
  v ← astore v i (drop (Z.to_nat (i + 1)) (v ++ [next]));
  aset v 15 fill.

(** Aging of all entries; [next] is the age and the value behind them, which are
    read when an entry is removed. *)
Definition age_entries (next : option (Z * Z)) (age smallest_values : list Z) : option (list Z * list Z) :=
  for_loop 16 0 (fun i st =>
    let '(age, smallest_values) := st in
    a ← aget age i;
    if negb (a =? 100) then age ← aset age i (s16 (a + 1)); Some (age, smallest_values)
    else
      p ← next;
      smallest_values ← remove_entry smallest_values i p.2 10000;
      age ← remove_entry age i p.1 101;
      Some (age, smallest_values)) (age, smallest_values).

(** The position of a new value, -1 when it is not among the smallest. *)
Definition find_position (f : Z) (v : Z -> Z) : Z :=
  if f <? v 7 then
    if f <? v 3 then
      if f <? v 1 then
        if f <? v 0 then 0 else 1
      else if f <? v 2 then 2 else 3
    else if f <? v 5 then
      if f <? v 4 then 4 else 5
    else if f <? v 6 then 6 else 7
  else if f <? v 15 then
    if f <? v 11 then
      if f <? v 9 then
        if f <? v 8 then 8 else 9
      else if f <? v 10 then 10 else 11
    else if f <? v 13 then
      if f <? v 12 then 12 else 13
    else if f <? v 14 then 14 else 15
  else -1.

(** A new entry, the larger ones move up. *)
Definition insert_entry (v : list Z) (position x : Z) : option (list Z) :=
  up ← aload v position (15 - position);
  v ← astore v (position + 1) up;
  aset v position x.

Definition smooth_median (frame_counter current_median mean : Z) : Z :=
  let alpha := if 0 <? frame_counter then
                 if current_median <? mean then kSmoothingDown else kSmoothingUp
               else 0 in
  let tmp32 := mul_16_16 (alpha + 1) mean in
  let tmp32 := s32 (tmp32 + mul_16_16 (WORD16_MAX - alpha) current_median) in
  s16 (Z.shiftr (s32 (tmp32 + 16384)) 15).

(** What lies behind the sixteen entries of a channel: the first entry of the next
    channel; behind those of the last channel the arrays end. *)
Definition behind (mc : Machine) (self : VadInst) (offset : Z) : option (Z * Z) :=
  if offset + 16 <? zlen (v_index_vector self) then
    next_value ← aget (v_low_value_vector self) (offset + 16);
    next_age ← aget (v_index_vector self) (offset + 16);
    Some (next_age, next_value)
  else m_past mc.

Definition FindMinimum (mc : Machine) (self : VadInst) (feature_value channel : Z) : option (Z * VadInst) :=
  let offset := Z.shiftl channel 4 in
  age ← aload (v_index_vector self) offset 16;
  smallest_values ← aload (v_low_value_vector self) offset 16;
  st ← age_entries (behind mc self offset) age smallest_values;
  let '(age, smallest_values) := st in
  let position := find_position feature_value (fun k => default 0 (aget smallest_values k)) in
  st ← (if -1 <? position then
          smallest_values ← insert_entry smallest_values position feature_value;
          age ← insert_entry age position 1;
          Some (age, smallest_values)
        else Some (age, smallest_values));
  let '(age, smallest_values) := st in
  v0 ← aget smallest_values 0;
  v2 ← aget smallest_values 2;
  let current_median := if 2 <? v_frame_counter self then v2
                        else if 0 <? v_frame_counter self then v0 else 1600 in
  mean ← aget (v_mean_value self) channel;
  let mean := smooth_median (v_frame_counter self) current_median mean in
  ages ← astore (v_index_vector self) offset age;
  values ← astore (v_low_value_vector self) offset smallest_values;
  means ← aset (v_mean_value self) channel mean;
  Some (mean, self <| v_index_vector := ages |> <| v_low_value_vector := values |> <| v_mean_value := means |>).

(** ** [vad_gmm.c] *)

Definition kCompVar : Z := 22005.
Definition kLog2Exp : Z := 5909.

(** A right shift of an [int] by a computed amount. *)
Definition shift_by (mc : Machine) (x n : Z) : Z :=
  if (0 <=? n) && (n <=? 31) then Z.shiftr x n else m_shift mc x n.

(** The exponential, in Q10, of a negative exponent given in Q10. *)
Definition exp_q10 (mc : Machine) (tmp32 : Z) : Z :=
  if tmp32 <? kCompVar then
    let tmp16 := s16 (mul_16_16_rsft kLog2Exp (s16 tmp32) 12) in
    let tmp16 := s16 (- tmp16) in
    let exp_value := s16 (Z.lor 0x0400 (Z.land tmp16 0x03FF)) in
    let tmp16 := s16 (Z.lxor tmp16 0xFFFF) in
    let tmp16 := Z.shiftr tmp16 10 in
    let tmp16 := s16 (tmp16 + 1) in
    s16 (shift_by mc exp_value tmp16)
  else 0.

(** Probability (Q20) and [*delta] (Q11). *)
Definition GaussianProbability (mc : Machine) (input mean std : Z) : Z * Z :=
  let tmp32 := 131072 + Z.shiftr std 1 in
  let inv_std := s16 (DivW32W16 tmp32 std) in
  let tmp16 := Z.shiftr inv_std 2 in
  let inv_std2 := s16 (mul_16_16_rsft tmp16 tmp16 2) in
  let tmp16 := s16 (Z.shiftl input 3) in
  let tmp16 := s16 (tmp16 - mean) in
  let delta := s16 (mul_16_16_rsft inv_std2 tmp16 10) in
  let tmp32 := mul_16_16_rsft delta tmp16 9 in
  (mul_16_16 inv_std (exp_q10 mc tmp32), delta).

(** ** [vad_filterbank.c] *)

Definition kLogConst : Z := 24660.
Definition kLogEnergyIntPart : Z := 14336.
Definition kHpZeroCoefs : Z * Z * Z := (6631, -13262, 6631).
Definition kHpPoleCoefs : Z * Z * Z := (16384, -7756, 5620).
Definition kAllPassCoefsQ15 : Z * Z := (20972, 5571).
Definition kOffsetVector : list Z := [368; 368; 272; 176; 176; 176].

(** Output memory and filter state. *)
Definition HighPassFilter (data_in : list Z) (data_length : Z) (filter_state data_out : list Z)
    : option (list Z * list Z) :=
  let '(z0, z1, z2) := kHpZeroCoefs in
  let '(_, p1, p2) := kHpPoleCoefs in
  for_loop (Z.to_nat data_length) 0 (fun i st =>
    let '(out, filter_state) := st in
    x ← aget data_in i;
    f0 ← aget filter_state 0; f1 ← aget filter_state 1; f2 ← aget filter_state 2; f3 ← aget filter_state 3;
    let tmp32 := mul_16_16 z0 x in
    let tmp32 := s32 (tmp32 + mul_16_16 z1 f0) in
    let tmp32 := s32 (tmp32 + mul_16_16 z2 f1) in
    filter_state ← aset filter_state 1 f0;
    filter_state ← aset filter_state 0 x;
    let tmp32 := s32 (tmp32 - mul_16_16 p1 f2) in
    let tmp32 := s32 (tmp32 - mul_16_16 p2 f3) in
    filter_state ← aset filter_state 3 f2;
    let y := s16 (Z.shiftr tmp32 14) in
    filter_state ← aset filter_state 2 y;
    out ← aset out i y;
    Some (out, filter_state)) (data_out, filter_state).

(** Every other sample from [first] on; output memory and filter state. *)
Definition AllPassFilter (data_in : list Z) (first data_length filter_coefficient filter_state : Z)
    (data_out : list Z) : option (list Z * Z) :=
  r ← for_loop (Z.to_nat data_length) 0 (fun i st =>
        let '(out, state32) := st in
        x ← aget data_in (first + 2 * i);
        let tmp32 := s32 (state32 + mul_16_16 filter_coefficient x) in
        let tmp16 := s16 (Z.shiftr tmp32 16) in
        out ← aset out i tmp16;
        let state32 := s32 (Z.shiftl x 14) in
        let state32 := s32 (state32 - mul_16_16 filter_coefficient tmp16) in
        let state32 := s32 (Z.shiftl state32 1) in
        Some (out, state32)) (data_out, s32 (Z.shiftl filter_state 16));
  Some (r.1, s16 (Z.shiftr r.2 16)).

(** The filter states are entry [band] of [upper_state] and [lower_state]; the
    results are the two output memories and the states. *)
Definition SplitFilter (data_in : list Z) (data_length band : Z) (upper_state lower_state : list Z)
    (hp_data_out lp_data_out : list Z) : option (list Z * list Z * list Z * list Z) :=
  let half_length := Z.shiftr data_length 1 in
  u ← aget upper_state band;
  a ← AllPassFilter data_in 0 half_length kAllPassCoefsQ15.1 u hp_data_out;
  upper_state ← aset upper_state band a.2;
  l ← aget lower_state band;
  b ← AllPassFilter data_in 1 half_length kAllPassCoefsQ15.2 l lp_data_out;
  lower_state ← aset lower_state band b.2;
  r ← for_loop (Z.to_nat half_length) 0 (fun i st =>
        let '(hp, lp) := st in
        tmp_out ← aget hp i;
        y ← aget lp i;
        hp ← aset hp i (s16 (tmp_out - y));
        lp ← aset lp i (s16 (y + tmp_out));
        Some (hp, lp)) (a.1, b.1);
  Some (r.1, r.2, upper_state, lower_state).

(** [*log_energy] and [*total_energy]. *)
Definition LogOfEnergy (data_in : list Z) (data_length offset total_energy : Z) : option (Z * Z) :=
  data ← aload data_in 0 data_length;
  let '(energy, tot_rshifts) := Energy data in
  let energy := u32 energy in
  if negb (energy =? 0) then
    let normalizing_rshifts := 17 - NormU32 energy in
    let tot_rshifts := tot_rshifts + normalizing_rshifts in
    let energy := if normalizing_rshifts <? 0 then u32 (Z.shiftl energy (- normalizing_rshifts))
                  else Z.shiftr energy normalizing_rshifts in
    let log2_energy := s16 (kLogEnergyIntPart + s16 (Z.shiftr (Z.land energy 0x00003FFF) 4)) in
    let log_energy := s16 (mul_16_16_rsft kLogConst log2_energy 19 + mul_16_16_rsft tot_rshifts kLogConst 9) in
    let log_energy := if log_energy <? 0 then 0 else log_energy in
    let log_energy := s16 (log_energy + offset) in
    let total_energy :=
      if total_energy <=? kMinEnergy then
        if 0 <=? tot_rshifts then s16 (total_energy + (kMinEnergy + 1))
        else s16 (total_energy + s16 (Z.shiftr energy (- tot_rshifts)))
      else total_energy in
    Some (log_energy, total_energy)
  else Some (offset, total_energy).

(** Total energy, features and instance; [m120] and [m60] stand for the
    uninitialised local arrays. *)
Definition CalculateFeatures (self : VadInst) (data_in : list Z) (data_length : Z)
    (m120 m60 : list Z) (features : list Z) : option (Z * list Z * VadInst) :=
  let half_data_length := Z.shiftr data_length 1 in
  let length := half_data_length in
  o0 ← aget kOffsetVector 0; o1 ← aget kOffsetVector 1; o2 ← aget kOffsetVector 2;
  o3 ← aget kOffsetVector 3; o4 ← aget kOffsetVector 4; o5 ← aget kOffsetVector 5;
  s ← SplitFilter data_in data_length 0 (v_upper_state self) (v_lower_state self) m120 m120;
  let '(hp_120, lp_120, up, lo) := s in
  s ← SplitFilter hp_120 length 1 up lo m60 m60;
  let '(hp_60, lp_60, up, lo) := s in
  let length := Z.shiftr length 1 in
  e ← LogOfEnergy hp_60 length o5 0;
  features ← aset features 5 e.1;
  e ← LogOfEnergy lp_60 length o4 e.2;
  features ← aset features 4 e.1;
  let length := half_data_length in
  s ← SplitFilter lp_120 length 2 up lo hp_60 lp_60;
  let '(hp_60, lp_60, up, lo) := s in
  let length := Z.shiftr length 1 in
  e ← LogOfEnergy hp_60 length o3 e.2;
  features ← aset features 3 e.1;
  s ← SplitFilter lp_60 length 3 up lo hp_120 lp_120;
  let '(hp_120, lp_120, up, lo) := s in
  let length := Z.shiftr length 1 in
  e ← LogOfEnergy hp_120 length o2 e.2;
  features ← aset features 2 e.1;
  s ← SplitFilter lp_120 length 4 up lo hp_60 lp_60;
  let '(hp_60, lp_60, up, lo) := s in
  let length := Z.shiftr length 1 in
  e ← LogOfEnergy hp_60 length o1 e.2;
  features ← aset features 1 e.1;
  h ← HighPassFilter lp_60 length (v_hp_filter_state self) hp_120;
  e ← LogOfEnergy h.1 length o0 e.2;
  features ← aset features 0 e.1;
  Some (e.2, features, self <| v_upper_state := up |> <| v_lower_state := lo |> <| v_hp_filter_state := h.2 |>).

(** ** [vad_core.c] *)

(** [data] begins at entry [channel]; average and data. *)
Definition WeightedAverage (data : list Z) (channel offset : Z) (weights : list Z) : option (Z * list Z) :=
  for_loop (Z.to_nat kNumGaussians) 0 (fun k st =>
    let '(average, data) := st in
    d ← aget data (channel + k * kNumChannels);
    let d := s16 (d + offset) in
    data ← aset data (channel + k * kNumChannels) d;
    w ← aget weights (channel + k * kNumChannels);
    Some (s32 (average + d * w), data)) (0, data).

(** The local arrays of [GmmProbability]. *)
Record Gmm := mkGmm {
  g_vadflag : Z;
  g_sum : Z;
  g_deltaN : list Z;
  g_deltaS : list Z;
  g_ngprvec : list Z;
  g_sgprvec : list Z;
}.
#[export] Instance eta_gmm : Eta Gmm :=
  fun r => mkGmm (g_vadflag r) (g_sum r) (g_deltaN r) (g_deltaS r) (g_ngprvec r) (g_sgprvec r).

(** The probabilities of the two Gaussians of a model: the values, their sum
    and the deltas. *)
Definition mixture (mc : Machine) (channel feature : Z) (means stds weights deltas : list Z)
    : option (Z * Z * Z * list Z) :=
  w0 ← aget weights channel; m0 ← aget means channel; s0 ← aget stds channel;
  let p := GaussianProbability mc feature m0 s0 in
  let prob0 := s32 (w0 * p.1) in
  deltas ← aset deltas channel p.2;
  w1 ← aget weights (channel + kNumChannels);
  m1 ← aget means (channel + kNumChannels); s1 ← aget stds (channel + kNumChannels);
  let q := GaussianProbability mc feature m1 s1 in
  let prob1 := s32 (w1 * q.1) in
  deltas ← aset deltas (channel + kNumChannels) q.2;
  Some (prob0, prob1, s32 (s32 (0 + prob0) + prob1), deltas).

(** The conditional probabilities of the two Gaussians. *)
Definition conditional (channel prob0 test : Z) (low : option Z) (prvec : list Z) : option (list Z) :=
  let h := s16 (Z.shiftr test 12) in
  if 0 <? h then
    let tmp1_s32 := s32 (u32 (Z.shiftl (Z.land (u32 prob0) 0xFFFFF000) 2)) in
    let p := s16 (DivW32W16 tmp1_s32 h) in
    prvec ← aset prvec channel p;
    aset prvec (channel + kNumChannels) (s16 (16384 - p))
  else match low with
       | Some p => aset prvec channel p
       | None => Some prvec
       end.

(** The log likelihood ratio of a band, and its part in the decision. *)
Definition gmm_band (mc : Machine) (self : VadInst) (features : list Z) (individualTest : Z) (channel : Z) (g : Gmm) : option Gmm :=
  feature ← aget features channel;
  n ← mixture mc channel feature (v_noise_means self) (v_noise_stds self) kNoiseDataWeights (g_deltaN g);
  let '(n0, _, h0_test, deltaN) := n in
  s ← mixture mc channel feature (v_speech_means self) (v_speech_stds self) kSpeechDataWeights (g_deltaS g);
  let '(p0, _, h1_test, deltaS) := s in
  let shifts_h0 := if h0_test =? 0 then 31 else NormW32 h0_test in
  let shifts_h1 := if h1_test =? 0 then 31 else NormW32 h1_test in
  let log_likelihood_ratio := s16 (shifts_h0 - shifts_h1) in
  w ← aget kSpectrumWeight channel;
  let sum := s32 (g_sum g + log_likelihood_ratio * w) in
  let vadflag := if individualTest <? Z.shiftl log_likelihood_ratio 2 then 1 else g_vadflag g in
  ngprvec ← conditional channel n0 h0_test (Some 16384) (g_ngprvec g);
  sgprvec ← conditional channel p0 h1_test None (g_sgprvec g);
  Some (mkGmm vadflag sum deltaN deltaS ngprvec sgprvec).

(** The new noise mean of a Gaussian. *)
Definition next_noise_mean (vadflag nmk ngpr deltaN feature_minimum tmp1_s16 k channel : Z) : Z :=
  let nmk2 := if vadflag =? 0 then
                let delt := s16 (mul_16_16_rsft ngpr deltaN 11) in
                s16 (nmk + s16 (mul_16_16_rsft delt kNoiseUpdateConst 22))
              else nmk in
  let ndelt := s16 (Z.shiftl feature_minimum 4 - tmp1_s16) in
  let nmk3 := s16 (nmk2 + s16 (mul_16_16_rsft ndelt kBackEta 9)) in
  let low := s16 (Z.shiftl (k + 5) 7) in
  let nmk3 := if nmk3 <? low then low else nmk3 in
  let high := s16 (Z.shiftl (72 + k - channel) 7) in
  if high <? nmk3 then high else nmk3.

Definition next_speech_mean (smk sgpr deltaS maxspe minimum : Z) : Z :=
  let delt := s16 (mul_16_16_rsft sgpr deltaS 11) in
  let tmp_s16 := s16 (mul_16_16_rsft delt kSpeechUpdateConst 21) in
  let smk2 := s16 (smk + Z.shiftr (tmp_s16 + 1) 1) in
  let maxmu := s16 (maxspe + 640) in
  let smk2 := if smk2 <? minimum then minimum else smk2 in
  if maxmu <? smk2 then maxmu else smk2.

(** A division whose numerator keeps its sign; the denominator is a 16-bit
    parameter. *)
Definition signed_div (num den : Z) : Z :=
  if 0 <? num then s16 (DivW32W16 num (s16 den)) else s16 (- s16 (DivW32W16 (s32 (- num)) (s16 den))).

Definition next_speech_std (ssk smk feature deltaS sgpr : Z) : Z :=
  let tmp_s16 := s16 (Z.shiftr (smk + 4) 3) in
  let tmp_s16 := s16 (feature - tmp_s16) in
  let tmp1_s32 := mul_16_16_rsft deltaS tmp_s16 3 in
  let tmp2_s32 := s32 (tmp1_s32 - 4096) in
  let tmp_s16 := Z.shiftr sgpr 2 in
  let tmp1_s32 := s32 (tmp_s16 * tmp2_s32) in
  let tmp2_s32 := Z.shiftr tmp1_s32 4 in
  let tmp_s16 := signed_div tmp2_s32 (ssk * 10) in
  let tmp_s16 := s16 (tmp_s16 + 128) in
  let ssk := s16 (ssk + Z.shiftr tmp_s16 8) in
  if ssk <? kMinStd then kMinStd else ssk.

Definition next_noise_std (nsk nmk feature deltaN ngpr : Z) : Z :=
  let tmp_s16 := s16 (feature - Z.shiftr nmk 3) in
  let tmp1_s32 := mul_16_16_rsft deltaN tmp_s16 3 in
  let tmp1_s32 := s32 (tmp1_s32 - 4096) in
  let tmp_s16 := s16 (Z.shiftr (ngpr + 2) 2) in
  let tmp2_s32 := s32 (tmp_s16 * tmp1_s32) in
  let tmp1_s32 := Z.shiftr tmp2_s32 14 in
  let tmp_s16 := signed_div tmp1_s32 nsk in
  let tmp_s16 := s16 (tmp_s16 + 32) in
  let nsk := s16 (nsk + Z.shiftr tmp_s16 6) in
  if nsk <? kMinStd then kMinStd else nsk.

(** One Gaussian of one band. *)
Definition gmm_gaussian (g : Gmm) (feature feature_minimum tmp1_s16 maxspe channel k : Z) (self : VadInst)
    : option VadInst :=
  let gaussian := channel + k * kNumChannels in
  nmk ← aget (v_noise_means self) gaussian;
  smk ← aget (v_speech_means self) gaussian;
  nsk ← aget (v_noise_stds self) gaussian;
  ssk ← aget (v_speech_stds self) gaussian;
  ngpr ← aget (g_ngprvec g) gaussian;
  dN ← aget (g_deltaN g) gaussian;
  means ← aset (v_noise_means self) gaussian
            (next_noise_mean (g_vadflag g) nmk ngpr dN feature_minimum tmp1_s16 k channel);
  let self := self <| v_noise_means := means |> in
  if negb (g_vadflag g =? 0) then
    sgpr ← aget (g_sgprvec g) gaussian;
    dS ← aget (g_deltaS g) gaussian;
    minimum ← aget kMinimumMean k;
    means ← aset (v_speech_means self) gaussian (next_speech_mean smk sgpr dS maxspe minimum);
    stds ← aset (v_speech_stds self) gaussian (next_speech_std ssk smk feature dS sgpr);
    Some (self <| v_speech_means := means |> <| v_speech_stds := stds |>)
  else
    stds ← aset (v_noise_stds self) gaussian (next_noise_std nsk nmk feature dN ngpr);
    Some (self <| v_noise_stds := stds |>).

(** [means[channel + k * kNumChannels] -= excess] when the average is too high. *)
Definition limit_means (means : list Z) (channel global_mean maximum : Z) : option (list Z) :=
  let tmp2_s16 := s16 (Z.shiftr global_mean 7) in
  if maximum <? tmp2_s16 then
    let tmp2_s16 := s16 (tmp2_s16 - maximum) in
    for_loop (Z.to_nat kNumGaussians) 0 (fun k means =>
      m ← aget means (channel + k * kNumChannels);
      aset means (channel + k * kNumChannels) (s16 (m - tmp2_s16))) means
  else Some means.

(** The adaptation of a band; [maxspe] is that of the band before. *)
Definition gmm_update (mc : Machine) (features : list Z) (g : Gmm) (channel : Z) (st : VadInst * Z) : option (VadInst * Z) :=
  let '(self, maxspe) := st in
  feature ← aget features channel;
  r ← FindMinimum mc self feature channel;
  let '(feature_minimum, self) := r in
  a ← WeightedAverage (v_noise_means self) channel 0 kNoiseDataWeights;
  let tmp1_s16 := s16 (Z.shiftr a.1 6) in
  let self := self <| v_noise_means := a.2 |> in
  self ← for_loop (Z.to_nat kNumGaussians) 0
           (fun k self => gmm_gaussian g feature feature_minimum tmp1_s16 maxspe channel k self) self;
  n ← WeightedAverage (v_noise_means self) channel 0 kNoiseDataWeights;
  s ← WeightedAverage (v_speech_means self) channel 0 kSpeechDataWeights;
  let diff := s16 (s16 (Z.shiftr s.1 9) - s16 (Z.shiftr n.1 9)) in
  minimum ← aget kMinimumDifference channel;
  r ← (if diff <? minimum then
         let tmp_s16 := s16 (minimum - diff) in
         let tmp1_s16 := s16 (mul_16_16_rsft 13 tmp_s16 2) in
         let tmp2_s16 := s16 (mul_16_16_rsft 3 tmp_s16 2) in
         s ← WeightedAverage s.2 channel tmp1_s16 kSpeechDataWeights;
         n ← WeightedAverage n.2 channel (s16 (- tmp2_s16)) kNoiseDataWeights;
         Some (s, n)
       else Some (s, n));
  let '(s, n) := r in
  maxspe ← aget kMaximumSpeech channel;
  speech ← limit_means s.2 channel s.1 maxspe;
  maximum ← aget kMaximumNoise channel;
  noise ← limit_means n.2 channel n.1 maximum;
  Some (self <| v_speech_means := speech |> <| v_noise_means := noise |>, maxspe).

(** Hysteresis: the decision and the instance. *)
Definition hangover (overhead1 overhead2 vadflag : Z) (self : VadInst) : Z * VadInst :=
  if vadflag =? 0 then
    let '(vadflag, self) :=
      if 0 <? v_over_hang self
      then (s16 (2 + v_over_hang self), self <| v_over_hang := v_over_hang self - 1 |>)
      else (vadflag, self) in
    (vadflag, self <| v_num_of_speech := 0 |>)
  else
    let self := self <| v_num_of_speech := s16 (v_num_of_speech self + 1) |> in
    if kMaxSpeechFrames <? v_num_of_speech self
    then (vadflag, self <| v_num_of_speech := kMaxSpeechFrames |> <| v_over_hang := overhead2 |>)
    else (vadflag, self <| v_over_hang := overhead1 |>).

(** Decision and adaptation of a frame with enough power. *)
Definition gmm_frame (mc : Machine) (self : VadInst) (features : list Z) (individualTest totalTest : Z)
    (deltaN deltaS : list Z) : option (Z * VadInst) :=
  g ← for_loop (Z.to_nat kNumChannels) 0 (gmm_band mc self features individualTest)
        (mkGmm 0 0 deltaN deltaS (replicate 12 0) (replicate 12 0));
  let g := g <| g_vadflag := Z.lor (g_vadflag g) (b2z (totalTest <=? g_sum g)) |> in
  r ← for_loop (Z.to_nat kNumChannels) 0 (gmm_update mc features g) (self, 12800);
  Some (g_vadflag g, r.1 <| v_frame_counter := s32 (v_frame_counter r.1 + 1) |>).

(** [deltaN] and [deltaS] stand for the uninitialised local arrays. *)
Definition GmmProbability (mc : Machine) (self : VadInst) (features : list Z) (total_power frame_length : Z)
    (deltaN deltaS : list Z) : option (Z * VadInst) :=
  let idx := if frame_length =? 80 then 0 else if frame_length =? 160 then 1 else 2 in
  overhead1 ← aget (v_over_hang_max_1 self) idx;
  overhead2 ← aget (v_over_hang_max_2 self) idx;
  individualTest ← aget (v_individual self) idx;
  totalTest ← aget (v_total self) idx;
  r ← (if kMinEnergy <? total_power
       then gmm_frame mc self features individualTest totalTest deltaN deltaS
       else Some (0, self));
  Some (hangover overhead1 overhead2 r.1 r.2).

(** The parameters of the modes: two overhangs, local and global threshold, each
    for frames of 10, 20 and 30 ms. *)
Definition mode_table (mode : Z) : option (list Z * list Z * list Z * list Z) :=
  match mode with
  | 0 => Some ([8; 4; 3], [14; 7; 5], [24; 21; 24], [57; 48; 57])
  | 1 => Some ([8; 4; 3], [14; 7; 5], [37; 32; 37], [100; 80; 100])
  | 2 => Some ([6; 3; 2], [9; 5; 3], [82; 78; 82], [285; 260; 285])
  | 3 => Some ([6; 3; 2], [9; 5; 3], [94; 94; 94], [1100; 1050; 1100])
  | _ => None
  end.

Definition set_mode_core (self : VadInst) (mode : Z) : Z * VadInst :=
  match mode_table mode with
  | Some (o1, o2, i, t) =>
      (0, self <| v_over_hang_max_1 := o1 |> <| v_over_hang_max_2 := o2 |> <| v_individual := i |> <| v_total := t |>)
  | None => (-1, self)
  end.

(** Every field is set, so the old instance does not matter. *)
Definition InitCore (self : VadInst) : Z * VadInst :=
  let self := self
    <| v_vad := 1 |> <| v_frame_counter := 0 |> <| v_over_hang := 0 |> <| v_num_of_speech := 0 |>
    <| v_down_8 := [0; 0] |> <| v_down_16 := [0; 0] |>
    <| v_state_48_to_8 := ResetResample48khzTo8khz |>
    <| v_noise_means := kNoiseDataMeans |> <| v_speech_means := kSpeechDataMeans |>
    <| v_noise_stds := kNoiseDataStds |> <| v_speech_stds := kSpeechDataStds |>
    <| v_low_value_vector := replicate 96 10000 |> <| v_index_vector := replicate 96 0 |>
    <| v_upper_state := replicate 5 0 |> <| v_lower_state := replicate 5 0 |>
    <| v_hp_filter_state := replicate 4 0 |>
    <| v_mean_value := replicate 6 1600 |> in
  let r := set_mode_core self kDefaultMode in
  if negb (r.1 =? 0) then (-1, r.2) else (0, r.2 <| v_init_flag := kInitCheck |>).

(** What a call of the functions below finds: its uninitialised local arrays, and
    what C leaves open. *)
Record Locals := mkLocals {
  l_120 : list Z; l_60 : list Z; l_6 : list Z; l_12 : list Z; l_240 : list Z; l_480 : list Z;
  l_machine : Machine;
}.

Definition CalcVad8khz (loc : Locals) (inst : VadInst) (speech_frame : list Z) (frame_length : Z)
    : option (Z * VadInst) :=
  f ← CalculateFeatures inst speech_frame frame_length (l_120 loc) (l_60 loc) (l_6 loc);
  let '(total_power, feature_vector, inst) := f in
  r ← GmmProbability (l_machine loc) inst feature_vector total_power frame_length (l_12 loc) (l_12 loc);
  Some (r.1, r.2 <| v_vad := r.1 |>).

Definition CalcVad16khz (loc : Locals) (inst : VadInst) (speech_frame : list Z) (frame_length : Z)
    : option (Z * VadInst) :=
  d ← Downsampling speech_frame (l_240 loc) (v_down_8 inst) frame_length;
  CalcVad8khz loc (inst <| v_down_8 := d.2 |>) d.1 (Z.shiftr frame_length 1).

Definition CalcVad32khz (loc : Locals) (inst : VadInst) (speech_frame : list Z) (frame_length : Z)
    : option (Z * VadInst) :=
  w ← Downsampling speech_frame (l_480 loc) (v_down_16 inst) frame_length;
  let inst := inst <| v_down_16 := w.2 |> in
  let len := Z.shiftr frame_length 1 in
  d ← Downsampling w.1 (l_240 loc) (v_down_8 inst) len;
  CalcVad8khz loc (inst <| v_down_8 := d.2 |>) d.1 (Z.shiftr len 1).

Definition CalcVad48khz (loc : Locals) (inst : VadInst) (speech_frame : list Z) (frame_length : Z)
    : option (Z * VadInst) :=
  let num_10ms_frames := Z.quot frame_length 480 in
  r ← for_loop (Z.to_nat num_10ms_frames) 0 (fun i st =>
        let '(nb, state, tmp_mem) := st in
        Resample48khzTo8khz speech_frame nb (i * 80) state tmp_mem)
        (l_240 loc, v_state_48_to_8 inst, replicate 736 0);
  let '(speech_nb, state, _) := r in
  CalcVad8khz loc (inst <| v_state_48_to_8 := state |>) speech_nb (Z.quot frame_length 6).

(** ** [webrtc_vad.c] *)

Definition kValidRates : list Z := [8000; 16000; 32000; 48000].
Definition kMaxFrameLengthMs : Z := 30.

(** [None] is a null pointer; [mem] is what [malloc] returns. *)
Definition Create (handle : option unit) (mem : option VadInst) : Z * option VadInst :=
  match handle, mem with
  | Some _, Some self => (0, Some (self <| v_init_flag := 0 |>))
  | _, _ => (-1, None)
  end.

Definition Init (handle : option VadInst) : Z * option VadInst :=
  match handle with
  | None => (-1, None)
  | Some self => let r := InitCore self in (r.1, Some r.2)
  end.

Definition set_mode (handle : option VadInst) (mode : Z) : Z * option VadInst :=
  match handle with
  | None => (-1, None)
  | Some self =>
      if negb (v_init_flag self =? kInitCheck) then (-1, Some self) else
      let r := set_mode_core self mode in (r.1, Some r.2)
  end.

(** The loop over the frame lengths in ms. *)
Fixpoint valid_length (fuel : nat) (rate ms frame_length : Z) : bool :=
  match fuel with
  | O => false
  | S fuel =>
      if ms <=? kMaxFrameLengthMs then
        (frame_length =? Z.quot rate 1000 * ms) || valid_length fuel rate (ms + 10) frame_length
      else false
  end.

Fixpoint valid_rate (rates : list Z) (rate frame_length : Z) : Z :=
  match rates with
  | [] => -1
  | r :: rates => if r =? rate then (if valid_length 4 r 10 frame_length then 0 else -1)
                  else valid_rate rates rate frame_length
  end.

Definition ValidRateAndFrameLength (rate frame_length : Z) : Z := valid_rate kValidRates rate frame_length.

Definition Process (loc : Locals) (handle : option VadInst) (fs : Z) (audio_frame : option (list Z)) (frame_length : Z)
    : option (Z * option VadInst) :=
  match handle, audio_frame with
  | Some self, Some audio_frame =>
      if negb (v_init_flag self =? kInitCheck) then Some (-1, handle) else
      if negb (ValidRateAndFrameLength fs frame_length =? 0) then Some (-1, handle) else
      r ← (if fs =? 48000 then CalcVad48khz loc self audio_frame frame_length
           else if fs =? 32000 then CalcVad32khz loc self audio_frame frame_length
           else if fs =? 16000 then CalcVad16khz loc self audio_frame frame_length
           else if fs =? 8000 then CalcVad8khz loc self audio_frame frame_length
           else Some (-1, self));
      Some (if 0 <? r.1 then 1 else r.1, Some r.2)
  | _, _ => Some (-1, handle)
  end.
