(* ===== verification/VadMin.v ===== *)
(** The minimum statistics of the voice activity detector ([vad_sp.c]):
    [FindMinimum] keeps the smallest feature values of about the last 100 frames
    of a band, in ascending order, each with its age. *)
From S2P Require Import Prelude SplMath Resample Vad.

(** ** The entries of a channel, as pairs of value and age *)

Definition entries (v : VadInst) (channel : Z) : list (Z * Z) :=
  zip (default [] (aload (v_low_value_vector v) (16 * channel) 16))
      (default [] (aload (v_index_vector v) (16 * channel) 16)).

(** What takes the place of an entry that was removed. *)
Definition no_entry : Z * Z := (10000, 101).

(** Aging: an entry of age 100 is removed; the one that takes its place keeps
    its age, all others grow by one. *)
Fixpoint aged (n : nat) (l : list (Z * Z)) : list (Z * Z) :=
  match n, l with
  | S n, (x, a) :: r =>
      if a =? 100 then match r ++ [no_entry] with y :: r => y :: aged n r | [] => [] end
      else (x, s16 (a + 1)) :: aged n r
  | _, _ => l
  end.

(** Insertion behind the entries that are not larger. *)
Fixpoint insert_by_value (x : Z * Z) (l : list (Z * Z)) : list (Z * Z) :=
  match l with
  | [] => [x]
  | y :: l => if x.1 <? y.1 then x :: y :: l else y :: insert_by_value x l
  end.

(** Ascending 16-bit values, not above the initial value. *)
Definition ascending (l : list Z) : Prop :=
  forall (i j : nat) x y, (i <= j)%nat -> l !! i = Some x -> l !! j = Some y -> x <= y.

Definition low_values (l : list Z) : Prop := ascending l /\ Forall (fun x => -32768 <= x <= 10000) l.

(** ** Removal and insertion in the array *)

Lemma drop_past {A} (l : list A) x r : drop (length l + 1) (l ++ x :: r) = r.
Proof. induction l as [|y l IH]; [done|]. exact IH. Qed.

Lemma take_past {A} (l : list A) x r n : take (length l + S n) (l ++ x :: r) = l ++ x :: take n r.
Proof. induction l as [|y l IH]; [done|]. cbn. f_equal. exact IH. Qed.

Lemma remove_entry_eq done rest x next fill :
  (length done + S (length rest) = 16)%nat ->
  remove_entry (done ++ x :: rest) (Z.of_nat (length done)) next fill = Some (done ++ rest ++ [fill]).
Proof.
  intros Hl. unfold remove_entry.
  assert (E : astore (done ++ x :: rest) (Z.of_nat (length done))
                (drop (Z.to_nat (Z.of_nat (length done) + 1)) ((done ++ x :: rest) ++ [next])) =
              Some (done ++ rest ++ [next])).
  { replace (Z.to_nat (Z.of_nat (length done) + 1)) with (length done + 1)%nat by lia.
    rewrite <-(app_assoc done). cbn [app]. rewrite drop_past.
    destruct (astore_in (done ++ x :: rest) (rest ++ [next]) (Z.of_nat (length done))) as (l' & E & _);
      [lia|unfold zlen; rewrite !length_app; cbn [length]; lia|].
    rewrite E. apply astore_Some in E as (_ & _ & ->). rewrite Nat2Z.id, take_app_length, (drop_ge (done ++ x :: rest)).
    - by rewrite app_nil_r.
    - rewrite !length_app. cbn [length]. lia. }
  rewrite (bind_eq _ _ _ E). rewrite aset_in by (unfold zlen; rewrite !length_app; cbn [length]; lia).
  f_equal. rewrite app_assoc. change (Z.to_nat 15) with 15%nat.
  rewrite insert_app_r_alt by (rewrite length_app; lia).
  replace (15 - length (done ++ rest))%nat with 0%nat by (rewrite length_app; lia). cbn. by rewrite <-app_assoc.
Qed.

Lemma insert_entry_eq done rest x :
  (length done + length rest = 16)%nat -> rest <> [] ->
  insert_entry (done ++ rest) (Z.of_nat (length done)) x = Some (take 16 (done ++ x :: rest)).
Proof.
  intros Hl Hr. unfold insert_entry.
  destruct (destruct_list rest) as [(y & r & ->)|]; [|done]. cbn [length] in Hl.
  assert (E : aload (done ++ y :: r) (Z.of_nat (length done)) (15 - Z.of_nat (length done)) =
              Some (take (length r) (y :: r))).
  { rewrite aload_in by (try rewrite zlen_app, zlen_cons; unfold zlen; lia).
    rewrite Nat2Z.id, drop_app_length. do 2 f_equal. lia. }
  rewrite (bind_eq _ _ _ E). 
  assert (E2 : astore (done ++ y :: r) (Z.of_nat (length done) + 1) (take (length r) (y :: r)) =
               Some (done ++ y :: take (length r) (y :: r))).
  { destruct (astore_in (done ++ y :: r) (take (length r) (y :: r)) (Z.of_nat (length done) + 1)) as (l' & E' & _);
      [lia|rewrite zlen_app, zlen_cons; unfold zlen; rewrite length_take; cbn [length]; lia|].
    rewrite E'. apply astore_Some in E' as (_ & _ & ->).
    replace (Z.to_nat (Z.of_nat (length done) + 1)) with (length done + 1)%nat by lia.
    rewrite take_past, (drop_ge (done ++ y :: r)).
    - rewrite app_nil_r, <-app_assoc. done.
    - rewrite length_app, length_take. cbn [length]. lia. }
  rewrite (bind_eq _ _ _ E2). rewrite aset_in by (rewrite zlen_app, zlen_cons; unfold zlen; lia).
  rewrite Nat2Z.id, insert_app_r_alt, Nat.sub_diag by lia. cbn [insert list_insert].
  f_equal. replace 16%nat with (length done + S (length r))%nat by lia.
  by rewrite take_past.
Qed.

(** ** Aging *)

Lemma length_aged n : forall l, length l = n -> length (aged n l) = n.
Proof.
  induction n as [|n IH]; intros [|[x a] r] Hl; cbn [aged]; try done. cbn [length] in Hl.
  case_if.
  - destruct (r ++ [no_entry]) as [|y r'] eqn:El.
    + apply (f_equal length) in El. rewrite length_app in El. cbn in El. lia.
    + apply (f_equal length) in El. rewrite length_app in El. cbn [length] in *. rewrite IH; lia.
  - cbn [length]. rewrite IH; lia.
Qed.

Lemma zip_snoc {A B} (l : list A) (k : list B) x y : length l = length k -> zip (l ++ [x]) (k ++ [y]) = zip l k ++ [(x, y)].
Proof. revert k. induction l as [|a l IH]; intros [|b k] H; try done. cbn. f_equal. apply IH. cbn in H. lia. Qed.

Lemma age_loop next todo : forall dv da rv ra,
  length dv = length da -> length rv = todo -> length ra = todo -> (length dv + todo = 16)%nat ->
  (exists p, next = Some p) \/ Forall (fun a => a <> 100) ra ->
  exists age values,
    for_loop todo (Z.of_nat (length dv)) (fun i st =>
      let '(age, smallest_values) := st in
      a ← aget age i;
      if negb (a =? 100) then age ← aset age i (s16 (a + 1)); Some (age, smallest_values)
      else
        p ← next;
        smallest_values ← remove_entry smallest_values i p.2 10000;
        age ← remove_entry age i p.1 101;
        Some (age, smallest_values)) (da ++ ra, dv ++ rv) = Some (age, values) /\
    length age = 16%nat /\ length values = 16%nat /\
    zip values age = zip dv da ++ aged todo (zip rv ra).
Proof.
  induction todo as [|todo IH]; intros dv da rv ra Hd Hrv Hra Hl Hp; cbn [for_loop].
  { exists (da ++ ra), (dv ++ rv). destruct rv, ra; try done. rewrite !app_nil_r. cbn. rewrite ?app_nil_r.
    repeat split; lia. }
  destruct rv as [|x rv]; [done|]. destruct ra as [|a ra]; [done|]. cbn [length] in Hrv, Hra.
  assert (Ea : aget (da ++ a :: ra) (Z.of_nat (length dv)) = Some a).
  { rewrite aget_lookup, Nat2Z.id, Hd by lia. by rewrite lookup_app_r, Nat.sub_diag by lia. }
  rewrite (bind_eq _ _ _ Ea). cbn [zip zip_with aged]. case_if.
  - (* kept *)
    rewrite aset_in by (unfold zlen; rewrite length_app; cbn [length]; lia). rewrite (bind_eq _ _ _ eq_refl).
    rewrite Nat2Z.id, Hd, insert_app_r_alt, Nat.sub_diag by lia. cbn [insert list_insert].
    destruct (IH (dv ++ [x]) (da ++ [s16 (a + 1)]) rv ra) as (age & values & E1 & L1 & L2 & Z);
      [rewrite !length_app; cbn; lia|lia|lia|rewrite length_app; cbn; lia|destruct Hp as [Hp|Hp%Forall_inv_tail]; auto|].
    rewrite <-!app_assoc in E1. cbn [app] in E1. rewrite length_app in E1. cbn [length] in E1.
    replace (Z.of_nat (length da) + 1) with (Z.of_nat (length dv + 1)) by lia.
    exists age, values. split; [exact E1|]. split; [done|]. split; [done|].
    rewrite Z, zip_snoc, <-app_assoc by done. cbn [app]. by replace (a =? 100) with false by lia.
  - (* removed *)
    subst a. destruct Hp as [[p ->]|Hp%Forall_inv]; [|done]. rewrite (bind_eq _ _ _ eq_refl).
    rewrite (bind_eq _ _ _ (remove_entry_eq dv rv x p.2 10000 ltac:(lia))).
    rewrite Hd, (bind_eq _ _ _ (remove_entry_eq da ra 100 p.1 101 ltac:(lia))).
    rewrite Z.eqb_refl.
    assert (Hz : zip (rv ++ [10000]) (ra ++ [101]) = zip rv ra ++ [no_entry]) by (apply zip_snoc; lia).
    destruct (rv ++ [10000]) as [|y rv'] eqn:Ev.
    { apply (f_equal length) in Ev. rewrite length_app in Ev. cbn in Ev. lia. }
    destruct (ra ++ [101]) as [|b ra'] eqn:Ew.
    { apply (f_equal length) in Ew. rewrite length_app in Ew. cbn in Ew. lia. }
    apply (f_equal length) in Ev. apply (f_equal length) in Ew. rewrite length_app in Ev, Ew. cbn [length] in Ev, Ew.
    cbn [zip zip_with] in Hz. change (zip_with pair rv ra) with (zip rv ra). rewrite <-Hz.
    destruct (IH (dv ++ [y]) (da ++ [b]) rv' ra') as (age & values & E1 & L1 & L2 & Z);
      [rewrite !length_app; cbn; lia|lia|lia|rewrite length_app; cbn; lia|eauto|].
    rewrite <-!app_assoc in E1. cbn [app] in E1. rewrite length_app in E1. cbn [length] in E1.
    replace (Z.of_nat (length da) + 1) with (Z.of_nat (length dv + 1)) by lia.
    exists age, values. split; [exact E1|]. split; [done|]. split; [done|].
    rewrite Z, zip_snoc, <-app_assoc by done. done.
Qed.

Lemma age_entries_spec next age values :
  length age = 16%nat -> length values = 16%nat -> (exists p, next = Some p) \/ Forall (fun a => a <> 100) age ->
  let entries := aged 16 (zip values age) in age_entries next age values = Some (entries.*2, entries.*1).
Proof.
  intros Ha Hv Hp. unfold age_entries.
  destruct (age_loop next 16 [] [] values age) as (a & v & E & H1 & H2 & H3); [done|lia|lia|done|done|].
  cbv zeta. change (zip v a = aged 16 (zip values age)) in H3. rewrite <-H3, fst_zip, snd_zip by lia. exact E.
Qed.

(** Where the access behind the entries fails, so does the aging of an entry of
    age 100. *)
Lemma age_loop_None todo : forall da ra values,
  length ra = todo -> 100 ∈ ra ->
  for_loop todo (Z.of_nat (length da)) (fun i st =>
    let '(age, smallest_values) := st in
    a ← aget age i;
    if negb (a =? 100) then age ← aset age i (s16 (a + 1)); Some (age, smallest_values)
    else
      p ← @None (Z * Z);
      smallest_values ← remove_entry smallest_values i p.2 10000;
      age ← remove_entry age i p.1 101;
      Some (age, smallest_values)) (da ++ ra, values) = None.
Proof.
  induction todo as [|todo IH]; intros da [|a ra] values Hl H; cbn [for_loop]; try done; [by apply not_elem_of_nil in H|].
  cbn [length] in Hl.
  assert (Ea : aget (da ++ a :: ra) (Z.of_nat (length da)) = Some a).
  { rewrite aget_lookup, Nat2Z.id by lia. by rewrite lookup_app_r, Nat.sub_diag by lia. }
  rewrite (bind_eq _ _ _ Ea). case_if; [|done].
  rewrite aset_in by (unfold zlen; rewrite length_app; cbn [length]; lia). rewrite (bind_eq _ _ _ eq_refl).
  rewrite Nat2Z.id, insert_app_r_alt, Nat.sub_diag by lia. cbn [insert list_insert].
  apply elem_of_cons in H as [Ha|H]; [lia|].
  specialize (IH (da ++ [s16 (a + 1)]) ra values ltac:(lia) H). rewrite <-app_assoc, length_app in IH. cbn [app length] in IH.
  replace (Z.of_nat (length da) + 1) with (Z.of_nat (length da + 1)) by lia. exact IH.
Qed.

Lemma age_entries_None age values : length age = 16%nat -> 100 ∈ age -> age_entries None age values = None.
Proof. intros Ha H. exact (age_loop_None 16 [] age values Ha H). Qed.

(** ** The order of the entries *)

Lemma lookup_app_shift {A} (a b : list A) i : (a ++ b) !! (length a + i)%nat = b !! i.
Proof. rewrite lookup_app_r by lia. f_equal. lia. Qed.

Lemma ascending_app a b :
  ascending (a ++ b) <-> ascending a /\ ascending b /\ (forall x y, x ∈ a -> y ∈ b -> x <= y).
Proof.
  unfold ascending. split.
  - intros H. split; [|split].
    + intros i j x y Hij Hx Hy. apply (H i j x y Hij); by apply lookup_app_l_Some.
    + intros i j x y Hij Hx Hy. apply (H (length a + i)%nat (length a + j)%nat x y); [lia|by rewrite lookup_app_shift..].
    + intros x y (i & Hx)%list_elem_of_lookup (j & Hy)%list_elem_of_lookup.
      apply (H i (length a + j)%nat x y).
      * apply lookup_lt_Some in Hx. lia.
      * by apply lookup_app_l_Some.
      * by rewrite lookup_app_shift.
  - intros (Ha & Hb & Hab) i j x y Hij Hx Hy.
    apply lookup_app_Some in Hx as [Hx|[Hl Hx]]; apply lookup_app_Some in Hy as [Hy|[Hl' Hy]].
    + by apply (Ha i j).
    + apply Hab; by eapply list_elem_of_lookup_2.
    + apply lookup_lt_Some in Hy. lia.
    + apply (Hb (i - length a)%nat (j - length a)%nat); [lia|done|done].
Qed.

Lemma ascending_one x : ascending [x].
Proof. intros [|i] [|j] a b Hij Ha Hb; cbn in *; try discriminate; [|done..]. injection Ha as <-. injection Hb as <-. lia. Qed.

Lemma low_values_remove a x b : low_values (a ++ x :: b) -> low_values (a ++ b ++ [10000]).
Proof.
  intros [Hs Hf]. change (x :: b) with ([x] ++ b) in *.
  apply ascending_app in Hs as (Ha & Hb & Hab). apply ascending_app in Hb as (_ & Hb & _).
  apply Forall_app in Hf as [Hfa Hf]. apply Forall_app in Hf as [_ Hfb].
  rewrite list.Forall_forall in Hfa, Hfb. split.
  - apply ascending_app. split; [done|]. split.
    + apply ascending_app. split; [done|]. split; [apply ascending_one|].
      intros u w Hu ->%list_elem_of_singleton. apply Hfb in Hu. lia.
    + intros u w Hu [Hw| ->%list_elem_of_singleton]%elem_of_app; [|apply Hfa in Hu; lia].
      apply Hab; [done|]. apply elem_of_app. by right.
  - rewrite !Forall_app, list.Forall_singleton, !list.Forall_forall. split; [done|split; [done|lia]].
Qed.

Lemma aged_low n : forall d l, low_values (d ++ l.*1) -> length l = n -> low_values (d ++ (aged n l).*1).
Proof.
  induction n as [|n IH]; intros d [|[x a] r] H Hl; cbn [aged]; try done. cbn [length] in Hl.
  cbn [fmap list_fmap fst] in H. case_if.
  - apply low_values_remove in H.
    assert (Hr : low_values (d ++ (r ++ [no_entry]).*1)) by (rewrite fmap_app; exact H).
    destruct (r ++ [no_entry]) as [|[y b] r'] eqn:El; [done|].
    apply (f_equal length) in El. rewrite length_app in El. cbn [length] in El.
    cbn [fmap list_fmap fst] in *. change (y :: r'.*1) with ([y] ++ r'.*1) in Hr. rewrite app_assoc in Hr.
    change (y :: (aged n r').*1) with ([y] ++ (aged n r').*1). rewrite app_assoc. apply IH; [exact Hr|lia].
  - cbn [fmap list_fmap fst]. change (x :: r.*1) with ([x] ++ r.*1) in H. rewrite app_assoc in H.
    change (x :: (aged n r).*1) with ([x] ++ (aged n r).*1). rewrite app_assoc. apply IH; [exact H|lia].
Qed.

(** ** The position *)

Lemma insert_by_value_at f l : forall p,
  (p <= length l)%nat -> (forall i x, (i < p)%nat -> l !! i = Some x -> x.1 <= f.1) ->
  (forall x, l !! p = Some x -> f.1 < x.1) ->
  insert_by_value f l = take p l ++ f :: drop p l.
Proof.
  induction l as [|y l IH]; intros p Hp Hlow Hhi.
  { destruct p; [done|cbn in Hp; lia]. }
  destruct p as [|p]; cbn [insert_by_value].
  - specialize (Hhi y eq_refl). by replace (f.1 <? y.1) with true by lia.
  - pose proof (Hlow 0%nat y ltac:(lia) eq_refl). replace (f.1 <? y.1) with false by lia.
    cbn [take drop firstn skipn app]. f_equal. apply IH.
    + cbn in Hp. lia.
    + intros i x Hi Hx. apply (Hlow (S i)); [lia|done].
    + intros x Hx. by apply Hhi.
Qed.

Lemma minimum_position_spec f v :
  (forall i j, 0 <= i -> i <= j -> j < 16 -> v i <= v j) ->
  (find_position f v = -1 /\ v 15 <= f) \/
  (0 <= find_position f v < 16 /\ f < v (find_position f v) /\
   (0 < find_position f v -> v (find_position f v - 1) <= f)).
Proof.
  intros H. unfold find_position.
  repeat match goal with |- context [if f <? v ?k then _ else _] => destruct (Z.ltb_spec f (v k)) end.
  all: first [left; split; [reflexivity|lia] | right; split; [lia|]; split; [lia|]].
  all: lazymatch goal with |- _ -> ?w ?e <= _ => let e' := eval vm_compute in e in change e with e' end; lia.
Qed.

(** ** Insertion *)

Lemma insert_split x l :
  ascending l.*1 -> exists a b, l = a ++ b /\ insert_by_value x l = a ++ x :: b /\
    (forall y, y ∈ a -> y.1 <= x.1) /\ (forall y, y ∈ b -> x.1 < y.1).
Proof.
  induction l as [|y l IH]; intros H.
  { exists [], []. repeat split; intros ? []%not_elem_of_nil. }
  cbn [insert_by_value]. case_if.
  - exists [], (y :: l). repeat split; [by intros ? []%not_elem_of_nil|].
    intros z Hz. apply list_elem_of_lookup in Hz as (i & Hz).
    enough (y.1 <= z.1) by lia. apply (H 0%nat i); [lia|done|].
    by rewrite list_lookup_fmap, Hz.
  - change ((y :: l).*1) with ([y.1] ++ l.*1) in H. apply ascending_app in H as (_ & H & _).
    destruct (IH H) as (a & b & -> & Ei & Ha & Hb). exists (y :: a), b. rewrite Ei. repeat split; [|done].
    intros z [->|Hz]%elem_of_cons; [lia|by apply Ha].
Qed.

Lemma ascending_take l n : ascending l -> ascending (take n l).
Proof. intros H. rewrite <-(take_drop n l) in H. by apply ascending_app in H as (H & _). Qed.

Lemma insert_by_value_low x l :
  -32768 <= x.1 -> low_values l.*1 -> length l = 16%nat -> low_values (take 16 (insert_by_value x l)).*1.
Proof.
  intros Hx [Hs Hf] Hl. destruct (insert_split x l Hs) as (a & b & -> & -> & Ha & Hb).
  rewrite fmap_app in Hs, Hf. apply ascending_app in Hs as (Hsa & Hsb & Hab). apply Forall_app in Hf as [Hfa Hfb].
  rewrite fmap_take, fmap_app. cbn [fmap list_fmap fst]. split.
  - apply ascending_take, ascending_app. split; [done|]. split.
    + change (x.1 :: b.*1) with ([x.1] ++ b.*1). apply ascending_app. split; [apply ascending_one|]. split; [done|].
      intros u w ->%list_elem_of_singleton (z & -> & Hz)%list_elem_of_fmap. apply Hb in Hz. lia.
    + intros u w Hu [->|Hw]%elem_of_cons; [|by apply Hab].
      apply list_elem_of_fmap in Hu as (z & -> & Hz). by apply Ha.
  - destruct b as [|z b].
    + rewrite app_nil_r in Hl. rewrite <-Hl, <-(length_fmap fst), take_app_length. done.
    + apply Forall_take, Forall_app. split; [done|]. constructor; [|done].
      inversion_clear Hfb. specialize (Hb z ltac:(left)). lia.
Qed.

Lemma insert_low_values (l : list (Z * Z)) x : length l = 16%nat -> low_values l.*1 ->
  let position := find_position x.1 (fun k => default 0 (aget l.*1 k)) in
  (position = -1 /\ take 16 (insert_by_value x l) = l) \/
  (0 <= position < 16 /\ insert_by_value x l = take (Z.to_nat position) l ++ x :: drop (Z.to_nat position) l).
Proof.
  intros Hl [Hs Hf] position.
  assert (Hg : forall i, (i < 16)%nat -> exists y, l !! i = Some y /\ default 0 (aget l.*1 (Z.of_nat i)) = y.1).
  { intros i Hi. destruct (lookup_lt_is_Some_2 l i ltac:(lia)) as [y Hy]. exists y. split; [done|].
    rewrite aget_lookup, Nat2Z.id by lia. by rewrite list_lookup_fmap, Hy. }
  destruct (minimum_position_spec x.1 (fun k => default 0 (aget l.*1 k))) as [[E Hx]|(Hp & Hx & Hlow)].
  - intros i j Hi Hij Hj. destruct (Hg (Z.to_nat i) ltac:(lia)) as (y & Hy & Ey).
    destruct (Hg (Z.to_nat j) ltac:(lia)) as (z & Hz & Ez). rewrite Z2Nat.id in Ey, Ez by lia. rewrite Ey, Ez.
    apply (Hs (Z.to_nat i) (Z.to_nat j)); [lia|by rewrite list_lookup_fmap, ?Hy, ?Hz..].
  - left. split; [exact E|]. rewrite (insert_by_value_at x l 16).
    + rewrite (take_ge l) by lia. by apply take_app_length'.
    + lia.
    + intros i y Hi Hy. destruct (Hg 15%nat ltac:(lia)) as (z & Hz & Ez). change (Z.of_nat 15) with 15 in Ez. cbn beta in Hx. rewrite Ez in Hx.
      enough (y.1 <= z.1) by lia. apply (Hs i 15%nat); [lia|by rewrite list_lookup_fmap, ?Hy, ?Hz..].
    + intros y Hy%lookup_lt_Some. lia.
  - right. split; [exact Hp|]. apply insert_by_value_at.
    + lia.
    + intros i y Hi Hy. fold position in Hp, Hx, Hlow. specialize (Hlow ltac:(lia)).
      destruct (Hg (Z.to_nat (position - 1)) ltac:(lia)) as (z & Hz & Ez). rewrite Z2Nat.id in Ez by lia.
      cbn beta in Hlow. rewrite Ez in Hlow.
      enough (y.1 <= z.1) by lia. apply (Hs i (Z.to_nat (position - 1))); [lia|by rewrite list_lookup_fmap, ?Hy, ?Hz..].
    + intros y Hy. destruct (Hg (Z.to_nat position) ltac:(lia)) as (z & Hz & Ez). rewrite Z2Nat.id in Ez by lia.
      fold position in Hx. cbn beta in Hx. rewrite Ez in Hx. assert (z = y) as -> by congruence. done.
Qed.

(** ** The whole operation *)

Record min_ok (v : VadInst) : Prop := {
  mo_low : zlen (v_low_value_vector v) = 96;
  mo_index : zlen (v_index_vector v) = 96;
  mo_mean : zlen (v_mean_value v) = 6;
  mo_order : forall c, 0 <= c < 6 -> low_values (entries v c).*1;
}.

Lemma entries_fst v c values ages :
  aload (v_low_value_vector v) (16 * c) 16 = Some values -> aload (v_index_vector v) (16 * c) 16 = Some ages ->
  entries v c = zip values ages /\ length values = 16%nat /\ length ages = 16%nat /\ (entries v c).*1 = values.
Proof.
  intros Ev Ea. unfold entries. rewrite Ev, Ea. cbn [default from_option id].
  apply aload_length in Ev, Ea. unfold zlen in *.
  split; [done|]. split; [lia|]. split; [lia|]. apply fst_zip. lia.
Qed.

(** Whether the call looks behind the arrays: it removes an entry of the last
    channel. *)
Definition reads_past (v : VadInst) (c : Z) : Prop := c = 5 /\ 100 ∈ (entries v c).*2.

(** The accesses of the call succeed. *)
Definition readable (mc : Machine) (v : VadInst) (c : Z) : Prop := is_Some (m_past mc) \/ ~ reads_past v c.

Lemma behind_in mc v c ages : min_ok v -> 0 <= c < 6 -> (entries v c).*2 = ages -> readable mc v c ->
  (exists p, behind mc v (16 * c) = Some p) \/ Forall (fun a => a <> 100) ages.
Proof.
  intros [H1 H2 _ _] Hc Ha H. unfold behind. destruct (Z.ltb_spec (16 * c + 16) (zlen (v_index_vector v))) as [Hl|Hl].
  - left. destruct (aget_in (v_low_value_vector v) (16 * c + 16)) as [x Ex]; [lia|].
    destruct (aget_in (v_index_vector v) (16 * c + 16)) as [y Ey]; [lia|]. rewrite Ex, Ey. by eexists.
  - destruct H as [[p Hp]|H]; [left; by exists p|right].
    apply list.Forall_forall. intros a Hin ->. apply H. split; [lia|]. by rewrite Ha.
Qed.

(** The median that is smoothed: the third smallest value when there are enough
    frames. *)
Definition current_median (frame_counter : Z) (l : list (Z * Z)) : Z :=
  if 2 <? frame_counter then default 0 (aget l.*1 2)
  else if 0 <? frame_counter then default 0 (aget l.*1 0) else 1600.

Definition minimum_step (feature : Z) (l : list (Z * Z)) : list (Z * Z) :=
  take 16 (insert_by_value (feature, 1) (aged 16 l)).

Lemma length_insert_by_value x l : length (insert_by_value x l) = S (length l).
Proof. induction l as [|y l IH]; [done|]. cbn [insert_by_value]. case_if; [done|]. cbn [length]. lia. Qed.

Lemma length_minimum_step f l : length l = 16%nat -> length (minimum_step f l) = 16%nat.
Proof.
  intros H. unfold minimum_step. rewrite length_take, length_insert_by_value, length_aged by done. lia.
Qed.

Lemma aged_low_values l : length l = 16%nat -> low_values l.*1 -> low_values (aged 16 l).*1.
Proof. intros Hl H. exact (aged_low 16 [] l H Hl). Qed.

Lemma minimum_step_low f l : -32768 <= f -> length l = 16%nat -> low_values l.*1 -> low_values (minimum_step f l).*1.
Proof. intros Hf Hl H. apply insert_by_value_low; [done|by apply aged_low_values|by apply length_aged]. Qed.

(** Insertion into the two arrays is insertion of the pair. *)
Lemma insert_both f ages values :
  length ages = 16%nat -> length values = 16%nat -> low_values values ->
  exists ages' values',
    (let position := find_position f (fun k => default 0 (aget values k)) in
     if -1 <? position then
       values ← insert_entry values position f; ages ← insert_entry ages position 1; Some (ages, values)
     else Some (ages, values)) = Some (ages', values') /\
    length ages' = 16%nat /\ length values' = 16%nat /\
    zip values' ages' = take 16 (insert_by_value (f, 1) (zip values ages)).
Proof.
  intros Ha Hv Hlow.
  assert (Ef : (zip values ages).*1 = values) by (apply fst_zip; lia).
  assert (Hz : length (zip values ages) = 16%nat) by (rewrite length_zip; lia).
  pose proof (insert_low_values (zip values ages) (f, 1) Hz ltac:(by rewrite Ef)) as H.
  cbn [fst] in H. rewrite Ef in H.
  destruct H as [[Ep Et]|[Hp Et]].
  - exists ages, values. cbv zeta. rewrite Ep. cbn [Z.ltb Z.compare CompOpp]. rewrite Et. auto.
  - cbv zeta. revert Hp Et. generalize (find_position f (fun k => default 0 (aget values k))). intros p Hp Et.
    replace (-1 <? p) with true by lia.
    assert (Hi : forall l x, length l = 16%nat ->
      insert_entry l p x = Some (take 16 (take (Z.to_nat p) l ++ x :: drop (Z.to_nat p) l))).
    { intros l x Hl. rewrite <-(take_drop (Z.to_nat p) l) at 1.
      replace p with (Z.of_nat (length (take (Z.to_nat p) l))) at 3 by (rewrite length_take; lia).
      apply insert_entry_eq.
      - rewrite length_take, length_drop. lia.
      - intros E%(f_equal length). rewrite length_drop in E. cbn in E. lia. }
    rewrite (bind_eq _ _ _ (Hi values f Hv)), (bind_eq _ _ _ (Hi ages 1 Ha)).
    eexists _, _. split; [reflexivity|].
    split; [rewrite length_take, length_app, length_take; cbn [length]; rewrite length_drop; lia|].
    split; [rewrite length_take, length_app, length_take; cbn [length]; rewrite length_drop; lia|].
    rewrite Et. rewrite <-zip_with_take. f_equal. rewrite zip_with_app by (rewrite !length_take; lia). cbn [zip_with].
    by rewrite <-zip_with_take, <-zip_with_drop.
Qed.

Lemma FindMinimum_eq v f c : min_ok v -> 0 <= c < 6 ->
  exists values ages mean, aget (v_mean_value v) c = Some mean /\
    let m := smooth_median (v_frame_counter v) (current_median (v_frame_counter v) (minimum_step f (entries v c))) mean in
    exists means values' ages',
    (forall mc, readable mc v c -> FindMinimum mc v f c = Some (m, v <| v_index_vector := ages' |> <| v_low_value_vector := values' |> <| v_mean_value := means |>)) /\
    aset (v_mean_value v) c m = Some means /\
    astore (v_low_value_vector v) (16 * c) values = Some values' /\ zlen values = 16 /\
    astore (v_index_vector v) (16 * c) ages = Some ages' /\ zlen ages = 16 /\
    zip values ages = minimum_step f (entries v c).
Proof.
  intros [Hlow Hidx Hmean Ho] Hc.
  pose proof (aload_in (v_low_value_vector v) (16 * c) 16 ltac:(lia) ltac:(lia) ltac:(lia)) as Ev.
  pose proof (aload_in (v_index_vector v) (16 * c) 16 ltac:(lia) ltac:(lia) ltac:(lia)) as Ea.
  revert Ev Ea. generalize (take (Z.to_nat 16) (drop (Z.to_nat (16 * c)) (v_low_value_vector v))) as values.
  generalize (take (Z.to_nat 16) (drop (Z.to_nat (16 * c)) (v_index_vector v))) as ages. intros ages values Ev Ea.
  destruct (entries_fst v c values ages Ev Ea) as (Ee & Lv & La & Ef).
  destruct (aget_in (v_mean_value v) c ltac:(lia)) as [mean Em].
  pose proof (fun mc => behind_in mc v c ages (Build_min_ok v Hlow Hidx Hmean Ho) Hc
    ltac:(rewrite Ee; apply snd_zip; lia)) as Hb. specialize (Ho c Hc).
  assert (E1 : exists ages1 values1, length ages1 = 16%nat /\ length values1 = 16%nat /\
    zip values1 ages1 = aged 16 (zip values ages) /\
    forall mc, readable mc v c -> age_entries (behind mc v (16 * c)) ages values = Some (ages1, values1)).
  { exists (aged 16 (zip values ages)).*2, (aged 16 (zip values ages)).*1. rewrite !length_fmap, length_aged by (rewrite length_zip; lia).
    split; [done|]. split; [done|]. split; [apply zip_fst_snd|]. intros mc Hmc. apply age_entries_spec; auto. }
  destruct E1 as (ages1 & values1 & La1 & Lv1 & Ez1 & E1).
  assert (Hl1 : length (zip values ages) = 16%nat) by (rewrite length_zip; lia).
  assert (Hs1 : low_values values1).
  { rewrite Ee in Ho. apply (aged_low_values _ Hl1) in Ho. rewrite <-Ez1, fst_zip in Ho by lia. done. }
  destruct (insert_both f ages1 values1 La1 Lv1 Hs1) as (ages2 & values2 & E2 & La2 & Lv2 & Ez2).
  assert (Ez : zip values2 ages2 = minimum_step f (entries v c)).
  { rewrite Ez2, Ez1, Ee. done. }
  destruct (aget_in values2 0 ltac:(unfold zlen; lia)) as [x0 E0].
  destruct (aget_in values2 2 ltac:(unfold zlen; lia)) as [x2 E3].
  assert (Em2 : (minimum_step f (entries v c)).*1 = values2) by (rewrite <-Ez; apply fst_zip; lia).
  destruct (astore_in (v_low_value_vector v) values2 (16 * c)) as (lo' & Elo & _); [lia|unfold zlen in *; lia|].
  destruct (astore_in (v_index_vector v) ages2 (16 * c)) as (id' & Eid & _); [lia|unfold zlen in *; lia|].
  exists values2, ages2, mean. split; [done|]. cbv zeta.
  eexists _, lo', id'. split.
  - intros mc Hmc. unfold FindMinimum. rewrite Z.shiftl_mul_pow2 by lia. change (2 ^ 4) with 16. rewrite (Z.mul_comm c 16). cbv zeta.
    rewrite (bind_eq _ _ _ Ea), (bind_eq _ _ _ Ev), (bind_eq _ _ _ (E1 mc Hmc)).
    cbv zeta in E2. rewrite (bind_eq _ _ _ E2), (bind_eq _ _ _ E0), (bind_eq _ _ _ E3), (bind_eq _ _ _ Em).
    rewrite (bind_eq _ _ _ Eid), (bind_eq _ _ _ Elo).
    rewrite aset_in by lia. cbn [mbind option_bind].
    unfold current_median. rewrite Em2, E0, E3. reflexivity.
  - unfold current_median. rewrite Em2, E0, E3. split; [by apply aset_in; lia|].
    unfold zlen. repeat split; [done|lia|done|lia|done].
Qed.

Lemma entries_store v v' (x y : list Z) c d :
  astore (v_low_value_vector v) (16 * c) x = Some (v_low_value_vector v') -> zlen x = 16 ->
  astore (v_index_vector v) (16 * c) y = Some (v_index_vector v') -> zlen y = 16 ->
  entries v' d = if decide (d = c) then zip x y else entries v d.
Proof.
  intros Ex Hx Ey Hy. unfold entries. case_decide as Hd; [subst d|].
  - pose proof (aload_astore_eq _ _ _ _ Ex) as Ax. pose proof (aload_astore_eq _ _ _ _ Ey) as Ay.
    rewrite Hx in Ax. rewrite Hy in Ay. by rewrite Ax, Ay.
  - rewrite (aload_astore_disjoint _ _ _ _ _ _ Ex), (aload_astore_disjoint _ _ _ _ _ _ Ey) by lia. done.
Qed.

Lemma smooth_median_between c a b :
  in_s16 a -> in_s16 b -> Z.min a b <= smooth_median c a b <= Z.max a b.
Proof.
  unfold in_s16. intros Ha Hb. unfold smooth_median, mul_16_16, kSmoothingDown, kSmoothingUp, WORD16_MAX.
  set (al := if 0 <? c then if a <? b then 6553 else 32439 else 0).
  assert (Hal : 0 <= al <= 32439) by (unfold al; repeat case_if; lia).
  rewrite !(s16_id (al + 1)), !(s16_id (32767 - al)), (s16_id a), (s16_id b) by (unfold in_s16; lia).
  rewrite !s32_id; [|unfold in_s32; nia|rewrite s32_id; unfold in_s32; nia].
  rewrite Z.shiftr_div_pow2 by lia. change (2 ^ 15) with 32768.
  assert (H : Z.min a b <= ((al + 1) * b + (32767 - al) * a + 16384) / 32768 <= Z.max a b).
  { split; [apply Z.div_le_lower_bound; nia|].
    assert (((al + 1) * b + (32767 - al) * a + 16384) / 32768 < Z.max a b + 1); [|lia].
    apply Z.div_lt_upper_bound; nia. }
  rewrite s16_id by (unfold in_s16; lia). exact H.
Qed.

Lemma low_values_s16 l i : low_values l -> length l = 16%nat -> 0 <= i < 16 -> in_s16 (default 0 (aget l i)).
Proof.
  intros [_ H] Hl Hi. rewrite list.Forall_lookup in H. unfold in_s16.
  destruct (aget_in l i ltac:(unfold zlen; lia)) as [x E]. rewrite E. rewrite aget_lookup in E by lia.
  apply H in E. cbn. lia.
Qed.

Lemma length_entries v c : min_ok v -> 0 <= c < 6 -> length (entries v c) = 16%nat.
Proof.
  intros [Hlow Hidx _ _] Hc. unfold entries. rewrite !aload_in by lia. cbn [default from_option id].
  rewrite length_zip, !length_take, !length_drop. unfold zlen in *. lia.
Qed.

Lemma FindMinimum_step v f c :
  min_ok v -> 0 <= c < 6 -> in_s16 f ->
  exists mean m v', aget (v_mean_value v) c = Some mean /\
    (forall mc, readable mc v c -> FindMinimum mc v f c = Some (m, v')) /\ min_ok v' /\
    entries v' c = minimum_step f (entries v c) /\
    (forall d, d <> c -> entries v' d = entries v d) /\
    v' = v <| v_index_vector := v_index_vector v' |> <| v_low_value_vector := v_low_value_vector v' |>
           <| v_mean_value := <[Z.to_nat c := m]> (v_mean_value v) |> /\
    m = smooth_median (v_frame_counter v) (current_median (v_frame_counter v) (entries v' c)) mean.
Proof.
  intros Hok Hc Hf. unfold in_s16 in Hf.
  destruct (FindMinimum_eq v f c Hok Hc) as (x & y & mean & Em & means & lo & ages & E & Es & Ex & Lx & Ey & Ly & Ez).
  exists mean. eexists _, _. split; [done|]. split; [exact E|].
  match goal with |- min_ok ?w /\ _ => set (v' := w) end.
  pose proof (fun d => entries_store v v' x y c d Ex Lx Ey Ly) as He.
  assert (Hc' : entries v' c = minimum_step f (entries v c)) by (rewrite He; case_decide; [done|lia]).
  pose proof (length_entries v c Hok Hc) as Hl. destruct Hok as [Hlow Hidx Hmean Ho]. apply aset_Some in Es as [_ Es].
  split; [constructor|].
  - unfold v'. cbn. by rewrite (astore_length _ _ _ _ Ex).
  - unfold v'. cbn. by rewrite (astore_length _ _ _ _ Ey).
  - unfold v'. cbn. rewrite Es. unfold zlen in *. by rewrite length_insert.
  - intros d Hd. destruct (decide (d = c)) as [->|Hn].
    + rewrite Hc'. apply minimum_step_low; [lia|done|by apply Ho].
    + rewrite He. case_decide; [done|by apply Ho].
  - split; [exact Hc'|]. split; [|split].
    + intros d Hd. rewrite He. by case_decide.
    + unfold v'; rewrite <-Es; reflexivity.
    + rewrite Hc'. done.
Qed.

Lemma current_median_s16 n l : low_values l.*1 -> length l = 16%nat -> in_s16 (current_median n l).
Proof.
  intros Hlo Hl. unfold current_median.
  repeat case_if; [apply low_values_s16; rewrite ?length_fmap; done..|unfold in_s16; lia].
Qed.

(** Where the access behind the arrays fails, so does the call that needs it. *)
Lemma FindMinimum_None mc v f c : min_ok v -> 0 <= c < 6 -> m_past mc = None -> reads_past v c -> FindMinimum mc v f c = None.
Proof.
  intros [Hlow Hidx Hmean Ho] _ Hmc [-> Hin].
  pose proof (aload_in (v_low_value_vector v) 80 16 ltac:(lia) ltac:(lia) ltac:(lia)) as Ev.
  pose proof (aload_in (v_index_vector v) 80 16 ltac:(lia) ltac:(lia) ltac:(lia)) as Ea.
  destruct (entries_fst v 5 _ _ Ev Ea) as (Ee & Lv & La & _). rewrite Ee, snd_zip in Hin by lia.
  unfold FindMinimum. change (Z.shiftl 5 4) with 80. cbv zeta. rewrite (bind_eq _ _ _ Ea), (bind_eq _ _ _ Ev).
  unfold behind. rewrite Hidx, Hmc. change (80 + 16 <? 96) with false. by rewrite (age_entries_None _ _ La Hin).
Qed.

(** C17. [WebRtcVad_FindMinimum] keeps the sixteen smallest feature values of a
    band, on an instance whose bands are in order.  It ages the entries (an entry of
    age 100 is removed, and the entry that moves into its place is not aged in this
    call, other than the comment of the loop says), puts the new value (age 1)
    behind the entries that are not larger and drops the largest one; the values
    stay in ascending order, the entries of the other bands and all other fields
    stay as they are, and the returned minimum, which becomes the band's smoothed
    value, lies between the old one and the third smallest value (the smallest in
    the first frames).  All accesses are inside the arrays but for one: the removal
    of an entry of the last band reads the age and the value behind the ends of
    [index_vector] and [low_value_vector].  Nothing depends on what it finds there,
    and where that access fails ([m_past] is [None]), exactly these calls fail. *)
Theorem FindMinimum_correct v f c mean :
  min_ok v -> 0 <= c < 6 -> in_s16 f -> aget (v_mean_value v) c = Some mean -> in_s16 mean ->
  (forall mc, m_past mc = None -> c = 5 -> 100 ∈ (entries v c).*2 -> FindMinimum mc v f c = None) /\
  exists m v',
    (forall mc, m_past mc <> None \/ c <> 5 \/ 100 ∉ (entries v c).*2 -> FindMinimum mc v f c = Some (m, v')) /\
    min_ok v' /\
    entries v' c = minimum_step f (entries v c) /\
    (forall d, d <> c -> entries v' d = entries v d) /\
    v' = v <| v_index_vector := v_index_vector v' |> <| v_low_value_vector := v_low_value_vector v' |>
           <| v_mean_value := <[Z.to_nat c := m]> (v_mean_value v) |> /\
    let median := current_median (v_frame_counter v) (entries v' c) in
    m = smooth_median (v_frame_counter v) median mean /\ Z.min median mean <= m <= Z.max median mean.
Proof.
  intros Hok Hc Hf Em Hm. split; [intros; by apply FindMinimum_None|].
  destruct (FindMinimum_step v f c Hok Hc Hf) as (mean' & m & v' & Em' & E & Hok' & He & Ho & Ev & Emm).
  assert (mean' = mean) as -> by congruence.
  exists m, v'. split; [intros mc Hmc; apply E|].
  { unfold readable, reads_past. rewrite <-not_eq_None_Some. destruct Hmc as [H|[H|H]]; [by left|right; tauto..]. }
  refine (conj Hok' (conj He (conj Ho (conj Ev _)))). cbv zeta. split; [exact Emm|]. rewrite Emm.
  apply smooth_median_between; [|done]. apply current_median_s16; [by apply Hok'|by apply length_entries].
Qed.

Definition fresh_vad : VadInst :=
  (InitCore (mkVad 0 [] [] ResetResample48khzTo8khz [] [] [] [] 0 0 0 [] [] [] [] [] [] [] [] [] [] 0)).2.

Lemma low_values_initial : low_values (replicate 16 10000).
Proof.
  split.
  - intros i j x y _ Hx%list_elem_of_lookup_2%elem_of_replicate Hy%list_elem_of_lookup_2%elem_of_replicate. lia.
  - apply Forall_replicate. lia.
Qed.

(** A machine on which the access behind the arrays finds a value, and one on which
    it fails. *)
Definition some_machine : Machine := mkMachine (Some (1, -32768)) (fun _ _ => -1).
Definition strict_machine : Machine := mkMachine None (fun _ _ => -1).

(** All entries are about to leave. *)
Definition old_vad : VadInst := fresh_vad <| v_index_vector := replicate 96 100 |>.

Lemma old_vad_ok : min_ok old_vad.
Proof.
  constructor; [reflexivity..|]. intros c Hc.
  assert (E : c = 0 \/ c = 1 \/ c = 2 \/ c = 3 \/ c = 4 \/ c = 5) by lia.
  destruct E as [->|[->|[->|[->|[->| ->]]]]]; exact low_values_initial.
Qed.

Lemma FindMinimum_correct_witness :
  FindMinimum strict_machine old_vad 640 5 = None /\
  exists m v', FindMinimum some_machine old_vad 640 5 = Some (m, v') /\
    entries v' 5 = (640, 1) :: replicate 8 (10000, 100) ++ replicate 7 (10000, 102).
Proof.
  destruct (FindMinimum_correct old_vad 640 5 1600 old_vad_ok ltac:(lia) ltac:(unfold in_s16; lia) eq_refl ltac:(unfold in_s16; lia))
    as (H & m & v' & E & _ & Ee & _).
  split; [apply H; [reflexivity..|vm_compute; left]|]. exists m, v'.
  split; [apply E; left; discriminate|]. rewrite Ee. vm_compute. reflexivity.
Defined.

(** ** The values of the unit test [vad_sp_unittest.cc] *)

Definition minimum_test_band (i : Z) (j : Z) (st : VadInst * list (Z * Z)) : option (VadInst * list (Z * Z)) :=
  r ← FindMinimum strict_machine st.1 (500 * (i + 1)) j;
  q ← FindMinimum strict_machine r.2 12000 j;
  Some (q.2, st.2 ++ [(r.1, q.1)]).

Definition minimum_test : option (VadInst * list (Z * Z)) :=
  for_loop 16 0 (fun i st =>
    st ← for_loop 6 0 (minimum_test_band i) st;
    Some (st.1 <| v_frame_counter := v_frame_counter st.1 + 1 |>, st.2)) (fresh_vad, []).

Definition kReferenceMin : list (Z * Z) :=
  zip [1600; 720; 509; 512; 532; 552; 570; 588; 606; 624; 642; 659; 675; 691; 707; 723]
      [1600; 544; 502; 522; 542; 561; 579; 597; 615; 633; 651; 667; 683; 699; 715; 731].

Example minimum_reference : option_map snd minimum_test = Some (flat_map (replicate 6) kReferenceMin).
Proof. vm_compute. reflexivity. Qed.

Definition square_wave : list Z := map (fun i => s16 (Z.of_nat i * Z.of_nat i)) (seq 0 960).

Example downsampling_reference :
  option_map snd (Downsampling square_wave (replicate 960 0) [0; 0] 960) = Some [207; 2270] /\
  Downsampling (replicate 960 0) (replicate 960 0) [0; 0] 960 = Some (replicate 960 0, [0; 0]).
Proof. vm_compute. split; reflexivity. Qed.

(** An entry that moves into the place of a removed one is not aged in that
    frame, so an entry can stay longer than the 100 frames that
    [WebRtcVad_FindMinimum] promises: 600 leaves 100 frames after it came, 700,
    which came one frame later, is still there after 101. *)
Definition minimum_run (values : list Z) : option VadInst :=
  foldl (fun v x => v ← v; r ← FindMinimum strict_machine v x 0; Some r.2) (Some fresh_vad) values.

Example entry_outlives_100_frames :
  option_map (fun v => head (entries v 0)) (minimum_run (600 :: replicate 99 9000)) = Some (Some (600, 100)) /\
  option_map (fun v => head (entries v 0)) (minimum_run (600 :: replicate 100 9000)) = Some (Some (9000, 99)) /\
  option_map (fun v => head (entries v 0)) (minimum_run (600 :: 700 :: replicate 100 9000)) = Some (Some (700, 100)).
Proof. vm_compute. repeat split. Qed.
