(* ===== verification/VadInv.v ===== *)
(** The voice activity detector stays inside its arrays: the invariant of its
    instance ([VadInstT], [vad_core.h]) and its preservation by every operation
    of [common_audio/vad/]. *)
From S2P Require Import Prelude SplMath Resample Vad VadMin.

(** Steps through the next memory access of the goal. *)
Ltac mem_step :=
  match goal with
  | |- context [aget ?l ?i ≫= _] =>
      let x := fresh "x" in let E := fresh "E" in
      destruct (aget_in l i) as [x E]; [lia|rewrite (bind_eq _ _ _ E); cbn beta]
  | |- context [aset ?l ?i ?v ≫= _] =>
      let l' := fresh "l" in let E := fresh "E" in let Z := fresh "Z" in
      destruct (aset_zlen l i v _ eq_refl) as (l' & E & Z); [lia|rewrite (bind_eq _ _ _ E); cbn beta]
  end.

(** ** Filters *)

Lemma Downsampling_safe x out st n :
  0 <= n <= zlen x -> Z.shiftr n 1 <= zlen out -> zlen st = 2 ->
  exists out' st', Downsampling x out st n = Some (out', st') /\ zlen out' = zlen out /\ zlen st' = 2.
Proof.
  intros Hn Ho Hs. unfold Downsampling. do 2 mem_step. rewrite shiftr_one in *.
  match goal with |- context [for_loop _ 0 ?f ?a] =>
    destruct (for_loop_to (fun r => zlen r.1.1 = zlen out) f (n / 2) a) as ([[o a1] a2] & EA & H1) end.
  - done.
  - intros j [[o a1] a2] Hj Ho'. cbn [fst] in Ho'. assert (2 * (n / 2) <= n) by (Z.to_euclidean_division_equations; lia).
    repeat mem_step. eexists. split; [reflexivity|]. cbn [fst]. lia.
  - rewrite (bind_eq _ _ _ EA). repeat mem_step. eexists _, _. split; [reflexivity|]. cbn [fst] in H1. lia.
Qed.

Lemma HighPassFilter_safe x n st out :
  0 <= n <= zlen x -> n <= zlen out -> zlen st = 4 ->
  exists out' st', HighPassFilter x n st out = Some (out', st') /\ zlen out' = zlen out /\ zlen st' = 4.
Proof.
  intros Hn Ho Hs. unfold HighPassFilter. cbn [kHpZeroCoefs kHpPoleCoefs].
  match goal with |- context [for_loop _ 0 ?f ?a] =>
    destruct (for_loop_to (fun r => zlen r.1 = zlen out /\ zlen r.2 = 4) f n a) as ([o s] & EA & H1 & H2) end.
  - done.
  - intros j [o s] Hj [Ho' Hs']. cbn [fst snd] in *.
    repeat mem_step. eexists. split; [reflexivity|]. cbn [fst snd]. lia.
  - exists o, s. done.
Qed.

Lemma AllPassFilter_safe x first n c st out :
  0 <= first -> 0 <= n -> first + 2 * n <= zlen x + 1 -> n <= zlen out ->
  exists out' st', AllPassFilter x first n c st out = Some (out', st') /\ zlen out' = zlen out.
Proof.
  intros Hf Hn Hx Ho. unfold AllPassFilter.
  match goal with |- context [for_loop _ 0 ?f ?a] =>
    destruct (for_loop_to (fun r => zlen r.1 = zlen out) f n a) as ([o s] & EA & H1) end.
  - done.
  - intros j [o s] Hj Ho'. cbn [fst] in *.
    repeat mem_step. eexists. split; [reflexivity|]. cbn [fst]. lia.
  - rewrite (bind_eq _ _ _ EA). eexists _, _. split; [reflexivity|]. done.
Qed.

Lemma SplitFilter_safe x n band up lo hp lp :
  0 <= n <= zlen x -> Z.shiftr n 1 <= zlen hp -> Z.shiftr n 1 <= zlen lp -> 0 <= band < 5 -> zlen up = 5 -> zlen lo = 5 ->
  exists hp' lp' up' lo', SplitFilter x n band up lo hp lp = Some (hp', lp', up', lo') /\
    zlen hp' = zlen hp /\ zlen lp' = zlen lp /\ zlen up' = 5 /\ zlen lo' = 5.
Proof.
  intros Hn Hh Hlp Hb Hu Hl. unfold SplitFilter. cbv zeta. rewrite shiftr_one in *.
  assert (0 <= n / 2 /\ 2 * (n / 2) <= n) by (Z.to_euclidean_division_equations; lia).
  mem_step.
  destruct (AllPassFilter_safe x 0 (n / 2) kAllPassCoefsQ15.1 x0 hp) as (h1 & u1 & EA & Z1); [lia..|].
  rewrite (bind_eq _ _ _ EA). do 2 mem_step.
  destruct (AllPassFilter_safe x 1 (n / 2) kAllPassCoefsQ15.2 x1 lp) as (l1 & v1 & EB & Z2); [lia..|].
  rewrite (bind_eq _ _ _ EB). mem_step. cbn [fst snd].
  match goal with |- context [for_loop _ 0 ?f ?a] =>
    destruct (for_loop_to (fun r => zlen r.1 = zlen hp /\ zlen r.2 = zlen lp) f (n / 2) a) as ([h l2] & EC & H1 & H2) end.
  - done.
  - intros j [h l2] Hj [Hh' Hl']. cbn [fst snd] in *.
    repeat mem_step. eexists. split; [reflexivity|]. cbn [fst snd]. lia.
  - rewrite (bind_eq _ _ _ EC). do 4 eexists. split; [reflexivity|]. cbn [fst snd] in *. lia.
Qed.

Lemma LogOfEnergy_safe x n ofs t :
  0 <= n <= zlen x -> in_s16 ofs -> exists e t', LogOfEnergy x n ofs t = Some (e, t') /\ in_s16 e.
Proof.
  intros Hn Ho. unfold LogOfEnergy. rewrite aload_in by lia. cbn [mbind option_bind].
  destruct (Energy _) as [e k]. case_if; eexists _, _; (split; [reflexivity|]); [|done]. apply s16_range.
Qed.

Ltac split_step :=
  match goal with
  | |- context [SplitFilter ?x ?n ?b ?up ?lo ?hp ?lp ≫= _] =>
      let h := fresh "h" in let l := fresh "l" in let u := fresh "u" in let d := fresh "d" in
      let E := fresh "E" in let Z1 := fresh "Z" in let Z2 := fresh "Z" in let Z3 := fresh "Z" in let Z4 := fresh "Z" in
      destruct (SplitFilter_safe x n b up lo hp lp) as (h & l & u & d & E & Z1 & Z2 & Z3 & Z4);
        [rewrite ?shiftr_one; lia..|rewrite (bind_eq _ _ _ E); cbv beta iota]
  | |- context [LogOfEnergy ?x ?n ?o ?t ≫= _] =>
      let e := fresh "e" in let w := fresh "t" in let E := fresh "E" in let R := fresh "R" in
      destruct (LogOfEnergy_safe x n o t) as (e & w & E & R);
        [lia|try (unfold in_s16; lia); assumption|rewrite (bind_eq _ _ _ E); cbn [fst snd]]
  | |- context [aset ?l ?i ?v ≫= _] =>
      rewrite (bind_eq _ _ _ (aset_in l i v ltac:(rewrite ?zlen_insert; lia)))
  end.

Lemma halve n : 0 <= n -> 0 <= n / 2 /\ 2 * (n / 2) <= n.
Proof. intros. Z.to_euclidean_division_equations; lia. Qed.

Lemma CalculateFeatures_safe self x n m120 m60 feats :
  0 <= n <= zlen x -> n <= 240 -> zlen m120 = 120 -> zlen m60 = 60 -> zlen feats = 6 ->
  zlen (v_upper_state self) = 5 -> zlen (v_lower_state self) = 5 -> zlen (v_hp_filter_state self) = 4 ->
  exists t feats' up lo hp, CalculateFeatures self x n m120 m60 feats =
      Some (t, feats', self <| v_upper_state := up |> <| v_lower_state := lo |> <| v_hp_filter_state := hp |>) /\
    zlen feats' = 6 /\ Forall in_s16 feats' /\ zlen up = 5 /\ zlen lo = 5 /\ zlen hp = 4.
Proof.
  intros Hn Hn2 H120 H60 Hf Hu Hl Hh. unfold CalculateFeatures. cbv zeta.
  destruct (halve n) as [Hh0 Hh1]; [lia|]. destruct (halve (n / 2)) as [Hq0 Hq1]; [lia|].
  destruct (halve (n / 2 / 2)) as [Hr0 Hr1]; [lia|]. destruct (halve (n / 2 / 2 / 2)) as [Hs0 Hs1]; [lia|].
  pose proof shiftr_one as Hsr. rewrite !Hsr.
  change (aget kOffsetVector 0) with (Some 368). change (aget kOffsetVector 1) with (Some 368).
  change (aget kOffsetVector 2) with (Some 272). change (aget kOffsetVector 3) with (Some 176).
  change (aget kOffsetVector 4) with (Some 176). change (aget kOffsetVector 5) with (Some 176).
  rewrite !(bind_eq _ _ _ eq_refl).
  destruct feats as [|f0 [|f1 [|f2 [|f3 [|f4 [|f5 [|]]]]]]]; try (unfold zlen in Hf; cbn in Hf; lia).
  repeat split_step.
  destruct (HighPassFilter_safe l3 (n / 2 / 2 / 2 / 2) (v_hp_filter_state self) h2) as (h4 & st & Ehp & Zh & Zst); [lia..|].
  rewrite (bind_eq _ _ _ Ehp). cbn [fst snd]. repeat split_step.
  do 5 eexists. split; [reflexivity|]. split; [rewrite !zlen_insert; exact Hf|].
  split; [|lia]. cbn. repeat (constructor; [assumption|]). constructor.
Qed.

(** ** The mixtures *)

Lemma channel_index c k : 0 <= c < 6 -> 0 <= k < 2 -> 0 <= c + k * kNumChannels < 12.
Proof. unfold kNumChannels. lia. Qed.

Lemma WeightedAverage_safe data c ofs w :
  0 <= c < 6 -> zlen data = 12 -> zlen w = 12 ->
  exists a data', WeightedAverage data c ofs w = Some (a, data') /\ zlen data' = 12.
Proof.
  intros Hc Hd Hw. unfold WeightedAverage, kNumGaussians.
  match goal with |- context [for_loop _ 0 ?f ?a] =>
    destruct (for_loop_to (fun r => zlen r.2 = 12) f 2 a) as ([a1 d] & EA & H1) end.
  - done.
  - intros j [a1 d] Hj Hz. cbn [snd] in *. pose proof (channel_index c j Hc Hj). repeat mem_step.
    eexists. split; [reflexivity|]. cbn [snd]. lia.
  - exists a1, d. done.
Qed.

Lemma mixture_safe mc c f means stds w deltas :
  0 <= c < 6 -> zlen means = 12 -> zlen stds = 12 -> zlen w = 12 -> zlen deltas = 12 ->
  exists p q t deltas', mixture mc c f means stds w deltas = Some (p, q, t, deltas') /\ zlen deltas' = 12.
Proof.
  intros Hc Hm Hs Hw Hd. unfold mixture, kNumChannels. cbv zeta. repeat mem_step.
  do 4 eexists. split; [reflexivity|]. lia.
Qed.

Lemma conditional_safe c p t low pr :
  0 <= c < 6 -> zlen pr = 12 -> exists pr', conditional c p t low pr = Some pr' /\ zlen pr' = 12.
Proof.
  intros Hc Hp. unfold conditional, kNumChannels. cbv zeta. case_if.
  - mem_step. apply aset_zlen; lia.
  - destruct low; [apply aset_zlen; lia|by exists pr].
Qed.

Definition gmm_ok (g : Gmm) : Prop :=
  zlen (g_deltaN g) = 12 /\ zlen (g_deltaS g) = 12 /\ zlen (g_ngprvec g) = 12 /\ zlen (g_sgprvec g) = 12 /\
  (g_vadflag g = 0 \/ g_vadflag g = 1).

(** Standard deviations are never below their initial minimum. *)
Definition stds_ok (l : list Z) : Prop := zlen l = 12 /\ Forall (fun x => 378 <= x <= 32767) l.

Record vad_inv (v : VadInst) : Prop := {
  vi_down8 : zlen (v_down_8 v) = 2;
  vi_down16 : zlen (v_down_16 v) = 2;
  vi_state48 : state_48_8_ok (v_state_48_to_8 v);
  vi_nmeans : zlen (v_noise_means v) = 12;
  vi_smeans : zlen (v_speech_means v) = 12;
  vi_nstds : stds_ok (v_noise_stds v);
  vi_sstds : stds_ok (v_speech_stds v);
  vi_min : min_ok v;
  vi_upper : zlen (v_upper_state v) = 5;
  vi_lower : zlen (v_lower_state v) = 5;
  vi_hp : zlen (v_hp_filter_state v) = 4;
  vi_individual : zlen (v_individual v) = 3;
  vi_total : zlen (v_total v) = 3;
  vi_hang1 : zlen (v_over_hang_max_1 v) = 3 /\ Forall (fun x => 0 <= x <= 14) (v_over_hang_max_1 v);
  vi_hang2 : zlen (v_over_hang_max_2 v) = 3 /\ Forall (fun x => 0 <= x <= 14) (v_over_hang_max_2 v);
  vi_hang : 0 <= v_over_hang v <= 14;
  vi_speech : 0 <= v_num_of_speech v <= 6;
}.

(** The band of the features and its part in the decision. *)
Lemma gmm_band_safe mc v feats it c g :
  vad_inv v -> zlen feats = 6 -> 0 <= c < 6 -> gmm_ok g ->
  exists g', gmm_band mc v feats it c g = Some g' /\ gmm_ok g'.
Proof.
  intros Hv Hf Hc (H1 & H2 & H3 & H4 & H5). unfold gmm_band. cbv zeta. mem_step.
  destruct (mixture_safe mc c x (v_noise_means v) (v_noise_stds v) kNoiseDataWeights (g_deltaN g))
    as (p & q & t & dN & EA & Z1); [done|apply Hv|apply Hv|done|done|]. rewrite (bind_eq _ _ _ EA).
  destruct (mixture_safe mc c x (v_speech_means v) (v_speech_stds v) kSpeechDataWeights (g_deltaS g))
    as (p' & q' & t' & dS & EB & Z2); [done|apply Hv|apply Hv|done|done|]. rewrite (bind_eq _ _ _ EB).
  destruct (aget_in kSpectrumWeight c ltac:(exact Hc)) as [w Ew]. rewrite (bind_eq _ _ _ Ew).
  destruct (conditional_safe c p t (Some 16384) (g_ngprvec g) Hc H3) as (n' & EC & Z3). rewrite (bind_eq _ _ _ EC).
  destruct (conditional_safe c p' t' None (g_sgprvec g) Hc H4) as (s' & ED & Z4). rewrite (bind_eq _ _ _ ED).
  eexists. split; [reflexivity|]. repeat (split; [done|]). cbn [g_vadflag]. case_if; auto.
Qed.

(** What a decision leaves alone. *)
Definition hang_fields (v : VadInst) :=
  (v_over_hang v, v_num_of_speech v, v_over_hang_max_1 v, v_over_hang_max_2 v, v_individual v, v_total v, v_init_flag v).

Lemma min_ok_same v v' :
  min_ok v -> v_low_value_vector v' = v_low_value_vector v -> v_index_vector v' = v_index_vector v ->
  v_mean_value v' = v_mean_value v -> min_ok v'.
Proof.
  intros [H1 H2 H3 H4] E1 E2 E3. constructor; [congruence..|]. unfold entries. rewrite E1, E2. exact H4.
Qed.

Lemma vad_inv_means v n s ns ss :
  vad_inv v -> zlen n = 12 -> zlen s = 12 -> stds_ok ns -> stds_ok ss ->
  vad_inv (v <| v_noise_means := n |> <| v_speech_means := s |> <| v_noise_stds := ns |> <| v_speech_stds := ss |>).
Proof. intros [] Hn Hs Hns Hss. constructor; try assumption. by apply (min_ok_same v). Qed.

Lemma stds_ok_set l i x : stds_ok l -> 0 <= i < 12 -> 378 <= x <= 32767 -> exists l', aset l i x = Some l' /\ stds_ok l'.
Proof.
  intros [Hl Hf] Hi Hx. rewrite aset_in by lia. eexists. split; [reflexivity|].
  split; [by rewrite zlen_insert|]. by apply Forall_insert.
Qed.

Lemma next_speech_std_range a b c d e : 378 <= next_speech_std a b c d e <= 32767.
Proof.
  unfold next_speech_std. cbv zeta.
  match goal with |- context [if ?x <? kMinStd then _ else _] => assert (H : in_s16 x) by apply s16_range; revert H; generalize x end.
  intros x H. unfold in_s16 in H. case_if; unfold kMinStd in *; lia.
Qed.

Lemma next_noise_std_range a b c d e : 378 <= next_noise_std a b c d e <= 32767.
Proof.
  unfold next_noise_std. cbv zeta.
  match goal with |- context [if ?x <? kMinStd then _ else _] => assert (H : in_s16 x) by apply s16_range; revert H; generalize x end.
  intros x H. unfold in_s16 in H. case_if; unfold kMinStd in *; lia.
Qed.

Lemma gmm_gaussian_safe g f fm t ms c k v :
  vad_inv v -> gmm_ok g -> 0 <= c < 6 -> 0 <= k < 2 ->
  exists v', gmm_gaussian g f fm t ms c k v = Some v' /\ vad_inv v' /\ hang_fields v' = hang_fields v.
Proof.
  intros Hv (H1 & H2 & H3 & H4 & _) Hc Hk. pose proof (channel_index c k Hc Hk) as Hi.
  destruct (vi_nstds v Hv) as [Hns Hns2]. destruct (vi_sstds v Hv) as [Hss Hss2].
  pose proof (vi_nmeans v Hv). pose proof (vi_smeans v Hv).
  unfold gmm_gaussian. cbv zeta. do 6 mem_step. mem_step.
  case_if.
  - mem_step. mem_step. destruct (aget_in kMinimumMean k ltac:(exact Hk)) as [mn Emn]. rewrite (bind_eq _ _ _ Emn).
    cbn [v_speech_means v_speech_stds upd]. mem_step.
    destruct (stds_ok_set (v_speech_stds v) (c + k * kNumChannels) (next_speech_std x2 x0 f x6 x5) (vi_sstds v Hv) Hi
      (next_speech_std_range _ _ _ _ _)) as (ss & Ess & Hss').
    rewrite (bind_eq _ _ _ Ess). eexists. split; [reflexivity|]. split; [|reflexivity].
    apply (vad_inv_means v l l0 (v_noise_stds v) ss Hv); [lia|lia|apply Hv|done].
  - destruct (stds_ok_set (v_noise_stds v) (c + k * kNumChannels) (next_noise_std x1 x f x4 x3) (vi_nstds v Hv) Hi
      (next_noise_std_range _ _ _ _ _)) as (ns & Ens & Hns').
    cbn [v_noise_stds upd]. rewrite (bind_eq _ _ _ Ens). eexists. split; [reflexivity|]. split; [|reflexivity].
    apply (vad_inv_means v l (v_speech_means v) ns (v_speech_stds v) Hv); [lia|lia|done|apply Hv].
Qed.

Lemma limit_means_safe means c gm mx :
  zlen means = 12 -> 0 <= c < 6 -> exists means', limit_means means c gm mx = Some means' /\ zlen means' = 12.
Proof.
  intros Hm Hc. unfold limit_means. cbv zeta. case_if; [|by exists means].
  apply for_loop_to; [done|]. intros j m Hj Hz. pose proof (channel_index c j Hc Hj). mem_step. apply aset_zlen; lia.
Qed.

Lemma kMinimumDifference_in c : 0 <= c < 6 -> exists x, aget kMinimumDifference c = Some x.
Proof. intros H. apply aget_in. exact H. Qed.

Lemma gmm_update_safe mc feats g c v ms :
  is_Some (m_past mc) -> vad_inv v -> gmm_ok g -> zlen feats = 6 -> Forall in_s16 feats -> 0 <= c < 6 ->
  exists v' ms', gmm_update mc feats g c (v, ms) = Some (v', ms') /\ vad_inv v' /\ hang_fields v' = hang_fields v.
Proof.
  intros Hmc Hv Hg Hf Hfs Hc. unfold gmm_update.
  destruct (aget_in feats c ltac:(lia)) as [f Ef]. rewrite (bind_eq _ _ _ Ef).
  assert (Hf16 : in_s16 f) by (rewrite aget_lookup in Ef by lia; by eapply Forall_lookup_1 in Ef).
  destruct (FindMinimum_step v f c (vi_min v Hv) Hc Hf16) as (mean & m & v1 & _ & E1 & Hok1 & _ & _ & Ev1 & _).
  rewrite (bind_eq _ _ _ (E1 mc (or_introl Hmc))). clear E1.
  assert (Hv1 : vad_inv v1 /\ hang_fields v1 = hang_fields v).
  { rewrite Ev1 in Hok1 |- *. destruct Hv. split; [constructor; assumption|done]. }
  clear Ev1 Hok1. destruct Hv1 as [Hv1 Hh1].
  destruct (WeightedAverage_safe (v_noise_means v1) c 0 kNoiseDataWeights Hc (vi_nmeans v1 Hv1) eq_refl) as (a & n1 & EA & Zn1).
  rewrite (bind_eq _ _ _ EA). cbn [fst snd]. cbv zeta.
  assert (Hv2 : vad_inv (v1 <| v_noise_means := n1 |>)).
  { apply (vad_inv_means v1 n1 (v_speech_means v1) (v_noise_stds v1) (v_speech_stds v1)); [done..|apply Hv1|apply Hv1|apply Hv1]. }
  match goal with |- context [for_loop _ 0 ?fn ?a] =>
    destruct (for_loop_to (fun w => vad_inv w /\ hang_fields w = hang_fields v) fn kNumGaussians a) as (v3 & E3 & Hv3 & Hh3) end.
  - done.
  - intros k w Hk [Hw Hhw].
    destruct (gmm_gaussian_safe g f m (s16 (Z.shiftr a 6)) ms c k w Hw Hg Hc Hk) as (w' & Ew & Hw' & Hhw').
    exists w'. rewrite Ew, Hhw', Hhw. done.
  - rewrite (bind_eq _ _ _ E3).
    destruct (WeightedAverage_safe (v_noise_means v3) c 0 kNoiseDataWeights Hc (vi_nmeans v3 Hv3) eq_refl) as (b & n2 & EB & Zn2).
    rewrite (bind_eq _ _ _ EB).
    destruct (WeightedAverage_safe (v_speech_means v3) c 0 kSpeechDataWeights Hc (vi_smeans v3 Hv3) eq_refl) as (d & s2 & EC & Zs2).
    rewrite (bind_eq _ _ _ EC). cbn [fst snd].
    destruct (kMinimumDifference_in c Hc) as [md Emd]. rewrite (bind_eq _ _ _ Emd).
    match goal with |- context [(if ?t then ?x else ?y) ≫= _] =>
      assert (HX : exists a1 a2 n3 s3, (if t then x else y) = Some ((a1, s3), (a2, n3)) /\ zlen n3 = 12 /\ zlen s3 = 12) end.
    { case_if; [|by do 4 eexists].
      match goal with |- context [WeightedAverage s2 c ?o _] =>
        destruct (WeightedAverage_safe s2 c o kSpeechDataWeights Hc Zs2 eq_refl) as (d' & s3 & ED & Zs3) end.
      rewrite (bind_eq _ _ _ ED).
      match goal with |- context [WeightedAverage n2 c ?o _] =>
        destruct (WeightedAverage_safe n2 c o kNoiseDataWeights Hc Zn2 eq_refl) as (b' & n3 & EE & Zn3) end.
      rewrite (bind_eq _ _ _ EE). by do 4 eexists. }
    destruct HX as (a1 & a2 & n3 & s3 & EX & Zn3 & Zs3). rewrite (bind_eq _ _ _ EX). cbn [fst snd].
    destruct (aget_in kMaximumSpeech c Hc) as [mx Emx]. rewrite (bind_eq _ _ _ Emx).
    destruct (limit_means_safe s3 c a1 mx Zs3 Hc) as (s4 & ES & Zs4). rewrite (bind_eq _ _ _ ES).
    destruct (aget_in kMaximumNoise c Hc) as [mn Emn]. rewrite (bind_eq _ _ _ Emn).
    destruct (limit_means_safe n3 c a2 mn Zn3 Hc) as (n4 & EN & Zn4). rewrite (bind_eq _ _ _ EN).
    eexists _, _. split; [reflexivity|]. split; [|exact Hh3].
    apply (vad_inv_means v3 n4 s4 (v_noise_stds v3) (v_speech_stds v3)); [done..|apply Hv3|apply Hv3].
Qed.

Lemma gmm_frame_safe mc v feats it tt dN dS :
  is_Some (m_past mc) -> vad_inv v -> zlen feats = 6 -> Forall in_s16 feats -> zlen dN = 12 -> zlen dS = 12 ->
  exists flag v', gmm_frame mc v feats it tt dN dS = Some (flag, v') /\ vad_inv v' /\ hang_fields v' = hang_fields v /\
    (flag = 0 \/ flag = 1).
Proof.
  intros Hmc Hv Hf Hfs HN HS. unfold gmm_frame.
  match goal with |- context [for_loop _ 0 ?fn ?a] =>
    destruct (for_loop_to gmm_ok fn kNumChannels a) as (g & E1 & Hg) end.
  { repeat (split; [done|]). by left. }
  { intros j g Hj Hg. by apply gmm_band_safe. }
  rewrite (bind_eq _ _ _ E1). cbv zeta. set (flag := Z.lor _ _).
  assert (Hflag : flag = 0 \/ flag = 1).
  { unfold flag. destruct Hg as (_ & _ & _ & _ & [-> | ->]); destruct (_ <=? _); cbn; auto. }
  assert (Hg2 : gmm_ok (g <| g_vadflag := flag |>)).
  { destruct Hg as (H1 & H2 & H3 & H4 & _). repeat (split; [done|]). exact Hflag. }
  match goal with |- context [for_loop _ 0 ?fn ?a] =>
    destruct (for_loop_to (fun r => vad_inv r.1 /\ hang_fields r.1 = hang_fields v) fn kNumChannels a)
      as ([w ms] & E2 & Hw & Hhw) end.
  - done.
  - intros j [w ms] Hj [Hw Hhw]. cbn [fst] in *.
    destruct (gmm_update_safe mc feats (g <| g_vadflag := flag |>) j w ms Hmc Hw Hg2 Hf Hfs Hj) as (w' & ms' & E & Hw' & Hhw').
    exists (w', ms'). cbn [fst]. split; [exact E|]. split; [done|congruence].
  - rewrite (bind_eq _ _ _ E2). exists flag. eexists. split; [reflexivity|].
    split; [|split; [exact Hhw|exact Hflag]]. cbn [fst] in Hw. destruct Hw. constructor; try assumption. by apply (min_ok_same w).
Qed.

(** ** Hysteresis *)

Lemma hangover_ok o1 o2 flag v :
  vad_inv v -> 0 <= o1 <= 14 -> 0 <= o2 <= 14 -> flag = 0 \/ flag = 1 ->
  vad_inv (hangover o1 o2 flag v).2 /\ 0 <= (hangover o1 o2 flag v).1 <= 16.
Proof.
  intros Hv Ho1 Ho2 Hflag. pose proof (vi_hang v Hv). pose proof (vi_speech v Hv).
  assert (HS : forall n h, 0 <= n <= 6 -> 0 <= h <= 14 -> vad_inv (v <| v_over_hang := h |> <| v_num_of_speech := n |>)).
  { intros n h Hn Hh. destruct Hv. constructor; try assumption. by apply (min_ok_same v). }
  unfold hangover. destruct Hflag as [-> | ->]; cbn [Z.eqb].
  - case_if; cbn [fst snd].
    + rewrite s16_id by (unfold in_s16; lia). split; [apply (HS 0 (v_over_hang v - 1)); lia|lia].
    + split; [apply (HS 0 (v_over_hang v)); lia|lia].
  - cbn [upd v_num_of_speech]. rewrite s16_id by (unfold in_s16; lia). case_if; cbn [fst snd].
    + split; [|lia]. apply (HS kMaxSpeechFrames o2); unfold kMaxSpeechFrames; lia.
    + split; [|lia]. apply (HS (v_num_of_speech v + 1) o1); unfold kMaxSpeechFrames in *; lia.
Qed.

(** The column of the mode tables. *)
Definition frame_index (n : Z) : Z := if n =? 80 then 0 else if n =? 160 then 1 else 2.

(** The speech decision of a frame, and the hysteresis on it. *)
Lemma GmmProbability_safe mc v feats power n dN dS :
  is_Some (m_past mc) -> vad_inv v -> zlen feats = 6 -> Forall in_s16 feats -> zlen dN = 12 -> zlen dS = 12 ->
  exists o1 o2 it tt flag v',
    aget (v_over_hang_max_1 v) (frame_index n) = Some o1 /\ aget (v_over_hang_max_2 v) (frame_index n) = Some o2 /\
    aget (v_individual v) (frame_index n) = Some it /\ aget (v_total v) (frame_index n) = Some tt /\
    (if kMinEnergy <? power then gmm_frame mc v feats it tt dN dS else Some (0, v)) = Some (flag, v') /\
    GmmProbability mc v feats power n dN dS = Some (hangover o1 o2 flag v') /\
    vad_inv v' /\ hang_fields v' = hang_fields v /\ (flag = 0 \/ flag = 1) /\ 0 <= o1 <= 14 /\ 0 <= o2 <= 14.
Proof.
  intros Hmc Hv Hf Hfs HN HS. unfold GmmProbability. cbv zeta. fold (frame_index n).
  assert (Hidx : 0 <= frame_index n < 3) by (unfold frame_index; repeat case_if; lia).
  destruct (vi_hang1 v Hv) as [L1 F1]. destruct (vi_hang2 v Hv) as [L2 F2].
  pose proof (vi_individual v Hv). pose proof (vi_total v Hv).
  destruct (aget_in (v_over_hang_max_1 v) (frame_index n)) as [o1 E1]; [lia|].
  destruct (aget_in (v_over_hang_max_2 v) (frame_index n)) as [o2 E2]; [lia|].
  exists o1, o2. rewrite (bind_eq _ _ _ E1), (bind_eq _ _ _ E2). do 2 mem_step. exists x, x0.
  assert (HX : exists flag v', (if kMinEnergy <? power then gmm_frame mc v feats x x0 dN dS else Some (0, v)) = Some (flag, v') /\
    vad_inv v' /\ hang_fields v' = hang_fields v /\ (flag = 0 \/ flag = 1)).
  { case_if; [by apply gmm_frame_safe|]. exists 0, v. auto. }
  destruct HX as (flag & v' & EX & Hv' & Hh & Hflag). rewrite (bind_eq _ _ _ EX). exists flag, v'.
  do 9 (split; [done|]). split; [exact (aget_Forall _ _ _ _ F1 E1)|exact (aget_Forall _ _ _ _ F2 E2)].
Qed.
