(* ===== verification/VadOps.v ===== *)
(** The interface of the voice activity detector ([webrtc_vad.c]): every
    sequence of calls stays inside its arrays, and the decisions are those of a
    hysteresis on the decisions of the single frames. *)
From stdpp Require Import sets.
From S2P Require Import Prelude SplMath Resample Vad VadMin VadInv.

(** ** The frame at 8 kHz *)

(** The local arrays have their lengths; the read behind the last entry of
    [index_vector] and [low_value_vector] finds something, whatever it is. *)
Record locals_ok (loc : Locals) : Prop := {
  lo_120 : zlen (l_120 loc) = 120;
  lo_60 : zlen (l_60 loc) = 60;
  lo_6 : zlen (l_6 loc) = 6;
  lo_12 : zlen (l_12 loc) = 12;
  lo_240 : zlen (l_240 loc) = 240;
  lo_480 : zlen (l_480 loc) = 480;
  lo_past : is_Some (m_past (l_machine loc));
}.

(** What [CalcVad16khz], [CalcVad32khz] and [CalcVad48khz] hand to
    [CalcVad8khz]: the frame, its length, and the instance with the new states of
    the resamplers. *)
Definition at_8khz (loc : Locals) (v : VadInst) (fs : Z) (frame : list Z) (n : Z) : option (list Z * Z * VadInst) :=
  if fs =? 48000 then
    r ← for_loop (Z.to_nat (Z.quot n 480)) 0 (fun i st =>
          let '(nb, state, tmp_mem) := st in
          Resample48khzTo8khz frame nb (i * 80) state tmp_mem)
          (l_240 loc, v_state_48_to_8 v, replicate 736 0);
    Some (r.1.1, Z.quot n 6, v <| v_state_48_to_8 := r.1.2 |>)
  else if fs =? 32000 then
    w ← Downsampling frame (l_480 loc) (v_down_16 v) n;
    d ← Downsampling w.1 (l_240 loc) (v_down_8 v) (Z.shiftr n 1);
    Some (d.1, Z.shiftr (Z.shiftr n 1) 1, v <| v_down_16 := w.2 |> <| v_down_8 := d.2 |>)
  else if fs =? 16000 then
    d ← Downsampling frame (l_240 loc) (v_down_8 v) n;
    Some (d.1, Z.shiftr n 1, v <| v_down_8 := d.2 |>)
  else Some (frame, n, v).

Inductive valid_format : Z -> Z -> Prop :=
  | VF fs ms : fs ∈ kValidRates -> ms ∈ [10; 20; 30] -> valid_format fs (fs / 1000 * ms).

(** The loop over the frame lengths. *)
Lemma valid_length_spec r n : valid_length 4 r 10 n = true <-> exists ms, ms ∈ [10; 20; 30] /\ n = Z.quot r 1000 * ms.
Proof.
  change (valid_length 4 r 10 n) with
    ((n =? Z.quot r 1000 * 10) || ((n =? Z.quot r 1000 * 20) || ((n =? Z.quot r 1000 * 30) || false))).
  rewrite !orb_true_iff, !Z.eqb_eq. split.
  - intros [H|[H|[H|H]]]; [exists 10|exists 20|exists 30|discriminate]; (split; [set_solver|exact H]).
  - intros (ms & Hms & ->). set_unfold in Hms. intuition congruence.
Qed.

Lemma valid_rate_spec rates fs n :
  valid_rate rates fs n = (if bool_decide (fs ∈ rates) then if valid_length 4 fs 10 n then 0 else -1 else -1).
Proof.
  induction rates as [|r rates IH]; [done|]. cbn [valid_rate]. case_if.
  - subst r. rewrite bool_decide_eq_true_2 by set_solver. done.
  - rewrite IH. rewrite (bool_decide_ext (fs ∈ r :: rates) (fs ∈ rates)); [done|].
    rewrite elem_of_cons. split; [intros [->|Hr]|]; auto. done.
Qed.

Lemma valid_format_spec fs n : ValidRateAndFrameLength fs n = 0 <-> valid_format fs n.
Proof.
  unfold ValidRateAndFrameLength. rewrite valid_rate_spec. split.
  - case_bool_decide as Hfs; [|discriminate]. destruct (valid_length 4 fs 10 n) eqn:El; [|discriminate].
    apply valid_length_spec in El as (ms & Hms & ->). intros _.
    rewrite Z.quot_div_nonneg by (unfold kValidRates in Hfs; set_unfold in Hfs; lia). by constructor.
  - intros [fs' ms Hfs Hms]. rewrite bool_decide_eq_true_2 by done.
    replace (valid_length 4 fs' 10 (fs' / 1000 * ms)) with true; [done|]. symmetry. apply valid_length_spec. exists ms.
    split; [done|]. rewrite Z.quot_div_nonneg by (unfold kValidRates in Hfs; set_unfold in Hfs; lia). done.
Qed.

Lemma valid_cases (P : Z -> Z -> Prop) :
  (forall k, k = 1 \/ k = 2 \/ k = 3 -> P 8000 (80 * k) /\ P 16000 (160 * k) /\ P 32000 (320 * k) /\ P 48000 (480 * k)) ->
  forall fs n, valid_format fs n -> P fs n.
Proof.
  intros H _ _ [fs' ms Hfs Hms]. unfold kValidRates in Hfs. apply list_elem_of_In in Hfs, Hms. cbn [In] in Hfs, Hms.
  assert (Hk : exists k, (k = 1 \/ k = 2 \/ k = 3) /\ ms = 10 * k)
    by (destruct Hms as [<-|[<-|[<-|[]]]]; [exists 1|exists 2|exists 3]; split; auto).
  destruct Hk as (k & Hk & ->). destruct (H k Hk) as (H1 & H2 & H3 & H4).
  destruct Hfs as [<-|[<-|[<-|[<-|[]]]]]; rewrite Z.mul_assoc; assumption.
Qed.

(** Case analysis on the format. *)
Ltac by_format :=
  lazymatch goal with |- forall fs n, valid_format fs n -> @?P fs n => apply (valid_cases P); cbv beta end.

Ltac by_k := match goal with H : _ = 1 \/ _ = 2 \/ _ = 3 |- _ => destruct H as [->|[->| ->]]; reflexivity end.

(** The frame length at 8 kHz. *)
Definition length_8khz (fs n : Z) : Z := n / (fs / 8000).

Lemma length_8khz_cases fs n : valid_format fs n -> length_8khz fs n = 80 \/ length_8khz fs n = 160 \/ length_8khz fs n = 240.
Proof.
  revert fs n. by_format.
  intros k [->|[->| ->]]; vm_compute; auto 10.
Qed.

Lemma down_48_safe v k frame nb :
  vad_inv v -> k = 1 \/ k = 2 \/ k = 3 -> zlen frame = 480 * k -> zlen nb = 240 ->
  exists nb' state tmp, for_loop (Z.to_nat k) 0 (fun i st =>
      let '(nb, state, tmp_mem) := st in
      Resample48khzTo8khz frame nb (i * 80) state tmp_mem) (nb, v_state_48_to_8 v, replicate 736 0) = Some (nb', state, tmp) /\
    zlen nb' = 240 /\ state_48_8_ok state.
Proof.
  intros Hv Hk Hf Hnb.
  match goal with |- context [for_loop _ 0 ?f ?a] =>
    destruct (for_loop_to (fun st => zlen st.1.1 = 240 /\ state_48_8_ok st.1.2 /\ zlen st.2 = 736) f k a)
      as ([[nb' state] tmp] & E & H1 & H2 & _) end.
  - split; [done|]. split; [apply Hv|done].
  - intros i [[o s] t] Hi (Ho & Hs & Ht). cbn [fst snd] in Ho, Hs, Ht.
    destruct (Resample48khzTo8khz_safe frame o (i * 80) s t) as (o' & s' & t' & E & Zo & Hs' & Zt); [lia..|done|].
    exists (o', s', t'). cbn [fst snd]. split; [exact E|]. split; [lia|]. split; [done|lia].
  - by exists nb', state, tmp.
Qed.

Lemma at_8khz_safe loc v fs frame n :
  vad_inv v -> locals_ok loc -> valid_format fs n -> zlen frame = n ->
  exists x v', at_8khz loc v fs frame n = Some (x, length_8khz fs n, v') /\
    length_8khz fs n <= zlen x /\ vad_inv v' /\ hang_fields v' = hang_fields v.
Proof.
  intros Hv Hloc Hvf. revert fs n Hvf frame. by_format.
  intros k Hk.
  assert (Hupd : forall d8 d16 s, zlen d8 = 2 -> zlen d16 = 2 -> state_48_8_ok s ->
    vad_inv (v <| v_down_8 := d8 |> <| v_down_16 := d16 |> <| v_state_48_to_8 := s |>)).
  { intros d8 d16 s H1 H2 H3. destruct Hv. constructor; try assumption. by apply (min_ok_same v). }
  assert (E6 : length_8khz 48000 (480 * k) = 80 * k) by by_k.
  assert (E4 : length_8khz 32000 (320 * k) = 80 * k) by by_k.
  assert (E2 : length_8khz 16000 (160 * k) = 80 * k) by by_k.
  assert (E1 : length_8khz 8000 (80 * k) = 80 * k) by by_k.
  assert (S4 : Z.shiftr (320 * k) 1 = 160 * k) by by_k.
  assert (S2 : Z.shiftr (160 * k) 1 = 80 * k) by by_k.
  destruct Hloc. pose proof (vi_down8 v Hv). pose proof (vi_down16 v Hv). pose proof (vi_state48 v Hv).
  rewrite E6, E4, E2, E1. unfold at_8khz. cbn [Z.eqb Pos.eqb].
  split; [|split; [|split]]; intros frame Hf.
  - exists frame, v. split; [done|]. split; [lia|done].
  - destruct (Downsampling_safe frame (l_240 loc) (v_down_8 v) (160 * k)) as (x & s & E & Zx & Zs); [lia..|].
    rewrite (bind_eq _ _ _ E), S2. eexists _, _. split; [reflexivity|]. split; [cbn [fst]; lia|].
    split; [exact (Hupd s (v_down_16 v) (v_state_48_to_8 v) Zs ltac:(done) ltac:(done))|done].
  - destruct (Downsampling_safe frame (l_480 loc) (v_down_16 v) (320 * k)) as (w & s & E & Zw & Zs); [lia..|].
    rewrite (bind_eq _ _ _ E), S4. cbn [fst snd].
    destruct (Downsampling_safe w (l_240 loc) (v_down_8 v) (160 * k)) as (x & s8 & E' & Zx & Zs8); [lia..|].
    rewrite (bind_eq _ _ _ E'), S2. eexists _, _. split; [reflexivity|]. split; [cbn [fst]; lia|].
    split; [exact (Hupd s8 s (v_state_48_to_8 v) Zs8 Zs ltac:(done))|done].
  - replace (Z.quot (480 * k) 480) with k by by_k.
    replace (Z.quot (480 * k) 6) with (80 * k) by by_k.
    destruct (down_48_safe v k frame (l_240 loc) Hv Hk Hf ltac:(done)) as (x & s & t & E & Zx & Hs).
    rewrite (bind_eq _ _ _ E). eexists _, _. split; [reflexivity|]. split; [cbn [fst]; lia|].
    split; [exact (Hupd (v_down_8 v) (v_down_16 v) s ltac:(done) ltac:(done) Hs)|done].
Qed.

(** ** One frame *)

(** The call, for a valid frame. *)
Lemma Process_eq loc v fs frame n :
  v_init_flag v = kInitCheck -> valid_format fs n ->
  Process loc (Some v) fs (Some frame) n =
  (p ← at_8khz loc v fs frame n;
   r ← CalcVad8khz loc p.2 p.1.1 p.1.2;
   Some (if 0 <? r.1 then 1 else r.1, Some r.2)).
Proof.
  intros Hi Hvf. unfold Process. rewrite Hi, Z.eqb_refl. cbn [negb].
  pose proof (proj2 (valid_format_spec fs n) Hvf) as ->. cbn [Z.eqb negb].
  revert fs n Hvf. by_format. intros k Hk. unfold at_8khz. cbn [Z.eqb Pos.eqb].
  repeat split.
  - unfold CalcVad16khz. by destruct (Downsampling _ _ _ _) as [[? ?]|].
  - unfold CalcVad32khz. destruct (Downsampling frame _ _ _) as [[w s]|]; [|done]. cbn [mbind option_bind fst snd].
    by destruct (Downsampling w _ _ _) as [[? ?]|].
  - unfold CalcVad48khz. by destruct (for_loop _ _ _ _) as [[[? ?] ?]|].
Qed.

(** The decision of a frame by itself: that of the mixtures when there is enough
    power. *)
Definition speech_flag (loc : Locals) (v : VadInst) (fs : Z) (frame : list Z) (n : Z) : option Z :=
  p ← at_8khz loc v fs frame n;
  f ← CalculateFeatures p.2 p.1.1 p.1.2 (l_120 loc) (l_60 loc) (l_6 loc);
  let '(power, features, v) := f in
  individualTest ← aget (v_individual v) (frame_index p.1.2);
  totalTest ← aget (v_total v) (frame_index p.1.2);
  r ← (if kMinEnergy <? power
       then gmm_frame (l_machine loc) v features individualTest totalTest (l_12 loc) (l_12 loc)
       else Some (0, v));
  Some r.1.

Lemma hang_fields_init v w : hang_fields w = hang_fields v -> v_init_flag w = v_init_flag v.
Proof. by intros [=]. Qed.

Lemma Process_step loc v fs frame n :
  vad_inv v -> v_init_flag v = kInitCheck -> locals_ok loc -> valid_format fs n -> zlen frame = n ->
  exists o1 o2 flag w,
    aget (v_over_hang_max_1 v) (frame_index (length_8khz fs n)) = Some o1 /\
    aget (v_over_hang_max_2 v) (frame_index (length_8khz fs n)) = Some o2 /\
    speech_flag loc v fs frame n = Some flag /\ (flag = 0 \/ flag = 1) /\ 0 <= o1 <= 14 /\ 0 <= o2 <= 14 /\
    vad_inv w /\ hang_fields w = hang_fields v /\
    let r := hangover o1 o2 flag w in
    Process loc (Some v) fs (Some frame) n = Some (b2z (0 <? r.1), Some (r.2 <| v_vad := r.1 |>)).
Proof.
  intros Hv Hi Hloc Hvf Hf.
  destruct (at_8khz_safe loc v fs frame n Hv Hloc Hvf Hf) as (x & v1 & E1 & Hx & Hv1 & Hh1).
  pose proof (length_8khz_cases fs n Hvf) as Hl. destruct Hloc.
  destruct (CalculateFeatures_safe v1 x (length_8khz fs n) (l_120 loc) (l_60 loc) (l_6 loc))
    as (power & feats & up & lo & hp & E2 & Lf & Ff & Lu & Ll & Lh); [lia|lia|done..|apply Hv1|apply Hv1|apply Hv1|].
  set (v2 := v1 <| v_upper_state := up |> <| v_lower_state := lo |> <| v_hp_filter_state := hp |>) in *.
  assert (Hv2 : vad_inv v2) by (destruct Hv1; constructor; try assumption; by apply (min_ok_same v1)).
  destruct (GmmProbability_safe (l_machine loc) v2 feats power (length_8khz fs n) (l_12 loc) (l_12 loc) lo_past0 Hv2 Lf Ff ltac:(done) ltac:(done))
    as (o1 & o2 & it & tt & flag & w & A1 & A2 & A3 & A4 & E3 & E4 & Hw & Hhw & Hflag & B1 & B2).
  exists o1, o2, flag, w.
  assert (Hh : hang_fields w = hang_fields v) by (rewrite Hhw; exact Hh1).
  split; [rewrite <-A1; f_equal; by injection Hh1|].
  split; [rewrite <-A2; f_equal; by injection Hh1|]. split.
  { unfold speech_flag. rewrite (bind_eq _ _ _ E1). cbn [fst snd]. rewrite (bind_eq _ _ _ E2).
    rewrite (bind_eq _ _ _ A3), (bind_eq _ _ _ A4), (bind_eq _ _ _ E3). done. }
  do 5 (split; [done|]). cbv zeta. rewrite Process_eq by done. rewrite (bind_eq _ _ _ E1). cbn [fst snd].
  unfold CalcVad8khz. rewrite (bind_eq _ _ _ E2), (bind_eq _ _ _ E4). cbn [mbind option_bind fst snd].
  destruct (hangover_ok o1 o2 flag w Hw B1 B2 Hflag) as [_ Hr].
  do 2 f_equal. destruct (Z.ltb_spec 0 (hangover o1 o2 flag w).1); cbn; lia.
Qed.

(** ** The hysteresis *)

(** A history of frame decisions, the latest first: the silent frames since the
    last speech, and the length of the latest run of speech frames. *)
Fixpoint silent (past : list Z) : nat :=
  match past with
  | f :: past => if f =? 0 then S (silent past) else 0
  | [] => 0
  end.

Fixpoint spoken (past : list Z) : nat :=
  match past with
  | f :: past => if f =? 0 then 0 else S (spoken past)
  | [] => 0
  end.

Definition last_speech (past : list Z) : list Z := drop (silent past) past.

(** How many silent frames still count as speech: more after a long run. *)
Definition hang_length (o1 o2 : Z) (past : list Z) : Z :=
  if kMaxSpeechFrames <? Z.of_nat (spoken (last_speech past)) then o2 else o1.

Definition active (o1 o2 : Z) (past : list Z) : bool :=
  match last_speech past with
  | [] => false
  | _ => Z.of_nat (silent past) <=? hang_length o1 o2 past
  end.

Fixpoint decisions (o1 o2 : Z) (past flags : list Z) : list Z :=
  match flags with
  | [] => []
  | f :: flags => b2z (active o1 o2 (f :: past)) :: decisions o1 o2 (f :: past) flags
  end.

Definition hang_inv (o1 o2 : Z) (past : list Z) (v : VadInst) : Prop :=
  v_num_of_speech v = Z.min (Z.of_nat (spoken past)) kMaxSpeechFrames /\
  v_over_hang v = match last_speech past with
                  | [] => 0
                  | _ => Z.max 0 (hang_length o1 o2 past - Z.of_nat (silent past))
                  end.

Ltac bool_eq := apply Bool.eq_iff_eq_true; rewrite ?Z.ltb_lt, ?Z.leb_le; lia.

Lemma hangover_refines o1 o2 past flag v :
  hang_inv o1 o2 past v -> flag = 0 \/ flag = 1 -> 0 <= o1 <= 14 -> 0 <= o2 <= 14 ->
  let r := hangover o1 o2 flag v in
  (0 <? r.1) = active o1 o2 (flag :: past) /\ hang_inv o1 o2 (flag :: past) r.2.
Proof.
  intros [Hn Hh] Hflag H1 H2. cbv zeta. unfold hangover, hang_inv, active.
  destruct Hflag as [-> | ->]; cbn [Z.eqb].
  - change (last_speech (0 :: past)) with (last_speech past).
    change (silent (0 :: past)) with (S (silent past)). change (spoken (0 :: past)) with 0%nat.
    assert (EH : hang_length o1 o2 (0 :: past) = hang_length o1 o2 past) by done. rewrite EH.
    assert (0 <= hang_length o1 o2 past <= 14) by (unfold hang_length; case_if; lia).
    destruct (last_speech past) as [|f r].
    + rewrite Hh. cbn. done.
    + case_if; cbn [fst snd upd v_num_of_speech v_over_hang].
      * rewrite s16_id by (unfold in_s16; lia). split; [bool_eq|]. split; [done|lia].
      * split; [bool_eq|]. split; [done|lia].
  - change (last_speech (1 :: past)) with (1 :: past). change (silent (1 :: past)) with 0%nat.
    unfold hang_length. change (last_speech (1 :: past)) with (1 :: past).
    change (spoken (1 :: past)) with (S (spoken past)).
    cbn [upd v_num_of_speech]. rewrite Hn. unfold kMaxSpeechFrames. rewrite s16_id by (unfold in_s16; lia).
    assert (EB : (6 <? Z.min (Z.of_nat (spoken past)) 6 + 1) = (6 <? Z.of_nat (S (spoken past)))) by bool_eq. rewrite EB.
    case_if; cbn [fst snd upd v_num_of_speech v_over_hang]; (split; [bool_eq|]; split; lia).
Qed.

Lemma hangover_keeps o1 o2 flag v :
  exists h k, (hangover o1 o2 flag v).2 = v <| v_over_hang := h |> <| v_num_of_speech := k |>.
Proof. unfold hangover. repeat case_match; simplify_eq; by eexists _, _. Qed.

(** ** Sequences of frames *)

Fixpoint process_run (fs n : Z) (frames : list (Locals * list Z)) (v : VadInst) : option (list Z * list Z * VadInst) :=
  match frames with
  | [] => Some ([], [], v)
  | (loc, x) :: frames =>
      flag ← speech_flag loc v fs x n;
      r ← Process loc (Some v) fs (Some x) n;
      v ← r.2;
      q ← process_run fs n frames v;
      Some (flag :: q.1.1, r.1 :: q.1.2, q.2)
  end.

Lemma process_run_refines fs n o1 o2 frames : forall past v,
  valid_format fs n -> Forall (fun f => locals_ok f.1 /\ zlen f.2 = n) frames ->
  vad_inv v -> v_init_flag v = kInitCheck -> hang_inv o1 o2 past v ->
  aget (v_over_hang_max_1 v) (frame_index (length_8khz fs n)) = Some o1 ->
  aget (v_over_hang_max_2 v) (frame_index (length_8khz fs n)) = Some o2 ->
  exists flags v', process_run fs n frames v = Some (flags, decisions o1 o2 past flags, v') /\
    length flags = length frames /\ Forall (fun f => f = 0 \/ f = 1) flags /\ vad_inv v'.
Proof.
  induction frames as [|[loc x] frames IH]; intros past v Hvf Hfr Hv Hi Hh E1 E2.
  { exists [], v. cbn. auto. }
  inversion_clear Hfr as [|? ? [Hloc Hx] Hfr']. cbn [fst snd] in *.
  destruct (Process_step loc v fs x n Hv Hi Hloc Hvf Hx) as (o1' & o2' & flag & w & A1 & A2 & Ef & Hflag & B1 & B2 & Hw & Hhw & EP).
  rewrite A1 in E1. rewrite A2 in E2. injection E1 as ->. injection E2 as ->. cbv zeta in EP.
  assert (Hh' : hang_inv o1 o2 past w).
  { unfold hang_inv in *. injection Hhw as Ea Eb _. rewrite Ea, Eb. exact Hh. }
  destruct (hangover_refines o1 o2 past flag w Hh' Hflag B1 B2) as [Ed Hh2].
  destruct (hangover_ok o1 o2 flag w Hw B1 B2 Hflag) as [Hv2 _].
  set (v2 := (hangover o1 o2 flag w).2 <| v_vad := (hangover o1 o2 flag w).1 |>) in *.
  assert (Hsame : v_init_flag v2 = v_init_flag w /\ v_over_hang_max_1 v2 = v_over_hang_max_1 w /\
                  v_over_hang_max_2 v2 = v_over_hang_max_2 w).
  { unfold v2. destruct (hangover_keeps o1 o2 flag w) as (h & k & ->). done. }
  destruct Hsame as (S1 & S2 & S3). injection Hhw as _ _ T2 T3 _ _ T1.
  assert (Hv2' : vad_inv v2).
  { destruct Hv2. constructor; try assumption. by apply (min_ok_same (hangover o1 o2 flag w).2). }
  destruct (IH (flag :: past) v2 Hvf Hfr' Hv2') as (flags & v' & ER & El & Hfl & Hv'); [congruence|exact Hh2|congruence|congruence|].
  exists (flag :: flags), v'. cbn [process_run]. rewrite (bind_eq _ _ _ Ef), (bind_eq _ _ _ EP). cbn [fst snd].
  rewrite (bind_eq _ _ _ eq_refl), (bind_eq _ _ _ ER). cbn [fst snd decisions]. rewrite Ed.
  split; [done|]. split; [cbn [length]; lia|]. split; [|done]. by constructor.
Qed.

(** C15. The decisions of [WebRtcVad_Process] for a stream of frames of one valid
    rate and length are those of a hysteresis on the decisions of the single
    frames (0 or 1): 1 for a frame that is speech, and for the silent frames that
    follow it, as many as the mode's first overhang when the last run of speech
    had at most six frames and its second overhang when it was longer; before
    any speech they are 0.  No call fails, and the invariant is kept, whatever
    the uninitialised arrays hold, whatever the read behind the arrays finds when
    [FindMinimum] removes an entry of the last band, and whatever a shift by an
    undefined count gives (all part of [Locals], frame by frame). *)
Theorem Vad_hysteresis fs n o1 o2 frames v :
  valid_format fs n -> Forall (fun f => locals_ok f.1 /\ zlen f.2 = n) frames ->
  vad_inv v -> v_init_flag v = kInitCheck -> v_over_hang v = 0 -> v_num_of_speech v = 0 ->
  aget (v_over_hang_max_1 v) (frame_index (length_8khz fs n)) = Some o1 ->
  aget (v_over_hang_max_2 v) (frame_index (length_8khz fs n)) = Some o2 ->
  exists flags v', process_run fs n frames v = Some (flags, decisions o1 o2 [] flags, v') /\
    length flags = length frames /\ Forall (fun f => f = 0 \/ f = 1) flags /\ vad_inv v'.
Proof. intros Hvf Hfr Hv Hi Hh Hn E1 E2. by apply process_run_refines. Qed.

(** ** Sequences of calls *)

Inductive vad_op :=
  | VInit
  | VSetMode (mode : Z)
  | VProcess (loc : Locals) (fs : Z) (frame : list Z) (n : Z).

Definition vad_call (op : vad_op) (v : VadInst) : option (Z * option VadInst) :=
  match op with
  | VInit => Some (Init (Some v))
  | VSetMode mode => Some (set_mode (Some v) mode)
  | VProcess loc fs frame n => Process loc (Some v) fs (Some frame) n
  end.

Fixpoint vad_calls (ops : list vad_op) (v : VadInst) : option (list Z * VadInst) :=
  match ops with
  | [] => Some ([], v)
  | op :: ops =>
      r ← vad_call op v;
      v ← r.2;
      q ← vad_calls ops v;
      Some (r.1 :: q.1, q.2)
  end.

(** The caller's frame has the length that it tells. *)
Definition vad_op_ok (op : vad_op) : Prop :=
  match op with
  | VProcess loc fs frame n => locals_ok loc /\ (ValidRateAndFrameLength fs n = 0 -> zlen frame = n)
  | _ => True
  end.

(** The documented answer: [ready] tells if the instance is initialised. *)
Definition documented (ready : bool) (op : vad_op) (answer : Z) : Prop :=
  match op with
  | VInit => answer = 0
  | VSetMode mode => answer = if ready && bool_decide (0 <= mode <= 3) then 0 else -1
  | VProcess _ fs _ n => if ready && (ValidRateAndFrameLength fs n =? 0) then answer = 0 \/ answer = 1 else answer = -1
  end.

Fixpoint documented_all (ready : bool) (ops : list vad_op) (answers : list Z) : Prop :=
  match ops, answers with
  | [], [] => True
  | op :: ops, a :: answers =>
      documented ready op a /\ documented_all (match op with VInit => true | _ => ready end) ops answers
  | _, _ => False
  end.

Definition is_ready (v : VadInst) : bool := v_init_flag v =? kInitCheck.
Definition vad_state (v : VadInst) : Prop := v_init_flag v = kInitCheck -> vad_inv v.

Lemma mode_table_ok mode o1 o2 i t :
  mode_table mode = Some (o1, o2, i, t) ->
  zlen o1 = 3 /\ zlen o2 = 3 /\ zlen i = 3 /\ zlen t = 3 /\
  Forall (fun x => 0 <= x <= 14) o1 /\ Forall (fun x => 0 <= x <= 14) o2.
Proof.
  unfold mode_table. intros H.
  repeat case_match; simplify_eq; do 4 (split; [done|]); split; repeat constructor; done.
Qed.

Lemma mode_table_defined mode : (exists p, mode_table mode = Some p) <-> 0 <= mode <= 3.
Proof.
  split.
  - intros [p H]. unfold mode_table in H. repeat case_match; simplify_eq; lia.
  - intros H. assert (E : mode = 0 \/ mode = 1 \/ mode = 2 \/ mode = 3) by lia.
    destruct E as [->|[->|[->| ->]]]; by eexists.
Qed.

Lemma set_mode_core_ok v mode :
  vad_inv v -> vad_inv (set_mode_core v mode).2 /\ v_init_flag (set_mode_core v mode).2 = v_init_flag v /\
  (set_mode_core v mode).1 = if bool_decide (0 <= mode <= 3) then 0 else -1.
Proof.
  intros Hv. unfold set_mode_core. destruct (mode_table mode) as [[[[o1 o2] i] t]|] eqn:Em.
  - rewrite bool_decide_eq_true_2 by (apply mode_table_defined; by eexists).
    apply mode_table_ok in Em as (H1 & H2 & H3 & H4 & H5 & H6). cbn [fst snd].
    split; [|done]. destruct Hv. constructor; try assumption; try (split; assumption). by apply (min_ok_same v).
  - rewrite bool_decide_eq_false_2; [done|]. rewrite <-mode_table_defined, Em. by intros [? ?].
Qed.

Lemma min_ok_initial v :
  v_low_value_vector v = replicate 96 10000 -> v_index_vector v = replicate 96 0 -> v_mean_value v = replicate 6 1600 ->
  min_ok v.
Proof.
  intros E1 E2 E3. constructor; rewrite ?E1, ?E2, ?E3; [reflexivity..|].
  intros c Hc. unfold entries. rewrite E1, E2.
  assert (E : c = 0 \/ c = 1 \/ c = 2 \/ c = 3 \/ c = 4 \/ c = 5) by lia.
  destruct E as [->|[->|[->|[->|[->| ->]]]]]; exact low_values_initial.
Qed.

Ltac list_range := repeat (constructor; [lia|]); constructor.

Lemma InitCore_ok v :
  (InitCore v).1 = 0 /\ vad_inv (InitCore v).2 /\ v_init_flag (InitCore v).2 = kInitCheck /\
  v_over_hang (InitCore v).2 = 0 /\ v_num_of_speech (InitCore v).2 = 0.
Proof.
  split; [reflexivity|]. split; [|done].
  constructor; try reflexivity; try (cbn; lia); try solve [split; [reflexivity|list_range]].
  - repeat split.
  - by apply min_ok_initial.
Qed.

Lemma vad_call_ok op v :
  vad_state v -> vad_op_ok op ->
  exists a v', vad_call op v = Some (a, Some v') /\ documented (is_ready v) op a /\ vad_state v' /\
    is_ready v' = match op with VInit => true | _ => is_ready v end.
Proof.
  intros Hs Hop. unfold is_ready, vad_state in *. destruct op as [|mode|loc fs frame n]; cbn [vad_call documented].
  - destruct (InitCore_ok v) as (H1 & H2 & H3 & _). eexists _, _. split; [reflexivity|].
    split; [done|]. split; [done|]. by rewrite H3.
  - unfold set_mode. destruct (Z.eqb_spec (v_init_flag v) kInitCheck) as [Hi|Hi]; cbn [negb].
    + destruct (set_mode_core_ok v mode (Hs Hi)) as (H1 & H2 & H3). eexists _, _. split; [reflexivity|].
      split; [done|]. split; [done|]. rewrite H2. by apply Z.eqb_eq.
    + exists (-1), v. split; [done|]. split; [done|]. split; [done|]. by apply Z.eqb_neq.
  - destruct Hop as [Hloc Hlen]. destruct (Z.eqb_spec (v_init_flag v) kInitCheck) as [Hi|Hi]; cbn [andb].
    + destruct (Z.eqb_spec (ValidRateAndFrameLength fs n) 0) as [Hvf|Hvf].
      * destruct (Process_step loc v fs frame n (Hs Hi) Hi Hloc (proj1 (valid_format_spec fs n) Hvf) (Hlen Hvf))
          as (o1 & o2 & flag & w & _ & _ & _ & Hflag & B1 & B2 & Hw & Hhw & EP). cbv zeta in EP.
        destruct (hangover_ok o1 o2 flag w Hw B1 B2 Hflag) as [Hv2 _].
        destruct (hangover_keeps o1 o2 flag w) as (h & k & Ek).
        eexists _, _. split; [exact EP|]. split; [destruct (_ <? _); cbn; auto|]. split.
        -- intros _. destruct Hv2. constructor; try assumption. by apply (min_ok_same (hangover o1 o2 flag w).2).
        -- rewrite Ek. cbn. apply Z.eqb_eq. rewrite <-Hi. by apply hang_fields_init.
      * exists (-1), v. unfold Process. rewrite Hi, Z.eqb_refl. cbn [negb].
        replace (ValidRateAndFrameLength fs n =? 0) with false by (symmetry; by apply Z.eqb_neq). cbn [negb].
        split; [done|]. split; [done|]. split; [intros _; by apply Hs|]. reflexivity.
    + exists (-1), v. unfold Process. replace (v_init_flag v =? kInitCheck) with false by (symmetry; by apply Z.eqb_neq).
      cbn [negb]. auto.
Qed.

(** C16. Whatever the memory of a created instance holds, every sequence of calls
    of [WebRtcVad_Init], [WebRtcVad_set_mode] and [WebRtcVad_Process] (with frames
    of the length that the caller tells) stays inside the arrays, but for one read:
    [FindMinimum] reads behind [index_vector] and [low_value_vector] when it removes
    an entry of the last band.  Whatever it finds there, and whatever a shift by an
    undefined count gives, call by call, the calls give the documented answers: [Init] 0; [set_mode] 0 for the modes 0 to 3 of an
    initialised instance, -1 otherwise; [Process] 0 or 1 for a valid rate and
    frame length on an initialised instance, -1 otherwise. *)
Theorem Vad_safe mem self ops :
  Create (Some ()) (Some mem) = (0, Some self) -> Forall vad_op_ok ops ->
  exists answers v', vad_calls ops self = Some (answers, v') /\ documented_all false ops answers /\ vad_state v'.
Proof.
  intros HC Hops.
  assert (Hs : vad_state self /\ is_ready self = false) by (injection HC as <-; split; [intros [=]|done]).
  clear HC. destruct Hs as [Hs <-]. revert self Hs.
  induction Hops as [|op ops Hop Hops IH]; intros v Hs.
  { exists [], v. done. }
  destruct (vad_call_ok op v Hs Hop) as (a & v1 & E & Hd & Hs1 & Hr).
  destruct (IH v1 Hs1) as (answers & v' & E' & Hd' & Hs').
  exists (a :: answers), v'. cbn [vad_calls]. rewrite (bind_eq _ _ _ E). cbn [fst snd].
  rewrite (bind_eq _ _ _ eq_refl), (bind_eq _ _ _ E'). split; [done|]. split; [|done].
  cbn [documented_all]. split; [done|]. by rewrite <-Hr.
Qed.

Definition some_locals : Locals :=
  mkLocals (replicate 120 0) (replicate 60 0) (replicate 6 0) (replicate 12 0) (replicate 240 0) (replicate 480 0) some_machine.

Lemma some_locals_ok : locals_ok some_locals.
Proof. by constructor. Qed.

Definition square_frame (n : Z) : list Z := map (fun i => s16 (Z.of_nat i * Z.of_nat i)) (seq 0 (Z.to_nat n)).

Definition some_calls : list vad_op :=
  [VProcess some_locals 8000 (square_frame 80) 80; VInit; VSetMode 3; VSetMode 4;
   VProcess some_locals 8000 (square_frame 80) 80; VProcess some_locals 48000 (replicate 480 0) 480;
   VProcess some_locals 32000 (square_frame 400) 400].

Lemma Vad_safe_witness :
  exists answers v', vad_calls some_calls (fresh_vad <| v_init_flag := 0 |>) = Some (answers, v') /\
    documented_all false some_calls answers /\ answers = [-1; 0; 0; -1; 1; 1; -1].
Proof.
  assert (H : Forall vad_op_ok some_calls).
  { repeat first [apply some_locals_ok | constructor]. }
  destruct (Vad_safe fresh_vad (fresh_vad <| v_init_flag := 0 |>) some_calls eq_refl H) as (answers & v' & E & Hd & _).
  exists answers, v'. split; [exact E|]. split; [exact Hd|].
  assert (Ha : option_map fst (vad_calls some_calls (fresh_vad <| v_init_flag := 0 |>)) = Some [-1; 0; 0; -1; 1; 1; -1])
    by (vm_compute; reflexivity).
  rewrite E in Ha. cbn [option_map fst] in Ha. congruence.
Defined.

(** One loud frame, then silence (the filters ring for one more frame): in mode 0
    the decision stays for eight frames of 10 ms. *)
Definition some_frames : list (Locals * list Z) :=
  (some_locals, square_frame 80) :: replicate 10 (some_locals, replicate 80 0).

Lemma Vad_hysteresis_witness :
  exists flags v', process_run 8000 80 some_frames fresh_vad = Some (flags, decisions 8 14 [] flags, v') /\
    flags = [1; 1] ++ replicate 9 0 /\ decisions 8 14 [] flags = replicate 10 1 ++ [0].
Proof.
  destruct (InitCore_ok (mkVad 0 [] [] ResetResample48khzTo8khz [] [] [] [] 0 0 0 [] [] [] [] [] [] [] [] [] [] 0))
    as (_ & Hv & Hi & Hh & Hn).
  assert (Hf : Forall (fun f => locals_ok f.1 /\ zlen f.2 = 80) some_frames).
  { repeat first [apply some_locals_ok | constructor]. }
  destruct (Vad_hysteresis 8000 80 8 14 some_frames fresh_vad (proj1 (valid_format_spec 8000 80) eq_refl) Hf Hv Hi Hh Hn
    eq_refl eq_refl) as (flags & v' & E & _).
  exists flags, v'. split; [exact E|].
  assert (Ha : option_map (fun r => r.1.1) (process_run 8000 80 some_frames fresh_vad) = Some ([1; 1] ++ replicate 9 0))
    by (vm_compute; reflexivity).
  rewrite E in Ha. cbn [option_map fst] in Ha. assert (flags = [1; 1] ++ replicate 9 0) as -> by congruence.
  split; [reflexivity|vm_compute; reflexivity].
Defined.

(** ** The 48 kHz path *)

Lemma filter_loop_ext row k len get get' put st :
  (forall mem i, 0 <= i < len -> get mem i = get' mem i) ->
  filter_loop row k len get put st = filter_loop row k len get' put st.
Proof.
  intros H. unfold filter_loop. apply for_loop_ext. intros j [mem state] Hj. by rewrite H by lia.
Qed.

Lemma DownBy2ShortToInt_ext inp inp' len mem out state :
  0 <= len -> (forall i, 0 <= i < len -> aget inp i = aget inp' i) ->
  DownBy2ShortToInt inp len mem out state = DownBy2ShortToInt inp' len mem out state.
Proof.
  intros Hl H. unfold DownBy2ShortToInt. rewrite shiftr_one. cbv zeta.
  assert (2 * (len / 2) <= len) by (Z.to_euclidean_division_equations; lia).
  rewrite (filter_loop_ext 1 0 (len / 2) _ (fun _ i => x ← aget inp' (2 * i); Some (widen x)))
    by (intros; by rewrite H by lia).
  destruct (filter_loop 1 0 _ _ _ _) as [st|]; [|done]. cbn [mbind option_bind].
  apply filter_loop_ext. intros. by rewrite H by lia.
Qed.

(** [WebRtcVad_CalcVad48khz] looks at the first 10 ms of a frame only: the
    pointer to the frame does not move in the loop over its 10 ms blocks, so two
    frames of 20 or 30 ms that begin with the same 480 samples have the same
    decision and leave the same instance, whatever follows. *)
Theorem CalcVad48khz_first_block loc v frame frame' n :
  take 480 frame = take 480 frame' -> CalcVad48khz loc v frame n = CalcVad48khz loc v frame' n.
Proof.
  intros H. assert (Ha : forall i, 0 <= i < 480 -> aget frame i = aget frame' i).
  { intros i Hi. rewrite !aget_lookup by lia.
    rewrite <-(lookup_take_lt frame 480), <-(lookup_take_lt frame' 480) by lia. by rewrite H. }
  unfold CalcVad48khz. cbv zeta.
  match goal with |- (for_loop ?k 0 ?f ?a ≫= _) = (for_loop _ 0 ?g _ ≫= _) =>
    assert (E : for_loop k 0 f a = for_loop k 0 g a); [|by rewrite E] end.
  apply for_loop_ext. intros j [[nb state] tmp] _. unfold Resample48khzTo8khz.
  by rewrite (DownBy2ShortToInt_ext frame frame') by (done || lia).
Qed.

Lemma CalcVad48khz_first_block_witness :
  let loud := square_frame 1440 in let ends := take 480 loud ++ replicate 960 0 in
  CalcVad48khz some_locals fresh_vad loud 1440 = CalcVad48khz some_locals fresh_vad ends 1440 /\ loud <> ends.
Proof.
  cbv zeta. split.
  - apply (CalcVad48khz_first_block some_locals fresh_vad (square_frame 1440) (take 480 (square_frame 1440) ++ replicate 960 0) 1440).
    vm_compute. reflexivity.
  - intros E%(f_equal (fun l => nth 481 l 0)). vm_compute in E. discriminate.
Defined.
