(* ===== verification/VadTest.v ===== *)
(** The unit tests of the voice activity detector ([vad_gmm_unittest.cc],
    [vad_filterbank_unittest.cc], [vad_core_unittest.cc], [vad_unittest.cc]) on
    the model, and what the 48 kHz path makes of a frame. *)
From S2P Require Import Prelude SplMath Resample Vad VadMin VadInv VadOps.

(** ** [vad_gmm_unittest.cc] *)

Example gaussian_reference mc :
  GaussianProbability mc 0 0 128 = (1048576, 0) /\ GaussianProbability mc 16 128 128 = (1048576, 0) /\
  GaussianProbability mc (-16) (-128) 128 = (1048576, 0) /\
  GaussianProbability mc 59 0 128 = (1024, 7552) /\ GaussianProbability mc 75 128 128 = (1024, 7552) /\
  GaussianProbability mc (-75) (-128) 128 = (1024, -7552) /\ GaussianProbability mc 105 0 128 = (0, 13440).
Proof. vm_compute. repeat split. Qed.

(** ** [vad_filterbank_unittest.cc] *)

Definition features_of (v : VadInst) (x : list Z) (n : Z) : option (Z * list Z * VadInst) :=
  CalculateFeatures v x n (replicate 120 0) (replicate 60 0) (replicate 6 0).

Definition features_test (x : list Z) : option (list (Z * list Z)) :=
  a ← features_of fresh_vad x 80; b ← features_of a.2 x 160; c ← features_of b.2 x 240;
  Some [a.1; b.1; c.1].

Example features_reference :
  features_test (square_frame 1440) =
    Some [(48, [1213; 759; 587; 462; 434; 272]); (11, [1479; 1385; 1291; 1200; 1103; 1099]);
          (11, [1732; 1692; 1681; 1629; 1436; 1436])] /\
  option_map fst (features_of fresh_vad (replicate 80 0) 80) = Some (0, kOffsetVector) /\
  option_map fst (features_of fresh_vad (replicate 80 1) 80) = Some (0, kOffsetVector).
Proof. vm_compute. repeat split. Qed.

(** ** [vad_core_unittest.cc] *)

Definition calc_vad (v : VadInst) (fs : Z) (x : list Z) (n : Z) : option (Z * VadInst) :=
  match fs with
  | 8000 => CalcVad8khz some_locals v x n
  | 16000 => CalcVad16khz some_locals v x n
  | 32000 => CalcVad32khz some_locals v x n
  | _ => CalcVad48khz some_locals v x n
  end.

Fixpoint calc_all (formats : list (Z * Z)) (x : list Z) (v : VadInst) : option (list Z * VadInst) :=
  match formats with
  | [] => Some ([], v)
  | (fs, n) :: formats => r ← calc_vad v fs x n; q ← calc_all formats x r.2; Some (r.1 :: q.1, q.2)
  end.

(** Zeros are not speech, squares are, at every rate. *)
Example calc_vad_reference :
  (r ← calc_all [(8000, 80)] (replicate 80 0) fresh_vad;
   q ← calc_all [(8000, 80); (16000, 160); (32000, 320); (48000, 480)] (square_frame 480) r.2;
   Some (r.1, q.1)) = Some ([0], [1; 1; 1; 1]).
Proof. vm_compute. reflexivity. Qed.

(** ** [vad_unittest.cc]: rates and frame lengths *)

Example valid_formats_reference :
  filter (fun p => ValidRateAndFrameLength p.1 p.2 = 0)
    (list_prod [8000; 16000; 32000; 48000; 12000] [80; 120; 160; 240; 320; 480; 640; 960; 1440]) =
  [(8000, 80); (8000, 160); (8000, 240); (16000, 160); (16000, 320); (16000, 480);
   (32000, 320); (32000, 640); (32000, 960); (48000, 480); (48000, 960); (48000, 1440)].
Proof. vm_compute. reflexivity. Qed.
