(* ===== verification/SplFilt.v ===== *)
(** Correlations and short filters of the signal processing library
    ([common_audio/signal_processing/]): [cross_correlation.c],
    [auto_correlation.c], [downsample_fast.c], [filter_ma_fast_q12.c],
    [filter_ar_fast_q12.c]. *)
From S2P Require Import Prelude SplMath.

(** [WEBRTC_SPL_MUL_16_16]. *)
Definition mul_16_16 (a b : Z) : Z := s16 a * s16 b.

(** A sum of products, each shifted, of the entries from [p] and [q] on. *)
Definition shifted_dot (a : list Z) (p : Z) (b : list Z) (q len shift : Z) : option Z :=
  for_loop (Z.to_nat len) 0 (fun j sum =>
    x ← aget a (p + j);
    y ← aget b (q + j);
    Some (s32 (sum + Z.shiftr (x * y) shift))) 0.

(** [seq1] and [seq2] are the entries of [m1] and [m2] from [p1] and [p2] on. *)
Definition CrossCorrelation (m1 : list Z) (p1 : Z) (m2 : list Z) (p2 dim_seq dim_cross_correlation right_shifts step_seq2 : Z)
    : option (list Z) :=
  for_loop (Z.to_nat dim_cross_correlation) 0 (fun i out =>
    c ← shifted_dot m1 p1 m2 (p2 + step_seq2 * i) dim_seq right_shifts;
    Some (out ++ [c])) [].

(** Answer, correlations and scale. *)
Definition AutoCorrelation (in_vector : list Z) (in_vector_length order : Z) : option (Z * list Z * Z) :=
  if in_vector_length <? order then Some (-1, [], 0) else
  let order := if order <? 0 then in_vector_length else order in
  v ← aload in_vector 0 in_vector_length;
  let smax := MaxAbsValueW16C v in
  let scaling :=
    if smax =? 0 then 0 else
    let nbits := GetSizeInBits in_vector_length in
    let t := NormW32 (s32 (smax * smax)) in
    if nbits <? t then 0 else nbits - t in
  result ← for_loop (Z.to_nat (order + 1)) 0 (fun i out =>
             c ← shifted_dot in_vector 0 in_vector i (in_vector_length - i) scaling;
             Some (out ++ [c])) [];
  Some (order + 1, result, scaling).

(** One output of a moving average filter: [coefficients[j] * data[i - j]]. *)
Definition ma_sum (coefficients data : list Z) (i start : Z) : option Z :=
  for_loop (length coefficients) 0 (fun j o =>
    c ← aget coefficients j;
    x ← aget data (i - j);
    Some (s32 (o + s16 c * s16 x))) start.

(** [WEBRTC_SPL_SAT], then rounding to an integer. *)
Definition sat_q12 (o : Z) : Z :=
  let o := if 134215679 <? o then 134215679 else if o <? -134217728 then -134217728 else o in
  s16 (Z.shiftr (o + 2048) 12).

(** The input begins at entry [base] of [mem]; answer and output. *)
Definition DownsampleFastC (mem : list Z) (base data_in_length data_out_length : Z) (coefficients : list Z)
    (factor delay : Z) : option (Z * list Z) :=
  let endpos := delay + factor * (data_out_length - 1) + 1 in
  if (data_out_length <=? 0) || (zlen coefficients <=? 0) || (data_in_length <? endpos) then Some (-1, []) else
  out ← for_loop (Z.to_nat data_out_length) 0 (fun k out =>
          o ← ma_sum coefficients mem (base + (delay + factor * k)) 2048;
          Some (out ++ [SatW32ToW16 (Z.shiftr o 12)])) [];
  Some (0, out).

(** The input begins at entry [base] of [mem], earlier entries are the state. *)
Definition FilterMAFastQ12 (mem : list Z) (base : Z) (B : list Z) (len : Z) : option (list Z) :=
  for_loop (Z.to_nat len) 0 (fun i out =>
    o ← ma_sum B mem (base + i) 0;
    Some (out ++ [sat_q12 o])) [].

(** [data_out] begins at entry [base] of [out], earlier entries are the state. *)
Definition FilterARFastQ12 (data_in out : list Z) (base : Z) (coefficients : list Z) (data_length : Z)
    : option (list Z) :=
  for_loop (Z.to_nat data_length) 0 (fun i out =>
    sum ← for_loop (length coefficients - 1) 0 (fun k sum =>
            let j := zlen coefficients - 1 - k in
            c ← aget coefficients j;
            y ← aget out (base + i - j);
            Some (s32 (sum + c * y))) 0;
    c0 ← aget coefficients 0;
    x ← aget data_in i;
    aset out (base + i) (sat_q12 (s32 (c0 * x - sum)))) out.

(** [WEBRTC_SPL_SHIFT_W32]. *)
Definition shift_w32 (x c : Z) : Z := if 0 <=? c then s32 (Z.shiftl x c) else Z.shiftr x (- c).

(** [WEBRTC_SPL_MEMMOVE_W16] from one memory to another. *)
Definition memmove (dst : list Z) (d : Z) (src : list Z) (s n : Z) : option (list Z) :=
  v ← aload src s n;
  astore dst d v.

(** ** Copying *)

(** A block of a memory. *)
Definition block (l : list Z) (i n : Z) : list Z := take (Z.to_nat n) (drop (Z.to_nat i) l).

Lemma length_block l i n : 0 <= i -> 0 <= n -> i + n <= zlen l -> length (block l i n) = Z.to_nat n.
Proof. intros. unfold block, zlen in *. rewrite length_take, length_drop. lia. Qed.

Lemma zlen_block l i n : 0 <= i -> 0 <= n -> i + n <= zlen l -> zlen (block l i n) = n.
Proof. intros. unfold zlen at 1. rewrite length_block by done. lia. Qed.

Lemma block_s16 l i n : Forall in_s16 l -> Forall in_s16 (block l i n).
Proof. intros H. unfold block. by apply Forall_take, Forall_drop. Qed.

Lemma aget_block l i n k : 0 <= i -> (k < Z.to_nat n)%nat -> aget l (i + Z.of_nat k) = block l i n !! k.
Proof.
  intros Hi Hk. unfold block. rewrite lookup_take_lt, lookup_drop by done. rewrite aget_lookup by lia. f_equal. lia.
Qed.

(** [block], then the rest. *)
Lemma split_at (l : list Z) i n : 0 <= i -> 0 <= n ->
  l = take (Z.to_nat i) l ++ block l i n ++ drop (Z.to_nat (i + n)) l.
Proof.
  intros. unfold block. rewrite <-(take_drop (Z.to_nat i) l) at 1. f_equal.
  rewrite <-(take_drop (Z.to_nat n) (drop (Z.to_nat i) l)) at 1. f_equal. rewrite drop_drop. f_equal. lia.
Qed.

Lemma memmove_spec dst d src s n :
  0 <= d -> 0 <= s -> 0 <= n -> s + n <= zlen src -> d + n <= zlen dst ->
  memmove dst d src s n = Some (take (Z.to_nat d) dst ++ block src s n ++ drop (Z.to_nat (d + n)) dst).
Proof.
  intros Hd Hs Hn Hsrc Hdst. unfold memmove. rewrite aload_in by lia. cbn [mbind option_bind]. fold (block src s n).
  destruct (astore_in dst (block src s n) d) as (l & E & _); [lia|rewrite zlen_block; lia|].
  rewrite E. apply astore_Some in E as (_ & _ & ->). do 3 f_equal. rewrite length_block by lia. f_equal. lia.
Qed.

Lemma block_0 (l : list Z) n : block l 0 n = take (Z.to_nat n) l.
Proof. unfold block. by rewrite drop_0. Qed.

Lemma block_to_end (l : list Z) i n : 0 <= i -> zlen l <= i + n -> block l i n = drop (Z.to_nat i) l.
Proof. intros. unfold block. apply take_ge. rewrite length_drop. unfold zlen in *. lia. Qed.

Lemma take_app_z (a b : list Z) n : zlen a = n -> take (Z.to_nat n) (a ++ b) = a.
Proof. intros. rewrite take_app_le, take_ge by (unfold zlen in *; lia). done. Qed.

Lemma drop_app_z (a b : list Z) n k : zlen a = k -> k <= n -> drop (Z.to_nat n) (a ++ b) = drop (Z.to_nat (n - k)) b.
Proof. intros. rewrite drop_app_ge by (unfold zlen in *; lia). f_equal. unfold zlen in *. lia. Qed.

Lemma take_z_zlen (l : list Z) n : 0 <= n <= zlen l -> zlen (take (Z.to_nat n) l) = n.
Proof. intros. unfold zlen in *. rewrite length_take. lia. Qed.

(** ** Safety *)

Lemma vec_ext_index_range better v : forall i m idx,
  0 <= i -> 0 <= idx < i + zlen v -> 0 <= vec_ext_index better i m idx v < i + zlen v.
Proof.
  induction v as [|x v IH]; intros i m idx Hi H; cbn [vec_ext_index]; [done|].
  rewrite zlen_cons in *. pose proof (zlen_nonneg v). replace (i + (1 + zlen v)) with (i + 1 + zlen v) in * by lia.
  case_match; apply IH; lia.
Qed.

Lemma vec_index_range better m v : v <> [] -> 0 <= vec_index better m v < zlen v.
Proof.
  intros Hv. unfold vec_index. destruct v as [|x v]; [done|].
  apply (vec_ext_index_range better (x :: v) 0 m 0); [lia|]. rewrite zlen_cons. pose proof (zlen_nonneg v). lia.
Qed.

Lemma MaxIndexW16_range v : v <> [] -> 0 <= MaxIndexW16 v < zlen v.
Proof. apply vec_index_range. Qed.

(** A loop that appends one entry per round. *)
Lemma append_loop (P : Z -> Prop) (f : Z -> option Z) n :
  0 <= n -> (forall i, 0 <= i < n -> exists c, f i = Some c /\ P c) ->
  exists out, for_loop (Z.to_nat n) 0 (fun i out => c ← f i; Some (out ++ [c])) [] = Some out /\
    zlen out = n /\ Forall P out /\ (forall i, 0 <= i < n -> aget out i = f i).
Proof.
  intros Hn Hf.
  destruct (for_loop_inv (fun i out => zlen out = i /\ Forall P out /\ (forall k, 0 <= k < i -> aget out k = f k))
    (fun i out => c ← f i; Some (out ++ [c])) (Z.to_nat n) 0 []) as (out & E & H1 & H2 & H3).
  - repeat split; [done|]. intros; lia.
  - intros j out Hj (Hl & HP & Hg). destruct (Hf j) as (c & Ec & Hc); [lia|]. rewrite (bind_eq _ _ _ Ec).
    eexists. split; [reflexivity|]. split; [rewrite zlen_app; cbn; unfold zlen in *; cbn; lia|]. split.
    + apply Forall_app. split; [done|]. by constructor.
    + intros k Hk. destruct (decide (k = j)) as [->|].
      * rewrite Ec, <-Hl. rewrite <-(Z.add_0_r (zlen out)). by rewrite aget_app_r.
      * rewrite aget_app_l by lia. apply Hg. lia.
  - rewrite Z2Nat.id in * by lia. exists out. repeat split; try done.
Qed.

(** The same with a last step that cannot fail. *)
Lemma append_loop_map (g : Z -> option Z) (h : Z -> Z) n i (a : list Z) :
  for_loop n i (fun i out => o ← g i; Some (out ++ [h o])) a =
  for_loop n i (fun i out => c ← (o ← g i; Some (h o)); Some (out ++ [c])) a.
Proof. apply for_loop_ext. intros j b _. by destruct (g j). Qed.

Lemma shifted_dot_safe a p b q len shift :
  0 <= p -> p + len <= zlen a -> 0 <= q -> q + len <= zlen b ->
  exists c, shifted_dot a p b q len shift = Some c.
Proof.
  intros Hp Ha Hq Hb. unfold shifted_dot.
  match goal with |- context [for_loop _ 0 ?f ?s] => destruct (for_loop_to (fun _ => True) f len s) as (c & E & _) end;
    [done| |by exists c].
  intros j s Hj _. destruct (aget_in a (p + j)) as [x Ex]; [lia|]. destruct (aget_in b (q + j)) as [y Ey]; [lia|].
  rewrite (bind_eq _ _ _ Ex), (bind_eq _ _ _ Ey). by eexists.
Qed.

Lemma shifted_dot_s32 a p b q len shift c : shifted_dot a p b q len shift = Some c -> in_s32 c.
Proof.
  unfold shifted_dot. generalize (Z.to_nat len) as n. intros n.
  assert (H : forall i s, in_s32 s -> for_loop n i (fun j sum =>
     x ← aget a (p + j); y ← aget b (q + j); Some (s32 (sum + Z.shiftr (x * y) shift))) s = Some c -> in_s32 c).
  { induction n as [|n IH]; intros i s Hs E; cbn [for_loop] in E; [by injection E as <-|].
    destruct (aget a (p + i)) as [x|]; [|done]. destruct (aget b (q + i)) as [y|]; [|done].
    cbn [mbind option_bind] in E. by apply IH in E; [|apply s32_range]. }
  apply H. unfold in_s32. lia.
Qed.

Lemma CrossCorrelation_safe m1 p1 m2 p2 dim n shift step :
  0 <= n -> 0 <= p1 -> p1 + dim <= zlen m1 ->
  (forall i, 0 <= i < n -> 0 <= p2 + step * i /\ p2 + step * i + dim <= zlen m2) ->
  exists out, CrossCorrelation m1 p1 m2 p2 dim n shift step = Some out /\ zlen out = n /\ Forall in_s32 out.
Proof.
  intros Hn Hp H1 H2. unfold CrossCorrelation.
  destruct (append_loop in_s32 (fun i => shifted_dot m1 p1 m2 (p2 + step * i) dim shift) n Hn) as (out & E & Hl & HP & _).
  - intros i Hi. destruct (H2 i Hi). destruct (shifted_dot_safe m1 p1 m2 (p2 + step * i) dim shift) as (c & Ec); [lia..|].
    exists c. split; [done|]. by eapply shifted_dot_s32.
  - exists out. done.
Qed.

Lemma ma_sum_safe coefs data i start :
  zlen coefs - 1 <= i < zlen data -> exists o, ma_sum coefs data i start = Some o.
Proof.
  intros Hi. unfold ma_sum. replace (length coefs) with (Z.to_nat (zlen coefs)) by (unfold zlen; lia).
  match goal with |- context [for_loop _ 0 ?f ?s] => destruct (for_loop_to (fun _ => True) f (zlen coefs) s) as (c & E & _) end;
    [done| |by exists c].
  intros j s Hj _. destruct (aget_in coefs j) as [x Ex]; [lia|]. destruct (aget_in data (i - j)) as [y Ey]; [lia|].
  rewrite (bind_eq _ _ _ Ex), (bind_eq _ _ _ Ey). by eexists.
Qed.

Lemma SatW32ToW16_range x : in_s16 (SatW32ToW16 x).
Proof. unfold SatW32ToW16, in_s16. repeat case_if; try lia; rewrite ?s16_id; unfold in_s16; lia. Qed.

(** The answer of the down sampling: -1 exactly for an empty output or filter,
    or an input that is too short. *)
Lemma DownsampleFastC_spec mem base n m coefs factor delay :
  0 < factor -> 0 <= delay -> zlen coefs - 1 <= base + delay -> base + n <= zlen mem ->
  if (m <=? 0) || (zlen coefs <=? 0) || (n <? delay + factor * (m - 1) + 1)
  then DownsampleFastC mem base n m coefs factor delay = Some (-1, [])
  else exists out, DownsampleFastC mem base n m coefs factor delay = Some (0, out) /\ zlen out = m /\ Forall in_s16 out.
Proof.
  intros Hf Hd Hb Hn. unfold DownsampleFastC. cbv zeta. case_if; [done|].
  destruct (append_loop in_s16 (fun k => o ← ma_sum coefs mem (base + (delay + factor * k)) 2048;
              Some (SatW32ToW16 (Z.shiftr o 12))) m) as (out & E' & Hl & HP & _).
  - lia.
  - intros k Hk. destruct (ma_sum_safe coefs mem (base + (delay + factor * k)) 2048) as (o & Eo); [nia|].
    rewrite (bind_eq _ _ _ Eo). eexists. split; [done|]. apply SatW32ToW16_range.
  - exists out. split; [|done]. by rewrite append_loop_map, (bind_eq _ _ _ E').
Qed.

Lemma sat_q12_range o : in_s16 (sat_q12 o).
Proof. apply s16_range. Qed.

Lemma FilterMAFastQ12_safe mem base B len : 0 <= len -> zlen B - 1 <= base -> base + len <= zlen mem ->
  exists out, FilterMAFastQ12 mem base B len = Some out /\ zlen out = len /\ Forall in_s16 out.
Proof.
  intros Hl Hb Hm. unfold FilterMAFastQ12. rewrite append_loop_map.
  destruct (append_loop in_s16 (fun i => o ← ma_sum B mem (base + i) 0; Some (sat_q12 o)) len Hl) as (out & E & L & HP & _).
  - intros i Hi. destruct (ma_sum_safe B mem (base + i) 0) as (o & Eo); [lia|]. rewrite (bind_eq _ _ _ Eo).
    eexists. split; [done|apply sat_q12_range].
  - by exists out.
Qed.

Lemma FilterARFastQ12_safe data_in out base coefs len :
  1 <= zlen coefs -> zlen coefs - 1 <= base -> base + len <= zlen out -> len <= zlen data_in -> Forall in_s16 out ->
  exists out', FilterARFastQ12 data_in out base coefs len = Some out' /\ zlen out' = zlen out /\ Forall in_s16 out'.
Proof.
  intros Hc Hb Ho Hd HP. unfold FilterARFastQ12.
  match goal with |- context [for_loop _ 0 ?f ?s] =>
    destruct (for_loop_to (fun o => zlen o = zlen out /\ Forall in_s16 o) f len s) as (o' & E & H) end; [done| |by exists o'].
  intros i o Hi [Hlo HPo].
  match goal with |- context [for_loop ?k 0 ?g 0] => destruct (for_loop_to (fun _ => True) g (Z.of_nat k) 0) as (sum & Es & _) end.
  - done.
  - intros j s Hj _. unfold zlen in Hc. assert (0 <= j < zlen coefs - 1) as Hj' by (unfold zlen; lia).
    destruct (aget_in coefs (zlen coefs - 1 - j)) as [c Ec]; [lia|].
    destruct (aget_in o (base + i - (zlen coefs - 1 - j))) as [y Ey]; [lia|].
    rewrite (bind_eq _ _ _ Ec), (bind_eq _ _ _ Ey). by eexists.
  - rewrite Nat2Z.id in Es. rewrite (bind_eq _ _ _ Es). destruct (aget_in coefs 0) as [c Ec]; [lia|].
    destruct (aget_in data_in i) as [x Ex]; [lia|]. rewrite (bind_eq _ _ _ Ec), (bind_eq _ _ _ Ex), aset_in by lia.
    eexists. split; [reflexivity|]. rewrite zlen_insert. split; [done|]. by apply Forall_insert; [|apply sat_q12_range].
Qed.
