(* ===== verification/Stretch.v ===== *)
(** Time-scale modification in the DSP half of NetEQ: [neteq/accelerate.c],
    [neteq/preemptive_expand.c], and their helpers [neteq/peak_detection.c],
    [neteq/dsp_helpfunctions.c], [neteq/mix_voice_unvoice.c]. *)
From S2P Require Import Prelude SplMath SplFilt.

(** ** The DSP instance ([neteq/dsp.h]), the fields that matter here *)

Inductive MasterSlaveMode := NETEQ_MONO | NETEQ_MASTER | NETEQ_SLAVE.
Inductive MasterSlaveExtraInfo := NO_INFO | ACC_FAIL | PE_EXP_FAIL | DTMF_OVERDUB | DTMF_ONLY.
#[export] Instance msmode_eq_dec : EqDecision MasterSlaveMode.
Proof. solve_decision. Defined.
#[export] Instance msextra_eq_dec : EqDecision MasterSlaveExtraInfo.
Proof. solve_decision. Defined.

Record MasterSlaveInfo := mkMS {
  ms_msMode : MasterSlaveMode;
  ms_extraInfo : MasterSlaveExtraInfo;
  ms_bestIndex : Z;
}.
#[export] Instance eta_ms : Eta MasterSlaveInfo := fun r => mkMS (ms_msMode r) (ms_extraInfo r) (ms_bestIndex r).

Record DSPInst := mkDSP {
  dsp_fs : Z;
  dsp_mode : Z;
  dsp_consecExp : Z;
  dsp_overlap : Z;
  dsp_bgn_initialized : Z;
  dsp_bgn_energy : Z;
  dsp_accelerateLength : Z;
  dsp_preemptiveLength : Z;
  dsp_accelerate_bgn : Z;
  dsp_accelerate_normal : Z;
  dsp_preemptive_bgn : Z;
  dsp_preemptive_normal : Z;
  dsp_msInfo : option MasterSlaveInfo;
}.
#[export] Instance eta_dsp : Eta DSPInst :=
  fun r => mkDSP (dsp_fs r) (dsp_mode r) (dsp_consecExp r) (dsp_overlap r) (dsp_bgn_initialized r) (dsp_bgn_energy r)
    (dsp_accelerateLength r) (dsp_preemptiveLength r) (dsp_accelerate_bgn r) (dsp_accelerate_normal r)
    (dsp_preemptive_bgn r) (dsp_preemptive_normal r) (dsp_msInfo r).

Definition MODE_SUCCESS_ACCELERATE : Z := 3.
Definition MODE_UNSUCCESS_ACCELERATE : Z := 4.
Definition MODE_LOWEN_ACCELERATE : Z := 6.
Definition MODE_SUCCESS_PREEMPTIVE : Z := 10.
Definition MODE_UNSUCCESS_PREEMPTIVE : Z := 11.
Definition MODE_LOWEN_PREEMPTIVE : Z := 12.
Definition NETEQ_OTHER_ERROR : Z := -1000.
Definition MASTER_SLAVE_ERROR : Z := -1007.
Definition DEFAULT_TIME_ADJUST : Z := 8.
Definition NETEQ_MAX_FRAME_SIZE : Z := 3840.
Definition NETEQ_MAX_OUTPUT_SIZE : Z := 4320.

(** ** [dsp_helpfunctions.c] *)

Definition CalcFsMult (fsHz : Z) : Z :=
  if fsHz =? 8000 then 1 else if fsHz =? 16000 then 2 else if fsHz =? 32000 then 4
  else if fsHz =? 48000 then 6 else 1.

Definition kDownsample8kHzTbl : list Z := [1229; 1638; 1229].
Definition kDownsample16kHzTbl : list Z := [614; 819; 1229; 819; 614].
Definition kDownsample32kHzTbl : list Z := [584; 512; 625; 667; 625; 512; 584].

(** Coefficients, factor and delay; the build has no 48 kHz. *)
Definition downsample_filter (inFsHz : Z) : option (list Z * Z * Z) :=
  if inFsHz =? 8000 then Some (kDownsample8kHzTbl, 2, 1 + 1)
  else if inFsHz =? 16000 then Some (kDownsample16kHzTbl, 4, 2 + 1)
  else if inFsHz =? 32000 then Some (kDownsample32kHzTbl, 8, 3 + 1)
  else None.

(** Answer and the [outLen] samples. *)
Definition DownSampleTo4kHz (inp : list Z) (inLen inFsHz outLen : Z) (compensateDelay : bool) : option (Z * list Z) :=
  match downsample_filter inFsHz with
  | None => Some (-1, [])
  | Some (B, factor, filterDelay) =>
      let filterDelay := if compensateDelay then filterDelay else 0 in
      DownsampleFastC inp (zlen B - 1) (s16 (inLen - (zlen B - 1))) (s16 outLen) B factor filterDelay
  end.

(** ** [mix_voice_unvoice.c] *)

(** Output memory and fraction; the vectors begin at [o], [v] and [u]. *)
Definition MixVoiceUnvoice (outData : list Z) (o : Z) (mem : list Z) (v u current_vfraction vfraction_change N : Z)
    : option (list Z * Z) :=
  r ← for_loop (Z.to_nat N) 0 (fun i st =>
        let '(out, vfraction, w16_tmp2) := st in
        x ← aget mem (v + i);
        y ← aget mem (u + i);
        out ← aset out (o + i)
                (s16 (Z.shiftr (s32 (mul_16_16 vfraction x + mul_16_16 w16_tmp2 y + 8192)) 14));
        Some (out, s16 (vfraction - vfraction_change), s16 (w16_tmp2 + vfraction_change)))
      (outData, current_vfraction, s16 (16384 - current_vfraction));
  Some (r.1.1, r.1.2).

(** ** [peak_detection.c] *)

Definition kPrblCf : list (Z * Z * Z) :=
  [(120, 32, 64); (140, 44, 75); (150, 50, 80); (160, 57, 85); (180, 72, 96); (200, 89, 107); (210, 98, 112);
   (220, 108, 117); (240, 128, 128); (260, 150, 139); (270, 162, 144); (280, 174, 149); (300, 200, 160);
   (320, 228, 171); (330, 242, 176); (340, 257, 181); (360, 288, 192)].

Definition PFind (fs_mult : Z) : list Z :=
  if fs_mult =? 1 then [0; 8; 16]
  else if fs_mult =? 2 then [0; 4; 8; 12; 16]
  else if fs_mult =? 4 then [0; 2; 4; 6; 8; 10; 12; 14; 16]
  else [0; 1; 3; 4; 5; 7; 8; 9; 11; 12; 13; 15; 16].

Definition prbl_cf (fs_mult i : Z) : option (Z * Z * Z) := p ← aget (PFind fs_mult) i; aget kPrblCf p.

(** The loops over [flag]: the first of 1, 2, ... that is [fs_mult] or for which
    the test holds. *)
Fixpoint prbl_flag (fuel : nat) (test : Z -> bool) (fs_mult stp flag lmt : Z) : option Z :=
  match fuel with
  | O => None
  | S fuel => if (flag =? fs_mult) || test lmt then Some flag
              else prbl_flag fuel test fs_mult stp (flag + 1) (s16 (lmt + stp))
  end.

(** The value of the parabola: entry [i] of the table. *)
Definition prbl_value (fs_mult i Num Den p0 : Z) : option Z :=
  c ← prbl_cf fs_mult i;
  Some (s16 (Z.shiftr (s32 (s32 (s32 (Den * c.1.2) + s32 (Num * c.2)) + mul_16_16 p0 256)) 8)).

(** The three points begin at entry [p]; index and value. *)
Definition PrblFit (data : list Z) (p ind fs_mult : Z) : option (Z * Z) :=
  p0 ← aget data p; p1 ← aget data (p + 1); p2 ← aget data (p + 2);
  let Num := mul_16_16 p0 (-3) + mul_16_16 p1 4 - p2 in
  let Den := p0 + mul_16_16 p1 (-2) + p2 in
  let temp := s32 (Num * 120) in
  a ← prbl_cf fs_mult fs_mult;
  b ← prbl_cf fs_mult (fs_mult - 1);
  let stp := s16 (a.1.1 - b.1.1) in
  let strt := s16 (Z.shiftr (a.1.1 + b.1.1) 1) in
  if temp <? s32 (- Den * strt) then
    flag ← prbl_flag (Z.to_nat fs_mult) (fun lmt => s32 (- Den * lmt) <? temp) fs_mult (- stp) 1 (s16 (strt - stp));
    value ← prbl_value fs_mult (fs_mult - flag) Num Den p0;
    Some (s16 (ind * (fs_mult * 2) - flag), value)
  else if s32 (- Den * (strt + stp)) <? temp then
    flag ← prbl_flag (Z.to_nat fs_mult) (fun lmt => temp <? s32 (- Den * lmt)) fs_mult stp 1 (s16 (strt + stp * 2));
    value ← prbl_value fs_mult (fs_mult + flag) Num Den p0;
    Some (s16 (ind * (fs_mult * 2) + flag), value)
  else Some (s16 (ind * 2 * fs_mult), p1).

(** Index and value of a peak at entry [ind], [dataLen] being one more than the
    number of entries when a single peak is sought. *)
Definition peak_at (data : list Z) (dataLen ind fs_mult : Z) : option (Z * Z) :=
  if negb (ind =? 0) && negb (ind =? dataLen - 2) then PrblFit data (ind - 1) ind fs_mult
  else if ind =? dataLen - 2 then
    x ← aget data ind;
    y ← aget data (ind + 1);
    if y <? x then PrblFit data (ind - 1) ind fs_mult
    else Some (s16 ((ind * 2 + 1) * fs_mult), s16 (Z.shiftr (x + y) 1))
  else
    x ← aget data ind;
    Some (s16 (ind * 2 * fs_mult), x).

(** The peaks (indices and values) and the data, in which they are set to zero. *)
Definition PeakDetection (data : list Z) (dataLen nmbPeaks fs_mult : Z) : option (list (Z * Z) * list Z * Z) :=
  for_loop (Z.to_nat nmbPeaks) 0 (fun i st =>
    let '(peaks, data, dataLen) := st in
    let dataLen := if nmbPeaks =? 1 then s16 (dataLen + 1) else dataLen in
    v ← aload data 0 (Z.max 0 (dataLen - 1));
    let ind := s16 (MaxIndexW16 v) in
    let indMin := Z.max 0 (s16 (ind - 2)) in
    let indMax := Z.min (s16 (dataLen - 1)) (s16 (ind + 2)) in
    peak ← peak_at data dataLen ind fs_mult;
    data ← (if negb (i =? nmbPeaks - 1)
            then astore data indMin (replicate (Z.to_nat (indMax - indMin + 1)) 0) else Some data);
    Some (peaks ++ [peak], data, dataLen)) ([], data, dataLen).

(** ** Shared steps of [accelerate.c] and [preemptive_expand.c] *)

(** A 32-bit word of the scratch memory, as two of its 16-bit words (the low half
    first), and the 32-bit words that a piece of it holds. *)
Definition halves (x : Z) : list Z := [s16 x; s16 (Z.shiftr x 16)].

Fixpoint longs (l : list Z) : list Z :=
  match l with
  | lo :: hi :: l => s32 (Z.lor (Z.shiftl hi 16) (Z.land lo 0xFFFF)) :: longs l
  | _ => []
  end.

(** The correlation vector and the largest absolute value of the input; [None]
    inside when the input cannot be down-sampled.  The scratch memory holds the
    down-sampled speech in its words 0 to 109, the 50 correlations of 32 bits in
    110 to 209, and at last those of 16 bits in 0 to 49. *)
Definition correlation_vector (fs : Z) (scratch decoded : list Z) (len : Z) : option (option (list Z * Z)) :=
  v ← aload decoded 0 (s16 len);
  let w16_decodedMax := MaxAbsValueW16C v in
  ds ← DownSampleTo4kHz decoded len fs 110 true;
  if negb (ds.1 =? 0) then Some None else
  scratch ← astore scratch 0 ds.2;
  let w16_tmp := s16 (6 - NormW32 (mul_16_16 w16_decodedMax w16_decodedMax)) in
  let w16_tmp := Z.max 0 w16_tmp in
  corr ← CrossCorrelation scratch 60 scratch 50 50 50 w16_tmp (-1);
  scratch ← astore scratch 110 (flat_map halves corr);
  words ← aload scratch 110 100;
  let pw32_corr := longs words in
  let w16_tmp := s16 (17 - NormW32 (MaxAbsValueW32C pw32_corr)) in
  let w16_tmp := Z.max 0 w16_tmp in
  scratch ← astore scratch 0 (VectorBitShiftW32ToW16 pw32_corr w16_tmp);
  Some (Some (scratch, w16_decodedMax)).

(** The lag: that of the strongest of the first [n] correlations. *)
Definition best_lag (scratch : list Z) (n fsMult : Z) : option Z :=
  r ← PeakDetection scratch n 1 fsMult;
  match r.1.1 with
  | (ind, _) :: _ => Some (s16 (ind + 10 * Z.shiftl fsMult 1))
  | [] => None
  end.

(** How far the products of the samples are shifted, so that [bestIndex] of them
    can be summed. *)
Definition sum_scale (w16_decodedMax bestIndex : Z) : Z :=
  let w16_tmp := s16 (31 - NormW32 (mul_16_16 w16_decodedMax w16_decodedMax)) in
  let w16_tmp := s16 (w16_tmp + (31 - NormW32 bestIndex)) in
  let w16_tmp := s16 (w16_tmp - 31) in
  Z.max 0 w16_tmp.

(** Whether the two periods, of the energies [w32_en1] and [w32_en2], seem to be
    passive speech. *)
Definition passive (inst : DSPInst) (w32_en1 w32_en2 bestIndex w16_tmp : Z) : bool :=
  let w32_tmp := Z.shiftr (s32 (w32_en1 + w32_en2)) 4 in
  let w32_tmp2 := if dsp_bgn_initialized inst =? 1 then dsp_bgn_energy inst else 75000 in
  let w16_tmp2 := Z.max 0 (s16 (16 - NormW32 w32_tmp2)) in
  let w32_tmp := Z.shiftr w32_tmp w16_tmp2 in
  let w16_tmp2 := s16 (Z.shiftr w32_tmp2 w16_tmp2) in
  let w32_tmp2 := mul_16_16 bestIndex w16_tmp2 in
  let tempshift := NormW32 w32_tmp in
  let '(w32_tmp, w32_tmp2) :=
    if tempshift <? 2 * w16_tmp
    then (s32 (Z.shiftl w32_tmp tempshift), Z.shiftr w32_tmp2 (2 * w16_tmp - tempshift))
    else (s32 (Z.shiftl w32_tmp (2 * w16_tmp)), w32_tmp2) in
  w32_tmp <=? w32_tmp2.

(** The correlation in Q14. *)
Definition best_corr (w32_en1 w32_en2 w32_cc : Z) : Z :=
  let w16_en1Scale := Z.max 0 (s16 (16 - NormW32 w32_en1)) in
  let w16_en2Scale := Z.max 0 (s16 (16 - NormW32 w32_en2)) in
  let w16_en1Scale := if negb (Z.land (w16_en1Scale + w16_en2Scale) 1 =? 0) then s16 (w16_en1Scale + 1)
                      else w16_en1Scale in
  let w16_en1 := s16 (Z.shiftr w32_en1 w16_en1Scale) in
  let w16_en2 := s16 (Z.shiftr w32_en2 w16_en2Scale) in
  let w16_sqrtEn1En2 := s16 (SqrtFloor (mul_16_16 w16_en1 w16_en2)) in
  let w16_tmp := s16 (14 - Z.shiftr (w16_en1Scale + w16_en2Scale) 1) in
  let w32_cc := Z.max 0 (shift_w32 w32_cc w16_tmp) in
  let w16_bestCorr := s16 (DivW32W16 w32_cc w16_sqrtEn1En2) in
  Z.min 16384 w16_bestCorr.

(** Whether the two periods before and behind [fsMult120] are active speech, and
    their correlation. *)
Definition period_correlation (inst : DSPInst) (decoded : list Z) (w16_decodedMax fsMult120 bestIndex : Z)
    : option (Z * Z) :=
  let w16_tmp := sum_scale w16_decodedMax bestIndex in
  vec1 ← aload decoded (fsMult120 - bestIndex) bestIndex;
  vec2 ← aload decoded fsMult120 bestIndex;
  let w32_en1 := DotProductWithScale vec1 vec1 w16_tmp in
  let w32_en2 := DotProductWithScale vec2 vec2 w16_tmp in
  let w32_cc := DotProductWithScale vec1 vec2 w16_tmp in
  if passive inst w32_en1 w32_en2 bestIndex w16_tmp then Some (0, 0)
  else Some (1, best_corr w32_en1 w32_en2 w32_cc).

(** Answer, instance, output memory and number of samples. *)
Definition result : Type := Z * DSPInst * list Z * Z.

(** The input is handed on unmodified. *)
Definition hand_on (ret mode : Z) (inst : DSPInst) (decoded : list Z) (len : Z) (outData : list Z) : option result :=
  out ← memmove outData 0 decoded 0 (s16 len);
  Some (ret, inst <| dsp_mode := mode |>, out, s16 len).

(** The mixture of the two periods: entries [v] on fade out, entries [u] on fade in. *)
Definition overlap_add (outData : list Z) (o : Z) (decoded : list Z) (v u bestIndex : Z) : option (list Z) :=
  let w16_inc := s16 (DivW32W16 16384 (s16 (bestIndex + 1))) in
  r ← MixVoiceUnvoice outData o decoded v u (s16 (16384 - w16_inc)) w16_inc bestIndex;
  Some r.1.

(** What the master (or mono) instance finds out: the instance with the lag for
    the slave, the lag, activity and correlation; or the answer when it cannot. *)
Definition master_search (inst : DSPInst) (ms : MasterSlaveInfo) (scratch decoded : list Z) (len limit : Z)
    : option (option (DSPInst * Z * Z * Z)) :=
  let fsMult := CalcFsMult (dsp_fs inst) in
  c ← correlation_vector (dsp_fs inst) scratch decoded len;
  match c with
  | None => Some None
  | Some (scratch, w16_decodedMax) =>
      bestIndex ← best_lag scratch limit fsMult;
      let inst := inst <| dsp_msInfo := Some (ms <| ms_bestIndex := bestIndex |>) |> in
      p ← period_correlation inst decoded w16_decodedMax (s16 (mul_16_16 fsMult 120)) bestIndex;
      Some (Some (inst, bestIndex, p.1, p.2))
  end.

(** ** [accelerate.c] *)

(** Removal of the period behind 15 ms. *)
Definition acc_remove (inst : DSPInst) (decoded : list Z) (len bestIndex w16_VAD : Z) (outData : list Z) : option result :=
  let fsMult120 := s16 (mul_16_16 (CalcFsMult (dsp_fs inst)) 120) in
  let w16_tmp := s16 (fsMult120 - bestIndex) in
  out ← memmove outData 0 decoded 0 w16_tmp;
  out ← overlap_add out w16_tmp decoded (fsMult120 - bestIndex) fsMult120 bestIndex;
  out ← memmove out fsMult120 decoded (fsMult120 + bestIndex) (s16 (len - fsMult120 - bestIndex));
  Some (0, inst <| dsp_mode := if negb (w16_VAD =? 0) then MODE_SUCCESS_ACCELERATE else MODE_LOWEN_ACCELERATE |>
                <| dsp_accelerateLength := u32 (dsp_accelerateLength inst + bestIndex) |>
                <| dsp_accelerate_normal := s32 (dsp_accelerate_normal inst + bestIndex) |>,
        out, s16 (len - bestIndex)).

Definition acc_fail (inst : DSPInst) (decoded : list Z) (len : Z) (outData : list Z) : option result :=
  let inst := match dsp_msInfo inst with
              | Some ms => if decide (ms_msMode ms = NETEQ_MASTER)
                           then inst <| dsp_msInfo := Some (ms <| ms_extraInfo := ACC_FAIL |>) |> else inst
              | None => inst
              end in
  hand_on 0 MODE_UNSUCCESS_ACCELERATE inst decoded len outData.

(** Background noise only: the last 8 ms are dropped. *)
Definition acc_bgn (inst : DSPInst) (decoded : list Z) (len : Z) (outData : list Z) : option result :=
  let w16_bestIndex := s16 (DEFAULT_TIME_ADJUST * Z.shiftl (CalcFsMult (dsp_fs inst)) 3) in
  if len <? w16_bestIndex then hand_on NETEQ_OTHER_ERROR MODE_UNSUCCESS_ACCELERATE inst decoded len outData else
  let n := s16 (len - w16_bestIndex) in
  out ← memmove outData 0 decoded 0 n;
  Some (0, inst <| dsp_mode := MODE_LOWEN_ACCELERATE |>
                <| dsp_accelerateLength := u32 (dsp_accelerateLength inst + w16_bestIndex) |>
                <| dsp_accelerate_bgn := s32 (dsp_accelerate_bgn inst + w16_bestIndex) |>, out, n).

Definition Accelerate (inst : DSPInst) (scratch decoded : list Z) (len : Z) (outData : list Z) (pw16_len BGNonly : Z)
    : option result :=
  let fsMult := CalcFsMult (dsp_fs inst) in
  let inst := inst <| dsp_consecExp := 0 |> in
  if len <? s16 (mul_16_16 (120 + 119) fsMult)
  then hand_on NETEQ_OTHER_ERROR MODE_UNSUCCESS_ACCELERATE inst decoded len outData else
  if negb (BGNonly =? 0) then acc_bgn inst decoded len outData else
  match dsp_msInfo inst with
  | None => Some (MASTER_SLAVE_ERROR, inst, outData, pw16_len)
  | Some ms =>
      if decide (ms_msMode ms = NETEQ_SLAVE) then
        if decide (ms_extraInfo ms = ACC_FAIL) then acc_fail inst decoded len outData
        else acc_remove inst decoded len (ms_bestIndex ms) 1 outData
      else
        r ← master_search inst ms scratch decoded len 50;
        match r with
        | None => hand_on NETEQ_OTHER_ERROR MODE_UNSUCCESS_ACCELERATE inst decoded len outData
        | Some (inst, bestIndex, w16_VAD, w16_bestCorr) =>
            if (14746 <? w16_bestCorr) || (w16_VAD =? 0) then acc_remove inst decoded len bestIndex w16_VAD outData
            else acc_fail inst decoded len outData
        end
  end.

(** ** [preemptive_expand.c] *)

(** Insertion of a period at [w16_startIndex]. *)
Definition pre_insert (inst : DSPInst) (decoded : list Z) (len oldDataLen bestIndex w16_VAD : Z) (outData : list Z)
    : option result :=
  let fsMult120 := s16 (mul_16_16 (CalcFsMult (dsp_fs inst)) 120) in
  let w16_startIndex := s16 (Z.max oldDataLen fsMult120) in
  out ← memmove outData 0 decoded 0 w16_startIndex;
  out ← overlap_add out w16_startIndex decoded w16_startIndex (w16_startIndex - bestIndex) bestIndex;
  out ← memmove out (w16_startIndex + bestIndex) decoded w16_startIndex (s16 (len - w16_startIndex));
  Some (0, inst <| dsp_mode := if negb (w16_VAD =? 0) then MODE_SUCCESS_PREEMPTIVE else MODE_LOWEN_PREEMPTIVE |>
                <| dsp_preemptiveLength := u32 (dsp_preemptiveLength inst + bestIndex) |>
                <| dsp_preemptive_normal := s32 (dsp_preemptive_normal inst + bestIndex) |>,
        out, s16 (len + bestIndex)).

Definition pre_fail (inst : DSPInst) (decoded : list Z) (len : Z) (outData : list Z) : option result :=
  let inst := match dsp_msInfo inst with
              | Some ms => if decide (ms_msMode ms = NETEQ_MASTER)
                           then inst <| dsp_msInfo := Some (ms <| ms_extraInfo := PE_EXP_FAIL |>) |> else inst
              | None => inst
              end in
  hand_on 0 MODE_UNSUCCESS_PREEMPTIVE inst decoded len outData.

(** Background noise only: the first 8 ms are repeated at the end. *)
Definition pre_bgn (inst : DSPInst) (decoded : list Z) (len : Z) (outData : list Z) : option result :=
  let w16_bestIndex := s16 (DEFAULT_TIME_ADJUST * Z.shiftl (CalcFsMult (dsp_fs inst)) 3) in
  if len <? w16_bestIndex then hand_on NETEQ_OTHER_ERROR MODE_UNSUCCESS_PREEMPTIVE inst decoded len outData else
  out ← memmove outData 0 decoded 0 len;
  out ← memmove out len decoded 0 w16_bestIndex;
  Some (0, inst <| dsp_mode := MODE_LOWEN_PREEMPTIVE |>
                <| dsp_preemptiveLength := u32 (dsp_preemptiveLength inst + w16_bestIndex) |>
                <| dsp_preemptive_bgn := s32 (dsp_preemptive_bgn inst + w16_bestIndex) |>, out, s16 (len + w16_bestIndex)).

(** How many lags may be searched before the output gets too long. *)
Definition lag_limit (fsMult len : Z) : Z :=
  let w16_tmp := s16 (DivW32W16ResW16 (NETEQ_MAX_OUTPUT_SIZE - len) (s16 (Z.shiftl fsMult 1)) - 10) in
  Z.min 50 w16_tmp.

Definition PreEmptiveExpand (inst : DSPInst) (scratch decoded : list Z) (len oldDataLen : Z) (outData : list Z)
    (pw16_len BGNonly : Z) : option result :=
  let fsMult := CalcFsMult (dsp_fs inst) in
  let fsMult120 := s16 (mul_16_16 fsMult 120) in
  let inst := inst <| dsp_consecExp := 0 |> in
  if (len <? s16 (mul_16_16 (120 + 119) fsMult)) || (len - dsp_overlap inst <=? oldDataLen)
  then hand_on NETEQ_OTHER_ERROR MODE_UNSUCCESS_PREEMPTIVE inst decoded len outData else
  if negb (BGNonly =? 0) then pre_bgn inst decoded len outData else
  match dsp_msInfo inst with
  | None => Some (MASTER_SLAVE_ERROR, inst, outData, pw16_len)
  | Some ms =>
      if decide (ms_msMode ms = NETEQ_SLAVE) then
        if decide (ms_extraInfo ms = PE_EXP_FAIL) then pre_fail inst decoded len outData
        else pre_insert inst decoded len oldDataLen (ms_bestIndex ms) 1 outData
      else
        r ← master_search inst ms scratch decoded len (lag_limit fsMult len);
        match r with
        | None => hand_on NETEQ_OTHER_ERROR MODE_UNSUCCESS_PREEMPTIVE inst decoded len outData
        | Some (inst, bestIndex, w16_VAD, w16_bestCorr) =>
            let bestIndex := if w16_VAD =? 0 then s16 (Z.min bestIndex (len - oldDataLen)) else bestIndex in
            if ((14746 <? w16_bestCorr) && (oldDataLen <=? fsMult120)) || (w16_VAD =? 0)
            then pre_insert inst decoded len oldDataLen bestIndex w16_VAD outData
            else pre_fail inst decoded len outData
        end
  end.
