(* ===== verification/StretchSim.v ===== *)
(** How acceleration and pre-emptive expansion compare two pitch periods: what the
    activity flag and the correlation of [period_correlation] ([neteq/accelerate.c],
    [neteq/preemptive_expand.c]) say about the energies of the two periods and their
    cross product. *)
From S2P Require Import Prelude SplMath SplFilt Stretch.

(** ** Specification *)

(** The sum of the products of two signals, each product divided by [2 ^ k]. *)
Fixpoint scaled_sum (k : Z) (xs ys : list Z) : Z :=
  match xs, ys with
  | x :: xs, y :: ys => x * y / 2 ^ k + scaled_sum k xs ys
  | _, _ => 0
  end.

(** The background noise energy, 75000 as long as it is not known, cut to its 16
    highest bits, and the number of the bits cut off. *)
Definition noise_energy (inst : DSPInst) : Z :=
  if dsp_bgn_initialized inst =? 1 then dsp_bgn_energy inst else 75000.
Definition noise_shift (inst : DSPInst) : Z := Z.max 0 (s16 (16 - NormW32 (noise_energy inst))).
Definition noise_level (inst : DSPInst) : Z := s16 (noise_energy inst / 2 ^ noise_shift inst).

(** The judgement [vad] (activity) and [corr] (correlation in Q14) on the [p] samples
    before and the [p] samples behind sample [q], from their energies [e1] and [e2]
    and their cross product [cc], all scaled by the same power of two.  They are
    passive ([vad] is 0) when an eighth of the mean energy, scaled, is not above the
    noise energy.  For energies of at least [2 ^ 14] the correlation is above 14746
    only if [cc] is positive and [cc ^ 2] is at least 0.8 [e1 * e2], and not above
    it only if [cc] is not positive or [cc ^ 2] at most 0.82 [e1 * e2]. *)
Definition judged (inst : DSPInst) (decoded : list Z) (q p vad corr : Z) : Prop :=
  exists k, 0 <= k <= 9 /\
    let before := block decoded (q - p) p in
    let behind := block decoded q p in
    let e1 := scaled_sum k before before in
    let e2 := scaled_sum k behind behind in
    let cc := scaled_sum k before behind in
    0 <= e1 < 2147483648 /\ 0 <= e2 < 2147483648 /\ (vad = 0 \/ vad = 1) /\
    (vad = 0 <-> 4 ^ k * (s32 (e1 + e2) / 16 / 2 ^ noise_shift inst) <= s16 p * noise_level inst) /\
    (vad = 1 -> 16384 <= e1 -> 16384 <= e2 ->
       (14746 < corr -> 0 < cc /\ 80 * (e1 * e2) <= 100 * (cc * cc)) /\
       (corr <= 14746 -> cc <= 0 \/ 100 * (cc * cc) <= 82 * (e1 * e2))).

(** ** The sums do not overflow *)

(** The scaled products of two signals are at most [B]. *)
Definition products_ok (k B : Z) (xs ys : list Z) : Prop :=
  forall x y, x ∈ xs -> y ∈ ys -> - B <= x * y / 2 ^ k <= B.

Lemma products_ok_cons k B x y xs ys :
  products_ok k B (x :: xs) (y :: ys) -> - B <= x * y / 2 ^ k <= B /\ products_ok k B xs ys.
Proof. intros H. split; [apply H; left|]. intros u v Hu Hv. apply H; by right. Qed.

Lemma scaled_dot k B xs : forall ys sum,
  0 <= k -> products_ok k B xs ys -> Z.abs sum + B * zlen xs < 2147483648 -> length xs = length ys ->
  DotProductWithScale_loop sum k xs ys = sum + scaled_sum k xs ys.
Proof.
  induction xs as [|x xs IH]; intros [|y ys] sum Hk HB Hs Hl; try discriminate; cbn [DotProductWithScale_loop scaled_sum]; [lia|].
  apply products_ok_cons in HB as [Hxy HB]. rewrite zlen_cons in Hs. pose proof (zlen_nonneg xs).
  assert (HBs : 0 <= B) by lia.
  rewrite Z.shiftr_div_pow2, s32_id by (unfold in_s32; nia).
  rewrite IH; [lia|done|done|nia|by injection Hl].
Qed.

Lemma scaled_sum_square k xs : 0 <= k -> 0 <= scaled_sum k xs xs.
Proof.
  intros Hk. induction xs as [|x xs IH]; cbn [scaled_sum]; [done|].
  assert (0 <= x * x / 2 ^ k) by (apply Z.div_pos; [nia|apply Z.pow_pos_nonneg; lia]). lia.
Qed.

Lemma scaled_sum_le k B xs : forall ys,
  products_ok k B xs ys -> 0 <= B -> Z.abs (scaled_sum k xs ys) <= B * zlen xs.
Proof.
  induction xs as [|x xs IH]; intros [|y ys] HB H0; cbn [scaled_sum]; rewrite ?zlen_cons, ?(zlen_nil (A:=Z)); try lia.
  - pose proof (zlen_nonneg xs). nia.
  - apply products_ok_cons in HB as [Hxy HB]. specialize (IH ys HB H0). lia.
Qed.

(** The scaling, and what it bounds. *)
Lemma NormW32_bits a : 0 < a < 2147483648 -> 0 <= NormW32 a <= 30 /\ a * 2 ^ NormW32 a < 2147483648 <= a * 2 ^ NormW32 a * 2.
Proof.
  intros Ha. destruct (NormW32_pos a ltac:(lia)) as (H0 & H1 & H2). change (2 ^ 31) with 2147483648 in *. change (2 ^ 1) with 2 in *.
  split; [|lia]. split; [done|]. destruct (Z.le_gt_cases (NormW32 a) 30) as [|Hg]; [done|].
  pose proof (Z.pow_le_mono_r 2 31 (NormW32 a) ltac:(lia) ltac:(lia)). change (2 ^ 31) with 2147483648 in *. nia.
Qed.

Lemma MaxAbs_bounds decoded x : Forall in_s16 decoded -> x ∈ decoded ->
  let d := MaxAbsValueW16C decoded in 0 <= d <= 32767 /\ (Z.abs x <= d \/ d = 32767) /\ Z.abs x <= 32768.
Proof.
  intros Hd Hx d.
  assert (Hne : decoded <> []) by (intros ->; by apply not_elem_of_nil in Hx).
  destruct (Extrema_correct decoded [0] Hd ltac:(repeat constructor; unfold in_s32; lia) Hne ltac:(done))
    as (_ & _ & _ & _ & m & (Hm & Hmax & _) & Em).
  apply list_elem_of_lookup in Hx as [i Hi].
  assert (Hx16 : in_s16 x) by (by eapply Forall_lookup_1 in Hi).
  specialize (Hmax (Z.of_nat i) (Z.abs x)). unfold id in Hmax.
  assert (Z.abs x <= m) by (apply Hmax; rewrite aget_lookup, Nat2Z.id by lia; by rewrite list_lookup_fmap, Hi).
  unfold d. rewrite Em. unfold in_s16 in Hx16. lia.
Qed.

Lemma sum_scale_bounds decoded p x y :
  Forall in_s16 decoded -> x ∈ decoded -> y ∈ decoded -> 0 < p < 512 ->
  let k := sum_scale (MaxAbsValueW16C decoded) p in
  0 <= k <= 9 /\ - 2 ^ NormW32 p <= x * y / 2 ^ k <= 2 ^ NormW32 p /\ 2 ^ NormW32 p * p < 2147483648.
Proof.
  intros Hd Hx Hy Hp. destruct (MaxAbs_bounds decoded x Hd Hx) as (Hm & Hx1 & Hx2).
  destruct (MaxAbs_bounds decoded y Hd Hy) as (_ & Hy1 & Hy2). revert Hm Hx1 Hy1.
  generalize (MaxAbsValueW16C decoded) as d. intros d Hm Hx1 Hy1 k.
  destruct (NormW32_bits p) as (Hn & Hp1 & Hp2); [lia|]. 
  assert (Hn22 : 22 <= NormW32 p).
  { destruct (Z.le_gt_cases 22 (NormW32 p)) as [|Hg]; [done|].
    pose proof (Z.pow_le_mono_r 2 (NormW32 p) 21 ltac:(lia) ltac:(lia)). change (2 ^ 21) with 2097152 in *. nia. }
  assert (Hd2 : mul_16_16 d d = d * d) by (unfold mul_16_16; by rewrite s16_id by (unfold in_s16; lia)).
  assert (Hd3 : exists n, NormW32 (mul_16_16 d d) = n /\ 0 <= n <= 31 /\ Z.abs (x * y) <= 2 ^ (31 - n)).
  { rewrite Hd2. destruct (Z.eq_dec d 32767) as [->|Hn1].
    - exists 1. split; [reflexivity|]. split; [lia|]. change (2 ^ (31 - 1)) with 1073741824. nia.
    - destruct (Z.eq_dec d 0) as [->|Hn0].
      + exists 0. split; [reflexivity|]. split; [lia|]. change (2 ^ (31 - 0)) with 2147483648. nia.
      + destruct (NormW32_bits (d * d)) as (Hr & H1 & _); [nia|]. eexists. split; [reflexivity|]. split; [lia|].
        apply Z.le_trans with (d * d); [nia|]. apply Z.lt_le_incl.
        apply Z.mul_lt_mono_pos_r with (2 ^ NormW32 (d * d)); [apply Z.pow_pos_nonneg; lia|].
        rewrite <-Z.pow_add_r by lia. replace (31 - NormW32 (d * d) + NormW32 (d * d)) with 31 by lia.
        change (2 ^ 31) with 2147483648. exact H1. }
  destruct Hd3 as (n & En & Hn31 & Hxy).
  assert (Ek : k = Z.max 0 (31 - n - NormW32 p)).
  { unfold k, sum_scale. rewrite En. cbv zeta. rewrite (s16_id (31 - n)) by (unfold in_s16; lia).
    rewrite (s16_id (31 - n + _)) by (unfold in_s16; lia). rewrite s16_id by (unfold in_s16; lia). lia. }
  split; [lia|]. split; [|rewrite Z.mul_comm; lia].
  assert (Hb : Z.abs (x * y) <= 2 ^ NormW32 p * 2 ^ k).
  { rewrite <-Z.pow_add_r by lia. etrans; [exact Hxy|]. apply Z.pow_le_mono_r; lia. }
  pose proof (Z.pow_pos_nonneg 2 k ltac:(lia) ltac:(lia)). split.
  - apply Z.div_le_lower_bound; nia.
  - apply Z.div_le_upper_bound; nia.
Qed.

(** ** Cauchy and Schwarz *)

Fixpoint dot (xs ys : list Z) : Z :=
  match xs, ys with
  | x :: xs, y :: ys => x * y + dot xs ys
  | _, _ => 0
  end.

Lemma dot_square_nonneg xs : 0 <= dot xs xs.
Proof. induction xs as [|x xs IH]; cbn [dot]; [done|]. nia. Qed.

Lemma twice_mean u v w : u * u <= v * w -> 0 <= v -> 0 <= w -> 2 * u <= v + w.
Proof.
  intros H Hv Hw. destruct (Z.le_gt_cases (2 * u) (v + w)) as [|Hg]; [done|].
  assert (Hs : (v + w) * (v + w) < 2 * u * (2 * u)) by (apply Z.mul_lt_mono_nonneg; lia).
  pose proof (Z.square_nonneg (v - w)). lia.
Qed.

Lemma cauchy_schwarz xs : forall ys, length xs = length ys -> dot xs ys * dot xs ys <= dot xs xs * dot ys ys.
Proof.
  induction xs as [|x xs IH]; intros [|y ys] H; try discriminate; cbn [dot]; try done.
  specialize (IH ys ltac:(by injection H)). pose proof (dot_square_nonneg xs). pose proof (dot_square_nonneg ys).
  revert IH H0 H1. generalize (dot xs ys) as C, (dot xs xs) as A, (dot ys ys) as B. intros C A B IH HA HB.
  assert (Hk : 2 * (C * (x * y)) <= A * (y * y) + B * (x * x)).
  { apply twice_mean; [|nia..]. replace (C * (x * y) * (C * (x * y))) with (C * C * (x * y * (x * y))) by ring.
    replace (A * (y * y) * (B * (x * x))) with (A * B * (x * y * (x * y))) by ring.
    apply Z.mul_le_mono_nonneg_r; [nia|done]. }
  nia.
Qed.

Lemma scaled_sum_dot k xs : forall ys, 0 <= k -> length xs = length ys ->
  scaled_sum k xs ys * 2 ^ k <= dot xs ys <= (scaled_sum k xs ys + zlen xs) * 2 ^ k.
Proof.
  intros ys Hk. revert ys. pose proof (Z.pow_pos_nonneg 2 k ltac:(lia) Hk) as HP.
  induction xs as [|x xs IH]; intros [|y ys] H; try discriminate; cbn [scaled_sum dot]; rewrite ?zlen_cons, ?(zlen_nil (A:=Z)); [lia|].
  specialize (IH ys ltac:(by injection H)).
  pose proof (Z.div_mod (x * y) (2 ^ k) ltac:(lia)). pose proof (Z.mod_pos_bound (x * y) (2 ^ k) HP). lia.
Qed.

(** The cross product against the energies. *)
Definition cross_ok (p e1 e2 cc : Z) : Prop :=
  (0 <= cc -> cc * cc <= (e1 + p) * (e2 + p)) /\ (cc + p <= 0 -> (cc + p) * (cc + p) <= (e1 + p) * (e2 + p)).

Lemma scaled_cross k xs ys : 0 <= k -> length xs = length ys ->
  cross_ok (zlen xs) (scaled_sum k xs xs) (scaled_sum k ys ys) (scaled_sum k xs ys).
Proof.
  intros Hk Hl. pose proof (cauchy_schwarz xs ys Hl) as HC. pose proof (dot_square_nonneg xs). pose proof (dot_square_nonneg ys).
  pose proof (scaled_sum_dot k xs ys Hk Hl) as Hc. pose proof (scaled_sum_dot k xs xs Hk eq_refl) as [_ Hx].
  pose proof (scaled_sum_dot k ys ys Hk eq_refl) as [_ Hy].
  assert (Hz : zlen ys = zlen xs) by (unfold zlen; lia). rewrite Hz in Hy.
  pose proof (Z.pow_pos_nonneg 2 k ltac:(lia) Hk) as HP. revert HC H H0 Hc Hx Hy HP.
  generalize (dot xs ys) as C, (dot xs xs) as A, (dot ys ys) as B, (2 ^ k) as P, (zlen xs) as p.
  generalize (scaled_sum k xs xs) as e1, (scaled_sum k ys ys) as e2, (scaled_sum k xs ys) as cc.
  intros e1 e2 cc C A B P p HC HA HB Hc Hx Hy HP.
  assert (HAB : A * B <= (e1 + p) * P * ((e2 + p) * P)) by (apply Z.mul_le_mono_nonneg; lia).
  assert (HPP : 0 < P * P) by nia. split; intros Hs.
  - apply Z.mul_le_mono_pos_r with (P * P); [done|]. assert (0 <= cc * P) by (apply Z.mul_nonneg_nonneg; lia).
    assert (cc * P * (cc * P) <= C * C) by (apply Z.mul_le_mono_nonneg; lia). lia.
  - apply Z.mul_le_mono_pos_r with (P * P); [done|]. assert (0 <= - (cc + p) * P) by (apply Z.mul_nonneg_nonneg; lia).
    assert (- (cc + p) * P * (- (cc + p) * P) <= - C * - C) by (apply Z.mul_le_mono_nonneg; lia). lia.
Qed.

(** ** Activity *)

Lemma NormW32_room w : in_s32 w -> 0 <= NormW32 w <= 31 /\ in_s32 (w * 2 ^ NormW32 w).
Proof.
  intros Hw. destruct (Z.eq_dec w 0) as [->|Hn]; [unfold in_s32; by vm_compute|].
  destruct (Norm_correct w 1 1 Hw ltac:(unfold in_u32; lia) ltac:(unfold in_s16; lia) Hn ltac:(done) ltac:(done)) as ((H1 & H2 & _) & _).
  split; [done|]. unfold in_s32. change (2 ^ 31) with 2147483648 in H2. lia.
Qed.

(** The comparison does not depend on which side is shifted. *)
Lemma compare_shifted w P t k : in_s32 w -> 0 <= k -> t = NormW32 w ->
  (let '(a, b) := if t <? 2 * k then (s32 (Z.shiftl w t), Z.shiftr P (2 * k - t)) else (s32 (Z.shiftl w (2 * k)), P) in
   a <=? b) = (4 ^ k * w <=? P).
Proof.
  intros Hw Hk ->. destruct (NormW32_room w Hw) as (Ht & Hr).
  assert (E4 : 4 ^ k = 2 ^ (2 * k)) by (rewrite Z.pow_mul_r by lia; reflexivity). rewrite E4.
  destruct (Z.ltb_spec (NormW32 w) (2 * k)) as [Hlt|Hge].
  - rewrite Z.shiftl_mul_pow2, Z.shiftr_div_pow2, s32_id by (lia || done).
    assert (Hs : 2 ^ (2 * k) = 2 ^ (2 * k - NormW32 w) * 2 ^ NormW32 w) by (rewrite <-Z.pow_add_r by lia; f_equal; lia). rewrite Hs.
    pose proof (Z.pow_pos_nonneg 2 (2 * k - NormW32 w) ltac:(lia) ltac:(lia)) as HP.
    rewrite <-Z.mul_assoc, (Z.mul_comm (2 ^ NormW32 w)). revert HP. generalize (2 ^ (2 * k - NormW32 w)), (w * 2 ^ NormW32 w).
    intros d x Hd. destruct (Z.leb_spec x (P / d)) as [H|H]; symmetry; [apply Z.leb_le|apply Z.leb_gt].
    + pose proof (Z.mul_div_le P d Hd). nia.
    + destruct (Z.le_gt_cases (d * x) P) as [Hc|]; [|done]. apply Z.div_le_lower_bound in Hc; lia.
  - rewrite Z.shiftl_mul_pow2, s32_id; [by rewrite Z.mul_comm| |lia].
    pose proof (Z.pow_le_mono_r 2 (2 * k) (NormW32 w) ltac:(lia) ltac:(lia)).
    pose proof (Z.pow_pos_nonneg 2 (2 * k) ltac:(lia) ltac:(lia)). unfold in_s32 in *. nia.
Qed.

Lemma passive_spec inst e1 e2 p k : 0 <= k ->
  passive inst e1 e2 p k = (4 ^ k * (s32 (e1 + e2) / 16 / 2 ^ noise_shift inst) <=? s16 p * noise_level inst).
Proof.
  intros Hk. unfold passive. cbv zeta. fold (noise_energy inst). fold (noise_shift inst).
  assert (Hs : 0 <= noise_shift inst) by (unfold noise_shift; lia).
  rewrite !Z.shiftr_div_pow2, (Z.shiftr_div_pow2 (noise_energy inst)) by lia. change (2 ^ 4) with 16. fold (noise_level inst).
  assert (Hw : in_s32 (s32 (e1 + e2) / 16 / 2 ^ noise_shift inst)).
  { pose proof (s32_range (e1 + e2)) as Hr. unfold in_s32 in *. pose proof (Z.pow_pos_nonneg 2 (noise_shift inst) ltac:(lia) Hs).
    split; [apply Z.div_le_lower_bound; [done|]|apply Z.div_lt_upper_bound; [done|]]; Z.to_euclidean_division_equations; nia. }
  rewrite (compare_shifted _ (mul_16_16 p (noise_level inst)) _ k Hw Hk eq_refl). unfold mul_16_16.
  assert (E : s16 (noise_level inst) = noise_level inst) by (apply s16_id; unfold noise_level; apply s16_range). by rewrite E.
Qed.

(** ** Correlation *)

(** An energy brought to 15 bits, or to 14 for an even sum of the shifts. *)
Lemma energy_bits e : 16384 <= e < 2147483648 ->
  exists a, Z.max 0 (s16 (16 - NormW32 e)) = a /\ 0 <= a <= 16 /\ 16384 <= e / 2 ^ a < 32768.
Proof.
  intros He. destruct (NormW32_bits e) as (Hn & H1 & H2); [lia|].
  assert (Hn16 : NormW32 e <= 16).
  { destruct (Z.le_gt_cases (NormW32 e) 16) as [|Hg]; [done|].
    pose proof (Z.pow_le_mono_r 2 17 (NormW32 e) ltac:(lia) ltac:(lia)). change (2 ^ 17) with 131072 in *. nia. }
  exists (16 - NormW32 e). rewrite s16_id by (unfold in_s16; lia). split; [lia|]. split; [lia|].
  assert (Hs : 65536 = 2 ^ (16 - NormW32 e) * 2 ^ NormW32 e) by (rewrite <-Z.pow_add_r by lia; replace (16 - NormW32 e + NormW32 e) with 16 by lia; done).
  pose proof (Z.pow_pos_nonneg 2 (16 - NormW32 e) ltac:(lia) ltac:(lia)) as HP.
  pose proof (Z.pow_pos_nonneg 2 (NormW32 e) ltac:(lia) ltac:(lia)) as HQ. revert H1 H2 Hs HP HQ.
  generalize (2 ^ (16 - NormW32 e)) as P, (2 ^ NormW32 e) as Q. intros P Q H1 H2 Hs HP HQ.
  split; [apply Z.div_le_lower_bound; [done|]; apply Z.mul_le_mono_pos_r with Q; [done|nia]|].
  apply Z.div_lt_upper_bound; [done|]. apply Z.mul_lt_mono_pos_r with Q; [done|nia].
Qed.

Lemma square_le a b : 0 <= b -> a * a <= b * b -> a <= b.
Proof. intros Hb H. apply Z.square_le_simpl_nonneg; lia. Qed.

Section correlation.
(** The energies, cut to [n1] and [n2] by the shifts that divide by [A] and [B],
    whose product is a square, and the root of [n1 * n2]. *)
Context (p e1 e2 cc A B H n1 n2 sq : Z).
Hypothesis HH : 0 < A /\ 0 < B /\ 0 < H /\ A * B = H * H.
Hypothesis H1 : n1 * A <= e1 < (n1 + 1) * A /\ 8192 <= n1.
Hypothesis H2 : n2 * B <= e2 < (n2 + 1) * B /\ 8192 <= n2.
Hypothesis Hsq : sq * sq <= n1 * n2 < (sq + 1) * (sq + 1) /\ 8192 <= sq.
Hypothesis He : 16384 <= e1 /\ 16384 <= e2 /\ 0 <= p <= 476 /\ cross_ok p e1 e2 cc.

Lemma root_below : sq * H * (sq * H) <= e1 * e2.
Proof using HH H1 H2 Hsq.
  clear He. assert (n1 * A * (n2 * B) <= e1 * e2) by (apply Z.mul_le_mono_nonneg; nia).
  assert (sq * sq * (H * H) <= n1 * n2 * (A * B)) by (rewrite (proj2 (proj2 (proj2 HH))); apply Z.mul_le_mono_nonneg_r; nia).
  lia.
Qed.

Lemma root_above : 67108864 * 67108864 * (e1 * e2) <= 67125249 * 67125249 * (sq * H * (sq * H)).
Proof using HH H1 H2 Hsq.
  clear He. assert (Ha : 0 <= 8192 * e1 <= 8193 * (n1 * A)) by nia. assert (Hb : 0 <= 8192 * e2 <= 8193 * (n2 * B)) by nia.
  assert (Hc : 8192 * e1 * (8192 * e2) <= 8193 * (n1 * A) * (8193 * (n2 * B))) by (apply Z.mul_le_mono_nonneg; lia).
  assert (Hd : 8192 * (sq + 1) * (8192 * (sq + 1)) <= 8193 * sq * (8193 * sq)) by (apply Z.mul_le_mono_nonneg; lia).
  assert (Hf : 67108864 * (n1 * n2) * (H * H) <= 67125249 * (sq * sq) * (H * H)) by (apply Z.mul_le_mono_nonneg_r; nia).
  assert (Hg : n1 * A * (n2 * B) = n1 * n2 * (H * H)) by (rewrite <-(proj2 (proj2 (proj2 HH))); ring). lia.
Qed.

(** The energies with what the divisions of the products may have lost. *)
Lemma cross_bound x : 0 <= x -> x * x <= (e1 + p) * (e2 + p) -> 16384 * x <= 16869 * (sq * H).
Proof using HH H1 H2 Hsq He.
  intros Hx Hc. assert (HS : 0 <= sq * H) by nia. apply square_le; [lia|]. pose proof root_above as Hr.
  assert (Ha : 16384 * (e1 + p) * (16384 * (e2 + p)) <= 16860 * e1 * (16860 * e2)) by (apply Z.mul_le_mono_nonneg; lia). lia.
Qed.

(** [c] is [cc] in the same scale as [sq], in Q14. *)
Lemma correlation_judged c : (cc <= 0 -> c = 0) -> (0 < cc -> c * H <= cc * 16384 < (c + 1) * H) ->
  0 <= c <= 16869 * sq /\
  (14747 * sq <= c -> 0 < cc /\ 80 * (e1 * e2) <= 100 * (cc * cc)) /\
  (c < 14747 * sq -> cc <= 0 \/ 100 * (cc * cc) <= 82 * (e1 * e2)).
Proof using HH H1 H2 Hsq He.
  intros Hc0 Hc. destruct (Z.le_gt_cases cc 0) as [Hle|Hgt].
  { rewrite (Hc0 Hle). split; [lia|]. split; [lia|]. auto. }
  specialize (Hc Hgt). destruct He as (_ & _ & _ & (Hcs & _)). pose proof (cross_bound cc ltac:(lia) (Hcs ltac:(lia))) as Hb.
  pose proof root_above as Ha. pose proof root_below as Hl. assert (HS : 0 < sq * H) by nia.
  assert (Hc1 : 0 <= c) by nia. split; [split; [done|nia]|]. split.
  - intros Hq. split; [done|].
    assert (Hx : 14747 * (sq * H) <= cc * 16384) by nia.
    assert (Hy : 14747 * (sq * H) * (14747 * (sq * H)) <= cc * 16384 * (cc * 16384)) by (apply Z.mul_le_mono_nonneg; lia). lia.
  - intros Hq. right.
    assert (Hx : cc * 16384 <= 14747 * (sq * H)) by nia.
    assert (Hy : cc * 16384 * (cc * 16384) <= 14747 * (sq * H) * (14747 * (sq * H))) by (apply Z.mul_le_mono_nonneg; lia). lia.
Qed.
End correlation.

(** The shift of the cross product, by 14 bits less half the shifts of the energies. *)
Lemma shifted_cross cc h M : 0 <= h <= 17 -> M < 2147483648 -> Z.abs cc * 16384 <= M * 2 ^ h ->
  let c := Z.max 0 (shift_w32 cc (s16 (14 - h))) in
  (cc <= 0 -> c = 0) /\ (0 < cc -> c * 2 ^ h <= cc * 16384 < (c + 1) * 2 ^ h).
Proof.
  intros Hh HM Hcc. rewrite s16_id by (unfold in_s16; lia). unfold shift_w32.
  pose proof (Z.pow_pos_nonneg 2 h ltac:(lia) ltac:(lia)) as HP. cbv zeta.
  destruct (Z.leb_spec 0 (14 - h)) as [Hp|Hn].
  - pose proof (Z.pow_pos_nonneg 2 (14 - h) ltac:(lia) Hp) as HQ.
    assert (Hs : 16384 = 2 ^ (14 - h) * 2 ^ h) by (rewrite <-Z.pow_add_r by lia; replace (14 - h + h) with 14 by lia; done).
    rewrite Z.shiftl_mul_pow2 by lia. revert HP HQ Hs Hcc. generalize (2 ^ (14 - h)) as Q, (2 ^ h) as P.
    intros Q P HP HQ Hs Hcc.
    assert (Ha : Z.abs (cc * Q) <= M).
    { apply Z.mul_le_mono_pos_r with P; [done|]. rewrite Z.abs_mul, (Z.abs_eq Q), <-Z.mul_assoc, <-Hs by lia. exact Hcc. }
    rewrite s32_id by (unfold in_s32; lia). split; [nia|]. intros Hpos. rewrite Z.max_r, <-Z.mul_assoc, <-Hs by nia. nia.
  - assert (Hs : 2 ^ h = 2 ^ (- (14 - h)) * 16384) by (change 16384 with (2 ^ 14); rewrite <-Z.pow_add_r by lia; f_equal; lia).
    rewrite Z.shiftr_div_pow2 by lia. rewrite Hs.
    pose proof (Z.pow_pos_nonneg 2 (- (14 - h)) ltac:(lia) ltac:(lia)) as HQ. revert HQ. generalize (2 ^ (- (14 - h))) as Q. intros Q HQ.
    split.
    + intros Hle. apply Z.max_l. apply Z.div_le_upper_bound; [done|lia].
    + intros Hpos. pose proof (Z.div_pos cc Q ltac:(lia) HQ). rewrite Z.max_r by done.
      pose proof (Z.mul_div_le cc Q HQ). pose proof (Z.mul_succ_div_gt cc Q HQ). nia.
Qed.

(** The quotient in Q14, limited to one. *)
Lemma quotient_q14 c sq : 0 < sq -> 0 <= c <= 16869 * sq ->
  let q := Z.min 16384 (s16 (DivW32W16 c sq)) in (14746 < q <-> 14747 * sq <= c).
Proof.
  intros Hs Hc. unfold DivW32W16. destruct (Z.eqb_spec sq 0); [lia|]. cbn [negb]. rewrite Z.quot_div_nonneg by lia.
  assert (Hq : 0 <= c / sq <= 16869) by (split; [apply Z.div_pos; lia|apply Z.div_le_upper_bound; lia]).
  rewrite s32_id, s16_id by (unfold in_s16, in_s32; lia). cbv zeta. split; intros H.
  - pose proof (Z.mul_div_le c sq Hs). nia.
  - assert (14747 <= c / sq) by (apply Z.div_le_lower_bound; lia). lia.
Qed.

Lemma cross_magnitude p e1 e2 cc S P : cross_ok p e1 e2 cc -> 0 <= p <= 476 /\ 0 < P /\ 0 <= S ->
  (forall x, 0 <= x -> x * x <= (e1 + p) * (e2 + p) -> 16384 * x <= 16869 * (S * P)) ->
  Z.abs cc * 16384 <= (16869 * S + 476 * 16384) * P.
Proof.
  intros [Hc1 Hc2] (Hp & HP & HS) H. assert (HpP : p <= 476 * P) by lia.
  destruct (Z.le_gt_cases 0 cc) as [Hs|Hs]; [specialize (H cc Hs (Hc1 Hs)); lia|].
  destruct (Z.le_gt_cases (cc + p) 0) as [Hs2|Hs2].
  - specialize (H (- (cc + p)) ltac:(lia) ltac:(specialize (Hc2 Hs2); lia)). lia.
  - assert (0 <= S * P) by (apply Z.mul_nonneg_nonneg; lia). lia.
Qed.

Lemma best_corr_spec p e1 e2 cc :
  16384 <= e1 < 2147483648 -> 16384 <= e2 < 2147483648 -> 0 <= p <= 476 -> cross_ok p e1 e2 cc ->
  (14746 < best_corr e1 e2 cc -> 0 < cc /\ 80 * (e1 * e2) <= 100 * (cc * cc)) /\
  (best_corr e1 e2 cc <= 14746 -> cc <= 0 \/ 100 * (cc * cc) <= 82 * (e1 * e2)).
Proof.
  intros He1 He2 Hp Hcs. unfold best_corr.
  destruct (energy_bits e1 He1) as (a0 & Ea & Ha0 & Hn0). destruct (energy_bits e2 He2) as (b & Eb & Hb & Hn2).
  rewrite Ea, Eb. cbv zeta. rewrite land_one.
  assert (HA : exists a h, (if negb ((a0 + b) mod 2 =? 0) then s16 (a0 + 1) else a0) = a /\ a + b = 2 * h /\ 0 <= h <= 17 /\
    0 <= a <= 17 /\ 8192 <= e1 / 2 ^ a < 32768).
  { destruct (Z.eqb_spec ((a0 + b) mod 2) 0) as [Hm|Hm]; cbn [negb].
    - exists a0, ((a0 + b) / 2). repeat split; try lia. all: Z.to_euclidean_division_equations; lia.
    - exists (a0 + 1), ((a0 + 1 + b) / 2). rewrite s16_id by (unfold in_s16; lia). split; [done|].
      split; [Z.to_euclidean_division_equations; lia|]. split; [Z.to_euclidean_division_equations; lia|]. split; [lia|].
      assert (E2 : e1 / 2 ^ (a0 + 1) = e1 / 2 ^ a0 / 2)
        by (rewrite Z.pow_add_r, Z.div_div by (try apply Z.pow_nonzero; lia); done).
      rewrite E2. Z.to_euclidean_division_equations; lia. }
  destruct HA as (a & h & -> & Hh2 & Hh & Ha & Hn1). rewrite Hh2.
  rewrite (Z.shiftr_div_pow2 (2 * h)) by lia. change (2 ^ 1) with 2. rewrite (Z.mul_comm 2 h), Z.div_mul by lia.
  rewrite (Z.shiftr_div_pow2 e1), (Z.shiftr_div_pow2 e2) by lia.
  rewrite (s16_id (e1 / 2 ^ a)), (s16_id (e2 / 2 ^ b)) by (unfold in_s16; lia).
  pose proof (Z.mul_div_le e1 (2 ^ a) ltac:(apply Z.pow_pos_nonneg; lia)) as D1.
  pose proof (Z.mul_succ_div_gt e1 (2 ^ a) ltac:(apply Z.pow_pos_nonneg; lia)) as D2.
  pose proof (Z.mul_div_le e2 (2 ^ b) ltac:(apply Z.pow_pos_nonneg; lia)) as D3.
  pose proof (Z.mul_succ_div_gt e2 (2 ^ b) ltac:(apply Z.pow_pos_nonneg; lia)) as D4.
  pose proof (Z.pow_pos_nonneg 2 a ltac:(lia) ltac:(lia)) as PA. pose proof (Z.pow_pos_nonneg 2 b ltac:(lia) ltac:(lia)) as PB.
  pose proof (Z.pow_pos_nonneg 2 h ltac:(lia) ltac:(lia)) as PH.
  assert (HAB : 2 ^ a * 2 ^ b = 2 ^ h * 2 ^ h) by (rewrite <-!Z.pow_add_r by lia; f_equal; lia).
  set (n1 := e1 / 2 ^ a) in *. set (n2 := e2 / 2 ^ b) in *.
  assert (Em : mul_16_16 n1 n2 = n1 * n2) by (unfold mul_16_16; rewrite !s16_id by (unfold in_s16; lia); done).
  rewrite Em, SqrtFloor_correct by nia. pose proof (Z.sqrt_spec (n1 * n2) ltac:(nia)) as Hsq. unfold Z.succ in *.
  set (sq := Z.sqrt (n1 * n2)) in *. pose proof (Z.sqrt_nonneg (n1 * n2)) as Hsq0. fold sq in Hsq0.
  assert (Hsqr : 8192 <= sq < 32768) by (split; [apply Z.lt_succ_r; apply Z.square_lt_simpl_nonneg; nia|apply Z.square_lt_simpl_nonneg; nia]).
  rewrite (s16_id sq) by (unfold in_s16; lia).
  assert (H1 : n1 * 2 ^ a <= e1 < (n1 + 1) * 2 ^ a /\ 8192 <= n1) by lia.
  assert (H2 : n2 * 2 ^ b <= e2 < (n2 + 1) * 2 ^ b /\ 8192 <= n2) by lia.
  assert (HA : 0 < 2 ^ a /\ 0 < 2 ^ b /\ 0 < 2 ^ h /\ 2 ^ a * 2 ^ b = 2 ^ h * 2 ^ h) by auto.
  assert (HS : sq * sq <= n1 * n2 < (sq + 1) * (sq + 1) /\ 8192 <= sq) by (split; [exact Hsq|lia]).
  assert (HE : 16384 <= e1 /\ 16384 <= e2 /\ 0 <= p <= 476 /\ cross_ok p e1 e2 cc) by (split_and!; done || lia).
  pose proof (cross_bound p e1 e2 cc _ _ _ n1 n2 sq HA H1 H2 HS HE) as Hcb.
  destruct (shifted_cross cc h (16869 * sq + 476 * 16384) Hh ltac:(lia)) as [Hc0 Hc].
  { apply (cross_magnitude p e1 e2 cc); [done|lia|done]. }
  destruct (correlation_judged p e1 e2 cc _ _ _ n1 n2 sq HA H1 H2 HS HE _ Hc0 Hc) as (Hr & Hj1 & Hj2).
  pose proof (quotient_q14 _ sq ltac:(lia) Hr) as Hq. cbv zeta in Hq. split; intros Hx.
  - apply Hj1, Hq, Hx.
  - apply Hj2. lia.
Qed.

(** ** The judgement *)

Lemma block_elem (l : list Z) i n x : x ∈ block l i n -> x ∈ l.
Proof. unfold block. intros H. apply elem_of_take in H as (j & Hj & _). rewrite lookup_drop in Hj. by eapply list_elem_of_lookup_2. Qed.

Lemma period_correlation_judged inst decoded q p vad corr :
  Forall in_s16 decoded -> 0 < p <= 476 -> p <= q -> q + p <= zlen decoded ->
  period_correlation inst decoded (MaxAbsValueW16C decoded) q p = Some (vad, corr) -> judged inst decoded q p vad corr.
Proof.
  intros Hd Hp Hq Hz E. unfold period_correlation in E. cbv zeta in E. rewrite !aload_in in E by lia. cbn [mbind option_bind] in E.
  fold (block decoded (q - p) p) in E. fold (block decoded q p) in E.
  assert (Hbe : forall x, x ∈ block decoded (q - p) p -> x ∈ decoded) by apply block_elem.
  assert (Hbh : forall x, x ∈ block decoded q p -> x ∈ decoded) by apply block_elem.
  pose proof (length_block decoded (q - p) p ltac:(lia) ltac:(lia) ltac:(lia)) as L1.
  pose proof (length_block decoded q p ltac:(lia) ltac:(lia) ltac:(lia)) as L2.
  revert Hbe Hbh L1 L2 E. unfold judged. generalize (block decoded (q - p) p) as xs, (block decoded q p) as ys.
  intros xs ys Hbe Hbh L1 L2 E. set (k := sum_scale (MaxAbsValueW16C decoded) p) in *.
  assert (Hk : 0 <= k <= 9 /\ 2 ^ NormW32 p * p < 2147483648).
  { destruct xs as [|x xs]; [cbn in L1; lia|]. destruct (sum_scale_bounds decoded p x x Hd) as (H1 & _ & H2);
      [apply Hbe; left|apply Hbe; left|lia|done]. }
  destruct Hk as [Hk HB]. assert (HB0 : 0 <= 2 ^ NormW32 p) by (apply Z.pow_nonneg; lia).
  assert (HP : forall us vs, (forall x, x ∈ us -> x ∈ decoded) -> (forall x, x ∈ vs -> x ∈ decoded) -> length us = Z.to_nat p ->
    length vs = Z.to_nat p -> DotProductWithScale us vs k = scaled_sum k us vs /\ Z.abs (scaled_sum k us vs) < 2147483648).
  { intros us vs Hu Hv Lu Lv. assert (HO : products_ok k (2 ^ NormW32 p) us vs).
    { intros x y Hx Hy. by destruct (sum_scale_bounds decoded p x y Hd (Hu x Hx) (Hv y Hy)) as (_ & H & _); [lia|]. }
    assert (Hzu : zlen us = p) by (unfold zlen; lia). split.
    - apply (scaled_dot k (2 ^ NormW32 p)); [lia|done|rewrite Hzu; lia|lia].
    - pose proof (scaled_sum_le k _ us vs HO HB0) as Hle. rewrite Hzu in Hle. lia. }
  destruct (HP xs xs Hbe Hbe L1 L1) as [-> B1] in E. destruct (HP ys ys Hbh Hbh L2 L2) as [-> B2] in E.
  destruct (HP xs ys Hbe Hbh L1 L2) as [-> _] in E. rewrite passive_spec in E by lia.
  exists k. split; [done|]. cbv zeta.
  pose proof (scaled_sum_square k xs ltac:(lia)) as N1. pose proof (scaled_sum_square k ys ltac:(lia)) as N2.
  pose proof (scaled_cross k xs ys ltac:(lia) ltac:(lia)) as Hc. assert (Hzx : zlen xs = p) by (unfold zlen; lia). rewrite Hzx in Hc.
  split; [lia|]. split; [lia|]. destruct (Z.leb_spec (4 ^ k * (s32 (scaled_sum k xs xs + scaled_sum k ys ys) / 16 / 2 ^ noise_shift inst))
    (s16 p * noise_level inst)) as [Hv|Hv]; injection E as <- <-.
  - split; [auto|]. split; [done|]. discriminate.
  - split; [auto|]. split; [split; [discriminate|lia]|]. intros _ He1 He2. apply (best_corr_spec p); lia || done.
Qed.
