(* ===== verification/StretchInv.v ===== *)
(** What acceleration and pre-emptive expansion make of their input: everything
    outside of one pitch period is handed on unmodified, the period is a cross
    fade, and no access is out of bounds. *)
From S2P Require Import Prelude SplMath SplFilt Stretch StretchSim.

(** ** Sampling rates *)

Definition rate_ok (fs : Z) : Prop := fs = 8000 \/ fs = 16000 \/ fs = 32000.

Lemma rate_cases (P : Z -> Z -> Prop) : P 8000 1 -> P 16000 2 -> P 32000 4 -> forall fs, rate_ok fs -> P fs (CalcFsMult fs).
Proof. intros H1 H2 H3 fs [->|[->| ->]]; assumption. Qed.

Lemma CalcFsMult_ok fs : rate_ok fs -> CalcFsMult fs = 1 \/ CalcFsMult fs = 2 \/ CalcFsMult fs = 4.
Proof. intros [->|[->| ->]]; cbn; auto. Qed.

(** ** Peak detection *)

Lemma prbl_flag_range test fs_mult stp fuel : forall flag lmt,
  1 <= flag -> fs_mult = flag + Z.of_nat fuel - 1 -> (0 < fuel)%nat ->
  exists f, prbl_flag fuel test fs_mult stp flag lmt = Some f /\ 1 <= f <= fs_mult.
Proof.
  induction fuel as [|fuel IH]; intros flag lmt Hf Hs Hp; [lia|]. cbn [prbl_flag].
  destruct (Z.eqb_spec flag fs_mult) as [->|Hn]; cbn [orb]; [exists fs_mult; split; [done|lia]|].
  destruct (test lmt); [exists flag; split; [done|lia]|]. apply IH; lia.
Qed.

Lemma prbl_cf_in m i : m = 1 \/ m = 2 \/ m = 4 -> 0 <= i <= 2 * m -> exists c, prbl_cf m i = Some c.
Proof.
  intros Hm Hi. assert (Hall : forallb (fun m => forallb (fun i => if prbl_cf m (Z.of_nat i) is Some _ then true else false)
    (seq 0 (Z.to_nat (2 * m + 1)))) [1; 2; 4] = true) by reflexivity.
  rewrite forallb_forall in Hall. specialize (Hall m ltac:(destruct Hm as [->|[->| ->]]; cbn; auto)).
  rewrite forallb_forall in Hall. specialize (Hall (Z.to_nat i)). rewrite Z2Nat.id in Hall by lia.
  destruct (prbl_cf m i) as [c|]; [by exists c|]. discriminate Hall. apply in_seq. lia.
Qed.

Lemma PrblFit_range data p ind m :
  m = 1 \/ m = 2 \/ m = 4 -> 0 <= p -> p + 3 <= zlen data -> 0 <= ind <= 1000 ->
  exists ind' v, PrblFit data p ind m = Some (ind', v) /\ 2 * m * ind - m <= ind' <= 2 * m * ind + m.
Proof.
  intros Hm Hp Hd Hi. unfold PrblFit.
  destruct (aget_in data p) as [p0 E0]; [lia|]. destruct (aget_in data (p + 1)) as [p1 E1]; [lia|].
  destruct (aget_in data (p + 2)) as [p2 E2]; [lia|].
  rewrite (bind_eq _ _ _ E0), (bind_eq _ _ _ E1), (bind_eq _ _ _ E2).
  destruct (prbl_cf_in m m Hm) as [a Ea]; [lia|]. destruct (prbl_cf_in m (m - 1) Hm) as [b Eb]; [lia|].
  rewrite (bind_eq _ _ _ Ea), (bind_eq _ _ _ Eb). cbv zeta.
  assert (Hv : forall i Num Den, 0 <= i <= 2 * m -> exists v, prbl_value m i Num Den p0 = Some v).
  { intros i Num Den Hr. unfold prbl_value. destruct (prbl_cf_in m i Hm Hr) as [c Ec]. rewrite (bind_eq _ _ _ Ec). by eexists. }
  assert (Hfl : forall test stp lmt, exists f, prbl_flag (Z.to_nat m) test m stp 1 lmt = Some f /\ 1 <= f <= m)
    by (intros; apply prbl_flag_range; lia).
  case_if; [|case_if].
  - match goal with |- context [prbl_flag _ ?t _ ?s _ ?l] => destruct (Hfl t s l) as (f & Ef & Hf) end.
    rewrite (bind_eq _ _ _ Ef).
    match goal with |- context [prbl_value m ?i ?n ?d _] => destruct (Hv i n d) as (v & Ev); [lia|] end.
    rewrite (bind_eq _ _ _ Ev). eexists _, _. split; [reflexivity|]. rewrite s16_id; unfold in_s16; nia.
  - match goal with |- context [prbl_flag _ ?t _ ?s _ ?l] => destruct (Hfl t s l) as (f & Ef & Hf) end.
    rewrite (bind_eq _ _ _ Ef).
    match goal with |- context [prbl_value m ?i ?n ?d _] => destruct (Hv i n d) as (v & Ev); [lia|] end.
    rewrite (bind_eq _ _ _ Ev). eexists _, _. split; [reflexivity|]. rewrite s16_id; unfold in_s16; nia.
  - eexists _, _. split; [reflexivity|]. rewrite s16_id; unfold in_s16; nia.
Qed.

(** The lag that both functions find, in samples. *)
Lemma best_lag_range scratch n m :
  m = 1 \/ m = 2 \/ m = 4 -> 2 <= n <= 50 -> n < zlen scratch ->
  exists lag, best_lag scratch n m = Some lag /\ 20 * m <= lag <= (2 * n + 19) * m.
Proof.
  intros Hm Hn Hs. unfold best_lag, PeakDetection. change (Z.to_nat 1) with 1%nat. cbn [for_loop Z.eqb Pos.eqb].
  rewrite (s16_id (n + 1)) by (unfold in_s16; lia). cbv zeta. replace (Z.max 0 (n + 1 - 1)) with n by lia.
  rewrite aload_in by lia. rewrite (bind_eq _ _ _ eq_refl). set (v := take _ _).
  assert (Hv : zlen v = n) by (unfold v; unfold zlen in *; rewrite length_take, length_drop; lia).
  assert (Hi : 0 <= MaxIndexW16 v < n) by (rewrite <-Hv; apply MaxIndexW16_range; intros E; rewrite E, (zlen_nil (A:=Z)) in Hv; lia).
  rewrite (s16_id (MaxIndexW16 v)) by (unfold in_s16; lia). revert Hi. generalize (MaxIndexW16 v) as ind. intros ind Hi.
  assert (HP : exists r, peak_at scratch (n + 1) ind m = Some r /\ 0 <= r.1 <= (2 * n - 1) * m).
  { unfold peak_at. case_if; [|case_if].
    - destruct (PrblFit_range scratch (ind - 1) ind m) as (i' & w & EP & Hr); [done|lia..|]. exists (i', w). split; [done|].
      cbn [fst]. nia.
    - destruct (aget_in scratch ind) as [x Ex]; [lia|]. destruct (aget_in scratch (ind + 1)) as [y Ey]; [lia|].
      rewrite (bind_eq _ _ _ Ex), (bind_eq _ _ _ Ey). case_if.
      + destruct (PrblFit_range scratch (ind - 1) ind m) as (i' & w & EP & Hr); [done|lia..|]. exists (i', w). split; [done|].
        cbn [fst]. nia.
      + eexists. split; [reflexivity|]. cbn [fst]. rewrite s16_id; unfold in_s16; nia.
    - destruct (aget_in scratch ind) as [x Ex]; [lia|]. rewrite (bind_eq _ _ _ Ex).
      eexists. split; [reflexivity|]. cbn [fst]. rewrite s16_id; unfold in_s16; nia. }
  destruct HP as ([i' w] & -> & Hr). cbn [mbind option_bind negb fst snd app] in *.
  eexists. split; [reflexivity|]. rewrite Z.shiftl_mul_pow2 by lia. change (2 ^ 1) with 2.
  rewrite s16_id; unfold in_s16; nia.
Qed.

(** ** The cross fade *)

(** [xs] fades out from the weight [f] on (in Q14), [ys] fades in. *)
Fixpoint crossfade (inc f : Z) (xs ys : list Z) : list Z :=
  match xs, ys with
  | x :: xs, y :: ys => Z.shiftr (f * x + (16384 - f) * y + 8192) 14 :: crossfade inc (f - inc) xs ys
  | _, _ => []
  end.

Lemma length_crossfade inc xs : forall f ys, length xs = length ys -> length (crossfade inc f xs ys) = length xs.
Proof. induction xs as [|x xs IH]; intros f [|y ys] H; cbn in *; try done. f_equal. apply IH. lia. Qed.

Lemma mixture_between f x y :
  0 <= f <= 16384 -> Z.min x y <= Z.shiftr (f * x + (16384 - f) * y + 8192) 14 <= Z.max x y.
Proof.
  intros Hf. rewrite Z.shiftr_div_pow2 by lia. change (2 ^ 14) with 16384. split.
  - apply Z.div_le_lower_bound; nia.
  - assert ((f * x + (16384 - f) * y + 8192) / 16384 < Z.max x y + 1); [|lia]. apply Z.div_lt_upper_bound; nia.
Qed.

(** Every sample of the cross fade lies between the two samples it is made of. *)
Lemma crossfade_between inc xs : forall f ys i x y c,
  0 <= inc -> inc * (zlen xs - 1) <= f <= 16384 -> length xs = length ys ->
  xs !! i = Some x -> ys !! i = Some y -> crossfade inc f xs ys !! i = Some c -> Z.min x y <= c <= Z.max x y.
Proof.
  induction xs as [|a xs IH]; intros f [|b ys] i x y c Hinc Hf Hl Hx Hy Hc; try discriminate.
  rewrite zlen_cons in Hf. pose proof (zlen_nonneg xs). cbn [length] in Hl. destruct i as [|i]; cbn in Hx, Hy.
  - cbn [crossfade lookup list_lookup] in Hc. injection Hx as ->. injection Hy as ->. injection Hc as <-.
    apply mixture_between. nia.
  - cbn [crossfade lookup list_lookup] in Hc. destruct xs as [|a' xs]; [done|].
    eapply (IH (f - inc) ys i x y c); [done| |lia|exact Hx|exact Hy|exact Hc]. rewrite zlen_cons in *. nia.
Qed.

Lemma mix_loop N : forall mem v u xs ys i o a old b f inc,
  in_s16 inc -> 0 <= inc -> 0 <= f <= 16384 -> inc * Z.of_nat N <= f -> 0 <= v -> 0 <= u -> 0 <= i ->
  (forall k, (k < N)%nat -> aget mem (v + i + Z.of_nat k) = xs !! k) ->
  (forall k, (k < N)%nat -> aget mem (u + i + Z.of_nat k) = ys !! k) ->
  length xs = N -> length ys = N -> length old = N -> zlen a = o + i ->
  Forall in_s16 xs -> Forall in_s16 ys ->
  exists g h, for_loop N i (fun i st =>
        let '(out, vfraction, w16_tmp2) := st in
        x ← aget mem (v + i);
        y ← aget mem (u + i);
        out ← aset out (o + i)
                (s16 (Z.shiftr (s32 (mul_16_16 vfraction x + mul_16_16 w16_tmp2 y + 8192)) 14));
        Some (out, s16 (vfraction - inc), s16 (w16_tmp2 + inc))) (a ++ old ++ b, f, 16384 - f) =
    Some (a ++ crossfade inc f xs ys ++ b, g, h).
Proof.
  induction N as [|N IH]; intros mem v u xs ys i o a old b f inc Hinc Hinc0 Hf HfN Hv Hu Hi Hx Hy Lx Ly Lo La Fx Fy; cbn [for_loop].
  { destruct xs, ys, old; try discriminate. by eexists _, _. }
  destruct xs as [|x xs]; [done|]. destruct ys as [|y ys]; [done|]. destruct old as [|z old]; [done|].
  cbn [length] in Lx, Ly, Lo. inversion_clear Fx as [|? ? Rx Fx']. inversion_clear Fy as [|? ? Ry Fy'].
  pose proof (Hx 0%nat ltac:(lia)) as Ex. pose proof (Hy 0%nat ltac:(lia)) as Ey. cbn in Ex, Ey.
  rewrite Z.add_0_r in Ex, Ey. rewrite (bind_eq _ _ _ Ex), (bind_eq _ _ _ Ey).
  assert (Hm : Z.min x y <= Z.shiftr (f * x + (16384 - f) * y + 8192) 14 <= Z.max x y) by (apply mixture_between; lia).
  assert (Es : s16 (Z.shiftr (s32 (mul_16_16 f x + mul_16_16 (16384 - f) y + 8192)) 14) =
               Z.shiftr (f * x + (16384 - f) * y + 8192) 14).
  { unfold mul_16_16. unfold in_s16 in *. rewrite (s16_id f), (s16_id x), (s16_id (16384 - f)), (s16_id y) by (unfold in_s16; lia).
    rewrite s32_id by (unfold in_s32; nia). apply s16_id. unfold in_s16. lia. }
  rewrite Es. rewrite aset_in by (rewrite !zlen_app, zlen_cons; pose proof (zlen_nonneg old); pose proof (zlen_nonneg b); pose proof (zlen_nonneg a); lia).
  cbn [mbind option_bind]. rewrite <-La. unfold zlen at 1. rewrite Nat2Z.id.
  rewrite insert_app_r_alt, Nat.sub_diag by lia. cbn [insert list_insert app].
  rewrite !s16_id by (unfold in_s16 in *; nia).
  replace (16384 - f + inc) with (16384 - (f - inc)) by lia.
  destruct (IH mem v u xs ys (i + 1) o (a ++ [Z.shiftr (f * x + (16384 - f) * y + 8192) 14]) old b (f - inc) inc)
    as (g & h & E); try done; try nia.
  - intros k Hk. change (xs !! k) with ((x :: xs) !! S k). rewrite <-Hx by lia. f_equal. lia.
  - intros k Hk. change (ys !! k) with ((y :: ys) !! S k). rewrite <-Hy by lia. f_equal. lia.
  - rewrite zlen_app. change (zlen [_]) with 1. lia.
  - rewrite <-!app_assoc in E. cbn [app] in E. exists g, h. exact E.
Qed.

Lemma MixVoiceUnvoice_spec outData o mem v u f inc n :
  0 <= inc <= 16384 -> 0 <= f <= 16384 -> inc * n <= f -> 0 <= v -> 0 <= u -> 0 <= n <= 16384 ->
  0 <= o -> o + n <= zlen outData -> v + n <= zlen mem -> u + n <= zlen mem -> Forall in_s16 mem ->
  exists h, MixVoiceUnvoice outData o mem v u f inc n =
    Some (take (Z.to_nat o) outData ++ crossfade inc f (block mem v n) (block mem u n) ++ drop (Z.to_nat (o + n)) outData, h).
Proof.
  intros Hi Hf Hn Hv Hu Hn0 Ho Hlo Hlv Hlu Fm. unfold MixVoiceUnvoice.
  rewrite (s16_id (16384 - f)) by (unfold in_s16; lia).
  destruct (mix_loop (Z.to_nat n) mem v u (block mem v n) (block mem u n) 0 o (take (Z.to_nat o) outData)
    (block outData o n) (drop (Z.to_nat (o + n)) outData) f inc) as (g & h & E).
  - unfold in_s16. lia.
  - lia.
  - lia.
  - rewrite Z2Nat.id by lia. lia.
  - lia.
  - lia.
  - lia.
  - intros k Hk. rewrite Z.add_0_r. apply aget_block; lia.
  - intros k Hk. rewrite Z.add_0_r. apply aget_block; lia.
  - apply length_block; lia.
  - apply length_block; lia.
  - apply length_block; lia.
  - unfold zlen in *. rewrite length_take. lia.
  - by apply block_s16.
  - by apply block_s16.
  - rewrite <-split_at in E by lia. exists g. rewrite E. reflexivity.
Qed.

(** The step of the weights. *)
Definition fade_step (p : Z) : Z := 16384 / (p + 1).

Lemma fade_step_range p : 0 <= p -> 0 <= fade_step p <= 16384 /\ fade_step p * p <= 16384 - fade_step p.
Proof.
  intros Hp. unfold fade_step. pose proof (Z.mul_div_le 16384 (p + 1) ltac:(lia)).
  assert (0 <= 16384 / (p + 1)) by (apply Z.div_pos; lia). nia.
Qed.

Lemma overlap_add_spec outData o decoded v u p :
  0 < p <= 16384 -> 0 <= v -> 0 <= u -> 0 <= o -> o + p <= zlen outData -> v + p <= zlen decoded ->
  u + p <= zlen decoded -> Forall in_s16 decoded ->
  overlap_add outData o decoded v u p =
    Some (take (Z.to_nat o) outData ++
          crossfade (fade_step p) (16384 - fade_step p) (block decoded v p) (block decoded u p) ++
          drop (Z.to_nat (o + p)) outData).
Proof.
  intros Hp Hv Hu Ho Hlo Hlv Hlu Fd. destruct (fade_step_range p) as [Hs1 Hs2]; [lia|]. unfold overlap_add.
  rewrite (s16_id (p + 1)) by (unfold in_s16; lia).
  assert (E : s16 (DivW32W16 16384 (p + 1)) = fade_step p).
  { unfold DivW32W16. destruct (Z.eqb_spec (p + 1) 0); [lia|]. cbn [negb]. rewrite Z.quot_div_nonneg by lia.
    fold (fade_step p). rewrite s32_id by (unfold in_s32; lia). apply s16_id. unfold in_s16; lia. }
  rewrite E. cbv zeta. rewrite (s16_id (16384 - fade_step p)) by (unfold in_s16; lia).
  destruct (MixVoiceUnvoice_spec outData o decoded v u (16384 - fade_step p) (fade_step p) p) as [h ->]; try lia; done.
Qed.

(** ** The search of the master *)

Definition samples_ok (decoded : list Z) (len : Z) (fs : Z) : Prop :=
  zlen decoded = len /\ 239 * CalcFsMult fs <= len /\ len + 24 * CalcFsMult fs <= NETEQ_MAX_OUTPUT_SIZE /\
  Forall in_s16 decoded.

Lemma DownSampleTo4kHz_ok decoded len fs :
  rate_ok fs -> samples_ok decoded len fs ->
  exists out, DownSampleTo4kHz decoded len fs 110 true = Some (0, out) /\ zlen out = 110.
Proof.
  intros Hfs (Hl & Hlo & Hhi & _). unfold NETEQ_MAX_OUTPUT_SIZE in Hhi. unfold DownSampleTo4kHz. revert Hlo Hhi.
  pattern fs, (CalcFsMult fs). apply rate_cases; [..|done]; intros Hlo Hhi; cbn [downsample_filter Z.eqb Pos.eqb];
    change (zlen kDownsample8kHzTbl) with 3; change (zlen kDownsample16kHzTbl) with 5;
    change (zlen kDownsample32kHzTbl) with 7; rewrite !s16_id by (unfold in_s16; lia);
    match goal with |- context [DownsampleFastC ?mem ?b ?n ?m ?c ?f ?d] =>
      pose proof (DownsampleFastC_spec mem b n m c f d) as H end;
    change (zlen kDownsample8kHzTbl) with 3 in *; change (zlen kDownsample16kHzTbl) with 5 in *;
    change (zlen kDownsample32kHzTbl) with 7 in *;
    (specialize (H ltac:(lia) ltac:(lia) ltac:(lia) ltac:(lia)); case_if; [lia|]; destruct H as (out & -> & Ho & _);
     by exists out).
Qed.

Lemma longs_halves l : Forall in_s32 l -> longs (flat_map halves l) = l.
Proof.
  induction 1 as [|x l Hx Hl IH]; [done|]. cbn [flat_map halves app longs]. rewrite IH. f_equal.
  change 65535 with (2 ^ 16 - 1). rewrite land_ones_mod, lor_shiftl_add by (try apply Z.mod_pos_bound; lia).
  assert (E : s16 (Z.shiftr x 16) = Z.shiftr x 16).
  { apply s16_id. rewrite Z.shiftr_div_pow2 by lia. change (2 ^ 16) with 65536. unfold in_s32, in_s16 in *.
    Z.to_euclidean_division_equations. lia. }
  rewrite E, Z.shiftr_div_pow2 by lia. change (2 ^ 16) with 65536.
  assert (s16 x mod 65536 = x mod 65536) as -> by (unfold s16; wrap_lia).
  rewrite s32_id; unfold in_s32 in *; Z.to_euclidean_division_equations; lia.
Qed.

Lemma zlen_halves l : zlen (flat_map halves l) = 2 * zlen l.
Proof. induction l as [|x l IH]; [done|]. cbn [flat_map halves app]. rewrite !zlen_cons. lia. Qed.

Lemma correlation_vector_ok fs scratch decoded len :
  rate_ok fs -> samples_ok decoded len fs -> 210 <= zlen scratch ->
  exists scratch', correlation_vector fs scratch decoded len = Some (Some (scratch', MaxAbsValueW16C decoded)) /\
    zlen scratch' = zlen scratch.
Proof.
  intros Hfs Hs Hscr. pose proof (DownSampleTo4kHz_ok _ _ _ Hfs Hs) as (ds & Eds & Lds). destruct Hs as (Hl & Hlo & Hhi & Fd).
  unfold NETEQ_MAX_OUTPUT_SIZE in Hhi.
  assert (Hl2 : 0 <= len <= 32767) by (destruct (CalcFsMult_ok fs Hfs) as [Em|[Em|Em]]; lia).
  unfold correlation_vector. rewrite (s16_id len) by (unfold in_s16; lia). rewrite aload_in by lia. cbn [mbind option_bind].
  rewrite Eds. cbn [mbind option_bind fst snd]. change (negb (0 =? 0)) with false. cbv iota.
  destruct (astore_in scratch ds 0) as (scr1 & E1 & L1); [lia..|]. rewrite E1. cbn [mbind option_bind]. cbv zeta.
  rewrite drop_0, take_ge by (unfold zlen in *; lia).
  match goal with |- context [CrossCorrelation ?a ?b ?c ?d ?e ?f ?g ?h] =>
    destruct (CrossCorrelation_safe a b c d e f g h) as (corr & Ec & Lc & Fc) end; [lia..|].
  rewrite Ec. cbn [mbind option_bind].
  destruct (astore_in scr1 (flat_map halves corr) 110) as (scr2 & E2 & L2); [lia|rewrite zlen_halves; lia|].
  rewrite E2. cbn [mbind option_bind]. pose proof (aload_astore_eq _ _ _ _ E2) as E3.
  rewrite zlen_halves, Lc in E3. change (2 * 50) with 100 in E3. rewrite E3. cbn [mbind option_bind]. rewrite longs_halves by done.
  match goal with |- context [astore scr2 0 ?x] => destruct (astore_in scr2 x 0) as (scr3 & E4 & L4) end; [lia| |].
  - unfold VectorBitShiftW32ToW16. unfold zlen in *. rewrite length_fmap. lia.
  - rewrite E4. exists scr3. split; [done|lia].
Qed.

Lemma period_correlation_ok inst decoded dmax q p :
  0 <= p <= q -> q + p <= zlen decoded ->
  exists vad corr, period_correlation inst decoded dmax q p = Some (vad, corr) /\ (vad = 0 \/ vad = 1).
Proof.
  intros Hp Hq. unfold period_correlation. cbv zeta. rewrite !aload_in by lia. cbn [mbind option_bind].
  case_if; eexists _, _; split; try reflexivity; auto.
Qed.

(** What [master_search] answers: a lag, stored for the slave, and its judgement. *)
Lemma master_search_ok inst ms scratch decoded len n :
  rate_ok (dsp_fs inst) -> samples_ok decoded len (dsp_fs inst) -> 210 <= zlen scratch -> 2 <= n <= 50 ->
  let m := CalcFsMult (dsp_fs inst) in
  exists p vad corr,
    master_search inst ms scratch decoded len n =
      Some (Some (inst <| dsp_msInfo := Some (ms <| ms_bestIndex := p |>) |>, p, vad, corr)) /\
    20 * m <= p <= (2 * n + 19) * m /\ (vad = 0 \/ vad = 1) /\ judged inst decoded (120 * m) p vad corr.
Proof.
  intros Hfs Hs Hscr Hn m. pose proof (CalcFsMult_ok _ Hfs) as Hm. fold m in Hm.
  destruct (correlation_vector_ok _ scratch _ _ Hfs Hs Hscr) as (scr & E1 & L1). destruct Hs as (Hl & Hlo & Hhi & Fd).
  fold m in Hlo, Hhi. unfold master_search. fold m. rewrite E1. cbn [mbind option_bind].
  destruct (best_lag_range scr n m) as (p & E2 & Hp); [done|lia|lia|]. rewrite E2. cbn [mbind option_bind].
  assert (E3 : s16 (mul_16_16 m 120) = 120 * m).
  { unfold mul_16_16. rewrite !s16_id; unfold in_s16; rewrite ?s16_id; unfold in_s16; lia. }
  rewrite E3.
  match goal with |- context [period_correlation ?i ?d ?x ?q ?p] =>
    destruct (period_correlation_ok i d x q p) as (vad & corr & E4 & Hv) end; [nia|nia|].
  rewrite E4. cbn [mbind option_bind fst snd]. exists p, vad, corr. split; [done|]. split; [done|]. split; [done|].
  apply period_correlation_judged in E4; [exact E4|done|nia|nia|nia].
Qed.

(** ** What is made of the input *)

(** The cross fade from the [p] samples at [v] to those at [u]. *)
Definition fade (decoded : list Z) (v u p : Z) : list Z :=
  crossfade (fade_step p) (16384 - fade_step p) (block decoded v p) (block decoded u p).

(** One period less: of the periods in front of and behind sample [q] a mixture remains. *)
Definition shortened (decoded : list Z) (q p : Z) : list Z :=
  take (Z.to_nat (q - p)) decoded ++ fade decoded (q - p) q p ++ drop (Z.to_nat (q + p)) decoded.

(** One period more: a mixture of the periods behind and in front of sample [s] is inserted there. *)
Definition lengthened (decoded : list Z) (s p : Z) : list Z :=
  take (Z.to_nat s) decoded ++ fade decoded s (s - p) p ++ drop (Z.to_nat s) decoded.

Lemma zlen_fade decoded v u p :
  0 <= v -> 0 <= u -> 0 <= p -> v + p <= zlen decoded -> u + p <= zlen decoded -> zlen (fade decoded v u p) = p.
Proof. intros. unfold fade, zlen. rewrite length_crossfade; rewrite !length_block by lia; lia. Qed.

Lemma zlen_shortened decoded q p : 0 <= p <= q -> q + p <= zlen decoded -> zlen (shortened decoded q p) = zlen decoded - p.
Proof.
  intros Hp Hq. unfold shortened. rewrite !zlen_app, zlen_fade, take_z_zlen by lia. unfold zlen in *. rewrite length_drop. lia.
Qed.

Lemma zlen_lengthened decoded s p : 0 <= p <= s -> s + p <= zlen decoded -> zlen (lengthened decoded s p) = zlen decoded + p.
Proof.
  intros Hp Hq. unfold lengthened. rewrite !zlen_app, zlen_fade, take_z_zlen by lia. unfold zlen in *. rewrite length_drop. lia.
Qed.

(** A memory, its first entries written in three steps. *)
Lemma three_stores (A B C out1 out2 out3 out : list Z) a b c :
  zlen A = a -> zlen B = b -> zlen C = c -> a + b + c <= zlen out ->
  out1 = A ++ drop (Z.to_nat a) out ->
  out2 = take (Z.to_nat a) out1 ++ B ++ drop (Z.to_nat (a + b)) out1 ->
  out3 = take (Z.to_nat (a + b)) out2 ++ C ++ drop (Z.to_nat (a + b + c)) out2 ->
  out3 = (A ++ B ++ C) ++ drop (Z.to_nat (a + b + c)) out.
Proof.
  intros HA HB HC Ho -> -> ->. pose proof (zlen_nonneg A). pose proof (zlen_nonneg B). pose proof (zlen_nonneg C).
  rewrite (take_app_z A _ a) by done. rewrite (drop_app_z A _ _ a) by lia. rewrite drop_drop.
  replace (Z.to_nat a + Z.to_nat (a + b - a))%nat with (Z.to_nat (a + b)) by lia.
  rewrite (app_assoc A B), (take_app_z (A ++ B) _ (a + b)) by (rewrite zlen_app; lia).
  rewrite (drop_app_z (A ++ B) _ _ (a + b)) by (rewrite ?zlen_app; lia). rewrite drop_drop, <-!app_assoc. do 4 f_equal. lia.
Qed.

Lemma fsMult120 fs : rate_ok fs -> s16 (mul_16_16 (CalcFsMult fs) 120) = 120 * CalcFsMult fs.
Proof. intros [->|[->| ->]]; reflexivity. Qed.

Lemma hand_on_spec ret mode inst decoded len out :
  0 <= len <= 32767 -> zlen decoded = len -> len <= zlen out ->
  hand_on ret mode inst decoded len out =
    Some (ret, inst <| dsp_mode := mode |>, decoded ++ drop (Z.to_nat len) out, len).
Proof.
  intros Hl Hd Ho. unfold hand_on. rewrite (s16_id len) by (unfold in_s16; lia). rewrite memmove_spec by lia.
  cbn [mbind option_bind]. change (Z.to_nat 0) with 0%nat. rewrite take_0. cbn [app].
  rewrite block_0, take_ge by (unfold zlen in *; lia). done.
Qed.

Lemma acc_remove_spec inst decoded len p vad out :
  rate_ok (dsp_fs inst) -> samples_ok decoded len (dsp_fs inst) -> len <= zlen out ->
  let q := 120 * CalcFsMult (dsp_fs inst) in
  0 < p <= 119 * CalcFsMult (dsp_fs inst) ->
  acc_remove inst decoded len p vad out =
    Some (0, inst <| dsp_mode := if negb (vad =? 0) then MODE_SUCCESS_ACCELERATE else MODE_LOWEN_ACCELERATE |>
                  <| dsp_accelerateLength := u32 (dsp_accelerateLength inst + p) |>
                  <| dsp_accelerate_normal := s32 (dsp_accelerate_normal inst + p) |>,
          shortened decoded q p ++ drop (Z.to_nat (len - p)) out, len - p).
Proof.
  intros Hfs (Hl & Hlo & Hhi & Fd) Ho q Hp. unfold NETEQ_MAX_OUTPUT_SIZE in Hhi.
  assert (Hm := CalcFsMult_ok _ Hfs). assert (Hpq : p + q <= len /\ p < q <= 480) by (subst q; lia).
  unfold acc_remove. rewrite fsMult120 by done. fold q. clearbody q. cbv zeta.
  rewrite (s16_id (q - p)), (s16_id (len - q - p)), (s16_id (len - p)) by (unfold in_s16; lia).
  rewrite memmove_spec by lia. cbn [mbind option_bind]. change (Z.to_nat 0) with 0%nat. rewrite take_0. cbn [app].
  rewrite block_0, Z.add_0_l.
  set (out1 := take _ decoded ++ drop _ out).
  assert (L1 : zlen out1 = zlen out) by (unfold out1; unfold zlen in *; rewrite length_app, length_take, length_drop; lia).
  rewrite overlap_add_spec by (rewrite ?L1; lia || done). cbn [mbind option_bind].
  fold (fade decoded (q - p) q p). set (out2 := take _ out1 ++ _).
  assert (Lf : zlen (fade decoded (q - p) q p) = p) by (apply zlen_fade; lia).
  assert (L2 : zlen out2 = zlen out).
  { unfold out2. unfold zlen in *. rewrite !length_app, length_take, length_drop. lia. }
  rewrite memmove_spec by lia. cbn [mbind option_bind]. rewrite block_to_end by lia. do 3 f_equal. unfold shortened.
  assert (Ld : zlen (drop (Z.to_nat (q + p)) decoded) = len - q - p) by (unfold zlen in *; rewrite length_drop; lia).
  assert (E := three_stores _ _ _ out1 out2 _ out (q - p) p (len - q - p)
    (take_z_zlen decoded (q - p) ltac:(lia)) Lf Ld ltac:(lia) eq_refl eq_refl eq_refl).
  replace (q - p + p) with q in E by lia. replace (q + (len - q - p)) with (len - p) in * by lia. exact E.
Qed.

Lemma pre_insert_spec inst decoded len old p vad out :
  rate_ok (dsp_fs inst) -> samples_ok decoded len (dsp_fs inst) -> len + p <= zlen out -> len + p <= NETEQ_MAX_OUTPUT_SIZE ->
  let s := Z.max old (120 * CalcFsMult (dsp_fs inst)) in
  0 < p <= 119 * CalcFsMult (dsp_fs inst) -> s + p <= len ->
  pre_insert inst decoded len old p vad out =
    Some (0, inst <| dsp_mode := if negb (vad =? 0) then MODE_SUCCESS_PREEMPTIVE else MODE_LOWEN_PREEMPTIVE |>
                  <| dsp_preemptiveLength := u32 (dsp_preemptiveLength inst + p) |>
                  <| dsp_preemptive_normal := s32 (dsp_preemptive_normal inst + p) |>,
          lengthened decoded s p ++ drop (Z.to_nat (len + p)) out, len + p).
Proof.
  intros Hfs (Hl & Hlo & Hhi & Fd) Ho Hmax s Hp Hs. unfold NETEQ_MAX_OUTPUT_SIZE in *.
  assert (Hm := CalcFsMult_ok _ Hfs). assert (Hps : p < s) by (subst s; lia). assert (p <= 476) by lia.
  unfold pre_insert. rewrite fsMult120 by done. fold s. clearbody s. cbv zeta.
  rewrite (s16_id s), (s16_id (len - s)), (s16_id (len + p)) by (unfold in_s16; lia).
  rewrite memmove_spec by lia. cbn [mbind option_bind]. change (Z.to_nat 0) with 0%nat. rewrite take_0. cbn [app].
  rewrite block_0, Z.add_0_l. set (out1 := take _ decoded ++ drop _ out).
  assert (L1 : zlen out1 = zlen out) by (unfold out1; unfold zlen in *; rewrite length_app, length_take, length_drop; lia).
  rewrite overlap_add_spec by (rewrite ?L1; lia || done). cbn [mbind option_bind].
  fold (fade decoded s (s - p) p). set (out2 := take _ out1 ++ _).
  assert (Lf : zlen (fade decoded s (s - p) p) = p) by (apply zlen_fade; lia).
  assert (L2 : zlen out2 = zlen out).
  { unfold out2. unfold zlen in *. rewrite !length_app, length_take, length_drop. lia. }
  rewrite memmove_spec by lia. cbn [mbind option_bind]. rewrite block_to_end by lia. do 3 f_equal. unfold lengthened.
  assert (Ld : zlen (drop (Z.to_nat s) decoded) = len - s) by (unfold zlen in *; rewrite length_drop; lia).
  assert (E := three_stores _ _ _ out1 out2 _ out s p (len - s)
    (take_z_zlen decoded s ltac:(lia)) Lf Ld ltac:(lia) eq_refl eq_refl eq_refl).
  replace (s + p + (len - s)) with (len + p) in * by lia. exact E.
Qed.

(** The instance after a failure: the master tells the slave. *)
Definition told (x : MasterSlaveExtraInfo) (inst : DSPInst) : DSPInst :=
  match dsp_msInfo inst with
  | Some ms => if decide (ms_msMode ms = NETEQ_MASTER)
               then inst <| dsp_msInfo := Some (ms <| ms_extraInfo := x |>) |> else inst
  | None => inst
  end.

Lemma acc_fail_spec inst decoded len out :
  0 <= len <= 32767 -> zlen decoded = len -> len <= zlen out ->
  acc_fail inst decoded len out =
    Some (0, (told ACC_FAIL inst) <| dsp_mode := MODE_UNSUCCESS_ACCELERATE |>, decoded ++ drop (Z.to_nat len) out, len).
Proof. intros. unfold acc_fail. rewrite hand_on_spec by done. reflexivity. Qed.

Lemma pre_fail_spec inst decoded len out :
  0 <= len <= 32767 -> zlen decoded = len -> len <= zlen out ->
  pre_fail inst decoded len out =
    Some (0, (told PE_EXP_FAIL inst) <| dsp_mode := MODE_UNSUCCESS_PREEMPTIVE |>, decoded ++ drop (Z.to_nat len) out, len).
Proof. intros. unfold pre_fail. rewrite hand_on_spec by done. reflexivity. Qed.

Lemma ms8_ok fs : rate_ok fs -> s16 (DEFAULT_TIME_ADJUST * Z.shiftl (CalcFsMult fs) 3) = 64 * CalcFsMult fs.
Proof. intros [->|[->| ->]]; reflexivity. Qed.

Lemma acc_bgn_spec inst decoded len out :
  rate_ok (dsp_fs inst) -> samples_ok decoded len (dsp_fs inst) -> len <= zlen out ->
  let d := 64 * CalcFsMult (dsp_fs inst) in
  acc_bgn inst decoded len out =
    Some (0, inst <| dsp_mode := MODE_LOWEN_ACCELERATE |>
                  <| dsp_accelerateLength := u32 (dsp_accelerateLength inst + d) |>
                  <| dsp_accelerate_bgn := s32 (dsp_accelerate_bgn inst + d) |>,
          take (Z.to_nat (len - d)) decoded ++ drop (Z.to_nat (len - d)) out, len - d).
Proof.
  intros Hfs (Hl & Hlo & Hhi & Fd) Ho d. unfold NETEQ_MAX_OUTPUT_SIZE in *. assert (Hm := CalcFsMult_ok _ Hfs).
  assert (Hd : 0 < d <= len) by (subst d; lia). unfold acc_bgn. rewrite ms8_ok by done. fold d. clearbody d. cbv zeta.
  case_if; [lia|]. rewrite (s16_id (len - d)) by (unfold in_s16; lia). rewrite memmove_spec by lia. cbn [mbind option_bind].
  change (Z.to_nat 0) with 0%nat. rewrite take_0. cbn [app]. by rewrite block_0.
Qed.

Lemma pre_bgn_spec inst decoded len out :
  rate_ok (dsp_fs inst) -> samples_ok decoded len (dsp_fs inst) ->
  let d := 64 * CalcFsMult (dsp_fs inst) in
  len + d <= zlen out ->
  pre_bgn inst decoded len out =
    Some (0, inst <| dsp_mode := MODE_LOWEN_PREEMPTIVE |>
                  <| dsp_preemptiveLength := u32 (dsp_preemptiveLength inst + d) |>
                  <| dsp_preemptive_bgn := s32 (dsp_preemptive_bgn inst + d) |>,
          (decoded ++ take (Z.to_nat d) decoded) ++ drop (Z.to_nat (len + d)) out, len + d).
Proof.
  intros Hfs (Hl & Hlo & Hhi & Fd) d Ho. unfold NETEQ_MAX_OUTPUT_SIZE in *. assert (Hm := CalcFsMult_ok _ Hfs).
  assert (Hd : 0 < d <= len /\ d <= 256) by (subst d; lia). unfold pre_bgn. rewrite ms8_ok by done. fold d. clearbody d. cbv zeta.
  case_if; [lia|]. rewrite (s16_id (len + d)) by (unfold in_s16; lia). rewrite memmove_spec by lia. cbn [mbind option_bind].
  change (Z.to_nat 0) with 0%nat. rewrite take_0. cbn [app]. rewrite block_0, Z.add_0_l, (take_ge decoded) by (unfold zlen in *; lia).
  assert (L1 : zlen (decoded ++ drop (Z.to_nat len) out) = zlen out) by (unfold zlen in *; rewrite length_app, length_drop; lia).
  rewrite memmove_spec by lia. cbn [mbind option_bind]. rewrite block_0, take_app_z by lia.
  rewrite (drop_app_z decoded _ _ len) by lia. rewrite drop_drop, <-app_assoc. do 6 f_equal. lia.
Qed.

Lemma lag_limit_ok m len :
  m = 1 \/ m = 2 \/ m = 4 -> 0 <= len -> len + 24 * m <= NETEQ_MAX_OUTPUT_SIZE ->
  2 <= lag_limit m len <= 50 /\ len + (2 * lag_limit m len + 19) * m <= NETEQ_MAX_OUTPUT_SIZE.
Proof.
  unfold NETEQ_MAX_OUTPUT_SIZE. intros Hm Hl Hmax. unfold lag_limit, NETEQ_MAX_OUTPUT_SIZE, DivW32W16ResW16.
  rewrite Z.shiftl_mul_pow2 by lia. change (2 ^ 1) with 2. rewrite (s16_id (m * 2)) by (unfold in_s16; lia).
  destruct (Z.eqb_spec (m * 2) 0); [lia|]. cbn [negb]. rewrite Z.quot_div_nonneg by lia.
  pose proof (Z.mul_div_le (4320 - len) (m * 2) ltac:(lia)).
  pose proof (Z.mul_succ_div_gt (4320 - len) (m * 2) ltac:(lia)).
  assert (0 <= (4320 - len) / (m * 2) <= 2160) by nia.
  rewrite (s16_id ((4320 - len) / (m * 2))) by (unfold in_s16; lia). cbv zeta. rewrite s16_id by (unfold in_s16; lia).
  destruct Hm as [->|[->| ->]]; lia.
Qed.
