(* ===== verification/StretchOps.v ===== *)
(** What acceleration and pre-emptive expansion promise to the output stage of
    NetEQ ([neteq/recout.c]): which of a few abstract outcomes the samples handed
    on are, how many there are, that the statistics count what was removed or
    inserted, and that a slave channel follows its master. *)
From S2P Require Import Prelude SplMath SplFilt Stretch StretchSim StretchInv.

(** ** The outcomes *)

(** Mode and samples that acceleration answers, [m] being the sampling rate in
    multiples of 8 kHz and [found p vad corr] that the search has found the lag [p],
    speech activity and correlation (in Q14). *)
Inductive Accelerated (m bgn : Z) (found : Z -> Z -> Z -> Prop) (decoded : list Z) : Z -> list Z -> Prop :=
| Acc_short : zlen decoded < 239 * m -> Accelerated m bgn found decoded MODE_UNSUCCESS_ACCELERATE decoded
| Acc_noise : 239 * m <= zlen decoded -> bgn <> 0 ->
    Accelerated m bgn found decoded MODE_LOWEN_ACCELERATE (take (Z.to_nat (zlen decoded - 64 * m)) decoded)
| Acc_period p vad corr :
    239 * m <= zlen decoded -> bgn = 0 -> found p vad corr -> 20 * m <= p <= 119 * m -> 14746 < corr \/ vad = 0 ->
    Accelerated m bgn found decoded (if vad =? 0 then MODE_LOWEN_ACCELERATE else MODE_SUCCESS_ACCELERATE)
      (shortened decoded (120 * m) p)
| Acc_failed p vad corr :
    239 * m <= zlen decoded -> bgn = 0 -> found p vad corr -> corr <= 14746 -> vad <> 0 ->
    Accelerated m bgn found decoded MODE_UNSUCCESS_ACCELERATE decoded.

(** The same for pre-emptive expansion, [old] samples of the input having been
    played already and [overlap] samples being needed for the cross fade. *)
Inductive Expanded (m bgn old overlap : Z) (found : Z -> Z -> Z -> Prop) (decoded : list Z) : Z -> list Z -> Prop :=
| Exp_short : zlen decoded < 239 * m \/ zlen decoded - overlap <= old ->
    Expanded m bgn old overlap found decoded MODE_UNSUCCESS_PREEMPTIVE decoded
| Exp_noise : 239 * m <= zlen decoded -> old < zlen decoded - overlap -> bgn <> 0 ->
    Expanded m bgn old overlap found decoded MODE_LOWEN_PREEMPTIVE (decoded ++ take (Z.to_nat (64 * m)) decoded)
| Exp_period p vad corr :
    239 * m <= zlen decoded -> old < zlen decoded - overlap -> bgn = 0 -> found p vad corr -> 20 * m <= p <= 119 * m ->
    (14746 < corr /\ old <= 120 * m) /\ vad <> 0 ->
    Expanded m bgn old overlap found decoded MODE_SUCCESS_PREEMPTIVE (lengthened decoded (120 * m) p)
| Exp_inactive p corr :
    239 * m <= zlen decoded -> old < zlen decoded - overlap -> bgn = 0 -> found p 0 corr -> 20 * m <= p <= 119 * m ->
    Expanded m bgn old overlap found decoded MODE_LOWEN_PREEMPTIVE
      (lengthened decoded (Z.max old (120 * m)) (Z.min p (zlen decoded - old)))
| Exp_failed p vad corr :
    239 * m <= zlen decoded -> old < zlen decoded - overlap -> bgn = 0 -> found p vad corr -> corr <= 14746 \/ 120 * m < old ->
    vad <> 0 -> Expanded m bgn old overlap found decoded MODE_UNSUCCESS_PREEMPTIVE decoded.

(** What the search of [limit] lags finds: a lag, and the judgement on the two
    periods of that length before and behind 15 ms. *)
Definition finds (inst : DSPInst) (ms : MasterSlaveInfo) (scratch decoded : list Z) (limit p vad corr : Z) : Prop :=
  (exists inst', master_search inst ms scratch decoded (zlen decoded) limit = Some (Some (inst', p, vad, corr))) /\
  judged inst decoded (120 * CalcFsMult (dsp_fs inst)) p vad corr.

(** What the caller provides. *)
Record frame_ok (fs len : Z) (decoded scratch out : list Z) : Prop := {
  frame_rate : rate_ok fs;
  frame_len : zlen decoded = len;
  frame_max : len <= NETEQ_MAX_FRAME_SIZE;
  frame_s16 : Forall in_s16 decoded;
  frame_scratch : 210 <= zlen scratch;
  frame_out : NETEQ_MAX_OUTPUT_SIZE <= zlen out;
}.

Lemma frame_samples fs len decoded scratch out :
  frame_ok fs len decoded scratch out -> 239 * CalcFsMult fs <= len -> samples_ok decoded len fs.
Proof.
  intros [Hr Hl Hm Hs _ _] H. destruct (CalcFsMult_ok fs Hr) as [Em|[Em|Em]]; rewrite Em in H;
    (split; [done|rewrite Em; unfold NETEQ_MAX_FRAME_SIZE, NETEQ_MAX_OUTPUT_SIZE in *; split; [lia|split; [lia|done]]]).
Qed.

Lemma too_short fs len : rate_ok fs -> (len <? s16 (mul_16_16 (120 + 119) (CalcFsMult fs))) = (len <? 239 * CalcFsMult fs).
Proof. intros [->|[->| ->]]; reflexivity. Qed.

Lemma u32_same x : 0 <= x < 4294967296 -> u32 (x + 0) = x.
Proof. intros. rewrite Z.add_0_r. unfold u32. apply Z.mod_small. lia. Qed.

(** An answer: [played] in front of what the output memory held. *)
Definition answers (r : option result) (ret : Z) (inst' : DSPInst) (played out : list Z) : Prop :=
  r = Some (ret, inst', played ++ drop (Z.to_nat (zlen played)) out, zlen played).

Lemma answers_intro r ret inst' played out n :
  r = Some (ret, inst', played ++ drop (Z.to_nat n) out, n) -> zlen played = n -> answers r ret inst' played out.
Proof. intros -> <-. done. Qed.

Lemma told_fields x inst :
  dsp_accelerateLength (told x inst) = dsp_accelerateLength inst /\
  dsp_preemptiveLength (told x inst) = dsp_preemptiveLength inst /\ dsp_consecExp (told x inst) = dsp_consecExp inst /\
  dsp_fs (told x inst) = dsp_fs inst.
Proof. unfold told. destruct (dsp_msInfo inst) as [ms|]; [|done]. by destruct (decide (ms_msMode ms = NETEQ_MASTER)). Qed.

(** ** Each branch of [Accelerate] *)

Section accelerate.
Context (inst : DSPInst) (scratch decoded : list Z) (len : Z) (out : list Z) (pw16_len : Z).
Hypothesis HF : frame_ok (dsp_fs inst) len decoded scratch out.
Let m := CalcFsMult (dsp_fs inst).
Let inst0 := inst <| dsp_consecExp := 0 |>.

Lemma frame_bounds : 0 <= len <= 32767 /\ zlen decoded = len /\ len <= zlen out /\ (m = 1 \/ m = 2 \/ m = 4).
Proof using HF.
  destruct HF as [Hr Hl Hm _ _ Ho]. unfold NETEQ_MAX_FRAME_SIZE, NETEQ_MAX_OUTPUT_SIZE in *. pose proof (zlen_nonneg decoded).
  split; [lia|]. split; [done|]. split; [lia|]. by apply CalcFsMult_ok.
Qed.

Lemma Accelerate_short bgn : len < 239 * m ->
  answers (Accelerate inst scratch decoded len out pw16_len bgn) NETEQ_OTHER_ERROR
    (inst0 <| dsp_mode := MODE_UNSUCCESS_ACCELERATE |>) decoded out.
Proof using HF.
  intros H. destruct frame_bounds as (Hb & Hl & Ho & _). apply (answers_intro _ _ _ _ _ len); [|done].
  unfold Accelerate. cbv zeta. rewrite too_short by apply HF. fold m. case_if; [|lia]. by rewrite hand_on_spec.
Qed.

Lemma Accelerate_noise bgn : 239 * m <= len -> bgn <> 0 ->
  exists inst', answers (Accelerate inst scratch decoded len out pw16_len bgn) 0 inst'
    (take (Z.to_nat (len - 64 * m)) decoded) out /\ dsp_mode inst' = MODE_LOWEN_ACCELERATE /\
    dsp_consecExp inst' = 0 /\ dsp_accelerateLength inst' = u32 (dsp_accelerateLength inst + 64 * m) /\
    dsp_msInfo inst' = dsp_msInfo inst.
Proof using HF.
  intros H Hn. destruct frame_bounds as (Hb & Hl & Ho & Hm). unfold Accelerate. cbv zeta. rewrite too_short by apply HF.
  fold m. case_if; [lia|]. fold inst0. case_if; [|lia].
  rewrite (acc_bgn_spec inst0 decoded len out); [|apply HF|by eapply frame_samples|lia].
  eexists. split; [apply (answers_intro _ _ _ _ _ (len - 64 * m)); [reflexivity|]|done]. apply take_z_zlen. lia.
Qed.

(** The master, or the only channel. *)
Lemma Accelerate_master ms : 239 * m <= len -> dsp_msInfo inst = Some ms -> ms_msMode ms <> NETEQ_SLAVE ->
  exists p vad corr, 20 * m <= p <= 119 * m /\ finds inst0 ms scratch decoded 50 p vad corr /\
  if (14746 <? corr) || (vad =? 0)
  then answers (Accelerate inst scratch decoded len out pw16_len 0) 0
      (inst0 <| dsp_msInfo := Some (ms <| ms_bestIndex := p |>) |>
             <| dsp_mode := if negb (vad =? 0) then MODE_SUCCESS_ACCELERATE else MODE_LOWEN_ACCELERATE |>
             <| dsp_accelerateLength := u32 (dsp_accelerateLength inst + p) |>
             <| dsp_accelerate_normal := s32 (dsp_accelerate_normal inst + p) |>)
      (shortened decoded (120 * m) p) out
  else answers (Accelerate inst scratch decoded len out pw16_len 0) 0
      ((told ACC_FAIL (inst0 <| dsp_msInfo := Some (ms <| ms_bestIndex := p |>) |>))
         <| dsp_mode := MODE_UNSUCCESS_ACCELERATE |>) decoded out.
Proof using HF.
  intros H Hms Hmode. destruct frame_bounds as (Hb & Hl & Ho & Hm). pose proof (frame_samples _ _ _ _ _ HF H) as Hs.
  destruct (master_search_ok inst0 ms scratch decoded len 50) as (p & vad & corr & E & Hp & _ & Hj); [apply HF|done|apply HF|lia|].
  change (CalcFsMult (dsp_fs inst0)) with m in Hp. assert (Hp' : 0 < p <= 119 * m) by lia. exists p, vad, corr. split; [lia|].
  split; [split; [eexists; rewrite Hl; exact E|exact Hj]|]. unfold Accelerate. cbv zeta.
  rewrite too_short by apply HF. fold m. rewrite (proj2 (Z.ltb_ge len (239 * m)) H). fold inst0. change (negb (0 =? 0)) with false. cbv iota.
  change (dsp_msInfo inst0) with (dsp_msInfo inst). rewrite Hms. destruct (decide _) as [|_]; [done|].
  rewrite E. cbn [mbind option_bind]. case_if.
  - rewrite (acc_remove_spec _ decoded len p vad out); [|apply HF|exact Hs|lia|exact (conj (ltac:(lia) : 0 < p) (proj2 Hp))].
    apply (answers_intro _ _ _ _ _ (len - p)); [reflexivity|]. rewrite zlen_shortened; change (CalcFsMult _) with m; lia.
  - rewrite acc_fail_spec by done. by apply (answers_intro _ _ _ _ _ len).
Qed.

(** The slave. *)
Lemma Accelerate_slave ms : 239 * m <= len -> dsp_msInfo inst = Some ms -> ms_msMode ms = NETEQ_SLAVE ->
  ms_extraInfo ms <> ACC_FAIL -> 0 < ms_bestIndex ms <= 119 * m ->
  exists inst', answers (Accelerate inst scratch decoded len out pw16_len 0) 0 inst'
      (shortened decoded (120 * m) (ms_bestIndex ms)) out /\ dsp_mode inst' = MODE_SUCCESS_ACCELERATE.
Proof using HF.
  intros H Hms Hmode Hx Hp. destruct frame_bounds as (Hb & Hl & Ho & Hm). pose proof (frame_samples _ _ _ _ _ HF H) as Hs.
  unfold Accelerate. cbv zeta. rewrite too_short by apply HF. fold m. case_if; [lia|]. fold inst0.
  change (negb (0 =? 0)) with false. cbv iota. change (dsp_msInfo inst0) with (dsp_msInfo inst). rewrite Hms.
  destruct (decide (ms_msMode ms = NETEQ_SLAVE)) as [_|]; [|done]. destruct (decide (ms_extraInfo ms = ACC_FAIL)) as [|_]; [done|].
  rewrite (acc_remove_spec inst0 decoded len _ 1 out); [|apply HF|exact Hs|lia|exact Hp].
  eexists. split; [apply (answers_intro _ _ _ _ _ (len - ms_bestIndex ms)); [reflexivity|]|reflexivity].
  rewrite zlen_shortened; change (CalcFsMult _) with m; lia.
Qed.

Lemma Accelerate_slave_fail ms : 239 * m <= len -> dsp_msInfo inst = Some ms -> ms_msMode ms = NETEQ_SLAVE ->
  ms_extraInfo ms = ACC_FAIL ->
  answers (Accelerate inst scratch decoded len out pw16_len 0) 0
    (inst0 <| dsp_mode := MODE_UNSUCCESS_ACCELERATE |>) decoded out.
Proof using HF.
  intros H Hms Hmode Hx. destruct frame_bounds as (Hb & Hl & Ho & Hm).
  unfold Accelerate. cbv zeta. rewrite too_short by apply HF. fold m. case_if; [lia|]. fold inst0.
  change (negb (0 =? 0)) with false. cbv iota. change (dsp_msInfo inst0) with (dsp_msInfo inst). rewrite Hms.
  destruct (decide (ms_msMode ms = NETEQ_SLAVE)) as [_|]; [|done]. destruct (decide (ms_extraInfo ms = ACC_FAIL)) as [_|]; [|done].
  rewrite acc_fail_spec by done. unfold told. change (dsp_msInfo inst0) with (dsp_msInfo inst). rewrite Hms, Hmode. cbn.
  by apply (answers_intro _ _ _ _ _ len).
Qed.
End accelerate.

(** ** Correctness *)

(** C24. Acceleration by the master (or the only channel) hands an input that is too
    short on with an error; drops the last 8 ms of background noise; removes exactly
    the pitch period of 2.5 to 14.9 ms that its search finds, when the two periods
    of that length before and behind 15 ms are alike or inactive, every sample
    outside of them being kept and those being cross-faded; and otherwise hands its
    input on unmodified. Alike means a correlation above 14746 in Q14 (0.9), and
    [judged] tells what that says of the samples: with a cross product [cc] and
    energies [e1] and [e2], all three scaled by one power of two and the energies at
    least [2 ^ 14], it needs [cc] positive and [cc ^ 2 >= 0.8 e1 e2], and its absence
    [cc <= 0] or [cc ^ 2 <= 0.82 e1 e2]; inactive compares the sum of the energies
    (as an [int32_t]: it may wrap around) with the background noise. With 210 words
    of scratch memory it never reads or writes out of bounds, and the statistics
    count the samples that were removed. *)
Theorem Accelerate_correct inst ms scratch decoded len out pw16_len bgn
    (HF : frame_ok (dsp_fs inst) len decoded scratch out)
    (Hms : dsp_msInfo inst = Some ms) (Hmode : ms_msMode ms <> NETEQ_SLAVE)
    (Hstat : 0 <= dsp_accelerateLength inst < 4294967296) :
  let m := CalcFsMult (dsp_fs inst) in
  exists inst' played,
    Accelerate inst scratch decoded len out pw16_len bgn =
      Some (if len <? 239 * m then NETEQ_OTHER_ERROR else 0, inst',
            played ++ drop (Z.to_nat (zlen played)) out, zlen played) /\
    Accelerated m bgn (finds (inst <| dsp_consecExp := 0 |>) ms scratch decoded 50) decoded (dsp_mode inst') played /\
    dsp_consecExp inst' = 0 /\
    dsp_accelerateLength inst' = u32 (dsp_accelerateLength inst + (len - zlen played)).
Proof.
  intros m. destruct (frame_bounds inst scratch decoded len out HF) as (Hb & Hl & Ho & Hm). fold m in Hm.
  destruct (Z.ltb_spec len (239 * m)) as [Hs|Hs].
  { eexists _, decoded. split; [by apply Accelerate_short|]. split; [apply Acc_short; lia|].
    split; [done|]. rewrite Hl, Z.sub_diag, u32_same by done. done. }
  destruct (Z.eq_dec bgn 0) as [->|Hn].
  2:{ destruct (Accelerate_noise inst scratch decoded len out pw16_len HF bgn Hs Hn) as (inst' & E & E1 & E2 & E3 & _).
      exists inst', (take (Z.to_nat (len - 64 * m)) decoded). split; [exact E|]. rewrite E1, E2, E3, take_z_zlen by lia.
      split; [rewrite <-Hl; apply Acc_noise; lia|]. split; [done|]. f_equal. fold m. lia. }
  destruct (Accelerate_master inst scratch decoded len out pw16_len HF ms Hs Hms Hmode) as (p & vad & corr & Hp & Hf & E); fold m in Hp.
  destruct ((14746 <? corr) || (vad =? 0)) eqn:Ec.
  - eexists _, _. split; [exact E|]. rewrite zlen_shortened by (fold m; lia). split; [|split; [done|cbn; f_equal; lia]].
    assert (Hmd : (if negb (vad =? 0) then MODE_SUCCESS_ACCELERATE else MODE_LOWEN_ACCELERATE) =
      (if vad =? 0 then MODE_LOWEN_ACCELERATE else MODE_SUCCESS_ACCELERATE)) by (by destruct (vad =? 0)).
    cbn. rewrite Hmd. eapply Acc_period; [lia|done|exact Hf|exact Hp|lia].
  - eexists _, decoded. split; [exact E|]. split; [eapply Acc_failed; [lia|done|exact Hf|lia|lia]|].
    match goal with |- context [told ?x ?i] => destruct (told_fields x i) as (F1 & F2 & F3 & F4) end.
    cbn -[told] in *. rewrite F3, F1. split; [done|]. rewrite Hl, Z.sub_diag, u32_same by done. done.
Qed.

(** ** Each branch of [PreEmptiveExpand] *)

Section expand.
Context (inst : DSPInst) (scratch decoded : list Z) (len old : Z) (out : list Z) (pw16_len : Z).
Hypothesis HF : frame_ok (dsp_fs inst) len decoded scratch out.
Hypothesis Hold : 0 <= old /\ 0 <= dsp_overlap inst.
Let m := CalcFsMult (dsp_fs inst).
Let inst0 := inst <| dsp_consecExp := 0 |>.
Let too_little := (len <? 239 * m) || (len - dsp_overlap inst <=? old).

Lemma PreEmptiveExpand_short bgn : too_little = true ->
  answers (PreEmptiveExpand inst scratch decoded len old out pw16_len bgn) NETEQ_OTHER_ERROR
    (inst0 <| dsp_mode := MODE_UNSUCCESS_PREEMPTIVE |>) decoded out.
Proof using HF.
  intros H. destruct (frame_bounds inst scratch decoded len out HF) as (Hb & Hl & Ho & _).
  apply (answers_intro _ _ _ _ _ len); [|done]. unfold PreEmptiveExpand. cbv zeta. rewrite too_short by apply HF.
  change (dsp_overlap (inst <| dsp_consecExp := 0 |>)) with (dsp_overlap inst). fold m too_little. rewrite H.
  by rewrite hand_on_spec.
Qed.

Lemma PreEmptiveExpand_noise bgn : too_little = false -> bgn <> 0 ->
  exists inst', answers (PreEmptiveExpand inst scratch decoded len old out pw16_len bgn) 0 inst'
    (decoded ++ take (Z.to_nat (64 * m)) decoded) out /\ dsp_mode inst' = MODE_LOWEN_PREEMPTIVE /\
    dsp_consecExp inst' = 0 /\ dsp_preemptiveLength inst' = u32 (dsp_preemptiveLength inst + 64 * m).
Proof using HF.
  intros H Hn. destruct (frame_bounds inst scratch decoded len out HF) as (Hb & Hl & Ho & Hm). fold m in Hm.
  assert (H239 : 239 * m <= len) by (unfold too_little in H; lia). pose proof (frame_samples _ _ _ _ _ HF H239) as Hs.
  assert (Hmax : len + 64 * m <= zlen out).
  { destruct HF as [_ _ Hf _ _ Hz]. unfold NETEQ_MAX_FRAME_SIZE, NETEQ_MAX_OUTPUT_SIZE in *. lia. }
  unfold PreEmptiveExpand. cbv zeta. rewrite too_short by apply HF.
  change (dsp_overlap (inst <| dsp_consecExp := 0 |>)) with (dsp_overlap inst). fold m too_little. rewrite H. fold inst0.
  case_if; [|lia]. rewrite (pre_bgn_spec inst0 decoded len out); [|apply HF|done|done].
  eexists. split; [apply (answers_intro _ _ _ _ _ (len + 64 * m)); [reflexivity|]|done].
  rewrite zlen_app, take_z_zlen by lia. lia.
Qed.

(** The lag after its limitation. *)
Let limited (p vad : Z) : Z := if vad =? 0 then Z.min p (len - old) else p.

(** The master, or the only channel. *)
Lemma PreEmptiveExpand_master ms : too_little = false -> dsp_msInfo inst = Some ms -> ms_msMode ms <> NETEQ_SLAVE ->
  exists p vad corr, 20 * m <= p <= 119 * m /\ finds inst0 ms scratch decoded (lag_limit m len) p vad corr /\
  (if ((14746 <? corr) && (old <=? 120 * m)) || (vad =? 0)
   then limited p vad <= p /\ 0 < limited p vad /\ Z.max old (120 * m) + limited p vad <= len /\
     len + limited p vad <= NETEQ_MAX_OUTPUT_SIZE /\
     answers (PreEmptiveExpand inst scratch decoded len old out pw16_len 0) 0
      (inst0 <| dsp_msInfo := Some (ms <| ms_bestIndex := p |>) |>
             <| dsp_mode := if negb (vad =? 0) then MODE_SUCCESS_PREEMPTIVE else MODE_LOWEN_PREEMPTIVE |>
             <| dsp_preemptiveLength := u32 (dsp_preemptiveLength inst + limited p vad) |>
             <| dsp_preemptive_normal := s32 (dsp_preemptive_normal inst + limited p vad) |>)
      (lengthened decoded (Z.max old (120 * m)) (limited p vad)) out
   else answers (PreEmptiveExpand inst scratch decoded len old out pw16_len 0) 0
      ((told PE_EXP_FAIL (inst0 <| dsp_msInfo := Some (ms <| ms_bestIndex := p |>) |>))
         <| dsp_mode := MODE_UNSUCCESS_PREEMPTIVE |>) decoded out).
Proof using HF Hold.
  intros H Hms Hmode. destruct (frame_bounds inst scratch decoded len out HF) as (Hb & Hl & Ho & Hm). fold m in Hm.
  assert (H239 : 239 * m <= len /\ old < len) by (unfold too_little in H; lia). destruct H239 as [H239 Hol].
  pose proof (frame_samples _ _ _ _ _ HF H239) as Hs.
  assert (Hmax : len + 24 * m <= NETEQ_MAX_OUTPUT_SIZE /\ NETEQ_MAX_OUTPUT_SIZE <= zlen out).
  { destruct HF as [_ _ Hf _ _ Hz]. unfold NETEQ_MAX_FRAME_SIZE, NETEQ_MAX_OUTPUT_SIZE in *. lia. }
  destruct (lag_limit_ok m len Hm) as [Hlim Hroom]; [lia|lia|].
  destruct (master_search_ok inst0 ms scratch decoded len (lag_limit m len)) as (p & vad & corr & E & Hp & _ & Hj);
    [apply HF|done|apply HF|done|]. change (CalcFsMult (dsp_fs inst0)) with m in Hp.
  assert (Hp' : 20 * m <= p <= 119 * m /\ len + p <= NETEQ_MAX_OUTPUT_SIZE) by nia. destruct Hp' as [Hp' Hlp].
  exists p, vad, corr. split; [done|]. split; [split; [eexists; rewrite Hl; exact E|exact Hj]|]. unfold PreEmptiveExpand. cbv zeta.
  rewrite too_short, fsMult120 by apply HF. change (dsp_overlap (inst <| dsp_consecExp := 0 |>)) with (dsp_overlap inst).
  fold m too_little. rewrite H. fold inst0. change (negb (0 =? 0)) with false. cbv iota.
  change (dsp_msInfo inst0) with (dsp_msInfo inst). rewrite Hms. destruct (decide _) as [|_]; [done|].
  rewrite E. cbn [mbind option_bind].
  assert (El : (if vad =? 0 then s16 (Z.min p (len - old)) else p) = limited p vad).
  { unfold limited. destruct (vad =? 0); [apply s16_id; unfold in_s16; lia|done]. }
  rewrite El. clear El. case_if.
  - assert (HL : limited p vad <= p /\ 0 < limited p vad /\ Z.max old (120 * m) + limited p vad <= len)
      by (unfold limited; case_if; lia). destruct HL as (HL1 & HL2 & HL3). split_and!; [done|done|done|lia|].
    assert (HL4 : 0 < limited p vad <= 119 * m) by lia.
    rewrite (pre_insert_spec _ decoded len old (limited p vad) vad out); [|apply HF|exact Hs|lia|lia|exact HL4|exact HL3].
    apply (answers_intro _ _ _ _ _ (len + limited p vad)); [reflexivity|].
    rewrite zlen_lengthened; change (CalcFsMult _) with m; lia.
  - rewrite pre_fail_spec by done. by apply (answers_intro _ _ _ _ _ len).
Qed.
End expand.

(** C25. Pre-emptive expansion by the master (or the only channel) hands an input
    that is too short on with an error; repeats the first 8 ms of background noise;
    inserts a cross-faded copy of exactly the pitch period that its search finds,
    when the periods before and behind 15 ms are alike and at most the first of them
    has been played, or when they are inactive, then cut to what has not been played
    yet; and otherwise hands its input on unmodified. Alike and inactive are judged
    as in acceleration (C24). All samples of the input remain, those already played in
    front of the insertion; with 210 words of scratch memory no access is out of
    bounds, the output never exceeds its memory and the statistics count the samples
    that were inserted. *)
Theorem PreEmptiveExpand_correct inst ms scratch decoded len old out pw16_len bgn
    (HF : frame_ok (dsp_fs inst) len decoded scratch out) (Hold : 0 <= old /\ 0 <= dsp_overlap inst)
    (Hms : dsp_msInfo inst = Some ms) (Hmode : ms_msMode ms <> NETEQ_SLAVE)
    (Hstat : 0 <= dsp_preemptiveLength inst < 4294967296) :
  let m := CalcFsMult (dsp_fs inst) in
  exists inst' played,
    PreEmptiveExpand inst scratch decoded len old out pw16_len bgn =
      Some (if (len <? 239 * m) || (len - dsp_overlap inst <=? old) then NETEQ_OTHER_ERROR else 0, inst',
            played ++ drop (Z.to_nat (zlen played)) out, zlen played) /\
    Expanded m bgn old (dsp_overlap inst) (finds (inst <| dsp_consecExp := 0 |>) ms scratch decoded (lag_limit m len))
      decoded (dsp_mode inst') played /\
    zlen played <= NETEQ_MAX_OUTPUT_SIZE /\
    dsp_consecExp inst' = 0 /\
    dsp_preemptiveLength inst' = u32 (dsp_preemptiveLength inst + (zlen played - len)).
Proof.
  intros m. destruct (frame_bounds inst scratch decoded len out HF) as (Hb & Hl & Ho & Hm). fold m in Hm.
  assert (Hmax : len <= NETEQ_MAX_FRAME_SIZE /\ len + 64 * m <= NETEQ_MAX_OUTPUT_SIZE).
  { destruct HF as [_ _ Hf _ _ Hz]. unfold NETEQ_MAX_FRAME_SIZE, NETEQ_MAX_OUTPUT_SIZE in *. lia. }
  destruct ((len <? 239 * m) || (len - dsp_overlap inst <=? old)) eqn:Hs.
  { eexists _, decoded. split; [by apply PreEmptiveExpand_short|]. split; [apply Exp_short; lia|]. split; [lia|].
    split; [done|]. rewrite Hl, Z.sub_diag, u32_same by done. done. }
  assert (Hr : 239 * m <= zlen decoded /\ old < zlen decoded - dsp_overlap inst) by lia. destruct Hr as [Hr1 Hr2].
  destruct (Z.eq_dec bgn 0) as [->|Hn].
  2:{ destruct (PreEmptiveExpand_noise inst scratch decoded len old out pw16_len HF bgn Hs Hn) as (inst' & E & E1 & E2 & E3).
      exists inst', (decoded ++ take (Z.to_nat (64 * m)) decoded). split; [exact E|]. rewrite E1, E2, E3, zlen_app, take_z_zlen by lia.
      split; [by apply Exp_noise|]. split; [lia|]. split; [done|]. f_equal. fold m. lia. }
  destruct (PreEmptiveExpand_master inst scratch decoded len old out pw16_len HF Hold ms Hs Hms Hmode) as (p & vad & corr & Hp & Hf & E);
    fold m in Hp, Hf, E.
  destruct (((14746 <? corr) && (old <=? 120 * m)) || (vad =? 0)) eqn:Ec.
  - destruct E as (HL1 & HL2 & HL3 & HL4 & E). eexists _, _. split; [exact E|]. rewrite zlen_lengthened by lia.
    split; [|split; [lia|split; [done|cbn; f_equal; lia]]]. cbn.
    destruct (Z.eqb_spec vad 0) as [->|Hv]; cbn [negb].
    + replace (Z.min p (len - old)) with (Z.min p (zlen decoded - old)) by lia.
      eapply Exp_inactive; [lia|lia|done|exact Hf|exact Hp].
    + rewrite (Z.max_r old) by lia. eapply Exp_period; [lia|lia|done|exact Hf|exact Hp|lia].
  - eexists _, decoded. split; [exact E|]. split; [eapply Exp_failed; [lia|lia|done|exact Hf|lia|lia]|].
    split; [lia|].
    match goal with |- context [told ?x ?i] => destruct (told_fields x i) as (F1 & F2 & F3 & F4) end.
    cbn -[told] in *. rewrite F3, F2. split; [done|]. rewrite Hl, Z.sub_diag, u32_same by done. done.
Qed.

(** ** Two channels *)

(** The master's information as the slave gets it ([RecOutMasterSlave]). *)
Definition for_slave (ms : MasterSlaveInfo) : MasterSlaveInfo := ms <| ms_msMode := NETEQ_SLAVE |>.

(** C26. The two channels of a stereo stream stay in step under acceleration: when the
    master enters without an earlier failure noted (before every decision of a master
    [recout.c] clears the information it shares), the slave that is called with the
    information that the master leaves answers the same and removes the same number of
    samples, whatever its own samples are. *)
Theorem Accelerate_stereo instL msL instR scratch decodedL decodedR len outL outR lenL lenR bgn
    (HL : frame_ok (dsp_fs instL) len decodedL scratch outL) (HR : frame_ok (dsp_fs instR) len decodedR scratch outR)
    (Hfs : dsp_fs instR = dsp_fs instL)
    (HmsL : dsp_msInfo instL = Some msL) (Hmode : ms_msMode msL = NETEQ_MASTER) (Hx : ms_extraInfo msL <> ACC_FAIL) :
  exists ret instL' ms' playedL instR' playedR,
    answers (Accelerate instL scratch decodedL len outL lenL bgn) ret instL' playedL outL /\
    dsp_msInfo instL' = Some ms' /\
    answers (Accelerate (instR <| dsp_msInfo := Some (for_slave ms') |>) scratch decodedR len outR lenR bgn) ret instR' playedR outR /\
    zlen playedR = zlen playedL.
Proof.
  set (m := CalcFsMult (dsp_fs instL)). destruct (frame_bounds _ _ _ _ _ HL) as (Hb & Hl & Ho & Hm). fold m in Hm.
  assert (Hr := frame_len _ _ _ _ _ HR).
  assert (HR' : forall ms', frame_ok (dsp_fs (instR <| dsp_msInfo := Some (for_slave ms') |>)) len decodedR scratch outR) by done.
  destruct (Z.lt_ge_cases len (239 * m)) as [Hs|Hs].
  { eexists NETEQ_OTHER_ERROR, _, msL, decodedL, _, decodedR. split; [by apply Accelerate_short|]. split; [done|]. split; [|lia].
    apply Accelerate_short; [by apply HR'|]. cbn. rewrite Hfs. done. }
  assert (Hs' : 239 * CalcFsMult (dsp_fs instR) <= len) by (by rewrite Hfs).
  destruct (Z.eq_dec bgn 0) as [->|Hn].
  2:{ destruct (Accelerate_noise instL scratch decodedL len outL lenL HL bgn Hs Hn) as (iL & EL & _ & _ & _ & Em).
      destruct (Accelerate_noise (instR <| dsp_msInfo := Some (for_slave msL) |>) scratch decodedR len outR lenR (HR' _) bgn)
        as (iR & ER & _); [exact Hs'|done|].
      eexists 0, iL, msL, _, iR, _. split; [exact EL|]. split; [by rewrite Em|]. split; [exact ER|].
      cbn. rewrite Hfs. fold m. rewrite !take_z_zlen by lia. done. }
  destruct (Accelerate_master instL scratch decodedL len outL lenL HL msL Hs HmsL) as (p & vad & corr & Hp & Hf & E);
    [by rewrite Hmode|]. fold m in Hp, Hf, E.
  destruct ((14746 <? corr) || (vad =? 0)).
  - destruct (Accelerate_slave (instR <| dsp_msInfo := Some (for_slave (msL <| ms_bestIndex := p |>)) |>) scratch decodedR len outR lenR
      (HR' _) (for_slave (msL <| ms_bestIndex := p |>))) as (iR & ER & _); [done..| |].
    { cbn. rewrite Hfs. fold m. lia. }
    eexists 0, _, (msL <| ms_bestIndex := p |>), _, iR, _. split; [exact E|]. split; [done|]. split; [exact ER|].
    cbn. rewrite Hfs. fold m. rewrite !zlen_shortened by lia. lia.
  - set (ms' := msL <| ms_bestIndex := p |> <| ms_extraInfo := ACC_FAIL |>).
    eexists 0, _, ms', decodedL, _, decodedR. split; [exact E|].
    split; [unfold told; cbn -[decide]; by destruct (decide (ms_msMode msL = NETEQ_MASTER))|]. split; [|lia].
    by apply (Accelerate_slave_fail (instR <| dsp_msInfo := Some (for_slave ms') |>) scratch decodedR len outR lenR
      (HR' _) (for_slave ms')).
Qed.
