(* ===== verification/StretchTest.v ===== *)
(** Concrete runs of acceleration and pre-emptive expansion: witnesses of the
    theorems, and what goes wrong between two channels. *)
From S2P Require Import Prelude SplMath SplFilt Stretch StretchSim StretchInv StretchOps.

Definition ms0 (mode : MasterSlaveMode) (x : MasterSlaveExtraInfo) : MasterSlaveInfo := mkMS mode x 0.
Definition dsp0 (ms : MasterSlaveInfo) : DSPInst := mkDSP 8000 0 3 5 0 0 7 9 0 0 0 0 (Some ms).
Definition silence (n : nat) : list Z := replicate n 0.

Lemma silence_frame ms n : (n <= 3840)%nat -> frame_ok (dsp_fs (dsp0 ms)) (Z.of_nat n) (silence n) (silence 210) (silence 4320).
Proof.
  intros Hn. unfold silence. split; rewrite ?zlen_replicate; unfold NETEQ_MAX_FRAME_SIZE, NETEQ_MAX_OUTPUT_SIZE; try lia.
  - by left.
  - apply Forall_replicate. unfold in_s16. lia.
Qed.

(** A saw tooth of 30 samples, loud enough to be active. *)
Definition saw : list Z := map (fun i => Z.of_nat i mod 30 * 1000 - 14500) (seq 0 240).

Lemma saw_frame ms : frame_ok (dsp_fs (dsp0 ms)) 240 saw (silence 210) (silence 4320).
Proof.
  split; unfold NETEQ_MAX_FRAME_SIZE, NETEQ_MAX_OUTPUT_SIZE; try (vm_compute; discriminate).
  - by left.
  - reflexivity.
  - apply Forall_map, List.Forall_forall. intros i Hi. pose proof (Z.mod_pos_bound (Z.of_nat i) 30 ltac:(lia)).
    unfold in_s16. lia.
Qed.

Definition outcome (r : option result) : option (Z * Z) := option_map (fun r => (dsp_mode r.1.1.2, r.2)) r.

Lemma outcome_eq r a i o n x y : r = Some (a, i, o, n) -> outcome r = Some (x, y) -> dsp_mode i = x /\ n = y.
Proof. intros ->. cbn. intros [= <- <-]. done. Qed.

(** Two periods are alike: one of them is removed, or inserted. *)
Example Accelerate_correct_witness :
  exists inst' played,
    Accelerate (dsp0 (ms0 NETEQ_MONO NO_INFO)) (silence 210) saw 240 (silence 4320) 0 0 =
      Some (0, inst', played ++ drop (Z.to_nat (zlen played)) (silence 4320), zlen played) /\
    dsp_accelerateLength inst' = u32 (7 + (240 - zlen played)) /\
    dsp_mode inst' = MODE_SUCCESS_ACCELERATE /\ zlen played = 210.
Proof.
  destruct (Accelerate_correct (dsp0 (ms0 NETEQ_MONO NO_INFO)) (ms0 NETEQ_MONO NO_INFO) (silence 210) saw 240
    (silence 4320) 0 0) as (inst' & played & E & _ & _ & En).
  - apply saw_frame.
  - reflexivity.
  - discriminate.
  - cbn. lia.
  - exists inst', played. split; [exact E|]. split; [exact En|].
    apply (outcome_eq _ _ _ _ _ _ _ E). vm_compute. reflexivity.
Defined.

Example PreEmptiveExpand_correct_witness :
  exists inst' played,
    PreEmptiveExpand (dsp0 (ms0 NETEQ_MONO NO_INFO)) (silence 210) saw 240 100 (silence 4320) 0 0 =
      Some (0, inst', played ++ drop (Z.to_nat (zlen played)) (silence 4320), zlen played) /\
    dsp_preemptiveLength inst' = u32 (9 + (zlen played - 240)) /\
    dsp_mode inst' = MODE_SUCCESS_PREEMPTIVE /\ zlen played = 270.
Proof.
  destruct (PreEmptiveExpand_correct (dsp0 (ms0 NETEQ_MONO NO_INFO)) (ms0 NETEQ_MONO NO_INFO) (silence 210) saw 240 100
    (silence 4320) 0 0) as (inst' & played & E & _ & _ & _ & En).
  - apply saw_frame.
  - cbn. lia.
  - reflexivity.
  - discriminate.
  - cbn. lia.
  - exists inst', played. split; [exact E|]. split; [exact En|].
    apply (outcome_eq _ _ _ _ _ _ _ E). vm_compute. reflexivity.
Defined.

(** The scratch memory needs its 210 words. *)
Example Accelerate_scratch :
  Accelerate (dsp0 (ms0 NETEQ_MONO NO_INFO)) (silence 209) saw 240 (silence 4320) 0 0 = None.
Proof. vm_compute. reflexivity. Qed.

Example Accelerate_stereo_witness :
  exists ret instL' ms' playedL instR' playedR,
    answers (Accelerate (dsp0 (ms0 NETEQ_MASTER NO_INFO)) (silence 210) (silence 240) 240 (silence 4320) 0 0)
      ret instL' playedL (silence 4320) /\
    answers (Accelerate (dsp0 (for_slave ms')) (silence 210) (silence 240) 240 (silence 4320) 0 0)
      ret instR' playedR (silence 4320) /\
    zlen playedR = zlen playedL.
Proof.
  destruct (Accelerate_stereo (dsp0 (ms0 NETEQ_MASTER NO_INFO)) (ms0 NETEQ_MASTER NO_INFO) (dsp0 (ms0 NETEQ_MASTER NO_INFO))
    (silence 210) (silence 240) (silence 240) 240 (silence 4320) (silence 4320) 0 0 0)
    as (ret & iL & ms' & pL & iR & pR & EL & _ & ER & E).
  - by apply (silence_frame _ 240); lia.
  - by apply (silence_frame _ 240); lia.
  - reflexivity.
  - reflexivity.
  - reflexivity.
  - discriminate.
  - exists ret, iL, ms', pL, iR, pR. split; [exact EL|]. split; [exact ER|exact E].
Defined.

(** Defect. Of an inactive input, of which 225 of 240 samples have been played, the
    master inserts the 15 samples that are left, but tells the slave the lag of 20
    samples that it found: the slave reads behind its input. *)
Example PreEmptiveExpand_slave_overrun :
  exists instL' ms' outL,
    PreEmptiveExpand (dsp0 (ms0 NETEQ_MASTER NO_INFO)) (silence 210) (silence 240) 240 225 (silence 270) 0 0 =
      Some (0, instL', outL, 255) /\
    dsp_msInfo instL' = Some ms' /\
    PreEmptiveExpand (dsp0 (for_slave ms')) (silence 210) (silence 240) 240 225 (silence 270) 0 0 = None.
Proof. eexists _, _, _. split; [vm_compute; reflexivity|]. split; [reflexivity|]. vm_compute. reflexivity. Qed.

(** Defect. The sum of the two energies overflows for a loud input, which is then
    judged inactive whatever its correlation is. *)
Example loud_is_passive :
  period_correlation (dsp0 (ms0 NETEQ_MONO NO_INFO)) (replicate 240 32767) 32767 120 63 = Some (0, 0).
Proof. vm_compute. reflexivity. Qed.
