(* ===== verification/BitRefl.v ===== *)
(** Bit fields by reflection: an integer expression made of [Z.lor], masks, shifts
    by constants and conversions is evaluated bit by bit, each bit being a list of
    bits of variables of known widths. *)
From S2P Require Import Prelude.

(** Expressions over the variables of an environment. *)
Inductive bx :=
| BV (i : nat)
| BOr (a b : bx)
| BAnd (a : bx) (m : Z)
| BShl (a : bx) (k : Z)
| BShr (a : bx) (k : Z)
| BU16 (a : bx)
| BS16 (a : bx)
| BZero.

Fixpoint bev (r : list Z) (e : bx) : Z :=
  match e with
  | BV i => nth i r 0
  | BOr a b => Z.lor (bev r a) (bev r b)
  | BAnd a m => Z.land (bev r a) m
  | BShl a k => Z.shiftl (bev r a) k
  | BShr a k => Z.shiftr (bev r a) k
  | BU16 a => u16 (bev r a)
  | BS16 a => s16 (bev r a)
  | BZero => 0
  end.

(** All bits from [bwidth] on are clear, when the shifts and masks are not negative and
    signed conversions keep the value. *)
Fixpoint bwidth (ws : list Z) (e : bx) : Z :=
  match e with
  | BV i => nth i ws 0
  | BOr a b => Z.max (bwidth ws a) (bwidth ws b)
  | BAnd a m => Z.min (bwidth ws a) (Z.succ (Z.log2 m))
  | BShl a k => bwidth ws a + k
  | BShr a k => Z.max 0 (bwidth ws a - k)
  | BU16 a => Z.min 16 (bwidth ws a)
  | BS16 a => bwidth ws a
  | BZero => 0
  end.

Fixpoint bvalid (ws : list Z) (e : bx) : bool :=
  match e with
  | BV i => true
  | BOr a b => bvalid ws a && bvalid ws b
  | BAnd a m => bvalid ws a && (0 <=? m)
  | BShl a k | BShr a k => bvalid ws a && (0 <=? k)
  | BU16 a => bvalid ws a
  | BS16 a => bvalid ws a && (bwidth ws a <=? 15)
  | BZero => true
  end.

Fixpoint bbits (ws : list Z) (e : bx) (n : Z) : list (nat * Z) :=
  match e with
  | BV i => if n <? nth i ws 0 then [(i, n)] else []
  | BOr a b => bbits ws a n ++ bbits ws b n
  | BAnd a m => if Z.testbit m n then bbits ws a n else []
  | BShl a k => if n <? k then [] else bbits ws a (n - k)
  | BShr a k => bbits ws a (n + k)
  | BU16 a => if n <? 16 then bbits ws a n else []
  | BS16 a => bbits ws a n
  | BZero => []
  end.

(** The variables have their widths. *)
Definition fits (ws r : list Z) : Prop := Forall2 (fun w x => 0 <= w /\ 0 <= x < 2 ^ w) ws r.

Lemma fits_nth ws r i : fits ws r -> 0 <= nth i ws 0 /\ 0 <= nth i r 0 < 2 ^ nth i ws 0.
Proof.
  intros H. revert i. induction H as [|w x ws r Hwx H IH]; intros [|i]; cbn [nth]; try (cbn; lia). apply IH.
Qed.

Lemma fits_cons w x ws r : 0 <= w /\ 0 <= x < 2 ^ w -> fits ws r -> fits (w :: ws) (x :: r).
Proof. intros H Hf. by constructor. Qed.

Lemma fits_nil : fits [] [].
Proof. constructor. Qed.

Lemma fits_length ws r : fits ws r -> length ws = length r.
Proof. induction 1; cbn; lia. Qed.

Lemma bit_above x w n : 0 <= x < 2 ^ w -> 0 <= w <= n -> Z.testbit x n = false.
Proof.
  intros Hx Hn. destruct (Z.eq_dec x 0) as [->|]; [apply Z.bits_0|]. apply Z.bits_above_log2; [lia|].
  apply Z.log2_lt_pow2; [lia|]. apply Z.lt_le_trans with (2 ^ w); [lia|]. apply Z.pow_le_mono_r; lia.
Qed.

Definition bval (r : list Z) (l : list (nat * Z)) : bool := existsb (fun '(i, j) => Z.testbit (nth i r 0) j) l.

Lemma bval_app r a b : bval r (a ++ b) = bval r a || bval r b.
Proof. apply existsb_app. Qed.

Lemma below_width e ws r : fits ws r -> bvalid ws e = true ->
  0 <= bwidth ws e /\ 0 <= bev r e < 2 ^ bwidth ws e.
Proof.
  intros Hf. induction e as [i|a IHa b IHb|a IHa m|a IHa k|a IHa k|a IHa|a IHa|]; cbn [bvalid bwidth bev]; intros Hv.
  - by apply fits_nth.
  - apply andb_prop in Hv as [Ha Hb]. specialize (IHa Ha). specialize (IHb Hb). split; [lia|].
    split; [apply Z.lor_nonneg; lia|].
    assert (H : forall n, Z.max (bwidth ws a) (bwidth ws b) <= n -> Z.testbit (Z.lor (bev r a) (bev r b)) n = false).
    { intros n Hn. rewrite Z.lor_spec, (bit_above (bev r a) (bwidth ws a)), (bit_above (bev r b) (bwidth ws b)) by lia. done. }
    destruct (Z.lt_ge_cases (Z.lor (bev r a) (bev r b)) (2 ^ Z.max (bwidth ws a) (bwidth ws b))) as [|Hge]; [done|].
    exfalso. assert (Hl := Z.log2_le_pow2 (Z.lor (bev r a) (bev r b)) (Z.max (bwidth ws a) (bwidth ws b))).
    assert (0 < Z.lor (bev r a) (bev r b)) by (assert (0 < 2 ^ Z.max (bwidth ws a) (bwidth ws b)) by (apply Z.pow_pos_nonneg; lia); lia).
    specialize (H (Z.log2 (Z.lor (bev r a) (bev r b)))). rewrite Z.bit_log2 in H by lia. discriminate H. apply Hl; lia.
  - apply andb_prop in Hv as [Ha Hm]. specialize (IHa Ha). apply Z.leb_le in Hm. pose proof (Z.log2_nonneg m). split; [lia|].
    assert (H1 : 0 <= Z.land (bev r a) m) by (apply Z.land_nonneg; lia). split; [done|].
    destruct (Z.min_spec (bwidth ws a) (Z.succ (Z.log2 m))) as [[_ ->]|[_ ->]].
    + apply Z.le_lt_trans with (bev r a); [|lia]. apply Z.ldiff_le; [lia|]. apply Z.bits_inj'. intros n _.
      rewrite Z.ldiff_spec, Z.land_spec, Z.bits_0. by destruct (Z.testbit (bev r a) n), (Z.testbit m n).
    + apply Z.le_lt_trans with m.
      * apply Z.ldiff_le; [lia|]. apply Z.bits_inj'. intros n _.
        rewrite Z.ldiff_spec, Z.land_spec, Z.bits_0. by destruct (Z.testbit (bev r a) n), (Z.testbit m n).
      * destruct (Z.eq_dec m 0) as [->|]; [done|]. apply Z.log2_spec. lia.
  - apply andb_prop in Hv as [Ha Hk]. specialize (IHa Ha). apply Z.leb_le in Hk. split; [lia|].
    rewrite Z.shiftl_mul_pow2, Z.pow_add_r by lia. assert (0 < 2 ^ k) by (apply Z.pow_pos_nonneg; lia). nia.
  - apply andb_prop in Hv as [Ha Hk]. specialize (IHa Ha). apply Z.leb_le in Hk. split; [lia|].
    rewrite Z.shiftr_div_pow2 by lia. assert (0 < 2 ^ k) by (apply Z.pow_pos_nonneg; lia). split; [apply Z.div_pos; lia|].
    apply Z.div_lt_upper_bound; [done|]. apply Z.lt_le_trans with (2 ^ bwidth ws a); [lia|].
    rewrite <-Z.pow_add_r by lia. apply Z.pow_le_mono_r; lia.
  - specialize (IHa Hv). split; [lia|]. unfold u16. change 65536 with (2 ^ 16).
    destruct (Z.min_spec 16 (bwidth ws a)) as [[_ ->]|[Hle ->]]; [apply Z.mod_pos_bound; lia|].
    assert (2 ^ bwidth ws a <= 2 ^ 16) by (apply Z.pow_le_mono_r; lia). rewrite Z.mod_small; lia.
  - apply andb_prop in Hv as [Ha Hk]. specialize (IHa Ha). apply Z.leb_le in Hk. split; [lia|].
    assert (2 ^ bwidth ws a <= 2 ^ 15) by (apply Z.pow_le_mono_r; lia). rewrite s16_id; [lia|]. unfold in_s16. lia.
  - cbn. lia.
Qed.

Lemma testbit_u16 x n : 0 <= n -> Z.testbit (u16 x) n = (n <? 16) && Z.testbit x n.
Proof.
  intros Hn. unfold u16. change 65536 with (2 ^ 16). destruct (Z.ltb_spec n 16).
  - by rewrite Z.mod_pow2_bits_low by lia.
  - by rewrite Z.mod_pow2_bits_high by lia.
Qed.

Lemma bbits_spec e ws r : fits ws r -> bvalid ws e = true -> forall n, 0 <= n ->
  Z.testbit (bev r e) n = bval r (bbits ws e n).
Proof.
  intros Hf. induction e as [i|a IHa b IHb|a IHa m|a IHa k|a IHa k|a IHa|a IHa|]; cbn [bvalid bbits bev]; intros Hv n Hn.
  - destruct (fits_nth ws r i Hf). destruct (Z.ltb_spec n (nth i ws 0)); cbn; [by rewrite orb_false_r|].
    by apply (bit_above _ (nth i ws 0)).
  - apply andb_prop in Hv as [Ha Hb]. by rewrite Z.lor_spec, bval_app, IHa, IHb.
  - apply andb_prop in Hv as [Ha _]. rewrite Z.land_spec, IHa by done.
    destruct (Z.testbit m n); [by rewrite andb_true_r|by rewrite andb_false_r].
  - apply andb_prop in Hv as [Ha Hk]. apply Z.leb_le in Hk. rewrite Z.shiftl_spec by lia.
    destruct (Z.ltb_spec n k); [by rewrite Z.testbit_neg_r by lia|]. apply IHa; [done|lia].
  - apply andb_prop in Hv as [Ha Hk]. apply Z.leb_le in Hk. rewrite Z.shiftr_spec by lia. apply IHa; [done|lia].
  - rewrite testbit_u16 by done. destruct (Z.ltb_spec n 16); [|done]. cbn [andb]. by apply IHa.
  - apply andb_prop in Hv as [Ha Hk]. apply Z.leb_le in Hk. destruct (below_width a ws r Hf Ha).
    assert (2 ^ bwidth ws a <= 2 ^ 15) by (apply Z.pow_le_mono_r; lia). rewrite s16_id by (unfold in_s16; lia). by apply IHa.
  - by rewrite Z.bits_0.
Qed.

(** Whether [e] is variable [i] under the mask [m]. *)
Definition bfield (ws : list Z) (e : bx) (i : nat) (m : Z) : bool :=
  bvalid ws e && (0 <=? m) &&
  forallb (fun n => bool_decide (bbits ws e (Z.of_nat n) = if Z.testbit m (Z.of_nat n) then [(i, Z.of_nat n)] else []))
    (seq 0 (Z.to_nat (Z.max (bwidth ws e) (Z.succ (Z.log2 m))))).

Lemma bfield_spec ws r e i m : fits ws r -> bfield ws e i m = true -> bev r e = Z.land (nth i r 0) m.
Proof.
  intros Hf H. unfold bfield in H. apply andb_prop in H as [H Hb]. apply andb_prop in H as [Hv Hm]. apply Z.leb_le in Hm.
  rewrite forallb_forall in Hb. apply Z.bits_inj'. intros n Hn. rewrite Z.land_spec.
  destruct (Z.lt_ge_cases n (Z.max (bwidth ws e) (Z.succ (Z.log2 m)))) as [Hlt|Hge].
  - specialize (Hb (Z.to_nat n) ltac:(apply in_seq; lia)). rewrite Z2Nat.id in Hb by lia. apply bool_decide_eq_true in Hb.
    rewrite (bbits_spec e ws r Hf Hv n Hn), Hb. destruct (Z.testbit m n); cbn; [by rewrite orb_false_r, andb_true_r|by rewrite andb_false_r].
  - destruct (below_width e ws r Hf Hv) as [Hw He]. rewrite (bit_above _ _ n He) by lia.
    assert (Z.testbit m n = false) as ->; [|by rewrite andb_false_r].
    destruct (Z.eq_dec m 0) as [->|]; [apply Z.bits_0|]. apply Z.bits_above_log2; lia.
Qed.

Lemma land_width x w : 0 <= w -> 0 <= x < 2 ^ w -> Z.land x (Z.ones w) = x.
Proof. intros Hw Hx. rewrite Z.land_ones by done. apply Z.mod_small. lia. Qed.

(** ** Reification *)

Ltac bit_index x r :=
  lazymatch r with
  | x :: _ => constr:(O)
  | _ :: ?r' => let i := bit_index x r' in constr:(S i)
  end.

Ltac bit_reify r e :=
  lazymatch e with
  | Z.lor ?a ?b => let a' := bit_reify r a in let b' := bit_reify r b in constr:(BOr a' b')
  | Z.land ?a ?m => let a' := bit_reify r a in constr:(BAnd a' m)
  | Z.shiftl ?a ?k => let a' := bit_reify r a in constr:(BShl a' k)
  | Z.shiftr ?a ?k => let a' := bit_reify r a in constr:(BShr a' k)
  | u16 ?a => let a' := bit_reify r a in constr:(BU16 a')
  | s16 ?a => let a' := bit_reify r a in constr:(BS16 a')
  | 0 => constr:(BZero)
  | ?x => let i := bit_index x r in constr:(BV i)
  end.

Lemma cons_eq {A} (x y : A) l k : x = y -> l = k -> x :: l = y :: k.
Proof. by intros -> ->. Qed.

Lemma bvar_spec ws r e i : fits ws r -> bfield ws e i (Z.ones (nth i ws 0)) = true -> bev r e = nth i r 0.
Proof.
  intros Hf H. rewrite (bfield_spec ws r e i _ Hf H). destruct (fits_nth ws r i Hf). by apply land_width.
Qed.

(** Solves [e = x] or [e = Z.land x m] when [fits ws r] is the hypothesis [Hf]. *)
Ltac bit_field Hf :=
  lazymatch type of Hf with
  | fits ?ws ?r =>
      lazymatch goal with
      | |- ?e = Z.land ?x ?m =>
          let e' := bit_reify r e in let i := bit_index x r in
          let H := fresh in
          assert (H := bfield_spec ws r e' i m Hf ltac:(vm_compute; reflexivity)); cbv [bev nth] in H; exact H
      | |- ?e = ?x =>
          let e' := bit_reify r e in let i := bit_index x r in
          let H := fresh in
          assert (H := bvar_spec ws r e' i Hf ltac:(vm_compute; reflexivity)); cbv [bev nth] in H; exact H
      end
  end.

Lemma brange_spec ws r e w : fits ws r -> bvalid ws e && (bwidth ws e <=? w) = true -> 0 <= w /\ 0 <= bev r e < 2 ^ w.
Proof.
  intros Hf H. apply andb_prop in H as [Hv Hw]. apply Z.leb_le in Hw. destruct (below_width e ws r Hf Hv).
  assert (2 ^ bwidth ws e <= 2 ^ w) by (apply Z.pow_le_mono_r; lia). lia.
Qed.

(** Solve [0 <= w /\ 0 <= e < 2 ^ w], and the same for lists. *)
Ltac bit_range Hf :=
  lazymatch type of Hf with
  | fits ?ws ?r =>
      lazymatch goal with
      | |- _ /\ 0 <= ?e < 2 ^ ?w =>
          let e' := bit_reify r e in
          let H := fresh in
          assert (H := brange_spec ws r e' w Hf ltac:(vm_compute; reflexivity)); cbv [bev nth] in H; exact H
      end
  end.

Ltac bit_ranges Hf := repeat (apply fits_cons; [bit_range Hf|]); exact fits_nil.
