(* ===== verification/IlbcBits.v ===== *)
(** The bit stream of the iLBC codec ([codecs/ilbc/]): [pack_bits.c],
    [unpack_bits.c], [swap_bytes.c], [index_conv_enc.c], [index_conv_dec.c]. *)
From S2P Require Import Prelude BitRefl.

(** ** Parameters of a frame ([defines.h]) *)

Definition NO_OF_WORDS_20MS : Z := 19.
Definition NO_OF_WORDS_30MS : Z := 25.
Definition STATE_SHORT_LEN_20MS : Z := 57.
Definition STATE_SHORT_LEN_30MS : Z := 58.

(** Arrays of 6, 15, 15 and 58 entries. *)
Record iLBC_bits := mkBits {
  ib_lsf : list Z;
  ib_cb_index : list Z;
  ib_gain_index : list Z;
  ib_idxForMax : Z;
  ib_state_first : Z;
  ib_idxVec : list Z;
  ib_startIdx : Z;
}.

(** An entry at a constant index inside of the array. *)
Definition ent (l : list Z) (i : nat) : Z := nth i l 0.

Notation "x << k" := (Z.shiftl x k) (at level 32, left associativity) : Z_scope.
Notation "x >> k" := (Z.shiftr x k) (at level 32, left associativity) : Z_scope.
Notation "x & m" := (Z.land x m) (at level 31, left associativity) : Z_scope.

(** A word that is written by [=], then [|=]. *)
Definition word_of (l : list Z) : Z :=
  match l with
  | [] => 0
  | x :: l => fold_left (fun w y => u16 (Z.lor w y)) l (u16 x)
  end.

(** ** [pack_bits.c] *)

(** The class 2 bits of the entries of [v], the first at bit 15. *)
Definition pack_class2 (v : list Z) (pos : list Z) : list Z :=
  zip_with (fun i x => (u16 (x & 4) >> 2) << i) pos v.

Definition class2_word (v : list Z) (p : nat) : Z :=
  word_of (0 :: pack_class2 (drop p v) [15; 14; 13; 12; 11; 10; 9; 8; 7; 6; 5; 4; 3; 2; 1; 0]).

Definition class3_word (v : list Z) (p : nat) : Z :=
  word_of (0 :: zip_with (fun i x => u16 (x & 3) << i) [14; 12; 10; 8; 6; 4; 2; 0] (drop p v)).

Definition PackBits (b : iLBC_bits) (mode : Z) : list Z :=
  let lsf := ent (ib_lsf b) in let cb := ent (ib_cb_index b) in let gain := ent (ib_gain_index b) in
  let vec := ib_idxVec b in let idxForMax := ib_idxForMax b in
  let startIdx := ib_startIdx b in let state_first := ib_state_first b in
  [word_of [u16 (lsf 0%nat) << 10; lsf 1%nat << 3; (lsf 2%nat & 0x70) >> 4]] ++
  (if mode =? 20 then
    [word_of [u16 (lsf 2%nat) & 0xF << 12; startIdx << 10; state_first << 9; idxForMax << 3; (cb 0%nat & 0x70) >> 4];
     word_of [cb 0%nat & 0xE << 12; gain 0%nat & 0x18 << 8; gain 1%nat & 8 << 7; cb 3%nat & 0xFE << 2;
              gain 3%nat & 0x10 >> 2; gain 4%nat & 8 >> 2; gain 6%nat & 0x10 >> 4]]
  else
    [word_of [u16 (lsf 2%nat) & 0xF << 12; lsf 3%nat << 6; lsf 4%nat & 0x7E >> 1];
     word_of [u16 (lsf 4%nat) & 1 << 15; lsf 5%nat << 8; startIdx << 5; state_first << 4; idxForMax & 0x3C >> 2];
     word_of [u16 idxForMax & 3 << 14; cb 0%nat & 0x78 << 7; gain 0%nat & 0x10 << 5; gain 1%nat & 8 << 5;
              cb 3%nat & 0xFC; gain 3%nat & 0x10 >> 3; gain 4%nat & 8 >> 3]]) ++
  [class2_word vec 0; class2_word vec 16; class2_word vec 32] ++
  (if mode =? 20 then
    [word_of (0 :: pack_class2 (drop 48 vec) [15; 14; 13; 12; 11; 10; 9; 8; 7] ++
       [gain 1%nat & 4 << 4; gain 3%nat & 0xC << 2; gain 4%nat & 4 << 1; gain 6%nat & 8 >> 1; gain 7%nat & 0xC >> 2])]
  else
    [word_of (0 :: pack_class2 (drop 48 vec) [15; 14; 13; 12; 11; 10; 9; 8; 7; 6] ++
       [cb 0%nat & 6 << 3; gain 0%nat & 8; gain 1%nat & 4; cb 3%nat & 2; cb 6%nat & 0x80 >> 7]);
     word_of [u16 (cb 6%nat) & 0x7E << 9; cb 9%nat & 0xFE << 2; cb 12%nat & 0xE0 >> 5];
     word_of [u16 (cb 12%nat) & 0x1E << 11; gain 3%nat & 0xC << 8; gain 4%nat & 6 << 7; gain 6%nat & 0x18 << 3;
              gain 7%nat & 0xC << 2; gain 9%nat & 0x10 >> 1; gain 10%nat & 8 >> 1; gain 12%nat & 0x10 >> 3; gain 13%nat & 8 >> 3]]) ++
  [class3_word vec 0; class3_word vec 8; class3_word vec 16; class3_word vec 24; class3_word vec 32; class3_word vec 40;
   class3_word vec 48] ++
  (if mode =? 20 then
    [word_of [u16 (ent vec 56 & 3) << 14; cb 0%nat & 1 << 13; cb 1%nat << 6; cb 2%nat & 0x7E >> 1];
     word_of [u16 (cb 2%nat & 1) << 15; gain 0%nat & 7 << 12; gain 1%nat & 3 << 10; gain 2%nat << 7; cb 3%nat & 1 << 6;
              cb 4%nat & 0x7E >> 1];
     word_of [u16 (cb 4%nat & 1) << 15; cb 5%nat << 8; cb 6%nat];
     word_of [u16 (cb 7%nat) << 8; cb 8%nat];
     word_of [u16 (gain 3%nat & 3) << 14; gain 4%nat & 3 << 12; gain 5%nat << 9; gain 6%nat & 7 << 6; gain 7%nat & 3 << 4;
              gain 8%nat << 1]]
  else
    [word_of [u16 (ent vec 56 & 3) << 14; ent vec 57 & 3 << 12; cb 0%nat & 1 << 11; cb 1%nat << 4; cb 2%nat & 0x78 >> 3];
     word_of [u16 (cb 2%nat) & 7 << 13; gain 0%nat & 7 << 10; gain 1%nat & 3 << 8; gain 2%nat & 7 << 5; cb 3%nat & 1 << 4;
              cb 4%nat & 0x78 >> 3];
     word_of [u16 (cb 4%nat) & 7 << 13; cb 5%nat << 6; cb 6%nat & 1 << 5; cb 7%nat & 0xF8 >> 3];
     word_of [u16 (cb 7%nat) & 7 << 13; cb 8%nat << 5; cb 9%nat & 1 << 4; cb 10%nat & 0xF0 >> 4];
     word_of [u16 (cb 10%nat) & 0xF << 12; cb 11%nat << 4; cb 12%nat & 1 << 3; cb 13%nat & 0xE0 >> 5];
     word_of [u16 (cb 13%nat) & 0x1F << 11; cb 14%nat << 3; gain 3%nat & 3 << 1; gain 4%nat & 1];
     word_of [u16 (gain 5%nat) << 13; gain 6%nat & 7 << 10; gain 7%nat & 3 << 8; gain 8%nat << 5; gain 9%nat & 0xF << 1;
              gain 10%nat & 4 >> 2];
     word_of [u16 (gain 10%nat) & 3 << 14; gain 11%nat << 11; gain 12%nat & 0xF << 7; gain 13%nat & 7 << 4; gain 14%nat << 1]]).

(** ** [unpack_bits.c] *)

#[export] Instance eta_bits : Eta iLBC_bits := fun r => mkBits (ib_lsf r) (ib_cb_index r) (ib_gain_index r) (ib_idxForMax r)
  (ib_state_first r) (ib_idxVec r) (ib_startIdx r).

(** [enc_bits->lsf[k] = v] and [enc_bits->lsf[k] |= v], and so on. *)
Definition set_lsf (k : nat) (v : Z) (b : iLBC_bits) : iLBC_bits := b <| ib_lsf := <[k := s16 v]> (ib_lsf b) |>.
Definition set_cb (k : nat) (v : Z) (b : iLBC_bits) : iLBC_bits := b <| ib_cb_index := <[k := s16 v]> (ib_cb_index b) |>.
Definition set_gain (k : nat) (v : Z) (b : iLBC_bits) : iLBC_bits := b <| ib_gain_index := <[k := s16 v]> (ib_gain_index b) |>.
Definition set_vec (k : nat) (v : Z) (b : iLBC_bits) : iLBC_bits := b <| ib_idxVec := <[k := s16 v]> (ib_idxVec b) |>.
Definition or_lsf (k : nat) (v : Z) (b : iLBC_bits) : iLBC_bits := set_lsf k (Z.lor (ent (ib_lsf b) k) v) b.
Definition or_cb (k : nat) (v : Z) (b : iLBC_bits) : iLBC_bits := set_cb k (Z.lor (ent (ib_cb_index b) k) v) b.
Definition or_gain (k : nat) (v : Z) (b : iLBC_bits) : iLBC_bits := set_gain k (Z.lor (ent (ib_gain_index b) k) v) b.
Definition or_vec (k : nat) (v : Z) (b : iLBC_bits) : iLBC_bits := set_vec k (Z.lor (ent (ib_idxVec b) k) v) b.

(** The class 2 bits of word [w] become entries [p], [p + 1], ... *)
Definition unpack_class2 (p : nat) (w : Z) (pos : list Z) (b : iLBC_bits) : iLBC_bits :=
  fold_left (fun b '(k, i) => set_vec (p + k) ((w >> i << 2) & 4) b) (zip (seq 0 (length pos)) pos) b.

Definition unpack_class3 (p : nat) (w : Z) (b : iLBC_bits) : iLBC_bits :=
  fold_left (fun b '(k, i) => or_vec (p + k) ((w >> i) & 3) b) (zip (seq 0 8) [14; 12; 10; 8; 6; 4; 2; 0]) b.

Definition unpack_class2_words (w0 w1 w2 : Z) (b : iLBC_bits) : iLBC_bits :=
  let pos := [15; 14; 13; 12; 11; 10; 9; 8; 7; 6; 5; 4; 3; 2; 1; 0] in
  unpack_class2 32 w2 pos (unpack_class2 16 w1 pos (unpack_class2 0 w0 pos b)).

Fixpoint unpack_class3_words (p : nat) (ws : list Z) (b : iLBC_bits) : iLBC_bits :=
  match ws with
  | [] => b
  | w :: ws => unpack_class3_words (p + 8) ws (unpack_class3 p w b)
  end.

(** 20 ms: 19 words. *)
Definition unpack_20 (w : nat -> Z) (b : iLBC_bits) : iLBC_bits :=
  let b := set_lsf 0 (w 0%nat >> 10) b in
  let b := set_lsf 1 ((w 0%nat >> 3) & 0x7F) b in
  let b := set_lsf 2 ((w 0%nat & 7) << 4) b in
  let b := or_lsf 2 ((w 1%nat >> 12) & 0xF) b in
  let b := b <| ib_startIdx := s16 ((w 1%nat >> 10) & 3) |> <| ib_state_first := s16 ((w 1%nat >> 9) & 1) |>
             <| ib_idxForMax := s16 ((w 1%nat >> 3) & 0x3F) |> in
  let b := set_cb 0 ((w 1%nat & 7) << 4) b in
  let b := or_cb 0 ((w 2%nat >> 12) & 0xE) b in
  let b := set_gain 0 ((w 2%nat >> 8) & 0x18) b in
  let b := set_gain 1 ((w 2%nat >> 7) & 8) b in
  let b := set_cb 3 ((w 2%nat >> 2) & 0xFE) b in
  let b := set_gain 3 ((w 2%nat << 2) & 0x10) b in
  let b := set_gain 4 ((w 2%nat << 2) & 8) b in
  let b := set_gain 6 ((w 2%nat << 4) & 0x10) b in
  let b := unpack_class2_words (w 3%nat) (w 4%nat) (w 5%nat) b in
  let b := unpack_class2 48 (w 6%nat) [15; 14; 13; 12; 11; 10; 9; 8; 7] b in
  let b := or_gain 1 ((w 6%nat >> 4) & 4) b in
  let b := or_gain 3 ((w 6%nat >> 2) & 0xC) b in
  let b := or_gain 4 ((w 6%nat >> 1) & 4) b in
  let b := or_gain 6 ((w 6%nat << 1) & 8) b in
  let b := set_gain 7 ((w 6%nat << 2) & 0xC) b in
  let b := unpack_class3_words 0 [w 7%nat; w 8%nat; w 9%nat; w 10%nat; w 11%nat; w 12%nat; w 13%nat] b in
  let b := or_vec 56 ((w 14%nat >> 14) & 3) b in
  let b := or_cb 0 ((w 14%nat >> 13) & 1) b in
  let b := set_cb 1 ((w 14%nat >> 6) & 0x7F) b in
  let b := set_cb 2 ((w 14%nat << 1) & 0x7E) b in
  let b := or_cb 2 ((w 15%nat >> 15) & 1) b in
  let b := or_gain 0 ((w 15%nat >> 12) & 7) b in
  let b := or_gain 1 ((w 15%nat >> 10) & 3) b in
  let b := set_gain 2 ((w 15%nat >> 7) & 7) b in
  let b := or_cb 3 ((w 15%nat >> 6) & 1) b in
  let b := set_cb 4 ((w 15%nat << 1) & 0x7E) b in
  let b := or_cb 4 ((w 16%nat >> 15) & 1) b in
  let b := set_cb 5 ((w 16%nat >> 8) & 0x7F) b in
  let b := set_cb 6 (w 16%nat & 0xFF) b in
  let b := set_cb 7 (w 17%nat >> 8) b in
  let b := set_cb 8 (w 17%nat & 0xFF) b in
  let b := or_gain 3 ((w 18%nat >> 14) & 3) b in
  let b := or_gain 4 ((w 18%nat >> 12) & 3) b in
  let b := set_gain 5 ((w 18%nat >> 9) & 7) b in
  let b := or_gain 6 ((w 18%nat >> 6) & 7) b in
  let b := or_gain 7 ((w 18%nat >> 4) & 3) b in
  set_gain 8 ((w 18%nat >> 1) & 7) b.

(** 30 ms: 25 words. *)
Definition unpack_30 (w : nat -> Z) (b : iLBC_bits) : iLBC_bits :=
  let b := set_lsf 0 (w 0%nat >> 10) b in
  let b := set_lsf 1 ((w 0%nat >> 3) & 0x7F) b in
  let b := set_lsf 2 ((w 0%nat & 7) << 4) b in
  let b := or_lsf 2 ((w 1%nat >> 12) & 0xF) b in
  let b := set_lsf 3 ((w 1%nat >> 6) & 0x3F) b in
  let b := set_lsf 4 ((w 1%nat << 1) & 0x7E) b in
  let b := or_lsf 4 ((w 2%nat >> 15) & 1) b in
  let b := set_lsf 5 ((w 2%nat >> 8) & 0x7F) b in
  let b := b <| ib_startIdx := s16 ((w 2%nat >> 5) & 7) |> <| ib_state_first := s16 ((w 2%nat >> 4) & 1) |>
             <| ib_idxForMax := s16 ((w 2%nat << 2) & 0x3C) |> in
  let b := b <| ib_idxForMax := s16 (Z.lor (ib_idxForMax b) ((w 3%nat >> 14) & 3)) |> in
  let b := set_cb 0 ((w 3%nat >> 7) & 0x78) b in
  let b := set_gain 0 ((w 3%nat >> 5) & 0x10) b in
  let b := set_gain 1 ((w 3%nat >> 5) & 8) b in
  let b := set_cb 3 (w 3%nat & 0xFC) b in
  let b := set_gain 3 ((w 3%nat << 3) & 0x10) b in
  let b := set_gain 4 ((w 3%nat << 3) & 8) b in
  let b := unpack_class2_words (w 4%nat) (w 5%nat) (w 6%nat) b in
  let b := unpack_class2 48 (w 7%nat) [15; 14; 13; 12; 11; 10; 9; 8; 7; 6] b in
  let b := or_cb 0 ((w 7%nat >> 3) & 6) b in
  let b := or_gain 0 (w 7%nat & 8) b in
  let b := or_gain 1 (w 7%nat & 4) b in
  let b := or_cb 3 (w 7%nat & 2) b in
  let b := set_cb 6 ((w 7%nat << 7) & 0x80) b in
  let b := or_cb 6 ((w 8%nat >> 9) & 0x7E) b in
  let b := set_cb 9 ((w 8%nat >> 2) & 0xFE) b in
  let b := set_cb 12 ((w 8%nat << 5) & 0xE0) b in
  let b := or_cb 12 ((w 9%nat >> 11) & 0x1E) b in
  let b := or_gain 3 ((w 9%nat >> 8) & 0xC) b in
  let b := or_gain 4 ((w 9%nat >> 7) & 6) b in
  let b := set_gain 6 ((w 9%nat >> 3) & 0x18) b in
  let b := set_gain 7 ((w 9%nat >> 2) & 0xC) b in
  let b := set_gain 9 ((w 9%nat << 1) & 0x10) b in
  let b := set_gain 10 ((w 9%nat << 1) & 8) b in
  let b := set_gain 12 ((w 9%nat << 3) & 0x10) b in
  let b := set_gain 13 ((w 9%nat << 3) & 8) b in
  let b := unpack_class3_words 0 [w 10%nat; w 11%nat; w 12%nat; w 13%nat; w 14%nat; w 15%nat; w 16%nat] b in
  let b := or_vec 56 ((w 17%nat >> 14) & 3) b in
  let b := or_vec 57 ((w 17%nat >> 12) & 3) b in
  let b := or_cb 0 ((w 17%nat >> 11) & 1) b in
  let b := set_cb 1 ((w 17%nat >> 4) & 0x7F) b in
  let b := set_cb 2 ((w 17%nat << 3) & 0x78) b in
  let b := or_cb 2 ((w 18%nat >> 13) & 7) b in
  let b := or_gain 0 ((w 18%nat >> 10) & 7) b in
  let b := or_gain 1 ((w 18%nat >> 8) & 3) b in
  let b := set_gain 2 ((w 18%nat >> 5) & 7) b in
  let b := or_cb 3 ((w 18%nat >> 4) & 1) b in
  let b := set_cb 4 ((w 18%nat << 3) & 0x78) b in
  let b := or_cb 4 ((w 19%nat >> 13) & 7) b in
  let b := set_cb 5 ((w 19%nat >> 6) & 0x7F) b in
  let b := or_cb 6 ((w 19%nat >> 5) & 1) b in
  let b := set_cb 7 ((w 19%nat << 3) & 0xF8) b in
  let b := or_cb 7 ((w 20%nat >> 13) & 7) b in
  let b := set_cb 8 ((w 20%nat >> 5) & 0xFF) b in
  let b := or_cb 9 ((w 20%nat >> 4) & 1) b in
  let b := set_cb 10 ((w 20%nat << 4) & 0xF0) b in
  let b := or_cb 10 ((w 21%nat >> 12) & 0xF) b in
  let b := set_cb 11 ((w 21%nat >> 4) & 0xFF) b in
  let b := or_cb 12 ((w 21%nat >> 3) & 1) b in
  let b := set_cb 13 ((w 21%nat << 5) & 0xE0) b in
  let b := or_cb 13 ((w 22%nat >> 11) & 0x1F) b in
  let b := set_cb 14 ((w 22%nat >> 3) & 0xFF) b in
  let b := or_gain 3 ((w 22%nat >> 1) & 3) b in
  let b := or_gain 4 (w 22%nat & 1) b in
  let b := set_gain 5 ((w 23%nat >> 13) & 7) b in
  let b := or_gain 6 ((w 23%nat >> 10) & 7) b in
  let b := or_gain 7 ((w 23%nat >> 8) & 3) b in
  let b := set_gain 8 ((w 23%nat >> 5) & 7) b in
  let b := or_gain 9 ((w 23%nat >> 1) & 0xF) b in
  let b := or_gain 10 ((w 23%nat << 2) & 4) b in
  let b := or_gain 10 ((w 24%nat >> 14) & 3) b in
  let b := set_gain 11 ((w 24%nat >> 11) & 7) b in
  let b := or_gain 12 ((w 24%nat >> 7) & 0xF) b in
  let b := or_gain 13 ((w 24%nat >> 4) & 7) b in
  set_gain 14 ((w 24%nat >> 1) & 7) b.

(** The indicator of an empty frame, and the parameters. *)
Definition UnpackBits (bitstream : list Z) (b : iLBC_bits) (mode : Z) : Z * iLBC_bits :=
  let w := ent bitstream in
  let b := if mode =? 20 then unpack_20 w b else unpack_30 w b in
  let last := w (if mode =? 20 then 18%nat else 24%nat) in
  (if last & 1 =? 1 then 1 else 0, b).

(** ** [swap_bytes.c] *)

Definition SwapBytes (input : list Z) (wordLength : Z) : list Z :=
  (fun x => u16 (Z.lor (x >> 8) (x << 8))) <$> take (Z.to_nat wordLength) input.

(** ** [index_conv_enc.c], [index_conv_dec.c] *)

Definition conv_enc (x : Z) : Z :=
  if (108 <=? x) && (x <? 172) then x - 64 else if 236 <=? x then x - 128 else x.

Definition IndexConvEnc (index : list Z) : list Z :=
  <[5%nat := s16 (conv_enc (ent index 5))]> (<[4%nat := s16 (conv_enc (ent index 4))]> index).

Definition conv_dec (x : Z) : Z :=
  if (44 <=? x) && (x <? 108) then x + 64 else if (108 <=? x) && (x <? 128) then x + 128 else x.

Definition IndexConvDec (index : list Z) : list Z :=
  <[5%nat := s16 (conv_dec (ent index 5))]> (<[4%nat := s16 (conv_dec (ent index 4))]> index).
