(* ===== verification/IlbcStream.v ===== *)
(** The bit stream of iLBC as a bijection: packing and unpacking are inverse to
    each other, for both frame sizes. *)
From S2P Require Import Prelude BitRefl IlbcBits.

(** ** The parameters that are transmitted *)

Definition arrays_ok (b : iLBC_bits) : Prop :=
  length (ib_lsf b) = 6%nat /\ length (ib_cb_index b) = 15%nat /\ length (ib_gain_index b) = 15%nat /\
  length (ib_idxVec b) = 58%nat.

Definition widths (mode : Z) : list Z :=
  if mode =? 20 then [6; 7; 7; 2; 1; 6] ++ [7; 7; 7; 8; 7; 7; 8; 8; 8] ++ [5; 4; 3; 5; 4; 3; 5; 4; 3] ++ replicate 57 3
  else [6; 7; 7; 6; 7; 7; 3; 1; 6] ++ [7; 7; 7; 8; 7; 7; 8; 8; 8; 8; 8; 8; 8; 8; 8] ++
       [5; 4; 3; 5; 4; 3; 5; 4; 3; 5; 4; 3; 5; 4; 3] ++ replicate 58 3.

Definition fields (mode : Z) (b : iLBC_bits) : list Z :=
  if mode =? 20 then take 3 (ib_lsf b) ++ [ib_startIdx b; ib_state_first b; ib_idxForMax b] ++ take 9 (ib_cb_index b) ++
                     take 9 (ib_gain_index b) ++ take 57 (ib_idxVec b)
  else ib_lsf b ++ [ib_startIdx b; ib_state_first b; ib_idxForMax b] ++ ib_cb_index b ++ ib_gain_index b ++ ib_idxVec b.

(** Every parameter has the number of bits that the stream gives it. *)
Definition bits_ok (mode : Z) (b : iLBC_bits) : Prop := arrays_ok b /\ fits (widths mode) (fields mode b).

Ltac list_entries l H :=
  repeat (let x := fresh "x" in destruct l as [|x l]; [discriminate H|]); destruct l as [|]; [clear H|discriminate H].

Ltac open_bits b :=
  let lsf := fresh "lsf" in let cb := fresh "cb" in let gain := fresh "gain" in let vec := fresh "vec" in
  let idx := fresh "idxForMax" in let st := fresh "state_first" in let sx := fresh "startIdx" in
  destruct b as [lsf cb gain idx st vec sx];
  let H1 := fresh in let H2 := fresh in let H3 := fresh in let H4 := fresh in
  match goal with H : arrays_ok _ |- _ => destruct H as (H1 & H2 & H3 & H4); cbn in H1, H2, H3, H4 end;
  list_entries lsf H1; list_entries cb H2; list_entries gain H3; list_entries vec H4.

#[local] Strategy opaque [Z.lor Z.land Z.shiftl Z.shiftr u16 s16].

Ltac bit_eval := cbv -[Z.lor Z.land Z.shiftl Z.shiftr u16 s16 fits].

Ltac bit_fields Hf := repeat (apply cons_eq; [bit_field Hf|]); reflexivity.

Lemma unpack_pack_20 b b0 :
  arrays_ok b0 -> bits_ok 20 b -> fields 20 (unpack_20 (ent (PackBits b 20)) b0) = fields 20 b.
Proof.
  intros H0 [H Hf]. open_bits b. open_bits b0. revert Hf. unfold widths, fields.
  cbn [Z.eqb Pos.eqb ib_lsf ib_cb_index ib_gain_index ib_idxForMax ib_state_first ib_idxVec ib_startIdx take app replicate].
  intros Hf. bit_eval. bit_fields Hf.
Qed.

Lemma unpack_pack_30 b b0 :
  arrays_ok b0 -> bits_ok 30 b -> fields 30 (unpack_30 (ent (PackBits b 30)) b0) = fields 30 b.
Proof.
  intros H0 [H Hf]. open_bits b. open_bits b0. revert Hf. unfold widths, fields.
  cbn [Z.eqb Pos.eqb ib_lsf ib_cb_index ib_gain_index ib_idxForMax ib_state_first ib_idxVec ib_startIdx take app replicate].
  intros Hf. bit_eval. bit_fields Hf.
Qed.

(** The last word of a packed frame is even. *)
Lemma pack_last b mode : mode = 20 \/ mode = 30 -> bits_ok mode b ->
  ent (PackBits b mode) (if mode =? 20 then 18 else 24) & 1 = 0.
Proof.
  intros Hm [H Hf]. open_bits b. destruct Hm as [-> | ->]; revert Hf; unfold widths, fields;
    cbn [Z.eqb Pos.eqb ib_lsf ib_cb_index ib_gain_index ib_idxForMax ib_state_first ib_idxVec ib_startIdx take app replicate];
    intros Hf; bit_eval.
  all: lazymatch type of Hf with fits ?ws ?r => lazymatch goal with |- ?e = 0 =>
         let e' := bit_reify r e in
         let H := fresh in
         assert (H := bfield_spec ws r e' 0 0 Hf ltac:(vm_compute; reflexivity)); cbv [bev nth] in H;
         rewrite Z.land_0_r in H; exact H end end.
Qed.

(** ** The other way round *)


Definition words_ok (mode : Z) (w : list Z) : Prop := fits (replicate (if mode =? 20 then 19%nat else 25%nat) 16) w.

Lemma pack_unpack_20 w b0 :
  arrays_ok b0 -> words_ok 20 w -> PackBits (unpack_20 (ent w) b0) 20 = take 18 w ++ [ent w 18 & 0xFFFE].
Proof.
  intros H0 Hf. unfold words_ok in Hf. cbn [Z.eqb Pos.eqb replicate] in Hf.
  assert (Hl : length w = 19%nat) by (by rewrite <-(fits_length _ _ Hf)).
  list_entries w Hl. open_bits b0. bit_eval. bit_fields Hf.
Qed.

Lemma pack_unpack_30 w b0 :
  arrays_ok b0 -> words_ok 30 w -> PackBits (unpack_30 (ent w) b0) 30 = take 24 w ++ [ent w 24 & 0xFFFE].
Proof.
  intros H0 Hf. unfold words_ok in Hf. cbn [Z.eqb Pos.eqb replicate] in Hf.
  assert (Hl : length w = 25%nat) by (by rewrite <-(fits_length _ _ Hf)).
  list_entries w Hl. open_bits b0. bit_eval. bit_fields Hf.
Qed.

Lemma unpack_ok_20 w b0 : arrays_ok b0 -> words_ok 20 w -> bits_ok 20 (unpack_20 (ent w) b0).
Proof.
  intros H0 Hf. unfold words_ok in Hf. cbn [Z.eqb Pos.eqb replicate] in Hf.
  assert (Hl : length w = 19%nat) by (by rewrite <-(fits_length _ _ Hf)).
  list_entries w Hl. open_bits b0. split; [repeat split; reflexivity|]. bit_eval. bit_ranges Hf.
Qed.

Lemma unpack_ok_30 w b0 : arrays_ok b0 -> words_ok 30 w -> bits_ok 30 (unpack_30 (ent w) b0).
Proof.
  intros H0 Hf. unfold words_ok in Hf. cbn [Z.eqb Pos.eqb replicate] in Hf.
  assert (Hl : length w = 25%nat) by (by rewrite <-(fits_length _ _ Hf)).
  list_entries w Hl. open_bits b0. split; [repeat split; reflexivity|]. bit_eval. bit_ranges Hf.
Qed.

(** ** Bytes and codebook indexes *)

Lemma swap_swap x : 0 <= x < 65536 -> u16 (Z.lor (u16 (Z.lor (x >> 8) (x << 8)) >> 8) (u16 (Z.lor (x >> 8) (x << 8)) << 8)) = x.
Proof.
  intros Hx. assert (Hf : fits [16] [x]) by (apply fits_cons; [change (2 ^ 16) with 65536; lia|exact fits_nil]). bit_field Hf.
Qed.

Lemma SwapBytes_involutive w n : zlen w = n -> Forall in_u16 w -> SwapBytes (SwapBytes w n) n = w.
Proof.
  intros <- Hw. unfold SwapBytes. rewrite !take_ge by (rewrite ?length_fmap, ?length_take; unfold zlen; lia).
  induction Hw as [|x w Hx Hw IH]; [done|]. cbn [fmap list_fmap]. rewrite swap_swap by done. f_equal. exact IH.
Qed.

(** The indexes that the encoder may choose for the second and third stage of the
    first subframe. *)
Definition convertible (x : Z) : Prop := 108 <= x < 172 \/ 236 <= x < 256.

Lemma conv_roundtrip x : convertible x -> 0 <= conv_enc x < 2 ^ 7 /\ conv_dec (conv_enc x) = x.
Proof. intros H. unfold convertible in H. unfold conv_dec, conv_enc. change (2 ^ 7) with 128. repeat case_if; lia. Qed.

Lemma IndexConv_roundtrip l :
  length l = 15%nat -> convertible (ent l 4) -> convertible (ent l 5) -> IndexConvDec (IndexConvEnc l) = l.
Proof.
  intros Hl H4 H5. list_entries l Hl. cbn in H4, H5 |- *.
  destruct (conv_roundtrip _ H4) as [R4 E4]. destruct (conv_roundtrip _ H5) as [R5 E5]. change (2 ^ 7) with 128 in *.
  rewrite !(s16_id (conv_enc _)) by (unfold in_s16; lia). rewrite E4, E5. unfold convertible in H4, H5.
  rewrite !s16_id by (unfold in_s16; lia). done.
Qed.

(** ** The properties *)

Lemma pack_zlen b mode : mode = 20 \/ mode = 30 -> length (ib_idxVec b) = 58%nat ->
  zlen (PackBits b mode) = if mode =? 20 then NO_OF_WORDS_20MS else NO_OF_WORDS_30MS.
Proof. intros [-> | ->] _; reflexivity. Qed.

Lemma word_of_u16 l : in_u16 (word_of l).
Proof.
  destruct l as [|x l]; [cbn; lia|]. cbn [word_of]. pose proof (u16_range x) as H. revert H. generalize (u16 x).
  induction l as [|y l IH]; intros z Hz; [done|]. cbn [fold_left]. apply IH, u16_range.
Qed.

Lemma pack_u16 b mode : Forall in_u16 (PackBits b mode).
Proof.
  unfold PackBits. cbv zeta. destruct (mode =? 20); cbn [app];
    repeat (apply List.Forall_cons; [apply word_of_u16|]); apply List.Forall_nil.
Qed.

(** C21. What an iLBC encoder sends, a decoder reads: the parameters of a frame,
    packed into words and swapped to network byte order, come back unchanged,
    all of them, and the frame does not count as empty. *)
Theorem Ilbc_bitstream_roundtrip mode b b0 (Hm : mode = 20 \/ mode = 30) (Hb : bits_ok mode b) (H0 : arrays_ok b0) :
  let n := if mode =? 20 then NO_OF_WORDS_20MS else NO_OF_WORDS_30MS in
  let sent := SwapBytes (PackBits b mode) n in
  let '(empty, b') := UnpackBits (SwapBytes sent n) b0 mode in
  empty = 0 /\ fields mode b' = fields mode b.
Proof.
  intros n sent. unfold sent. rewrite SwapBytes_involutive; [|apply pack_zlen; [done|apply Hb]|apply pack_u16].
  unfold UnpackBits. pose proof (pack_last b mode Hm Hb) as Hl. split.
  - rewrite Hl. done.
  - destruct Hm as [-> | ->]; cbn [Z.eqb Pos.eqb]; [by apply unpack_pack_20|by apply unpack_pack_30].
Qed.

(** C22. Every sequence of words is well-formed as a frame: unpacking gives parameters
    each of which has its number of bits, whatever was received, and packing them
    again gives the same words but for the indicator of an empty frame, the last bit.
    The stream has no unused and no ambiguous bits. *)
Theorem Ilbc_unpack_wellformed mode w b0 (Hm : mode = 20 \/ mode = 30) (Hw : words_ok mode w) (H0 : arrays_ok b0) :
  let k := if mode =? 20 then 18%nat else 24%nat in
  let '(empty, b') := UnpackBits w b0 mode in
  bits_ok mode b' /\ PackBits b' mode = take k w ++ [ent w k & 0xFFFE] /\ (empty = 1 <-> Z.odd (ent w k) = true).
Proof.
  intros k. unfold UnpackBits.
  assert (He : (if ent w k & 1 =? 1 then 1 else 0) = 1 <-> Z.odd (ent w k) = true).
  { rewrite (Z.land_ones _ 1) by lia. rewrite Zmod_odd. destruct (Z.odd (ent w k)); done. }
  destruct Hm as [-> | ->]; cbn [Z.eqb Pos.eqb]; subst k; cbn [Z.eqb Pos.eqb] in He.
  - split; [by apply unpack_ok_20|]. split; [by apply pack_unpack_20|exact He].
  - split; [by apply unpack_ok_30|]. split; [by apply pack_unpack_30|exact He].
Qed.

(** ** Witnesses *)

Definition bits0 : iLBC_bits := mkBits (replicate 6 0) (replicate 15 0) (replicate 15 0) 0 0 (replicate 58 0) 0.
Definition bits1 : iLBC_bits :=
  mkBits [63; 127; 5; 0; 0; 0] ([100; 3; 127; 255; 44; 127; 0; 129; 200] ++ replicate 6 0)
    ([31; 8; 7; 16; 9; 2; 30; 1; 5] ++ replicate 6 0) 42 1 (replicate 57 5 ++ [0]) 3.

Lemma arrays_bits0 : arrays_ok bits0.
Proof. repeat split. Qed.

Lemma bits1_ok : bits_ok 20 bits1.
Proof. split; [repeat split|]. vm_compute. repeat constructor; discriminate. Qed.

Example Ilbc_bitstream_roundtrip_witness :
  let sent := SwapBytes (PackBits bits1 20) NO_OF_WORDS_20MS in
  let '(empty, b') := UnpackBits (SwapBytes sent NO_OF_WORDS_20MS) bits0 20 in
  empty = 0 /\ fields 20 b' = fields 20 bits1.
Proof. exact (Ilbc_bitstream_roundtrip 20 bits1 bits0 (or_introl eq_refl) bits1_ok arrays_bits0). Defined.

Lemma words1_ok : words_ok 20 (replicate 18 0xABCD ++ [3]).
Proof. vm_compute. repeat constructor; discriminate. Qed.

Example Ilbc_unpack_wellformed_witness :
  let '(empty, b') := UnpackBits (replicate 18 0xABCD ++ [3]) bits0 20 in
  bits_ok 20 b' /\ PackBits b' 20 = replicate 18 0xABCD ++ [2] /\ (empty = 1 <-> Z.odd 3 = true).
Proof.
  exact (Ilbc_unpack_wellformed 20 (replicate 18 0xABCD ++ [3]) bits0 (or_introl eq_refl) words1_ok arrays_bits0).
Defined.
