(* ===== verification/IlbcLsf.v ===== *)
(** The synthesis filter of the iLBC decoder ([codecs/ilbc/]): line spectral
    frequencies from their indexes, and linear prediction coefficients from these:
    [simple_lsf_dequant.c], [lsf_check.c], [interpolate.c], [lsf_to_lsp.c],
    [get_lsp_poly.c], [lsf_to_poly.c], [bw_expand.c], [lsf_interpolate_to_poly_dec.c],
    [decoder_interpolate_lsf.c]. *)
From S2P Require Import Prelude SplMath SplFilt IlbcTables.

Definition LPC_FILTERORDER : Z := 10.
Definition LSF_NSPLIT : Z := 3.

(** The values of [f] at 0, 1, ..., [n - 1]. *)
Definition each (n : Z) (f : Z -> option Z) : option (list Z) :=
  for_loop (Z.to_nat n) 0 (fun i out => x ← f i; Some (out ++ [x])) [].

(** ** [simple_lsf_dequant.c] *)

(** One frame; the indexes begin at entry [first]. *)
Definition lsf_frame (index : list Z) (first : Z) : option (list Z) :=
  r ← for_loop (Z.to_nat LSF_NSPLIT) 0 (fun i st =>
        let '(lsfdeq, cb_pos) := st in
        dim ← aget kLsfDimCb i;
        size ← aget kLsfSizeCb i;
        idx ← aget index (first + i);
        part ← each dim (fun j => aget kLsfCb (cb_pos + mul_16_16 idx dim + j));
        Some (lsfdeq ++ part, cb_pos + mul_16_16 size dim)) ([], 0);
  Some r.1.

Definition SimpleLsfDeQ (lsfdeq index : list Z) (lpc_n : Z) : option (list Z) :=
  a ← lsf_frame index 0;
  lsfdeq ← astore lsfdeq 0 a;
  if 1 <? lpc_n then
    b ← lsf_frame index LSF_NSPLIT;
    astore lsfdeq LPC_FILTERORDER b
  else Some lsfdeq.

(** ** [lsf_check.c] *)

(** One pair and the limits. *)
Definition lsf_check_at (pos : Z) (st : list Z * Z) : option (list Z * Z) :=
  let '(lsf, change) := st in
  x ← aget lsf pos;
  y ← aget lsf (pos + 1);
  st ← (if y - x <? 319 then
          if y <? x then
            let y' := s16 (x + 160) in
            lsf ← aset lsf (pos + 1) y';
            lsf ← aset lsf pos (s16 (y' - 160));
            Some (lsf, 1)
          else
            lsf ← aset lsf pos (s16 (x - 160));
            lsf ← aset lsf (pos + 1) (s16 (y + 160));
            Some (lsf, 1)
        else Some (lsf, change));
  let '(lsf, change) := st in
  x ← aget lsf pos;
  st ← (if x <? 82 then lsf ← aset lsf pos 82; Some (lsf, 1) else Some (lsf, change));
  let '(lsf, change) := st in
  x ← aget lsf pos;
  if 25723 <? x then lsf ← aset lsf pos 25723; Some (lsf, 1) else Some (lsf, change).

Definition LsfCheck (lsf : list Z) (dim NoAn : Z) : option (list Z * Z) :=
  for_loop 2 0 (fun n st =>
    for_loop (Z.to_nat NoAn) 0 (fun m st =>
      for_loop (Z.to_nat (dim - 1)) 0 (fun k st => lsf_check_at (m * dim + k) st) st) st) (lsf, 0).

(** ** [interpolate.c] *)

Definition Interpolate (in1 in2 : list Z) (coef length : Z) : option (list Z) :=
  let invcoef := s16 (16384 - coef) in
  each length (fun i =>
    x ← aget in1 i;
    y ← aget in2 i;
    Some (s16 (Z.shiftr (s32 (mul_16_16 coef x + mul_16_16 invcoef y + 8192)) 14))).

(** ** [lsf_to_lsp.c] *)

Definition Lsf2Lsp (lsf : list Z) (m : Z) : option (list Z) :=
  each m (fun i =>
    x ← aget lsf i;
    let freq := s16 (Z.shiftr (mul_16_16 x 20861) 15) in
    let k := s16 (Z.shiftr freq 8) in
    let diff := Z.land freq 0x00ff in
    let k := if 63 <? k then 63 else k in
    d ← aget kCosDerivative k;
    c ← aget kCos k;
    Some (s16 (c + s16 (Z.shiftr (mul_16_16 d diff) 12)))).

(** ** [get_lsp_poly.c] *)

(** The product of a 32-bit number and a line spectral pair. *)
Definition lsp_product (f l : Z) : Z :=
  let high := s16 (Z.shiftr f 16) in
  let low := s16 (Z.shiftr (s32 (f - s32 (Z.shiftl high 16))) 1) in
  s32 (s32 (Z.shiftl (mul_16_16 high l) 2) + s32 (Z.shiftl (Z.shiftr (mul_16_16 low l) 15) 2)).

(** The line spectral pairs begin at entry [q]; six coefficients. *)
Definition GetLspPoly (lsp : list Z) (q : Z) : option (list Z) :=
  l0 ← aget lsp q;
  for_loop 4 2 (fun i f =>
    l ← aget lsp (q + 2 * (i - 1));
    x ← aget f (i - 2);
    let f := f ++ [x] in
    f ← for_loop (Z.to_nat (i - 1)) 0 (fun t f =>
          let p := i - t in
          x ← aget f p;
          y ← aget f (p - 1);
          z ← aget f (p - 2);
          aset f p (s32 (s32 (x + z) - lsp_product y l))) f;
    x ← aget f 1;
    aset f 1 (s32 (x - s32 (Z.shiftl l 10)))) [16777216; s32 (l0 * -1024)].

(** ** [lsf_to_poly.c] *)

Definition poly_sums (f : list Z) (sign : Z) : option (list Z) :=
  for_loop 5 0 (fun t f =>
    let p := 5 - t in
    x ← aget f p;
    y ← aget f (p - 1);
    aset f p (s32 (x + sign * y))) f.

Definition Lsf2Poly (lsf : list Z) : option (list Z) :=
  lsp ← Lsf2Lsp lsf LPC_FILTERORDER;
  f1 ← GetLspPoly lsp 0;
  f2 ← GetLspPoly lsp 1;
  f1 ← poly_sums f1 1;
  f2 ← poly_sums f2 (-1);
  a ← each 5 (fun i => x ← aget f1 (i + 1); y ← aget f2 (i + 1); Some (s16 (Z.shiftr (s32 (s32 (x + y) + 4096)) 13)));
  b ← each 5 (fun i => x ← aget f1 (i + 1); y ← aget f2 (i + 1); Some (s16 (Z.shiftr (s32 (s32 (x - y) + 4096)) 13)));
  Some (4096 :: a ++ rev b).

(** ** [bw_expand.c], [lsf_interpolate_to_poly_dec.c], [decoder_interpolate_lsf.c] *)

Definition BwExpand (inp coef : list Z) (length : Z) : option (list Z) :=
  x0 ← aget inp 0;
  r ← each (length - 1) (fun i =>
        c ← aget coef (i + 1);
        x ← aget inp (i + 1);
        Some (s16 (Z.shiftr (s32 (mul_16_16 c x + 16384)) 15)));
  Some (x0 :: r).

Definition LspInterpolate2PolyDec (lsf1 lsf2 : list Z) (coef length : Z) : option (list Z) :=
  lsftmp ← Interpolate lsf1 lsf2 coef length;
  Lsf2Poly lsftmp.

(** One subframe: its filters are stored at entry [pos]. *)
Definition interpolate_subframe (lsf1 lsf2 : list Z) (weight length pos : Z) (st : list Z * list Z)
    : option (list Z * list Z) :=
  let '(syntdenum, weightdenum) := st in
  lp ← LspInterpolate2PolyDec lsf1 lsf2 weight length;
  syntdenum ← astore syntdenum pos lp;
  w ← BwExpand lp kLpcChirpSyntDenum (length + 1);
  weightdenum ← astore weightdenum pos w;
  Some (syntdenum, weightdenum).

(** The filters of the subframes and the frequencies for the next frame. *)
Definition DecoderInterpolateLsp (syntdenum weightdenum lsfdeq lsfdeqold : list Z) (length mode nsub : Z)
    : option (list Z * list Z * list Z) :=
  let lp_length := length + 1 in
  let lsfdeq2 := drop (Z.to_nat length) lsfdeq in
  if mode =? 30 then
    w ← aget kLsfWeight30ms 0;
    st ← interpolate_subframe lsfdeqold lsfdeq w length 0 (syntdenum, weightdenum);
    st ← for_loop 5 1 (fun i st =>
           w ← aget kLsfWeight30ms i;
           interpolate_subframe lsfdeq lsfdeq2 w length (lp_length * i) st) st;
    old ← aload lsfdeq2 0 length;
    Some (st, old)
  else
    st ← for_loop (Z.to_nat nsub) 0 (fun i st =>
           w ← aget kLsfWeight20ms i;
           interpolate_subframe lsfdeqold lsfdeq w length (lp_length * i) st) (syntdenum, weightdenum);
    old ← aload lsfdeq 0 length;
    Some (st, old).
