(* ===== verification/IlbcDec.v ===== *)
(** The state of the iLBC decoder ([codecs/ilbc/defines.h], [init_decode.c]). *)
From S2P Require Import Prelude IlbcBits IlbcTables IlbcLsf.

Definition BLOCKL_20MS : Z := 160.
Definition BLOCKL_30MS : Z := 240.
Definition BLOCKL_MAX : Z := 240.
Definition NSUB_20MS : Z := 4.
Definition NSUB_30MS : Z := 6.
Definition NSUB_MAX : Z := 6.
Definition NASUB_20MS : Z := 2.
Definition NASUB_30MS : Z := 4.
Definition LPC_N_20MS : Z := 1.
Definition LPC_N_30MS : Z := 2.
Definition NO_OF_BYTES_20MS : Z := 38.
Definition NO_OF_BYTES_30MS : Z := 50.
Definition ENH_NBLOCKS_TOT : Z := 8.
Definition ENH_BUFL : Z := 640.
Definition ENH_BUFL_FILTEROVERHEAD : Z := 3.


Record iLBC_Dec_Inst_t := mkDec {
  d_mode : Z;
  d_blockl : Z;
  d_nsub : Z;
  d_nasub : Z;
  d_no_of_bytes : Z;
  d_no_of_words : Z;
  d_lpc_n : Z;
  d_state_short_len : Z;
  d_syntMem : list Z;
  d_lsfdeqold : list Z;
  d_last_lag : Z;
  d_consPLICount : Z;
  d_prev_enh_pl : Z;
  d_perSquare : Z;
  d_prevScale : Z;
  d_prevPLI : Z;
  d_prevLag : Z;
  d_prevLpc : list Z;
  d_prevResidual : list Z;
  d_seed : Z;
  d_old_syntdenum : list Z;
  d_hpimemx : list Z;
  d_hpimemy : list Z;
  d_use_enhancer : Z;
  d_enh_buf : list Z;
  d_enh_period : list Z;
}.

#[export] Instance eta_dec : Eta iLBC_Dec_Inst_t := fun r =>
  mkDec (d_mode r) (d_blockl r) (d_nsub r) (d_nasub r) (d_no_of_bytes r) (d_no_of_words r) (d_lpc_n r) (d_state_short_len r)
    (d_syntMem r) (d_lsfdeqold r) (d_last_lag r) (d_consPLICount r) (d_prev_enh_pl r) (d_perSquare r) (d_prevScale r)
    (d_prevPLI r) (d_prevLag r) (d_prevLpc r) (d_prevResidual r) (d_seed r) (d_old_syntdenum r) (d_hpimemx r)
    (d_hpimemy r) (d_use_enhancer r) (d_enh_buf r) (d_enh_period r).

(** ** [init_decode.c] *)

(** The variables that depend on the frame size. *)
Definition frame_size (mode : Z) (d : iLBC_Dec_Inst_t) : option iLBC_Dec_Inst_t :=
  if mode =? 30 then
    Some (d <| d_blockl := BLOCKL_30MS |> <| d_nsub := NSUB_30MS |> <| d_nasub := NASUB_30MS |> <| d_lpc_n := LPC_N_30MS |>
      <| d_no_of_bytes := NO_OF_BYTES_30MS |> <| d_no_of_words := NO_OF_WORDS_30MS |>
      <| d_state_short_len := STATE_SHORT_LEN_30MS |>)
  else if mode =? 20 then
    Some (d <| d_blockl := BLOCKL_20MS |> <| d_nsub := NSUB_20MS |> <| d_nasub := NASUB_20MS |> <| d_lpc_n := LPC_N_20MS |>
      <| d_no_of_bytes := NO_OF_BYTES_20MS |> <| d_no_of_words := NO_OF_WORDS_20MS |>
      <| d_state_short_len := STATE_SHORT_LEN_20MS |>)
  else None.

(** Every buffer is cleared as a whole; [prevScale] keeps its value. *)
Definition InitDecode (d : iLBC_Dec_Inst_t) (mode use_enhancer : Z) : Z * iLBC_Dec_Inst_t :=
  let d := d <| d_mode := mode |> in
  match frame_size mode d with
  | None => (-1, d)
  | Some d =>
      let zeros n := replicate (Z.to_nat n) 0 in
      let d := d <| d_lsfdeqold := kLsfMean |> <| d_syntMem := zeros LPC_FILTERORDER |>
                 <| d_old_syntdenum := concat (replicate (Z.to_nat NSUB_MAX) (4096 :: zeros LPC_FILTERORDER)) |>
                 <| d_last_lag := 20 |> <| d_consPLICount := 0 |> <| d_prevPLI := 0 |> <| d_perSquare := 0 |>
                 <| d_prevLag := 120 |> <| d_prevLpc := 4096 :: zeros LPC_FILTERORDER |>
                 <| d_prevResidual := zeros BLOCKL_MAX |> <| d_seed := 777 |>
                 <| d_hpimemx := zeros 2 |> <| d_hpimemy := zeros 4 |> <| d_use_enhancer := use_enhancer |>
                 <| d_enh_buf := zeros (ENH_BUFL + ENH_BUFL_FILTEROVERHEAD) |>
                 <| d_enh_period := replicate (Z.to_nat ENH_NBLOCKS_TOT) 160 |> <| d_prev_enh_pl := 0 |> in
      (d_blockl d, d)
  end.

(** ** The invariant *)

(** An array of [n] samples. *)
Definition array (n : Z) (l : list Z) : Prop := zlen l = n /\ Forall in_s16 l.

(** The sizes that belong to a frame length. *)
Definition frame_params (mode : Z) (d : iLBC_Dec_Inst_t) : Prop :=
  (mode = 20 /\ d_blockl d = 160 /\ d_nsub d = 4 /\ d_nasub d = 2 /\ d_lpc_n d = 1 /\ (d_no_of_words d = 19 /\ d_no_of_bytes d = 38) /\
     d_state_short_len d = 57) \/
  (mode = 30 /\ d_blockl d = 240 /\ d_nsub d = 6 /\ d_nasub d = 4 /\ d_lpc_n d = 2 /\ (d_no_of_words d = 25 /\ d_no_of_bytes d = 50) /\
     d_state_short_len d = 58).

Record dec_ok (mode : Z) (d : iLBC_Dec_Inst_t) : Prop := mkDecOk {
  ok_mode : d_mode d = mode;
  ok_params : frame_params mode d;
  ok_syntMem : array 10 (d_syntMem d);
  ok_lsf : zlen (d_lsfdeqold d) = 10 /\ Forall (fun x => 0 <= x < 32768) (d_lsfdeqold d);
  ok_last_lag : 19 <= d_last_lag d <= 119;
  ok_prevLag : 16 <= d_prevLag d <= 122;
  ok_prevScale : d_prevPLI d = 1 -> 0 <= d_prevScale d <= 7;
  ok_perSquare : in_s16 (d_perSquare d);
  ok_prevLpc : array 11 (d_prevLpc d);
  ok_prevResidual : array 240 (d_prevResidual d);
  ok_old_syntdenum : array 66 (d_old_syntdenum d);
  ok_hpimemx : array 2 (d_hpimemx d);
  ok_hpimemy : array 4 (d_hpimemy d);
  ok_enh_buf : array 643 (d_enh_buf d);
  ok_enh_period : zlen (d_enh_period d) = 8 /\ Forall (fun x => 80 <= x <= 480) (d_enh_period d);
}.

Lemma array_zeros n : 0 <= n -> array n (replicate (Z.to_nat n) 0).
Proof. intros. split; [rewrite zlen_replicate; lia|]. apply Forall_replicate. unfold in_s16. lia. Qed.

(** [InitDecode] makes an instance usable whatever it held, for the two frame lengths. *)
Lemma InitDecode_ok d mode e : mode = 20 \/ mode = 30 ->
  exists d', InitDecode d mode e = (8 * mode, d') /\ dec_ok mode d'.
Proof.
  intros [-> | ->]; unfold InitDecode; cbn [frame_size Z.eqb Pos.eqb]; eexists; (split; [reflexivity|]); split; cbn;
    try (split; [reflexivity|repeat constructor; unfold in_s16; lia]); try done; try (unfold in_s16; lia).
  all: unfold frame_params; cbn; tauto.
Qed.
