(* ===== verification/IlbcExc.v ===== *)
(** The excitation of the iLBC decoder ([codecs/ilbc/]): [gain_dequant.c],
    [create_augmented_vec.c], [get_cd_vec.c], [cb_construct.c], [state_construct.c],
    [decode_residual.c], with the vector operations they use.  A pointer is a
    position in the array it points into; the negative positions and the
    positions beyond the end are outside of it. *)
From S2P Require Import Prelude SplMath SplFilt IlbcBits IlbcTables IlbcLsf IlbcDec.

Definition SUBL : Z := 40.
Definition STATE_LEN : Z := 80.
Definition CB_NSTAGES : Z := 3.
Definition CB_MEML : Z := 147.
Definition CB_FILTERLEN : Z := 8.
Definition CB_HALFFILTERLEN : Z := 4.
Definition ST_MEM_L_TBL : Z := 85.
Definition MEM_LF_TBL : Z := 147.

(** ** Vector operations of the signal processing library *)

(** [WebRtcSpl_MemSetW16]. *)
Definition MemSetW16 (ptr : list Z) (p set_value length : Z) : option (list Z) :=
  astore ptr p (replicate (Z.to_nat length) set_value).

(** [dest] is written downwards from entry [d]. *)
Definition MemCpyReversedOrder (dest : list Z) (d : Z) (source : list Z) (s length : Z) : option (list Z) :=
  for_loop (Z.to_nat length) 0 (fun j dest => x ← aget source (s + j); aset dest (d - j) x) dest.

(** The next three answer the entries to be written. *)
Definition ReverseOrderMultArrayElements (inp : list Z) (p : Z) (win : list Z) (w vector_length right_shifts : Z)
    : option (list Z) :=
  each vector_length (fun i => x ← aget inp (p + i); y ← aget win (w - i); Some (s16 (Z.shiftr (mul_16_16 x y) right_shifts))).

Definition ElementwiseVectorMult (inp : list Z) (p : Z) (win : list Z) (w vector_length right_shifts : Z) : option (list Z) :=
  each vector_length (fun i => x ← aget inp (p + i); y ← aget win (w + i); Some (s16 (Z.shiftr (mul_16_16 x y) right_shifts))).

Definition AddVectorsAndShift (in1 : list Z) (p1 : Z) (in2 : list Z) (p2 vector_length right_shifts : Z) : option (list Z) :=
  each vector_length (fun i => x ← aget in1 (p1 + i); y ← aget in2 (p2 + i); Some (s16 (Z.shiftr (x + y) right_shifts))).

(** ** [gain_dequant.c] *)

(** [WEBRTC_SPL_ABS_W16], stored in 16 bits. *)
Definition abs_w16 (a : Z) : Z := s16 (if 0 <=? a then a else - a).

Definition GainDequant (index maxIn stage : Z) : option Z :=
  let scale := Z.max 1638 (abs_w16 maxIn) in
  gain ← aget kGain stage;
  g ← aget gain index;
  Some (s16 (Z.shiftr (mul_16_16 scale g + 8192) 14)).

(** ** [create_augmented_vec.c] *)

(** [buffer] is entry [b] of [buf]. *)
Definition CreateAugmentedVec (index : Z) (buf : list Z) (b : Z) (cbVec : list Z) : option (list Z) :=
  let ilow := s16 (index - 4) in
  cbVec ← memmove cbVec 0 buf (b - index) index;
  v ← ElementwiseVectorMult buf (b - index - 4) kAlpha 0 4 15;
  cbVec ← astore cbVec ilow v;
  cbVecTmp ← ReverseOrderMultArrayElements buf (b - 4) kAlpha 3 4 15;
  v ← AddVectorsAndShift cbVec ilow cbVecTmp 0 4 0;
  cbVec ← astore cbVec ilow v;
  memmove cbVec index buf (b - index) (SUBL - index).

(** ** [get_cd_vec.c] *)

(** [mem] is entry [m] of [memVec]; [tempbuff2] is what the local array of this name
    holds at first.  The vector, and the memory, which the filters clear at its ends. *)
Definition GetCbVec (cbvec memVec tempbuff2 : list Z) (m index lMem cbveclen : Z) : option (list Z * list Z) :=
  let base_size := s16 (lMem - cbveclen + 1) in
  let base_size := if cbveclen =? SUBL then s16 (base_size + Z.shiftr cbveclen 1) else base_size in
  if index <? lMem - cbveclen + 1 then
    let k := s16 (index + cbveclen) in
    cbvec ← memmove cbvec 0 memVec (m + lMem - k) cbveclen;
    Some (cbvec, memVec)
  else if index <? base_size then
    let k := s16 (s16 (mul_16_16 2 (index - (lMem - cbveclen + 1))) + cbveclen) in
    let lag := Z.shiftr k 1 in
    cbvec ← CreateAugmentedVec lag memVec (m + lMem) cbvec;
    Some (cbvec, memVec)
  else if index - base_size <? lMem - cbveclen + 1 then
    let memIndTest := s16 (lMem - (index - base_size + cbveclen)) in
    memVec ← MemSetW16 memVec (m - CB_HALFFILTERLEN) 0 CB_HALFFILTERLEN;
    memVec ← MemSetW16 memVec (m + lMem) 0 CB_HALFFILTERLEN;
    v ← FilterMAFastQ12 memVec (m + memIndTest + 4) kCbFiltersRev cbveclen;
    cbvec ← astore cbvec 0 v;
    Some (cbvec, memVec)
  else
    let memIndTest := s16 (lMem - cbveclen - CB_FILTERLEN) in
    memVec ← MemSetW16 memVec (m + lMem) 0 CB_HALFFILTERLEN;
    v ← FilterMAFastQ12 memVec (m + memIndTest + 7) kCbFiltersRev (cbveclen + 5);
    tempbuff2 ← astore tempbuff2 0 v;
    let lag := s16 (Z.shiftl cbveclen 1 - 20 + index - base_size - lMem - 1) in
    cbvec ← CreateAugmentedVec lag tempbuff2 (SUBL + 5) cbvec;
    Some (cbvec, memVec).

(** ** [cb_construct.c] *)

(** What the local arrays of one call hold at first: [cbvec0], [cbvec1], [cbvec2], and
    [tempbuff2] in the three calls of [GetCbVec]. *)
Record Locals := mkLocals { lc_cbvec : Z -> list Z; lc_tempbuff2 : Z -> list Z }.

(** The decoded vector, to be stored, and the memory.  [index] and [gain_index] begin
    at entry [c] of [cb_index] and [gain_index]. *)
Definition CbConstruct (lc : Locals) (cb_index gain_index : list Z) (c : Z) (memVec : list Z) (m lMem veclen : Z)
    : option (list Z * list Z) :=
  g0 ← aget gain_index c; gain0 ← GainDequant g0 16384 0;
  g1 ← aget gain_index (c + 1); gain1 ← GainDequant g1 gain0 1;
  g2 ← aget gain_index (c + 2); gain2 ← GainDequant g2 gain1 2;
  i0 ← aget cb_index c;
  r ← GetCbVec (lc_cbvec lc 0) memVec (lc_tempbuff2 lc 0) m i0 lMem veclen;
  let '(cbvec0, memVec) := r in
  i1 ← aget cb_index (c + 1);
  r ← GetCbVec (lc_cbvec lc 1) memVec (lc_tempbuff2 lc 1) m i1 lMem veclen;
  let '(cbvec1, memVec) := r in
  i2 ← aget cb_index (c + 2);
  r ← GetCbVec (lc_cbvec lc 2) memVec (lc_tempbuff2 lc 2) m i2 lMem veclen;
  let '(cbvec2, memVec) := r in
  decvector ← each veclen (fun j =>
    x0 ← aget cbvec0 j;
    x1 ← aget cbvec1 j;
    x2 ← aget cbvec2 j;
    let a32 := mul_16_16 gain0 x0 in
    let a32 := s32 (a32 + mul_16_16 gain1 x1) in
    let a32 := s32 (a32 + mul_16_16 gain2 x2) in
    Some (s16 (Z.shiftr (s32 (a32 + 8192)) 14)));
  Some (decvector, memVec).

(** ** [state_construct.c] *)

Definition quant_shift (idxForMax : Z) : Z := if idxForMax <? 37 then 22 else if idxForMax <? 59 then 19 else 17.
Definition quant_round (idxForMax : Z) : Z := if idxForMax <? 37 then 2097152 else if idxForMax <? 59 then 262144 else 65536.

(** The vector to be stored.  [sampleVal] and [sampleAr] are the same memory. *)
Definition StateConstruct (idxForMax : Z) (idxVec syntDenum : list Z) (s len : Z) : option (list Z) :=
  numerator ← each (LPC_FILTERORDER + 1) (fun k => aget syntDenum (s + LPC_FILTERORDER - k));
  maxVal ← aget kFrgQuantMod idxForMax;
  sampleVal ← each len (fun k =>
    i ← aget idxVec (len - 1 - k);
    q ← aget kStateSq3 i;
    Some (s16 (Z.shiftr (mul_16_16 maxVal q + quant_round idxForMax) (quant_shift idxForMax))));
  let zeros n := replicate (Z.to_nat n) 0 in
  let sampleValVec := zeros LPC_FILTERORDER ++ sampleVal ++ zeros len in
  ma ← FilterMAFastQ12 sampleValVec LPC_FILTERORDER numerator (len + LPC_FILTERORDER);
  let sampleMa := ma ++ zeros (len - LPC_FILTERORDER) in
  coefficients ← aload syntDenum s (LPC_FILTERORDER + 1);
  ar ← FilterARFastQ12 sampleMa sampleValVec LPC_FILTERORDER coefficients (2 * len);
  each len (fun k =>
    x ← aget ar (LPC_FILTERORDER + (len - 1 - k));
    y ← aget ar (LPC_FILTERORDER + (2 * len - 1 - k));
    Some (s16 (x + y))).

(** ** [decode_residual.c] *)

(** What the local arrays of the calls hold at first: one of [CbConstruct] per vector. *)
Definition Calls : Type := Z -> Locals.

(** [mem] is entry [CB_HALFFILTERLEN] of [prevResidual], [reverseDecresidual] is
    [enh_buf]. *)
Definition mem : Z := CB_HALFFILTERLEN.

(** The start state: its scalar part and the adaptive part behind or before it. *)
Definition decode_start (lc : Locals) (d : iLBC_Dec_Inst_t) (b : iLBC_bits) (decresidual syntdenum : list Z)
    : option (iLBC_Dec_Inst_t * list Z) :=
  let len := d_state_short_len d in
  let diff := s16 (STATE_LEN - len) in
  let start_pos := s16 (if ib_state_first b =? 1 then (ib_startIdx b - 1) * SUBL else (ib_startIdx b - 1) * SUBL + diff) in
  v ← StateConstruct (ib_idxForMax b) (ib_idxVec b) syntdenum ((ib_startIdx b - 1) * (LPC_FILTERORDER + 1)) len;
  decresidual ← astore decresidual start_pos v;
  if negb (ib_state_first b =? 0) then
    memVec ← MemSetW16 (d_prevResidual d) mem 0 (s16 (CB_MEML - len));
    memVec ← memmove memVec (mem + CB_MEML - len) decresidual start_pos len;
    r ← CbConstruct lc (ib_cb_index b) (ib_gain_index b) 0 memVec (mem + CB_MEML - ST_MEM_L_TBL) ST_MEM_L_TBL diff;
    let '(v, memVec) := r in
    decresidual ← astore decresidual (start_pos + len) v;
    Some (d <| d_prevResidual := memVec |>, decresidual)
  else
    let meml_gotten := len in
    memVec ← MemCpyReversedOrder (d_prevResidual d) (mem + CB_MEML - 1) decresidual start_pos meml_gotten;
    memVec ← MemSetW16 memVec mem 0 (s16 (CB_MEML - meml_gotten));
    r ← CbConstruct lc (ib_cb_index b) (ib_gain_index b) 0 memVec (mem + CB_MEML - ST_MEM_L_TBL) ST_MEM_L_TBL diff;
    let '(v, memVec) := r in
    reverseDecresidual ← astore (d_enh_buf d) 0 v;
    decresidual ← MemCpyReversedOrder decresidual (start_pos - 1) reverseDecresidual 0 diff;
    Some (d <| d_prevResidual := memVec |> <| d_enh_buf := reverseDecresidual |>, decresidual).

(** One subframe: constructed, stored at entry [p] of [out], shifted into the memory. *)
Definition decode_subframe (lc : Locals) (b : iLBC_bits) (subcount : Z) (memVec out : list Z) (p : Z)
    : option (list Z * list Z) :=
  r ← CbConstruct lc (ib_cb_index b) (ib_gain_index b) (subcount * CB_NSTAGES) memVec mem MEM_LF_TBL SUBL;
  let '(v, memVec) := r in
  out ← astore out p v;
  memVec ← memmove memVec mem memVec (mem + SUBL) (CB_MEML - SUBL);
  memVec ← memmove memVec (mem + CB_MEML - SUBL) out p SUBL;
  Some (memVec, out).

(** Forward prediction; also the next subframe to be counted. *)
Definition decode_forward (lc : Calls) (d : iLBC_Dec_Inst_t) (b : iLBC_bits) (decresidual : list Z)
    : option (Z * iLBC_Dec_Inst_t * list Z) :=
  let startIdx := ib_startIdx b in
  let subcount := 1 in
  let Nfor := s16 (d_nsub d - startIdx - 1) in
  if 0 <? Nfor then
    memVec ← MemSetW16 (d_prevResidual d) mem 0 (CB_MEML - STATE_LEN);
    memVec ← memmove memVec (mem + CB_MEML - STATE_LEN) decresidual ((startIdx - 1) * SUBL) STATE_LEN;
    r ← for_loop (Z.to_nat Nfor) 0 (fun subframe st =>
          let '(memVec, decresidual) := st in
          decode_subframe (lc (subcount + subframe)) b (subcount + subframe) memVec decresidual
            ((startIdx + 1 + subframe) * SUBL)) (memVec, decresidual);
    let '(memVec, decresidual) := r in
    Some (subcount + Nfor, d <| d_prevResidual := memVec |>, decresidual)
  else Some (subcount, d, decresidual).

(** Backward prediction. *)
Definition decode_backward (lc : Calls) (d : iLBC_Dec_Inst_t) (b : iLBC_bits) (subcount : Z) (decresidual : list Z)
    : option (iLBC_Dec_Inst_t * list Z) :=
  let startIdx := ib_startIdx b in
  let Nback := s16 (startIdx - 1) in
  if 0 <? Nback then
    let meml_gotten := s16 (SUBL * (d_nsub d + 1 - startIdx)) in
    let meml_gotten := if CB_MEML <? meml_gotten then CB_MEML else meml_gotten in
    memVec ← MemCpyReversedOrder (d_prevResidual d) (mem + CB_MEML - 1) decresidual ((startIdx - 1) * SUBL) meml_gotten;
    memVec ← MemSetW16 memVec mem 0 (s16 (CB_MEML - meml_gotten));
    r ← for_loop (Z.to_nat Nback) 0 (fun subframe st =>
          let '(memVec, reverseDecresidual) := st in
          decode_subframe (lc (subcount + subframe)) b (subcount + subframe) memVec reverseDecresidual (subframe * SUBL))
        (memVec, d_enh_buf d);
    let '(memVec, reverseDecresidual) := r in
    decresidual ← MemCpyReversedOrder decresidual (SUBL * Nback - 1) reverseDecresidual 0 (SUBL * Nback);
    Some (d <| d_prevResidual := memVec |> <| d_enh_buf := reverseDecresidual |>, decresidual)
  else Some (d, decresidual).

Definition DecodeResidual (lc : Calls) (d : iLBC_Dec_Inst_t) (b : iLBC_bits) (decresidual syntdenum : list Z)
    : option (iLBC_Dec_Inst_t * list Z) :=
  r ← decode_start (lc 0) d b decresidual syntdenum;
  let '(d, decresidual) := r in
  r ← decode_forward lc d b decresidual;
  let '(subcount, d, decresidual) := r in
  decode_backward lc d b subcount decresidual.
