(* ===== verification/IlbcExcInv.v ===== *)
(** The excitation of the iLBC decoder: every vector that it computes is a function of
    the parameters and the state alone.  Arrays that the code leaves uninitialised at
    first are described by the part that is known. *)
From S2P Require Import Prelude SplMath SplFilt IlbcBits IlbcTables IlbcLsf IlbcDec IlbcExc.

(** ** Arrays of which a part is known *)

(** [K] from entry [lo] on, else [J]. *)
Definition known (lo : Z) (K J : list Z) : list Z :=
  take (Z.to_nat lo) J ++ K ++ drop (Z.to_nat (lo + zlen K)) J.

Lemma known_nil lo J : 0 <= lo -> known lo [] J = J.
Proof. intros. unfold known. cbn [app]. rewrite Z.add_0_r. apply take_drop. Qed.

Lemma zlen_known lo K J : 0 <= lo -> lo + zlen K <= zlen J -> zlen (known lo K J) = zlen J.
Proof. intros. unfold known, zlen in *. rewrite !length_app, length_take, length_drop. lia. Qed.

Lemma aget_known_any lo K J j : 0 <= lo -> lo + zlen K <= zlen J -> 0 <= j < zlen J ->
  aget (known lo K J) j = if decide (lo <= j < lo + zlen K) then aget K (j - lo) else aget J j.
Proof.
  intros Hlo Hl Hj. unfold known. pose proof (zlen_nonneg K). case_decide.
  - replace j with (zlen (take (Z.to_nat lo) J) + (j - lo)) at 1 by (rewrite take_z_zlen; lia).
    rewrite aget_app_r by lia. apply aget_app_l. lia.
  - rewrite !aget_lookup by lia. unfold zlen in *. destruct (decide (j < lo)).
    + rewrite lookup_app_l by (rewrite length_take; lia). by rewrite lookup_take_lt by lia.
    + rewrite lookup_app_r by (rewrite length_take; lia). rewrite length_take, lookup_app_r by lia.
      rewrite lookup_drop. f_equal. lia.
Qed.

Lemma aget_known lo K J i : 0 <= lo -> lo + zlen K <= zlen J -> lo <= i < lo + zlen K -> aget (known lo K J) i = aget K (i - lo).
Proof. intros. rewrite aget_known_any by lia. case_decide; [done|lia]. Qed.

(** The entries of a patched array. *)
Lemma aget_patch (K v : list Z) i j : 0 <= i <= zlen K -> 0 <= j < Z.max (zlen K) (i + zlen v) ->
  aget (take (Z.to_nat i) K ++ v ++ drop (Z.to_nat (i + zlen v)) K) j =
    if decide (i <= j < i + zlen v) then aget v (j - i) else aget K j.
Proof.
  intros Hi Hj. pose proof (zlen_nonneg v). rewrite !aget_lookup by lia. unfold zlen in *. destruct (decide (j < i)).
  - case_decide; [lia|]. rewrite lookup_app_l by (rewrite length_take; lia). by rewrite lookup_take_lt, aget_lookup by lia.
  - rewrite lookup_app_r by (rewrite length_take; lia). rewrite length_take. case_decide.
    + rewrite lookup_app_l, aget_lookup by lia. f_equal. lia.
    + rewrite lookup_app_r, lookup_drop, aget_lookup by lia. f_equal. lia.
Qed.

Lemma zlen_patch (K v : list Z) i : 0 <= i <= zlen K ->
  zlen (take (Z.to_nat i) K ++ v ++ drop (Z.to_nat (i + zlen v)) K) = Z.max (zlen K) (i + zlen v).
Proof. intros. unfold zlen in *. rewrite !length_app, length_take, length_drop. lia. Qed.

Lemma block_known lo K J i n : 0 <= lo -> lo + zlen K <= zlen J -> lo <= i -> 0 <= n -> i + n <= lo + zlen K ->
  block (known lo K J) i n = block K (i - lo) n.
Proof.
  intros Hlo Hl Hi Hn Hin. apply list_eq_aget; [by rewrite !zlen_block by (rewrite ?zlen_known; lia)|].
  rewrite zlen_block by (rewrite ?zlen_known; lia). intros k Hk.
  assert (H : forall (l : list Z) a, 0 <= a -> aget (block l a n) k = aget l (a + k)).
  { intros l a Ha. pose proof (aget_block l a n (Z.to_nat k) Ha ltac:(lia)) as E. rewrite Z2Nat.id in E by lia.
    rewrite E. apply aget_lookup. lia. }
  rewrite !H, aget_known by lia. f_equal. lia.
Qed.

(** A store inside of the known part or right behind it. *)
Lemma astore_known lo K J i v : 0 <= lo -> lo <= i <= lo + zlen K -> lo + zlen K <= zlen J -> i + zlen v <= zlen J ->
  astore (known lo K J) i v = Some (known lo (take (Z.to_nat (i - lo)) K ++ v ++ drop (Z.to_nat (i - lo + zlen v)) K) J).
Proof.
  intros Hlo Hi HK Hv. destruct (astore_in (known lo K J) v i) as (l & E & El); [lia|rewrite zlen_known; lia|].
  pose proof (zlen_nonneg v). pose proof (zlen_nonneg K). rewrite zlen_known in El by lia.
  pose proof (zlen_patch K v (i - lo) ltac:(lia)) as Hl. rewrite E. f_equal.
  apply list_eq_aget; [by rewrite El, zlen_known by lia|]. intros j Hj. rewrite (aget_astore _ _ _ _ j E).
  rewrite !aget_known_any by lia. rewrite Hl. destruct (decide (lo <= j < lo + Z.max (zlen K) (i - lo + zlen v))).
  - rewrite aget_patch by lia. repeat case_decide; try lia; [f_equal; lia|done..].
  - repeat case_decide; done || lia.
Qed.

Lemma astore_behind lo K J v : 0 <= lo -> lo + zlen K + zlen v <= zlen J ->
  astore (known lo K J) (lo + zlen K) v = Some (known lo (K ++ v) J).
Proof.
  intros Hlo Hl. pose proof (zlen_nonneg v). pose proof (zlen_nonneg K). rewrite astore_known by lia.
  replace (lo + zlen K - lo) with (zlen K) by lia.
  by rewrite (take_ge K), (drop_ge K), app_nil_r by (unfold zlen in *; lia).
Qed.

Lemma memmove_known lo K J i src s n : 0 <= lo -> lo + zlen K <= zlen J -> lo <= i <= lo + zlen K -> i + n <= zlen J ->
  0 <= s -> 0 <= n -> s + n <= zlen src ->
  memmove (known lo K J) i src s n =
    Some (known lo (take (Z.to_nat (i - lo)) K ++ block src s n ++ drop (Z.to_nat (i - lo + n)) K) J).
Proof.
  intros. unfold memmove. rewrite aload_in by lia. cbn [mbind option_bind]. fold (block src s n).
  rewrite astore_known; rewrite ?zlen_block; try lia. done.
Qed.

Lemma aset_front lo K J x : 1 <= lo -> lo + zlen K <= zlen J ->
  aset (known lo K J) (lo - 1) x = Some (known (lo - 1) (x :: K) J).
Proof.
  intros Hlo HK. pose proof (zlen_nonneg K). assert (zlen (x :: K) = zlen K + 1) as Hc by (unfold zlen; cbn; lia).
  rewrite aset_in by (rewrite zlen_known; lia). f_equal. apply list_eq_aget; [by rewrite zlen_insert, !zlen_known by lia|].
  intros j Hj. rewrite zlen_insert, zlen_known in Hj by lia. rewrite aget_insert by (rewrite zlen_known; lia).
  rewrite !aget_known_any by lia. rewrite Hc. repeat case_decide; try done; try lia.
  - replace (j - (lo - 1)) with 0 by lia. done.
  - rewrite aget_cons by lia. f_equal. lia.
Qed.

Lemma block_snoc (l : list Z) s n x : 0 <= s -> 0 <= n -> aget l (s + n) = Some x -> block l s (n + 1) = block l s n ++ [x].
Proof.
  intros Hs Hn E. unfold block. rewrite Z2Nat.inj_add by lia. change (Z.to_nat 1) with 1%nat. rewrite Nat.add_1_r.
  apply take_S_r. rewrite lookup_drop. rewrite aget_lookup in E by lia. rewrite <-E. f_equal. lia.
Qed.

(** Entries written downwards in front of the known part. *)
Lemma reversed_known lo K J src s n : 0 <= s -> 0 <= n -> s + n <= zlen src -> n <= lo -> lo + zlen K <= zlen J ->
  MemCpyReversedOrder (known lo K J) (lo - 1) src s n = Some (known (lo - n) (rev (block src s n) ++ K) J).
Proof.
  intros Hs Hn Hsrc Hlo HK. unfold MemCpyReversedOrder.
  match goal with |- for_loop ?k ?i ?f ?a = _ => destruct (for_loop_inv (fun j dest =>
    dest = known (lo - j) (rev (block src s j) ++ K) J) f k i a) as (d & E & H) end.
  - rewrite Z.sub_0_r. unfold block. by rewrite take_0.
  - intros j dest Hj ->. destruct (aget_in src (s + j)) as [x Ex]; [lia|]. rewrite (bind_eq _ _ _ Ex).
    replace (lo - 1 - j) with (lo - j - 1) by lia. rewrite aset_front.
    + eexists. split; [reflexivity|]. rewrite (block_snoc _ _ _ x) by (lia || done). rewrite rev_app_distr. cbn [rev app].
      f_equal. lia.
    + lia.
    + rewrite zlen_app. unfold zlen at 1. rewrite length_rev. fold (zlen (block src s j)). rewrite zlen_block by lia. lia.
  - rewrite E, H, Z2Nat.id by lia. by rewrite Z.add_0_l.
Qed.

(** ** Vectors *)

Lemma each_ok (P : Z -> Prop) n f : 0 <= n -> (forall i, 0 <= i < n -> exists x, f i = Some x /\ P x) ->
  exists l, each n f = Some l /\ zlen l = n /\ Forall P l.
Proof. intros Hn Hf. destruct (append_loop P f n Hn Hf) as (l & E & Hl & HP & _). by exists l. Qed.

Lemma each_s16 n g : 0 <= n -> (forall i, 0 <= i < n -> exists x, g i = Some (s16 x)) ->
  exists l, each n g = Some l /\ zlen l = n /\ Forall in_s16 l.
Proof. intros Hn Hg. apply each_ok; [done|]. intros i Hi. destruct (Hg i Hi) as [x E]. exists (s16 x). split; [done|apply s16_range]. Qed.

Lemma each_ext n f g : (forall i, 0 <= i < n -> f i = g i) -> each n f = each n g.
Proof. intros H. unfold each. apply for_loop_ext. intros i out Hi. by rewrite H by lia. Qed.

(** One entry of the result of a vector operation. *)
Ltac entries := repeat match goal with
  | |- context [aget ?l ?i] => let x := fresh "x" in let E := fresh "E" in
      destruct (aget_in l i) as [x E]; [lia|rewrite (bind_eq _ _ _ E)]
  end; by eexists.

Lemma mult_ok inp p n shift w : 0 <= p -> p + 4 <= zlen inp -> n = 4 -> 0 <= w -> w + 4 <= 4 ->
  exists v, ElementwiseVectorMult inp p kAlpha w n shift = Some v /\ zlen v = 4 /\ Forall in_s16 v.
Proof.
  intros Hp Hl -> Hw Hw'. assert (zlen kAlpha = 4) as Hk by reflexivity. apply each_s16; [done|]. intros i Hi. entries.
Qed.

Lemma reverse_mult_ok inp p shift : 0 <= p -> p + 4 <= zlen inp ->
  exists v, ReverseOrderMultArrayElements inp p kAlpha 3 4 shift = Some v /\ zlen v = 4 /\ Forall in_s16 v.
Proof.
  intros Hp Hl. assert (zlen kAlpha = 4) as Hk by reflexivity. apply each_s16; [done|]. intros i Hi. entries.
Qed.

Lemma add_ok in1 p1 in2 p2 n shift : 0 <= n -> 0 <= p1 -> p1 + n <= zlen in1 -> 0 <= p2 -> p2 + n <= zlen in2 ->
  exists v, AddVectorsAndShift in1 p1 in2 p2 n shift = Some v /\ zlen v = n /\ Forall in_s16 v.
Proof. intros Hn Hp1 H1 Hp2 H2. apply each_s16; [done|]. intros i Hi. entries. Qed.

Lemma add_known lo K J p1 in2 p2 n shift : 0 <= lo -> lo + zlen K <= zlen J -> lo <= p1 -> p1 + n <= lo + zlen K ->
  AddVectorsAndShift (known lo K J) p1 in2 p2 n shift = AddVectorsAndShift K (p1 - lo) in2 p2 n shift.
Proof. intros. apply each_ext. intros i Hi. rewrite aget_known by lia. by replace (p1 + i - lo) with (p1 - lo + i) by lia. Qed.

Lemma GainDequant_ok index maxIn stage gain : aget kGain stage = Some gain -> 0 <= index < zlen gain ->
  exists g, GainDequant index maxIn stage = Some g.
Proof.
  intros Eg Hi. unfold GainDequant. rewrite (bind_eq _ _ _ Eg). entries.
Qed.

(** The augmented vector: 40 new entries, for every lag from 20 to 40. *)
Lemma CreateAugmentedVec_ok lag buf b : 20 <= lag <= 40 -> lag + 4 <= b <= zlen buf -> Forall in_s16 buf ->
  exists v, zlen v = 40 /\ Forall in_s16 v /\ forall cbVec, zlen cbVec = 40 -> CreateAugmentedVec lag buf b cbVec = Some v.
Proof.
  intros Hlag Hb Hs. destruct (mult_ok buf (b - lag - 4) 4 15 0) as (v1 & E1 & L1 & S1); [lia..|].
  destruct (reverse_mult_ok buf (b - 4) 15) as (t & Et & Lt & _); [lia..|].
  set (u := block buf (b - lag) lag). assert (zlen u = lag) as Lu by (apply zlen_block; lia).
  set (K1 := take (Z.to_nat (lag - 4)) u ++ v1 ++ drop (Z.to_nat (lag - 4 + zlen v1)) u).
  assert (zlen K1 = lag) as LK1 by (unfold K1; rewrite zlen_patch by lia; lia).
  destruct (add_ok K1 (lag - 4) t 0 4 0) as (v2 & E2 & L2 & S2); [lia..|].
  set (K2 := take (Z.to_nat (lag - 4)) K1 ++ v2 ++ drop (Z.to_nat (lag - 4 + zlen v2)) K1).
  assert (zlen K2 = lag) as LK2 by (unfold K2; rewrite zlen_patch by lia; lia).
  exists (K2 ++ block buf (b - lag) (40 - lag)). split; [rewrite zlen_app, zlen_block by lia; lia|]. split.
  { apply Forall_app. split; [|by apply block_s16]. unfold K2, K1.
    repeat (apply Forall_app; split); try done; try apply Forall_take; try apply Forall_drop.
    all: repeat (apply Forall_app; split); try done; try apply Forall_take; try apply Forall_drop; by apply block_s16. }
  intros cbVec Hc. unfold CreateAugmentedVec, SUBL. rewrite (s16_id (lag - 4)) by (unfold in_s16; lia).
  rewrite <-(known_nil 0 cbVec) by done. rewrite memmove_known by (try change (zlen []) with 0; lia).
  cbn [mbind option_bind]. change (take (Z.to_nat (0 - 0)) []) with (@nil Z). rewrite drop_nil, app_nil_r. cbn [app].
  fold u. rewrite (bind_eq _ _ _ E1). rewrite astore_known by lia. rewrite Z.sub_0_r. fold K1. cbn [mbind option_bind].
  rewrite (bind_eq _ _ _ Et). rewrite add_known, Z.sub_0_r by lia. rewrite (bind_eq _ _ _ E2). rewrite astore_known by lia.
  rewrite Z.sub_0_r. fold K2. cbn [mbind option_bind]. rewrite memmove_known by lia.
  rewrite Z.sub_0_r, (take_ge K2), (drop_ge K2), app_nil_r by (unfold zlen in *; lia). f_equal. unfold known.
  change (take (Z.to_nat 0) cbVec) with (@nil Z). cbn [app]. rewrite drop_ge, app_nil_r; [done|].
  rewrite zlen_app, zlen_block by lia. unfold zlen in *. lia.
Qed.

(** A shorter lag reads beyond the end of the memory. *)
Lemma CreateAugmentedVec_short lag buf cbVec : lag < 20 -> CreateAugmentedVec lag buf (zlen buf) cbVec = None.
Proof.
  intros Hlag. unfold CreateAugmentedVec. cbv zeta.
  repeat match goal with |- ?m ≫= _ = None => destruct m; [cbn [mbind option_bind]|done] end.
  unfold memmove, aload, SUBL, zlen. destruct (Z.leb_spec (Z.of_nat (length buf) - lag + (40 - lag)) (Z.of_nat (length buf))); [lia|].
  by rewrite andb_false_r.
Qed.

(** ** Codebook vectors *)

Lemma zeros_s16 n : Forall in_s16 (replicate n 0).
Proof. apply Forall_replicate. unfold in_s16. lia. Qed.

Lemma astore_s16 l i v l' : astore l i v = Some l' -> Forall in_s16 l -> Forall in_s16 v -> zlen l' = zlen l /\ Forall in_s16 l'.
Proof.
  intros E Hl Hv. split; [by eapply astore_length|]. apply astore_Some in E as (_ & _ & ->).
  repeat (apply Forall_app; split); [by apply Forall_take|done|by apply Forall_drop].
Qed.

Lemma MemSet_ok l p n : 0 <= p -> 0 <= n -> p + n <= zlen l -> Forall in_s16 l ->
  exists l', MemSetW16 l p 0 n = Some l' /\ zlen l' = zlen l /\ Forall in_s16 l'.
Proof.
  intros Hp Hn Hl Hs. destruct (astore_in l (replicate (Z.to_nat n) 0) p) as (l' & E & _); [done|rewrite zlen_replicate; lia|].
  exists l'. split; [done|]. eapply astore_s16; [done..|apply zeros_s16].
Qed.

Lemma known_full K J : zlen K = zlen J -> known 0 K J = K.
Proof. intros H. unfold known. rewrite drop_ge by (unfold zlen in *; lia). by rewrite app_nil_r. Qed.

Lemma astore_at lo J v : 0 <= lo -> lo + zlen v <= zlen J -> astore J lo v = Some (known lo v J).
Proof.
  intros Hlo H. pose proof (zlen_nonneg v). rewrite <-(known_nil lo J) at 1 by lia.
  rewrite (astore_known lo [] J lo v) by (change (zlen []) with 0; lia). rewrite Z.sub_diag. cbn [Z.to_nat take app].
  by rewrite drop_nil, app_nil_r.
Qed.

Lemma astore_first J v : zlen v <= zlen J -> astore J 0 v = Some (known 0 v J).
Proof. intros H. by apply astore_at. Qed.

Lemma memmove_first J src s n : 0 <= s -> 0 <= n -> s + n <= zlen src -> n <= zlen J ->
  memmove J 0 src s n = Some (known 0 (block src s n) J).
Proof.
  intros. unfold memmove. rewrite aload_in by lia. cbn [mbind option_bind]. fold (block src s n).
  apply astore_first. by rewrite zlen_block.
Qed.

Lemma CbFilters_length : zlen kCbFiltersRev = 8.
Proof. reflexivity. Qed.

(** The codebooks: 85 samples of memory for the 22 or 23 samples beside the start
    state, 147 for subframes of 40. *)
Definition book (lMem n index : Z) : Prop :=
  lMem = 85 /\ (n = 22 \/ n = 23) /\ 0 <= index < 2 * (86 - n) \/ lMem = 147 /\ n = 40 /\ 0 <= index < 256.

Lemma GetCbVec_ok memVec m index lMem n : book lMem n index -> 4 <= m -> m + lMem + 4 <= zlen memVec -> Forall in_s16 memVec ->
  exists v mem', zlen v = n /\ Forall in_s16 v /\ zlen mem' = zlen memVec /\ Forall in_s16 mem' /\
    forall cbvec tb, zlen cbvec = 40 -> zlen tb = 45 -> GetCbVec cbvec memVec tb m index lMem n = Some (known 0 v cbvec, mem').
Proof.
  intros Hb Hm Hl Hs. unfold GetCbVec, SUBL, CB_HALFFILTERLEN, CB_FILTERLEN. cbv zeta. pose proof CbFilters_length as Hf.
  set (B := if n =? 40 then s16 (s16 (lMem - n + 1) + Z.shiftr n 1) else s16 (lMem - n + 1)).
  assert (HB : B = if n =? 40 then 128 else 86 - n).
  { unfold B. destruct Hb as [(-> & [-> | ->] & _)|(-> & -> & _)]; done. }
  destruct (Z.ltb_spec index (lMem - n + 1)); [|destruct (Z.ltb_spec index B); [|destruct (Z.ltb_spec (index - B) (lMem - n + 1))]].
  - exists (block memVec (m + lMem - (index + n)) n), memVec. unfold book in Hb.
    rewrite zlen_block by lia. repeat split; try done; [by apply block_s16|]. intros cbvec tb Hc _.
    rewrite s16_id by (unfold in_s16; lia). by rewrite memmove_first by lia.
  - assert (lMem = 147 /\ n = 40) as [-> ->] by (unfold book in Hb; destruct (Z.eqb_spec n 40); lia).
    change (if 40 =? 40 then 128 else 86 - 40) with 128 in HB. rewrite HB in *.
    destruct (CreateAugmentedVec_ok (index - 88) memVec (m + 147)) as (v & Lv & Sv & E); [lia..|done|].
    exists v, memVec. repeat split; try done. intros cbvec tb Hc _.
    replace (Z.shiftr _ 1) with (index - 88).
    + rewrite E by done. cbn [mbind option_bind]. by rewrite known_full by lia.
    + unfold mul_16_16. rewrite (s16_id 2), (s16_id (index - (147 - 40 + 1))), (s16_id (2 * _)), (s16_id (_ + 40)) by (unfold in_s16; lia).
      rewrite Z.shiftr_div_pow2 by lia. Z.to_euclidean_division_equations; lia.
  - assert (0 < lMem /\ 0 <= index - B) as [Hpos Hpos'] by (unfold book in Hb; lia).
    destruct (MemSet_ok memVec (m - 4) 4) as (m1 & E1 & L1 & S1); [lia..|done|].
    destruct (MemSet_ok m1 (m + lMem) 4) as (m2 & E2 & L2 & S2); [lia..|done|].
    assert (s16 (lMem - (index - B + n)) = lMem - (index - B + n)) as Hx by (apply s16_id; unfold in_s16, book in *; lia). rewrite Hx.
    destruct (FilterMAFastQ12_safe m2 (m + (lMem - (index - B + n)) + 4) kCbFiltersRev n) as (v & Ev & Lv & Sv);
      [unfold book in *; lia..|].
    exists v, m2. repeat split; try done; [lia|]. intros cbvec tb Hc _.
    rewrite (bind_eq _ _ _ E1), (bind_eq _ _ _ E2), (bind_eq _ _ _ Ev). by rewrite astore_first by (unfold book in *; lia).
  - assert (lMem = 147 /\ n = 40) as [-> ->] by (unfold book in Hb; destruct (Z.eqb_spec n 40); lia).
    change (if 40 =? 40 then 128 else 86 - 40) with 128 in HB. rewrite HB in *.
    destruct (MemSet_ok memVec (m + 147) 4) as (m1 & E1 & L1 & S1); [lia..|done|].
    destruct (FilterMAFastQ12_safe m1 (m + s16 (147 - 40 - 8) + 7) kCbFiltersRev (40 + 5)) as (t & Et & Lt & St);
      [rewrite ?s16_id by (unfold in_s16; lia); lia..|].
    destruct (CreateAugmentedVec_ok (index - 216) t (40 + 5)) as (v & Lv & Sv & E); [unfold book in Hb; lia..|done|].
    exists v, m1. repeat split; try done. intros cbvec tb Hc Htb.
    rewrite (bind_eq _ _ _ E1), (bind_eq _ _ _ Et), astore_first by lia. cbn [mbind option_bind].
    rewrite known_full by lia. replace (s16 _) with (index - 216).
    + rewrite E by done. cbn [mbind option_bind]. by rewrite known_full by lia.
    + change (Z.shiftl 40 1) with 80. rewrite s16_id by (unfold in_s16, book in *; lia). lia.
Qed.

(** At 20 ms the last two entries of the codebook of the start state are not usable. *)
Lemma GetCbVec_overrun memVec m index cbvec tb : 126 <= index < 128 -> 0 <= m -> m + 89 <= zlen memVec -> zlen tb = 45 ->
  GetCbVec cbvec memVec tb m index 85 23 = None.
Proof.
  intros Hi Hm Hl Ht. unfold GetCbVec. cbv zeta. change (if 23 =? SUBL then _ else _) with 63.
  destruct (Z.ltb_spec index (85 - 23 + 1)); [lia|]. destruct (Z.ltb_spec index 63); [lia|].
  destruct (Z.ltb_spec (index - 63) (85 - 23 + 1)); [lia|].
  destruct (MemSetW16 memVec (m + 85) 0 CB_HALFFILTERLEN) as [m1|]; [|done]. cbn [mbind option_bind].
  destruct (FilterMAFastQ12 m1 _ kCbFiltersRev (23 + 5)) as [v|]; [|done]. cbn [mbind option_bind].
  destruct (astore tb 0 v) as [t|] eqn:E; [|done]. cbn [mbind option_bind].
  replace (SUBL + 5) with (zlen t) by (rewrite (astore_length _ _ _ _ E), Ht; done). rewrite CreateAugmentedVec_short; [done|].
  change (Z.shiftl 23 1) with 46. rewrite s16_id by (unfold in_s16; lia). lia.
Qed.

(** The local arrays have their lengths, nothing else is known of them. *)
Definition locals_ok (lc : Locals) : Prop := forall k, zlen (lc_cbvec lc k) = 40 /\ zlen (lc_tempbuff2 lc k) = 45.

(** Three codebook indexes and three gains from entry [c] on. *)
Definition stages_ok (cb gain : list Z) (c lMem n : Z) : Prop :=
  (forall k, 0 <= k < 3 -> exists i, aget cb (c + k) = Some i /\ book lMem n i) /\
  (forall k, 0 <= k < 3 -> exists g, aget gain (c + k) = Some g /\ 0 <= g < 2 ^ (5 - k)).

Lemma gain_sizes : zlen kGainSq5 = 33 /\ zlen kGainSq4 = 17 /\ zlen kGainSq3 = 9.
Proof. done. Qed.

Lemma CbConstruct_ok cb gain c memVec m lMem n : stages_ok cb gain c lMem n ->
  4 <= m -> m + lMem + 4 <= zlen memVec -> Forall in_s16 memVec ->
  exists v mem', zlen v = n /\ Forall in_s16 v /\ zlen mem' = zlen memVec /\ Forall in_s16 mem' /\
    forall lc, locals_ok lc -> CbConstruct lc cb gain c memVec m lMem n = Some (v, mem').
Proof.
  intros [Hcb Hgain] Hm Hl Hs. pose proof gain_sizes as (Z5 & Z4 & Z3).
  destruct (Hgain 0) as (g0 & Eg0 & Hg0), (Hgain 1) as (g1 & Eg1 & Hg1), (Hgain 2) as (g2 & Eg2 & Hg2); [lia..|].
  destruct (GainDequant_ok g0 16384 0 kGainSq5) as [a0 Ea0]; [done|lia|].
  destruct (GainDequant_ok g1 a0 1 kGainSq4) as [a1 Ea1]; [done|lia|].
  destruct (GainDequant_ok g2 a1 2 kGainSq3) as [a2 Ea2]; [done|lia|].
  destruct (Hcb 0) as (i0 & Ei0 & B0), (Hcb 1) as (i1 & Ei1 & B1), (Hcb 2) as (i2 & Ei2 & B2); [lia..|].
  destruct (GetCbVec_ok memVec m i0 lMem n) as (v0 & m1 & Lv0 & Sv0 & L1 & S1 & E0); [done..|].
  destruct (GetCbVec_ok m1 m i1 lMem n) as (v1 & m2 & Lv1 & Sv1 & L2 & S2 & E1); [done|done|lia|done|].
  destruct (GetCbVec_ok m2 m i2 lMem n) as (v2 & m3 & Lv2 & Sv2 & L3 & S3 & E2); [done|done|lia|done|].
  assert (0 <= n <= 40) as Hn by (unfold book in B0; lia).
  set (sum := fun j => x0 ← aget v0 j; x1 ← aget v1 j; x2 ← aget v2 j;
    Some (s16 (Z.shiftr (s32 (s32 (s32 (mul_16_16 a0 x0 + mul_16_16 a1 x1) + mul_16_16 a2 x2) + 8192)) 14))).
  destruct (each_s16 n sum) as (v & Ev & Lv & Sv); [lia|unfold sum; intros j Hj; entries|].
  exists v, m3. repeat split; try done; [lia|]. intros lc Hlc. unfold CbConstruct.
  rewrite Z.add_0_r in Eg0, Ei0.
  rewrite (bind_eq _ _ _ Eg0), (bind_eq _ _ _ Ea0), (bind_eq _ _ _ Eg1), (bind_eq _ _ _ Ea1), (bind_eq _ _ _ Eg2), (bind_eq _ _ _ Ea2).
  rewrite (bind_eq _ _ _ Ei0), (bind_eq _ _ _ (E0 _ _ (proj1 (Hlc 0)) (proj2 (Hlc 0)))).
  rewrite (bind_eq _ _ _ Ei1), (bind_eq _ _ _ (E1 _ _ (proj1 (Hlc 1)) (proj2 (Hlc 1)))).
  rewrite (bind_eq _ _ _ Ei2), (bind_eq _ _ _ (E2 _ _ (proj1 (Hlc 2)) (proj2 (Hlc 2)))). cbv zeta.
  rewrite (each_ext n _ sum), (bind_eq _ _ _ Ev); [done|]. intros j Hj. unfold sum.
  by rewrite !aget_known, !Z.sub_0_r by (rewrite ?(proj1 (Hlc _)); lia).
Qed.

(** ** The start state *)

Lemma StateConstruct_ok idxForMax idxVec synt s len :
  0 <= idxForMax < 64 -> (forall k, 0 <= k < len -> exists i, aget idxVec k = Some i /\ 0 <= i < 8) ->
  0 <= s -> s + 11 <= zlen synt -> len = 57 \/ len = 58 ->
  exists v, StateConstruct idxForMax idxVec synt s len = Some v /\ zlen v = len /\ Forall in_s16 v.
Proof.
  intros Hmax Hvec Hs Hsl Hlen. unfold StateConstruct, LPC_FILTERORDER. cbv zeta.
  assert (zlen kFrgQuantMod = 64) as Hq by reflexivity. assert (zlen kStateSq3 = 8) as Hsq by reflexivity.
  destruct (each_ok (fun _ => True) (10 + 1) (fun k => aget synt (s + 10 - k))) as (num & En & Ln & _); [lia| |].
  { intros i Hi. destruct (aget_in synt (s + 10 - i)) as [x E]; [lia|]. by exists x. }
  rewrite (bind_eq _ _ _ En). destruct (aget_in kFrgQuantMod idxForMax) as [mx Em]; [lia|]. rewrite (bind_eq _ _ _ Em).
  match goal with |- context [each len ?f ≫= _] => destruct (each_s16 len f) as (sv & Es & Lsv & Ssv) end; [lia| |].
  { intros i Hi. destruct (Hvec (len - 1 - i)) as (j & Ej & Hj); [lia|]. rewrite (bind_eq _ _ _ Ej). entries. }
  rewrite (bind_eq _ _ _ Es). set (sampleVal := replicate (Z.to_nat 10) 0 ++ sv ++ replicate (Z.to_nat len) 0).
  assert (zlen sampleVal = 10 + 2 * len) as Lsv' by (unfold sampleVal; rewrite !zlen_app, !zlen_replicate; lia).
  destruct (FilterMAFastQ12_safe sampleVal 10 num (len + 10)) as (ma & Ema & Lma & Sma); [lia..|]. rewrite (bind_eq _ _ _ Ema).
  rewrite aload_in by lia. cbn [mbind option_bind]. fold (block synt s (10 + 1)).
  destruct (FilterARFastQ12_safe (ma ++ replicate (Z.to_nat (len - 10)) 0) sampleVal 10 (block synt s (10 + 1)) (2 * len))
    as (ar & Ear & Lar & Sar); rewrite ?zlen_app, ?zlen_replicate, ?zlen_block by lia; try lia.
  { unfold sampleVal. repeat (apply Forall_app; split); try done; apply zeros_s16. }
  rewrite (bind_eq _ _ _ Ear). apply each_s16; [lia|]. intros i Hi. entries.
Qed.

(** ** Subframes *)

Lemma memmove_ok dst d src s n : 0 <= d -> 0 <= s -> 0 <= n -> s + n <= zlen src -> d + n <= zlen dst ->
  Forall in_s16 dst -> Forall in_s16 src ->
  exists l, memmove dst d src s n = Some l /\ zlen l = zlen dst /\ Forall in_s16 l.
Proof.
  intros Hd Hs Hn Hsrc Hdst Sd Ss. unfold memmove. rewrite aload_in by lia. cbn [mbind option_bind]. fold (block src s n).
  destruct (astore_in dst (block src s n) d) as (l & E & _); [done|rewrite zlen_block; lia|].
  exists l. split; [done|]. eapply astore_s16; [done..|by apply block_s16].
Qed.

Lemma memmove_same dst d src s src' s' n : block src s n = block src' s' n -> 0 <= s -> 0 <= n -> s + n <= zlen src ->
  0 <= s' -> s' + n <= zlen src' -> memmove dst d src s n = memmove dst d src' s' n.
Proof. intros E Hs Hn H Hs' H'. unfold memmove. rewrite !aload_in by lia. unfold block in E. by rewrite E. Qed.

Lemma block_all (v : list Z) n : zlen v = n -> block v 0 n = v.
Proof. intros H. rewrite block_0. apply take_ge. unfold zlen in H. lia. Qed.

Lemma block_behind lo K v J n : 0 <= lo -> zlen v = n -> lo + zlen K + n <= zlen J -> block (known lo (K ++ v) J) (lo + zlen K) n = v.
Proof.
  intros Hlo Hv Hl. pose proof (zlen_nonneg v). pose proof (zlen_nonneg K). rewrite block_known by (rewrite ?zlen_app; lia).
  replace (lo + zlen K - lo) with (zlen K) by lia. unfold block. rewrite drop_app_ge by (unfold zlen; lia).
  replace (Z.to_nat (zlen K) - length K)%nat with 0%nat by (unfold zlen; lia). rewrite drop_0. apply take_ge. unfold zlen in *. lia.
Qed.

Lemma block_whole lo v J n : 0 <= lo -> zlen v = n -> lo + n <= zlen J -> block (known lo v J) lo n = v.
Proof.
  intros Hlo Hv Hl. pose proof (zlen_nonneg v). rewrite block_known by lia. rewrite Z.sub_diag. by apply block_all.
Qed.

Definition calls_ok (lc : Calls) : Prop := forall k, locals_ok (lc k).

Lemma decode_subframe_ok b c memVec : stages_ok (ib_cb_index b) (ib_gain_index b) (c * 3) 147 40 ->
  zlen memVec = 240 -> Forall in_s16 memVec ->
  exists v mem', zlen v = 40 /\ Forall in_s16 v /\ zlen mem' = 240 /\ Forall in_s16 mem' /\
    forall lc lo K J, locals_ok lc -> 0 <= lo -> lo + zlen K + 40 <= zlen J ->
      decode_subframe lc b c memVec (known lo K J) (lo + zlen K) = Some (mem', known lo (K ++ v) J).
Proof.
  intros Hst Hl Hs. unfold decode_subframe, CB_NSTAGES, MEM_LF_TBL, SUBL, CB_MEML, mem, CB_HALFFILTERLEN.
  destruct (CbConstruct_ok _ _ (c * 3) memVec 4 147 40 Hst) as (v & m1 & Lv & Sv & L1 & S1 & E1); [lia..|done|].
  destruct (memmove_ok m1 4 m1 (4 + 40) (147 - 40)) as (m2 & E2 & L2 & S2); [lia..|done|done|].
  destruct (memmove_ok m2 (4 + 147 - 40) v 0 40) as (m3 & E3 & L3 & S3); [lia..|done|done|].
  exists v, m3. repeat split; try done; [lia|]. intros lc lo K J Hlc Hlo HJ. pose proof (zlen_nonneg K).
  rewrite (bind_eq _ _ _ (E1 lc Hlc)), astore_behind by lia. cbn [mbind option_bind]. rewrite (bind_eq _ _ _ E2).
  unfold memmove in E3 |- *. rewrite aload_in in E3 by lia. rewrite aload_in by (rewrite ?zlen_known; rewrite ?zlen_app; lia).
  cbn [mbind option_bind] in E3 |- *. fold (block (known lo (K ++ v) J) (lo + zlen K) 40). rewrite block_behind by lia.
  fold (block v 0 40) in E3. rewrite block_all in E3 by done. by rewrite (bind_eq _ _ _ E3).
Qed.

Lemma subframes_ok b c0 n : forall i memVec,
  (forall j, i <= j < i + Z.of_nat n -> stages_ok (ib_cb_index b) (ib_gain_index b) ((c0 + j) * 3) 147 40) ->
  zlen memVec = 240 -> Forall in_s16 memVec ->
  exists v mem', zlen v = 40 * Z.of_nat n /\ Forall in_s16 v /\ zlen mem' = 240 /\ Forall in_s16 mem' /\
    forall lc p lo K J, calls_ok lc -> 0 <= lo -> lo + zlen K + 40 * Z.of_nat n <= zlen J ->
      (forall j, i <= j < i + Z.of_nat n -> p j = lo + zlen K + 40 * (j - i)) ->
      for_loop n i (fun j st => let '(memVec, out) := st in decode_subframe (lc (c0 + j)) b (c0 + j) memVec out (p j))
        (memVec, known lo K J) = Some (mem', known lo (K ++ v) J).
Proof.
  induction n as [|n IH]; intros i memVec Hst Hl Hs.
  { exists [], memVec. repeat split; try done. intros. cbn [for_loop]. by rewrite app_nil_r. }
  destruct (decode_subframe_ok b (c0 + i) memVec) as (v1 & m1 & Lv1 & Sv1 & L1 & S1 & E1); [apply Hst; lia|done|done|].
  destruct (IH (i + 1) m1) as (v2 & m2 & Lv2 & Sv2 & L2 & S2 & E2); [intros j Hj; apply Hst; lia|done|done|].
  exists (v1 ++ v2), m2. split; [rewrite zlen_app; lia|]. split; [by apply Forall_app|]. split; [done|]. split; [done|].
  intros lc p lo K J Hlc Hlo HJ Hp. cbn [for_loop].
  rewrite (Hp i), Z.sub_diag, Z.mul_0_r, Z.add_0_r by lia. rewrite E1 by (try apply Hlc; lia). cbn [mbind option_bind].
  rewrite E2; [by rewrite app_assoc|done|done|rewrite zlen_app; lia|].
  intros j Hj. rewrite Hp, zlen_app by lia. lia.
Qed.

(** ** Frames *)

Definition state_len (mode : Z) : Z := if mode =? 20 then 57 else 58.
Definition subframes (mode : Z) : Z := if mode =? 20 then 4 else 6.

(** Parameters with which the excitation can be decoded. *)
Record frame_ok (mode : Z) (b : iLBC_bits) : Prop := mkFrameOk {
  fr_mode : mode = 20 \/ mode = 30;
  fr_start : 1 <= ib_startIdx b <= subframes mode - 1;
  fr_max : 0 <= ib_idxForMax b < 64;
  fr_first : ib_state_first b = 0 \/ ib_state_first b = 1;
  fr_vec : forall k, 0 <= k < state_len mode -> exists i, aget (ib_idxVec b) k = Some i /\ 0 <= i < 8;
  fr_sub : forall c, 1 <= c <= subframes mode - 2 -> stages_ok (ib_cb_index b) (ib_gain_index b) (c * 3) 147 40;
}.

(** The vector beside the start state can be constructed. *)
Definition start_ok (mode : Z) (b : iLBC_bits) : Prop := stages_ok (ib_cb_index b) (ib_gain_index b) 0 85 (80 - state_len mode).

Lemma frame_params_cases mode d : frame_params mode d -> d_nsub d = subframes mode /\ d_state_short_len d = state_len mode /\
  d_blockl d = 40 * subframes mode.
Proof. intros [(-> & -> & -> & _ & _ & _ & ->)|(-> & -> & -> & _ & _ & _ & ->)]; done. Qed.

Lemma reversed_ok dest e src s n : 0 <= s -> 0 <= n -> s + n <= zlen src -> n <= e + 1 -> e < zlen dest ->
  Forall in_s16 dest -> Forall in_s16 src ->
  exists l, MemCpyReversedOrder dest e src s n = Some l /\ zlen l = zlen dest /\ Forall in_s16 l.
Proof.
  intros Hs Hn Hsrc He Hd Sd Ss. remember (e + 1) as f eqn:Ef. assert (e = f - 1) as -> by lia.
  rewrite <-(known_nil f dest) by lia.
  rewrite reversed_known by (try change (zlen []) with 0; lia). eexists. split; [reflexivity|].
  rewrite app_nil_r. assert (zlen (rev (block src s n)) = n) as Hr by (unfold zlen; rewrite length_rev; rewrite length_block; lia).
  rewrite !zlen_known by (try change (zlen []) with 0; lia). split; [done|]. unfold known.
  repeat (apply Forall_app; split); [by apply Forall_take| |by apply Forall_drop]. apply Forall_rev. by apply block_s16.
Qed.

Lemma reversed_same dest e src s src' s' n : block src s n = block src' s' n -> 0 <= s -> s + n <= zlen src ->
  0 <= s' -> s' + n <= zlen src' -> MemCpyReversedOrder dest e src s n = MemCpyReversedOrder dest e src' s' n.
Proof.
  intros E Hs H Hs' H'. unfold MemCpyReversedOrder. apply for_loop_ext. intros j b Hj.
  pose proof (aget_block src s n (Z.to_nat j) Hs ltac:(lia)) as G.
  pose proof (aget_block src' s' n (Z.to_nat j) Hs' ltac:(lia)) as G'.
  rewrite E, <-G' in G. rewrite Z2Nat.id in G by lia. by rewrite G.
Qed.

Lemma drop_astore (l v l' : list Z) n : astore l 0 v = Some l' -> zlen v <= n -> drop (Z.to_nat n) l' = drop (Z.to_nat n) l.
Proof.
  intros (_ & _ & ->)%astore_Some Hn. change (Z.to_nat 0) with 0%nat. cbn [take app Nat.add]. unfold zlen in Hn.
  rewrite take_0. cbn [app]. rewrite drop_app_ge by lia. rewrite drop_drop. f_equal. lia.
Qed.

Section frame.
Context (mode : Z) (d : iLBC_Dec_Inst_t) (b : iLBC_bits).
Hypothesis Hd : dec_ok mode d.
Hypothesis Hb : frame_ok mode b.

(** What is left of the start state when its scalar part [v] is decoded. *)
Definition start_rest (v : list Z) (m2 : list Z) (lc : Locals) (J : list Z) : option (iLBC_Dec_Inst_t * list Z) :=
  let s0 := (ib_startIdx b - 1) * 40 in
  let diff := 80 - state_len mode in
  r ← CbConstruct lc (ib_cb_index b) (ib_gain_index b) 0 m2 66 85 diff;
  let '(w, m3) := r in
  if ib_state_first b =? 0 then
    buf ← astore (d_enh_buf d) 0 w;
    dr ← MemCpyReversedOrder (known (s0 + diff) v J) (s0 + diff - 1) buf 0 diff;
    Some (d <| d_prevResidual := m3 |> <| d_enh_buf := buf |>, dr)
  else
    dr ← astore (known s0 v J) (s0 + state_len mode) w;
    Some (d <| d_prevResidual := m3 |>, dr).

Lemma decode_start_scalar synt : 11 * subframes mode <= zlen synt -> exists v m2, zlen v = state_len mode /\ Forall in_s16 v /\
  zlen m2 = 240 /\ Forall in_s16 m2 /\ forall lc J, zlen J = 240 -> decode_start lc d b J synt = start_rest v m2 lc J.
Proof using Hb Hd.
  intros Hsynt. destruct (ok_prevResidual _ _ Hd) as [Lpr Spr].
  destruct (frame_params_cases _ _ (ok_params _ _ Hd)) as (_ & El & _). destruct Hb as [Hmode Hstart Hmax Hfirst Hvec _].
  assert (state_len mode = 57 \/ state_len mode = 58) as Hlen by (unfold state_len; destruct Hmode as [-> | ->]; cbn; lia).
  assert (subframes mode = 4 \/ subframes mode = 6) as Hsub by (unfold subframes; destruct Hmode as [-> | ->]; cbn; lia).
  unfold decode_start, start_rest, STATE_LEN, SUBL, CB_MEML, ST_MEM_L_TBL, LPC_FILTERORDER, mem, CB_HALFFILTERLEN.
  cbv zeta. rewrite El. set (len := state_len mode) in *. set (diff := 80 - len) in *. set (s0 := (ib_startIdx b - 1) * 40).
  assert (0 <= s0 <= 160) as Hs0 by (unfold s0; lia). rewrite (s16_id diff), (s16_id (147 - len)) by (unfold in_s16; lia).
  destruct (StateConstruct_ok (ib_idxForMax b) (ib_idxVec b) synt ((ib_startIdx b - 1) * 11) len) as (v & Ev & Lv & Sv);
    [done|done|lia|lia|done|]. exists v.
  destruct Hfirst as [E0|E1].
  - rewrite E0. cbn [Z.eqb negb]. rewrite (s16_id (s0 + diff)) by (unfold in_s16; lia).
    destruct (reversed_ok (d_prevResidual d) (4 + 147 - 1) v 0 len) as (m1 & E1 & L1 & S1); [lia..|done|done|].
    destruct (MemSet_ok m1 4 (147 - len)) as (m2 & E2 & L2 & S2); [lia..|done|]. exists m2. repeat split; try done; [lia|].
    intros lc J HJ. rewrite (bind_eq _ _ _ Ev), astore_at by lia. cbn [mbind option_bind].
    rewrite (reversed_same _ _ _ _ v 0) by (rewrite ?zlen_known, ?block_whole, ?block_all by lia; done || lia).
    by rewrite (bind_eq _ _ _ E1), (bind_eq _ _ _ E2).
  - rewrite E1. cbn [Z.eqb Pos.eqb negb]. rewrite (s16_id s0) by (unfold in_s16; lia).
    destruct (MemSet_ok (d_prevResidual d) 4 (147 - len)) as (m1 & Em1 & L1 & S1); [lia..|done|].
    destruct (memmove_ok m1 (4 + 147 - len) v 0 len) as (m2 & E2 & L2 & S2); [lia..|done|done|]. exists m2.
    repeat split; try done; [lia|]. intros lc J HJ. rewrite (bind_eq _ _ _ Ev), astore_at by lia. cbn [mbind option_bind].
    rewrite (bind_eq _ _ _ Em1).
    rewrite (memmove_same _ _ _ _ v 0) by (rewrite ?zlen_known, ?block_whole, ?block_all by lia; done || lia).
    by rewrite (bind_eq _ _ _ E2).
Qed.

(** The start state: 80 samples, from its first subframe on. *)
Lemma decode_start_ok synt : start_ok mode b -> 11 * subframes mode <= zlen synt ->
  exists v pr buf, zlen v = 80 /\ Forall in_s16 v /\ array 240 pr /\ array 643 buf /\
  drop 160 buf = drop 160 (d_enh_buf d) /\
  forall lc J, locals_ok lc -> zlen J = 240 -> decode_start lc d b J synt =
    Some (d <| d_prevResidual := pr |> <| d_enh_buf := buf |>, known ((ib_startIdx b - 1) * 40) v J).
Proof using Hb Hd.
  intros Hst Hsynt. destruct (ok_enh_buf _ _ Hd) as [Lbuf Sbuf].
  destruct (decode_start_scalar synt Hsynt) as (v & m2 & Lv & Sv & L2 & S2 & E). destruct Hb as [Hmode Hstart _ _ _ _].
  assert (state_len mode = 57 \/ state_len mode = 58) as Hlen by (unfold state_len; destruct Hmode as [-> | ->]; cbn; lia).
  assert (subframes mode = 4 \/ subframes mode = 6) as Hsub by (unfold subframes; destruct Hmode as [-> | ->]; cbn; lia).
  destruct (CbConstruct_ok _ _ 0 m2 66 85 (80 - state_len mode) Hst) as (w & m3 & Lw & Sw & L3 & S3 & E3); [lia..|done|].
  unfold start_rest in E. set (s0 := (ib_startIdx b - 1) * 40) in *. set (diff := 80 - state_len mode) in *.
  assert (0 <= s0 <= 160) as Hs0 by (unfold s0; lia). destruct (Z.eqb_spec (ib_state_first b) 0).
  - pose proof (astore_first (d_enh_buf d) w ltac:(lia)) as Eb. set (buf := known 0 w (d_enh_buf d)) in *.
    destruct (astore_s16 _ _ _ _ Eb Sbuf Sw) as [Lb Sb].
    assert (zlen (rev w) = diff) as Lr by (unfold zlen in *; by rewrite length_rev).
    exists (rev w ++ v), m3, buf. split; [rewrite zlen_app; lia|]. split; [apply Forall_app; split; [by apply Forall_rev|done]|].
    split; [split; [lia|done]|]. split; [split; [lia|done]|]. split; [by apply (drop_astore _ w _ 160); [|lia]|].
    intros lc J Hlc HJ. rewrite E by done. cbv zeta. rewrite (bind_eq _ _ _ (E3 lc Hlc)), (bind_eq _ _ _ Eb).
    rewrite reversed_known by lia. cbn [mbind option_bind]. unfold buf at 2.
    rewrite block_whole by lia. replace (s0 + diff - diff) with s0 by lia. by destruct d.
  - exists (v ++ w), m3, (d_enh_buf d). split; [rewrite zlen_app; lia|]. split; [by apply Forall_app|].
    split; [split; [lia|done]|]. split; [done|]. split; [done|].
    intros lc J Hlc HJ. rewrite E by done. cbv zeta. rewrite (bind_eq _ _ _ (E3 lc Hlc)).
    rewrite <-Lv, astore_behind by lia. cbn [mbind option_bind]. by destruct d.
Qed.

(** The subframes behind: all to the end of the frame. *)
Lemma decode_forward_ok K : zlen K = 80 -> Forall in_s16 K ->
  let n := subframes mode - ib_startIdx b - 1 in
  exists v pr, zlen v = 40 * n /\ Forall in_s16 v /\ array 240 pr /\
    forall lc J, calls_ok lc -> zlen J = 240 -> decode_forward lc d b (known ((ib_startIdx b - 1) * 40) K J) =
      Some (1 + n, d <| d_prevResidual := pr |>, known ((ib_startIdx b - 1) * 40) (K ++ v) J).
Proof using Hb Hd.
  intros LK SK n. destruct (ok_prevResidual _ _ Hd) as [Lpr Spr].
  destruct (frame_params_cases _ _ (ok_params _ _ Hd)) as (En & _ & _). destruct Hb as [Hmode Hstart _ _ _ Hst].
  assert (subframes mode = 4 \/ subframes mode = 6) as Hsub by (unfold subframes; destruct Hmode as [-> | ->]; cbn; lia).
  set (s0 := (ib_startIdx b - 1) * 40). unfold decode_forward, STATE_LEN, SUBL, CB_MEML, mem, CB_HALFFILTERLEN. cbv zeta.
  fold s0. rewrite En. rewrite (s16_id (_ - _ - 1)) by (unfold in_s16; lia). fold n. destruct (Z.ltb_spec 0 n) as [Hn|Hn].
  - destruct (MemSet_ok (d_prevResidual d) 4 (147 - 80)) as (m1 & E1 & L1 & S1); [lia..|done|].
    destruct (memmove_ok m1 (4 + 147 - 80) K 0 80) as (m2 & E2 & L2 & S2); [lia..|done|done|].
    destruct (subframes_ok b 1 (Z.to_nat n) 0 m2) as (v & m3 & Lv & Sv & L3 & S3 & E3); [|lia|done|].
    { intros j Hj. apply Hst. lia. }
    exists v, m3. split; [lia|]. split; [done|]. split; [done|]. intros lc J Hlc HJ. rewrite (bind_eq _ _ _ E1).
    rewrite (memmove_same _ _ _ _ K 0) by (rewrite ?zlen_known, ?block_whole, ?block_all by lia; done || lia).
    rewrite (bind_eq _ _ _ E2). rewrite E3; [done|done|lia|lia|]. intros j Hj. lia.
  - exists [], (d_prevResidual d). replace n with 0 by lia. repeat split; try done. intros lc J _ _.
    rewrite app_nil_r. by destruct d.
Qed.

(** The subframes in front, decoded backwards in time. *)
Lemma decode_backward_ok K c : c = subframes mode - ib_startIdx b -> zlen K = 40 * (c + 1) -> Forall in_s16 K ->
  exists v pr buf, zlen v = 40 * subframes mode /\ Forall in_s16 v /\ array 240 pr /\ array 643 buf /\
    drop 160 buf = drop 160 (d_enh_buf d) /\
    forall lc J, calls_ok lc -> zlen J = 240 -> decode_backward lc d b c (known ((ib_startIdx b - 1) * 40) K J) =
      Some (d <| d_prevResidual := pr |> <| d_enh_buf := buf |>, known 0 v J).
Proof using Hb Hd.
  intros Hc LK SK. destruct (ok_prevResidual _ _ Hd) as [Lpr Spr], (ok_enh_buf _ _ Hd) as [Lbuf Sbuf].
  destruct (frame_params_cases _ _ (ok_params _ _ Hd)) as (En & _ & _). destruct Hb as [Hmode Hstart _ _ _ Hst].
  assert (subframes mode = 4 \/ subframes mode = 6) as Hsub by (unfold subframes; destruct Hmode as [-> | ->]; cbn; lia).
  set (n := ib_startIdx b - 1) in *. unfold decode_backward, SUBL, CB_MEML, mem, CB_HALFFILTERLEN. cbv zeta.
  fold n. rewrite En. rewrite (s16_id n), (s16_id (40 * _)) by (unfold in_s16; lia). destruct (Z.ltb_spec 0 n) as [Hn|Hn].
  - set (g := if 147 <? 40 * (subframes mode + 1 - ib_startIdx b) then 147 else 40 * (subframes mode + 1 - ib_startIdx b)).
    assert (0 <= g <= 147 /\ g <= zlen K) as [Hg HgK] by (unfold g; destruct (Z.ltb_spec 147 (40 * (subframes mode + 1 - ib_startIdx b))); lia).
    rewrite (s16_id (147 - g)) by (unfold in_s16; lia).
    destruct (reversed_ok (d_prevResidual d) (4 + 147 - 1) K 0 g) as (m1 & E1 & L1 & S1); [lia..|done|done|].
    destruct (MemSet_ok m1 4 (147 - g)) as (m2 & E2 & L2 & S2); [lia..|done|].
    destruct (subframes_ok b c (Z.to_nat n) 0 m2) as (w & m3 & Lw & Sw & L3 & S3 & E3); [|lia|done|].
    { intros j Hj. apply Hst. lia. }
    pose proof (astore_first (d_enh_buf d) w ltac:(lia)) as Eb. set (buf := known 0 w (d_enh_buf d)) in *.
    destruct (astore_s16 _ _ _ _ Eb Sbuf Sw) as [Lb Sb].
    assert (zlen (rev w) = 40 * n) as Lr by (unfold zlen in *; rewrite length_rev; lia).
    exists (rev w ++ K), m3, buf. split; [rewrite zlen_app; lia|]. split; [apply Forall_app; split; [by apply Forall_rev|done]|].
    split; [done|]. split; [split; [lia|done]|]. split; [by apply (drop_astore _ w _ 160); [|lia]|].
    intros lc J Hlc HJ.
    rewrite (reversed_same _ _ _ _ K 0) by (rewrite ?zlen_known, ?block_known, ?Z.sub_diag by lia; done || lia).
    rewrite (bind_eq _ _ _ E1), (bind_eq _ _ _ E2). rewrite <-(known_nil 0 (d_enh_buf d)) at 1 by done.
    rewrite E3; [|done|done|change (zlen []) with 0; lia|intros j Hj; change (zlen []) with 0; lia].
    cbn [mbind option_bind app]. fold buf. replace (40 * n - 1) with (n * 40 - 1) by lia.
    rewrite reversed_known by lia. cbn [mbind option_bind]. unfold buf at 2. rewrite block_whole by lia.
    by replace (n * 40 - 40 * n) with 0 by lia.
  - exists K, (d_prevResidual d), (d_enh_buf d). split; [lia|]. repeat split; try done. intros lc J _ _.
    replace (n * 40) with 0 by lia. by destruct d.
Qed.
End frame.
