(* ===== verification/IlbcResidual.v ===== *)
(** The excitation of whole frames: which received frames can be decoded, and that the
    result does not depend on uninitialised memory. *)
From S2P Require Import Prelude BitRefl SplMath SplFilt IlbcBits IlbcStream IlbcTables IlbcLsf IlbcDec IlbcExc IlbcExcInv.

(** ** From the bit stream to the parameters *)

Lemma fits_app w1 w2 r1 r2 : length w1 = length r1 -> fits (w1 ++ w2) (r1 ++ r2) -> fits w1 r1 /\ fits w2 r2.
Proof. intros Hl H. unfold fits in *. by apply Forall2_app_inv in H. Qed.

Lemma fits_aget ws r k : fits ws r -> 0 <= k < zlen ws -> exists x, aget r k = Some x /\ 0 <= x < 2 ^ nth (Z.to_nat k) ws 0.
Proof.
  intros H Hk. pose proof (fits_length _ _ H) as Hl. destruct (aget_in r k) as [x E]; [unfold zlen in *; lia|].
  exists x. split; [done|]. pose proof (fits_nth _ _ (Z.to_nat k) H) as [_ Hx]. rewrite aget_lookup in E by lia.
  apply (nth_lookup_Some _ _ 0) in E. by rewrite E in Hx.
Qed.

Definition book_widths (mode : Z) : list Z :=
  [7; 7; 7; 8; 7; 7; 8; 8; 8] ++ (if mode =? 20 then [] else replicate 6 8).
Definition gain_widths (mode : Z) : list Z := concat (replicate (if mode =? 20 then 3%nat else 5%nat) [5; 4; 3]).

Lemma bits_parts mode b : mode = 20 \/ mode = 30 -> bits_ok mode b ->
  let n := if mode =? 20 then 9%nat else 15%nat in
  (0 <= ib_startIdx b /\ 0 <= ib_state_first b < 2 /\ 0 <= ib_idxForMax b < 64) /\
  fits (book_widths mode) (take n (ib_cb_index b)) /\ fits (gain_widths mode) (take n (ib_gain_index b)) /\
  (forall k, 0 <= k < state_len mode -> exists i, aget (ib_idxVec b) k = Some i /\ 0 <= i < 8).
Proof.
  intros Hm [(Hlsf & Hcb & Hgain & Hvec) Hf] n. unfold widths, fields, state_len, n in *.
  assert (Hpar : forall a (l : list Z), fits [a; 1; 6] l -> exists x y z, l = [x; y; z] /\ 0 <= x /\ 0 <= y < 2 /\ 0 <= z < 64).
  { intros a l H. inversion H as [|? x ? l1 Hx H1]; subst. inversion H1 as [|? y ? l2 Hy H2]; subst.
    inversion H2 as [|? z ? l3 Hz H3]; subst. inversion H3; subst. exists x, y, z. split; [done|]. lia. }
  assert (Hv : forall m v, fits (replicate m 3) (take m v) -> forall k, 0 <= k < Z.of_nat m -> exists i, aget v k = Some i /\ 0 <= i < 8).
  { intros m v H k Hk. destruct (fits_aget _ _ k H) as (x & E & Hx); [by rewrite zlen_replicate|].
    rewrite (nth_lookup_Some _ _ _ 3) in Hx by (apply lookup_replicate_2; lia). exists x. split; [|done]. rewrite aget_lookup in E |- * by lia.
    by rewrite lookup_take_lt in E by lia. }
  destruct Hm as [-> | ->]; cbn [Z.eqb Pos.eqb] in *.
  - change [6; 7; 7; 2; 1; 6] with ([6; 7; 7] ++ [2; 1; 6]) in Hf. rewrite <-app_assoc in Hf.
    apply fits_app in Hf as [_ Hf]; [|by rewrite length_take, Hlsf]. apply fits_app in Hf as [Hp Hf]; [|done].
    destruct (Hpar _ _ Hp) as (x & y & z & [= <- <- <-] & Hb).
    apply fits_app in Hf as [Hc Hf]; [|by rewrite length_take, Hcb]. apply fits_app in Hf as [Hg Hf]; [|by rewrite length_take, Hgain].
    split; [done|]. split; [done|]. split; [done|]. exact (Hv 57%nat _ Hf).
  - change [6; 7; 7; 6; 7; 7; 3; 1; 6] with ([6; 7; 7; 6; 7; 7] ++ [3; 1; 6]) in Hf. rewrite <-app_assoc in Hf.
    apply fits_app in Hf as [_ Hf]; [|by rewrite Hlsf]. apply fits_app in Hf as [Hp Hf]; [|done].
    destruct (Hpar _ _ Hp) as (x & y & z & [= <- <- <-] & Hb).
    apply fits_app in Hf as [Hc Hf]; [|by rewrite Hcb]. apply fits_app in Hf as [Hg Hf]; [|by rewrite Hgain].
    rewrite !take_ge by lia. split; [done|]. split; [done|]. split; [done|]. apply (Hv 58%nat). by rewrite take_ge by lia.
Qed.

(** The frame with its codebook indexes adjusted. *)
Definition adjusted (b : iLBC_bits) : iLBC_bits := b <| ib_cb_index := IndexConvDec (ib_cb_index b) |>.

(** The first three codebook indexes are usable. *)
Definition start_indexes (b : iLBC_bits) : Prop := forall k, 0 <= k < 3 -> forall i, aget (ib_cb_index b) k = Some i -> i < 126.

Lemma conv_dec_range x : 0 <= x < 128 -> 0 <= s16 (conv_dec x) < 256.
Proof. intros Hx. unfold conv_dec. repeat case_if; rewrite s16_id by (unfold in_s16; lia); lia. Qed.

Lemma conv_entry cb j x : zlen cb = 15 -> aget cb j = Some x ->
  aget (IndexConvDec cb) j = Some (if (j =? 4) || (j =? 5) then s16 (conv_dec x) else x).
Proof.
  intros Hl E. pose proof (aget_Some_range _ _ _ E) as Hj. unfold IndexConvDec. rewrite aget_lookup in E |- * by lia.
  assert (He : forall i, Z.to_nat j = i -> ent cb i = x) by (intros i <-; by apply nth_lookup_Some).
  unfold zlen in Hl. rewrite !list_lookup_insert, !length_insert. destruct (Z.eqb_spec j 4) as [->|].
  { rewrite decide_False, decide_True by lia. by rewrite He. }
  destruct (Z.eqb_spec j 5) as [->|]; [rewrite decide_True by lia; by rewrite He|]. rewrite E. by repeat (rewrite decide_False by lia).
Qed.

Lemma seqZ_all (f g : Z -> Z) n : forallb (fun j => f j =? g j) (seqZ 0 n) = true -> forall j, 0 <= j < n -> f j = g j.
Proof. intros H j Hj. rewrite forallb_forall in H. apply Z.eqb_eq, H, list_elem_of_In, elem_of_seqZ. lia. Qed.

Lemma book_widths_ok mode : mode = 20 \/ mode = 30 -> forall j, 0 <= j < 3 * (subframes mode - 1) ->
  nth (Z.to_nat j) (book_widths mode) 0 = if (j <? 3) || (j =? 4) || (j =? 5) then 7 else 8.
Proof. intros [-> | ->]; apply seqZ_all; reflexivity. Qed.

Lemma gain_widths_ok mode : mode = 20 \/ mode = 30 -> forall j, 0 <= j < 3 * (subframes mode - 1) ->
  nth (Z.to_nat j) (gain_widths mode) 0 = 5 - j mod 3.
Proof. intros [-> | ->]; apply seqZ_all; reflexivity. Qed.

Lemma aget_take_Some (l : list Z) n j x : aget (take n l) j = Some x -> aget l j = Some x.
Proof.
  intros E. pose proof (aget_Some_range _ _ _ E) as Hj. rewrite aget_lookup in E |- * by lia.
  unfold zlen in Hj. rewrite length_take in Hj. by rewrite lookup_take_lt in E by lia.
Qed.

(** The entries that [CbConstruct] reads. *)
Lemma stage_entries mode b j : mode = 20 \/ mode = 30 -> bits_ok mode b -> 0 <= j < 3 * (subframes mode - 1) ->
  (exists i, aget (IndexConvDec (ib_cb_index b)) j = Some i /\ 0 <= i < 256 /\ (j < 3 -> i < 128 /\ aget (ib_cb_index b) j = Some i)) /\
  (exists g, aget (ib_gain_index b) j = Some g /\ 0 <= g < 2 ^ (5 - j mod 3)).
Proof.
  intros Hm Hb Hj. destruct (bits_parts mode b Hm Hb) as (_ & Hc & Hg & _). destruct Hb as [(_ & Lc & _ & _) _].
  assert (zlen (book_widths mode) = 3 * (subframes mode - 1)) as L1 by (by destruct Hm as [-> | ->]).
  assert (zlen (gain_widths mode) = 3 * (subframes mode - 1)) as L2 by (by destruct Hm as [-> | ->]).
  split.
  - destruct (fits_aget _ _ j Hc) as (x & E & Hx); [lia|]. rewrite book_widths_ok in Hx by done. apply aget_take_Some in E.
    eexists. split; [apply conv_entry; [by unfold zlen; rewrite Lc|done]|].
    destruct (Z.ltb_spec j 3), (Z.eqb_spec j 4), (Z.eqb_spec j 5); cbn [orb] in *; try lia;
      try (pose proof (conv_dec_range x ltac:(lia)); split; lia); (split; [lia|]); intros; try lia; split; [lia|done].
  - destruct (fits_aget _ _ j Hg) as (x & E & Hx); [lia|]. rewrite gain_widths_ok in Hx by done. apply aget_take_Some in E. by exists x.
Qed.

Lemma adjusted_ok mode b : mode = 20 \/ mode = 30 -> bits_ok mode b -> 1 <= ib_startIdx b <= subframes mode - 1 ->
  frame_ok mode (adjusted b) /\ ((mode = 20 -> start_indexes b) -> start_ok mode (adjusted b)).
Proof.
  intros Hm Hb Hs. destruct (bits_parts mode b Hm Hb) as (Hp & _ & _ & Hv).
  assert (Hgain : forall c k, 0 <= c <= subframes mode - 2 -> 0 <= k < 3 -> exists g, aget (ib_gain_index b) (c * 3 + k) = Some g /\ 0 <= g < 2 ^ (5 - k)).
  { intros c k Hc Hk. destruct (stage_entries mode b (c * 3 + k) Hm Hb) as [_ (g & E & Hg)]; [lia|]. exists g. split; [done|].
    by replace ((c * 3 + k) mod 3) with k in Hg by (Z.to_euclidean_division_equations; lia). }
  split.
  - split; try done; try (cbn; lia). cbn [adjusted upd ib_cb_index ib_gain_index].
    intros c Hc. split; [|intros k Hk; apply Hgain; lia]. intros k Hk.
    destruct (stage_entries mode b (c * 3 + k) Hm Hb) as [(i & E & Hi & _) _]; [lia|]. exists i. split; [done|]. right. lia.
  - intros H126. split; cbn [adjusted upd ib_cb_index ib_gain_index]; [|intros k Hk; apply (Hgain 0 k); lia]. intros k Hk.
    destruct (stage_entries mode b k Hm Hb) as [(i & E & Hi & H3) _]; [unfold subframes; destruct Hm as [-> | ->]; cbn; lia|].
    exists i. split; [done|]. left. split; [done|]. destruct (H3 ltac:(lia)) as [Hi' Ei].
    unfold state_len. destruct Hm as [-> | ->]; cbn [Z.eqb Pos.eqb]; split; try lia. pose proof (H126 eq_refl k Hk i Ei). lia.
Qed.

(** ** Whole frames *)

Lemma dec_ok_mem mode d pr buf : dec_ok mode d -> array 240 pr -> array 643 buf ->
  dec_ok mode (d <| d_prevResidual := pr |> <| d_enh_buf := buf |>).
Proof. intros [] Hpr Hbuf. by split. Qed.

(** The excitation of a frame: as many samples as the frame has. *)
Lemma DecodeResidual_ok mode d b synt : dec_ok mode d -> frame_ok mode b -> start_ok mode b -> 11 * subframes mode <= zlen synt ->
  exists v pr buf, zlen v = 40 * subframes mode /\ Forall in_s16 v /\ array 240 pr /\ array 643 buf /\
    drop 160 buf = drop 160 (d_enh_buf d) /\
    forall lc J, calls_ok lc -> zlen J = 240 ->
      DecodeResidual lc d b J synt = Some (d <| d_prevResidual := pr |> <| d_enh_buf := buf |>, known 0 v J).
Proof.
  intros Hd Hb Hst Hs. assert (Hsub : 1 <= ib_startIdx b <= subframes mode - 1) by apply Hb.
  destruct (decode_start_ok mode d b Hd Hb synt Hst Hs) as (K & pr1 & buf1 & LK & SK & Hpr1 & Hbuf1 & D1 & E1).
  pose proof (dec_ok_mem mode d pr1 buf1 Hd Hpr1 Hbuf1) as Hd1.
  destruct (decode_forward_ok mode _ b Hd1 Hb K LK SK) as (V & pr2 & LV & SV & Hpr2 & E2).
  pose proof (dec_ok_mem mode _ pr2 buf1 Hd1 Hpr2 Hbuf1) as Hd2.
  destruct (decode_backward_ok mode _ b Hd2 Hb (K ++ V) (subframes mode - ib_startIdx b)) as (v & pr & buf & Lv & Sv & Hpr & Hbuf & D & E3);
    [done|rewrite zlen_app; lia|by apply Forall_app|].
  exists v, pr, buf. repeat split; try done; [apply Hpr|apply Hpr|apply Hbuf|apply Hbuf|cbn in D; by rewrite D, D1|].
  intros lc J Hlc HJ. unfold DecodeResidual. rewrite E1 by (try apply Hlc; done). cbn [mbind option_bind].
  rewrite E2 by done. cbn [mbind option_bind]. replace (1 + _) with (subframes mode - ib_startIdx b) by lia.
  specialize (E3 lc J Hlc HJ). cbn in E3 |- *. exact E3.
Qed.

(** The codebook indexes of the start state that the 23 samples beside it allow. *)
Definition usable (b : iLBC_bits) : bool := forallb (fun i => i <? 126) (take 3 (ib_cb_index b)).

Lemma usable_entry b k i : 0 <= k < 3 -> aget (ib_cb_index b) k = Some i -> usable b = true -> i < 126.
Proof.
  intros Hk E H. unfold usable in H. rewrite forallb_forall in H. apply Z.ltb_lt, H, list_elem_of_In.
  rewrite aget_lookup in E by lia. apply (list_elem_of_lookup_2 _ (Z.to_nat k)). by rewrite lookup_take_lt by lia.
Qed.

Lemma unusable_entry b : zlen (ib_cb_index b) = 15 -> usable b = false ->
  exists k i, 0 <= k < 3 /\ aget (ib_cb_index b) k = Some i /\ 126 <= i.
Proof.
  intros Hl H. unfold usable in H. destruct (ib_cb_index b) as [|x [|y [|z l]]]; try discriminate Hl. cbn in H.
  destruct (Z.ltb_spec x 126); [destruct (Z.ltb_spec y 126); [destruct (Z.ltb_spec z 126); [done|]|]|].
  - exists 2, z. done.
  - exists 1, y. done.
  - exists 0, x. done.
Qed.

Lemma CbConstruct_overrun lc cb gain memVec : locals_ok lc -> zlen memVec = 240 -> Forall in_s16 memVec ->
  (forall k, 0 <= k < 3 -> exists i, aget cb k = Some i /\ 0 <= i < 128) ->
  (exists k i, 0 <= k < 3 /\ aget cb k = Some i /\ 126 <= i) ->
  CbConstruct lc cb gain 0 memVec 66 85 23 = None.
Proof.
  intros Hlc Hl Hs Hcb (k & i & Hk & Ei & Hi). unfold CbConstruct.
  do 6 (match goal with |- ?m ≫= _ = None => destruct m; [cbn [mbind option_bind]|done] end).
  assert (step : forall j c l m, 0 <= j < 3 -> aget cb j = Some c -> zlen m = 240 -> Forall in_s16 m ->
    GetCbVec (lc_cbvec lc l) m (lc_tempbuff2 lc l) 66 c 85 23 = None \/
    c < 126 /\ exists v m', GetCbVec (lc_cbvec lc l) m (lc_tempbuff2 lc l) 66 c 85 23 = Some (v, m') /\ zlen m' = 240 /\ Forall in_s16 m').
  { intros j c l m Hj Ec Hm Sm. destruct (Hcb j Hj) as (c' & Ec' & Hc). assert (c' = c) as -> by congruence.
    destruct (Z.lt_ge_cases c 126); [right|left; apply GetCbVec_overrun; [lia..|apply Hlc]]. split; [done|].
    destruct (GetCbVec_ok m 66 c 85 23) as (v & m' & _ & _ & L' & S' & E); [left; lia|lia..|done|].
    exists (known 0 v (lc_cbvec lc l)), m'. rewrite E by apply Hlc. split; [done|]. split; [lia|done]. }
  destruct (Hcb 0) as (c0 & E0 & _), (Hcb 1) as (c1 & E1 & _), (Hcb 2) as (c2 & E2 & _); [lia..|]. rewrite (bind_eq _ _ _ E0).
  destruct (step 0 c0 0 memVec) as [->|(H0 & v0 & m1 & -> & L1 & S1)]; [lia|done..|]. cbn [mbind option_bind]. rewrite ?Z.add_0_l, (bind_eq _ _ _ E1).
  destruct (step 1 c1 1 m1) as [->|(H1 & v1 & m2 & -> & L2 & S2)]; [lia|done..|]. cbn [mbind option_bind]. rewrite ?Z.add_0_l, (bind_eq _ _ _ E2).
  destruct (step 2 c2 2 m2) as [->|(H2 & _)]; [lia|done..|]. exfalso.
  assert (k = 0 \/ k = 1 \/ k = 2) as [-> |[-> | ->]] by lia; rewrite Ei in *; simplify_eq; lia.
Qed.

(** A codebook index of 126 or 127 for the 23 samples beside the start state. *)
Lemma DecodeResidual_overrun d b synt lc J : dec_ok 20 d -> bits_ok 20 b -> 1 <= ib_startIdx b <= subframes 20 - 1 -> 44 <= zlen synt ->
  usable b = false -> calls_ok lc -> zlen J = 240 -> DecodeResidual lc d (adjusted b) J synt = None.
Proof.
  intros Hd Hb Hi Hs Hu Hlc HJ. destruct (adjusted_ok 20 b (or_introl eq_refl) Hb Hi) as [Hf _]. unfold DecodeResidual.
  destruct (decode_start_scalar 20 d _ Hd Hf synt Hs) as (v & m2 & _ & _ & L2 & S2 & E'). rewrite E' by done. unfold start_rest.
  change (80 - state_len 20) with 23. cbn [adjusted upd ib_cb_index ib_gain_index]. rewrite (CbConstruct_overrun (lc 0) _ _ m2 (Hlc 0) L2 S2); [done| |].
  - intros k Hk. destruct (stage_entries 20 b k (or_introl eq_refl) Hb) as [(i & Ei & Hi' & H3) _]; [unfold subframes; cbn; lia|].
      exists i. split; [done|]. destruct (H3 ltac:(lia)). lia.
  - destruct (unusable_entry b) as (k & i & Hk & Ei & Hi'); [unfold zlen; by rewrite (proj1 (proj2 (proj1 Hb)))|done|].
      exists k, i. split; [done|]. split; [|done].
      destruct (stage_entries 20 b k (or_introl eq_refl) Hb) as [(i' & Ei2 & _ & H3) _]; [unfold subframes; cbn; lia|].
      destruct (H3 ltac:(lia)) as [_ Ei3]. congruence.
Qed.

(** Which iLBC frames can be decoded: for every frame that passes the check of the
    start index, the excitation is computed inside of all arrays, and its 160 or 240
    samples depend on the frame and the decoder's state alone, not on what the
    uninitialised local arrays hold; the state stays well-formed and the history of the
    enhancer is only changed where the next frame goes.  The exception: at 20 ms, a
    frame in which one of the first three codebook indexes is 126 or 127 makes the
    decoder leave an array on the stack, always. *)
Theorem DecodeResidual_exact mode d b synt (Hm : mode = 20 \/ mode = 30) (Hd : dec_ok mode d) (Hb : bits_ok mode b)
    (Hi : 1 <= ib_startIdx b <= subframes mode - 1) (Hs : zlen synt = 66) :
  if (mode =? 20) && negb (usable b)
  then forall lc J, calls_ok lc -> zlen J = 240 -> DecodeResidual lc d (adjusted b) J synt = None
  else exists v pr buf,
    zlen v = d_blockl d /\ Forall in_s16 v /\
    dec_ok mode (d <| d_prevResidual := pr |> <| d_enh_buf := buf |>) /\ drop 160 buf = drop 160 (d_enh_buf d) /\
    forall lc J, calls_ok lc -> zlen J = 240 ->
      DecodeResidual lc d (adjusted b) J synt =
        Some (d <| d_prevResidual := pr |> <| d_enh_buf := buf |>, v ++ drop (Z.to_nat (d_blockl d)) J).
Proof.
  destruct (adjusted_ok mode b Hm Hb Hi) as [Hf Hst]. case_if.
  - intros lc J Hlc HJ. subst mode. apply DecodeResidual_overrun; try done. lia.
  - assert (start_ok mode (adjusted b)) as Hst'.
    { apply Hst. intros -> k Hk i Ei. apply (usable_entry b k i Hk Ei). cbn in E. by destruct (usable b). }
    destruct (frame_params_cases _ _ (ok_params _ _ Hd)) as (_ & _ & ->).
    destruct (DecodeResidual_ok mode d _ synt Hd Hf Hst') as (v & pr & buf & Lv & Sv & Hpr & Hbuf & D & E1);
      [rewrite Hs; unfold subframes; case_if; lia|].
    exists v, pr, buf. refine (conj Lv (conj Sv (conj (dec_ok_mem _ _ _ _ Hd Hpr Hbuf) (conj D _)))).
    intros lc J Hlc HJ. rewrite E1 by done. unfold known. rewrite take_0. cbn [app]. by rewrite Z.add_0_l, Lv.
Qed.

(** ** Witnesses *)

Definition fresh_dec : iLBC_Dec_Inst_t := mkDec 0 0 0 0 0 0 0 0 [] [] 0 0 0 0 0 0 0 [] [] 0 [] [] [] 0 [] [].

(** A frame of 20 ms whose first codebook index is [i]. *)
Definition frame20 (i : Z) : iLBC_bits :=
  mkBits [63; 127; 5; 0; 0; 0] ([i; 3; 120; 255; 44; 127; 0; 129; 200] ++ replicate 6 0)
    ([31; 8; 7; 16; 9; 2; 30; 1; 5] ++ replicate 6 0) 42 1 (replicate 57 5 ++ [0]) 3.

Lemma frame20_ok : bits_ok 20 (frame20 100).
Proof. split; [repeat split|]. vm_compute. repeat constructor; discriminate. Qed.

Lemma frame20_start i : 1 <= ib_startIdx (frame20 i) <= subframes 20 - 1.
Proof. cbn. lia. Qed.

Lemma fresh_ok : dec_ok 20 (InitDecode fresh_dec 20 1).2.
Proof. destruct (InitDecode_ok fresh_dec 20 1 (or_introl eq_refl)) as (d & E & H). by rewrite E. Qed.

Example DecodeResidual_exact_witness :
  let d := (InitDecode fresh_dec 20 1).2 in
  exists v pr buf,
    zlen v = d_blockl d /\ Forall in_s16 v /\
    dec_ok 20 (d <| d_prevResidual := pr |> <| d_enh_buf := buf |>) /\ drop 160 buf = drop 160 (d_enh_buf d) /\
    forall lc J, calls_ok lc -> zlen J = 240 ->
      DecodeResidual lc d (adjusted (frame20 100)) J (replicate 66 0) =
        Some (d <| d_prevResidual := pr |> <| d_enh_buf := buf |>, v ++ drop (Z.to_nat (d_blockl d)) J).
Proof.
  exact (DecodeResidual_exact 20 (InitDecode fresh_dec 20 1).2 (frame20 100) (replicate 66 0) (or_introl eq_refl) fresh_ok
    frame20_ok (frame20_start 100) eq_refl).
Defined.
