(* ===== verification/IlbcLsfInv.v ===== *)
(** The synthesis filters of the iLBC decoder: from the indexes of a received frame to
    the coefficients, all accesses are inside of the tables and arrays. *)
From Stdlib Require Import Sorted.
From S2P Require Import Prelude BitRefl SplMath SplFilt IlbcBits IlbcStream IlbcTables IlbcLsf IlbcDec IlbcExc IlbcExcInv IlbcResidual.

(** Frequencies between 0 and [m]. *)
Definition freqs (n m : Z) (l : list Z) : Prop := zlen l = n /\ Forall (fun x => 0 <= x <= m) l.

Lemma freqs_weaken n m m' l : m <= m' -> freqs n m l -> freqs n m' l.
Proof. intros Hm [Hl H]. split; [done|]. eapply List.Forall_impl; [|exact H]. cbn. lia. Qed.

Lemma freqs_app n1 n2 m a b : freqs n1 m a -> freqs n2 m b -> freqs (n1 + n2) m (a ++ b).
Proof. intros [L1 H1] [L2 H2]. split; [rewrite zlen_app; lia|by apply Forall_app]. Qed.

Lemma freqs_set n m l i x : freqs n m l -> 0 <= i < n -> 0 <= x <= m -> exists l', aset l i x = Some l' /\ freqs n m l'.
Proof.
  intros [L H] Hi Hx. rewrite aset_in by lia. eexists. split; [reflexivity|]. split; [by rewrite zlen_insert|].
  by apply Forall_insert.
Qed.

Lemma freqs_get n m l i : freqs n m l -> 0 <= i < n -> exists x, aget l i = Some x /\ 0 <= x <= m.
Proof.
  intros [L H] Hi. destruct (aget_in l i) as [x E]; [lia|]. exists x. split; [done|].
  exact (aget_Forall (fun x => 0 <= x <= m) l i x H E).
Qed.

(** ** Dequantisation *)

(** The largest entry of the codebook. *)
Definition lsf_top : Z := 24278.

Lemma codebook_range : freqs 1088 lsf_top kLsfCb.
Proof.
  split; [reflexivity|]. apply (proj2 (List.Forall_forall _ _)). intros x Hx.
  assert (forallb (fun x => (0 <=? x) && (x <=? lsf_top)) kLsfCb = true) as H by reflexivity.
  rewrite forallb_forall in H. specialize (H x Hx). bool_lia. lia.
Qed.

(** The six indexes have their widths. *)
Definition indexes_ok (index : list Z) (first : Z) : Prop :=
  forall k, 0 <= k < 3 -> exists i, aget index (first + k) = Some i /\ 0 <= i < (if k =? 0 then 64 else 128).

Lemma lsf_frame_ok index first : indexes_ok index first -> exists l, lsf_frame index first = Some l /\ freqs 10 lsf_top l.
Proof.
  intros Hi. unfold lsf_frame. pose proof codebook_range as Hcb.
  match goal with |- context [for_loop _ 0 ?f ?a] => destruct (for_loop_inv (fun i st =>
    freqs (if i =? 0 then 0 else if i =? 1 then 3 else if i =? 2 then 6 else 10) lsf_top st.1 /\
    st.2 = if i =? 0 then 0 else if i =? 1 then 192 else if i =? 2 then 576 else 1088) f (Z.to_nat LSF_NSPLIT) 0 a) as ([l p] & E & [H _]) end.
  - by split.
  - intros i [l p] Hr [Hl Hp]. cbn [fst snd] in Hl, Hp. change (Z.of_nat (Z.to_nat LSF_NSPLIT)) with 3 in Hr.
    destruct (Hi i) as (x & Ex & Hx); [lia|].
    assert (step : forall dim size, aget kLsfDimCb i = Some dim -> aget kLsfSizeCb i = Some size -> 0 <= dim <= 4 ->
      0 <= p -> p + size * dim <= 1088 -> x < size <= 128 ->
      exists part, each dim (fun j => aget kLsfCb (p + mul_16_16 x dim + j)) = Some part /\ freqs dim lsf_top part).
    { intros dim size _ _ Hd Hp0 Hsz Hxs. unfold mul_16_16.
      destruct (each_ok (fun x => 0 <= x <= lsf_top) dim (fun j => aget kLsfCb (p + s16 x * s16 dim + j))) as (part & E & L & P).
      - lia.
      - intros j Hj. rewrite !s16_id by (unfold in_s16; lia). by apply (freqs_get 1088); [|nia].
      - by exists part. }
    assert (i = 0 \/ i = 1 \/ i = 2) as [-> |[-> | ->]] by lia; cbn [Z.eqb Pos.eqb] in *; subst p.
    + destruct (step 3 64) as (part & E & Hpart); try done; try lia. change (aget kLsfDimCb 0) with (Some 3).
      change (aget kLsfSizeCb 0) with (Some 64). cbn [mbind option_bind]. rewrite (bind_eq _ _ _ Ex), (bind_eq _ _ _ E).
      eexists. split; [reflexivity|]. split; [by apply (freqs_app 0 3)|done].
    + destruct (step 3 128) as (part & E & Hpart); try done; try lia. change (aget kLsfDimCb 1) with (Some 3).
      change (aget kLsfSizeCb 1) with (Some 128). cbn [mbind option_bind]. rewrite (bind_eq _ _ _ Ex), (bind_eq _ _ _ E).
      eexists. split; [reflexivity|]. split; [by apply (freqs_app 3 3)|done].
    + destruct (step 4 128) as (part & E & Hpart); try done; try lia. change (aget kLsfDimCb 2) with (Some 4).
      change (aget kLsfSizeCb 2) with (Some 128). cbn [mbind option_bind]. rewrite (bind_eq _ _ _ Ex), (bind_eq _ _ _ E).
      eexists. split; [reflexivity|]. split; [by apply (freqs_app 6 4)|done].
  - rewrite E. exists l. split; [done|]. exact H.
Qed.

(** [lpc_n] sets of frequencies in front of what the array held. *)
Lemma SimpleLsfDeQ_ok index lpc_n : lpc_n = 1 \/ lpc_n = 2 -> indexes_ok index 0 -> (lpc_n = 2 -> indexes_ok index 3) ->
  exists l, freqs (10 * lpc_n) lsf_top l /\ forall J, zlen J = 20 -> SimpleLsfDeQ J index lpc_n = Some (known 0 l J).
Proof.
  intros Hn H0 H3. destruct (lsf_frame_ok index 0 H0) as (a & Ea & Ha).
  destruct Hn as [-> | ->].
  - exists a. split; [done|]. intros J HJ. unfold SimpleLsfDeQ. rewrite (bind_eq _ _ _ Ea), astore_first; [done|].
    rewrite (proj1 Ha). lia.
  - destruct (lsf_frame_ok index 3 (H3 eq_refl)) as (b & Eb & Hb). exists (a ++ b). split; [by apply (freqs_app 10 10)|].
    intros J HJ. unfold SimpleLsfDeQ. rewrite (bind_eq _ _ _ Ea), astore_first by (rewrite (proj1 Ha); lia).
    cbn [mbind option_bind]. change (1 <? 2) with true. cbn iota. rewrite (bind_eq _ _ _ Eb).
    change LPC_FILTERORDER with (0 + 10). rewrite <-(proj1 Ha) at 1. rewrite astore_behind; [done|lia|].
    rewrite (proj1 Ha), (proj1 Hb). lia.
Qed.

(** ** The separation check as a walk over positions *)

Fixpoint run {S} (f : Z -> S -> option S) (ps : list Z) (st : S) : option S :=
  match ps with
  | [] => Some st
  | p :: ps => st ← f p st; run f ps st
  end.

Lemma run_app {S} (f : Z -> S -> option S) a b st : run f (a ++ b) st = st ← run f a st; run f b st.
Proof. revert st. induction a as [|p a IH]; intros st; cbn; [done|]. destruct (f p st); cbn; [apply IH|done]. Qed.

Lemma for_loop_run {S} (f : Z -> S -> option S) (ps : Z -> list Z) n : forall i st,
  for_loop n i (fun j => run f (ps j)) st = run f (concat (ps <$> seqZ i (Z.of_nat n))) st.
Proof.
  induction n as [|n IH]; intros i st; [done|]. cbn [for_loop]. rewrite seqZ_cons by lia. cbn [fmap list_fmap concat].
  rewrite run_app. destruct (run f (ps i) st); cbn [mbind option_bind]; [|done]. rewrite IH. do 4 f_equal; lia.
Qed.

(** The pairs of one pass. *)
Definition pairs (dim NoAn : Z) : list Z :=
  concat ((fun m => concat ((fun k => [m * dim + k]) <$> seqZ 0 (Z.of_nat (Z.to_nat (dim - 1))))) <$> seqZ 0 (Z.of_nat (Z.to_nat NoAn))).

Lemma LsfCheck_run lsf dim NoAn : LsfCheck lsf dim NoAn = run lsf_check_at (pairs dim NoAn ++ pairs dim NoAn) (lsf, 0).
Proof.
  unfold LsfCheck. transitivity (for_loop 2 0 (fun _ => run lsf_check_at (pairs dim NoAn)) (lsf, 0)).
  - apply for_loop_ext. intros _ st _. unfold pairs. rewrite <-for_loop_run. apply for_loop_ext. intros m st' _.
    rewrite <-for_loop_run. apply for_loop_ext. intros k st'' _. cbn [run]. by destruct (lsf_check_at _ _).
  - rewrite for_loop_run. change (concat _) with (pairs dim NoAn ++ pairs dim NoAn ++ []). by rewrite app_nil_r.
Qed.

(** A pair that is left alone. *)
Definition pair_ok (lsf : list Z) (p : Z) : Prop := exists x y, aget lsf p = Some x /\ aget lsf (p + 1) = Some y /\ 319 <= y - x /\ 82 <= x <= 25723.

Lemma check_same p lsf c : pair_ok lsf p -> lsf_check_at p (lsf, c) = Some (lsf, c).
Proof.
  intros (x & y & Ex & Ey & Hxy & Hx). unfold lsf_check_at. rewrite (bind_eq _ _ _ Ex), (bind_eq _ _ _ Ey).
  destruct (Z.ltb_spec (y - x) 319); [lia|]. cbn [mbind option_bind]. rewrite (bind_eq _ _ _ Ex).
  destruct (Z.ltb_spec x 82); [lia|]. cbn [mbind option_bind]. rewrite (bind_eq _ _ _ Ex). by destruct (Z.ltb_spec 25723 x); [lia|].
Qed.

(** The entries and the flag that one pair gives. *)
Definition pair_hi (x y : Z) : Z := if y - x <? 319 then if y <? x then s16 (x + 160) else s16 (y + 160) else y.
Definition pair_lo (x y : Z) : Z := if y - x <? 319 then if y <? x then s16 (pair_hi x y - 160) else s16 (x - 160) else x.
Definition pair_flag (x y c : Z) : Z := if (y - x <? 319) || (pair_lo x y <? 82) || (25723 <? pair_lo x y) then 1 else c.

Lemma check_eq p lsf c x y : 0 <= p -> aget lsf p = Some x -> aget lsf (p + 1) = Some y ->
  lsf_check_at p (lsf, c) =
    Some (<[Z.to_nat p := Z.max 82 (Z.min 25723 (pair_lo x y))]> (<[Z.to_nat (p + 1) := pair_hi x y]> lsf), pair_flag x y c).
Proof.
  intros Hp Ex Ey. pose proof (aget_Some_range _ _ _ Ex). pose proof (aget_Some_range _ _ _ Ey).
  unfold lsf_check_at. rewrite (bind_eq _ _ _ Ex), (bind_eq _ _ _ Ey).
  assert (E : forall k, (st ← (if y - x <? 319 then
          if y <? x then
            let y' := s16 (x + 160) in
            lsf ← aset lsf (p + 1) y'; lsf ← aset lsf p (s16 (y' - 160)); Some (lsf, 1)
          else
            lsf ← aset lsf p (s16 (x - 160)); lsf ← aset lsf (p + 1) (s16 (y + 160)); Some (lsf, 1)
        else Some (lsf, c)); k st) = k (<[Z.to_nat p := pair_lo x y]> (<[Z.to_nat (p + 1) := pair_hi x y]> lsf),
          if y - x <? 319 then 1 else c) :> option (list Z * Z)).
  { intros k. unfold pair_lo, pair_hi. destruct (y - x <? 319); [destruct (y <? x)|].
    - rewrite aset_in by lia. cbn [mbind option_bind]. rewrite aset_in by (rewrite zlen_insert; lia). done.
    - rewrite aset_in by lia. cbn [mbind option_bind]. rewrite aset_in by (rewrite zlen_insert; lia). cbn [mbind option_bind].
      by rewrite list_insert_insert_ne by lia.
    - cbn [mbind option_bind]. rewrite (list_insert_id lsf (Z.to_nat (p + 1))) by (by rewrite <-aget_lookup by lia).
      by rewrite (list_insert_id lsf (Z.to_nat p)) by (by rewrite <-aget_lookup by lia). }
  rewrite E. clear E. set (l1 := <[Z.to_nat (p + 1) := pair_hi x y]> lsf).
  assert (Hg : forall v, aget (<[Z.to_nat p := v]> l1) p = Some v) by (intros v; apply aget_insert_eq; unfold l1; rewrite zlen_insert; lia).
  rewrite (bind_eq _ _ _ (Hg _)). unfold pair_flag. destruct (Z.ltb_spec (pair_lo x y) 82).
  - rewrite aset_in by (unfold l1; rewrite !zlen_insert; lia). cbn [mbind option_bind]. rewrite list_insert_insert_eq, (bind_eq _ _ _ (Hg _)).
    cbn [Z.ltb Z.compare]. rewrite orb_true_r. do 3 f_equal. lia.
  - cbn [mbind option_bind]. rewrite (bind_eq _ _ _ (Hg _)). rewrite orb_false_r. destruct (Z.ltb_spec 25723 (pair_lo x y)).
    + rewrite aset_in by (unfold l1; rewrite !zlen_insert; lia). cbn [mbind option_bind]. rewrite list_insert_insert_eq, orb_true_r.
      do 3 f_equal. lia.
    + rewrite orb_false_r. do 3 f_equal. lia.
Qed.

(** [pair_ok] as a test. *)
#[local] Instance pair_ok_dec lsf p : Decision (pair_ok lsf p).
Proof.
  unfold pair_ok. destruct (aget lsf p) as [x|]; [|right; intros (? & ? & ? & _); done].
  destruct (aget lsf (p + 1)) as [y|]; [|right; intros (? & ? & _ & ? & _); done].
  destruct (decide (319 <= y - x /\ 82 <= x <= 25723)) as [H|H]; [left; by exists x, y|right].
  intros (x' & y' & [= <-] & [= <-] & H'). done.
Defined.

(** One pair: left alone, or changed, with its first entry within the limits. *)
Lemma check_step n m p lsf c : freqs n m lsf -> 0 <= p -> p + 1 < n -> m + 160 < 32768 ->
  (pair_ok lsf p /\ lsf_check_at p (lsf, c) = Some (lsf, c)) \/
  (~ pair_ok lsf p /\ exists u y, 82 <= u <= 25723 /\ 0 <= y <= m + 160 /\
     lsf_check_at p (lsf, c) = Some (<[Z.to_nat p := u]> (<[Z.to_nat (p + 1) := y]> lsf), 1)).
Proof.
  intros Hl Hp Hn Hm. destruct (decide (pair_ok lsf p)) as [H|H].
  { left. split; [done|by apply check_same]. }
  right. split; [done|]. destruct (freqs_get n m lsf p Hl) as (x & Ex & Hx); [lia|].
  destruct (freqs_get n m lsf (p + 1) Hl) as (y & Ey & Hy); [lia|].
  exists (Z.max 82 (Z.min 25723 (pair_lo x y))), (pair_hi x y). split; [lia|]. split.
  - unfold pair_hi. repeat case_if; rewrite ?s16_id by (unfold in_s16; lia); lia.
  - rewrite (check_eq p lsf c x y Hp Ex Ey). do 2 f_equal. unfold pair_flag.
    destruct (Z.ltb_spec (y - x) 319); [done|]. unfold pair_lo. destruct (Z.ltb_spec (y - x) 319); [lia|].
    destruct (Z.ltb_spec x 82); [done|]. destruct (Z.ltb_spec 25723 x); [done|]. exfalso. apply H. by exists x, y.
Qed.

Definition limited (lsf : list Z) (p : Z) : Prop := exists x, aget lsf p = Some x /\ 82 <= x <= 25723.

Lemma run_check n ps : forall m lsf c, freqs n m lsf -> 25723 <= m -> Forall (fun p => 0 <= p /\ p + 1 < n) ps ->
  m + 160 * zlen ps < 32768 ->
  exists lsf' c', run lsf_check_at ps (lsf, c) = Some (lsf', c') /\ freqs n (m + 160 * zlen ps) lsf' /\
    (Forall (pair_ok lsf) ps -> lsf' = lsf /\ c' = c) /\ (~ Forall (pair_ok lsf) ps -> c' = 1) /\
    (c = 1 -> c' = 1) /\
    (forall q, 0 <= q -> Forall (fun p => q < p) ps -> aget lsf' q = aget lsf q) /\
    (StronglySorted Z.lt ps -> Forall (limited lsf') ps).
Proof.
  induction ps as [|p ps IH]; intros m lsf c Hl Hm Hps Hb.
  { exists lsf, c. change (zlen []) with 0. rewrite Z.add_0_r. do 3 (split; [done|]). split; [intros H; exfalso; by apply H|]. by do 2 (split; [done|]). }
  replace (zlen (p :: ps)) with (zlen ps + 1) in * by (unfold zlen; cbn; lia). pose proof (zlen_nonneg ps).
  apply Forall_cons_1 in Hps as [[Hp Hpn] Hps]. cbn [run].
  assert (Hhead : exists l1 c1, lsf_check_at p (lsf, c) = Some (l1, c1) /\ freqs n (m + 160) l1 /\ limited l1 p /\
    (forall q, 0 <= q < p -> aget l1 q = aget lsf q) /\ (c = 1 -> c1 = 1) /\
    (pair_ok lsf p -> l1 = lsf /\ c1 = c) /\ (~ pair_ok lsf p -> c1 = 1)).
  { destruct (check_step n m p lsf c) as [[Hok E]|(Hok & u & y & Hu & Hy & E)]; [done|lia..| |].
    - exists lsf, c. split; [done|]. split; [by apply (freqs_weaken n m); [lia|]|]. split; [|done].
      destruct Hok as (x & _ & Ex & _ & _ & Hx). by exists x.
    - eexists _, _. split; [exact E|]. destruct Hl as [L Hl]. split; [split; [by rewrite !zlen_insert|]|].
      + apply Forall_insert; [apply Forall_insert|lia]; [|lia]. eapply List.Forall_impl; [|exact Hl]. cbn. lia.
      + split; [exists u; split; [apply aget_insert_eq; rewrite zlen_insert; lia|done]|]. split; [|done].
        intros q Hq. by rewrite !aget_insert_ne by lia. }
  destruct Hhead as (l1 & c1 & E1 & F1 & Lim & Low & K1 & Sm & Ch). rewrite E1. cbn [mbind option_bind].
  destruct (IH (m + 160) l1 c1 F1) as (l2 & c2 & E2 & F2 & Sm2 & Ch2 & K2 & Low2 & Lim2); [lia|done|lia|].
  exists l2, c2. split; [done|]. split; [by replace (m + 160 * (zlen ps + 1)) with (m + 160 + 160 * zlen ps) by lia|].
  split; [|split; [|split; [|split]]].
  - intros [Hok Hoks]%Forall_cons_1. destruct (Sm Hok) as [-> ->]. by apply Sm2.
  - intros Hn. destruct (decide (pair_ok lsf p)) as [Hok|Hok]; [|by apply K2, Ch].
    destruct (Sm Hok) as [-> ->]. apply Ch2. intros Hoks. apply Hn. by apply List.Forall_cons.
  - auto.
  - intros q Hq [Hqp Hqs]%Forall_cons_1. rewrite Low2 by done. apply Low. lia.
  - intros Hs. apply StronglySorted_inv in Hs as [Hs Hlt]. apply List.Forall_cons; [|by apply Lim2].
    unfold limited. by rewrite Low2.
Qed.

(** ** Arrays that are longer *)

Lemma known_first K J : known 0 K J = K ++ drop (Z.to_nat (zlen K)) J.
Proof. unfold known. by rewrite take_0, Z.add_0_l. Qed.

Lemma aget_known0 K J p : p < zlen K -> aget (known 0 K J) p = aget K p.
Proof. intros. rewrite known_first. by apply aget_app_l. Qed.

Lemma aset_known0 K J p v : 0 <= p < zlen K -> aset (known 0 K J) p v = (fun K' => known 0 K' J) <$> aset K p v.
Proof.
  intros Hp. rewrite !aset_in; [|done|rewrite known_first, zlen_app; pose proof (zlen_nonneg (drop (Z.to_nat (zlen K)) J)); lia].
  cbn [fmap option_fmap option_map]. f_equal. rewrite !known_first, zlen_insert. apply insert_app_l. unfold zlen in Hp. lia.
Qed.

Definition longer (J : list Z) (st : list Z * Z) : list Z * Z := (known 0 st.1 J, st.2).

Lemma check_longer J p K c : 0 <= p -> p + 1 < zlen K ->
  lsf_check_at p (longer J (K, c)) = longer J <$> lsf_check_at p (K, c).
Proof.
  intros Hp Hn. destruct (aget_in K p) as [x Ex]; [lia|]. destruct (aget_in K (p + 1)) as [y Ey]; [lia|].
  unfold longer at 1. cbn [fst snd]. rewrite !(check_eq p _ c x y) by (rewrite ?aget_known0 by lia; done).
  unfold longer. cbn [fmap option_fmap option_map fst snd]. do 2 f_equal. unfold zlen in Hn.
  rewrite !known_first, !zlen_insert, !insert_app_l by (rewrite ?length_insert; lia). done.
Qed.

Lemma run_longer J ps : forall K c, Forall (fun p => 0 <= p /\ p + 1 < zlen K) ps ->
  run lsf_check_at ps (longer J (K, c)) = longer J <$> run lsf_check_at ps (K, c).
Proof.
  induction ps as [|p ps IH]; intros K c Hps; [done|]. apply Forall_cons_1 in Hps as [[Hp Hn] Hps]. cbn [run].
  rewrite check_longer by done. destruct (aget_in K p) as [x Ex]; [lia|]. destruct (aget_in K (p + 1)) as [y Ey]; [lia|].
  rewrite (check_eq p K c x y) by done. cbn [fmap option_fmap option_map mbind option_bind]. apply IH. by rewrite !zlen_insert.
Qed.

(** ** The whole check *)

Lemma pairs_1 : pairs 10 1 = [0; 1; 2; 3; 4; 5; 6; 7; 8].
Proof. reflexivity. Qed.
Lemma pairs_2 : pairs 10 2 = [0; 1; 2; 3; 4; 5; 6; 7; 8; 10; 11; 12; 13; 14; 15; 16; 17; 18].
Proof. reflexivity. Qed.

Lemma pairs_range NoAn : NoAn = 1 \/ NoAn = 2 ->
  Forall (fun p => 0 <= p /\ p + 1 < 10 * NoAn) (pairs 10 NoAn) /\ zlen (pairs 10 NoAn) = 9 * NoAn /\ StronglySorted Z.lt (pairs 10 NoAn).
Proof.
  intros [-> | ->]; rewrite ?pairs_1, ?pairs_2; (split; [repeat (apply List.Forall_cons; [lia|]); apply List.Forall_nil|]);
    (split; [reflexivity|]); repeat constructor.
Qed.

(** The pairs of a set of ten: position and set. *)
Definition separated (lsf : list Z) (NoAn : Z) : Prop :=
  forall m k, 0 <= m < NoAn -> 0 <= k < 9 -> pair_ok lsf (m * 10 + k).

Lemma in_pairs NoAn p : NoAn = 1 \/ NoAn = 2 -> In p (pairs 10 NoAn) <-> exists m k, 0 <= m < NoAn /\ 0 <= k < 9 /\ p = m * 10 + k.
Proof.
  intros [-> | ->]; rewrite ?pairs_1, ?pairs_2; cbn [In]; split.
  1: intros H; exists 0, p; lia.
  2: intros H; exists (p / 10), (p mod 10); Z.to_euclidean_division_equations; lia.
  all: intros (m & k & Hm & Hk & ->); lia.
Qed.

Lemma separated_pairs lsf NoAn : NoAn = 1 \/ NoAn = 2 -> separated lsf NoAn <-> Forall (pair_ok lsf) (pairs 10 NoAn).
Proof.
  intros Hn. rewrite (List.Forall_forall _ _). split.
  - intros H p Hp. apply (in_pairs NoAn p Hn) in Hp as (m & k & Hm & Hk & ->). by apply H.
  - intros H m k Hm Hk. apply H, (in_pairs NoAn _ Hn). by exists m, k.
Qed.

(** The check of one or two sets, whatever is behind them in the array. *)
Lemma LsfCheck_ok NoAn lsf : NoAn = 1 \/ NoAn = 2 -> freqs (10 * NoAn) 25723 lsf ->
  exists lsf' c, freqs (10 * NoAn) 31483 lsf' /\
    (separated lsf NoAn /\ lsf' = lsf /\ c = 0 \/ ~ separated lsf NoAn /\ c = 1) /\
    (forall m k, 0 <= m < NoAn -> 0 <= k < 9 -> limited lsf' (m * 10 + k)) /\
    forall J, LsfCheck (known 0 lsf J) 10 NoAn = Some (known 0 lsf' J, c).
Proof.
  intros Hn Hl. destruct (pairs_range NoAn Hn) as (Hps & Hlen & Hsort).
  destruct (run_check (10 * NoAn) (pairs 10 NoAn) 25723 lsf 0) as (l1 & c1 & E1 & F1 & Same1 & Ch1 & _ & _ & _); [done|lia|done|lia|].
  destruct (run_check (10 * NoAn) (pairs 10 NoAn) (25723 + 160 * zlen (pairs 10 NoAn)) l1 c1) as (l2 & c2 & E2 & F2 & Same2 & _ & K2 & _ & Lim2);
    [done|lia|done|lia|].
  exists l2, c2. split; [eapply freqs_weaken; [|exact F2]; lia|]. split; [|split].
  - rewrite separated_pairs by done. destruct (decide (Forall (pair_ok lsf) (pairs 10 NoAn))) as [H|H].
    + left. destruct (Same1 H) as [-> ->]. by destruct (Same2 H) as [-> ->].
    + right. split; [done|]. by apply K2, Ch1.
  - intros m k Hm Hk. apply (proj1 (List.Forall_forall _ _) (Lim2 Hsort)), (in_pairs NoAn _ Hn). by exists m, k.
  - intros J. rewrite LsfCheck_run. change (known 0 lsf J, 0) with (longer J (lsf, 0)).
    rewrite run_longer; cycle 1. { apply Forall_app. rewrite (proj1 Hl). by split. }
    rewrite run_app, E1. cbn [mbind option_bind]. by rewrite E2.
Qed.

(** C23. The check of the line spectral frequencies of a frame: it ends with an answer
    of 0 and the frequencies as they were exactly when every neighbouring pair of every
    set is 50 Hz apart and the first nine of every set are within the limits; else the
    answer is 1.  Afterwards the first nine frequencies of every set are within the
    limits, in every case, no frequency is negative and none has overflowed. *)
Theorem LsfCheck_correct NoAn lsf (Hn : NoAn = 1 \/ NoAn = 2) (Hl : freqs (10 * NoAn) 25723 lsf) :
  exists lsf' c, LsfCheck lsf LPC_FILTERORDER NoAn = Some (lsf', c) /\ freqs (10 * NoAn) 31483 lsf' /\
    (separated lsf NoAn /\ lsf' = lsf /\ c = 0 \/ ~ separated lsf NoAn /\ c = 1) /\
    (forall m k, 0 <= m < NoAn -> 0 <= k < 9 -> limited lsf' (m * 10 + k)).
Proof.
  destruct (LsfCheck_ok NoAn lsf Hn Hl) as (lsf' & c & F & A & Lim & E). exists lsf', c.
  rewrite <-(known_full lsf lsf) at 1 by done. split; [|done]. unfold LPC_FILTERORDER. rewrite E.
  by rewrite known_full by (rewrite (proj1 F), (proj1 Hl); done).
Qed.

(** ** Interpolation *)

Lemma Interpolate_ok a b coef : freqs 10 32767 a -> freqs 10 32767 b -> 0 <= coef <= 16384 ->
  exists l, Interpolate a b coef 10 = Some l /\ freqs 10 32767 l.
Proof.
  intros Ha Hb Hc. unfold Interpolate. cbv zeta. rewrite (s16_id (16384 - coef)) by (unfold in_s16; lia).
  match goal with |- context [each 10 ?f] => destruct (each_ok (fun x => 0 <= x <= 32767) 10 f) as (l & E & L & P) end;
    [lia| |by exists l].
  intros i Hi. destruct (freqs_get _ _ a i Ha Hi) as (x & Ex & Hx), (freqs_get _ _ b i Hb Hi) as (y & Ey & Hy).
  rewrite (bind_eq _ _ _ Ex), (bind_eq _ _ _ Ey). eexists. split; [reflexivity|]. unfold mul_16_16.
  rewrite (s16_id coef), (s16_id x), (s16_id (16384 - coef)), (s16_id y) by (unfold in_s16; lia).
  assert (0 <= coef * x + (16384 - coef) * y <= 16384 * 32767) as Hm by nia.
  rewrite s32_id by (unfold in_s32; lia). rewrite Z.shiftr_div_pow2 by lia. change (2 ^ 14) with 16384.
  assert (0 <= (coef * x + (16384 - coef) * y + 8192) / 16384 <= 32767) as Hq by (Z.to_euclidean_division_equations; lia).
  by rewrite s16_id by (unfold in_s16; lia).
Qed.

Lemma Interpolate_first a b Ja Jb coef : zlen a = 10 -> zlen b = 10 ->
  Interpolate (known 0 a Ja) (known 0 b Jb) coef 10 = Interpolate a b coef 10.
Proof. intros Ha Hb. unfold Interpolate. apply each_ext. intros i Hi. by rewrite !aget_known0 by lia. Qed.

(** Every frequency has an entry in the cosine table, because none is negative. *)
Lemma Lsf2Lsp_ok l : freqs 10 32767 l -> exists lsp, Lsf2Lsp l 10 = Some lsp /\ zlen lsp = 10 /\ Forall in_s16 lsp.
Proof.
  intros Hl. apply each_s16; [lia|]. intros i Hi. destruct (freqs_get _ _ l i Hl Hi) as (x & Ex & Hx). rewrite (bind_eq _ _ _ Ex).
  assert (zlen kCosDerivative = 64 /\ zlen kCos = 64) as [H1 H2] by done. cbv zeta.
  set (freq := s16 (Z.shiftr (mul_16_16 x 20861) 15)). assert (0 <= freq < 32768) as Hf.
  { unfold freq, mul_16_16. rewrite (s16_id x), (s16_id 20861), Z.shiftr_div_pow2 by (unfold in_s16; lia). change (2 ^ 15) with 32768.
    rewrite s16_id by (unfold in_s16; Z.to_euclidean_division_equations; lia). Z.to_euclidean_division_equations; lia. }
  rewrite (Z.shiftr_div_pow2 freq 8) by lia. change (2 ^ 8) with 256.
  assert (0 <= freq / 256 < 128) as Hq by (Z.to_euclidean_division_equations; lia).
  rewrite (s16_id (freq / 256)) by (unfold in_s16; lia).
  set (k := if 63 <? _ then 63 else _). assert (0 <= k < 64) as Hk.
  { unfold k. case_if; lia. }
  entries.
Qed.

Lemma GetLspPoly_ok lsp q : zlen lsp = 10 -> q = 0 \/ q = 1 -> exists f, GetLspPoly lsp q = Some f /\ zlen f = 6.
Proof.
  intros Hl Hq. unfold GetLspPoly. destruct (aget_in lsp q) as [l0 E0]; [lia|]. rewrite (bind_eq _ _ _ E0).
  match goal with |- context [for_loop 4 2 ?g ?a] => destruct (for_loop_inv (fun i (f : list Z) => zlen f = i) g 4 2 a) as (f & E & H) end;
    [done| |by exists f].
  intros i f Hi Hf. destruct (aget_in lsp (q + 2 * (i - 1))) as [l El]; [lia|]. rewrite (bind_eq _ _ _ El).
  destruct (aget_in f (i - 2)) as [x Ex]; [lia|]. rewrite (bind_eq _ _ _ Ex). cbv zeta.
  assert (zlen (f ++ [x]) = i + 1) as Hf1 by (rewrite zlen_app, Hf; reflexivity).
  match goal with |- context [for_loop ?n 0 ?g ?a] => destruct (for_loop_to (fun f' : list Z => zlen f' = i + 1) g (i - 1) a) as (f' & E' & H') end;
    [done| |].
  - intros t f' Ht Hf'. cbv zeta. destruct (aget_in f' (i - t)) as [a Ea]; [lia|]. destruct (aget_in f' (i - t - 1)) as [b Eb]; [lia|].
    destruct (aget_in f' (i - t - 2)) as [c Ec]; [lia|]. rewrite (bind_eq _ _ _ Ea), (bind_eq _ _ _ Eb), (bind_eq _ _ _ Ec).
    rewrite aset_in by lia. eexists. split; [reflexivity|]. by rewrite zlen_insert.
  - rewrite (bind_eq _ _ _ E'). destruct (aget_in f' 1) as [a Ea]; [lia|]. rewrite (bind_eq _ _ _ Ea), aset_in by lia.
    eexists. split; [reflexivity|]. by rewrite zlen_insert.
Qed.

Lemma poly_sums_ok f sign : zlen f = 6 -> exists f', poly_sums f sign = Some f' /\ zlen f' = 6.
Proof.
  intros Hf. unfold poly_sums.
  match goal with |- context [for_loop 5 0 ?g f] => destruct (for_loop_to (fun f' : list Z => zlen f' = 6) g 5 f) as (f' & E & H) end;
    [done| |by exists f'].
  intros t f' Ht Hf'. cbv zeta. destruct (aget_in f' (5 - t)) as [a Ea]; [lia|]. destruct (aget_in f' (5 - t - 1)) as [b Eb]; [lia|].
  rewrite (bind_eq _ _ _ Ea), (bind_eq _ _ _ Eb), aset_in by lia. eexists. split; [reflexivity|]. by rewrite zlen_insert.
Qed.

Lemma Lsf2Poly_ok l : freqs 10 32767 l -> exists a, Lsf2Poly l = Some a /\ array 11 a.
Proof.
  intros Hl. unfold Lsf2Poly, LPC_FILTERORDER. destruct (Lsf2Lsp_ok l Hl) as (lsp & E1 & L1 & _). rewrite (bind_eq _ _ _ E1).
  destruct (GetLspPoly_ok lsp 0) as (f1 & E2 & L2); [done|lia|]. destruct (GetLspPoly_ok lsp 1) as (f2 & E3 & L3); [done|lia|].
  rewrite (bind_eq _ _ _ E2), (bind_eq _ _ _ E3).
  destruct (poly_sums_ok f1 1 L2) as (g1 & E4 & L4), (poly_sums_ok f2 (-1) L3) as (g2 & E5 & L5).
  rewrite (bind_eq _ _ _ E4), (bind_eq _ _ _ E5).
  match goal with |- context [each 5 ?f ≫= fun a => each 5 ?g ≫= _] =>
    destruct (each_s16 5 f) as (a & Ea & La & Sa); [lia|intros i Hi; entries|];
    destruct (each_s16 5 g) as (b & Eb & Lb & Sb); [lia|intros i Hi; entries|] end.
  rewrite (bind_eq _ _ _ Ea), (bind_eq _ _ _ Eb). eexists. split; [reflexivity|]. split.
  - unfold zlen in *. cbn. rewrite length_app, length_rev. lia.
  - apply List.Forall_cons; [unfold in_s16; lia|]. apply Forall_app. split; [done|by apply Forall_rev].
Qed.

Lemma BwExpand_ok a : array 11 a -> exists w, BwExpand a kLpcChirpSyntDenum 11 = Some w /\ array 11 w.
Proof.
  intros [La Sa]. unfold BwExpand. destruct (aget_in a 0) as [x0 E0]; [lia|]. rewrite (bind_eq _ _ _ E0).
  assert (zlen kLpcChirpSyntDenum = 11) as Hk by done.
  match goal with |- context [each (11 - 1) ?f] => destruct (each_s16 (11 - 1) f) as (w & E & Lw & Sw); [lia|intros i Hi; entries|] end.
  rewrite (bind_eq _ _ _ E). eexists. split; [reflexivity|]. split; [unfold zlen in *; cbn; lia|].
  apply List.Forall_cons; [|done]. exact (aget_Forall _ _ _ _ Sa E0).
Qed.

(** ** The filters of the subframes *)

Lemma interpolate_subframe_ok a b w : freqs 10 32767 a -> freqs 10 32767 b -> 0 <= w <= 16384 ->
  exists lp wd, array 11 lp /\ array 11 wd /\
    forall Ja Jb K K2 J J2 pos, pos = zlen K -> zlen K2 = zlen K -> zlen K + 11 <= zlen J -> zlen K + 11 <= zlen J2 ->
      interpolate_subframe (known 0 a Ja) (known 0 b Jb) w 10 pos (known 0 K J, known 0 K2 J2) = Some (known 0 (K ++ lp) J, known 0 (K2 ++ wd) J2).
Proof.
  intros Ha Hb Hw. destruct (Interpolate_ok a b w Ha Hb Hw) as (l & El & Hl).
  destruct (Lsf2Poly_ok l Hl) as (lp & Elp & Hlp). destruct (BwExpand_ok lp Hlp) as (wd & Ewd & Hwd).
  exists lp, wd. split; [done|]. split; [done|]. intros Ja Jb K K2 J J2 pos -> HK HJ HJ2. pose proof (zlen_nonneg K).
  unfold interpolate_subframe, LspInterpolate2PolyDec. rewrite Interpolate_first by (apply Ha || apply Hb). rewrite El. cbn [mbind option_bind].
  rewrite (bind_eq _ _ _ Elp). rewrite <-(Z.add_0_l (zlen K)), astore_behind by (rewrite ?(proj1 Hlp); lia). cbn [mbind option_bind].
  change (10 + 1) with 11. rewrite (bind_eq _ _ _ Ewd). rewrite <-HK, astore_behind by (rewrite ?(proj1 Hwd); lia). done.
Qed.

Lemma subframe_filters_ok (W a b : list Z) n : forall i, freqs 10 32767 a -> freqs 10 32767 b ->
  (forall j, i <= j < i + Z.of_nat n -> exists w, aget W j = Some w /\ 0 <= w <= 16384) ->
  exists V V2, array (11 * Z.of_nat n) V /\ array (11 * Z.of_nat n) V2 /\
    forall Ja Jb K K2 J J2, zlen K = 11 * i -> zlen K2 = 11 * i -> 11 * (i + Z.of_nat n) <= zlen J -> 11 * (i + Z.of_nat n) <= zlen J2 ->
      for_loop n i (fun i st => w ← aget W i; interpolate_subframe (known 0 a Ja) (known 0 b Jb) w 10 (11 * i) st) (known 0 K J, known 0 K2 J2) =
        Some (known 0 (K ++ V) J, known 0 (K2 ++ V2) J2).
Proof.
  induction n as [|n IH]; intros i Ha Hb HW.
  { exists [], []. split; [done|]. split; [done|]. intros. cbn [for_loop]. by rewrite !app_nil_r. }
  destruct (HW i) as (w & Ew & Hw); [lia|]. destruct (interpolate_subframe_ok a b w Ha Hb Hw) as (lp & wd & [Llp Slp] & [Lwd Swd] & E).
  destruct (IH (i + 1) Ha Hb) as (V & V2 & [LV SV] & [LV2 SV2] & E2); [intros j Hj; apply HW; lia|].
  exists (lp ++ V), (wd ++ V2). split; [split; [rewrite zlen_app; lia|by apply Forall_app]|].
  split; [split; [rewrite zlen_app; lia|by apply Forall_app]|]. intros Ja Jb K K2 J J2 HK HK2 HJ HJ2. cbn [for_loop].
  rewrite (bind_eq _ _ _ Ew), E by lia. cbn [mbind option_bind]. rewrite E2 by (rewrite ?zlen_app; lia). by rewrite !app_assoc.
Qed.

Lemma weights_ok : (forall j, 0 <= j < 4 -> exists w, aget kLsfWeight20ms j = Some w /\ 0 <= w <= 16384) /\
  (forall j, 0 <= j < 6 -> exists w, aget kLsfWeight30ms j = Some w /\ 0 <= w <= 16384).
Proof.
  assert (Hall : forall l, Forall (fun w => 0 <= w <= 16384) l -> forall j, 0 <= j < zlen l -> exists w, aget l j = Some w /\ 0 <= w <= 16384).
  { intros l Hl j Hj. destruct (aget_in l j Hj) as [w E]. exists w. split; [done|]. exact (aget_Forall (fun w => 0 <= w <= 16384) l j w Hl E). }
  split; [apply (Hall kLsfWeight20ms)|apply (Hall kLsfWeight30ms)]; repeat (apply List.Forall_cons; [lia|]); apply List.Forall_nil.
Qed.

(** One or two sets of frequencies give a filter for each subframe, and the set that
    the next frame interpolates from. *)
Lemma DecoderInterpolateLsp_ok mode lsf old : mode = 20 \/ mode = 30 ->
  freqs (if mode =? 30 then 20 else 10) 32767 lsf -> freqs 10 32767 old ->
  exists V V2 old', array (11 * subframes mode) V /\ array (11 * subframes mode) V2 /\ freqs 10 32767 old' /\
    forall J J2 Jl, zlen J = 66 -> zlen J2 = 66 -> zlen Jl = 20 ->
      DecoderInterpolateLsp J J2 (known 0 lsf Jl) old 10 mode (subframes mode) = Some (known 0 V J, known 0 V2 J2, old').
Proof.
  intros Hm Hl Ho. unfold DecoderInterpolateLsp. cbv zeta. destruct weights_ok as [W20 W30]. destruct Hm as [-> | ->]; cbn [Z.eqb Pos.eqb] in *.
  - change (subframes 20) with 4. destruct (subframe_filters_ok kLsfWeight20ms old lsf 4 0 Ho Hl W20) as (V & V2 & HV & HV2 & E).
    exists V, V2, lsf. split; [done|]. split; [done|]. split; [done|]. intros J J2 Jl HJ HJ2 HJl.
    rewrite <-(known_nil 0 J), <-(known_nil 0 J2) by lia. change (10 + 1) with 11. change (Z.to_nat 4) with 4%nat.
    specialize (E old Jl [] [] J J2 eq_refl eq_refl ltac:(lia) ltac:(lia)). rewrite (known_full old old) in E by done. rewrite E.
    cbn [mbind option_bind app]. rewrite !known_nil by lia. rewrite aload_in by (rewrite ?zlen_known; rewrite ?(proj1 Hl); lia).
    cbn [mbind option_bind]. fold (block (known 0 lsf Jl) 0 10). by rewrite block_whole by (rewrite ?(proj1 Hl); lia).
  - change (subframes 30) with 6. set (a := block lsf 0 10). set (b := block lsf 10 10). destruct Hl as [Ll Pl].
    assert (freqs 10 32767 a) as Ha by (split; [apply zlen_block; lia|apply Forall_take, Forall_drop; done]).
    assert (freqs 10 32767 b) as Hb by (split; [apply zlen_block; lia|apply Forall_take, Forall_drop; done]).
    destruct (subframe_filters_ok kLsfWeight30ms old a 1 0 Ho Ha) as (V1 & V1' & [L1 S1] & [L1' S1'] & E1); [intros j Hj; apply W30; lia|].
    destruct (subframe_filters_ok kLsfWeight30ms a b 5 1 Ha Hb) as (V2 & V2' & [L2 S2] & [L2' S2'] & E2); [intros j Hj; apply W30; lia|].
    exists (V1 ++ V2), (V1' ++ V2'), b. split; [split; [rewrite zlen_app; lia|by apply Forall_app]|].
    split; [split; [rewrite zlen_app; lia|by apply Forall_app]|]. split; [done|]. intros J J2 Jl HJ HJ2 HJl.
    rewrite (known_full lsf Jl) by lia. assert (lsf = a ++ b) as Hab.
    { unfold a, b. rewrite block_0, (block_to_end lsf 10 10) by lia. by rewrite take_drop. }
    assert (drop (Z.to_nat 10) lsf = b) as Hdrop by (unfold b; rewrite block_to_end by lia; done). rewrite Hdrop.
    assert (Ek : known 0 a lsf = lsf) by (rewrite known_first, (proj1 Ha), Hdrop; done).
    specialize (E1 old lsf [] [] J J2 eq_refl eq_refl ltac:(lia) ltac:(lia)). rewrite Ek, (known_full old old), !known_nil in E1 by (done || lia).
    cbn [for_loop app] in E1. destruct (W30 0) as (w0 & Ew0 & _); [lia|]. rewrite (bind_eq _ _ _ Ew0) in E1. rewrite (bind_eq _ _ _ Ew0). change (11 * 0) with 0 in E1.
    destruct (interpolate_subframe old lsf w0 10 0 (J, J2)) as [st|]; [|done]. cbn [mbind option_bind] in E1 |- *. injection E1 as ->.
    specialize (E2 lsf b V1 V1' J J2 ltac:(lia) ltac:(lia) ltac:(lia) ltac:(lia)). rewrite Ek, (known_full b b) in E2 by done.
    change (10 + 1) with 11. rewrite E2. cbn [mbind option_bind]. rewrite aload_in by (rewrite ?(proj1 Hb); lia). cbn [mbind option_bind].
    fold (block b 0 10). by rewrite block_all by apply Hb.
Qed.

(** ** Witnesses *)

(** The last two frequencies are too close to each other and to 4 kHz. *)
Definition lsf_crowded : list Z := [2000; 4000; 6000; 8000; 10000; 12000; 14000; 16000; 25700; 25720].

Lemma crowded_ok : freqs (10 * 1) 25723 lsf_crowded.
Proof. split; [reflexivity|]. repeat (apply List.Forall_cons; [lia|]); apply List.Forall_nil. Qed.

Example LsfCheck_correct_witness :
  exists lsf' c, LsfCheck lsf_crowded LPC_FILTERORDER 1 = Some (lsf', c) /\ freqs (10 * 1) 31483 lsf' /\
    (separated lsf_crowded 1 /\ lsf' = lsf_crowded /\ c = 0 \/ ~ separated lsf_crowded 1 /\ c = 1) /\
    (forall m k, 0 <= m < 1 -> 0 <= k < 9 -> limited lsf' (m * 10 + k)).
Proof. exact (LsfCheck_correct 1 lsf_crowded (or_introl eq_refl) crowded_ok). Defined.

(** The tenth frequency of a set is never limited: here it ends above 4 kHz (25736 is pi). *)
Example LsfCheck_last_unlimited :
  LsfCheck lsf_crowded LPC_FILTERORDER 1 = Some ([2000; 4000; 6000; 8000; 10000; 12000; 14000; 16000; 25540; 25880], 1).
Proof. reflexivity. Qed.

(** Two passes do not always separate the frequencies. *)
Example LsfCheck_still_close :
  LsfCheck [2000; 4000; 6000; 8000; 10000; 12000; 14000; 16000; 16000; 16000] LPC_FILTERORDER 1 =
    Some ([2000; 4000; 6000; 8000; 10000; 12000; 14000; 15840; 16000; 16480], 1).
Proof. reflexivity. Qed.
