(* ===== verification/IlbcPlc.v ===== *)
(** Packet loss concealment and output filter of the iLBC decoder ([codecs/ilbc/]):
    [comp_corr.c], [do_plc.c], [xcorr_coef.c], [hp_output.c]. *)
From S2P Require Import Prelude SplMath SplFilt IlbcTables IlbcLsf IlbcDec IlbcExc.

(** [WEBRTC_SPL_ABS_W32]. *)
Definition abs_w32 (a : Z) : Z := s32 (if 0 <=? a then a else - a).

(** [WebRtcSpl_GetSizeInBits] of an [int32_t]. *)
Definition size_w32 (a : Z) : Z := GetSizeInBits (u32 a).

(** [WebRtcSpl_DotProductWithScale] of the entries of [a] and [b] from [p] and [q] on. *)
Definition dot (a : list Z) (p : Z) (b : list Z) (q length scale : Z) : option Z :=
  v ← aload a p length;
  w ← aload b q length;
  Some (DotProductWithScale v w scale).

(** [WebRtcSpl_MaxAbsValueW16] of the entries of [a] from [p] on. *)
Definition max_abs (a : list Z) (p length : Z) : option Z := v ← aload a p length; Some (MaxAbsValueW16C v).

(** ** [comp_corr.c] *)

(** Correlation and energy. *)
Definition CompCorr (buffer : list Z) (lag bLen sRange scale : Z) : option (Z * Z) :=
  let w := bLen - sRange - lag in
  corr ← dot buffer (bLen - sRange) buffer w sRange scale;
  ener ← dot buffer w buffer w sRange scale;
  Some (if ener =? 0 then (0, 1) else (corr, ener)).

(** ** [do_plc.c] *)

Record PlcSearch := mkSearch {
  ps_lag : Z;
  ps_crossSquareMax : Z;
  ps_cross : Z;
  ps_shiftMax : Z;
  ps_ener : Z;
  ps_ener_comp : Z;
}.

(** The normalised square of a correlation and its shift. *)
Definition square_norm (cross : Z) : Z * Z :=
  let shift := s16 (size_w32 (abs_w32 cross) - 15) in
  let x := shift_w32 cross (- shift) in
  (s16 (Z.shiftr (mul_16_16 x x) 15), shift).

(** One more lag. *)
Definition plc_compare (buffer : list Z) (bLen corrLen scale3 : Z) (j : Z) (s : PlcSearch) : option PlcSearch :=
  r ← CompCorr buffer j bLen corrLen scale3;
  let '(cross_comp, ener_comp) := r in
  let '(crossSquare, shift1) := square_norm cross_comp in
  let shift2 := s16 (size_w32 (ps_ener s) - 15) in
  let measure := mul_16_16 (shift_w32 (ps_ener s) (- shift2)) crossSquare in
  let shift3 := s16 (size_w32 ener_comp - 15) in
  let maxMeasure := mul_16_16 (shift_w32 ener_comp (- shift3)) (ps_crossSquareMax s) in
  let a := Z.shiftl (ps_shiftMax s) 1 + shift3 in
  let b := Z.shiftl shift1 1 + shift2 in
  let tmp1 := if b <? a then s16 (Z.min 31 (a - b)) else 0 in
  let tmp2 := if b <? a then 0 else s16 (Z.min 31 (b - a)) in
  Some (if Z.shiftr maxMeasure tmp2 <? Z.shiftr measure tmp1
        then mkSearch j crossSquare cross_comp shift1 ener_comp ener_comp
        else mkSearch (ps_lag s) (ps_crossSquareMax s) (ps_cross s) (ps_shiftMax s) (ps_ener s) ener_comp).

(** The pitch period and the squared periodicity of the last frame; [prevScale] is kept
    for later. *)
Definition plc_pitch (d : iLBC_Dec_Inst_t) (inlag : Z) : option (Z * Z * iLBC_Dec_Inst_t) :=
  let buffer := d_prevResidual d in
  let blockl := d_blockl d in
  max ← max_abs buffer 0 blockl;
  let scale3 := s16 (Z.shiftl (GetSizeInBits max) 1 - 25) in
  let scale3 := if scale3 <? 0 then 0 else scale3 in
  let d := d <| d_prevScale := scale3 |> in
  let lag := s16 (inlag - 3) in
  let corrLen := s16 (Z.min 60 (blockl - (inlag + 3))) in
  r ← CompCorr buffer lag blockl corrLen scale3;
  let '(cross, ener) := r in
  let '(crossSquareMax, shiftMax) := square_norm cross in
  s ← for_loop 6 (inlag - 2) (plc_compare buffer blockl corrLen scale3) (mkSearch lag crossSquareMax cross shiftMax ener 0);
  tmp2W32 ← dot buffer (blockl - corrLen) buffer (blockl - corrLen) corrLen scale3;
  let max_perSquare :=
    if (0 <? tmp2W32) && (0 <? ps_ener_comp s) then
      let scale1 := s16 (NormW32 tmp2W32 - 16) in
      let tmp1 := s16 (shift_w32 tmp2W32 scale1) in
      let scale2 := s16 (NormW32 (ps_ener s) - 16) in
      let tmp2 := s16 (shift_w32 (ps_ener s) scale2) in
      let denom := s16 (Z.shiftr (mul_16_16 tmp1 tmp2) 16) in
      let totscale := s16 (scale1 + scale2 - 1) in
      let tmp1 := s16 (shift_w32 (ps_cross s) (Z.shiftr totscale 1)) in
      let tmp2 := s16 (shift_w32 (ps_cross s) (totscale - Z.shiftr totscale 1)) in
      s16 (DivW32W16 (mul_16_16 tmp1 tmp2) denom)
    else 0 in
  Some (ps_lag s, max_perSquare, d).

(** The attenuation after [lost] samples in a row, an [int], tested in the order
    of the source. *)
Definition plc_gain (lost : Z) : Z :=
  if 320 <? lost then 29491 else if 640 <? lost then 22938 else if 960 <? lost then 16384 else if 1280 <? lost then 0 else 32767.

(** The loop over [ind]. *)
Fixpoint plc_index (ind : nat) (max_perSquare : Z) : option Z :=
  p ← aget kPlcPerSqr (Z.of_nat ind);
  match ind with
  | O => Some 0
  | S k => if max_perSquare <? p then plc_index k max_perSquare else Some (Z.of_nat ind)
  end.

(** The share of the pitch repetition, in Q15. *)
Definition plc_pitchfact (max_perSquare : Z) : option Z :=
  if 7868 <? max_perSquare then Some 32767
  else if 839 <? max_perSquare then
    ind ← plc_index 5 max_perSquare;
    f ← aget kPlcPitchFact ind;
    slope ← aget kPlcPfSlope ind;
    p ← aget kPlcPerSqr ind;
    Some (s16 (Z.min (s32 (f + Z.shiftr (mul_16_16 slope (max_perSquare - p)) 11)) 32767))
  else Some 0.

Definition plc_tot_gain (use_gain i : Z) : Z :=
  if i <? 80 then use_gain
  else if i <? 160 then s16 (Z.shiftr (mul_16_16 31130 use_gain) 15)
  else s16 (Z.shiftr (mul_16_16 29491 use_gain) 15).

Record PlcLoop := mkPlc { pl_seed : Z; pl_randvec : list Z; pl_residual : list Z; pl_energy : Z }.

(** One sample of the concealed residual. *)
Definition plc_sample (prevResidual : list Z) (blockl use_lag use_gain pitchfact prevScale : Z) (i : Z) (s : PlcLoop)
    : option PlcLoop :=
  let seed := s16 (s32 (mul_16_16 (pl_seed s) 31821 + 13849)) in
  let randlag := 53 + Z.land seed 63 in
  let pick := i - randlag in
  r ← (if pick <? 0 then aget prevResidual (blockl + pick) else aget prevResidual pick);
  let pick := i - use_lag in
  x ← (if pick <? 0 then aget prevResidual (blockl + pick) else aget (pl_residual s) pick);
  let mixed := s16 (Z.shiftr (s32 (mul_16_16 pitchfact x + mul_16_16 (32767 - pitchfact) r + 16384)) 15) in
  let y := s16 (Z.shiftr (mul_16_16 (plc_tot_gain use_gain i) mixed) 15) in
  Some (mkPlc seed (pl_randvec s ++ [r]) (pl_residual s ++ [y]) (s32 (pl_energy s + Z.shiftr (mul_16_16 y y) (prevScale + 1)))).

(** Residual and filter of a lost frame. *)
Definition plc_conceal (d : iLBC_Dec_Inst_t) (inlag : Z) : option (list Z * list Z * iLBC_Dec_Inst_t) :=
  let d := d <| d_consPLICount := s32 (d_consPLICount d + 1) |> in
  r ← (if negb (d_prevPLI d =? 1) then plc_pitch d inlag else Some (d_prevLag d, d_perSquare d, d));
  let '(lag, max_perSquare, d) := r in
  let blockl := d_blockl d in
  let use_gain := plc_gain (s32 (d_consPLICount d * blockl)) in
  pitchfact ← plc_pitchfact max_perSquare;
  let use_lag := if lag <? 80 then s16 (2 * lag) else lag in
  s ← for_loop (Z.to_nat blockl) 0 (plc_sample (d_prevResidual d) blockl use_lag use_gain pitchfact (d_prevScale d))
        (mkPlc (d_seed d) [] [] 0);
  let residual :=
    if pl_energy s <? shift_w32 (blockl * 900) (- (d_prevScale d + 1)) then pl_randvec s else pl_residual s in
  lpc ← aload (d_prevLpc d) 0 (LPC_FILTERORDER + 1);
  Some (residual, lpc, d <| d_seed := pl_seed s |> <| d_prevLag := lag |> <| d_perSquare := max_perSquare |>).

(** [lpc] is entry [p] of [syntdenum].  Answer: the residual and the filter. *)
Definition DoThePlc (PLI : Z) (decresidual syntdenum : list Z) (p inlag : Z) (d : iLBC_Dec_Inst_t)
    : option (list Z * list Z * iLBC_Dec_Inst_t) :=
  r ← (if PLI =? 1 then plc_conceal d inlag
       else
         residual ← aload decresidual 0 (d_blockl d);
         lpc ← aload syntdenum p (LPC_FILTERORDER + 1);
         Some (residual, lpc, d <| d_consPLICount := 0 |>));
  let '(PLCresidual, PLClpc, d) := r in
  prevLpc ← astore (d_prevLpc d) 0 PLClpc;
  prevResidual ← astore (d_prevResidual d) 0 PLCresidual;
  Some (PLCresidual, PLClpc, d <| d_prevPLI := PLI |> <| d_prevLpc := prevLpc |> <| d_prevResidual := prevResidual |>).

(** ** [xcorr_coef.c] *)

Record XcSearch := mkXc {
  xc_Energy : Z;
  xc_maxlag : Z;
  xc_crossCorrSqMod_Max : Z;
  xc_EnergyMod_Max : Z;
  xc_totscale_max : Z;
}.

(** One lag. *)
Definition xcorr_step (buf : list Z) (target regressor subl step shifts rp_beg rp_end : Z) (k : Z) (s : XcSearch) : option XcSearch :=
  crossCorr ← dot buf target buf (regressor + step * k) subl shifts;
  let s :=
    if (0 <? xc_Energy s) && (0 <? crossCorr) then
      let crossCorrScale := s16 (NormW32 crossCorr - 16) in
      let crossCorrmod := s16 (shift_w32 crossCorr crossCorrScale) in
      let Energyscale := s16 (NormW32 (xc_Energy s) - 16) in
      let EnergyMod := s16 (shift_w32 (xc_Energy s) Energyscale) in
      let crossCorrSqMod := s16 (Z.shiftr (mul_16_16 crossCorrmod crossCorrmod) 16) in
      let totscale := s16 (Energyscale - Z.shiftl crossCorrScale 1) in
      let scalediff := s16 (totscale - xc_totscale_max s) in
      let scalediff := Z.max (Z.min scalediff 31) (-31) in
      let newCrit := crossCorrSqMod * xc_EnergyMod_Max s in
      let maxCrit := xc_crossCorrSqMod_Max s * EnergyMod in
      let newCrit := if scalediff <? 0 then Z.shiftr newCrit (- scalediff) else newCrit in
      let maxCrit := if scalediff <? 0 then maxCrit else Z.shiftr maxCrit scalediff in
      if maxCrit <? newCrit then mkXc (xc_Energy s) k crossCorrSqMod EnergyMod totscale else s
    else s in
  e ← aget buf (rp_end + step * k);
  b ← aget buf (rp_beg + step * k);
  Some (mkXc (s32 (xc_Energy s + step * Z.shiftr (e * e - b * b) shifts)) (xc_maxlag s) (xc_crossCorrSqMod_Max s)
          (xc_EnergyMod_Max s) (xc_totscale_max s)).

(** [target] and [regressor] are entries of [buf]. *)
Definition XcorrCoef (buf : list Z) (target regressor subl searchLen offset step : Z) : option Z :=
  max ← (if step =? 1 then max_abs buf regressor (s16 (subl + searchLen - 1))
         else max_abs buf (regressor - searchLen) (s16 (subl + searchLen - 1)));
  let rp_beg := if step =? 1 then regressor else regressor - 1 in
  let rp_end := if step =? 1 then regressor + subl else regressor + subl - 1 in
  let shifts := if 5000 <? max then 2 else 0 in
  Energy ← dot buf regressor buf regressor subl shifts;
  s ← for_loop (Z.to_nat searchLen) 0 (xcorr_step buf target regressor subl step shifts rp_beg rp_end)
        (mkXc Energy 0 0 WORD16_MAX (-500));
  Some (xc_maxlag s + offset).

(** ** [hp_output.c] *)

(** One sample: output, and the filter states [y] and [x]. *)
Definition hp_step (ba : list Z) (signal : Z) (y x : list Z) : option (Z * list Z * list Z) :=
  b0 ← aget ba 0; b1 ← aget ba 1; b2 ← aget ba 2; a1 ← aget ba 3; a2 ← aget ba 4;
  y0 ← aget y 0; y1 ← aget y 1; y2 ← aget y 2; y3 ← aget y 3;
  x0 ← aget x 0; x1 ← aget x 1;
  let t := s32 (mul_16_16 y1 a1 + mul_16_16 y3 a2) in
  let t := Z.shiftr t 15 in
  let t := s32 (t + mul_16_16 y0 a1) in
  let t := s32 (t + mul_16_16 y2 a2) in
  let t := s32 (Z.shiftl t 1) in
  let t := s32 (t + mul_16_16 signal b0) in
  let t := s32 (t + mul_16_16 x0 b1) in
  let t := s32 (t + mul_16_16 x1 b2) in
  let tb := s32 (t + 1024) in
  let tb := if 67108863 <? tb then 67108863 else if tb <? -67108864 then -67108864 else tb in
  let t := if 268435455 <? t then WORD32_MAX else if t <? -268435456 then WORD32_MIN else Z.shiftl t 3 in
  let h := s16 (Z.shiftr t 16) in
  let l := s16 (Z.shiftr (s32 (t - s32 (Z.shiftl h 16))) 1) in
  Some (s16 (Z.shiftr tb 11), [h; l; y0; y1], [signal; x0]).

(** The samples from entry [p] on are filtered in place. *)
Definition HpOutput (signal : list Z) (p : Z) (ba y x : list Z) (len : Z) : option (list Z * list Z * list Z) :=
  for_loop (Z.to_nat len) 0 (fun i st =>
    let '(signal, y, x) := st in
    s ← aget signal (p + i);
    r ← hp_step ba s y x;
    let '(out, y, x) := r in
    signal ← aset signal (p + i) out;
    Some (signal, y, x)) (signal, y, x).
