(* ===== verification/IlbcPlcInv.v ===== *)
(** Concealment of lost frames in the iLBC decoder: it stays inside of the history,
    keeps the state well-formed and is never louder than the history. *)
From S2P Require Import Prelude SplMath SplFilt IlbcTables IlbcLsf IlbcDec IlbcExc IlbcExcInv IlbcPlc.

Lemma dot_ok a p b q n scale : 0 <= n -> 0 <= p -> p + n <= zlen a -> 0 <= q -> q + n <= zlen b ->
  exists v, dot a p b q n scale = Some v.
Proof. intros. unfold dot. rewrite !aload_in by lia. by eexists. Qed.

Lemma vec_ext_above v : forall m, 0 <= m -> 0 <= vec_ext above m v.
Proof. induction v as [|x v IH]; intros m Hm; cbn; [done|]. apply IH. unfold above. destruct (Z.ltb_spec m x); lia. Qed.

Lemma max_abs_ok a p n : 0 < n -> 0 <= p -> p + n <= zlen a -> exists m, max_abs a p n = Some m /\ 0 <= m < 32768.
Proof.
  intros Hn Hp Hl. unfold max_abs. rewrite aload_in by lia. eexists. split; [reflexivity|]. fold (block a p n).
  destruct (block a p n) as [|x v] eqn:E.
  { pose proof (length_block a p n) as Hb. rewrite E in Hb. cbn in Hb. lia. }
  unfold MaxAbsValueW16C, WORD16_MAX. pose proof (vec_ext_above (Z.abs <$> (x :: v)) 0 ltac:(lia)) as H0.
  case_if; rewrite s16_id by (unfold in_s16; lia); lia.
Qed.

Lemma CompCorr_ok buffer lag bLen sRange scale : 0 <= sRange -> 0 <= lag -> 0 <= bLen - sRange - lag -> bLen <= zlen buffer ->
  exists corr ener, CompCorr buffer lag bLen sRange scale = Some (corr, ener).
Proof.
  intros Hs Hl Hw Hb. unfold CompCorr. cbv zeta.
  destruct (dot_ok buffer (bLen - sRange) buffer (bLen - sRange - lag) sRange scale) as [c Ec]; [lia..|].
  destruct (dot_ok buffer (bLen - sRange - lag) buffer (bLen - sRange - lag) sRange scale) as [e Ee]; [lia..|].
  rewrite (bind_eq _ _ _ Ec), (bind_eq _ _ _ Ee). case_if; by eexists _, _.
Qed.

(** ** Pitch *)

Lemma plc_compare_ok buffer bLen corrLen scale3 j s : 0 <= corrLen -> 0 <= j -> 0 <= bLen - corrLen - j -> bLen <= zlen buffer ->
  exists s', plc_compare buffer bLen corrLen scale3 j s = Some s' /\ (ps_lag s' = j \/ ps_lag s' = ps_lag s).
Proof.
  intros Hc Hj Hb Hl. unfold plc_compare. destruct (CompCorr_ok buffer j bLen corrLen scale3) as (c & e & E); [lia..|].
  rewrite (bind_eq _ _ _ E). destruct (square_norm c) as [sq sh]. cbv zeta. eexists. split; [reflexivity|]. case_if; auto.
Qed.

Lemma plc_pitch_ok mode d inlag : dec_ok mode d -> 19 <= inlag <= 119 ->
  exists lag per sc, plc_pitch d inlag = Some (lag, per, d <| d_prevScale := sc |>) /\ 16 <= lag <= 122 /\ in_s16 per /\ 0 <= sc <= 7.
Proof.
  intros Hd Hlag. destruct (ok_prevResidual _ _ Hd) as [Lpr _]. destruct (frame_params_cases _ _ (ok_params _ _ Hd)) as (_ & _ & Hbl).
  assert (d_blockl d = 160 \/ d_blockl d = 240) as Hb by (rewrite Hbl; unfold subframes; case_if; lia). clear Hbl.
  unfold plc_pitch. cbv zeta. destruct (max_abs_ok (d_prevResidual d) 0 (d_blockl d)) as (m & Em & Hm); [lia..|]. rewrite (bind_eq _ _ _ Em).
  set (sc := if s16 (Z.shiftl (GetSizeInBits m) 1 - 25) <? 0 then 0 else s16 (Z.shiftl (GetSizeInBits m) 1 - 25)).
  assert (0 <= sc <= 7) as Hsc.
  { assert (0 <= GetSizeInBits m <= 15) as Hs.
    { rewrite GetSizeInBits_spec by (unfold in_u32; lia). destruct (Z.eqb_spec m 0); [lia|].
      pose proof (Z.log2_nonneg m). assert (Z.log2 m < 15) by (apply Z.log2_lt_pow2; lia). lia. }
    unfold sc. rewrite Z.shiftl_mul_pow2 by lia. rewrite s16_id by (unfold in_s16; lia). case_if; lia. }
  rewrite (s16_id (inlag - 3)) by (unfold in_s16; lia). set (corrLen := s16 (Z.min 60 (d_blockl d - (inlag + 3)))).
  assert (0 < corrLen <= 60 /\ corrLen <= d_blockl d - (inlag + 3)) as [Hc Hc2].
  { unfold corrLen. rewrite s16_id by (unfold in_s16; lia). lia. }
  destruct (CompCorr_ok (d_prevResidual d) (inlag - 3) (d_blockl d) corrLen sc) as (c & e & E); [lia..|]. rewrite (bind_eq _ _ _ E).
  destruct (square_norm c) as [sq sh].
  match goal with |- context [for_loop 6 ?i ?f ?s0] => destruct (for_loop_inv (fun _ s => inlag - 3 <= ps_lag s <= inlag + 3) f 6 i s0)
    as (s & Es & Hs) end; [cbn; lia| |].
  - intros j s Hj Hs. destruct (plc_compare_ok (d_prevResidual d) (d_blockl d) corrLen sc j s) as (s' & E' & H'); [lia..|].
    exists s'. split; [done|]. lia.
  - rewrite (bind_eq _ _ _ Es).
    destruct (dot_ok (d_prevResidual d) (d_blockl d - corrLen) (d_prevResidual d) (d_blockl d - corrLen) corrLen sc) as [t Et]; [lia..|].
    rewrite (bind_eq _ _ _ Et). eexists _, _, sc. split; [reflexivity|]. split; [lia|]. split; [|done].
    case_if; [apply s16_range|unfold in_s16; lia].
Qed.

(** ** Mixing *)

Lemma plc_index_ok per : 839 < per -> forall n, (n <= 5)%nat ->
  exists ind p, plc_index n per = Some ind /\ 0 <= ind <= 5 /\ aget kPlcPerSqr ind = Some p /\ p <= per.
Proof.
  intros Hper. induction n as [|n IH]; intros Hn; cbn [plc_index].
  - exists 0, 839. split; [done|]. split; [lia|]. split; [done|lia].
  - destruct (aget_in kPlcPerSqr (Z.of_nat (S n))) as [p Ep]; [change (zlen kPlcPerSqr) with 6; lia|]. rewrite (bind_eq _ _ _ Ep).
    destruct (Z.ltb_spec per p); [apply IH; lia|]. exists (Z.of_nat (S n)), p. split; [done|]. split; [lia|]. done.
Qed.

Lemma plc_pitchfact_ok per : in_s16 per -> exists f, plc_pitchfact per = Some f /\ 0 <= f <= 32767.
Proof.
  intros Hp. unfold plc_pitchfact. destruct (Z.ltb_spec 7868 per); [exists 32767; split; [done|lia]|].
  destruct (Z.ltb_spec 839 per); [|exists 0; split; [done|lia]].
  destruct (plc_index_ok per ltac:(lia) 5 ltac:(lia)) as (ind & p & Ei & Hi & Ep & Hpp). rewrite (bind_eq _ _ _ Ei).
  assert (Hnn : forall l k, Forall (fun x => 0 <= x < 32768) l -> 0 <= k < zlen l -> exists x, aget l k = Some x /\ 0 <= x < 32768).
  { intros l k Hl Hk. destruct (aget_in l k Hk) as [x E]. exists x. split; [done|]. exact (aget_Forall (fun x => 0 <= x < 32768) l k x Hl E). }
  destruct (Hnn kPlcPitchFact ind) as (f & Ef & Hf); [repeat (apply List.Forall_cons; [lia|]); apply List.Forall_nil|change (zlen kPlcPitchFact) with 6; lia|].
  destruct (Hnn kPlcPfSlope ind) as (sl & Es & Hs); [repeat (apply List.Forall_cons; [lia|]); apply List.Forall_nil|change (zlen kPlcPfSlope) with 6; lia|].
  destruct (Hnn kPlcPerSqr ind) as (p' & Ep' & Hp'); [repeat (apply List.Forall_cons; [lia|]); apply List.Forall_nil|change (zlen kPlcPerSqr) with 6; lia|].
  simplify_eq. rewrite (bind_eq _ _ _ Ef), (bind_eq _ _ _ Es), (bind_eq _ _ _ Ep). eexists. split; [reflexivity|].
  unfold mul_16_16. unfold in_s16 in Hp. rewrite (s16_id sl), (s16_id (per - p)) by (unfold in_s16; lia).
  assert (0 <= Z.shiftr (sl * (per - p)) 11 <= 1000000) as Hq.
  { rewrite Z.shiftr_div_pow2 by lia. change (2 ^ 11) with 2048. assert (0 <= sl * (per - p) <= 32768 * 7868) by nia.
    Z.to_euclidean_division_equations; lia. }
  rewrite s32_id by (unfold in_s32; lia). rewrite s16_id by (unfold in_s16; lia). lia.
Qed.

Lemma plc_gain_range lost : 0 <= plc_gain lost <= 32767.
Proof. unfold plc_gain. repeat case_if; lia. Qed.

Lemma scaled_range g x M : 0 <= g <= 32767 -> - M <= x <= M -> - M <= Z.shiftr (g * x) 15 <= M.
Proof.
  intros Hg Hx. rewrite Z.shiftr_div_pow2 by lia. change (2 ^ 15) with 32768. assert (- (32767 * M) <= g * x <= 32767 * M) by nia.
  Z.to_euclidean_division_equations; lia.
Qed.

Lemma plc_tot_gain_range g i : 0 <= g <= 32767 -> 0 <= plc_tot_gain g i <= 32767.
Proof.
  intros Hg. unfold plc_tot_gain, mul_16_16. rewrite (s16_id g), (s16_id 31130), (s16_id 29491) by (unfold in_s16; lia).
  assert (H : forall c, 0 <= c <= 32767 -> 0 <= Z.shiftr (c * g) 15 <= 32767).
  { intros c Hc. pose proof (scaled_range c g 32767 Hc ltac:(lia)). split; [|lia]. apply Z.shiftr_nonneg. nia. }
  pose proof (H 31130 ltac:(lia)). pose proof (H 29491 ltac:(lia)). repeat case_if; rewrite ?s16_id by (unfold in_s16; lia); lia.
Qed.

(** Samples of the history up to [M]. *)
Definition quiet (M : Z) (l : list Z) : Prop := Forall (fun x => - M <= x <= M) l.

Lemma quiet_get M l i x : quiet M l -> aget l i = Some x -> - M <= x <= M.
Proof. intros H E. exact (aget_Forall (fun x => - M <= x <= M) l i x H E). Qed.

(** Two lists that are never louder than the history [pr]. *)
Definition no_louder (pr l : list Z) : Prop := forall M, 0 <= M <= 32767 -> quiet M pr -> quiet M l.

Lemma no_louder_snoc pr l x : no_louder pr l -> (forall M, 0 <= M <= 32767 -> quiet M pr -> - M <= x <= M) -> no_louder pr (l ++ [x]).
Proof. intros Hl Hx M HM Hp. apply Forall_app. split; [by apply Hl|]. by apply List.Forall_cons; [apply Hx|]. Qed.

(** The mixture of [x] and [r], attenuated. *)
Lemma mixed_range f g x r M : 0 <= f <= 32767 -> 0 <= g <= 32767 -> 0 <= M <= 32767 -> - M <= x <= M -> - M <= r <= M ->
  - M <= s16 (Z.shiftr (mul_16_16 g (s16 (Z.shiftr (s32 (mul_16_16 f x + mul_16_16 (32767 - f) r + 16384)) 15))) 15) <= M.
Proof.
  intros Hf Hg HM Hx Hr. unfold mul_16_16. rewrite (s16_id f), (s16_id x), (s16_id (32767 - f)), (s16_id r), (s16_id g) by (unfold in_s16; lia).
  assert (- (32767 * M) <= f * x + (32767 - f) * r <= 32767 * M) as Ht by nia.
  rewrite s32_id by (unfold in_s32; lia).
  assert (- M <= Z.shiftr (f * x + (32767 - f) * r + 16384) 15 <= M) as Hm.
  { rewrite Z.shiftr_div_pow2 by lia. change (2 ^ 15) with 32768. Z.to_euclidean_division_equations; lia. }
  rewrite !(s16_id (Z.shiftr (_ + 16384) 15)) by (unfold in_s16; lia).
  pose proof (scaled_range g _ M Hg Hm). rewrite s16_id by (unfold in_s16; lia). done.
Qed.

Definition plc_inv (pr : list Z) (i : Z) (s : PlcLoop) : Prop :=
  array i (pl_randvec s) /\ array i (pl_residual s) /\ no_louder pr (pl_randvec s) /\ no_louder pr (pl_residual s).

Lemma array_snoc n l x : array n l -> in_s16 x -> array (n + 1) (l ++ [x]).
Proof. intros [Hl Hs] Hx. split; [rewrite zlen_app; unfold zlen in *; cbn; lia|]. apply Forall_app. split; [done|by apply List.Forall_cons]. Qed.

Lemma plc_sample_ok pr blockl use_lag g f sc i s : array 240 pr -> blockl = 160 \/ blockl = 240 -> 32 <= use_lag <= 158 ->
  0 <= g <= 32767 -> 0 <= f <= 32767 -> 0 <= i < blockl -> plc_inv pr i s ->
  exists s', plc_sample pr blockl use_lag g f sc i s = Some s' /\ plc_inv pr (i + 1) s'.
Proof.
  intros [Lpr Spr] Hb Hu Hg Hf Hi ((Lr & Sr) & (Lx & Sx) & Qr & Qx). unfold plc_sample. cbv zeta.
  set (seed := s16 (s32 (mul_16_16 (pl_seed s) 31821 + 13849))). assert (0 <= Z.land seed 63 < 64) as Hseed.
  { change 63 with (2 ^ 6 - 1). rewrite land_ones_mod by lia. apply Z.mod_pos_bound. lia. }
  assert (exists r, (if i - (53 + Z.land seed 63) <? 0 then aget pr (blockl + (i - (53 + Z.land seed 63))) else aget pr (i - (53 + Z.land seed 63))) = Some r
    /\ exists k, aget pr k = Some r) as (r & Er & kr & Ekr).
  { destruct (Z.ltb_spec (i - (53 + Z.land seed 63)) 0); match goal with |- context [aget pr ?k] => destruct (aget_in pr k) as [r E]; [lia|]; exists r; split; [done|by exists k] end. }
  rewrite (bind_eq _ _ _ Er).
  assert (exists x, (if i - use_lag <? 0 then aget pr (blockl + (i - use_lag)) else aget (pl_residual s) (i - use_lag)) = Some x /\
    in_s16 x /\ forall M, 0 <= M <= 32767 -> quiet M pr -> - M <= x <= M) as (x & Ex & Sxx & Qxx).
  { destruct (Z.ltb_spec (i - use_lag) 0).
    - destruct (aget_in pr (blockl + (i - use_lag))) as [x E]; [lia|]. exists x. split; [done|].
      split; [exact (aget_Forall _ _ _ _ Spr E)|]. intros M HM Hq. by apply (quiet_get M pr _ x Hq E).
    - destruct (aget_in (pl_residual s) (i - use_lag)) as [x E]; [lia|]. exists x. split; [done|].
      split; [exact (aget_Forall _ _ _ _ Sx E)|]. intros M HM Hq. exact (quiet_get M _ _ x (Qx M HM Hq) E). }
  rewrite (bind_eq _ _ _ Ex). eexists. split; [reflexivity|]. pose proof (plc_tot_gain_range g i Hg) as Hgain.
  split; [|split; [|split]]; cbn [pl_randvec pl_residual].
  - apply array_snoc; [done|exact (aget_Forall _ _ _ _ Spr Ekr)].
  - apply array_snoc; [done|apply s16_range].
  - apply no_louder_snoc; [done|]. intros M HM Hq. exact (quiet_get M _ _ _ Hq Ekr).
  - apply no_louder_snoc; [done|]. intros M HM Hq. apply mixed_range; try done; [by apply Qxx|exact (quiet_get M _ _ _ Hq Ekr)].
Qed.

(** ** A lost frame *)

(** [d'] is well-formed and differs from [d] at most in the variables of the concealment. *)
Definition plc_state (mode : Z) (d d' : iLBC_Dec_Inst_t) : Prop :=
  dec_ok mode d' /\ d_prevResidual d' = d_prevResidual d /\ d_prevLpc d' = d_prevLpc d /\
  d_blockl d' = d_blockl d /\ d_last_lag d' = d_last_lag d.

Lemma plc_start_ok mode d inlag : dec_ok mode d -> 19 <= inlag <= 119 -> exists lag per d',
  (if negb (d_prevPLI d =? 1) then plc_pitch d inlag else Some (d_prevLag d, d_perSquare d, d)) = Some (lag, per, d') /\
  16 <= lag <= 122 /\ in_s16 per /\ plc_state mode d d' /\ 0 <= d_prevScale d' <= 7 /\ d_consPLICount d' = d_consPLICount d.
Proof.
  intros Hd Hlag. destruct (Z.eqb_spec (d_prevPLI d) 1) as [Hp|Hp]; cbn [negb].
  - exists (d_prevLag d), (d_perSquare d), d. split; [done|]. split; [apply Hd|]. split; [apply Hd|]. split; [done|].
    by split; [apply (ok_prevScale _ _ Hd)|].
  - destruct (plc_pitch_ok mode d inlag Hd Hlag) as (lag & per & sc & E & Hl & Hper & Hsc). eexists _, _, _. split; [exact E|].
    split; [done|]. split; [done|]. clear E. split.
    + split; [destruct d, Hd; by split|]. by destruct d.
    + by destruct d.
Qed.

Lemma plc_conceal_ok mode d inlag : dec_ok mode d -> 19 <= inlag <= 119 ->
  exists res d', plc_conceal d inlag = Some (res, d_prevLpc d, d') /\ array (d_blockl d) res /\ no_louder (d_prevResidual d) res /\
    plc_state mode d d' /\ 0 <= d_prevScale d' <= 7 /\ d_consPLICount d' = s32 (d_consPLICount d + 1).
Proof.
  intros Hd Hlag. destruct (frame_params_cases _ _ (ok_params _ _ Hd)) as (_ & _ & Hbl).
  assert (d_blockl d = 160 \/ d_blockl d = 240) as Hb by (rewrite Hbl; unfold subframes; case_if; lia). clear Hbl.
  unfold plc_conceal. set (d1 := d <| d_consPLICount := s32 (d_consPLICount d + 1) |>). cbv zeta.
  assert (dec_ok mode d1) as Hd1 by (unfold d1; destruct d, Hd; by split).
  assert (d_prevResidual d1 = d_prevResidual d /\ d_prevLpc d1 = d_prevLpc d /\ d_blockl d1 = d_blockl d /\ d_last_lag d1 = d_last_lag d /\
    d_consPLICount d1 = s32 (d_consPLICount d + 1)) as (P1 & P2 & P3 & P4 & P5) by (destruct d; done). clearbody d1.
  destruct (plc_start_ok mode d1 inlag Hd1 Hlag) as (lag & per & d2 & E & Hl & Hper & (Hd2 & Q1 & Q2 & Q3 & Q4) & Hsc & Q5).
  rewrite E. cbn [mbind option_bind]. destruct (plc_pitchfact_ok per Hper) as (f & Ef & Hf). rewrite (bind_eq _ _ _ Ef).
  rewrite Q1, Q2, Q3, P1, P2, P3. set (use_lag := if lag <? 80 then s16 (2 * lag) else lag).
  assert (32 <= use_lag <= 158) as Hu by (unfold use_lag; case_if; rewrite ?s16_id by (unfold in_s16; lia); lia).
  match goal with |- context [plc_gain ?x] => pose proof (plc_gain_range x) as Hg; set (g := plc_gain x) in * end.
  match goal with |- context [for_loop _ 0 ?h ?s0] => destruct (for_loop_inv (plc_inv (d_prevResidual d)) h (Z.to_nat (d_blockl d)) 0 s0) as (s & Es & Hs) end.
  - repeat split; try done; intros M _ _; apply List.Forall_nil.
  - intros i s Hi Hs. apply plc_sample_ok; try done; [apply Hd|lia].
  - rewrite (bind_eq _ _ _ Es). destruct Hs as (Ar & Ax & Qr & Qx). rewrite Z2Nat.id, Z.add_0_l in Ar, Ax by lia.
    destruct (ok_prevLpc _ _ Hd) as [Ll Sl]. rewrite aload_in by (unfold LPC_FILTERORDER; lia). cbn [mbind option_bind].
    unfold LPC_FILTERORDER. rewrite drop_0, take_ge by (unfold zlen in Ll; lia).
    eexists _, _. split; [reflexivity|]. split; [by case_if|]. split; [by case_if|]. clear E Es g Hg Ef. split.
    + split; [clear P1 P2 P3 P4 P5 Q1 Q2 Q3 Q4 Q5; destruct d2, Hd2; by split|].
      rewrite <-P1, <-P2, <-P3, <-P4, <-Q1, <-Q2, <-Q3, <-Q4. by destruct d2.
    + rewrite <-P5, <-Q5. by destruct d2.
Qed.

Lemma no_louder_store pr res l : astore pr 0 res = Some l -> no_louder pr res -> no_louder pr l.
Proof.
  intros (_ & _ & ->)%astore_Some H M HM Hq. repeat (apply Forall_app; split); [by apply Forall_take|by apply H|by apply Forall_drop].
Qed.

(** The end of both cases: filter and residual are remembered. *)
Lemma plc_remember mode d d1 res lpc : plc_state mode d d1 -> array (d_blockl d) res -> array 11 lpc ->
  d_blockl d = 160 \/ d_blockl d = 240 -> forall PLI, (PLI = 1 -> 0 <= d_prevScale d1 <= 7) -> exists d',
  (prevLpc ← astore (d_prevLpc d1) 0 lpc; prevResidual ← astore (d_prevResidual d1) 0 res;
   Some (res, lpc, d1 <| d_prevPLI := PLI |> <| d_prevLpc := prevLpc |> <| d_prevResidual := prevResidual |>)) = Some (res, lpc, d') /\
  dec_ok mode d' /\ d_prevPLI d' = PLI /\ d_prevLpc d' = lpc /\ astore (d_prevResidual d) 0 res = Some (d_prevResidual d') /\
  d_blockl d' = d_blockl d /\ d_last_lag d' = d_last_lag d /\ d_consPLICount d' = d_consPLICount d1.
Proof.
  intros (Hd1 & Q1 & Q2 & Q3 & Q4) [Lr Sr] [Ll Sl] Hb PLI Hsc. rewrite Q1.
  destruct (ok_prevLpc _ _ Hd1) as [Lp Sp], (ok_prevResidual _ _ Hd1) as [Lpr Spr]. rewrite Q1 in Lpr, Spr.
  rewrite (astore_first (d_prevLpc d1) lpc) by lia. cbn [mbind option_bind]. rewrite (known_full lpc (d_prevLpc d1)) by lia.
  destruct (astore_in (d_prevResidual d) res 0) as (l & El & _); [lia..|]. destruct (astore_s16 _ _ _ _ El Spr Sr) as [Lx Sx].
  rewrite (bind_eq _ _ _ El). eexists. split; [reflexivity|]. rewrite <-Q3, <-Q4. assert (array 240 l) as Al by (by split; [rewrite Lx|]).
  rewrite El. clear El Q1 Q2 Q3 Q4. split; [destruct d1, Hd1; by split|]. by destruct d1.
Qed.

Lemma blockl_cases mode d : dec_ok mode d -> d_blockl d = 160 \/ d_blockl d = 240.
Proof. intros Hd. destruct (frame_params_cases _ _ (ok_params _ _ Hd)) as (_ & _ & ->). unfold subframes. case_if; lia. Qed.

(** A received frame is handed through and remembered. *)
Lemma DoThePlc_good mode d dr synt p inlag : dec_ok mode d -> d_blockl d <= zlen dr -> Forall in_s16 (block dr 0 (d_blockl d)) ->
  0 <= p -> p + 11 <= zlen synt -> Forall in_s16 (block synt p 11) ->
  exists d', DoThePlc 0 dr synt p inlag d = Some (block dr 0 (d_blockl d), block synt p 11, d') /\ dec_ok mode d' /\
    d_prevPLI d' = 0 /\ d_blockl d' = d_blockl d /\ d_consPLICount d' = 0.
Proof.
  intros Hd Hdr Sdr Hp Hl Ss. pose proof (blockl_cases mode d Hd) as Hb.
  unfold DoThePlc. change (0 =? 1) with false. cbn iota.
  unfold LPC_FILTERORDER. change (10 + 1) with 11. rewrite (aload_in dr), (aload_in synt) by lia. cbn [mbind option_bind]. fold (block dr 0 (d_blockl d)). fold (block synt p 11).
  destruct (plc_remember mode d (d <| d_consPLICount := 0 |>) (block dr 0 (d_blockl d)) (block synt p 11)) with (PLI := 0)
    as (d' & E & Hd' & H1 & H2 & H3 & H4 & H5 & H6).
  - split; [destruct d, Hd; by split|by destruct d].
  - split; [apply zlen_block; lia|done].
  - split; [apply zlen_block; lia|done].
  - done.
  - done.
  - exists d'. split; [exact E|]. split; [done|]. split; [done|]. split; [done|]. by destruct d.
Qed.

Lemma DoThePlc_lost mode d dr synt p inlag : dec_ok mode d -> 19 <= inlag <= 119 ->
  exists res d', DoThePlc 1 dr synt p inlag d = Some (res, d_prevLpc d, d') /\ dec_ok mode d' /\ array (d_blockl d) res /\
    no_louder (d_prevResidual d) res /\ no_louder (d_prevResidual d) (d_prevResidual d') /\ d_prevPLI d' = 1 /\
    d_prevLpc d' = d_prevLpc d /\ d_blockl d' = d_blockl d /\ d_consPLICount d' = s32 (d_consPLICount d + 1).
Proof.
  intros Hd Hlag. destruct (plc_conceal_ok mode d inlag Hd Hlag) as (res & d1 & E & Hr & Qr & Hst & Hsc & Hc).
  unfold DoThePlc. change (1 =? 1) with true. cbn iota. rewrite (bind_eq _ _ _ E).
  destruct (plc_remember mode d d1 res (d_prevLpc d) Hst Hr (ok_prevLpc _ _ Hd) (blockl_cases mode d Hd) 1 ltac:(done))
    as (d' & E' & Hd' & H1 & H2 & H3 & H4 & H5 & H6).
  exists res, d'. split; [exact E'|]. split; [done|]. split; [done|]. split; [done|]. split; [by eapply no_louder_store|].
  by rewrite H6.
Qed.

(** ** Consecutive losses *)

(** [n] frames are lost one after the other. *)
Fixpoint lose_frames (n : nat) (d : iLBC_Dec_Inst_t) : option (list (list Z) * iLBC_Dec_Inst_t) :=
  match n with
  | O => Some ([], d)
  | S n =>
      r ← DoThePlc 1 [] [] 0 (s16 (d_last_lag d)) d;
      q ← lose_frames n r.2;
      Some (r.1.1 :: q.1, q.2)
  end.

(** C20. Concealing losses is safe and never gets louder: however many frames of a stream are
    lost in a row, each is concealed by a residual of the frame's length that is computed inside of
    all arrays, no sample of it is larger in magnitude than the largest of the residual
    before the loss, the filter of the last good frame is kept, the losses are counted
    and the decoder stays well-formed. *)
Theorem DoThePlc_never_louder n mode d M (Hd : dec_ok mode d) (HM : 0 <= M <= 32767) (Hq : quiet M (d_prevResidual d)) :
  exists outs d', lose_frames n d = Some (outs, d') /\ length outs = n /\
    Forall (fun r => array (d_blockl d) r /\ quiet M r) outs /\
    dec_ok mode d' /\ quiet M (d_prevResidual d') /\ d_prevLpc d' = d_prevLpc d /\
    (in_s32 (d_consPLICount d + Z.of_nat n) -> 0 <= d_consPLICount d -> d_consPLICount d' = d_consPLICount d + Z.of_nat n).
Proof.
  revert d Hd Hq. induction n as [|n IH]; intros d Hd Hq.
  - exists [], d. do 2 (split; [done|]). split; [apply List.Forall_nil|]. do 3 (split; [done|]). intros _ _. lia.
  - pose proof (ok_last_lag _ _ Hd) as Hlag. cbn [lose_frames].
    destruct (DoThePlc_lost mode d [] [] 0 (s16 (d_last_lag d)) Hd) as (r & d1 & E & Hd1 & Ar & Qr & Qp & _ & El & Eb & Ec);
      [rewrite s16_id by (unfold in_s16; lia); lia|].
    rewrite (bind_eq _ _ _ E). cbn [fst snd].
    destruct (IH d1 Hd1 (Qp M HM Hq)) as (outs & d2 & E2 & L & F & Hd2 & Q2 & P2 & C2). rewrite (bind_eq _ _ _ E2).
    eexists _, _. split; [reflexivity|]. cbn [length fst snd]. split; [by rewrite L|]. rewrite Eb in F.
    split; [by apply List.Forall_cons; [split; [|apply Qr]|]|]. split; [done|]. split; [done|]. split; [by rewrite P2|].
    intros Hc H0. unfold in_s32 in Hc. rewrite s32_id in Ec by (unfold in_s32; lia). rewrite C2; rewrite ?Ec; unfold in_s32; lia.
Qed.

(** The attenuation that the source describes for long losses is never reached: the
    limits are tested from the lowest on. *)
Lemma plc_gain_floor lost : 320 < lost -> plc_gain lost = 29491.
Proof. intros H. unfold plc_gain. by destruct (Z.ltb_spec 320 lost); [|lia]. Qed.

Definition voiced_dec : iLBC_Dec_Inst_t :=
  (InitDecode (mkDec 0 0 0 0 0 0 0 0 [] [] 0 0 0 0 0 0 0 [] [] 0 [] [] [] 0 [] []) 20 1).2
    <| d_prevResidual := concat (replicate 12 ([900; -400; 250; 0; -700] ++ replicate 15 30)) |> <| d_last_lag := 40 |>.

Lemma Forall_range lo hi l : forallb (fun x => (lo <=? x) && (x <=? hi)) l = true -> Forall (fun x => lo <= x <= hi) l.
Proof.
  rewrite forallb_forall. intros H. apply List.Forall_forall. intros x [H1%Z.leb_le H2%Z.leb_le]%H%andb_true_iff. done.
Qed.

Lemma voiced_ok : dec_ok 20 voiced_dec.
Proof.
  destruct (InitDecode_ok (mkDec 0 0 0 0 0 0 0 0 [] [] 0 0 0 0 0 0 0 [] [] 0 [] [] [] 0 [] []) 20 1 (or_introl eq_refl)) as (d & E & H).
  unfold voiced_dec. rewrite E. cbn [snd]. destruct d, H. split; try done.
  split; [done|]. eapply List.Forall_impl; [|apply (Forall_range (-32768) 32767); vm_compute; reflexivity].
  intros x Hx. unfold in_s16. cbn in Hx. lia.
Qed.

Example DoThePlc_never_louder_witness :
  exists outs d', lose_frames 3 voiced_dec = Some (outs, d') /\ length outs = 3%nat /\
    Forall (fun r => array (d_blockl voiced_dec) r /\ quiet 900 r) outs /\
    dec_ok 20 d' /\ quiet 900 (d_prevResidual d') /\ d_prevLpc d' = d_prevLpc voiced_dec /\
    (in_s32 (d_consPLICount voiced_dec + Z.of_nat 3) -> 0 <= d_consPLICount voiced_dec ->
     d_consPLICount d' = d_consPLICount voiced_dec + Z.of_nat 3).
Proof.
  refine (DoThePlc_never_louder 3 20 voiced_dec 900 voiced_ok _ _); [lia|].
  apply Forall_range. vm_compute. reflexivity.
Defined.
