(* ===== verification/IlbcEnh.v ===== *)
(** The enhancer of the iLBC decoder ([codecs/ilbc/]): every block of the residual is
    mixed with the pitch cycles around it.  [nearest_neighbor.c], [my_corr.c],
    [enh_upsample.c], [refiner.c], [get_sync_seq.c], [smooth_out_data.c],
    [smooth.c], [enhancer.c]. *)
From S2P Require Import Prelude SplMath SplFilt IlbcTables IlbcLsf IlbcDec IlbcExc IlbcPlc.

Definition ENH_BLOCKL : Z := 80.
Definition ENH_BLOCKL_HALF : Z := 40.
Definition ENH_HL : Z := 3.
Definition ENH_SLOP : Z := 2.
Definition ENH_OVERHANG : Z := 2.
Definition ENH_UPS0 : Z := 4.
Definition ENH_FL0 : Z := 3.
Definition ENH_FLO_MULT2_PLUS1 : Z := 7.
Definition ENH_VECTL : Z := 86.
Definition ENH_CORRDIM : Z := 5.
Definition ENH_A0 : Z := 819.
Definition ENH_A0_MINUS_A0A0DIV4 : Z := 848256041.
Definition ENH_A0DIV2 : Z := 26843546.

(** ** [nearest_neighbor.c] *)

(** The index of the entry closest to [value]: the first with the least square distance. *)
Definition NearestNeighbor (array : list Z) (value arlength : Z) : option Z :=
  crit ← each arlength (fun i => a ← aget array i; let diff := s16 (a - value) in Some (mul_16_16 diff diff));
  Some (s16 (MinIndexW32 crit)).

(** ** [my_corr.c] *)

(** [seq1] and [seq2] are entries of one array. *)
Definition MyCorr (buf : list Z) (seq1 dim1 seq2 dim2 : Z) : option (list Z) :=
  max ← max_abs buf seq1 dim1;
  let scale := s16 (2 * size_w32 max - 26) in
  let scale := if scale <? 0 then 0 else scale in
  CrossCorrelation buf seq2 buf seq1 dim2 (s16 (dim1 - dim2 + 1)) scale 1.

(** ** [enh_upsample.c] *)

(** For every place of the output four times denser: the last input entry and the first
    coefficient that meet, and how many terms there are. *)
Definition ups_rows : list (Z * Z * nat) := [(2, 1, 3%nat); (3, 1, 4%nat); (4, 1, 5%nat); (4, 2, 4%nat); (4, 3, 3%nat)].

Definition ups_sum (seq1 polyp : list Z) (row : Z * Z * nat) : option Z :=
  let '(ps, pp, n) := row in
  for_loop n 0 (fun k sum => x ← aget seq1 (ps - k); c ← aget polyp (pp + k); Some (s32 (sum + mul_16_16 x c))) 0.

Definition EnhUpsample (seq1 : list Z) : option (list Z) :=
  each (ENH_UPS0 * ENH_CORRDIM) (fun q =>
    row ← aget ups_rows (q / ENH_UPS0);
    polyp ← aget kEnhPolyPhaser (q mod ENH_UPS0);
    ups_sum seq1 polyp row).

(** ** [refiner.c] *)

(** [WebRtcSpl_FilterMAFastQ12] with input from entry [base] and output from entry [o] of
    one array on. *)
Definition filter_ma_shared (vect : list Z) (base o : Z) (B : list Z) (len : Z) : option (list Z) :=
  for_loop (Z.to_nat len) 0 (fun i vect => s ← ma_sum B vect (base + i) 0; aset vect (o + i) (sat_q12 s)) vect.

(** [WebRtcSpl_AddAffineVectorToVector]. *)
Definition AddAffineVectorToVector (out inp : list Z) (gain add_constant right_shifts length : Z) : option (list Z) :=
  for_loop (Z.to_nat length) 0 (fun i out =>
    x ← aget inp i;
    y ← aget out i;
    aset out i (s16 (y + s16 (Z.shiftr (s32 (mul_16_16 x gain + add_constant)) right_shifts)))) out.

(** Where the search begins and how many places it has. *)
Definition search_segment (estSegPos idatal : Z) : Z * Z :=
  let estSegPosRounded := s16 (Z.shiftr (estSegPos - 2) 2) in
  let searchSegStartPos := s16 (estSegPosRounded - ENH_SLOP) in
  let searchSegStartPos := if searchSegStartPos <? 0 then 0 else searchSegStartPos in
  let searchSegEndPos := s16 (estSegPosRounded + ENH_SLOP) in
  let searchSegEndPos := if idatal <=? searchSegEndPos + ENH_BLOCKL then s16 (idatal - ENH_BLOCKL - 1) else searchSegEndPos in
  (searchSegStartPos, s16 (searchSegEndPos - searchSegStartPos + 1)).

(** The correlations as [int16_t], in an array of [ENH_CORRDIM] entries. *)
Definition corr_vec (corrVecTemp : list Z) (corrdim : Z) : option (list Z) :=
  let scalefact := size_w32 (MaxAbsValueW32C corrVecTemp) - 15 in
  corrVec ← each corrdim (fun i => c ← aget corrVecTemp i; Some (s16 (if 0 <? scalefact then Z.shiftr c scalefact else c)));
  astore (replicate (Z.to_nat ENH_CORRDIM) 0) 0 corrVec.

(** The samples around [st], zeros outside of the buffer. *)
Definition refine_vect (idata : list Z) (idatal st : Z) : option (list Z) :=
  let zeros n := replicate (Z.to_nat n) 0 in
  if st <? 0 then v ← aload idata 0 (ENH_VECTL + st); Some (zeros (- st) ++ v)
  else
    let en := s16 (st + ENH_VECTL) in
    if idatal <? en then v ← aload idata st (ENH_VECTL - (en - idatal)); Some (v ++ zeros (en - idatal))
    else aload idata st ENH_VECTL.

(** The start position that is refined, and the sum of the segments. *)
Definition Refiner (idata : list Z) (idatal centerStartPos estSegPos : Z) (surround : list Z) (gain : Z)
    : option (Z * list Z) :=
  let '(searchSegStartPos, corrdim) := search_segment estSegPos idatal in
  corrVecTemp ← MyCorr idata searchSegStartPos (s16 (corrdim + ENH_BLOCKL - 1)) centerStartPos ENH_BLOCKL;
  corrVec ← corr_vec corrVecTemp corrdim;
  corrVecUps ← EnhUpsample corrVec;
  v ← aload corrVecUps 0 (ENH_UPS0 * corrdim);
  let tloc := s16 (MaxIndexW32 v) in
  let updStartPos := s16 (s16 (mul_16_16 searchSegStartPos 4) + tloc + 4) in
  let tloc2 := s16 (Z.shiftr (tloc + 3) 2) in
  vect ← refine_vect idata idatal (s16 (searchSegStartPos + tloc2 - ENH_FL0));
  let fraction := s16 (s16 (mul_16_16 tloc2 ENH_UPS0) - tloc) in
  polyp ← aget kEnhPolyPhaser fraction;
  vect ← filter_ma_shared vect (ENH_FLO_MULT2_PLUS1 - 1) 0 (rev polyp) ENH_BLOCKL;
  surround ← AddAffineVectorToVector surround vect gain 32768 16 ENH_BLOCKL;
  Some (updStartPos, surround).

(** ** [get_sync_seq.c] *)

(** A block before the last one, which begins at [pos] and whose period is entry [lagBlock]
    (the neighbour is all that is read of the arrays [blockStartPos] and [lagBlock]). *)
Definition sync_past (idata : list Z) (idatal centerStartPos : Z) (period plocs : list Z) (periodl q : Z) (st : Z * Z * list Z)
    : option (Z * Z * list Z) :=
  let '(pos, lagBlock, surround) := st in
  p ← aget period lagBlock;
  let pos := s16 (pos - p) in
  lagBlock ← NearestNeighbor plocs (s16 (pos + s16 (mul_16_16 4 ENH_BLOCKL_HALF) - p)) periodl;
  r ← (if 0 <=? pos - s16 (mul_16_16 4 ENH_OVERHANG) then
         w ← aget kEnhWt q;
         Refiner idata idatal centerStartPos pos surround w
       else Some (pos, surround));
  Some (r.1, lagBlock, r.2).

(** A block behind the last one. *)
Definition sync_future (idata : list Z) (idatal centerStartPos : Z) (period plocs2 : list Z) (periodl hl q : Z) (st : Z * list Z)
    : option (Z * list Z) :=
  let '(pos, surround) := st in
  lagBlock ← NearestNeighbor plocs2 (s16 (pos + s16 (mul_16_16 4 ENH_BLOCKL_HALF))) periodl;
  p ← aget period lagBlock;
  let pos := s16 (pos + p) in
  if pos + s16 (mul_16_16 4 (ENH_BLOCKL + ENH_OVERHANG)) <? s16 (mul_16_16 4 idatal) then
    w ← aget kEnhWt (2 * hl - q);
    Refiner idata idatal centerStartPos pos surround w
  else Some (pos, surround).

Definition GetSyncSeq (idata : list Z) (idatal centerStartPos : Z) (period plocs : list Z) (periodl hl : Z) (surround : list Z)
    : option (list Z) :=
  let centerEndPos := s16 (centerStartPos + ENH_BLOCKL - 1) in
  lagBlock ← NearestNeighbor plocs (s16 (mul_16_16 2 (centerStartPos + centerEndPos))) periodl;
  let pos := s16 (mul_16_16 4 centerStartPos) in
  r ← for_loop (Z.to_nat hl) 0 (fun k => sync_past idata idatal centerStartPos period plocs periodl (hl - 1 - k)) (pos, lagBlock, surround);
  let surround := r.2 in
  plocs2 ← each periodl (fun i => l ← aget plocs i; p ← aget period i; Some (s16 (l - p)));
  r ← for_loop (Z.to_nat hl) (hl + 1) (sync_future idata idatal centerStartPos period plocs2 periodl hl) (pos, surround);
  Some r.2.

(** ** [smooth_out_data.c] *)

(** The output and the energy of its difference to [psseq]. *)
Definition Smooth_odata (psseq surround : list Z) (C : Z) : option (list Z * Z) :=
  odata ← each 80 (fun i => x ← aget surround i; Some (s16 (Z.shiftr (s32 (mul_16_16 C x + 1024)) 11)));
  errs ← for_loop 80 0 (fun i errs =>
           p ← aget psseq i;
           o ← aget odata i;
           let err := s16 (Z.shiftr (p - o) 3) in
           Some (s32 (errs + mul_16_16 err err))) 0;
  Some (odata, errs).

(** ** [smooth.c] *)

(** The inner products of the block [x] and its surroundings [y], and their scale. *)
Definition smooth_products (current surround : list Z) : Z * Z * Z * Z :=
  let maxtot := Z.max (MaxAbsValueW16C current) (MaxAbsValueW16C surround) in
  let scale := Z.max 0 (s16 (2 * size_w32 maxtot - 26)) in
  let w00 := DotProductWithScale current current scale in
  let w11 := DotProductWithScale surround surround scale in
  let w10 := DotProductWithScale surround current scale in
  (scale, if w00 <? 0 then WORD32_MAX else w00, w10, if w11 <? 0 then WORD32_MAX else w11).

(** The gain [C] of the first try, in Q11, and the largest error that it may have. *)
Definition smooth_first (scale w00 w11 : Z) : Z * Z :=
  let scale1 := 31 - size_w32 w00 in
  let scale2 := 15 - size_w32 w11 in
  let scale1' := if scale1 - 16 <? scale2 then scale1 else s16 (scale2 + 16) in
  let scale2' := if scale1 - 16 <? scale2 then s16 (scale1 - 16) else scale2 in
  let w00prim := s32 (Z.shiftl w00 scale1') in
  let w11prim := s16 (shift_w32 w11 scale2') in
  let C := if 64 <? w11prim then s16 (SqrtFloor (s32 (Z.shiftl (DivW32W16 w00prim w11prim) 6))) else 1 in
  let crit := if 31 <? 6 - scale + scale1' then 0
              else shift_w32 (s32 (ENH_A0 * Z.shiftr w00prim 14)) (- (6 - scale + scale1')) in
  (C, crit).

(** The difference between the cycles, in Q16. *)
Definition smooth_denom (w00 w10 w11 bitsw00 bitsw11 : Z) : Z :=
  let scale := - Z.max (bitsw00 - 15) (bitsw11 - 15) in
  let p00 := s16 (shift_w32 w00 scale) in
  let p10 := s16 (shift_w32 w10 scale) in
  let p11 := s16 (shift_w32 w11 scale) in
  let w00w00 := mul_16_16 p00 p00 in
  if 65536 <? w00w00 then
    let endiff := Z.max 0 (s32 (mul_16_16 p11 p00 - mul_16_16 p10 p10)) in
    DivW32W16 endiff (s16 (Z.shiftr w00w00 16))
  else 65536.

(** The gains [A] (Q9) and [B] (Q14) that keep the power. *)
Definition smooth_gains (w00 w10 w11 bitsw00 bitsw10 bitsw11 : Z) : Z * Z :=
  let denom := smooth_denom w00 w10 w11 bitsw00 bitsw11 in
  if 7 <? denom then
    let scale := s16 (size_w32 denom - 15) in
    let denomW16 := if 0 <? scale then s16 (Z.shiftr denom scale) else s16 denom in
    let num := if 0 <? scale then Z.shiftr ENH_A0_MINUS_A0A0DIV4 scale else ENH_A0_MINUS_A0A0DIV4 in
    let A := s16 (SqrtFloor (DivW32W16 num denomW16)) in
    let scale1 := s16 (31 - bitsw10) in
    let scale2 := s16 (21 - scale1) in
    let w10prim := s32 (Z.shiftl w10 scale1) in
    let w00prim := shift_w32 w00 (- scale2) in
    let scale := s16 (bitsw00 - scale2 - 15) in
    let w10prim := if 0 <? scale then Z.shiftr w10prim scale else w10prim in
    let w00prim := if 0 <? scale then Z.shiftr w00prim scale else w00prim in
    if (0 <? w00prim) && (0 <? w10prim) then
      let w11_div_w00 := DivW32W16 w10prim (s16 w00prim) in
      let B_W32 := if 31 <? size_w32 w11_div_w00 + size_w32 A then 0
                   else s32 (1073741824 - ENH_A0DIV2 - s32 (A * w11_div_w00)) in
      (A, s16 (Z.shiftr B_W32 16))
    else (0, 16384)
  else (0, 16384).

Definition Smooth (current surround : list Z) : option (list Z) :=
  let '(scale, w00, w10, w11) := smooth_products current surround in
  let '(C, crit) := smooth_first scale w00 w11 in
  r ← Smooth_odata current surround C;
  let '(odata, errs) := r in
  if crit <? errs then
    let w00' := if w00 <? 1 then 1 else w00 in
    let '(A, B) := smooth_gains w00' w10 w11 (size_w32 w00) (size_w32 (abs_w32 w10)) (size_w32 w11) in
    Some (ScaleAndAddVectors surround A 9 current B 14)
  else Some odata.

(** ** [enhancer.c] *)

Definition Enhancer (idata : list Z) (idatal centerStartPos : Z) (period plocs : list Z) (periodl : Z) : option (list Z) :=
  surround ← GetSyncSeq idata idatal centerStartPos period plocs periodl ENH_HL (replicate (Z.to_nat ENH_BLOCKL) 0);
  current ← aload idata centerStartPos ENH_BLOCKL;
  Smooth current surround.
