(* ===== verification/IlbcEnhInv.v ===== *)
(** The enhancer of the iLBC decoder stays inside of its buffers: every search position
    that the pitch periods can lead to is covered. *)
From S2P Require Import Prelude SplMath SplFilt IlbcTables IlbcLsf IlbcDec IlbcExc IlbcExcInv IlbcPlc IlbcPlcInv IlbcEnh.

Lemma s16_in x lo hi : lo <= x <= hi -> -32768 <= lo -> hi <= 32767 -> s16 x = x.
Proof. intros. apply s16_id. unfold in_s16. lia. Qed.

Lemma zlen_pos_cons (l : list Z) : 0 < zlen l -> l <> [].
Proof. by intros H ->. Qed.

(** ** Nearest neighbour and correlations *)

Lemma NearestNeighbor_ok array value n : 0 < n <= 32767 -> n <= zlen array ->
  exists i, NearestNeighbor array value n = Some i /\ 0 <= i < n.
Proof.
  intros Hn Hl. unfold NearestNeighbor.
  destruct (each_ok (fun _ => True) n (fun i => a ← aget array i; let diff := s16 (a - value) in Some (mul_16_16 diff diff)))
    as (c & E & Lc & _); [lia| |].
  - intros i Hi. destruct (aget_in array i) as [a Ea]; [lia|]. rewrite (bind_eq _ _ _ Ea). by eexists.
  - rewrite (bind_eq _ _ _ E). eexists. split; [reflexivity|].
    pose proof (vec_index_range below WORD32_MAX c (zlen_pos_cons c ltac:(lia))) as Hi. unfold MinIndexW32.
    rewrite s16_id by (unfold in_s16; lia). lia.
Qed.

Lemma MyCorr_ok buf seq1 n seq2 dim2 : 0 < dim2 -> 0 < n <= 1000 -> 0 <= seq1 -> seq1 + n + dim2 - 1 <= zlen buf ->
  0 <= seq2 -> seq2 + dim2 <= zlen buf -> n + dim2 <= 2000 ->
  exists v, MyCorr buf seq1 (s16 (n + dim2 - 1)) seq2 dim2 = Some v /\ zlen v = n /\ Forall in_s32 v.
Proof.
  intros Hd Hn H1 L1 H2 L2 Hs. unfold MyCorr. rewrite (s16_in (n + dim2 - 1) 0 2000) by lia.
  destruct (max_abs_ok buf seq1 (n + dim2 - 1)) as (m & E & _); [lia..|]. rewrite (bind_eq _ _ _ E). cbv zeta.
  rewrite (s16_in (n + dim2 - 1 - dim2 + 1) 0 2000) by lia. replace (n + dim2 - 1 - dim2 + 1) with n by lia.
  apply CrossCorrelation_safe; try lia.
Qed.

(** ** Up-sampling *)

Definition row_ok (row : Z * Z * nat) : bool :=
  let '(ps, pp, n) := row in (Z.of_nat n - 1 <=? ps) && (ps <? 5) && (0 <=? pp) && (pp + Z.of_nat n <=? 7).

Lemma ups_sum_ok seq polyp row : zlen seq = 5 -> zlen polyp = 7 -> row_ok row = true -> exists s, ups_sum seq polyp row = Some s.
Proof.
  destruct row as [[ps pp] n]. unfold row_ok. intros Hs Hp [[[H1 H2]%andb_true_iff H3]%andb_true_iff H4]%andb_true_iff.
  apply Z.leb_le in H1, H3, H4. apply Z.ltb_lt in H2. unfold ups_sum. rewrite <-(Nat2Z.id n).
  match goal with |- context [for_loop _ 0 ?f ?s] => destruct (for_loop_to (fun _ => True) f (Z.of_nat n) s) as (c & E & _) end;
    [done| |by exists c].
  intros k s Hk _. destruct (aget_in seq (ps - k)) as [x Ex]; [lia|]. destruct (aget_in polyp (pp + k)) as [c Ec]; [lia|].
  rewrite (bind_eq _ _ _ Ex), (bind_eq _ _ _ Ec). by eexists.
Qed.

Lemma ups_rows_ok : forallb row_ok ups_rows = true /\ forallb (fun p => zlen p =? 7) kEnhPolyPhaser = true.
Proof. by split. Qed.

Lemma aget_forallb {A} (f : A -> bool) l i x : forallb f l = true -> aget l i = Some x -> f x = true.
Proof.
  intros H E. rewrite forallb_forall in H. apply H. pose proof (aget_Some_range _ _ _ E).
  rewrite aget_lookup in E by lia. apply list_elem_of_In. by eapply list_elem_of_lookup_2.
Qed.

Lemma EnhUpsample_ok seq : zlen seq = 5 -> exists v, EnhUpsample seq = Some v /\ zlen v = 20.
Proof.
  intros Hs. unfold EnhUpsample, ENH_UPS0, ENH_CORRDIM. destruct ups_rows_ok as [Hr Hp].
  match goal with |- context [each ?n ?f] => destruct (each_ok (fun _ => True) n f) as (v & E & L & _); [done| |by exists v] end.
  intros q Hq. assert (zlen ups_rows = 5 /\ zlen kEnhPolyPhaser = 4) as [L1 L2] by done.
  destruct (aget_in ups_rows (q / 4)) as [row Er]; [Z.to_euclidean_division_equations; lia|].
  destruct (aget_in kEnhPolyPhaser (q mod 4)) as [p Ep]; [Z.to_euclidean_division_equations; lia|].
  rewrite (bind_eq _ _ _ Er), (bind_eq _ _ _ Ep). pose proof (aget_forallb _ _ _ _ Hp Ep) as Lp%Z.eqb_eq.
  destruct (ups_sum_ok seq p row Hs Lp) as [s Es]; [by eapply aget_forallb|]. by exists s.
Qed.

(** ** The search *)

Lemma search_segment_ok E : 8 <= E <= 2231 -> exists start n, search_segment E 640 = (start, n) /\
  0 <= start /\ (n = 4 /\ start = 0 \/ n = 5) /\ start + n <= 560 /\ E - 13 <= 4 * start <= E - 6.
Proof.
  intros HE. unfold search_segment, ENH_SLOP, ENH_BLOCKL. rewrite Z.shiftr_div_pow2 by lia. change (2 ^ 2) with 4. cbv zeta.
  pose proof (Z.div_mod (E - 2) 4 ltac:(lia)) as Hdm. pose proof (Z.mod_pos_bound (E - 2) 4 ltac:(lia)) as Hm.
  set (q := (E - 2) / 4) in *. assert (1 <= q <= 557) as Hq by lia.
  rewrite (s16_in q 0 600), (s16_in (q - 2) (-10) 600), (s16_in (q + 2) 0 600) by lia.
  destruct (Z.leb_spec 640 (q + 2 + 80)); [lia|]. eexists _, _. split; [reflexivity|].
  destruct (Z.ltb_spec (q - 2) 0).
  - assert (q = 1) by lia. rewrite s16_id by (unfold in_s16; lia). lia.
  - rewrite s16_id by (unfold in_s16; lia). lia.
Qed.

Lemma corr_vec_ok c n : 0 < n <= 5 -> zlen c = n -> exists v, corr_vec c n = Some v /\ zlen v = 5.
Proof.
  intros Hn Hl. unfold corr_vec, ENH_CORRDIM. cbv zeta.
  match goal with |- context [each n ?f] => destruct (each_ok (fun _ => True) n f) as (v & E & L & _); [lia| |] end.
  - intros i Hi. destruct (aget_in c i) as [x Ex]; [lia|]. rewrite (bind_eq _ _ _ Ex). by eexists.
  - rewrite (bind_eq _ _ _ E). destruct (astore_in (replicate (Z.to_nat 5) 0) v 0) as (l & El & Ll); [lia| |].
    + rewrite L. change (zlen (replicate (Z.to_nat 5) 0)) with 5. lia.
    + exists l. split; [done|]. by rewrite Ll.
Qed.

Lemma block_in l i n : array (zlen l) l -> 0 <= i -> 0 <= n -> i + n <= zlen l ->
  aload l i n = Some (block l i n) /\ array n (block l i n).
Proof.
  intros [_ Hs] Hi Hn Hl. split; [by apply aload_in|]. split; [by apply zlen_block|by apply block_s16].
Qed.

Lemma array_self n l : array n l -> array (zlen l) l.
Proof. by intros [Hl Hs]. Qed.

Lemma array_app n m a b : array n a -> array m b -> array (n + m) (a ++ b).
Proof. intros [La Sa] [Lb Sb]. split; [rewrite zlen_app; lia|by apply Forall_app]. Qed.

Lemma refine_vect_ok idata st : array 643 idata -> -3 <= st <= 557 -> exists v, refine_vect idata 640 st = Some v /\ array 86 v.
Proof.
  intros [Li Si] Hst. pose proof (array_self _ _ (conj Li Si)) as Ha. unfold refine_vect, ENH_VECTL. cbv zeta.
  destruct (Z.ltb_spec st 0).
  - destruct (block_in idata 0 (86 + st) Ha) as [E A]; [lia..|]. rewrite (bind_eq _ _ _ E). eexists. split; [reflexivity|].
    replace 86 with (- st + (86 + st)) at 1 by lia. apply array_app; [|done]. apply array_zeros. lia.
  - rewrite (s16_in (st + 86) 0 700) by lia. destruct (Z.ltb_spec 640 (st + 86)).
    + destruct (block_in idata st (86 - (st + 86 - 640)) Ha) as [E A]; [lia..|]. rewrite (bind_eq _ _ _ E).
      eexists. split; [reflexivity|]. replace 86 with (86 - (st + 86 - 640) + (st + 86 - 640)) at 1 by lia.
      apply array_app; [done|]. apply array_zeros. lia.
    + destruct (block_in idata st 86 Ha) as [E A]; [lia..|]. by eexists.
Qed.

(** An entry of an array. *)
Lemma array_insert n l i x : array n l -> in_s16 x -> array n (<[i := x]> l).
Proof. intros [Hl Hs] Hx. split; [by rewrite zlen_insert|]. by apply Forall_insert. Qed.

Lemma filter_ma_shared_ok vect n base o B len : array n vect -> 0 <= len -> zlen B - 1 <= base -> base + len <= n ->
  0 <= o -> o + len <= n -> exists v, filter_ma_shared vect base o B len = Some v /\ array n v.
Proof.
  intros Ha Hl Hb Hn Ho Hon. unfold filter_ma_shared. apply for_loop_to; [done|]. intros i v Hi Hv.
  destruct (ma_sum_safe B v (base + i) 0) as [s Es]; [rewrite (proj1 Hv); lia|]. rewrite (bind_eq _ _ _ Es).
  rewrite aset_in by (rewrite (proj1 Hv); lia). eexists. split; [done|]. apply array_insert; [done|apply sat_q12_range].
Qed.

Lemma AddAffine_ok out inp gain c shift n m len : array n out -> array m inp -> 0 <= len <= n -> len <= m ->
  exists v, AddAffineVectorToVector out inp gain c shift len = Some v /\ array n v.
Proof.
  intros Ho [Li Si] Hn Hm. unfold AddAffineVectorToVector. apply for_loop_to; [done|]. intros i v Hi Hv.
  destruct (aget_in inp i) as [x Ex]; [lia|]. destruct (aget_in v i) as [y Ey]; [rewrite (proj1 Hv); lia|].
  rewrite (bind_eq _ _ _ Ex), (bind_eq _ _ _ Ey), aset_in by (rewrite (proj1 Hv); lia). eexists. split; [done|].
  apply array_insert; [done|apply s16_range].
Qed.

(** The place of the highest of the up-sampled correlations. *)
Lemma tloc_ok ups n : zlen ups = 20 -> 4 <= n <= 5 -> exists v, aload ups 0 (ENH_UPS0 * n) = Some v /\ 0 <= MaxIndexW32 v < 4 * n.
Proof.
  intros Hl Hn. unfold ENH_UPS0. rewrite aload_in by lia. eexists. split; [done|]. fold (block ups 0 (4 * n)).
  assert (zlen (block ups 0 (4 * n)) = 4 * n) as Hb by (apply zlen_block; lia).
  pose proof (vec_index_range above WORD32_MIN (block ups 0 (4 * n)) (zlen_pos_cons (block ups 0 (4 * n)) ltac:(lia))). unfold MaxIndexW32. lia.
Qed.

Lemma Refiner_ok idata center E surround gain : array 643 idata -> 0 <= center <= 560 -> 8 <= E <= 2231 -> array 80 surround ->
  exists pos s, Refiner idata 640 center E surround gain = Some (pos, s) /\ array 80 s /\ E - 9 <= pos <= E + 17.
Proof.
  intros Hi Hc HE Hs. unfold Refiner, ENH_BLOCKL, ENH_FL0, ENH_UPS0, ENH_FLO_MULT2_PLUS1.
  destruct (search_segment_ok E HE) as (start & n & -> & H0 & Hn & Hend & Hst).
  destruct (MyCorr_ok idata start n center 80) as (c & Ec & Lc & _); try lia; [rewrite (proj1 Hi); lia..|].
  rewrite (bind_eq _ _ _ Ec). destruct (corr_vec_ok c n) as (v & Ev & Lv); [lia|done|]. rewrite (bind_eq _ _ _ Ev).
  destruct (EnhUpsample_ok v Lv) as (u & Eu & Lu). rewrite (bind_eq _ _ _ Eu).
  destruct (tloc_ok u n Lu) as (w & Ew & Ht); [lia|]. unfold ENH_UPS0 in Ew. rewrite (bind_eq _ _ _ Ew).
  set (t := MaxIndexW32 w) in *. clearbody t. clear Ec Ev Eu Ew. cbv zeta. rewrite (s16_in t 0 20) by lia.
  rewrite Z.shiftr_div_pow2 by lia. change (2 ^ 2) with 4.
  assert (0 <= (t + 3) / 4 <= n /\ 0 <= (t + 3) / 4 * 4 - t <= 3) as [Hq Hf] by (Z.to_euclidean_division_equations; lia).
  set (q := (t + 3) / 4) in *. clearbody q. rewrite (s16_in q 0 20) by lia. unfold mul_16_16.
  rewrite (s16_in start 0 600), (s16_in q 0 20), (s16_in 4 0 4) by lia. rewrite (s16_in (start + q - 3) (-3) 600) by lia.
  destruct (refine_vect_ok idata (start + q - 3) Hi) as (x & Ex & Ax); [lia|]. rewrite (bind_eq _ _ _ Ex).
  rewrite (s16_in (q * 4) 0 20), (s16_in (q * 4 - t) 0 3) by lia.
  destruct (aget_in kEnhPolyPhaser (q * 4 - t)) as [p Ep]; [change (zlen kEnhPolyPhaser) with 4; lia|]. rewrite (bind_eq _ _ _ Ep).
  pose proof (aget_forallb _ _ _ _ (proj2 ups_rows_ok) Ep) as Lp%Z.eqb_eq.
  destruct (filter_ma_shared_ok x 86 (7 - 1) 0 (rev p) 80 Ax) as (y & Ey & Ay); [lia|unfold zlen in *; rewrite length_rev; lia|lia..|].
  rewrite (bind_eq _ _ _ Ey). destruct (AddAffine_ok surround y gain 32768 16 80 86 80 Hs Ay) as (z & Ez & Az); [lia..|].
  rewrite (bind_eq _ _ _ Ez). eexists _, _. split; [reflexivity|]. split; [done|].
  rewrite (s16_in (start * 4) 0 2400) by lia. rewrite s16_id by (unfold in_s16; lia). lia.
Qed.

(** ** The sequence of pitch cycles *)

(** The pitch periods, in quarters of a sample. *)
Definition periods_ok (period : list Z) : Prop := zlen period = 8 /\ Forall (fun x => 80 <= x <= 480) period.

Lemma period_get period i : periods_ok period -> 0 <= i < 8 -> exists p, aget period i = Some p /\ 80 <= p <= 480.
Proof.
  intros [Hl Hp] Hi. destruct (aget_in period i) as [p E]; [lia|]. exists p. split; [done|]. exact (aget_Forall _ _ _ _ Hp E).
Qed.

Lemma weight_get q : 0 <= q < 3 -> exists w, aget kEnhWt q = Some w.
Proof. intros Hq. apply aget_in. change (zlen kEnhWt) with 3. lia. Qed.

Section Sync.

Context (idata period plocs : list Z) (center : Z).
Hypothesis Hidata : array 643 idata.
Hypothesis Hperiod : periods_ok period.
Hypothesis Hplocs : zlen plocs = 8.
Hypothesis Hcenter : 320 <= center <= 520.

(** Before the block, [k] steps back. *)
Definition past_inv (k : Z) (st : Z * Z * list Z) : Prop :=
  1280 - 500 * k <= st.1.1 <= 2080 /\ 0 <= st.1.2 < 8 /\ array 80 st.2.

Lemma sync_past_ok k st : 0 <= k < 3 -> past_inv k st ->
  exists st', sync_past idata 640 center period plocs 8 (3 - 1 - k) st = Some st' /\ past_inv (k + 1) st'.
Proof using Hidata Hperiod Hplocs Hcenter.
  destruct st as [[pos lag] s]. intros Hk (Hpos & Hlag & Hs). cbn [fst snd] in *. unfold sync_past, ENH_BLOCKL_HALF, ENH_OVERHANG.
  destruct (period_get period lag Hperiod Hlag) as (p & Ep & Hp). rewrite (bind_eq _ _ _ Ep).
  rewrite (s16_in (pos - p) (-2000) 2080) by lia.
  change (s16 (mul_16_16 4 40)) with 160. change (s16 (mul_16_16 4 2)) with 8. cbv zeta.
  destruct (NearestNeighbor_ok plocs (s16 (pos - p + 160 - p)) 8) as (i & Ei & Hi); [lia..|]. rewrite (bind_eq _ _ _ Ei).
  destruct (Z.leb_spec 0 (pos - p - 8)).
  - destruct (weight_get (3 - 1 - k)) as [w Ew]; [lia|]. rewrite (bind_eq _ _ _ Ew).
    destruct (Refiner_ok idata center (pos - p) s w Hidata) as (pos' & s' & E & Hs' & Hpos'); [lia..|done|].
    rewrite (bind_eq _ _ _ E). eexists. split; [reflexivity|]. repeat split; cbn [fst snd]; try lia; apply Hs'.
  - eexists. split; [reflexivity|]. repeat split; cbn [fst snd]; try lia; apply Hs.
Qed.

(** Behind the block. *)
Definition future_inv (q : Z) (st : Z * list Z) : Prop := 1280 <= st.1 <= 2080 + 500 * (q - 4) /\ array 80 st.2.

Lemma sync_future_ok plocs2 q st : zlen plocs2 = 8 -> 4 <= q < 7 -> future_inv q st ->
  exists st', sync_future idata 640 center period plocs2 8 3 q st = Some st' /\ future_inv (q + 1) st'.
Proof using Hidata Hperiod Hcenter.
  destruct st as [pos s]. intros Hl Hq [Hpos Hs]. cbn [fst snd] in *. unfold sync_future, ENH_BLOCKL_HALF, ENH_OVERHANG, ENH_BLOCKL.
  destruct (NearestNeighbor_ok plocs2 (s16 (pos + s16 (mul_16_16 4 40))) 8) as (i & Ei & Hi); [lia..|]. rewrite (bind_eq _ _ _ Ei).
  destruct (period_get period i Hperiod Hi) as (p & Ep & Hp). rewrite (bind_eq _ _ _ Ep). cbv zeta.
  rewrite (s16_in (pos + p) 0 9000) by lia.
  change (s16 (mul_16_16 4 (80 + 2))) with 328. change (s16 (mul_16_16 4 640)) with 2560. destruct (Z.ltb_spec (pos + p + 328) 2560).
  - destruct (weight_get (2 * 3 - q)) as [w Ew]; [lia|]. rewrite (bind_eq _ _ _ Ew).
    destruct (Refiner_ok idata center (pos + p) s w Hidata) as (pos' & s' & E & Hs' & Hpos'); [lia..|done|].
    exists (pos', s'). split; [exact E|]. split; [cbn [fst]; lia|done].
  - eexists. split; [reflexivity|]. split; [cbn [fst]; lia|done].
Qed.

Lemma GetSyncSeq_ok surround : array 80 surround ->
  exists s, GetSyncSeq idata 640 center period plocs 8 ENH_HL surround = Some s /\ array 80 s.
Proof using Hidata Hperiod Hplocs Hcenter.
  intros Hs. unfold GetSyncSeq, ENH_HL, ENH_BLOCKL. cbv zeta.
  destruct (NearestNeighbor_ok plocs (s16 (mul_16_16 2 (center + s16 (center + 80 - 1)))) 8) as (i & Ei & Hi); [lia..|].
  rewrite (bind_eq _ _ _ Ei). assert (s16 (mul_16_16 4 center) = 4 * center) as ->.
  { unfold mul_16_16. rewrite (s16_in 4 0 4), (s16_in center 0 600) by lia. apply (s16_in _ 0 2400); lia. }
  destruct (for_loop_inv past_inv (fun k => sync_past idata 640 center period plocs 8 (3 - 1 - k)) (Z.to_nat 3) 0 (4 * center, i, surround))
    as ([[pos1 lag1] s1] & E1 & _ & _ & A1).
  - repeat split; cbn [fst snd]; try lia; apply Hs.
  - intros k st Hk. apply sync_past_ok. lia.
  - rewrite (bind_eq _ _ _ E1). cbn [snd] in A1 |- *.
    destruct (each_ok (fun _ => True) 8 (fun i => l ← aget plocs i; p ← aget period i; Some (s16 (l - p)))) as (plocs2 & E2 & L2 & _); [lia| |].
    { intros j Hj. destruct (aget_in plocs j) as [l El]; [lia|]. destruct (period_get period j Hperiod Hj) as (p & Ep & _).
      rewrite (bind_eq _ _ _ El), (bind_eq _ _ _ Ep). by eexists. }
    rewrite (bind_eq _ _ _ E2). change (3 + 1) with 4.
    destruct (for_loop_inv future_inv (sync_future idata 640 center period plocs2 8 3) (Z.to_nat 3) 4 (4 * center, s1)) as ([pos2 s2] & E3 & _ & A3).
    + split; [cbn [fst]; lia|done].
    + intros q st Hq. apply sync_future_ok; [done|lia].
    + rewrite (bind_eq _ _ _ E3). by exists s2.
Qed.

End Sync.

(** ** Smoothing *)

Lemma ScaleAndAdd_ok n a g s b g' s' : array n a -> array n b -> array n (ScaleAndAddVectors a g s b g' s').
Proof.
  intros [La _] [Lb _]. unfold ScaleAndAddVectors. split; [unfold zlen in *; rewrite length_zip_with; lia|].
  clear. revert b. induction a as [|x a IH]; intros [|y b]; cbn [zip_with]; try apply List.Forall_nil.
  apply List.Forall_cons; [apply s16_range|apply IH].
Qed.

Lemma Smooth_odata_ok psseq surround C : array 80 psseq -> array 80 surround ->
  exists o e, Smooth_odata psseq surround C = Some (o, e) /\ array 80 o.
Proof.
  intros [Lp _] [Ls _]. unfold Smooth_odata.
  match goal with |- context [each 80 ?f] => destruct (each_s16 80 f) as (o & E & Lo & So); [done|intros i Hi; entries|] end.
  rewrite (bind_eq _ _ _ E). change 80%nat with (Z.to_nat 80).
  match goal with |- context [for_loop _ 0 ?f ?s] => destruct (for_loop_to (fun _ => True) f 80 s) as (e & Ee & _); [done| |] end.
  { intros i e Hi _. entries. }
  rewrite (bind_eq _ _ _ Ee). by exists o, e.
Qed.

Lemma Smooth_ok current surround : array 80 current -> array 80 surround -> exists o, Smooth current surround = Some o /\ array 80 o.
Proof.
  intros Hc Hs. unfold Smooth. destruct (smooth_products current surround) as [[[scale w00] w10] w11].
  destruct (smooth_first scale w00 w11) as [C crit]. destruct (Smooth_odata_ok current surround C Hc Hs) as (o & e & E & Ho).
  rewrite (bind_eq _ _ _ E). destruct (crit <? e); [|by exists o]. cbv zeta.
  match goal with |- context [smooth_gains ?a ?b ?c ?d ?e ?f] => destruct (smooth_gains a b c d e f) as [A B] end.
  eexists. split; [reflexivity|]. by apply ScaleAndAdd_ok.
Qed.

(** ** A block *)

Lemma Enhancer_ok idata period center : array 643 idata -> periods_ok period -> 320 <= center <= 520 ->
  exists o, Enhancer idata ENH_BUFL center period kEnhPlocs ENH_NBLOCKS_TOT = Some o /\ array 80 o.
Proof.
  intros Hi Hp Hc. unfold Enhancer, ENH_BUFL, ENH_NBLOCKS_TOT, ENH_BLOCKL.
  destruct (GetSyncSeq_ok idata period kEnhPlocs center Hi Hp eq_refl Hc (replicate (Z.to_nat 80) 0)) as (s & E & Hs);
    [by apply array_zeros|].
  rewrite (bind_eq _ _ _ E). pose proof (array_self _ _ Hi) as Hi'.
  destruct (block_in idata center 80 Hi') as [Eb Ab]; [lia|lia|rewrite (proj1 Hi); lia|]. rewrite (bind_eq _ _ _ Eb).
  by apply Smooth_ok.
Qed.
