(* ===== verification/IlbcEnhIf.v ===== *)
(** The enhancer of the iLBC decoder as the frame decoding calls it
    ([codecs/ilbc/enhancer_interface.c]): buffers, pitch estimation, and the repair of
    the concealed samples after a loss. *)
From S2P Require Import Prelude SplMath SplFilt IlbcTables IlbcLsf IlbcDec IlbcExc IlbcPlc IlbcEnh.

Definition FILTERORDER_DS_PLUS1 : Z := 7.
Definition DELAY_DS : Z := 3.
Definition FACTOR_DS : Z := 2.

(** ** Pitch of a block *)

(** The highest correlation, and the correlations without it and its neighbours. *)
Definition next_peak (corr32 : list Z) : option (Z * Z * list Z) :=
  let lagmax := s16 (MaxIndexW32 corr32) in
  corrmax ← aget corr32 lagmax;
  let start := Z.max 0 (s16 (lagmax - 2)) in
  let stop := Z.min 49 (s16 (lagmax + 2)) in
  corr32 ← astore corr32 start (replicate (Z.to_nat (stop - start + 1)) 0);
  Some (lagmax, corrmax, corr32).

(** Lag, square of the correlation, energy and shift of a candidate. *)
Record EnhPeak := mkPeak { ep_lag : Z; ep_corr16 : Z; ep_en16 : Z; ep_totsh : Z }.

Definition peak_measure (downsampled : list Z) (regressor shifts : Z) (lagmax corrmax : Z) : option EnhPeak :=
  let corrSh := s16 (15 - size_w32 corrmax) in
  ener ← dot downsampled (regressor - lagmax) downsampled (regressor - lagmax) ENH_BLOCKL_HALF shifts;
  let enerSh := s16 (15 - size_w32 ener) in
  let c := s16 (shift_w32 corrmax corrSh) in
  Some (mkPeak lagmax (s16 (Z.shiftr (mul_16_16 c c) 16)) (s16 (shift_w32 ener enerSh)) (s16 (enerSh - s32 (Z.shiftl corrSh 1)))).

(** The better one of [p], the best so far, and [q]. *)
Definition better_peak (p q : EnhPeak) : EnhPeak :=
  if ep_totsh q <? ep_totsh p then
    let sh := s16 (Z.min 31 (ep_totsh p - ep_totsh q)) in
    if mul_16_16 (ep_corr16 p) (ep_en16 q) <? Z.shiftr (mul_16_16 (ep_corr16 q) (ep_en16 p)) sh then q else p
  else
    let sh := s16 (Z.min 31 (ep_totsh q - ep_totsh p)) in
    if Z.shiftr (mul_16_16 (ep_corr16 p) (ep_en16 q)) sh <? mul_16_16 (ep_corr16 q) (ep_en16 p) then q else p.

(** The lag of block [iblock], in samples of the down-sampled signal. *)
Definition enh_block_lag (downsampled : list Z) (iblock : Z) : option Z :=
  let target := 60 + mul_16_16 iblock ENH_BLOCKL_HALF in
  let regressor := target - 10 in
  max16 ← max_abs downsampled (regressor - 50) (ENH_BLOCKL_HALF + 50 - 1);
  let shifts := Z.max 0 (size_w32 (mul_16_16 max16 max16) - 25) in
  corr32 ← CrossCorrelation downsampled target downsampled regressor ENH_BLOCKL_HALF 50 shifts (-1);
  r ← next_peak corr32; let '(lag0, corr0, corr32) := r in
  r ← next_peak corr32; let '(lag1, corr1, corr32) := r in
  let lag2 := s16 (MaxIndexW32 corr32) in
  corr2 ← aget corr32 lag2;
  p0 ← peak_measure downsampled regressor shifts lag0 corr0;
  p1 ← peak_measure downsampled regressor shifts lag1 corr1;
  p2 ← peak_measure downsampled regressor shifts lag2 corr2;
  Some (ep_lag (better_peak (better_peak p0 p1) p2) + 10).

(** One block: periods, [tlag] and [lag]. *)
Definition enh_pitch_step (downsampled : list Z) (prev_enh_pl new_blocks iblock : Z) (st : list Z * Z * Z)
    : option (list Z * Z * Z) :=
  let '(enh_period, tlag, _) := st in
  lag ← enh_block_lag downsampled iblock;
  enh_period ← aset enh_period (ENH_NBLOCKS_TOT - new_blocks + iblock) (s16 (mul_16_16 lag 8));
  let tlag := if iblock =? (if prev_enh_pl =? 1 then 0 else 1) then mul_16_16 lag 2 else tlag in
  Some (enh_period, tlag, mul_16_16 lag 2).

(** ** Repair of the concealed samples *)

(** The lag of the new frame. *)
Definition enh_new_lag (inp : list Z) (tlag plc_blockl : Z) : option Z :=
  let regressor := tlag - 1 in
  max16 ← max_abs inp regressor (s16 (plc_blockl + 3 - 1));
  let shifts := if 5000 <? max16 then 2 else 0 in
  corr32 ← CrossCorrelation inp 0 inp regressor plc_blockl 3 shifts 1;
  Some (MaxIndexW32 corr32 + (tlag - 1)).

(** [while (lag<pos)]: whole cycles; also the samples that are left. *)
Fixpoint copy_cycles (fuel : nat) (plc_pred inp : list Z) (lag pos : Z) : option (list Z * Z) :=
  match fuel with
  | O => None
  | S fuel =>
      if lag <? pos then
        plc_pred ← memmove plc_pred (pos - lag) inp 0 lag;
        copy_cycles fuel plc_pred inp lag (pos - lag)
      else Some (plc_pred, pos)
  end.

(** The samples before the frame, predicted backwards from it. *)
Definition enh_backward (plc_pred inp enh_buf : list Z) (blockl plc_blockl prev_enh_pl lag : Z) : option (list Z) :=
  if prev_enh_pl =? 1 then
    if plc_blockl <? lag then memmove plc_pred 0 inp (lag - plc_blockl) plc_blockl
    else
      plc_pred ← memmove plc_pred (plc_blockl - lag) inp 0 lag;
      memmove plc_pred 0 enh_buf (ENH_BUFL - blockl - plc_blockl + lag) (plc_blockl - lag)
  else
    r ← copy_cycles (Z.to_nat plc_blockl + 1) plc_pred inp lag plc_blockl;
    let '(plc_pred, pos) := r in
    memmove plc_pred 0 inp (lag - pos) pos.

(** The last 16 samples: the gain grows from [SqrtEnChange] on. *)
Definition enh_window (plc_pred : list Z) (plc_blockl SqrtEnChange : Z) : option (list Z) :=
  let inc := s16 (2048 - Z.shiftr SqrtEnChange 3) in
  r ← for_loop 16 0 (fun i st =>
        let '(plc_pred, win) := st in
        x ← aget plc_pred (plc_blockl - 16 + i);
        plc_pred ← aset plc_pred (plc_blockl - 16 + i) (s16 (Z.shiftr (mul_16_16 x (SqrtEnChange + Z.shiftr win 1)) 14));
        Some (plc_pred, s16 (win + inc))) (plc_pred, 0);
  Some r.1.

(** A prediction with more than four times the energy of the concealed samples is
    attenuated. *)
Definition enh_limit (plc_pred enh_buf : list Z) (blockl plc_blockl : Z) : option (list Z) :=
  let p := ENH_BUFL - blockl - plc_blockl in
  max ← max_abs enh_buf p plc_blockl;
  max16 ← max_abs plc_pred 0 plc_blockl;
  let max := Z.max max max16 in
  let scale := Z.max (s16 (22 - s16 (NormW32 max))) 0 in
  tmp2 ← dot enh_buf p enh_buf p plc_blockl scale;
  tmp1 ← dot plc_pred 0 plc_pred 0 plc_blockl scale;
  if (0 <? tmp1) && (tmp2 <? Z.shiftr tmp1 2) then
    let scale1 := s16 (NormW32 tmp1) in
    let tmp1 := shift_w32 tmp1 (scale1 - 16) in
    let tmp2 := shift_w32 tmp2 scale1 in
    let EnChange := s16 (DivW32W16 tmp2 (s16 tmp1)) in
    let SqrtEnChange := s16 (SqrtFloor (s32 (Z.shiftl EnChange 14))) in
    v ← aload plc_pred 0 (plc_blockl - 16);
    plc_pred ← astore plc_pred 0 (ScaleVector v SqrtEnChange 14);
    enh_window plc_pred plc_blockl SqrtEnChange
  else Some plc_pred.

(** From the concealed samples over to the prediction, from the last sample on. *)
Definition enh_merge (plc_pred enh_buf : list Z) (blockl plc_blockl : Z) : option (list Z) :=
  let inc := if plc_blockl =? 40 then 400 else 202 in
  r ← for_loop (Z.to_nat plc_blockl) 0 (fun i st =>
        let '(enh_buf, win) := st in
        let win := s16 (win + inc) in
        let p := ENH_BUFL - 1 - blockl - i in
        x ← aget enh_buf p;
        y ← aget plc_pred (plc_blockl - 1 - i);
        let x := s16 (Z.shiftr (mul_16_16 x win) 14) in
        enh_buf ← aset enh_buf p (s16 (x + s16 (Z.shiftr (mul_16_16 (16384 - win) y) 14)));
        Some (enh_buf, win)) (enh_buf, 0);
  Some r.1.

(** The synthesis filter over [lag] samples from entry [p] of [enh_buf] on; [synt] is entry
    [LPC_FILTERORDER] of [downsampled]. *)
Definition enh_synthesis (downsampled : list Z) (p lag : Z) (d : iLBC_Dec_Inst_t) : option (list Z) :=
  coefficients ← aload (d_old_syntdenum d) ((d_nsub d - 1) * (LPC_FILTERORDER + 1)) (LPC_FILTERORDER + 1);
  v ← aload (d_enh_buf d) p lag;
  FilterARFastQ12 v downsampled LPC_FILTERORDER coefficients lag.

(** The high pass over the result. *)
Definition enh_high_pass (downsampled : list Z) (lag : Z) (d : iLBC_Dec_Inst_t) : option (list Z * iLBC_Dec_Inst_t) :=
  r ← HpOutput downsampled LPC_FILTERORDER kHpOutCoefs (d_hpimemy d) (d_hpimemx d) lag;
  let '(downsampled, y, x) := r in
  Some (downsampled, d <| d_hpimemy := y |> <| d_hpimemx := x |>).

(** After an expansion by the caller: the prediction replaces the samples, and the filters
    are set by filtering two cycles of it. *)
Definition enh_restart (downsampled : list Z) (plc_blockl lag : Z) (d : iLBC_Dec_Inst_t) : option (list Z * iLBC_Dec_Inst_t) :=
  let p := ENH_BUFL - d_blockl d - plc_blockl in
  enh_buf ← memmove (d_enh_buf d) p downsampled 0 plc_blockl;
  syntMem ← MemSetW16 (d_syntMem d) 0 0 LPC_FILTERORDER;
  hpimemy ← MemSetW16 (d_hpimemy d) 0 0 4;
  hpimemx ← MemSetW16 (d_hpimemx d) 0 0 2;
  let d := d <| d_enh_buf := enh_buf |> <| d_syntMem := syntMem |> <| d_hpimemy := hpimemy |> <| d_hpimemx := hpimemx |> in
  downsampled ← memmove downsampled 0 (d_syntMem d) 0 LPC_FILTERORDER;
  downsampled ← enh_synthesis downsampled p lag d;
  downsampled ← memmove downsampled 0 downsampled lag LPC_FILTERORDER;
  r ← enh_high_pass downsampled lag d; let '(downsampled, d) := r in
  downsampled ← enh_synthesis downsampled p lag d;
  syntMem ← memmove (d_syntMem d) 0 downsampled lag LPC_FILTERORDER;
  enh_high_pass downsampled lag (d <| d_syntMem := syntMem |>).

(** ** The whole function *)

(** The block size of the repair, the number of new blocks and the place of the first
    block. *)
Definition enh_sizes (mode : Z) : Z * Z * Z := if mode =? 30 then (ENH_BLOCKL, 3, 320) else (40, 2, 440).

(** The new residual behind the old one. *)
Definition enh_append (inp : list Z) (d : iLBC_Dec_Inst_t) : option (list Z) :=
  enh_buf ← memmove (d_enh_buf d) 0 (d_enh_buf d) (d_blockl d) (ENH_BUFL - d_blockl d);
  memmove enh_buf (ENH_BUFL - d_blockl d) inp 0 (d_blockl d).

(** After a loss.  Answer: the lag too. *)
Definition enh_repair (downsampled inp : list Z) (tlag plc_blockl : Z) (d : iLBC_Dec_Inst_t) : option (Z * iLBC_Dec_Inst_t) :=
  lag ← enh_new_lag inp tlag plc_blockl;
  plc_pred ← enh_backward downsampled inp (d_enh_buf d) (d_blockl d) plc_blockl (d_prev_enh_pl d) lag;
  if d_prev_enh_pl d =? 1 then
    plc_pred ← enh_limit plc_pred (d_enh_buf d) (d_blockl d) plc_blockl;
    enh_buf ← enh_merge plc_pred (d_enh_buf d) (d_blockl d) plc_blockl;
    Some (lag, d <| d_enh_buf := enh_buf |>)
  else
    r ← enh_restart plc_pred plc_blockl lag d;
    Some (lag, r.2).

(** The local array [downsampled] of 180 entries is the part of it that was written.
    Answer: the lag, the enhanced signal and the decoder. *)
Definition EnhancerInterface (inp : list Z) (d : iLBC_Dec_Inst_t) : option (Z * list Z * iLBC_Dec_Inst_t) :=
  let inLen := d_blockl d + 120 in
  enh_buf ← enh_append inp d;
  let d := d <| d_enh_buf := enh_buf |> in
  let '(plc_blockl, new_blocks, startPos) := enh_sizes (d_mode d) in
  enh_period ← memmove (d_enh_period d) 0 (d_enh_period d) new_blocks (ENH_NBLOCKS_TOT - new_blocks);
  r ← DownsampleFastC (d_enh_buf d) (ENH_BUFL - inLen) (s16 (inLen + ENH_BUFL_FILTEROVERHEAD)) (s16 (Z.shiftr inLen 1))
        kLpFiltCoefs FACTOR_DS DELAY_DS;
  let downsampled := r.2 in
  r ← for_loop (Z.to_nat new_blocks) 0 (enh_pitch_step downsampled (d_prev_enh_pl d) new_blocks) (enh_period, 20, 20);
  let '(enh_period, tlag, lag) := r in
  let d := d <| d_enh_period := enh_period |> in
  r ← (if (d_prev_enh_pl d =? 1) || (d_prev_enh_pl d =? 2) then enh_repair downsampled inp tlag plc_blockl d else Some (lag, d));
  let '(lag, d) := r in
  out ← for_loop (Z.to_nat new_blocks) 0 (fun iblock out =>
          block ← Enhancer (d_enh_buf d) ENH_BUFL (s16 (mul_16_16 iblock ENH_BLOCKL + startPos)) (d_enh_period d) kEnhPlocs ENH_NBLOCKS_TOT;
          Some (out ++ block)) [];
  Some (lag, out, d).
