(* ===== verification/IlbcEnhIfInv.v ===== *)
(** The enhancer's interface keeps the decoder well-formed, for frames received after
    frames, losses and expansions. *)
From S2P Require Import Prelude SplMath SplFilt IlbcTables IlbcLsf IlbcDec IlbcExc IlbcExcInv IlbcPlc IlbcPlcInv IlbcEnh IlbcEnhInv IlbcEnhIf.

(** ** Pitch of a block *)

Lemma next_peak_ok c : zlen c = 50 -> exists lag corr c', next_peak c = Some (lag, corr, c') /\ 0 <= lag < 50 /\ zlen c' = 50.
Proof.
  intros Hl. unfold next_peak. cbv zeta. pose proof (vec_index_range above WORD32_MIN c (zlen_pos_cons c ltac:(lia))) as Hm.
  fold (MaxIndexW32 c) in Hm. set (m := MaxIndexW32 c) in *. clearbody m. rewrite (s16_in m 0 50) by lia.
  destruct (aget_in c m) as [x Ex]; [lia|]. rewrite (bind_eq _ _ _ Ex). rewrite (s16_in (m - 2) (-2) 50), (s16_in (m + 2) 0 52) by lia.
  destruct (astore_in c (replicate (Z.to_nat (Z.min 49 (m + 2) - Z.max 0 (m - 2) + 1)) 0) (Z.max 0 (m - 2))) as (c' & E & L);
    [lia|rewrite zlen_replicate; lia|].
  rewrite (bind_eq _ _ _ E). eexists _, _, _. split; [reflexivity|]. lia.
Qed.

Lemma peak_measure_ok ds regressor shifts lag corr : 0 <= regressor - lag -> regressor - lag + 40 <= zlen ds ->
  exists p, peak_measure ds regressor shifts lag corr = Some p /\ ep_lag p = lag.
Proof.
  intros H1 H2. unfold peak_measure, ENH_BLOCKL_HALF. cbv zeta.
  destruct (dot_ok ds (regressor - lag) ds (regressor - lag) 40 shifts) as [e E]; [lia..|]. rewrite (bind_eq _ _ _ E). by eexists.
Qed.

Lemma better_peak_lag p q lo hi : lo <= ep_lag p <= hi -> lo <= ep_lag q <= hi -> lo <= ep_lag (better_peak p q) <= hi.
Proof. intros. unfold better_peak. cbv zeta. repeat case_if; done. Qed.

Lemma enh_block_lag_ok ds iblock : 0 <= iblock <= 2 -> 100 + 40 * iblock <= zlen ds ->
  exists lag, enh_block_lag ds iblock = Some lag /\ 10 <= lag <= 59.
Proof.
  intros Hi Hl. unfold enh_block_lag, ENH_BLOCKL_HALF.
  assert (mul_16_16 iblock 40 = 40 * iblock) as -> by (unfold mul_16_16; rewrite (s16_in iblock 0 2), (s16_in 40 0 40) by lia; lia).
  cbv zeta. set (t := 60 + 40 * iblock).
  destruct (max_abs_ok ds (t - 10 - 50) (40 + 50 - 1)) as (m & Em & _); [lia..|]. rewrite (bind_eq _ _ _ Em).
  destruct (CrossCorrelation_safe ds t ds (t - 10) 40 50 (Z.max 0 (size_w32 (mul_16_16 m m) - 25)) (-1)) as (c & Ec & Lc & _); [lia..|].
  rewrite (bind_eq _ _ _ Ec).
  destruct (next_peak_ok c Lc) as (l0 & c0 & c' & E0 & H0 & L0). rewrite (bind_eq _ _ _ E0).
  destruct (next_peak_ok c' L0) as (l1 & c1 & c'' & E1 & H1 & L1). rewrite (bind_eq _ _ _ E1).
  pose proof (vec_index_range above WORD32_MIN c'' (zlen_pos_cons c'' ltac:(lia))) as H2. fold (MaxIndexW32 c'') in H2.
  set (l2 := MaxIndexW32 c'') in *. clearbody l2. rewrite (s16_in l2 0 50) by lia. destruct (aget_in c'' l2) as [c2 E2]; [lia|]. rewrite (bind_eq _ _ _ E2).
  set (sh := Z.max 0 _). clearbody sh.
  destruct (peak_measure_ok ds (t - 10) sh l0 c0) as (p0 & F0 & G0); [lia..|]. rewrite (bind_eq _ _ _ F0).
  destruct (peak_measure_ok ds (t - 10) sh l1 c1) as (p1 & F1 & G1); [lia..|]. rewrite (bind_eq _ _ _ F1).
  destruct (peak_measure_ok ds (t - 10) sh l2 c2) as (p2 & F2 & G2); [lia..|]. rewrite (bind_eq _ _ _ F2).
  eexists. split; [reflexivity|].
  pose proof (better_peak_lag (better_peak p0 p1) p2 0 49) as Hb. pose proof (better_peak_lag p0 p1 0 49). lia.
Qed.

Definition pitch_inv (st : list Z * Z * Z) : Prop := periods_ok st.1.1 /\ 20 <= st.1.2 <= 118 /\ 20 <= st.2 <= 118.

Lemma enh_pitch_step_ok ds prev nb i st : 0 <= i < nb -> nb <= 3 -> 60 + 40 * nb <= zlen ds -> pitch_inv st ->
  exists st', enh_pitch_step ds prev nb i st = Some st' /\ pitch_inv st'.
Proof.
  destruct st as [[per tlag] lag]. intros Hi Hn Hl ((Lp & Sp) & Ht & _). cbn [fst snd] in *. unfold enh_pitch_step, ENH_NBLOCKS_TOT.
  destruct (enh_block_lag_ok ds i) as (l & E & Hlag); [lia..|]. rewrite (bind_eq _ _ _ E). rewrite aset_in by lia.
  cbn [mbind option_bind]. unfold mul_16_16. rewrite (s16_in l 10 59), (s16_in 8 0 8), (s16_in 2 0 8), (s16_in (l * 8) 80 480) by lia.
  eexists. split; [reflexivity|]. split; [|split; cbn [fst snd]; [case_if; lia|lia]]. cbn [fst snd].
  split; [by rewrite zlen_insert|]. apply Forall_insert; [done|lia].
Qed.

(** ** Repair *)

Lemma enh_new_lag_ok v tlag plc : 20 <= tlag <= 118 -> plc = 40 \/ plc = 80 -> tlag + plc + 1 <= zlen v ->
  exists lag, enh_new_lag v tlag plc = Some lag /\ 19 <= lag <= 119.
Proof.
  intros Ht Hp Hl. unfold enh_new_lag. cbv zeta. rewrite (s16_in (plc + 3 - 1) 0 82) by lia.
  destruct (max_abs_ok v (tlag - 1) (plc + 3 - 1)) as (m & Em & _); [lia..|]. rewrite (bind_eq _ _ _ Em).
  destruct (CrossCorrelation_safe v 0 v (tlag - 1) plc 3 (if 5000 <? m then 2 else 0) 1) as (c & Ec & Lc & _); [lia..|].
  rewrite (bind_eq _ _ _ Ec). eexists. split; [reflexivity|].
  pose proof (vec_index_range above WORD32_MIN c (zlen_pos_cons c ltac:(lia))) as Hm. unfold MaxIndexW32. lia.
Qed.

Lemma copy_cycles_ok n inp lag fuel : forall pred pos, array n pred -> Forall in_s16 inp -> 0 < lag <= zlen inp -> 0 < pos <= n ->
  pos < Z.of_nat fuel -> exists pred' pos', copy_cycles fuel pred inp lag pos = Some (pred', pos') /\ array n pred' /\ 0 < pos' <= Z.min lag pos.
Proof.
  induction fuel as [|fuel IH]; intros pred pos [Lp Sp] Si Hlag Hpos Hf; [lia|]. cbn [copy_cycles].
  destruct (Z.ltb_spec lag pos).
  - destruct (memmove_ok pred (pos - lag) inp 0 lag) as (p1 & E & L1 & S1); [lia..|done|done|]. rewrite (bind_eq _ _ _ E).
    destruct (IH p1 (pos - lag)) as (p2 & pos2 & E2 & A2 & H2); [split; [lia|done]|done|lia..|]. exists p2, pos2. split; [done|].
    split; [done|lia].
  - exists pred, pos. split; [done|]. split; [done|lia].
Qed.

Lemma enh_backward_ok n pred v buf blockl plc prev lag : array n pred -> 80 <= n -> array blockl v -> array 643 buf ->
  blockl = 160 /\ plc = 40 \/ blockl = 240 /\ plc = 80 -> 19 <= lag <= 119 ->
  exists p, enh_backward pred v buf blockl plc prev lag = Some p /\ array n p.
Proof.
  intros [Lp Sp] Hn [Lv Sv] [Lb Sb] Hs Hlag. unfold enh_backward, ENH_BUFL. destruct (prev =? 1); [destruct (Z.ltb_spec plc lag)|].
  - destruct (memmove_ok pred 0 v (lag - plc) plc) as (p & E & L & S); [lia..|done|done|]. exists p. split; [done|split; [lia|done]].
  - destruct (memmove_ok pred (plc - lag) v 0 lag) as (p & E & L & S); [lia..|done|done|]. rewrite (bind_eq _ _ _ E).
    destruct (memmove_ok p 0 buf (640 - blockl - plc + lag) (plc - lag)) as (p' & E' & L' & S'); [lia..|done|done|].
    exists p'. split; [done|split; [lia|done]].
  - destruct (copy_cycles_ok n v lag (Z.to_nat plc + 1) pred plc) as (p & pos & E & [L S] & Hpos); [done|done|lia..|].
    rewrite (bind_eq _ _ _ E). destruct (memmove_ok p 0 v (lag - pos) pos) as (p' & E' & L' & S'); [lia..|done|done|].
    exists p'. split; [done|split; [lia|done]].
Qed.

Lemma enh_window_ok n pred plc g : array n pred -> 16 <= plc <= n -> exists p, enh_window pred plc g = Some p /\ array n p.
Proof.
  intros Hp Hn. unfold enh_window. cbv zeta. change 16%nat with (Z.to_nat 16).
  match goal with |- context [for_loop _ 0 ?f ?s] => destruct (for_loop_to (fun st => array n st.1) f 16 s) as (st & E & H) end; [done| |].
  - intros i [p w] Hi Ha. cbn [fst] in Ha. destruct (aget_in p (plc - 16 + i)) as [x Ex]; [rewrite (proj1 Ha); lia|].
    rewrite (bind_eq _ _ _ Ex), aset_in by (rewrite (proj1 Ha); lia). eexists. split; [reflexivity|]. cbn [fst].
    apply array_insert; [done|apply s16_range].
  - rewrite (bind_eq _ _ _ E). by eexists.
Qed.

Lemma ScaleVector_ok n v g k : zlen v = n -> array n (ScaleVector v g k).
Proof. intros Hl. unfold ScaleVector. split; [by rewrite zlen_fmap|]. apply Forall_fmap, Forall_true. intros x. apply s16_range. Qed.

Lemma enh_limit_ok n pred buf blockl plc : array n pred -> 80 <= n -> array 643 buf ->
  blockl = 160 /\ plc = 40 \/ blockl = 240 /\ plc = 80 -> exists p, enh_limit pred buf blockl plc = Some p /\ array n p.
Proof.
  intros [Lp Sp] Hn [Lb Sb] Hs. unfold enh_limit, ENH_BUFL. cbv zeta.
  destruct (max_abs_ok buf (640 - blockl - plc) plc) as (m & Em & _); [lia..|]. rewrite (bind_eq _ _ _ Em).
  destruct (max_abs_ok pred 0 plc) as (m' & Em' & _); [lia..|]. rewrite (bind_eq _ _ _ Em').
  set (sc := Z.max (s16 _) 0). clearbody sc.
  destruct (dot_ok buf (640 - blockl - plc) buf (640 - blockl - plc) plc sc) as [t2 E2]; [lia..|]. rewrite (bind_eq _ _ _ E2).
  destruct (dot_ok pred 0 pred 0 plc sc) as [t1 E1]; [lia..|]. rewrite (bind_eq _ _ _ E1).
  destruct ((0 <? t1) && (t2 <? Z.shiftr t1 2)); [|by exists pred].
  set (g := s16 (SqrtFloor _)). clearbody g. rewrite aload_in by lia. cbn [mbind option_bind]. fold (block pred 0 (plc - 16)).
  destruct (ScaleVector_ok (plc - 16) (block pred 0 (plc - 16)) g 14) as [Ls Ss]; [apply zlen_block; lia|].
  destruct (astore_in pred (ScaleVector (block pred 0 (plc - 16)) g 14) 0) as (p & E & L); [lia..|]. rewrite (bind_eq _ _ _ E).
  destruct (astore_s16 _ _ _ _ E Sp Ss) as [_ S]. apply enh_window_ok; [by split; [lia|]|lia].
Qed.

Lemma enh_merge_ok n pred buf blockl plc : zlen pred = n -> 80 <= n -> array 643 buf ->
  blockl = 160 /\ plc = 40 \/ blockl = 240 /\ plc = 80 -> exists b, enh_merge pred buf blockl plc = Some b /\ array 643 b.
Proof.
  intros Lp Hn Hb Hs. unfold enh_merge, ENH_BUFL. cbv zeta.
  match goal with |- context [for_loop _ 0 ?f ?s] => destruct (for_loop_to (fun st => array 643 st.1) f plc s) as (st & E & H) end; [done| |].
  - intros i [b w] Hi Ha. cbn [fst] in Ha. destruct (aget_in b (640 - 1 - blockl - i)) as [x Ex]; [rewrite (proj1 Ha); lia|].
    rewrite (bind_eq _ _ _ Ex). destruct (aget_in pred (plc - 1 - i)) as [y Ey]; [lia|]. rewrite (bind_eq _ _ _ Ey).
    rewrite aset_in by (rewrite (proj1 Ha); lia). eexists. split; [reflexivity|]. apply array_insert; [done|apply s16_range].
  - rewrite (bind_eq _ _ _ E). by eexists.
Qed.

(** ** Filters *)

Lemma hp_step_ok ba s y x : zlen ba = 5 -> array 4 y -> array 2 x -> in_s16 s ->
  exists o y' x', hp_step ba s y x = Some (o, y', x') /\ in_s16 o /\ array 4 y' /\ array 2 x'.
Proof.
  intros Lb [Ly Sy] [Lx Sx] Hs. unfold hp_step. 
  destruct y as [|y0 [|y1 [|y2 [|y3 [|]]]]]; try (unfold zlen in Ly; cbn in Ly; lia).
  destruct x as [|x0 [|x1 [|]]]; try (unfold zlen in Lx; cbn in Lx; lia).
  destruct (aget_in ba 0) as [b0 E0]; [lia|]. destruct (aget_in ba 1) as [b1 E1]; [lia|]. destruct (aget_in ba 2) as [b2 E2]; [lia|].
  destruct (aget_in ba 3) as [a1 E3]; [lia|]. destruct (aget_in ba 4) as [a2 E4]; [lia|].
  rewrite (bind_eq _ _ _ E0), (bind_eq _ _ _ E1), (bind_eq _ _ _ E2), (bind_eq _ _ _ E3), (bind_eq _ _ _ E4).
  cbv zeta. cbn -[mul_16_16 s16 s32 Z.shiftr Z.shiftl Z.ltb Z.add Z.sub]. eexists _, _, _. split; [reflexivity|].
  apply Forall_cons_1 in Sy as [Hy0 [Hy1 _]%Forall_cons_1]. apply Forall_cons_1 in Sx as [Hx0 _].
  split; [apply s16_range|]. split; (split; [reflexivity|]); repeat (apply List.Forall_cons; [first [apply s16_range|done]|]); apply List.Forall_nil.
Qed.

Lemma HpOutput_ok n signal p y x len : array n signal -> array 4 y -> array 2 x -> 0 <= p -> 0 <= len -> p + len <= n ->
  exists s' y' x', HpOutput signal p kHpOutCoefs y x len = Some (s', y', x') /\ array n s' /\ array 4 y' /\ array 2 x'.
Proof.
  intros Hs Hy Hx Hp Hl Hn. unfold HpOutput.
  match goal with |- context [for_loop _ 0 ?f ?s] =>
    destruct (for_loop_to (fun st => array n st.1.1 /\ array 4 st.1.2 /\ array 2 st.2) f len s) as ([[s' y'] x'] & E & H1 & H2 & H3) end.
  - done.
  - intros i [[s y1] x1] Hi (H1 & H2 & H3). cbn [fst snd] in *. destruct (aget_in s (p + i)) as [z Ez]; [rewrite (proj1 H1); lia|].
    rewrite (bind_eq _ _ _ Ez). destruct (hp_step_ok kHpOutCoefs z y1 x1) as (o & y2 & x2 & E & Ho & Hy2 & Hx2); [done..| |].
    { exact (aget_Forall _ _ _ _ (proj2 H1) Ez). }
    rewrite (bind_eq _ _ _ E), aset_in by (rewrite (proj1 H1); lia). eexists. split; [reflexivity|]. cbn [fst snd].
    split; [by apply array_insert|done].
  - by exists s', y', x'.
Qed.

(** ** The decoder's state *)

Lemma dec_ok_filters mode d y x : dec_ok mode d -> array 4 y -> array 2 x -> dec_ok mode (d <| d_hpimemy := y |> <| d_hpimemx := x |>).
Proof. intros [] Hy Hx. by split. Qed.

Lemma dec_ok_syntMem mode d m : dec_ok mode d -> array 10 m -> dec_ok mode (d <| d_syntMem := m |>).
Proof. intros [] Hm. by split. Qed.

Lemma dec_ok_buf mode d b : dec_ok mode d -> array 643 b -> dec_ok mode (d <| d_enh_buf := b |>).
Proof. intros [] Hb. by split. Qed.

Lemma dec_ok_period mode d p : dec_ok mode d -> periods_ok p -> dec_ok mode (d <| d_enh_period := p |>).
Proof. intros [] Hp. by split. Qed.

(** The sizes of the two modes. *)
Lemma mode_sizes mode d : dec_ok mode d -> exists plc nb start, enh_sizes (d_mode d) = (plc, nb, start) /\
  (d_mode d = 20 /\ d_blockl d = 160 /\ plc = 40 /\ nb = 2 /\ start = 440 /\ d_nsub d = 4 \/
   d_mode d = 30 /\ d_blockl d = 240 /\ plc = 80 /\ nb = 3 /\ start = 320 /\ d_nsub d = 6).
Proof.
  intros Hd. pose proof (ok_params _ _ Hd) as Hp. rewrite (ok_mode _ _ Hd). unfold enh_sizes, ENH_BLOCKL.
  destruct Hp as [(-> & -> & -> & _)|(-> & -> & -> & _)]; eexists _, _, _; (split; [reflexivity|]); [by left|by right].
Qed.

Lemma enh_synthesis_ok mode d n ds p lag : dec_ok mode d -> array n ds -> 130 <= n -> 0 <= p -> p + lag <= 643 -> 19 <= lag <= 119 ->
  exists ds', enh_synthesis ds p lag d = Some ds' /\ array n ds'.
Proof.
  intros Hd Hds Hn Hp Hl Hlag. unfold enh_synthesis, LPC_FILTERORDER. change (10 + 1) with 11.
  destruct (mode_sizes mode d Hd) as (plc & nb & st & _ & Hm). pose proof (ok_old_syntdenum _ _ Hd) as Ho. pose proof (ok_enh_buf _ _ Hd) as Hb.
  destruct (block_in (d_old_syntdenum d) ((d_nsub d - 1) * 11) 11 (array_self _ _ Ho)) as [E1 A1]; [lia|lia|rewrite (proj1 Ho); lia|].
  rewrite (bind_eq _ _ _ E1). destruct (block_in (d_enh_buf d) p lag (array_self _ _ Hb)) as [E2 A2]; [lia|lia|rewrite (proj1 Hb); lia|].
  rewrite (bind_eq _ _ _ E2).
  destruct (FilterARFastQ12_safe (block (d_enh_buf d) p lag) ds 10 (block (d_old_syntdenum d) ((d_nsub d - 1) * 11) 11) lag) as (o & E & L & S);
    [rewrite (proj1 A1); lia|rewrite (proj1 A1); lia|rewrite (proj1 Hds); lia|rewrite (proj1 A2); lia|apply Hds|].
  exists o. split; [done|]. split; [by rewrite L, (proj1 Hds)|done].
Qed.

Lemma enh_high_pass_ok mode d n ds lag : dec_ok mode d -> array n ds -> 130 <= n -> 19 <= lag <= 119 ->
  exists ds' y x, enh_high_pass ds lag d = Some (ds', d <| d_hpimemy := y |> <| d_hpimemx := x |>) /\ array n ds' /\ array 4 y /\ array 2 x.
Proof.
  intros Hd Hds Hn Hlag. unfold enh_high_pass, LPC_FILTERORDER.
  destruct (HpOutput_ok n ds 10 (d_hpimemy d) (d_hpimemx d) lag Hds (ok_hpimemy _ _ Hd) (ok_hpimemx _ _ Hd)) as (s & y & x & E & Hs & Hy & Hx); [lia..|].
  rewrite (bind_eq _ _ _ E). by exists s, y, x.
Qed.

Lemma memmove_array n m dst d src s k : array n dst -> array m src -> 0 <= d -> 0 <= s -> 0 <= k -> s + k <= m -> d + k <= n ->
  exists l, memmove dst d src s k = Some l /\ array n l.
Proof.
  intros [Ld Sd] [Ls Ss] Hd Hs Hk Hm Hn. destruct (memmove_ok dst d src s k) as (l & E & L & S); [lia..|done|done|].
  exists l. split; [done|split; [lia|done]].
Qed.

Lemma MemSet_array n l k : array n l -> 0 <= k <= n -> exists l', MemSetW16 l 0 0 k = Some l' /\ array n l'.
Proof.
  intros [Ll Sl] Hk. destruct (MemSet_ok l 0 k) as (l' & E & L & S); [lia..|done|]. exists l'. split; [done|split; [lia|done]].
Qed.

Lemma enh_restart_ok mode d n ds plc lag : dec_ok mode d -> array n ds -> 130 <= n -> 19 <= lag <= 119 ->
  d_blockl d = 160 /\ plc = 40 \/ d_blockl d = 240 /\ plc = 80 ->
  exists ds' d', enh_restart ds plc lag d = Some (ds', d') /\ dec_ok mode d'.
Proof.
  intros Hd Hds Hn Hlag Hs. unfold enh_restart, ENH_BUFL, LPC_FILTERORDER. cbv zeta.
  destruct (memmove_array _ _ (d_enh_buf d) (640 - d_blockl d - plc) ds 0 plc (ok_enh_buf _ _ Hd) Hds) as (buf & E1 & A1); [lia..|].
  rewrite (bind_eq _ _ _ E1).
  destruct (MemSet_array 10 (d_syntMem d) 10 (ok_syntMem _ _ Hd)) as (sm & E2 & A2); [lia|]. rewrite (bind_eq _ _ _ E2).
  destruct (MemSet_array 4 (d_hpimemy d) 4 (ok_hpimemy _ _ Hd)) as (hy & E3 & A3); [lia|]. rewrite (bind_eq _ _ _ E3).
  destruct (MemSet_array 2 (d_hpimemx d) 2 (ok_hpimemx _ _ Hd)) as (hx & E4 & A4); [lia|]. rewrite (bind_eq _ _ _ E4).
  set (d1 := d <| d_enh_buf := buf |> <| d_syntMem := sm |> <| d_hpimemy := hy |> <| d_hpimemx := hx |>).
  assert (dec_ok mode d1) as Hd1 by (apply dec_ok_filters; [apply dec_ok_syntMem; [by apply dec_ok_buf|done]|done|done]).
  set (p := 640 - d_blockl d - plc) in *. assert (0 <= p /\ p + lag <= 643) as [Hp Hpl] by lia. clearbody d1 p.
  destruct (memmove_array n 10 ds 0 (d_syntMem d1) 0 10 Hds (ok_syntMem _ _ Hd1)) as (s1 & F1 & B1); [lia..|]. rewrite (bind_eq _ _ _ F1).
  destruct (enh_synthesis_ok mode d1 n s1 p lag Hd1 B1) as (s2 & F2 & B2); [lia..|]. rewrite (bind_eq _ _ _ F2).
  destruct (memmove_array n n s2 0 s2 lag 10 B2 B2) as (s3 & F3 & B3); [lia..|]. rewrite (bind_eq _ _ _ F3).
  destruct (enh_high_pass_ok mode d1 n s3 lag Hd1 B3) as (s4 & y & x & F4 & B4 & Hy & Hx); [lia..|]. rewrite (bind_eq _ _ _ F4).
  pose proof (dec_ok_filters mode d1 y x Hd1 Hy Hx) as Hd2. set (d2 := d1 <| d_hpimemy := y |> <| d_hpimemx := x |>) in *. clearbody d2.
  destruct (enh_synthesis_ok mode d2 n s4 p lag Hd2 B4) as (s5 & F5 & B5); [lia..|]. rewrite (bind_eq _ _ _ F5).
  destruct (memmove_array 10 n (d_syntMem d2) 0 s5 lag 10 (ok_syntMem _ _ Hd2) B5) as (m & F6 & B6); [lia..|]. rewrite (bind_eq _ _ _ F6).
  pose proof (dec_ok_syntMem mode d2 m Hd2 B6) as Hd3. set (d3 := d2 <| d_syntMem := m |>) in *. clearbody d3.
  destruct (enh_high_pass_ok mode d3 n s5 lag Hd3 B5) as (s6 & y' & x' & F7 & B7 & Hy' & Hx'); [lia..|].
  eexists _, _. split; [exact F7|]. by apply dec_ok_filters.
Qed.

(** ** The whole function *)

Lemma enh_append_ok mode d v : dec_ok mode d -> array (d_blockl d) v -> exists b, enh_append v d = Some b /\ array 643 b.
Proof.
  intros Hd Hv. destruct (mode_sizes mode d Hd) as (plc & nb & st & _ & Hm). unfold enh_append, ENH_BUFL.
  pose proof (ok_enh_buf _ _ Hd) as Hb.
  destruct (memmove_array 643 643 (d_enh_buf d) 0 (d_enh_buf d) (d_blockl d) (640 - d_blockl d) Hb Hb) as (b & E & A); [lia..|].
  rewrite (bind_eq _ _ _ E). by apply (memmove_array 643 (d_blockl d)); [done|done|lia..].
Qed.

Lemma enh_repair_ok mode d n ds v tlag plc : dec_ok mode d -> array n ds -> 130 <= n -> array (d_blockl d) v -> 20 <= tlag <= 118 ->
  d_blockl d = 160 /\ plc = 40 \/ d_blockl d = 240 /\ plc = 80 ->
  exists lag d', enh_repair ds v tlag plc d = Some (lag, d') /\ 19 <= lag <= 119 /\ dec_ok mode d' /\ d_blockl d' = d_blockl d.
Proof.
  intros Hd Hds Hn Hv Ht Hs. unfold enh_repair. pose proof (ok_enh_buf _ _ Hd) as Hb.
  destruct (enh_new_lag_ok v tlag plc Ht) as (lag & E & Hlag); [lia|rewrite (proj1 Hv); lia|]. rewrite (bind_eq _ _ _ E).
  destruct (enh_backward_ok n ds v (d_enh_buf d) (d_blockl d) plc (d_prev_enh_pl d) lag Hds) as (p & Ep & Hp); [lia|done|done|lia|lia|].
  rewrite (bind_eq _ _ _ Ep). destruct (d_prev_enh_pl d =? 1).
  - destruct (enh_limit_ok n p (d_enh_buf d) (d_blockl d) plc Hp) as (q & Eq & Hq); [lia|done|lia|]. rewrite (bind_eq _ _ _ Eq).
    destruct (enh_merge_ok n q (d_enh_buf d) (d_blockl d) plc (proj1 Hq)) as (b & Eb & Ab); [lia|done|lia|]. rewrite (bind_eq _ _ _ Eb).
    eexists _, _. split; [reflexivity|]. split; [done|]. split; [by apply dec_ok_buf|by destruct d].
  - destruct (enh_restart_ok mode d n p plc lag Hd Hp) as (s & d' & Er & Hd'); [lia..|]. rewrite (bind_eq _ _ _ Er).
    eexists _, _. split; [reflexivity|]. split; [done|]. split; [done|]. cbn [snd].
    destruct (mode_sizes mode d Hd) as (? & ? & ? & _ & H1), (mode_sizes mode d' Hd') as (? & ? & ? & _ & H2).
    rewrite (ok_mode _ _ Hd) in H1. rewrite (ok_mode _ _ Hd') in H2. lia.
Qed.

Lemma periods_move per nb : periods_ok per -> 2 <= nb <= 3 -> exists p, memmove per 0 per nb (8 - nb) = Some p /\ periods_ok p.
Proof.
  intros [Lp Sp] Hn. rewrite memmove_spec by lia. eexists. split; [reflexivity|]. split.
  - rewrite !zlen_app, zlen_block by lia. unfold zlen in *. rewrite length_take, length_drop. lia.
  - repeat (apply Forall_app; split); [by apply Forall_take|unfold block; by apply Forall_take, Forall_drop|by apply Forall_drop].
Qed.

(** The enhanced blocks. *)
Lemma enh_blocks_ok mode d nb start : dec_ok mode d -> 2 <= nb <= 3 -> 320 <= start -> start + 80 * (nb - 1) <= 520 ->
  exists out, for_loop (Z.to_nat nb) 0 (fun iblock out =>
    block ← Enhancer (d_enh_buf d) ENH_BUFL (s16 (mul_16_16 iblock ENH_BLOCKL + start)) (d_enh_period d) kEnhPlocs ENH_NBLOCKS_TOT;
    Some (out ++ block)) [] = Some out /\ array (80 * nb) out.
Proof.
  intros Hd Hn Hs Hse.
  match goal with |- context [for_loop _ 0 ?f _] => destruct (for_loop_inv (fun i out => array (80 * i) out) f (Z.to_nat nb) 0 []) as (o & E & H) end.
  - split; [done|apply List.Forall_nil].
  - intros i out Hi Ho. unfold ENH_BLOCKL, mul_16_16. rewrite (s16_in i 0 3), (s16_in 80 0 80), (s16_in (i * 80 + start) 0 600) by lia.
    destruct (Enhancer_ok (d_enh_buf d) (d_enh_period d) (i * 80 + start) (ok_enh_buf _ _ Hd) (ok_enh_period _ _ Hd)) as (b & Eb & Ab); [lia|].
    rewrite (bind_eq _ _ _ Eb). eexists. split; [reflexivity|]. replace (80 * (i + 1)) with (80 * i + 80) by lia. by apply array_app.
  - exists o. split; [done|]. by rewrite Z2Nat.id, Z.add_0_l in H by lia.
Qed.

Lemma EnhancerInterface_ok mode d v : dec_ok mode d -> array (d_blockl d) v ->
  exists lag out d', EnhancerInterface v d = Some (lag, out, d') /\ 19 <= lag <= 119 /\ array (d_blockl d) out /\ dec_ok mode d'.
Proof.
  intros Hd Hv. unfold EnhancerInterface. destruct (mode_sizes mode d Hd) as (plc & nb & start & Es & Hm).
  destruct (enh_append_ok mode d v Hd Hv) as (b & Eb & Ab). rewrite (bind_eq _ _ _ Eb). cbv zeta.
  pose proof (dec_ok_buf mode d b Hd Ab) as Hd1. set (d1 := d <| d_enh_buf := b |>) in *.
  assert (d_mode d1 = d_mode d /\ d_blockl d1 = d_blockl d) as [M1 B1] by (by destruct d). clearbody d1. rewrite M1, Es.
  destruct (periods_move (d_enh_period d1) nb (ok_enh_period _ _ Hd1)) as (per & Ep & Hper); [lia|]. unfold ENH_NBLOCKS_TOT at 1.
  rewrite (bind_eq _ _ _ Ep). set (inLen := d_blockl d + 120). rewrite (Z.shiftr_div_pow2 inLen 1) by lia. change (2 ^ 1) with 2.
  assert (100 + 40 * (nb - 1) = inLen / 2 /\ inLen = 2 * (inLen / 2) /\ 140 <= inLen / 2 <= 180) as (Hh & Hh2 & Hr).
  { unfold inLen. destruct Hm as [(_ & -> & _ & -> & _)|(_ & -> & _ & -> & _)]; vm_compute; (split; [done|]); (split; [done|]); split; discriminate. }
  unfold ENH_BUFL_FILTEROVERHEAD, ENH_BUFL, FACTOR_DS, DELAY_DS. rewrite (s16_in (inLen + 3) 0 400), (s16_in (inLen / 2) 0 200) by lia.
  set (m := inLen / 2) in *. clearbody m. clearbody inLen.
  pose proof (DownsampleFastC_spec (d_enh_buf d1) (640 - inLen) (inLen + 3) m kLpFiltCoefs 2 3) as Hds. change (zlen kLpFiltCoefs) with 7 in Hds.
  rewrite (proj1 (ok_enh_buf _ _ Hd1)) in Hds. specialize (Hds ltac:(lia) ltac:(lia) ltac:(lia) ltac:(lia)).
  destruct (Z.leb_spec m 0); [lia|]. destruct (Z.ltb_spec (inLen + 3) (3 + 2 * (m - 1) + 1)); [lia|]. cbn [orb Z.leb Z.compare] in Hds.
  destruct Hds as (ds & Eds & Lds & Sds). rewrite (bind_eq _ _ _ Eds). cbn [snd].
  destruct (for_loop_to pitch_inv (enh_pitch_step ds (d_prev_enh_pl d1) nb) nb (per, 20, 20)) as ([[per' tlag] lag0] & Ef & Hper' & Ht & Hl0).
  { repeat split; cbn [fst snd]; try lia; apply Hper. }
  { intros i st Hi. apply enh_pitch_step_ok; lia. }
  rewrite (bind_eq _ _ _ Ef). cbn [fst snd] in *. cbv zeta.
  pose proof (dec_ok_period mode d1 per' Hd1 Hper') as Hd2. set (d2 := d1 <| d_enh_period := per' |>) in *.
  assert (d_blockl d2 = d_blockl d) as B2 by (rewrite <-B1; by destruct d1). clearbody d2.
  assert (exists lag d3, (if (d_prev_enh_pl d2 =? 1) || (d_prev_enh_pl d2 =? 2) then enh_repair ds v tlag plc d2 else Some (lag0, d2)) = Some (lag, d3)
    /\ 19 <= lag <= 119 /\ dec_ok mode d3) as (lag & d3 & E3 & Hlag & Hd3).
  { destruct ((d_prev_enh_pl d2 =? 1) || (d_prev_enh_pl d2 =? 2)).
    - destruct (enh_repair_ok mode d2 m ds v tlag plc Hd2) as (lag & d3 & E3 & Hlag & Hd3 & _); [done|lia|by rewrite B2|done|rewrite B2; lia|].
      by exists lag, d3.
    - exists lag0, d2. split; [done|]. split; [lia|done]. }
  rewrite (bind_eq _ _ _ E3). destruct (enh_blocks_ok mode d3 nb start Hd3) as (out & Eo & Ao); [lia..|]. rewrite (bind_eq _ _ _ Eo).
  exists lag, out, d3. split; [reflexivity|]. split; [done|]. split; [|done]. replace (d_blockl d) with (80 * nb) by lia. done.
Qed.
