(* ===== verification/IlbcFrame.v ===== *)
(** Decoding of iLBC frames and packets ([codecs/ilbc/]): [decode.c], and the decoder's
    part of [ilbc.c]. *)
From S2P Require Import Prelude SplMath SplFilt IlbcBits IlbcTables IlbcLsf IlbcDec IlbcExc IlbcPlc IlbcEnh IlbcEnhIf.

(** What the local arrays of one call of [DecodeImpl], and of the functions that it
    calls, hold at first. *)
Record FrameLocals := mkFrameLocals {
  fl_bits : iLBC_bits;
  fl_lsfdeq : list Z;
  fl_syntdenum : list Z;
  fl_weightdenum : list Z;
  fl_decresidual : list Z;
  fl_calls : Calls;
}.

(** ** [decode.c] *)

(** The check for bit errors. *)
Definition frame_bad (mode : Z) (b : iLBC_bits) (last_bit : Z) : bool :=
  (ib_startIdx b <? 1) || ((mode =? 20) && (3 <? ib_startIdx b)) || ((mode =? 30) && (5 <? ib_startIdx b)) || (last_bit =? 1).

(** A good frame: residual and filters of the subframes. *)
Definition decode_received (lc : FrameLocals) (b : iLBC_bits) (d : iLBC_Dec_Inst_t)
    : option (list Z * list Z * iLBC_Dec_Inst_t) :=
  let b := b <| ib_cb_index := IndexConvDec (ib_cb_index b) |> in
  lsfdeq ← SimpleLsfDeQ (fl_lsfdeq lc) (ib_lsf b) (d_lpc_n d);
  r ← LsfCheck lsfdeq LPC_FILTERORDER (d_lpc_n d);
  r ← DecoderInterpolateLsp (fl_syntdenum lc) (fl_weightdenum lc) r.1 (d_lsfdeqold d) LPC_FILTERORDER (d_mode d) (d_nsub d);
  let '(syntdenum, _, lsfdeqold) := r in
  let d := d <| d_lsfdeqold := lsfdeqold |> in
  r ← DecodeResidual (fl_calls lc) d b (fl_decresidual lc) syntdenum;
  let '(d, decresidual) := r in
  r ← DoThePlc 0 decresidual syntdenum ((LPC_FILTERORDER + 1) * (d_nsub d - 1)) (s16 (d_last_lag d)) d;
  let '(PLCresidual, _, d) := r in
  decresidual ← astore decresidual 0 PLCresidual;
  Some (decresidual, syntdenum, d).

(** A lost frame. *)
Definition decode_lost (lc : FrameLocals) (d : iLBC_Dec_Inst_t) : option (list Z * list Z * iLBC_Dec_Inst_t) :=
  r ← DoThePlc 1 (fl_decresidual lc) (fl_syntdenum lc) 0 (s16 (d_last_lag d)) d;
  let '(PLCresidual, PLClpc, d) := r in
  decresidual ← astore (fl_decresidual lc) 0 PLCresidual;
  syntdenum ← for_loop (Z.to_nat (d_nsub d)) 0 (fun i s => astore s (i * (LPC_FILTERORDER + 1)) PLClpc) (fl_syntdenum lc);
  Some (decresidual, syntdenum, d).

(** [mode] of the call, then whether the frame was decoded. *)
Definition decode_excitation (lc : FrameLocals) (bytes : list Z) (d : iLBC_Dec_Inst_t) (mode : Z)
    : option (bool * list Z * list Z * iLBC_Dec_Inst_t) :=
  if negb (mode =? 0) then
    words ← aload bytes 0 (d_no_of_words d);
    let '(last_bit, b) := UnpackBits (SwapBytes words (d_no_of_words d)) (fl_bits lc) (d_mode d) in
    if frame_bad (d_mode d) b last_bit then r ← decode_lost lc d; Some (false, r.1.1, r.1.2, r.2)
    else r ← decode_received lc b d; Some (true, r.1.1, r.1.2, r.2)
  else r ← decode_lost lc d; Some (false, r.1.1, r.1.2, r.2).

(** Subframe [i] of [data], which begins at entry [LPC_FILTERORDER], through filter [k] of
    [filters], in place: a sample is read just before it is written. *)
Definition synthesis (filters : list Z) (k i : Z) (data : list Z) : option (list Z) :=
  coefficients ← aload filters (k * (LPC_FILTERORDER + 1)) (LPC_FILTERORDER + 1);
  v ← aload data (LPC_FILTERORDER + i * SUBL) SUBL;
  FilterARFastQ12 v data (LPC_FILTERORDER + i * SUBL) coefficients SUBL.

(** With the enhancer, whose delay the filters follow. *)
Definition decode_enhanced (decresidual syntdenum : list Z) (d : iLBC_Dec_Inst_t)
    : option (list Z * iLBC_Dec_Inst_t) :=
  old ← (if d_prev_enh_pl d =? 2 then
           for_loop (Z.to_nat (d_nsub d)) 0 (fun i old => memmove old (i * (LPC_FILTERORDER + 1)) syntdenum 0 (LPC_FILTERORDER + 1))
             (d_old_syntdenum d)
         else Some (d_old_syntdenum d));
  let d := d <| d_old_syntdenum := old |> in
  r ← EnhancerInterface decresidual d;
  let '(lag, data, d) := r in
  let d := d <| d_last_lag := lag |> in
  let data := d_syntMem d ++ data in
  data ← (if d_mode d =? 20 then
            data ← synthesis (d_old_syntdenum d) (d_nsub d - 1) 0 data;
            for_loop (Z.to_nat (d_nsub d - 1)) 1 (fun i => synthesis syntdenum (i - 1) i) data
          else if d_mode d =? 30 then
            data ← for_loop 2 0 (fun i => synthesis (d_old_syntdenum d) (i + 4) i) data;
            for_loop (Z.to_nat (d_nsub d - 2)) 2 (fun i => synthesis syntdenum (i - 2) i) data
          else Some data);
  syntMem ← memmove (d_syntMem d) 0 data (d_blockl d) LPC_FILTERORDER;
  Some (data, d <| d_syntMem := syntMem |>).

(** Without the enhancer. *)
Definition decode_plain (decresidual syntdenum : list Z) (d : iLBC_Dec_Inst_t) : option (list Z * iLBC_Dec_Inst_t) :=
  let blockl := d_blockl d in
  lag ← (if d_mode d =? 20 then XcorrCoef decresidual (blockl - 60) (blockl - 60 - 20) 60 80 20 (-1)
         else XcorrCoef decresidual (blockl - ENH_BLOCKL) (blockl - ENH_BLOCKL - 20) ENH_BLOCKL 100 20 (-1));
  let d := d <| d_last_lag := s16 lag |> in
  v ← aload decresidual 0 blockl;
  data ← for_loop (Z.to_nat (d_nsub d)) 0 (fun i => synthesis syntdenum i i) (d_syntMem d ++ v);
  syntMem ← memmove (d_syntMem d) 0 data blockl LPC_FILTERORDER;
  Some (data, d <| d_syntMem := syntMem |>).

(** [decblock] and the decoder. *)
Definition DecodeImpl (lc : FrameLocals) (bytes : list Z) (d : iLBC_Dec_Inst_t) (mode : Z)
    : option (list Z * iLBC_Dec_Inst_t) :=
  r ← decode_excitation lc bytes d mode;
  let '(good, decresidual, syntdenum, d) := r in
  r ← (if d_use_enhancer d =? 1 then decode_enhanced decresidual syntdenum d else decode_plain decresidual syntdenum d);
  let '(data, d) := r in
  decblock ← aload data LPC_FILTERORDER (d_blockl d);
  r ← HpOutput decblock 0 kHpOutCoefs (d_hpimemy d) (d_hpimemx d) (d_blockl d);
  let '(decblock, y, x) := r in
  old ← memmove (d_old_syntdenum d) 0 syntdenum 0 (d_nsub d * (LPC_FILTERORDER + 1));
  let prev_enh_pl := if good : bool then 0 else 1 in
  Some (decblock, d <| d_hpimemy := y |> <| d_hpimemx := x |> <| d_old_syntdenum := old |>
                    <| d_prev_enh_pl := prev_enh_pl |>).

(** ** [ilbc.c] *)

Definition DecoderInit (d : iLBC_Dec_Inst_t) (mode : Z) : Z * iLBC_Dec_Inst_t :=
  if (mode =? 20) || (mode =? 30) then (0, (InitDecode d mode 1).2) else (-1, d).
Definition DecoderInit20Ms (d : iLBC_Dec_Inst_t) : Z * iLBC_Dec_Inst_t := (0, (InitDecode d 20 1).2).
Definition Decoderinit30Ms (d : iLBC_Dec_Inst_t) : Z * iLBC_Dec_Inst_t := (0, (InitDecode d 30 1).2).

(** One, two or three frames of [bytes] bytes. *)
Definition packet_of (len bytes : Z) : bool := (len =? bytes) || (len =? 2 * bytes) || (len =? 3 * bytes).

(** The loop over the frames, from frame [i] on; [lcs i] are the local arrays of call [i]. *)
Fixpoint decode_frames (fuel : nat) (lcs : Z -> FrameLocals) (encoded : list Z) (len : Z) (i : Z) (decoded : list Z)
    (d : iLBC_Dec_Inst_t) : option (Z * list Z * iLBC_Dec_Inst_t) :=
  match fuel with
  | O => None
  | S fuel =>
      if i * d_no_of_bytes d <? len then
        bytes ← aload encoded (i * d_no_of_words d) (d_no_of_words d);
        r ← DecodeImpl (lcs i) bytes d 1;
        decode_frames fuel lcs encoded len (i + 1) (decoded ++ r.1) r.2
      else Some (i, decoded, d)
  end.

(** Answer, decoded samples, [speechType] when it is set, and the decoder. *)
Definition decode_answer (lcs : Z -> FrameLocals) (encoded : list Z) (len : Z) (d : iLBC_Dec_Inst_t)
    : option (Z * list Z * option Z * iLBC_Dec_Inst_t) :=
  r ← decode_frames 4 lcs encoded len 0 [] d;
  let '(i, decoded, d) := r in
  Some (s16 (i * d_blockl d), decoded, Some 1, d).

Definition Decode (lcs : Z -> FrameLocals) (d : iLBC_Dec_Inst_t) (encoded : list Z) (len : Z)
    : option (Z * list Z * option Z * iLBC_Dec_Inst_t) :=
  if packet_of len (d_no_of_bytes d) then decode_answer lcs encoded len d
  else if d_mode d =? 20 then
    if packet_of len NO_OF_BYTES_30MS then decode_answer lcs encoded len (InitDecode d 30 (d_use_enhancer d)).2
    else Some (-1, [], None, d)
  else
    if packet_of len NO_OF_BYTES_20MS then decode_answer lcs encoded len (InitDecode d 20 (d_use_enhancer d)).2
    else Some (-1, [], None, d).

Definition Decode20Ms (lcs : Z -> FrameLocals) (d : iLBC_Dec_Inst_t) (encoded : list Z) (len : Z)
    : option (Z * list Z * option Z * iLBC_Dec_Inst_t) :=
  if packet_of len (d_no_of_bytes d) then decode_answer lcs encoded len d else Some (-1, [], None, d).
Definition Decode30Ms (lcs : Z -> FrameLocals) (d : iLBC_Dec_Inst_t) (encoded : list Z) (len : Z)
    : option (Z * list Z * option Z * iLBC_Dec_Inst_t) :=
  if packet_of len (d_no_of_bytes d) then decode_answer lcs encoded len d else Some (-1, [], None, d).

Definition DecodePlc (lcs : Z -> FrameLocals) (d : iLBC_Dec_Inst_t) (noOfLostFrames : Z) : option (Z * list Z * iLBC_Dec_Inst_t) :=
  r ← for_loop (Z.to_nat noOfLostFrames) 0 (fun i st =>
        let '(decoded, d) := st in
        r ← DecodeImpl (lcs i) [] d 0;
        Some (decoded ++ r.1, r.2)) ([], d);
  let '(decoded, d) := r in
  Some (s16 (noOfLostFrames * d_blockl d), decoded, d).

Definition NetEqPlc (d : iLBC_Dec_Inst_t) : option (Z * iLBC_Dec_Inst_t) :=
  enh_buf ← MemSetW16 (d_enh_buf d) 0 0 ENH_BUFL;
  Some (0, d <| d_enh_buf := enh_buf |> <| d_prev_enh_pl := 2 |>).
