(* ===== verification/IlbcFrameInv.v ===== *)
(** Decoding of iLBC frames and packets stays inside of its memory: which frames can be
    decoded, and that the decoder stays well-formed. *)
From S2P Require Import Prelude SplMath SplFilt BitRefl IlbcBits IlbcStream IlbcTables IlbcLsf IlbcDec IlbcExc IlbcExcInv IlbcResidual IlbcLsfInv.
From S2P Require Import IlbcPlc IlbcPlcInv IlbcEnh IlbcEnhInv IlbcEnhIf IlbcEnhIfInv IlbcFrame.

(** ** More memory *)

(** What runs on a part of the memory runs on the whole of it. *)
Definition more {A} (a b : option A) : Prop := forall x, a = Some x -> b = Some x.

Lemma more_refl {A} (a : option A) : more a a.
Proof. by intros x. Qed.

Lemma more_bind {A B} (a b : option A) (f g : A -> option B) : more a b -> (forall x, more (f x) (g x)) -> more (a ≫= f) (b ≫= g).
Proof. intros Ha Hf y H. destruct a as [x|]; [|done]. rewrite (Ha x eq_refl). by apply Hf. Qed.

Lemma more_loop {A} (f g : Z -> A -> option A) n : (forall i a, more (f i a) (g i a)) -> forall i a, more (for_loop n i f a) (for_loop n i g a).
Proof.
  intros H. induction n as [|n IH]; intros i a; cbn [for_loop]; [apply more_refl|]. apply more_bind; [apply H|]. intros x. apply IH.
Qed.

Lemma more_aload {A} (l J : list A) i n : more (aload l i n) (aload (l ++ J) i n).
Proof.
  intros x (Hi & Hn & Hl & ->)%aload_Some. rewrite aload_in by (rewrite ?zlen_app; pose proof (zlen_nonneg J); lia).
  unfold zlen in Hl. rewrite drop_app_le, take_app_le by (rewrite ?length_drop; lia). done.
Qed.

Lemma more_aget {A} (l J : list A) i : more (aget l i) (aget (l ++ J) i).
Proof. intros x E. pose proof (aget_Some_range _ _ _ E). by rewrite aget_app_l by lia. Qed.

Lemma more_memmove dst d src J s n : more (memmove dst d src s n) (memmove dst d (src ++ J) s n).
Proof. apply more_bind; [apply more_aload|]. intros v. apply more_refl. Qed.

Lemma more_max_abs l J p n : more (max_abs l p n) (max_abs (l ++ J) p n).
Proof. apply more_bind; [apply more_aload|]. intros v. apply more_refl. Qed.

Lemma more_dot l J p q n s : more (dot l p l q n s) (dot (l ++ J) p (l ++ J) q n s).
Proof. do 2 (apply more_bind; [apply more_aload|]; intros ?). apply more_refl. Qed.

Lemma more_CrossCorrelation l J p q n k s st : more (CrossCorrelation l p l q n k s st) (CrossCorrelation (l ++ J) p (l ++ J) q n k s st).
Proof.
  unfold CrossCorrelation. apply more_loop. intros i a. apply more_bind; [|intros ?; apply more_refl]. unfold shifted_dot.
  apply more_loop. intros j b. do 2 (apply more_bind; [apply more_aget|]; intros ?). apply more_refl.
Qed.

Ltac more_step := lazymatch goal with
  | |- more ?a ?a => apply more_refl
  | |- more (aload _ _ _) _ => apply more_aload
  | |- more (aget _ _) _ => apply more_aget
  | |- more (memmove _ _ _ _ _) _ => apply more_memmove
  | |- more (max_abs _ _ _) _ => apply more_max_abs
  | |- more (dot _ _ _ _ _ _) _ => apply more_dot
  | |- more (CrossCorrelation _ _ _ _ _ _ _ _) _ => apply more_CrossCorrelation
  | |- more (_ ≫= _) _ => apply more_bind; [|intros ?]
  | |- more (for_loop _ _ _ _) _ => apply more_loop; intros ? ?
  | |- more (let '(_, _) := ?x in _) _ => destruct x as [? ?]
  | |- more (if ?b then _ else _) _ => destruct b
  end.
Ltac more_solve := repeat (cbv zeta; more_step).

Lemma more_copy_cycles inp J fuel : forall pred lag pos, more (copy_cycles fuel pred inp lag pos) (copy_cycles fuel pred (inp ++ J) lag pos).
Proof. induction fuel as [|fuel IH]; intros pred lag pos; cbn [copy_cycles]; more_solve. apply IH. Qed.

Lemma more_enh_repair ds v J tlag plc d : more (enh_repair ds v tlag plc d) (enh_repair ds (v ++ J) tlag plc d).
Proof.
  unfold enh_repair, enh_new_lag, enh_backward. repeat first [apply more_copy_cycles | cbv zeta; more_step].
Qed.

Lemma more_EnhancerInterface v J d : more (EnhancerInterface v d) (EnhancerInterface (v ++ J) d).
Proof.
  unfold EnhancerInterface, enh_append.
  repeat first [apply more_enh_repair | cbv zeta; more_step].
Qed.

Lemma more_synthesis filters J k i data : more (synthesis filters k i data) (synthesis (filters ++ J) k i data).
Proof. unfold synthesis. more_solve. Qed.

Lemma more_decode_enhanced v J V K d : more (decode_enhanced v V d) (decode_enhanced (v ++ J) (V ++ K) d).
Proof.
  unfold decode_enhanced. repeat first [apply more_EnhancerInterface | apply more_synthesis | cbv zeta; more_step].
Qed.

Lemma more_XcorrCoef l J t r n k o s : more (XcorrCoef l t r n k o s) (XcorrCoef (l ++ J) t r n k o s).
Proof. unfold XcorrCoef, xcorr_step. more_solve. Qed.

Lemma more_decode_plain v J V K d : more (decode_plain v V d) (decode_plain (v ++ J) (V ++ K) d).
Proof.
  unfold decode_plain. repeat first [apply more_XcorrCoef | apply more_synthesis | cbv zeta; more_step].
Qed.

Lemma more_DoThePlc PLI v J V K p lag d : more (DoThePlc PLI v V p lag d) (DoThePlc PLI (v ++ J) (V ++ K) p lag d).
Proof. unfold DoThePlc. more_solve. Qed.

Lemma known_app v J : zlen v <= zlen J -> known 0 v J = v ++ drop (Z.to_nat (zlen v)) J.
Proof. intros H. unfold known. by rewrite take_0, Z.add_0_l. Qed.

(** ** The decoder's state *)

Lemma dec_ok_lsf mode d l : dec_ok mode d -> freqs 10 32767 l -> dec_ok mode (d <| d_lsfdeqold := l |>).
Proof. intros [] [Ll Sl]. split; try done. split; [done|]. eapply List.Forall_impl; [|exact Sl]. intros x Hx. cbn in Hx. lia. Qed.

Lemma dec_ok_lag mode d l : dec_ok mode d -> 19 <= l <= 119 -> dec_ok mode (d <| d_last_lag := l |>).
Proof. intros [] Hl. by split. Qed.

Lemma dec_ok_old mode d l : dec_ok mode d -> array 66 l -> dec_ok mode (d <| d_old_syntdenum := l |>).
Proof. intros [] Hl. by split. Qed.

Lemma dec_ok_pl mode d p : dec_ok mode d -> dec_ok mode (d <| d_prev_enh_pl := p |>).
Proof. intros []. by split. Qed.

Lemma frame_sizes mode d : dec_ok mode d ->
  (mode = 20 \/ mode = 30) /\ d_mode d = mode /\ d_blockl d = 40 * subframes mode /\ d_nsub d = subframes mode /\
  d_lpc_n d = (if mode =? 30 then 2 else 1) /\ d_no_of_words d = (if mode =? 20 then 19 else 25) /\
  d_no_of_bytes d = 2 * (if mode =? 20 then 19 else 25) /\ 4 <= subframes mode <= 6.
Proof.
  intros Hd. pose proof (ok_mode _ _ Hd) as Hm. destruct (ok_params _ _ Hd) as [(-> & -> & -> & _ & -> & (-> & ->) & _)|(-> & -> & -> & _ & -> & (-> & ->) & _)];
    (split; [tauto|]); (split; [done|]); vm_compute; repeat split; discriminate.
Qed.

(** ** A good frame *)

Lemma lsf_indexes mode b : mode = 20 \/ mode = 30 -> bits_ok mode b ->
  indexes_ok (ib_lsf b) 0 /\ (mode = 30 -> indexes_ok (ib_lsf b) 3).
Proof.
  intros Hm [(Hl & _) Hf].
  assert (Hi : forall ws l f, fits ws l -> (forall k, 0 <= k < 3 -> 2 ^ nth (Z.to_nat (f + k)) ws 0 = if k =? 0 then 64 else 128) ->
    0 <= f -> f + 3 <= zlen ws -> (forall j x, aget l j = Some x -> aget (ib_lsf b) j = Some x) -> indexes_ok (ib_lsf b) f).
  { intros ws l f H Hw Hf0 Hf1 Hg k Hk. destruct (fits_aget ws l (f + k) H) as (x & E & Hx); [lia|]. exists x. rewrite <-(Hw k Hk). split; [by apply Hg|done]. }
  assert (H3 : forall k, 0 <= k < 3 -> k = 0 \/ k = 1 \/ k = 2) by lia.
  destruct Hm as [-> | ->].
  - split; [|done]. change (widths 20) with ([6; 7; 7] ++ drop 3 (widths 20)) in Hf.
    change (fields 20 b) with (take 3 (ib_lsf b) ++ [ib_startIdx b; ib_state_first b; ib_idxForMax b] ++ take 9 (ib_cb_index b) ++
      take 9 (ib_gain_index b) ++ take 57 (ib_idxVec b)) in Hf.
    apply fits_app in Hf as [Hf _]; [|rewrite length_take, Hl; done].
    apply (Hi [6; 7; 7] _ 0 Hf); [|lia|by vm_compute|intros j x; apply aget_take_Some].
    intros k [-> |[-> | ->]]%H3; done.
  - change (widths 30) with ([6; 7; 7; 6; 7; 7] ++ drop 6 (widths 30)) in Hf.
    change (fields 30 b) with (ib_lsf b ++ [ib_startIdx b; ib_state_first b; ib_idxForMax b] ++ ib_cb_index b ++ ib_gain_index b ++ ib_idxVec b) in Hf.
    apply fits_app in Hf as [Hf _]; [|by rewrite Hl].
    split; [|intros _]; [apply (Hi [6; 7; 7; 6; 7; 7] _ 0 Hf)|apply (Hi [6; 7; 7; 6; 7; 7] _ 3 Hf)]; try lia; try (by vm_compute); try done;
      intros k [-> |[-> | ->]]%H3; done.
Qed.

(** The local arrays have their sizes. *)
Definition frame_locals_ok (lc : FrameLocals) : Prop :=
  arrays_ok (fl_bits lc) /\ zlen (fl_lsfdeq lc) = 20 /\ zlen (fl_syntdenum lc) = 66 /\ zlen (fl_weightdenum lc) = 66 /\
  zlen (fl_decresidual lc) = 240 /\ calls_ok (fl_calls lc).

(** A frame with these parameters can be decoded. *)
Definition frame_usable (mode : Z) (b : iLBC_bits) : bool := negb (mode =? 20) || usable b.

(** The filters of a good frame. *)
Lemma received_filters mode d b : dec_ok mode d -> indexes_ok (ib_lsf b) 0 -> (mode = 30 -> indexes_ok (ib_lsf b) 3) -> exists V old,
  array (11 * subframes mode) V /\ freqs 10 32767 old /\
  forall lc, frame_locals_ok lc -> exists lsfdeq c w,
    SimpleLsfDeQ (fl_lsfdeq lc) (ib_lsf b) (d_lpc_n d) = Some lsfdeq /\
    LsfCheck lsfdeq LPC_FILTERORDER (d_lpc_n d) = Some c /\
    DecoderInterpolateLsp (fl_syntdenum lc) (fl_weightdenum lc) c.1 (d_lsfdeqold d) LPC_FILTERORDER (d_mode d) (d_nsub d) =
      Some (known 0 V (fl_syntdenum lc), w, old).
Proof.
  intros Hd I0 I3. destruct (frame_sizes mode d Hd) as (Hm & -> & _ & -> & -> & _).
  set (n := if mode =? 30 then 2 else 1). assert (n = 1 \/ n = 2) as Hn by (unfold n; case_if; lia).
  assert ((if mode =? 30 then 20 else 10) = 10 * n) as Hln by (unfold n; by case_if).
  destruct (SimpleLsfDeQ_ok (ib_lsf b) n Hn I0) as (l & Fl & El).
  { intros E. apply I3. unfold n in E. destruct (Z.eqb_spec mode 30); [done|lia]. }
  destruct (LsfCheck_ok n l Hn) as (l' & c & Fl' & _ & _ & Ec); [eapply freqs_weaken; [|exact Fl]; unfold lsf_top; lia|].
  destruct (DecoderInterpolateLsp_ok mode l' (d_lsfdeqold d) Hm) as (V & V2 & old & HV & _ & Ho & Ei).
  { rewrite Hln. eapply freqs_weaken; [|exact Fl']. lia. }
  { destruct (ok_lsf _ _ Hd) as [L S]. split; [done|]. eapply List.Forall_impl; [|exact S]. intros x Hx. cbn in Hx. lia. }
  exists V, old. split; [done|]. split; [done|]. intros lc (_ & L1 & L2 & L3 & _ & _).
  eexists _, _, _. split; [by apply El|]. split; [apply Ec|]. cbn [fst]. by apply Ei.
Qed.

Lemma more_DecodeResidual lc d b J V K : more (DecodeResidual lc d b J V) (DecodeResidual lc d b J (V ++ K)).
Proof. unfold DecodeResidual, decode_start, StateConstruct, each. more_solve. Qed.

(** The residual is decoded and remembered. *)
Lemma received_residual mode d b V : dec_ok mode d -> frame_ok mode (adjusted b) -> start_ok mode (adjusted b) ->
  array (11 * subframes mode) V -> exists v d1 d2, array (d_blockl d) v /\ dec_ok mode d1 /\ dec_ok mode d2 /\
    (forall lc J K, calls_ok lc -> zlen J = 240 -> DecodeResidual lc d (adjusted b) J (V ++ K) = Some (d1, known 0 v J)) /\
    (forall J K, exists lpc, DoThePlc 0 (v ++ J) (V ++ K) (11 * (d_nsub d1 - 1)) (s16 (d_last_lag d1)) d1 = Some (v, lpc, d2)).
Proof.
  intros Hd Hf Hst HV. destruct (frame_sizes mode d Hd) as (Hm & _ & Hbl & _ & _ & _ & _ & Hsub).
  destruct (DecodeResidual_ok mode d _ V Hd Hf Hst) as (v & pr & buf & Lv & Sv & Hpr & Hbuf & _ & E1); [rewrite (proj1 HV); lia|].
  pose proof (dec_ok_mem _ _ _ _ Hd Hpr Hbuf) as Hd1. set (d1 := d <| d_prevResidual := pr |> <| d_enh_buf := buf |>) in *.
  destruct (frame_sizes mode d1 Hd1) as (_ & _ & Hbl1 & Hns1 & _). clearbody d1.
  destruct (DoThePlc_good mode d1 v V (11 * (d_nsub d1 - 1)) (s16 (d_last_lag d1))) as (d2 & E2 & Hd2 & _); try done; try lia.
  { apply block_s16, Sv. }
  { rewrite (proj1 HV). lia. }
  { apply block_s16, HV. }
  rewrite block_all in E2 by lia. exists v, d1, d2. split; [split; [lia|done]|]. split; [done|]. split; [done|]. split.
  - intros lc J K Hlc HJ. apply more_DecodeResidual, E1; done.
  - intros J K. eexists. apply more_DoThePlc, E2.
Qed.

(** ** What is sent of the parameters *)

(** The parameters that a frame of the mode transmits: at 20 ms less than the arrays hold. *)
Definition sent (mode : Z) (b : iLBC_bits) : iLBC_bits :=
  if mode =? 20 then mkBits (take 3 (ib_lsf b)) (take 9 (ib_cb_index b)) (take 9 (ib_gain_index b)) (ib_idxForMax b) (ib_state_first b)
                       (take 57 (ib_idxVec b)) (ib_startIdx b)
  else b.

(** All that decoding a good frame needs. *)
Definition params_ok (mode : Z) (b : iLBC_bits) : Prop :=
  indexes_ok (ib_lsf b) 0 /\ (mode = 30 -> indexes_ok (ib_lsf b) 3) /\ frame_ok mode (adjusted b) /\ start_ok mode (adjusted b).

Lemma bits_params mode b : mode = 20 \/ mode = 30 -> bits_ok mode b -> 1 <= ib_startIdx b <= subframes mode - 1 -> frame_usable mode b = true ->
  params_ok mode b.
Proof.
  intros Hm Hb Hi Hu. destruct (lsf_indexes mode b Hm Hb) as [I0 I3]. destruct (adjusted_ok mode b Hm Hb Hi) as [Hf Hst].
  split; [done|]. split; [done|]. split; [done|]. apply Hst. intros -> k Hk i Ei. by apply (usable_entry b k i Hk Ei).
Qed.

Lemma IndexConvDec_app l J : (6 <= length l)%nat -> IndexConvDec (l ++ J) = IndexConvDec l ++ J.
Proof.
  intros Hl. unfold IndexConvDec, ent. rewrite !app_nth1 by lia. rewrite !insert_app_l by (rewrite ?length_insert; lia). done.
Qed.

Lemma aget_take_lt (l : list Z) n j : j < Z.of_nat n -> aget (take n l) j = aget l j.
Proof. intros H. unfold aget. destruct (Z.ltb_spec j 0); [done|]. apply lookup_take_lt. lia. Qed.

Lemma stages_take cb gain c lMem n (k : nat) : c + 3 <= Z.of_nat k -> stages_ok cb gain c lMem n -> stages_ok (take k cb) (take k gain) c lMem n.
Proof.
  intros Hk [H1 H2]. split; intros j Hj; [destruct (H1 j Hj) as (i & E & H)|destruct (H2 j Hj) as (i & E & H)]; exists i;
    (split; [rewrite aget_take_lt by lia; exact E|exact H]).
Qed.

Lemma conv_take l k : (6 <= k)%nat -> (6 <= length l)%nat -> IndexConvDec (take k l) = take k (IndexConvDec l).
Proof.
  intros Hk Hl. rewrite <-(take_drop k l) at 2. rewrite IndexConvDec_app by (rewrite length_take; lia).
  assert (length (IndexConvDec (take k l)) = Nat.min k (length l)) as Hc by (unfold IndexConvDec; by rewrite !length_insert, length_take).
  destruct (Nat.le_gt_cases k (length l)).
  - rewrite take_app_le by lia. by rewrite (take_ge (IndexConvDec _)) by lia.
  - rewrite drop_ge, app_nil_r by lia. by rewrite (take_ge (IndexConvDec _)) by lia.
Qed.

Lemma params_sent mode b : arrays_ok b -> params_ok mode b -> params_ok mode (sent mode b).
Proof.
  intros (_ & Lc & _ & _) H. unfold sent. destruct (Z.eqb_spec mode 20) as [->|]; [|done]. destruct H as (I0 & _ & Hf & Hst).
  assert (Ha : ib_cb_index (adjusted (mkBits (take 3 (ib_lsf b)) (take 9 (ib_cb_index b)) (take 9 (ib_gain_index b)) (ib_idxForMax b)
    (ib_state_first b) (take 57 (ib_idxVec b)) (ib_startIdx b))) = take 9 (ib_cb_index (adjusted b))).
  { apply conv_take; lia. }
  split; [|split; [done|split]].
  - intros k Hk. destruct (I0 k Hk) as (i & E & Hi). exists i. split; [|done]. cbn [ib_lsf]. rewrite aget_take_lt by lia. done.
  - destruct Hf as [H1 H2 H3 H4 H5 H6]. split; try done.
    + intros k Hk. destruct (H5 k Hk) as (i & E & Hi). exists i. split; [|done]. change (state_len 20) with 57 in Hk.
      etransitivity; [|exact E]. apply (aget_take_lt (ib_idxVec b) 57). lia.
    + intros c Hc. rewrite Ha. apply stages_take; [change (subframes 20) with 4 in Hc; lia|by apply H6].
  - unfold start_ok. rewrite Ha. apply stages_take; [lia|exact Hst].
Qed.

(** Of two frames with the same words the same is sent. *)
Lemma sent_same mode w b0 b1 : mode = 20 \/ mode = 30 -> arrays_ok b0 -> arrays_ok b1 ->
  sent mode (UnpackBits w b0 mode).2 = sent mode (UnpackBits w b1 mode).2.
Proof.
  intros Hm H0. unfold UnpackBits. cbn [snd]. generalize (ent w). clear w. intros w. open_bits b0. intros H1. open_bits b1.
  destruct Hm as [-> | ->]; unfold sent; cbn [Z.eqb Pos.eqb]; bit_eval; reflexivity.
Qed.

(** *** Parameters that are not sent are not needed *)

Section Sent.

Context (l L c C g G v W : list Z) (im sf si : Z).
Let b : iLBC_bits := mkBits l c g im sf v si.
Let b' : iLBC_bits := mkBits (l ++ L) (c ++ C) (g ++ G) im sf (v ++ W) si.

Lemma more_SimpleLsfDeQ lsfdeq n : more (SimpleLsfDeQ lsfdeq l n) (SimpleLsfDeQ lsfdeq (l ++ L) n).
Proof. unfold SimpleLsfDeQ, lsf_frame. more_solve. Qed.

Lemma more_CbConstruct lc k memVec m n len : more (CbConstruct lc c g k memVec m n len) (CbConstruct lc (c ++ C) (g ++ G) k memVec m n len).
Proof. unfold CbConstruct. more_solve. Qed.

Lemma more_StateConstruct i s syntDenum n : more (StateConstruct i v syntDenum s n) (StateConstruct i (v ++ W) syntDenum s n).
Proof. unfold StateConstruct, each. more_solve. Qed.

Lemma more_residual lc d J V : more (DecodeResidual lc d b J V) (DecodeResidual lc d b' J V).
Proof.
  unfold DecodeResidual, decode_start, decode_forward, decode_backward, decode_subframe. cbn [b b' ib_cb_index ib_gain_index ib_idxVec ib_idxForMax ib_state_first ib_startIdx].
  repeat first [apply more_CbConstruct | apply more_StateConstruct | cbv zeta; more_step].
Qed.

End Sent.

Lemma more_received lc l L c C g G v W im sf si d : (6 <= length c)%nat ->
  more (decode_received lc (mkBits l c g im sf v si) d) (decode_received lc (mkBits (l ++ L) (c ++ C) (g ++ G) im sf (v ++ W) si) d).
Proof.
  intros Hc. unfold decode_received. cbv zeta.
  cbn [upd ib_lsf ib_cb_index ib_gain_index ib_idxForMax ib_state_first ib_idxVec ib_startIdx].
  rewrite IndexConvDec_app by done.
  repeat first [apply more_SimpleLsfDeQ | apply more_residual | cbv zeta; more_step].
Qed.

Lemma more_sent lc mode b d : arrays_ok b -> more (decode_received lc (sent mode b) d) (decode_received lc b d).
Proof.
  intros (_ & Lc & _). unfold sent. destruct (mode =? 20); [|apply more_refl].
  pose proof (more_received lc (take 3 (ib_lsf b)) (drop 3 (ib_lsf b)) (take 9 (ib_cb_index b)) (drop 9 (ib_cb_index b))
    (take 9 (ib_gain_index b)) (drop 9 (ib_gain_index b)) (take 57 (ib_idxVec b)) (drop 57 (ib_idxVec b)) (ib_idxForMax b) (ib_state_first b)
    (ib_startIdx b) d ltac:(rewrite length_take; lia)) as H.
  rewrite !take_drop in H. by destruct b.
Qed.

(** *** Decoding *)

Lemma received_steps mode d b V lc c w old lsfdeq : frame_locals_ok lc ->
  SimpleLsfDeQ (fl_lsfdeq lc) (ib_lsf b) (d_lpc_n d) = Some lsfdeq -> LsfCheck lsfdeq LPC_FILTERORDER (d_lpc_n d) = Some c ->
  DecoderInterpolateLsp (fl_syntdenum lc) (fl_weightdenum lc) c.1 (d_lsfdeqold d) LPC_FILTERORDER (d_mode d) (d_nsub d) =
    Some (known 0 V (fl_syntdenum lc), w, old) ->
  array (11 * subframes mode) V -> 4 <= subframes mode <= 6 ->
  decode_received lc b d =
    (let W := V ++ drop (Z.to_nat (zlen V)) (fl_syntdenum lc) in
     r ← DecodeResidual (fl_calls lc) (d <| d_lsfdeqold := old |>) (adjusted b) (fl_decresidual lc) W;
     let '(d, decresidual) := r in
     r ← DoThePlc 0 decresidual W (11 * (d_nsub d - 1)) (s16 (d_last_lag d)) d;
     let '(PLCresidual, _, d) := r in
     decresidual ← astore decresidual 0 PLCresidual;
     Some (decresidual, W, d)).
Proof.
  intros (_ & _ & L & _) E1 E2 E3 HV Hsub. unfold decode_received. cbv zeta.
  change (ib_lsf (b <| ib_cb_index := IndexConvDec (ib_cb_index b) |>)) with (ib_lsf b).
  rewrite (bind_eq _ _ _ E1), (bind_eq _ _ _ E2), (bind_eq _ _ _ E3). rewrite known_app by (rewrite (proj1 HV); lia). done.
Qed.

(** A frame whose parameters can be decoded. *)
Lemma decode_params_ok mode d b : dec_ok mode d -> params_ok mode b ->
  exists v V d', array (d_blockl d) v /\ array (11 * subframes mode) V /\ dec_ok mode d' /\
    forall lc, frame_locals_ok lc -> decode_received lc b d = Some (known 0 v (fl_decresidual lc), known 0 V (fl_syntdenum lc), d').
Proof.
  intros Hd (I0 & I3 & Hf & Hst). destruct (received_filters mode d b Hd I0 I3) as (V & old & HV & Ho & HF).
  destruct (frame_sizes mode d Hd) as (Hm & _ & Hbl & Hns & _ & _ & _ & Hsub).
  pose proof (dec_ok_lsf mode d old Hd Ho) as Hd1. assert (d_blockl (d <| d_lsfdeqold := old |>) = d_blockl d) as B1 by (by destruct d).
  destruct (received_residual mode _ b V Hd1 Hf Hst HV) as (v & d2 & d3 & [Lv Sv] & Hd2 & Hd3 & E2 & E3). rewrite B1 in Lv.
  exists v, V, d3. split; [done|]. split; [done|]. split; [done|]. intros lc Hlc. destruct (HF lc Hlc) as (x & c & w & F1 & F2 & F3).
  rewrite (received_steps mode d b V lc c w old x Hlc F1 F2 F3 HV Hsub). cbv zeta. destruct Hlc as (_ & _ & L & _ & LJ & Hc).
  rewrite (bind_eq _ _ _ (E2 _ _ _ Hc LJ)), (known_app v) by lia.
  destruct (E3 (drop (Z.to_nat (zlen v)) (fl_decresidual lc)) (drop (Z.to_nat (zlen V)) (fl_syntdenum lc))) as (lpc & E).
  rewrite (bind_eq _ _ _ E), <-(known_app v), <-(known_app V) by (rewrite ?(proj1 HV); lia).
  rewrite (astore_first (known 0 v _)) by (rewrite zlen_known by lia; lia). cbn [mbind option_bind].
  do 3 f_equal. unfold known. rewrite !take_0. cbn [app]. f_equal. rewrite drop_app_ge, drop_drop by (unfold zlen; lia). f_equal. unfold zlen. lia.
Qed.

(** A received frame: what is decoded depends on what was sent only. *)
Lemma decode_received_ok mode d b : dec_ok mode d -> bits_ok mode b -> 1 <= ib_startIdx b <= subframes mode - 1 -> frame_usable mode b = true ->
  exists v V d', array (d_blockl d) v /\ array (11 * subframes mode) V /\ dec_ok mode d' /\
    forall lc b', frame_locals_ok lc -> arrays_ok b' -> sent mode b' = sent mode b ->
      decode_received lc b' d = Some (known 0 v (fl_decresidual lc), known 0 V (fl_syntdenum lc), d').
Proof.
  intros Hd Hb Hi Hu. destruct (frame_sizes mode d Hd) as (Hm & _).
  destruct (decode_params_ok mode d (sent mode b) Hd) as (v & V & d' & Hv & HV & Hd' & E).
  { apply params_sent; [apply Hb|]. by apply bits_params. }
  exists v, V, d'. do 3 (split; [done|]). intros lc b' Hlc Ha Es. apply (more_sent lc mode b' d Ha). rewrite Es. by apply E.
Qed.

(** An unusable one. *)
Lemma decode_received_overrun mode d b lc : dec_ok mode d -> bits_ok mode b -> 1 <= ib_startIdx b <= subframes mode - 1 ->
  frame_usable mode b = false -> frame_locals_ok lc -> decode_received lc b d = None.
Proof.
  intros Hd Hb Hi Hu Hlc. destruct (frame_sizes mode d Hd) as (Hm & _ & _ & _ & _ & _ & _ & Hsub).
  destruct (lsf_indexes mode b Hm Hb) as [I0 I3]. destruct (received_filters mode d b Hd I0 I3) as (V & old & HV & Ho & HF).
  destruct (HF lc Hlc) as (x & c & w & F1 & F2 & F3). rewrite (received_steps mode d b V lc c w old x Hlc F1 F2 F3 HV Hsub). cbv zeta.
  unfold frame_usable in Hu. apply orb_false_iff in Hu as [->%negb_false_iff%Z.eqb_eq Hu]. destruct Hlc as (_ & _ & L & _ & LJ & Hc).
  pose proof (dec_ok_lsf 20 d old Hd Ho) as Hd1. rewrite <-known_app by (rewrite (proj1 HV); lia).
  rewrite DecodeResidual_overrun; try done. rewrite zlen_known by (rewrite ?(proj1 HV); lia). lia.
Qed.

(** ** A lost frame *)

Lemma decode_lost_ok mode d : dec_ok mode d -> exists v V d', array (d_blockl d) v /\ array (11 * subframes mode) V /\ dec_ok mode d' /\
  forall lc, frame_locals_ok lc -> decode_lost lc d = Some (known 0 v (fl_decresidual lc), known 0 V (fl_syntdenum lc), d').
Proof.
  intros Hd. destruct (frame_sizes mode d Hd) as (_ & _ & Hbl & Hns & _ & _ & _ & Hsub). pose proof (ok_last_lag _ _ Hd) as Hlag.
  destruct (DoThePlc_lost mode d [] [] 0 (s16 (d_last_lag d)) Hd) as (v & d' & E & Hd' & Hv & _ & _ & _ & _ & _ & _);
    [rewrite (s16_in _ 19 119) by lia; lia|].
  destruct (frame_sizes mode d' Hd') as (_ & _ & _ & Hns' & _).
  assert (array (11 * subframes mode) (concat (replicate (Z.to_nat (subframes mode)) (d_prevLpc d)))) as HV.
  { rewrite <-(Z2Nat.id (subframes mode)) at 1 by lia. generalize (Z.to_nat (subframes mode)). intros n.
    induction n as [|n IH]; [split; [done|apply List.Forall_nil]|]. cbn [replicate concat].
    replace (11 * Z.of_nat (S n)) with (11 + 11 * Z.of_nat n) by lia. apply array_app; [apply Hd|exact IH]. }
  exists v, (concat (replicate (Z.to_nat (subframes mode)) (d_prevLpc d))), d'. split; [done|]. split; [done|]. split; [done|].
  intros lc (_ & _ & L & _ & LJ & _). unfold decode_lost.
  change (DoThePlc 1 (fl_decresidual lc) (fl_syntdenum lc) 0 (s16 (d_last_lag d)) d) with (DoThePlc 1 [] [] 0 (s16 (d_last_lag d)) d).
  rewrite (bind_eq _ _ _ E), astore_first by (rewrite (proj1 Hv); lia). cbn [mbind option_bind]. rewrite Hns'.
  match goal with |- context [for_loop ?k 0 ?f ?a] => destruct (for_loop_inv (fun i s => 0 <= i /\
    s = known 0 (concat (replicate (Z.to_nat i) (d_prevLpc d))) (fl_syntdenum lc)) f k 0 a) as (s' & Es & _ & Hs') end.
  - split; [done|]. by rewrite known_nil.
  - intros i s Hi [_ ->]. pose proof (ok_prevLpc _ _ Hd) as [Lp _].
    assert (zlen (concat (replicate (Z.to_nat i) (d_prevLpc d))) = i * 11) as Lc.
    { rewrite <-(Z2Nat.id i) at 2 by lia. generalize (Z.to_nat i). intros n.
      induction n as [|n IH]; [done|]. cbn [replicate concat]. rewrite zlen_app, Lp, IH. lia. }
    eexists. split; [|split; [lia|reflexivity]]. unfold LPC_FILTERORDER. change (10 + 1) with 11. rewrite <-Lc at 1.
    rewrite <-(Z.add_0_l (zlen _)), astore_behind by lia. do 2 f_equal.
    replace (Z.to_nat (i + 1)) with (Z.to_nat i + 1)%nat by lia. rewrite replicate_add, concat_app. cbn [replicate concat]. by rewrite app_nil_r.
  - rewrite (bind_eq _ _ _ Es), Hs'. rewrite Z2Nat.id, Z.add_0_l by lia. done.
Qed.

(** ** Every frame *)

Lemma swapped_words mode bytes n : (mode = 20 /\ n = 19 \/ mode = 30 /\ n = 25) -> zlen bytes = n -> words_ok mode (SwapBytes bytes n).
Proof.
  intros Hm Hl. unfold words_ok, SwapBytes. rewrite take_ge by (unfold zlen in Hl; lia).
  assert ((if mode =? 20 then 19%nat else 25%nat) = length bytes) as -> by (destruct Hm as [[-> ->]|[-> ->]]; unfold zlen in Hl; cbn; lia).
  clear. induction bytes as [|x l IH]; [apply fits_nil|]. cbn [length replicate fmap list_fmap]. apply fits_cons; [|exact IH].
  split; [done|]. change (2 ^ 16) with 65536. apply u16_range.
Qed.

(** The parameters of a received frame. *)
Definition received (mode : Z) (b0 : iLBC_bits) (bytes : list Z) : Z * iLBC_bits :=
  UnpackBits (SwapBytes bytes (if mode =? 20 then 19 else 25)) b0 mode.

Lemma received_ok mode b0 bytes : mode = 20 \/ mode = 30 -> arrays_ok b0 -> zlen bytes = (if mode =? 20 then 19 else 25) ->
  bits_ok mode (received mode b0 bytes).2.
Proof.
  intros Hm H0 Hl. unfold received, UnpackBits. cbn [snd]. destruct Hm as [-> | ->]; cbn [Z.eqb Pos.eqb] in *.
  - apply unpack_ok_20; [done|]. by apply swapped_words; [left|].
  - apply unpack_ok_30; [done|]. by apply swapped_words; [right|].
Qed.

Lemma frame_good_start mode b last : mode = 20 \/ mode = 30 -> frame_bad mode b last = false -> 1 <= ib_startIdx b <= subframes mode - 1.
Proof.
  intros Hm [[[H1%Z.ltb_ge H2]%orb_false_iff H3]%orb_false_iff _]%orb_false_iff.
  destruct Hm as [-> | ->]; cbn [Z.eqb Pos.eqb andb] in *; [apply Z.ltb_ge in H2|apply Z.ltb_ge in H3]; unfold subframes; cbn; lia.
Qed.

Lemma sent_start mode b : ib_startIdx (sent mode b) = ib_startIdx b.
Proof. unfold sent. by case_if. Qed.

Lemma sent_usable mode b : frame_usable mode (sent mode b) = frame_usable mode b.
Proof. unfold frame_usable, usable, sent. destruct (mode =? 20); [|done]. cbn [ib_cb_index]. by rewrite take_take. Qed.

(** What was sent does not depend on what the arrays held. *)
Lemma received_any mode b0 bytes : mode = 20 \/ mode = 30 -> arrays_ok b0 ->
  let r := received mode bits0 bytes in let r' := received mode b0 bytes in
  r'.1 = r.1 /\ sent mode r'.2 = sent mode r.2 /\ frame_bad mode r'.2 r'.1 = frame_bad mode r.2 r.1 /\ frame_usable mode r'.2 = frame_usable mode r.2.
Proof.
  intros Hm H0. cbv zeta.
  assert (sent mode (received mode b0 bytes).2 = sent mode (received mode bits0 bytes).2) as E by (apply sent_same; [done|done|apply arrays_bits0]).
  assert ((received mode b0 bytes).1 = (received mode bits0 bytes).1) as E1 by reflexivity.
  revert E E1. generalize (received mode b0 bytes) (received mode bits0 bytes). intros [last b] [last' b'] E E1. cbn [fst snd] in *. subst last'.
  split; [done|]. split; [done|]. unfold frame_bad.
  rewrite <-(sent_start mode b), <-(sent_start mode b'), <-(sent_usable mode b), <-(sent_usable mode b'), E. done.
Qed.

(** Whether a received frame can be decoded: it is discarded, or it can be constructed. *)
Definition decodable (mode : Z) (bytes : list Z) : bool :=
  let '(last_bit, b) := received mode bits0 bytes in frame_bad mode b last_bit || frame_usable mode b.

Definition excited (mode : Z) (bl : Z) (e : FrameLocals -> option (bool * list Z * list Z * iLBC_Dec_Inst_t)) : Prop :=
  exists good v V d', array bl v /\ array (11 * subframes mode) V /\ dec_ok mode d' /\
    forall lc, frame_locals_ok lc -> e lc = Some (good, known 0 v (fl_decresidual lc), known 0 V (fl_syntdenum lc), d').

Lemma excitation_lost mode d bytes : dec_ok mode d -> excited mode (d_blockl d) (fun lc => decode_excitation lc bytes d 0).
Proof.
  intros Hd. destruct (decode_lost_ok mode d Hd) as (v & V & d' & Hv & HV & Hd' & E). exists false, v, V, d'. do 3 (split; [done|]).
  intros lc Hlc. unfold decode_excitation. change (negb (0 =? 0)) with false. cbn iota. by rewrite (bind_eq _ _ _ (E lc Hlc)).
Qed.

Lemma excitation_received mode d bytes m : dec_ok mode d -> m <> 0 -> zlen bytes = d_no_of_words d ->
  if decodable mode bytes then excited mode (d_blockl d) (fun lc => decode_excitation lc bytes d m)
  else forall lc, frame_locals_ok lc -> decode_excitation lc bytes d m = None.
Proof.
  intros Hd Hm Hl. destruct (frame_sizes mode d Hd) as (Hmode & Em & _ & _ & _ & Hw & _).
  assert (Hbits : forall b0, arrays_ok b0 -> bits_ok mode (received mode b0 bytes).2) by (intros; apply received_ok; [done|done|by rewrite <-Hw]).
  assert (HE : forall lc, frame_locals_ok lc -> decode_excitation lc bytes d m = (let b := (received mode (fl_bits lc) bytes).2 in
    if frame_bad mode (received mode bits0 bytes).2 (received mode bits0 bytes).1 then r ← decode_lost lc d; Some (false, r.1.1, r.1.2, r.2)
    else r ← decode_received lc b d; Some (true, r.1.1, r.1.2, r.2))).
  { intros lc [H0 _]. destruct (received_any mode (fl_bits lc) bytes Hmode H0) as (_ & _ & <- & _).
    unfold decode_excitation. destruct (Z.eqb_spec m 0); [done|]. cbn [negb]. rewrite Em, Hw.
    rewrite aload_in by (pose proof (zlen_nonneg bytes); lia). cbn [mbind option_bind]. rewrite drop_0, take_ge by (unfold zlen in *; lia).
    unfold received. by destruct (UnpackBits _ _ _). }
  unfold decodable in *. pose proof (Hbits bits0 arrays_bits0) as Hb.
  destruct (received mode bits0 bytes) as [last b] eqn:Er. cbn [fst snd] in *. destruct (frame_bad mode b last) eqn:Hbad; cbn [orb].
  - destruct (decode_lost_ok mode d Hd) as (v & V & d' & Hv & HV & Hd' & E). exists false, v, V, d'. do 3 (split; [done|]).
    intros lc Hlc. cbv zeta in HE. rewrite (HE lc Hlc), (bind_eq _ _ _ (E lc Hlc)). done.
  - pose proof (frame_good_start mode b last Hmode Hbad) as Hs. destruct (frame_usable mode b) eqn:Hu.
    + destruct (decode_received_ok mode d b Hd Hb Hs Hu) as (v & V & d' & Hv & HV & Hd' & E). exists true, v, V, d'. do 3 (split; [done|]).
      intros lc Hlc. destruct (received_any mode (fl_bits lc) bytes Hmode (proj1 Hlc)) as (_ & Es & _). rewrite Er in Es.
      cbv zeta in HE. rewrite (HE lc Hlc), (bind_eq _ _ _ (E lc _ Hlc (proj1 (Hbits _ (proj1 Hlc))) Es)). done.
    + intros lc Hlc. destruct (received_any mode (fl_bits lc) bytes Hmode (proj1 Hlc)) as (_ & Es & _ & Eu). rewrite Er in Es, Eu.
      cbv zeta in HE. rewrite (HE lc Hlc), (decode_received_overrun mode d _ lc Hd (Hbits _ (proj1 Hlc))); try done.
      * by rewrite <-(sent_start mode), Es, sent_start.
      * by rewrite Eu.
Qed.
