(* ===== verification/IlbcDecode.v ===== *)
(** The iLBC decoder as a whole: which packets are decoded, to how many samples, and
    that the decoder stays well-formed whatever is received or lost. *)
From S2P Require Import Prelude SplMath SplFilt BitRefl IlbcBits IlbcStream IlbcTables IlbcLsf IlbcDec IlbcExc IlbcExcInv IlbcResidual IlbcLsfInv.
From S2P Require Import IlbcPlc IlbcPlcInv IlbcEnh IlbcEnhInv IlbcEnhIf IlbcEnhIfInv IlbcFrame IlbcFrameInv.

(** ** Synthesis *)

Lemma synthesis_ok n m filters k i data : array n filters -> 0 <= k -> k * 11 + 11 <= n -> array m data -> 0 <= i -> 10 + i * 40 + 40 <= m ->
  exists data', synthesis filters k i data = Some data' /\ array m data'.
Proof.
  intros Hf Hk Hkn Hd Hi Him. unfold synthesis, LPC_FILTERORDER, SUBL. change (10 + 1) with 11.
  destruct (block_in filters (k * 11) 11 (array_self _ _ Hf)) as [E1 A1]; [lia|lia|rewrite (proj1 Hf); lia|]. rewrite (bind_eq _ _ _ E1).
  destruct (block_in data (10 + i * 40) 40 (array_self _ _ Hd)) as [E2 A2]; [lia|lia|rewrite (proj1 Hd); lia|]. rewrite (bind_eq _ _ _ E2).
  destruct (FilterARFastQ12_safe (block data (10 + i * 40) 40) data (10 + i * 40) (block filters (k * 11) 11) 40) as (o & E & L & S);
    [rewrite (proj1 A1); lia|rewrite (proj1 A1); lia|rewrite (proj1 Hd); lia|rewrite (proj1 A2); lia|apply Hd|].
  exists o. split; [done|]. split; [by rewrite L, (proj1 Hd)|done].
Qed.

(** Several subframes, with filters [c] places before. *)
Lemma synthesis_loop n m filters c i0 i1 data : array n filters -> array m data -> 0 <= i0 <= i1 -> 0 <= i0 + c -> (i1 + c) * 11 <= n -> 10 + i1 * 40 <= m ->
  exists data', for_loop (Z.to_nat (i1 - i0)) i0 (fun i => synthesis filters (i + c) i) data = Some data' /\ array m data'.
Proof.
  intros Hf Hd Hi Hc Hn Hm.
  destruct (for_loop_inv (fun _ => array m) (fun i => synthesis filters (i + c) i) (Z.to_nat (i1 - i0)) i0 data Hd) as (d' & E & H).
  - intros i x Hr Hx. apply (synthesis_ok n m); try done; lia.
  - by exists d'.
Qed.

Lemma xcorr_step_ok buf t r n sh b e k s : 0 <= n -> 0 <= t -> t + n <= zlen buf -> 0 <= r - k -> r - k + n <= zlen buf ->
  0 <= b - k < zlen buf -> 0 <= e - k < zlen buf ->
  exists s', xcorr_step buf t r n (-1) sh b e k s = Some s' /\ (xc_maxlag s' = k \/ xc_maxlag s' = xc_maxlag s).
Proof.
  intros. unfold xcorr_step. destruct (dot_ok buf t buf (r + -1 * k) n sh) as [c Ec]; [lia..|]. rewrite (bind_eq _ _ _ Ec). cbv zeta.
  destruct (aget_in buf (e + -1 * k)) as [x Ex]; [lia|]. rewrite (bind_eq _ _ _ Ex).
  destruct (aget_in buf (b + -1 * k)) as [y Ey]; [lia|]. rewrite (bind_eq _ _ _ Ey). eexists. split; [reflexivity|]. cbn [xc_maxlag].
  repeat case_if; cbn [xc_maxlag]; auto.
Qed.

Lemma XcorrCoef_ok buf t r n len o : 0 <= t -> t + n <= zlen buf -> 0 < n <= 100 -> 1 <= len <= 100 -> len <= r -> r + n <= zlen buf ->
  exists lag, XcorrCoef buf t r n len o (-1) = Some lag /\ o <= lag <= o + len - 1.
Proof.
  intros Ht Htn Hn Hlen Hr Hrn. unfold XcorrCoef. change (-1 =? 1) with false. cbn iota. rewrite (s16_in (n + len - 1) 0 200) by lia.
  destruct (max_abs_ok buf (r - len) (n + len - 1)) as (m & Em & _); [lia..|]. rewrite (bind_eq _ _ _ Em). cbv zeta.
  destruct (dot_ok buf r buf r n (if 5000 <? m then 2 else 0)) as [en Een]; [lia..|]. rewrite (bind_eq _ _ _ Een).
  match goal with |- context [for_loop _ 0 ?f ?a] => destruct (for_loop_to (fun s => 0 <= xc_maxlag s < len) f len a) as (s & Es & Hs) end.
  - cbn. lia.
  - intros k s Hk Hs. match goal with |- context [xcorr_step _ _ _ _ _ ?sh ?b ?e _ _] => destruct (xcorr_step_ok buf t r n sh b e k s) as (s' & E & H) end;
      [lia..|]. exists s'. split; [done|]. lia.
  - rewrite (bind_eq _ _ _ Es). eexists. split; [reflexivity|]. lia.
Qed.

Section Frame.

Context (mode : Z) (d : iLBC_Dec_Inst_t) (v V : list Z).
Hypothesis Hd : dec_ok mode d.
Hypothesis Hv : array (d_blockl d) v.
Hypothesis HV : array (11 * subframes mode) V.

Lemma decode_plain_ok : exists data d', decode_plain v V d = Some (data, d') /\ array (10 + d_blockl d) data /\ dec_ok mode d'.
Proof using Hd Hv HV.
  destruct (frame_sizes mode d Hd) as (Hm & Em & Hbl & Hns & _ & _ & _ & Hsub). unfold decode_plain, ENH_BLOCKL. cbv zeta. rewrite Em.
  assert (mode = 20 /\ d_blockl d = 160 \/ mode = 30 /\ d_blockl d = 240) as Hmb.
  { destruct Hm as [E | E]; rewrite E in Hbl; [left|right]; by split. }
  assert (exists lag, (if mode =? 20 then XcorrCoef v (d_blockl d - 60) (d_blockl d - 60 - 20) 60 80 20 (-1)
    else XcorrCoef v (d_blockl d - 80) (d_blockl d - 80 - 20) 80 100 20 (-1)) = Some lag /\ 19 <= lag <= 119) as (lag & El & Hlag).
  { destruct Hv as [Lv _]. destruct Hmb as [[E Hb]|[E Hb]]; rewrite E, Hb; cbn [Z.eqb Pos.eqb].
    - destruct (XcorrCoef_ok v (160 - 60) (160 - 60 - 20) 60 80 20) as (lag & E1 & H1); [lia..|]. exists lag. split; [done|lia].
    - destruct (XcorrCoef_ok v (240 - 80) (240 - 80 - 20) 80 100 20) as (lag & E1 & H1); [lia..|]. exists lag. split; [done|lia]. }
  rewrite (bind_eq _ _ _ El), (s16_in lag 19 119) by lia. pose proof (dec_ok_lag mode d lag Hd Hlag) as Hd1.
  set (d1 := d <| d_last_lag := lag |>) in *. assert (d_nsub d1 = d_nsub d /\ d_blockl d1 = d_blockl d) as [N1 B1] by (by destruct d). clearbody d1.
  rewrite aload_in by (rewrite ?(proj1 Hv); lia). cbn [mbind option_bind]. rewrite drop_0, take_ge by (destruct Hv as [L _]; unfold zlen in L; lia).
  assert (array (10 + d_blockl d) (d_syntMem d1 ++ v)) as Ha by (apply array_app; [apply Hd1|done]).
  destruct (synthesis_loop _ _ V 0 0 (d_nsub d1) _ HV Ha) as (data & E2 & A2); [lia..|].
  rewrite Z.sub_0_r in E2. rewrite (for_loop_ext _ (fun i => synthesis V (i + 0) i)) by (intros; by rewrite Z.add_0_r).
  rewrite (bind_eq _ _ _ E2). unfold LPC_FILTERORDER.
  destruct (memmove_array 10 _ (d_syntMem d1) 0 data (d_blockl d) 10 (ok_syntMem _ _ Hd1) A2) as (sm & E3 & A3); [lia..|].
  rewrite (bind_eq _ _ _ E3). eexists _, _. split; [reflexivity|]. split; [done|]. by apply dec_ok_syntMem.
Qed.

(** The filters after an expansion. *)
Lemma old_filters_ok : exists old,
  (if d_prev_enh_pl d =? 2 then for_loop (Z.to_nat (d_nsub d)) 0 (fun i old => memmove old (i * (LPC_FILTERORDER + 1)) V 0 (LPC_FILTERORDER + 1)) (d_old_syntdenum d)
   else Some (d_old_syntdenum d)) = Some old /\ array 66 old.
Proof using Hd HV.
  destruct (frame_sizes mode d Hd) as (_ & _ & _ & Hns & _ & _ & _ & Hsub). pose proof (ok_old_syntdenum _ _ Hd) as Ho.
  destruct (d_prev_enh_pl d =? 2); [|by eexists]. unfold LPC_FILTERORDER. change (10 + 1) with 11. apply for_loop_to; [done|].
  intros i old Hi Hold. apply (memmove_array 66 (11 * subframes mode)); try done; lia.
Qed.

Lemma decode_enhanced_ok : exists data d', decode_enhanced v V d = Some (data, d') /\ array (10 + d_blockl d) data /\ dec_ok mode d'.
Proof using Hd Hv HV.
  destruct (frame_sizes mode d Hd) as (Hm & _ & Hbl & Hns & _ & _ & _ & Hsub). unfold decode_enhanced. cbv zeta.
  destruct old_filters_ok as (old & E1 & A1). rewrite (bind_eq _ _ _ E1). pose proof (dec_ok_old mode d old Hd A1) as Hd1.
  set (d1 := d <| d_old_syntdenum := old |>) in *. assert (d_blockl d1 = d_blockl d) as B1 by (by destruct d). clearbody d1.
  destruct (EnhancerInterface_ok mode d1 v Hd1) as (lag & out & d2 & E2 & Hlag & Hout & Hd2); [by rewrite B1|].
  rewrite (bind_eq _ _ _ E2). pose proof (dec_ok_lag mode d2 lag Hd2 Hlag) as Hd3. set (d3 := d2 <| d_last_lag := lag |>) in *. clearbody d3.
  rewrite B1 in Hout. assert (array (10 + d_blockl d) (d_syntMem d3 ++ out)) as Ha by (apply array_app; [apply Hd3|done]).
  destruct (frame_sizes mode d3 Hd3) as (_ & Em3 & Hbl3 & Hns3 & _). rewrite Em3, Hns3. pose proof (ok_old_syntdenum _ _ Hd3) as Ho.
  assert (exists data, (if mode =? 20 then
      data ← synthesis (d_old_syntdenum d3) (subframes mode - 1) 0 (d_syntMem d3 ++ out);
      for_loop (Z.to_nat (subframes mode - 1)) 1 (fun i => synthesis V (i - 1) i) data
    else if mode =? 30 then
      data ← for_loop 2 0 (fun i => synthesis (d_old_syntdenum d3) (i + 4) i) (d_syntMem d3 ++ out);
      for_loop (Z.to_nat (subframes mode - 2)) 2 (fun i => synthesis V (i - 2) i) data
    else Some (d_syntMem d3 ++ out)) = Some data /\ array (10 + d_blockl d) data) as (data & E4 & A4).
  { destruct Hm as [Em | Em]; rewrite Em in *; cbn [Z.eqb Pos.eqb].
    - destruct (synthesis_ok 66 _ (d_old_syntdenum d3) (subframes 20 - 1) 0 _ Ho ltac:(lia) ltac:(lia) Ha) as (x & Ex & Ax); [lia..|].
      rewrite (bind_eq _ _ _ Ex). apply (synthesis_loop _ _ V (-1) 1 (subframes 20) x HV Ax); lia.
    - destruct (synthesis_loop 66 _ (d_old_syntdenum d3) 4 0 2 _ Ho Ha) as (x & Ex & Ax); [lia..|].
      rewrite (bind_eq _ _ _ Ex). apply (synthesis_loop _ _ V (-2) 2 (subframes 30) x HV Ax); lia. }
  rewrite (bind_eq _ _ _ E4). unfold LPC_FILTERORDER.
  destruct (memmove_array 10 _ (d_syntMem d3) 0 data (d_blockl d3) 10 (ok_syntMem _ _ Hd3) A4) as (sm & E5 & A5); [lia..|].
  rewrite (bind_eq _ _ _ E5). eexists _, _. split; [reflexivity|]. split; [done|]. by apply dec_ok_syntMem.
Qed.

End Frame.

(** ** One frame *)

Lemma DecodeImpl_excited mode d bytes m : d_blockl d = 40 * subframes mode ->
  excited mode (d_blockl d) (fun lc => decode_excitation lc bytes d m) ->
  exists block d', array (d_blockl d) block /\ dec_ok mode d' /\ forall lc, frame_locals_ok lc -> DecodeImpl lc bytes d m = Some (block, d').
Proof.
  intros Hbl (good & v & V & d1 & Hv & HV & Hd1 & E1). destruct (frame_sizes mode d1 Hd1) as (_ & _ & Hbl1 & Hns1 & _ & _ & _ & Hsub).
  assert (d_blockl d1 = d_blockl d) as B1 by lia. rewrite <-B1 in Hv.
  assert (exists data d2, array (10 + d_blockl d) data /\ dec_ok mode d2 /\ forall J K,
    (if d_use_enhancer d1 =? 1 then decode_enhanced (v ++ J) (V ++ K) d1 else decode_plain (v ++ J) (V ++ K) d1) = Some (data, d2))
    as (data & d2 & Ha & Hd2 & E2).
  { destruct (d_use_enhancer d1 =? 1).
    - destruct (decode_enhanced_ok mode d1 v V Hd1 Hv HV) as (data & d2 & E & A & O). exists data, d2. rewrite <-B1. split; [done|].
      split; [done|]. intros J K. by apply more_decode_enhanced.
    - destruct (decode_plain_ok mode d1 v V Hd1 Hv HV) as (data & d2 & E & A & O). exists data, d2. rewrite <-B1. split; [done|].
      split; [done|]. intros J K. by apply more_decode_plain. }
  destruct (frame_sizes mode d2 Hd2) as (_ & _ & Hbl2 & Hns2 & _). assert (d_blockl d2 = d_blockl d) as B2 by lia.
  destruct (block_in data 10 (d_blockl d) (array_self _ _ Ha)) as [E3 A3]; [lia|lia|rewrite (proj1 Ha); lia|].
  destruct (HpOutput_ok _ (block data 10 (d_blockl d)) 0 (d_hpimemy d2) (d_hpimemx d2) (d_blockl d) A3 (ok_hpimemy _ _ Hd2) (ok_hpimemx _ _ Hd2))
    as (dec & y & x & E4 & A4 & Hy & Hx); [lia..|].
  destruct (memmove_array 66 _ (d_old_syntdenum d2) 0 V 0 (d_nsub d2 * 11) (ok_old_syntdenum _ _ Hd2) HV) as (old & E5 & A5); [lia..|].
  eexists dec, _. split; [done|]. split; [apply dec_ok_pl, dec_ok_old; [by apply dec_ok_filters|exact A5]|].
  intros lc Hlc. unfold DecodeImpl. rewrite (bind_eq _ _ _ (E1 lc Hlc)). destruct Hlc as (_ & _ & Ls & _ & Lr & _).
  rewrite !known_app by (rewrite ?(proj1 Hv), ?(proj1 HV); lia). rewrite (bind_eq _ _ _ (E2 _ _)). rewrite B2. unfold LPC_FILTERORDER.
  rewrite (bind_eq _ _ _ E3), (bind_eq _ _ _ E4). change (10 + 1) with 11. by rewrite (bind_eq _ _ _ (more_memmove _ _ _ _ _ _ _ E5)).
Qed.

(** A received frame, whatever the local arrays hold. *)
Lemma DecodeImpl_received mode d bytes : dec_ok mode d -> zlen bytes = d_no_of_words d ->
  if decodable mode bytes
  then exists block d', array (d_blockl d) block /\ dec_ok mode d' /\ forall lc, frame_locals_ok lc -> DecodeImpl lc bytes d 1 = Some (block, d')
  else forall lc, frame_locals_ok lc -> DecodeImpl lc bytes d 1 = None.
Proof.
  intros Hd Hl. pose proof (excitation_received mode d bytes 1 Hd ltac:(done) Hl) as H. destruct (decodable mode bytes).
  - by apply (DecodeImpl_excited mode d bytes 1); [apply (frame_sizes _ _ Hd)|].
  - intros lc Hlc. unfold DecodeImpl. by rewrite (H lc Hlc).
Qed.

(** A lost frame. *)
Lemma DecodeImpl_lost mode d bytes : dec_ok mode d -> exists block d', array (d_blockl d) block /\ dec_ok mode d' /\
  forall lc, frame_locals_ok lc -> DecodeImpl lc bytes d 0 = Some (block, d').
Proof.
  intros Hd. apply (DecodeImpl_excited mode d bytes 0); [apply (frame_sizes _ _ Hd)|by apply excitation_lost].
Qed.

(** ** Packets *)

(** The frame length that the size of a packet stands for, and the bytes of a frame. *)
Definition frame_bytes (mode : Z) : Z := if mode =? 20 then NO_OF_BYTES_20MS else NO_OF_BYTES_30MS.
Definition packet_mode (len : Z) : option Z :=
  if packet_of len NO_OF_BYTES_20MS then Some 20 else if packet_of len NO_OF_BYTES_30MS then Some 30 else None.

(** Every frame of the packet can be decoded: only frames of 20 ms may be unusable. *)
Definition packet_decodable (encoded : list Z) (len : Z) : Prop :=
  packet_mode len = Some 20 -> forall k, 0 <= k < len / 38 -> decodable 20 (block encoded (k * 19) 19) = true.

Lemma packet_of_cases len b : packet_of len b = true <-> len = b \/ len = 2 * b \/ len = 3 * b.
Proof. unfold packet_of. rewrite !orb_true_iff, !Z.eqb_eq. tauto. Qed.

Lemma packet_mode_cases len mode : packet_mode len = Some mode -> (mode = 20 \/ mode = 30) /\ packet_of len (frame_bytes mode) = true /\
  exists n, 1 <= n <= 3 /\ len = n * frame_bytes mode.
Proof.
  unfold packet_mode. intros H. assert ((mode = 20 \/ mode = 30) /\ packet_of len (frame_bytes mode) = true) as [Hm Hp].
  { destruct (packet_of len NO_OF_BYTES_20MS) eqn:E1; [injection H as <-; by split; [left|]|].
    destruct (packet_of len NO_OF_BYTES_30MS) eqn:E2; [injection H as <-; by split; [right|]|done]. }
  split; [done|]. split; [done|]. apply packet_of_cases in Hp as [-> |[-> | ->]]; [exists 1|exists 2|exists 3]; lia.
Qed.

Lemma decodable_30 bytes : decodable 30 bytes = true.
Proof. unfold decodable. destruct (received 30 bits0 bytes). apply orb_true_r. Qed.

Section Packet.

Context (mode : Z) (encoded : list Z) (n : Z).
Hypothesis Henc : n * frame_bytes mode <= 2 * zlen encoded.
Hypothesis Hdec : mode = 20 -> forall k, 0 <= k < n -> decodable 20 (block encoded (k * 19) 19) = true.

Lemma decode_frames_ok fuel : forall i decoded d, dec_ok mode d -> 0 <= i <= n -> n - i < Z.of_nat fuel -> array (i * (8 * mode)) decoded ->
  exists decoded' d', array (n * (8 * mode)) decoded' /\ dec_ok mode d' /\ forall lcs, (forall i, frame_locals_ok (lcs i)) ->
    decode_frames fuel lcs encoded (n * frame_bytes mode) i decoded d = Some (n, decoded', d').
Proof using Henc Hdec.
  induction fuel as [|fuel IH]; intros i decoded d Hd Hi Hf Hdd; [lia|]. cbn [decode_frames].
  destruct (frame_sizes mode d Hd) as (Hm & Em & Hbl & _ & _ & Hw & Hby & _).
  assert (d_no_of_bytes d = frame_bytes mode /\ d_no_of_words d * 2 = frame_bytes mode /\ 0 < frame_bytes mode /\ d_blockl d = 8 * mode) as (Hb & Hwb & Hpos & Hbl').
  { rewrite Hby, Hw, Hbl. destruct Hm as [-> | ->]; done. }
  rewrite Hb. destruct (Z.ltb_spec (i * frame_bytes mode) (n * frame_bytes mode)) as [Hlt|Hge].
  - assert (i < n) as Hin by nia. rewrite aload_in by nia. cbn [mbind option_bind]. fold (block encoded (i * d_no_of_words d) (d_no_of_words d)).
    set (bytes := block encoded (i * d_no_of_words d) (d_no_of_words d)).
    assert (zlen bytes = d_no_of_words d) as Lb by (apply zlen_block; nia).
    pose proof (DecodeImpl_received mode d bytes Hd Lb) as H. assert (decodable mode bytes = true) as Hok.
    { destruct Hm as [E|E]; rewrite E; [|apply decodable_30]. rewrite E in Hw. cbn in Hw. unfold bytes. rewrite Hw. apply Hdec; [done|lia]. }
    rewrite Hok in H. destruct H as (out & d' & Ao & Hd' & E).
    destruct (IH (i + 1) (decoded ++ out) d' Hd') as (decoded' & d'' & A & Hd'' & E'); [lia|lia| |].
    { replace ((i + 1) * (8 * mode)) with (i * (8 * mode) + d_blockl d) by lia. by apply array_app. }
    exists decoded', d''. split; [done|]. split; [done|]. intros lcs Hlc. rewrite (bind_eq _ _ _ (E (lcs i) (Hlc i))). cbn [fst snd]. by apply E'.
  - assert (i = n) as -> by nia. exists decoded, d. by split.
Qed.

Lemma decode_answer_ok d : dec_ok mode d -> 1 <= n <= 3 -> exists decoded d', array (n * (8 * mode)) decoded /\ dec_ok mode d' /\
  forall lcs, (forall i, frame_locals_ok (lcs i)) -> decode_answer lcs encoded (n * frame_bytes mode) d = Some (n * (8 * mode), decoded, Some 1, d').
Proof using Henc Hdec.
  intros Hd Hn. destruct (decode_frames_ok 4 0 [] d Hd) as (decoded & d' & A & Hd' & E); [lia|lia|split; [done|apply List.Forall_nil]|].
  destruct (frame_sizes mode d' Hd') as (Hm & _ & Hbl & _).
  assert (d_blockl d' = 8 * mode) as Hb by (rewrite Hbl; by destruct Hm as [-> | ->]).
  exists decoded, d'. split; [done|]. split; [done|]. intros lcs Hlc. unfold decode_answer. rewrite (bind_eq _ _ _ (E lcs Hlc)), Hb.
  rewrite (s16_in _ 0 720); [done|destruct Hm as [-> | ->]; lia..].
Qed.

End Packet.

Lemma Decode_ok mode encoded len d : dec_ok mode d -> len <= 2 * zlen encoded ->
  packet_decodable encoded len ->
  match packet_mode len with
  | Some mode' => exists decoded d', array (len / frame_bytes mode' * (8 * mode')) decoded /\ dec_ok mode' d' /\
      forall lcs, (forall i, frame_locals_ok (lcs i)) -> Decode lcs d encoded len = Some (zlen decoded, decoded, Some 1, d')
  | None => forall lcs, Decode lcs d encoded len = Some (-1, [], None, d)
  end.
Proof.
  intros Hd Hlen Hdec. destruct (frame_sizes mode d Hd) as (Hm & Em & _ & _ & _ & _ & Hby & _).
  assert (d_no_of_bytes d = frame_bytes mode) as Hb by (rewrite Hby; by destruct Hm as [-> | ->]).
  assert (HI : forall m, m = 20 \/ m = 30 -> dec_ok m (InitDecode d m (d_use_enhancer d)).2).
  { intros m Hm'. destruct (InitDecode_ok d m (d_use_enhancer d) Hm') as (d' & E & H). by rewrite E. }
  destruct (packet_mode len) as [mode'|] eqn:Ep.
  - destruct (packet_mode_cases len mode' Ep) as (Hm' & Hp & n & Hn & El).
    assert (0 < frame_bytes mode') as Hpos by (by destruct Hm' as [-> | ->]).
    assert (exists d1, dec_ok mode' d1 /\ forall lcs, Decode lcs d encoded len = decode_answer lcs encoded len d1) as (d1 & Hd1 & E).
    { unfold Decode. rewrite Hb, Em. destruct (decide (mode' = mode)) as [->|Hne]; [exists d; split; [done|by rewrite Hp]|].
      assert (packet_of len (frame_bytes mode) = false) as ->.
      { apply not_true_iff_false. rewrite packet_of_cases, El. unfold frame_bytes, NO_OF_BYTES_20MS, NO_OF_BYTES_30MS.
        destruct Hm as [-> | ->], Hm' as [-> | ->]; cbn [Z.eqb Pos.eqb]; lia. }
      exists (InitDecode d mode' (d_use_enhancer d)).2. split; [by apply HI|].
      destruct Hm as [-> | ->], Hm' as [-> | ->]; try done; unfold frame_bytes in Hp; cbn [Z.eqb Pos.eqb] in *; by rewrite Hp. }
    assert (packet_decodable encoded len -> mode' = 20 -> forall k, 0 <= k < n -> decodable 20 (block encoded (k * 19) 19) = true) as Hk.
    { intros H -> k Hk. apply H; [done|]. rewrite El. change (frame_bytes 20) with 38. rewrite Z.div_mul by done. done. }
    destruct (decode_answer_ok mode' encoded n ltac:(lia) (Hk Hdec) d1 Hd1 Hn) as (decoded & d' & A & Hd' & E').
    exists decoded, d'. rewrite El, Z.div_mul by lia. split; [done|]. split; [done|]. intros lcs Hlc.
    rewrite <-El, E, El, (proj1 A). by apply E'.
  - unfold packet_mode in Ep. destruct (packet_of len NO_OF_BYTES_20MS) eqn:E1; [done|]. destruct (packet_of len NO_OF_BYTES_30MS) eqn:E2; [done|].
    intros lcs. unfold Decode, frame_bytes in *. rewrite Hb, Em. destruct Hm as [-> | ->]; cbn [Z.eqb Pos.eqb]; by rewrite E1, E2.
Qed.

(** ** Losses and expansions *)

Lemma for_loop_last {A} (f : Z -> A -> option A) n : forall i a, for_loop (S n) i f a = for_loop n i f a ≫= f (i + Z.of_nat n).
Proof.
  induction n as [|n IH]; intros i a.
  - cbn [for_loop]. rewrite Z.add_0_r. cbn [mbind option_bind]. by destruct (f i a).
  - change (for_loop (S (S n)) i f a) with (f i a ≫= for_loop (S n) (i + 1) f). cbn [for_loop]. destruct (f i a) as [x|]; [|done].
    cbn [mbind option_bind]. replace (i + Z.of_nat (S n)) with (i + 1 + Z.of_nat n) by lia. apply IH.
Qed.

Lemma lost_frames_ok mode n d : dec_ok mode d -> exists decoded d',
  array (Z.of_nat n * (8 * mode)) decoded /\ dec_ok mode d' /\ forall lcs, (forall i, frame_locals_ok (lcs i)) ->
    for_loop n 0 (fun i st => let '(decoded, d) := st in r ← DecodeImpl (lcs i) [] d 0; Some (decoded ++ r.1, r.2)) ([], d) = Some (decoded, d').
Proof.
  intros Hd. induction n as [|n (decoded & d1 & A & Hd1 & E)].
  - exists [], d. split; [split; [done|apply List.Forall_nil]|]. by split.
  - destruct (DecodeImpl_lost mode d1 [] Hd1) as (out & d2 & Ao & Hd2 & E2). exists (decoded ++ out), d2.
    destruct (frame_sizes mode d1 Hd1) as (Hm & _ & Hbl & _).
    assert (d_blockl d1 = 8 * mode) as Hb by (rewrite Hbl; by destruct Hm as [-> | ->]).
    split; [replace (Z.of_nat (S n) * (8 * mode)) with (Z.of_nat n * (8 * mode) + d_blockl d1) by lia; by apply array_app|].
    split; [done|]. intros lcs Hlc. rewrite for_loop_last, (bind_eq _ _ _ (E lcs Hlc)). by rewrite (bind_eq _ _ _ (E2 _ (Hlc _))).
Qed.

Lemma DecodePlc_ok mode n d : dec_ok mode d -> 0 <= n <= 136 -> exists decoded d', array (n * (8 * mode)) decoded /\ dec_ok mode d' /\
  forall lcs, (forall i, frame_locals_ok (lcs i)) -> DecodePlc lcs d n = Some (n * (8 * mode), decoded, d').
Proof.
  intros Hd Hn. destruct (lost_frames_ok mode (Z.to_nat n) d Hd) as (decoded & d' & A & Hd' & E). rewrite Z2Nat.id in A by lia.
  exists decoded, d'. split; [done|]. split; [done|]. intros lcs Hlc. unfold DecodePlc. rewrite (bind_eq _ _ _ (E lcs Hlc)).
  destruct (frame_sizes mode d' Hd') as (Hm & _ & -> & _).
  assert (40 * subframes mode = 8 * mode) as -> by (by destruct Hm as [-> | ->]).
  rewrite (s16_in _ 0 32640); [done|destruct Hm as [-> | ->]; lia..].
Qed.

Lemma NetEqPlc_ok mode d : dec_ok mode d -> exists d', NetEqPlc d = Some (0, d') /\ dec_ok mode d'.
Proof.
  intros Hd. unfold NetEqPlc. destruct (MemSet_array 643 (d_enh_buf d) ENH_BUFL (ok_enh_buf _ _ Hd)) as (b & E & A); [unfold ENH_BUFL; lia|].
  rewrite (bind_eq _ _ _ E). eexists. split; [reflexivity|]. by apply dec_ok_pl, dec_ok_buf.
Qed.

(** ** Sessions *)

(** What a user of the decoder does: a packet, lost frames, an expansion of its own. *)
Inductive IlbcEvent :=
  | EvPacket (encoded : list Z) (len : Z)
  | EvLost (frames : Z)
  | EvExpand.

(** One call: answer, samples, and the decoder. *)
Definition ilbc_event (lcs : Z -> FrameLocals) (d : iLBC_Dec_Inst_t) (ev : IlbcEvent) : option (Z * list Z * iLBC_Dec_Inst_t) :=
  match ev with
  | EvPacket encoded len => r ← Decode lcs d encoded len; Some (r.1.1.1, r.1.1.2, r.2)
  | EvLost frames => DecodePlc lcs d frames
  | EvExpand => r ← NetEqPlc d; Some (r.1, [], r.2)
  end.

Fixpoint ilbc_session (lcs : nat -> Z -> FrameLocals) (k : nat) (evs : list IlbcEvent) (d : iLBC_Dec_Inst_t)
    : option (list (Z * list Z) * iLBC_Dec_Inst_t) :=
  match evs with
  | [] => Some ([], d)
  | ev :: evs =>
      r ← ilbc_event (lcs k) d ev;
      q ← ilbc_session lcs (S k) evs r.2;
      Some (r.1 :: q.1, q.2)
  end.

(** The specification: the state is the frame length; answer and next state. *)
Definition spec_event (mode : Z) (ev : IlbcEvent) : Z * Z :=
  match ev with
  | EvPacket _ len =>
      match packet_mode len with
      | Some mode' => (len / frame_bytes mode' * (8 * mode'), mode')
      | None => (-1, mode)
      end
  | EvLost frames => (frames * (8 * mode), mode)
  | EvExpand => (0, mode)
  end.

Fixpoint spec_session (mode : Z) (evs : list IlbcEvent) : list Z * Z :=
  match evs with
  | [] => ([], mode)
  | ev :: evs => let q := spec_session (spec_event mode ev).2 evs in ((spec_event mode ev).1 :: q.1, q.2)
  end.

(** The memory of a packet holds it and its frames can be decoded; at most 136 frames are
    concealed at once, so that the answer fits. *)
Definition event_ok (ev : IlbcEvent) : Prop :=
  match ev with
  | EvPacket encoded len => len <= 2 * zlen encoded /\ packet_decodable encoded len
  | EvLost frames => 0 <= frames <= 136
  | EvExpand => True
  end.

Lemma ilbc_event_ok mode d ev : dec_ok mode d -> event_ok ev -> exists out d',
  array (Z.max 0 (spec_event mode ev).1) out /\ dec_ok (spec_event mode ev).2 d' /\
  forall lcs, (forall i, frame_locals_ok (lcs i)) -> ilbc_event lcs d ev = Some ((spec_event mode ev).1, out, d').
Proof.
  intros Hd Hev. destruct ev as [encoded len|n|]; cbn [ilbc_event spec_event event_ok] in *.
  - destruct Hev as [Hl Hdec]. pose proof (Decode_ok mode encoded len d Hd Hl Hdec) as H. destruct (packet_mode len) as [m|]; cbn [fst snd].
    + destruct H as (out & d' & A & Hd' & E). exists out, d'. pose proof (zlen_nonneg out).
      rewrite <-(proj1 A), Z.max_r by lia. split; [by destruct A|]. split; [done|]. intros lcs Hlc. by rewrite (bind_eq _ _ _ (E lcs Hlc)).
    + exists [], d. split; [split; [done|apply List.Forall_nil]|]. split; [done|]. intros lcs _. by rewrite (bind_eq _ _ _ (H lcs)).
  - destruct (DecodePlc_ok mode n d Hd Hev) as (out & d' & A & Hd' & E). exists out, d'. split; [|done].
    cbn [fst]. pose proof (zlen_nonneg out). rewrite Z.max_r; [done|]. rewrite <-(proj1 A). lia.
  - destruct (NetEqPlc_ok mode d Hd) as (d' & E & Hd'). exists [], d'. split; [split; [done|apply List.Forall_nil]|]. split; [done|].
    intros lcs _. by rewrite (bind_eq _ _ _ E).
Qed.

(** ** The properties *)

(** C19. Which iLBC frames can be decoded: every received frame of the right size is turned
    into 160 or 240 samples of 16 bits, bit errors or not, with all accesses inside of
    the arrays, a result that does not depend on what the uninitialised local arrays hold (those of
    the parameters that the mode does not transmit, of residuals, filters and codebook
    vectors), and a state that is well-formed again.  The exception:
    at 20 ms, a frame that passes the check for bit errors and in which one of the first
    three codebook indexes is 126 or 127 makes the decoder leave an array on the stack. *)
Theorem DecodeImpl_exact mode d bytes (Hd : dec_ok mode d) (Hl : zlen bytes = d_no_of_words d) :
  let '(last_bit, b) := received mode bits0 bytes in
  if (mode =? 20) && negb (frame_bad mode b last_bit) && negb (usable b)
  then forall lc, frame_locals_ok lc -> DecodeImpl lc bytes d 1 = None
  else exists block d', array (8 * mode) block /\ dec_ok mode d' /\
    forall lc, frame_locals_ok lc -> DecodeImpl lc bytes d 1 = Some (block, d').
Proof.
  pose proof (DecodeImpl_received mode d bytes Hd Hl) as H. unfold decodable, frame_usable in H.
  destruct (frame_sizes mode d Hd) as (Hm & _ & Hbl & _).
  assert (d_blockl d = 8 * mode) as Hb by (rewrite Hbl; by destruct Hm as [-> | ->]). rewrite Hb in H.
  destruct (received mode bits0 bytes) as [last b]. destruct (mode =? 20), (frame_bad mode b last), (usable b); cbn [andb orb negb] in *; exact H.
Qed.

(** C18. The decoder refines its specification, a machine that remembers the frame length
    only: for every sequence of packets, losses and expansions the calls answer what the
    machine answers (the number of samples, or -1 for a packet of a size that no frame
    has), give that many samples, and switch between 20 and 30 ms when the machine does.
    No call fails, as far as the frames of 20 ms can be decoded, and the samples are the
    same whatever the uninitialised local arrays [lcs] of the calls hold. *)
Theorem Ilbc_session_refines evs mode d (Hd : dec_ok mode d) (Hev : Forall event_ok evs) :
  exists outs d', fst <$> outs = (spec_session mode evs).1 /\ Forall (fun o => array (Z.max 0 o.1) o.2) outs /\
    dec_ok (spec_session mode evs).2 d' /\
    forall lcs k, (forall j i, frame_locals_ok (lcs j i)) -> ilbc_session lcs k evs d = Some (outs, d').
Proof.
  revert mode d Hd. induction Hev as [|ev evs Hev Hevs IH]; intros mode d Hd; cbn [ilbc_session spec_session].
  - exists [], d. split; [done|]. split; [apply List.Forall_nil|]. by split.
  - destruct (ilbc_event_ok mode d ev Hd Hev) as (out & d1 & A & Hd1 & E). destruct (IH _ d1 Hd1) as (outs & d2 & Eo & F & Hd2 & E2).
    exists (((spec_event mode ev).1, out) :: outs), d2. cbn [fst snd]. split; [cbn [fmap list_fmap fst]; f_equal; exact Eo|].
    split; [by apply List.Forall_cons|].
    split; [done|]. intros lcs k Hlc. rewrite (bind_eq _ _ _ (E (lcs k) (Hlc k))). cbn [snd fst]. by rewrite (bind_eq _ _ _ (E2 lcs (S k) Hlc)).
Qed.

(** ** Witnesses *)

Definition stale_calls : Calls := fun _ => mkLocals (fun _ => replicate 40 7) (fun _ => replicate 45 (-3)).
Definition stale : FrameLocals :=
  mkFrameLocals bits0 (replicate 20 7) (replicate 66 8) (replicate 66 9) (replicate 240 (-7)) stale_calls.

Lemma stale_ok : frame_locals_ok stale.
Proof. split; [apply arrays_bits0|]. do 4 (split; [reflexivity|]). intros k j. by split. Qed.

(** A frame of 20 ms as it is sent. *)
Definition sent20 (i : Z) : list Z := SwapBytes (PackBits (frame20 i) 20) 19.

(** A frame with index 126 cannot be decoded. *)
Example DecodeImpl_exact_witness : DecodeImpl stale (sent20 126) (InitDecode fresh_dec 20 1).2 1 = None.
Proof. exact (DecodeImpl_exact 20 (InitDecode fresh_dec 20 1).2 (sent20 126) fresh_ok eq_refl stale stale_ok). Defined.

Definition some_events : list IlbcEvent :=
  [EvPacket (sent20 100) 38; EvLost 2; EvPacket (replicate 50 43981) 100; EvExpand; EvPacket (replicate 25 0) 50; EvPacket (replicate 4 0) 7;
   EvPacket (sent20 3 ++ sent20 99) 76].

Lemma some_events_ok : Forall event_ok some_events.
Proof.
  assert (Hk : forall encoded n, forallb (fun k => decodable 20 (block encoded (k * 19) 19)) (seqZ 0 n) = true ->
    forall k, 0 <= k < n -> decodable 20 (block encoded (k * 19) 19) = true).
  { intros encoded n H k Hk. rewrite forallb_forall in H. apply H, list_elem_of_In, elem_of_seqZ. lia. }
  repeat apply List.Forall_cons; try apply List.Forall_nil; try exact I; try (cbn; lia);
    (split; [apply Z.leb_le; vm_compute; reflexivity|]); intros Hp; try (vm_compute in Hp; discriminate Hp); refine (Hk _ _ _); vm_compute; reflexivity.
Qed.

Example Ilbc_session_refines_witness :
  exists outs d', fst <$> outs = [160; 320; 480; 0; 240; -1; 320] /\ Forall (fun o => array (Z.max 0 o.1) o.2) outs /\ dec_ok 20 d' /\
    ilbc_session (fun _ _ => stale) 0 some_events (InitDecode fresh_dec 20 1).2 = Some (outs, d').
Proof.
  destruct (Ilbc_session_refines some_events 20 (InitDecode fresh_dec 20 1).2 fresh_ok some_events_ok) as (outs & d' & Eo & F & Hd' & E).
  exists outs, d'. split; [exact Eo|]. split; [exact F|]. split; [exact Hd'|]. exact (E _ 0%nat (fun _ _ => stale_ok)).
Defined.
