(* ===== verification/Automode.v ===== *)
(** The adaptive buffer level of the NetEQ MCU side: [automode.h],
    [automode.c].

    [AutomodeInst_t] keeps a histogram of packet inter-arrival times, from
    which the target level is computed; a peak detector raises it; a
    first-order filter follows the actual level.  The operations are in the
    option monad because they index the histogram and the peak vectors. *)
From S2P Require Import Prelude SplMath.

(** ** Constants ([automode.h]) *)

Definition AUTOMODE_BETA_INV_Q30 : Z := 53687091.
Definition AUTOMODE_STREAMING_BETA_INV_Q30 : Z := 536871.
Definition IAT_PROB_FACT : Z := 32745.
Definition MAX_IAT : Z := 64.
Definition PEAK_HEIGHT : Z := 20.
Definition AUTOMODE_TIMESCALE_LIMIT : Z := 32.
Definition NUM_PEAKS : Z := 8.
Definition PEAK_INDEX_MASK : Z := 7.
Definition MAX_PEAK_PERIOD : Z := 10.
Definition MAX_STREAMING_PEAK_PERIOD : Z := 600.
Definition NUM_PEAKS_REQUIRED : Z := 3.
Definition CSUM_IAT_DRIFT : Z := 2.

(** ** State *)

Record Automode := mkAutomode {
  am_levelFiltFact : Z;        (* uint16_t, Q8 *)
  am_buffLevelFilt : Z;        (* int, Q8 *)
  am_iatProb : list Z;         (* int32_t[MAX_IAT + 1], Q30 *)
  am_iatProbFact : Z;          (* int16_t, Q15 *)
  am_packetIatCountSamp : Z;   (* uint32_t *)
  am_optBufLevel : Z;          (* int, Q8 *)
  am_packetSpeechLenSamp : Z;  (* int16_t *)
  am_lastPackCNGorDTMF : Z;    (* int16_t *)
  am_lastSeqNo : Z;            (* uint16_t *)
  am_lastTimeStamp : Z;        (* uint32_t *)
  am_sampleMemory : Z;         (* int32_t *)
  am_prevTimeScale : Z;        (* int16_t *)
  am_timescaleHoldOff : Z;     (* uint32_t *)
  am_extraDelayMs : Z;         (* int16_t *)
  am_minimum_delay_ms : Z;     (* int *)
  am_maximum_delay_ms : Z;     (* int *)
  am_required_delay_q8 : Z;    (* int *)
  am_peakPeriodSamp : list Z;  (* uint32_t[NUM_PEAKS] *)
  am_peakHeightPkt : list Z;   (* int16_t[NUM_PEAKS] *)
  am_peakIndex : Z;            (* int16_t *)
  am_peakThresholdPkt : Z;     (* uint16_t *)
  am_peakIatCountSamp : Z;     (* uint32_t *)
  am_curPeakPeriod : Z;        (* uint32_t *)
  am_curPeakHeight : Z;        (* int16_t *)
  am_peakModeDisabled : Z;     (* int16_t *)
  am_peakFound : Z;            (* uint16_t *)
  am_countIAT500ms : Z;        (* uint32_t *)
  am_countIAT1000ms : Z;       (* uint32_t *)
  am_countIAT2000ms : Z;       (* uint32_t *)
  am_longestIATms : Z;         (* uint32_t *)
  am_cSumIatQ8 : Z;            (* int16_t *)
  am_maxCSumIatQ8 : Z;         (* int16_t *)
  am_maxCSumUpdateTimer : Z    (* uint32_t *)
}.

#[export] Instance eta_Automode : Eta Automode := fun r =>
  mkAutomode (am_levelFiltFact r) (am_buffLevelFilt r) (am_iatProb r) (am_iatProbFact r)
    (am_packetIatCountSamp r) (am_optBufLevel r) (am_packetSpeechLenSamp r)
    (am_lastPackCNGorDTMF r) (am_lastSeqNo r) (am_lastTimeStamp r) (am_sampleMemory r)
    (am_prevTimeScale r) (am_timescaleHoldOff r) (am_extraDelayMs r) (am_minimum_delay_ms r)
    (am_maximum_delay_ms r) (am_required_delay_q8 r) (am_peakPeriodSamp r)
    (am_peakHeightPkt r) (am_peakIndex r) (am_peakThresholdPkt r) (am_peakIatCountSamp r)
    (am_curPeakPeriod r) (am_curPeakHeight r) (am_peakModeDisabled r) (am_peakFound r)
    (am_countIAT500ms r) (am_countIAT1000ms r) (am_countIAT2000ms r) (am_longestIATms r)
    (am_cSumIatQ8 r) (am_maxCSumIatQ8 r) (am_maxCSumUpdateTimer r).

(** ** The optimal buffer level ([WebRtcNetEQ_CalcOptimalBufLvl]) *)

(** The do-while loop that subtracts probabilities until at most [betaInv]
    is left: the last [sum1] and [B]. *)
Fixpoint iat_find_B (fuel : nat) (iatProb : list Z) (betaInv sum1 B : Z) : option (Z * Z) :=
  match fuel with
  | O => None
  | S fuel =>
      let B := B + 1 in
      p ← aget iatProb B;
      let sum1 := s32 (sum1 - p) in
      if (betaInv <? sum1) && (B <? MAX_IAT) then iat_find_B fuel iatProb betaInv sum1 B
      else Some (sum1, B)
  end.

(** The backward search of multiple description codecs: the last [Bopt]. *)
Fixpoint iat_back_off (fuel : nat) (iatProb : list Z) (betaInv sum2 Bopt : Z) : option Z :=
  match fuel with
  | O => None
  | S fuel =>
      p ← aget iatProb Bopt;
      if (sum2 <=? betaInv + p) && (0 <? Bopt)
      then iat_back_off fuel iatProb betaInv (s32 (sum2 + p)) (Bopt - 1)
      else Some Bopt
  end.

(** The primary level [Bopt] and the cut-off [B]. *)
Definition iat_level (iatProb : list Z) (mdCodec : bool) (betaInv : Z) : option (Z * Z) :=
  p0 ← aget iatProb 0;
  '(sum1, B) ← iat_find_B 64 iatProb betaInv (s32 (1073741824 - p0)) 0;
  if mdCodec then
    Bopt ← iat_back_off 65 iatProb betaInv sum1 B;
    Some (Bopt + 1, B)
  else Some (B, B).

Definition level_filt_fact (B : Z) : Z :=
  if B <=? 1 then 251 else if B <=? 3 then 252 else if B <=? 7 then 253 else 254.

(** A peak was observed. *)
Definition peak_observed (a : Automode) (fsHz timeIatPkts : Z) : option Automode :=
  a ←
    (if am_peakIndex a =? -1 then
       Some (a <| am_peakIndex := 0 |>
               <| am_peakModeDisabled := Z.shiftl 1 (NUM_PEAKS_REQUIRED - 2) |>)
     else if am_peakIatCountSamp a <=? u32 (fsHz * MAX_PEAK_PERIOD) then
       periods ← aset (am_peakPeriodSamp a) (am_peakIndex a) (am_peakIatCountSamp a);
       heights ← aset (am_peakHeightPkt a) (am_peakIndex a)
                   (s16 (if timeIatPkts <? 32767 then timeIatPkts else 32767));
       Some (a <| am_peakPeriodSamp := periods |>
               <| am_peakHeightPkt := heights |>
               <| am_peakIndex := Z.land (am_peakIndex a + 1) PEAK_INDEX_MASK |>
               <| am_curPeakHeight := fold_left Z.max heights 0 |>
               <| am_curPeakPeriod := fold_left Z.max periods 0 |>
               <| am_peakModeDisabled := Z.shiftr (am_peakModeDisabled a) 1 |>)
     else if u32 (fsHz * Z.shiftl MAX_PEAK_PERIOD 1) <? am_peakIatCountSamp a then
       Some (a <| am_curPeakHeight := 0 |> <| am_curPeakPeriod := 0 |>
               <| am_peakHeightPkt := replicate (Z.to_nat NUM_PEAKS) 0 |>
               <| am_peakPeriodSamp := replicate (Z.to_nat NUM_PEAKS) 0 |>
               <| am_peakIndex := -1 |> <| am_peakIatCountSamp := 0 |>)
     else Some a);
  Some (a <| am_peakIatCountSamp := 0 |>).

Definition CalcOptimalBufLvl (a : Automode) (fsHz : Z) (mdCodec : bool) (timeIatPkts : Z)
    (streamingMode : bool) : option (Z * Automode) :=
  if fsHz <=? 0 then Some (-1, a) else
  let betaInv := if streamingMode then AUTOMODE_STREAMING_BETA_INV_Q30
                 else AUTOMODE_BETA_INV_Q30 in
  '(Bopt, B) ← iat_level (am_iatProb a) mdCodec betaInv;
  let a := a <| am_levelFiltFact := level_filt_fact B |> in
  a ← (if (u32 (Bopt + am_peakThresholdPkt a + b2z mdCodec) <? timeIatPkts)
          || (Z.shiftl Bopt 1 <? timeIatPkts)
       then peak_observed a fsHz timeIatPkts else Some a);
  let a := a <| am_peakFound := 0 |> in
  let '(a, Bopt) :=
    if (am_peakModeDisabled a =? 0)
       && (am_peakIatCountSamp a <=? u32 (Z.shiftl (am_curPeakPeriod a) 1))
    then (a <| am_peakFound := 1 |>, u16 (Z.max Bopt (am_curPeakHeight a)))
    else (a, Bopt) in
  let Bopt := u16 (Z.shiftl Bopt 8) in
  let Bopt := if Bopt <=? 0 then 256 else Bopt in
  Some (s16 Bopt, a).

(** ** Packet arrival ([WebRtcNetEQ_UpdateIatStatistics]) *)

(** [packetLenSamp] *)
Definition packet_len_samp (a : Automode) (seqNumber timeStamp : Z) : Z :=
  if (timeStamp <=? am_lastTimeStamp a) || (seqNumber <=? am_lastSeqNo a)
  then am_packetSpeechLenSamp a
  else s16 (DivU32U16 (u32 (timeStamp - am_lastTimeStamp a))
                      (u16 (seqNumber - am_lastSeqNo a))).

(** The cumulative sum of streaming mode. *)
Definition streaming_csum (a : Automode) (seqNumber fsHz packetLenSamp : Z) : Automode :=
  let timeIatQ8 := s16 (DivW32W16 (s32 (u32 (Z.shiftl (am_packetIatCountSamp a) 8)))
                                  packetLenSamp) in
  let a := a <| am_cSumIatQ8 := s16 (am_cSumIatQ8 a
                  + (timeIatQ8 - Z.shiftl (seqNumber - am_lastSeqNo a) 8)) |> in
  let a := a <| am_cSumIatQ8 := s16 (am_cSumIatQ8 a - CSUM_IAT_DRIFT) |> in
  let a := a <| am_cSumIatQ8 := Z.max (am_cSumIatQ8 a) 0 |> in
  let a := if am_maxCSumIatQ8 a <? am_cSumIatQ8 a
           then a <| am_maxCSumIatQ8 := am_cSumIatQ8 a |> <| am_maxCSumUpdateTimer := 0 |>
           else a in
  if u32 (fsHz * MAX_STREAMING_PEAK_PERIOD) <? am_maxCSumUpdateTimer a
  then a <| am_maxCSumIatQ8 := s16 (am_maxCSumIatQ8 a - 4) |> else a.

(** The inter-arrival time in packets, compensated for gaps and reordering
    and limited to [MAX_IAT]. *)
Definition time_iat (a : Automode) (seqNumber packetLenSamp : Z) : Z :=
  let timeIat := u32 (DivW32W16 (s32 (am_packetIatCountSamp a)) packetLenSamp) in
  let timeIat :=
    if am_lastSeqNo a + 1 <? seqNumber then
      timeIat - Z.min timeIat (u32 (seqNumber - am_lastSeqNo a - 1))
    else if seqNumber <? am_lastSeqNo a then
      u32 (timeIat + u32 (am_lastSeqNo a + 1 - seqNumber))
    else timeIat in
  Z.min timeIat MAX_IAT.

(** [iatProbFact * iatProb[i]] from Q45 back to Q30, in two 16-bit halves. *)
Definition iat_forget (f p : Z) : Z :=
  let tempHi := s32 (Z.shiftl (f * s16 (Z.shiftr p 16)) 1) in
  let tempLo := Z.shiftr (s32 (f * u16 (Z.land p 0xFFFF))) 15 in
  s32 (tempHi + tempLo).

Fixpoint iat_decrease (tempsum : Z) (l : list Z) : list Z :=
  match l with
  | [] => []
  | p :: l =>
      if 0 <? tempsum then
        let tempvar := Z.min tempsum (Z.shiftr p 4) in
        (p - tempvar) :: iat_decrease (tempsum - tempvar) l
      else p :: l
  end.

Fixpoint iat_increase (tempsum : Z) (l : list Z) : list Z :=
  match l with
  | [] => []
  | p :: l =>
      if tempsum <? 0 then
        let tempvar := Z.min (- tempsum) (Z.shiftr p 4) in
        (p + tempvar) :: iat_increase (tempsum + tempvar) l
      else p :: l
  end.

(** The histogram and its forgetting factor after an inter-arrival time. *)
Definition iat_update (iatProb : list Z) (f timeIat : Z) : option (list Z * Z) :=
  let iatProb := iat_forget f <$> iatProb in
  let tempsum := fold_left (fun s p => s32 (s + p)) iatProb 0 in
  p ← aget iatProb timeIat;
  iatProb ← aset iatProb timeIat (s32 (p + Z.shiftl (32768 - f) 15));
  let tempsum := s32 (tempsum + Z.shiftl (32768 - f) 15) in
  let f := s16 (f + Z.shiftr (IAT_PROB_FACT - f + 3) 2) in
  let tempsum := s32 (tempsum - 1073741824) in
  Some (if 0 <? tempsum then iat_decrease tempsum iatProb
        else iat_increase tempsum iatProb, f).

(** [((delay_ms * (fsHz / 1000)) << 8) / packetLenSamp] *)
Definition delay_q8 (delay_ms fsHz packetLenSamp : Z) : Z :=
  s32 (Z.quot (s32 (Z.shiftl (s32 (delay_ms * Z.quot fsHz 1000)) 8)) packetLenSamp).

(** [maxBufLen] in Q8 less the extra delay, and 75 per cent of it. *)
Definition high_lim_delay (a : Automode) (maxBufLen fsHz : Z) : Z :=
  let maxBufLen :=
    if (0 <? am_extraDelayMs a) && (0 <? am_packetSpeechLenSamp a) then
      Z.max (maxBufLen - Z.quot (Z.quot (am_extraDelayMs a) (am_packetSpeechLenSamp a)
                                 * fsHz) 1000) 1
    else maxBufLen in
  let maxBufLen := s32 (Z.shiftl maxBufLen 8) in
  Z.shiftr maxBufLen 1 + Z.shiftr maxBufLen 2.

(** The target level from the level [tempvar] of the statistics. *)
Definition limit_level (a : Automode) (tempvar maxBufLen fsHz packetLenSamp : Z)
    (streamingMode : bool) : Automode :=
  let minimum_delay_q8 := delay_q8 (am_minimum_delay_ms a) fsHz packetLenSamp in
  let maximum_delay_q8 := delay_q8 (am_maximum_delay_ms a) fsHz packetLenSamp in
  let a := a <| am_optBufLevel := tempvar |> in
  let a := if streamingMode
           then a <| am_optBufLevel := Z.max (am_optBufLevel a) (am_maxCSumIatQ8 a) |>
           else a in
  let a := a <| am_required_delay_q8 := am_optBufLevel a |> in
  let a := a <| am_optBufLevel := Z.max (am_optBufLevel a) minimum_delay_q8 |> in
  let a := if 0 <? maximum_delay_q8
           then a <| am_optBufLevel := Z.min (am_optBufLevel a) (Z.max maximum_delay_q8 256) |>
           else a in
  let high_lim_delay := high_lim_delay a maxBufLen fsHz in
  a <| am_optBufLevel := Z.min (am_optBufLevel a) high_lim_delay |>
    <| am_required_delay_q8 := Z.min (am_required_delay_q8 a) high_lim_delay |>.

(** Post-call statistics and the preparation for the next packet. *)
Definition arrival_done (a : Automode) (seqNumber timeStamp fsHz : Z) : Automode :=
  let timeIat := u32 (am_packetIatCountSamp a * 1000) / u32 fsHz in
  let a :=
    if 2000 <? timeIat then a <| am_countIAT2000ms := u32 (am_countIAT2000ms a + 1) |>
    else if 1000 <? timeIat then a <| am_countIAT1000ms := u32 (am_countIAT1000ms a + 1) |>
    else if 500 <? timeIat then a <| am_countIAT500ms := u32 (am_countIAT500ms a + 1) |>
    else a in
  let a := if am_longestIATms a <? timeIat then a <| am_longestIATms := timeIat |> else a in
  a <| am_packetIatCountSamp := 0 |> <| am_lastSeqNo := seqNumber |>
    <| am_lastTimeStamp := timeStamp |>.

Definition UpdateIatStatistics (a : Automode) (maxBufLen seqNumber timeStamp fsHz : Z)
    (mdCodec streamingMode : bool) : option (Z * Automode) :=
  if (maxBufLen <=? 1) || (fsHz <=? 0) then Some (-1, a) else
  let packetLenSamp := packet_len_samp a seqNumber timeStamp in
  '(retval, a) ←
    (if 0 <? packetLenSamp then
       let timeIat := time_iat a seqNumber packetLenSamp in
       let a := if streamingMode then streaming_csum a seqNumber fsHz packetLenSamp else a in
       '(iatProb, f) ← iat_update (am_iatProb a) (am_iatProbFact a) timeIat;
       let a := a <| am_iatProb := iatProb |> <| am_iatProbFact := f |> in
       '(tempvar, a) ← CalcOptimalBufLvl a fsHz mdCodec timeIat streamingMode;
       if 0 <? tempvar
       then Some (0, limit_level a tempvar maxBufLen fsHz packetLenSamp streamingMode)
       else Some (tempvar, a)
     else Some (0, a));
  Some (retval, arrival_done a seqNumber timeStamp fsHz).

(** ** Level filter, packet size, reset, average *)

Definition BufferLevelFilter (curSizeMs8 : Z) (a : Automode) (sampPerCall fsMult : Z)
    : Z * Automode :=
  if (sampPerCall <=? 0) || (fsMult <=? 0) then (-1, a) else
  let curSizeFrames :=
    if 0 <? am_packetSpeechLenSamp a
    then s16 (DivW32W16 (s32 (curSizeMs8 * fsMult)) (am_packetSpeechLenSamp a)) else 0 in
  let a :=
    if 0 <? am_levelFiltFact a then
      a <| am_buffLevelFilt :=
             s32 (Z.shiftr (s32 (am_levelFiltFact a * am_buffLevelFilt a)) 8
                  + (256 - am_levelFiltFact a) * curSizeFrames) |>
    else a in
  let a :=
    if negb (am_prevTimeScale a =? 0) then
      a <| am_buffLevelFilt :=
             Z.max (s32 (am_buffLevelFilt a
                         - DivW32W16 (s32 (Z.shiftl (am_sampleMemory a) 8))
                                     (am_packetSpeechLenSamp a))) 0 |>
        <| am_prevTimeScale := 0 |>
        <| am_timescaleHoldOff := AUTOMODE_TIMESCALE_LIMIT |>
    else a in
  (0, a <| am_packetIatCountSamp := u32 (am_packetIatCountSamp a + sampPerCall) |>
        <| am_peakIatCountSamp := u32 (am_peakIatCountSamp a + sampPerCall) |>
        <| am_timescaleHoldOff := Z.shiftr (am_timescaleHoldOff a) 1 |>
        <| am_maxCSumUpdateTimer := u32 (am_maxCSumUpdateTimer a + sampPerCall) |>).

Definition SetPacketSpeechLen (a : Automode) (newLenSamp fsHz : Z) : Z * Automode :=
  if (newLenSamp <=? 0) || (fsHz <=? 0) then (-1, a) else
  let a := a <| am_packetSpeechLenSamp := newLenSamp |>
             <| am_lastPackCNGorDTMF := 1 |>
             <| am_packetIatCountSamp := 0 |> in
  (0, a <| am_peakThresholdPkt :=
          u16 (DivW32W16ResW16 (Z.shiftr (PEAK_HEIGHT * s16 (Z.shiftr fsHz 6)) 2)
                               (am_packetSpeechLenSamp a)) |>).

(** The exponentially decaying distribution: [n] entries, each half of the
    16-bit [tempprob] before. *)
Fixpoint reset_prob (n : nat) (tempprob : Z) : list Z :=
  match n with
  | O => []
  | S n => let tempprob := Z.shiftr tempprob 1 in
           Z.shiftl tempprob 16 :: reset_prob n tempprob
  end.

Definition ResetAutomode (a : Automode) (maxBufLenPackets : Z) : Automode :=
  let maxBufLenPackets := if maxBufLenPackets <=? 1 then 10 else maxBufLenPackets in
  let a := a <| am_buffLevelFilt := 0 |> <| am_packetSpeechLenSamp := 0 |>
             <| am_lastPackCNGorDTMF := 1 |>
             <| am_peakModeDisabled := 1 |> <| am_peakIatCountSamp := 0 |>
             <| am_peakIndex := -1 |> <| am_curPeakHeight := 0 |> <| am_curPeakPeriod := 0 |>
             <| am_peakHeightPkt := replicate (Z.to_nat NUM_PEAKS) 0 |>
             <| am_peakPeriodSamp := replicate (Z.to_nat NUM_PEAKS) 0 |>
             <| am_iatProb := reset_prob 65 0x4002 |> in
  let a := a <| am_optBufLevel := Z.min 4 (Z.shiftr maxBufLenPackets 1
                                           + Z.shiftr maxBufLenPackets 1) |> in
  a <| am_required_delay_q8 := am_optBufLevel a |>
    <| am_levelFiltFact := 253 |> <| am_iatProbFact := 0 |>
    <| am_packetIatCountSamp := 0 |> <| am_prevTimeScale := 0 |>
    <| am_timescaleHoldOff := AUTOMODE_TIMESCALE_LIMIT |>
    <| am_cSumIatQ8 := 0 |> <| am_maxCSumIatQ8 := 0 |>.

(** The sum from bin [i] on. *)
Fixpoint average_loop (i sum_q24 : Z) (l : list Z) : Z :=
  match l with
  | [] => sum_q24
  | p :: l => average_loop (i + 1) (s32 (sum_q24 + s32 (Z.shiftr p 6 * i))) l
  end.

Definition AverageIAT (a : Automode) : Z :=
  let sum_q24 := s32 (average_loop 0 0 (am_iatProb a) - 16777216) in
  Z.shiftr (s32 (Z.shiftr sum_q24 7 * 15625)) 11.
