(* ===== verification/AutomodeInv.v ===== *)
(** The histogram of [automode.c] stays a probability distribution, and the
    target level it yields is the quantile the code documents. *)
From S2P Require Import Prelude SplMath Automode.

(** ** The histogram *)

(** A distribution over inter-arrival times of 0 to 64 packets, in Q30. *)
Record iat_dist (l : list Z) : Prop := {
  id_len : zlen l = 65;
  id_nonneg : Forall (fun p => 0 <= p) l;
  id_sum : sum_list l = 1073741824
}.

Lemma iat_forget_floor f p :
  0 <= f <= 32745 -> 0 <= p <= 1073741824 -> iat_forget f p = f * p / 32768.
Proof.
  intros Hf Hp. unfold iat_forget.
  change 65535 with (2 ^ 16 - 1). rewrite land_ones_mod by done.
  rewrite !Z.shiftr_div_pow2, Z.shiftl_mul_pow2 by done.
  change (2 ^ 16) with 65536. change (2 ^ 15) with 32768. change (2 ^ 1) with 2.
  assert (0 <= p / 65536 <= 16384) by (split; [apply Z.div_pos; lia|apply Z.div_le_upper_bound; lia]).
  pose proof (Z.mod_pos_bound p 65536 ltac:(lia)).
  rewrite (s16_id (p / 65536)), (u16_id (p mod 65536)) by (simpl; lia).
  rewrite (s32_id (f * (p mod 65536))), (s32_id (f * (p / 65536) * 2)) by (simpl; nia).
  assert (0 <= f * (p mod 65536) / 32768 <= 65536)
    by (split; [apply Z.div_pos; nia|apply Z.div_le_upper_bound; nia]).
  rewrite s32_id by (simpl; nia).
  rewrite <- Z.div_add_l by done. f_equal. pose proof (Z.div_mod p 65536). nia.
Qed.

(** Rounding each product down loses less than one unit per bin. *)
Lemma iat_forget_sum f l :
  0 <= f <= 32745 -> Forall (fun p => 0 <= p <= 1073741824) l ->
  Forall (fun p => 0 <= p) (iat_forget f <$> l) /\
  32768 * sum_list (iat_forget f <$> l) <= f * sum_list l
    <= 32768 * sum_list (iat_forget f <$> l) + 32767 * zlen l.
Proof.
  intros Hf. induction 1 as [|p l Hp Hl [IH1 IH2]]; [split; [constructor|unfold zlen; simpl; lia]|].
  rewrite fmap_cons, !sum_list_cons, zlen_cons, iat_forget_floor by done.
  split; [constructor; [apply Z.div_pos; nia|done]|].
  pose proof (Z.div_mod (f * p) 32768). pose proof (Z.mod_pos_bound (f * p) 32768). lia.
Qed.

Lemma sum_wrapped l s :
  Forall (fun p => 0 <= p) l -> 0 <= s -> s + sum_list l < 2147483648 ->
  fold_left (fun s p => s32 (s + p)) l s = s + sum_list l.
Proof.
  intros Hl. revert s. induction Hl as [|p l Hp Hl IH]; intros s Hs Hb; [simpl; lia|].
  rewrite sum_list_cons in *. cbn [fold_left].
  pose proof (sum_list_nonneg l Hl). rewrite s32_id by (simpl; lia). rewrite IH; lia.
Qed.

(** The correction spreads the deficit over the first bins, at most a
    sixteenth of each. *)
Lemma iat_increase_spec t l :
  Forall (fun p => 0 <= p) l -> t <= 0 ->
  zlen (iat_increase t l) = zlen l /\ Forall (fun p => 0 <= p) (iat_increase t l) /\
  sum_list (iat_increase t l)
    = sum_list l + Z.min (- t) (sum_list ((fun p => Z.shiftr p 4) <$> l)).
Proof.
  intros Hl. revert t. induction Hl as [|p l Hp Hl IH]; intros t Ht; [simpl; split_and!; [done..|lia]|].
  assert (0 <= Z.shiftr p 4) by (by apply Z.shiftr_nonneg).
  assert (0 <= sum_list ((fun p => Z.shiftr p 4) <$> l)).
  { apply sum_list_nonneg, Forall_fmap. eapply Forall_mono; [done|].
    intros x Hx. by apply Z.shiftr_nonneg. }
  rewrite fmap_cons, sum_list_cons. cbn [iat_increase]. cbv beta in Hp.
  destruct (Z.ltb_spec t 0).
  - destruct (IH (t + Z.min (- t) (Z.shiftr p 4))) as (E1 & E2 & E3); [lia|].
    rewrite !zlen_cons, !sum_list_cons, E1, E3. split_and!; [done|constructor; [lia|done]|lia].
  - rewrite !sum_list_cons. split_and!; [done|by constructor|lia].
Qed.

Lemma sum_sixteenths l :
  sum_list l <= 16 * sum_list ((fun p => Z.shiftr p 4) <$> l) + 15 * zlen l.
Proof.
  induction l as [|p l IH]; [done|].
  rewrite fmap_cons, !sum_list_cons, zlen_cons.
  rewrite Z.shiftr_div_pow2 by done. change (2 ^ 4) with 16.
  pose proof (Z.div_mod p 16). pose proof (Z.mod_pos_bound p 16). lia.
Qed.

Lemma iat_dist_bounds l : iat_dist l -> Forall (fun p => 0 <= p <= 1073741824) l.
Proof.
  intros []. apply list.Forall_forall. intros p Hp.
  rewrite list.Forall_forall in id_nonneg0. split; [by apply id_nonneg0|].
  apply elem_of_aget in Hp as [i Hi]. rewrite <- id_sum0.
  eapply sum_list_elem; [|done]. by apply list.Forall_forall.
Qed.

(** An update keeps the histogram a distribution, exactly. *)
Lemma iat_update_spec l f timeIat :
  iat_dist l -> 0 <= f <= 32745 -> 0 <= timeIat <= 64 ->
  exists l' f', iat_update l f timeIat = Some (l', f') /\ iat_dist l' /\ f <= f' <= 32745.
Proof.
  intros Hd Hf Ht. pose proof (iat_dist_bounds l Hd) as Hb. destruct Hd as [Hlen Hnn Hsum].
  destruct (iat_forget_sum f l Hf Hb) as [Hnn' [Hlo Hhi]].
  rewrite Hsum, Hlen in *. unfold iat_update.
  set (q := iat_forget f <$> l) in *.
  assert (zlen q = 65) as Hq by (unfold q; by rewrite zlen_fmap).
  rewrite sum_wrapped by (done || lia). rewrite Z.add_0_l.
  destruct (aget_in q timeIat) as [p Hp]; [lia|].
  pose proof (sum_list_elem _ _ _ Hnn' Hp). pose proof (aget_Forall _ _ _ _ Hnn' Hp).
  rewrite Hp. cbn [mbind option_bind]. simpl in *.
  rewrite aset_in by lia. cbn [mbind option_bind].
  rewrite !Z.shiftl_mul_pow2, Z.shiftr_div_pow2 by done.
  change (2 ^ 15) with 32768. change (2 ^ 2) with 4.
  rewrite (s32_id (p + _)), (s32_id (sum_list q + _)) by (simpl; lia).
  rewrite s32_id by (simpl; lia).
  set (q' := <[Z.to_nat timeIat := p + (32768 - f) * 32768]> q).
  set (t := sum_list q + (32768 - f) * 32768 - 1073741824).
  assert (zlen q' = 65) by (unfold q'; by rewrite zlen_insert).
  assert (sum_list q' = 1073741824 + t) as Hq'
    by (unfold q', t; rewrite (sum_list_insert _ _ p) by done; lia).
  assert (Forall (fun p => 0 <= p) q') by (apply Forall_insert; [done|lia]).
  assert (-65 < t <= 0) by lia. clearbody t q'.
  destruct (Z.ltb_spec 0 t); [lia|].
  destruct (iat_increase_spec t q') as (E1 & E2 & E3); [done|lia|].
  eexists _, _. split; [done|]. split.
  - split; [lia|done|]. rewrite E3, Hq'. pose proof (sum_sixteenths q'). lia.
  - unfold IAT_PROB_FACT. rewrite s16_id by (simpl; Z.to_euclidean_division_equations; lia).
    Z.to_euclidean_division_equations; lia.
Qed.

(** ** The level search *)

(** The probability of an inter-arrival time above [b]. *)
Definition iat_tail (l : list Z) (b : Z) : Z := sum_list (drop (Z.to_nat (b + 1)) l).

Lemma iat_tail_step l b p :
  0 <= b -> aget l b = Some p -> iat_tail l (b - 1) = p + iat_tail l b.
Proof.
  intros Hb Hp. unfold iat_tail. rewrite aget_lookup in Hp by done.
  replace (b - 1 + 1) with b by lia. rewrite (drop_S _ _ _ Hp), sum_list_cons.
  by replace (Z.to_nat (b + 1)) with (S (Z.to_nat b)) by lia.
Qed.

Lemma iat_tail_range l b : iat_dist l -> 0 <= iat_tail l b <= 1073741824.
Proof.
  intros [_ Hnn Hsum]. unfold iat_tail.
  rewrite <- (take_drop (Z.to_nat (b + 1)) l), sum_list_app in Hsum.
  rewrite <- (take_drop (Z.to_nat (b + 1)) l) in Hnn. apply Forall_app in Hnn as [H1 H2].
  apply sum_list_nonneg in H1, H2. lia.
Qed.

Lemma iat_tail_64 l : iat_dist l -> iat_tail l 64 = 0.
Proof.
  intros [Hlen _ _]. unfold iat_tail. rewrite drop_ge; [done|]. unfold zlen in Hlen. lia.
Qed.

Lemma iat_tail_start l : iat_dist l -> iat_tail l (-1) = 1073741824.
Proof. intros [_ _ H]. exact H. Qed.

Section level.
Context (l : list Z) (betaInv : Z).
Hypothesis l_dist : iat_dist l.
Hypothesis beta_range : 0 <= betaInv <= 1073741823.

(** [b] is the least level of at least 1 that is exceeded with a probability
    of at most [betaInv]. *)
Definition is_quantile (b : Z) : Prop :=
  1 <= b <= 64 /\ iat_tail l b <= betaInv /\
  forall c, 1 <= c < b -> betaInv < iat_tail l c.

Lemma iat_find_B_spec fuel B :
  0 <= B -> B + Z.of_nat fuel = 64 -> (0 < fuel)%nat ->
  (forall c, 1 <= c <= B -> betaInv < iat_tail l c) ->
  exists B', iat_find_B fuel l betaInv (iat_tail l B) B = Some (iat_tail l B', B') /\
             is_quantile B'.
Proof using l_dist beta_range.
  revert B. induction fuel as [|fuel IH]; intros B HB Hf Hpos Hbefore; [lia|].
  cbn [iat_find_B]. pose proof (id_len _ l_dist).
  destruct (aget_in l (B + 1)) as [p Hp]; [lia|]. rewrite Hp. cbn [mbind option_bind].
  pose proof (iat_tail_step l (B + 1) p ltac:(lia) Hp) as Hstep.
  replace (B + 1 - 1) with B in Hstep by lia.
  pose proof (iat_tail_range l (B + 1) l_dist).
  replace (iat_tail l B - p) with (iat_tail l (B + 1)) by lia. rewrite s32_id by (simpl; lia).
  unfold MAX_IAT. destruct ((betaInv <? iat_tail l (B + 1)) && (B + 1 <? 64)) eqn:E.
  - bool_lia. apply IH; [lia..|]. intros c Hc.
    destruct (Z.eq_dec c (B + 1)) as [->|]; [lia|]. apply Hbefore. lia.
  - exists (B + 1). split; [done|]. split; [lia|]. split; [|intros c Hc; apply Hbefore; lia].
    apply andb_false_iff in E as [E|E]; bool_lia; [lia|].
    replace (B + 1) with 64 by lia. rewrite iat_tail_64 by done. lia.
Qed.

(** The back-off of the multiple description search from [B]. *)
Definition is_back_off (B b : Z) : Prop :=
  0 <= b <= B /\
  (b = 0 \/ exists p, aget l b = Some p /\ betaInv + p < iat_tail l b) /\
  forall c, b < c <= B -> exists p, aget l c = Some p /\ iat_tail l c <= betaInv + p.

Lemma iat_back_off_spec fuel B b :
  0 <= b <= B -> B <= 64 -> b < Z.of_nat fuel ->
  (forall c, b < c <= B -> exists p, aget l c = Some p /\ iat_tail l c <= betaInv + p) ->
  exists b', iat_back_off fuel l betaInv (iat_tail l b) b = Some b' /\ is_back_off B b'.
Proof using l_dist.
  revert b. induction fuel as [|fuel IH]; intros b Hb HB Hf Habove; [lia|].
  cbn [iat_back_off]. pose proof (id_len _ l_dist).
  destruct (aget_in l b) as [p Hp]; [lia|]. rewrite Hp. cbn [mbind option_bind].
  destruct ((iat_tail l b <=? betaInv + p) && (0 <? b)) eqn:E.
  - bool_lia. pose proof (iat_tail_step l b p ltac:(lia) Hp) as Hstep.
    pose proof (iat_tail_range l (b - 1) l_dist).
    rewrite s32_id by (simpl; lia). replace (iat_tail l b + p) with (iat_tail l (b - 1)) by lia.
    apply IH; [lia..|]. intros c Hc.
    destruct (Z.eq_dec c b) as [->|]; [by exists p|]. apply Habove. lia.
  - exists b. split; [done|]. split; [done|]. split; [|done].
    apply andb_false_iff in E as [E|E]; bool_lia; [right; by exists p|left; lia].
Qed.

Lemma iat_level_spec mdCodec :
  exists Bopt B, iat_level l mdCodec betaInv = Some (Bopt, B) /\ is_quantile B /\
    if mdCodec then is_back_off B (Bopt - 1) else Bopt = B.
Proof using l_dist beta_range.
  unfold iat_level. pose proof (id_len _ l_dist).
  destruct (aget_in l 0) as [p0 Hp0]; [lia|]. rewrite Hp0. cbn [mbind option_bind].
  pose proof (iat_tail_step l 0 p0 ltac:(lia) Hp0) as Hs. change (0 - 1) with (-1) in Hs.
  rewrite (iat_tail_start l l_dist) in Hs. pose proof (iat_tail_range l 0 l_dist).
  replace (1073741824 - p0) with (iat_tail l 0) by lia. rewrite s32_id by (simpl; lia).
  destruct (iat_find_B_spec 64 0) as (B & -> & HB); [lia..|]. cbn [mbind option_bind].
  destruct mdCodec; [|by exists B, B].
  destruct (iat_back_off_spec 65 B B) as (b & -> & Hb); [destruct HB; lia..|].
  cbn [mbind option_bind]. exists (b + 1), B. by replace (b + 1 - 1) with b by lia.
Qed.
End level.

(** ** The invariant *)

Record am_inv (a : Automode) : Prop := {
  ai_dist : iat_dist (am_iatProb a);
  ai_fact : 0 <= am_iatProbFact a <= 32745;
  ai_periods : zlen (am_peakPeriodSamp a) = 8;
  ai_heights : zlen (am_peakHeightPkt a) = 8;
  ai_height : Forall (fun h => 0 <= h <= 64) (am_peakHeightPkt a);
  ai_index : -1 <= am_peakIndex a <= 7;
  ai_cur : 0 <= am_curPeakHeight a <= 64
}.

(** The settings that the statistics only read. *)
Definition am_config (a : Automode) : Z * Z * Z * Z :=
  (am_extraDelayMs a, am_packetSpeechLenSamp a, am_minimum_delay_ms a, am_maximum_delay_ms a).

Lemma fold_max_range l m :
  0 <= m <= 64 -> Forall (fun h => 0 <= h <= 64) l -> 0 <= fold_left Z.max l m <= 64.
Proof.
  intros Hm Hl. revert m Hm. induction Hl as [|h l Hh Hl IH]; intros m Hm; simpl; [done|].
  apply IH. lia.
Qed.

(** The peak statistics: where the next peak goes, the periods and heights of the
    last eight peaks, the greatest of each, how many more peaks are needed, and the
    samples since the last peak. *)
Definition peaks (a : Automode) : Z * list Z * list Z * Z * Z * Z * Z :=
  (am_peakIndex a, am_peakPeriodSamp a, am_peakHeightPkt a, am_curPeakHeight a, am_curPeakPeriod a,
   am_peakModeDisabled a, am_peakIatCountSamp a).

(** What a peak of [t] packets makes of them: the first one only starts the
    statistics; one within ten seconds of the last is stored in the place of the
    oldest; one after more than twenty seconds clears them; one in between only
    restarts the clock. *)
Inductive peak_update (fsHz t : Z) (a : Automode) : Z * list Z * list Z * Z * Z * Z * Z -> Prop :=
| PK_first : am_peakIndex a = -1 ->
    peak_update fsHz t a (0, am_peakPeriodSamp a, am_peakHeightPkt a, am_curPeakHeight a, am_curPeakPeriod a, 2, 0)
| PK_next periods heights : am_peakIndex a <> -1 -> am_peakIatCountSamp a <= u32 (fsHz * 10) ->
    periods = <[Z.to_nat (am_peakIndex a) := am_peakIatCountSamp a]> (am_peakPeriodSamp a) ->
    heights = <[Z.to_nat (am_peakIndex a) := t]> (am_peakHeightPkt a) ->
    peak_update fsHz t a ((am_peakIndex a + 1) mod 8, periods, heights, fold_left Z.max heights 0, fold_left Z.max periods 0,
                          am_peakModeDisabled a / 2, 0)
| PK_far : am_peakIndex a <> -1 -> u32 (fsHz * 10) < am_peakIatCountSamp a <= u32 (fsHz * 20) ->
    peak_update fsHz t a (am_peakIndex a, am_peakPeriodSamp a, am_peakHeightPkt a, am_curPeakHeight a, am_curPeakPeriod a,
                          am_peakModeDisabled a, 0)
| PK_reset : am_peakIndex a <> -1 -> u32 (fsHz * 10) < am_peakIatCountSamp a -> u32 (fsHz * 20) < am_peakIatCountSamp a ->
    peak_update fsHz t a (-1, replicate 8 0, replicate 8 0, 0, 0, am_peakModeDisabled a, 0).

Lemma peak_observed_spec a fsHz timeIatPkts :
  am_inv a -> 0 <= timeIatPkts <= 64 ->
  exists a', peak_observed a fsHz timeIatPkts = Some a' /\ am_inv a' /\
    am_iatProb a' = am_iatProb a /\ am_levelFiltFact a' = am_levelFiltFact a /\
    am_config a' = am_config a /\ peak_update fsHz timeIatPkts a (peaks a').
Proof.
  intros Ha Ht. unfold peak_observed. destruct Ha as [? ? Hp Hh Hr Hi Hc].
  destruct (Z.eqb_spec (am_peakIndex a) (-1)) as [E|E];
    [|destruct (Z.leb_spec (am_peakIatCountSamp a) (u32 (fsHz * MAX_PEAK_PERIOD)));
      [|destruct (Z.ltb_spec (u32 (fsHz * Z.shiftl MAX_PEAK_PERIOD 1)) (am_peakIatCountSamp a))]].
  - eexists. split; [reflexivity|]. split; [split; simpl; done || lia|]. do 3 (split; [done|]). by apply PK_first.
  - rewrite !aset_in by lia. cbn [mbind option_bind]. eexists. split; [reflexivity|].
    assert (Et : s16 (if timeIatPkts <? 32767 then timeIatPkts else 32767) = timeIatPkts).
    { destruct (Z.ltb_spec timeIatPkts 32767); [|lia]. by rewrite s16_id by (simpl; lia). }
    assert (E7 : Z.land (am_peakIndex a + 1) PEAK_INDEX_MASK = (am_peakIndex a + 1) mod 8)
      by exact (land_ones_mod (am_peakIndex a + 1) 3 ltac:(done)).
    rewrite Et. split.
    + split; cbn -[Z.land fold_left]; rewrite ?zlen_insert; try done.
      * by apply Forall_insert.
      * rewrite E7. pose proof (Z.mod_pos_bound (am_peakIndex a + 1) 8). lia.
      * apply fold_max_range; [done|]. by apply Forall_insert.
    + do 3 (split; [done|]). unfold peaks. cbn -[Z.land fold_left Z.shiftr]. rewrite E7, Z.shiftr_div_pow2 by done.
      by apply PK_next.
  - eexists. split; [reflexivity|]. split.
    + split; cbn; try done; try lia. apply (Forall_replicate _ 8). lia.
    + do 3 (split; [done|]). by apply PK_reset.
  - eexists. split; [reflexivity|]. split; [by split|]. do 3 (split; [done|]). by apply PK_far.
Qed.

Lemma CalcOptimalBufLvl_spec a fsHz mdCodec timeIatPkts (streamingMode : bool)
    (Ha : am_inv a) (Hfs : 0 < fsHz) (Ht : 0 <= timeIatPkts <= 64) :
  let betaInv := if streamingMode then AUTOMODE_STREAMING_BETA_INV_Q30
                 else AUTOMODE_BETA_INV_Q30 in
  exists lvl a' Bopt B,
    CalcOptimalBufLvl a fsHz mdCodec timeIatPkts streamingMode = Some (lvl, a') /\
    am_inv a' /\ am_iatProb a' = am_iatProb a /\ am_config a' = am_config a /\
    is_quantile (am_iatProb a) betaInv B /\
    (if mdCodec then is_back_off (am_iatProb a) betaInv B (Bopt - 1) else Bopt = B) /\
    am_levelFiltFact a' = level_filt_fact B /\
    (if bool_decide (u32 (Bopt + am_peakThresholdPkt a + b2z mdCodec) < timeIatPkts \/ 2 * Bopt < timeIatPkts)
     then peak_update fsHz timeIatPkts a (peaks a') else peaks a' = peaks a) /\
    am_peakFound a' =
      b2z (bool_decide (am_peakModeDisabled a' = 0 /\ am_peakIatCountSamp a' <= u32 (2 * am_curPeakPeriod a'))) /\
    lvl = 256 * (if am_peakFound a' =? 1 then Z.max Bopt (am_curPeakHeight a') else Bopt) /\
    256 <= lvl <= 65 * 256.
Proof.
  intros betaInv. unfold CalcOptimalBufLvl. destruct (Z.leb_spec fsHz 0); [lia|].
  fold betaInv.
  destruct (iat_level_spec (am_iatProb a) betaInv (ai_dist _ Ha)) with (mdCodec := mdCodec)
    as (Bopt & B & -> & HB & Hopt); [unfold betaInv; by destruct streamingMode|].
  cbn [mbind option_bind].
  assert (1 <= Bopt <= 65) as Hr by (destruct HB, mdCodec; [destruct Hopt|]; lia).
  set (a1 := a <| am_levelFiltFact := level_filt_fact B |>).
  assert (am_inv a1) as Ha1 by (by destruct Ha).
  assert (exists a2,
    (if (u32 (Bopt + am_peakThresholdPkt a1 + b2z mdCodec) <? timeIatPkts)
        || (Z.shiftl Bopt 1 <? timeIatPkts)
     then peak_observed a1 fsHz timeIatPkts else Some a1) = Some a2 /\ am_inv a2 /\
    am_iatProb a2 = am_iatProb a1 /\ am_levelFiltFact a2 = am_levelFiltFact a1 /\
    am_config a2 = am_config a1 /\
    (if bool_decide (u32 (Bopt + am_peakThresholdPkt a + b2z mdCodec) < timeIatPkts \/ 2 * Bopt < timeIatPkts)
     then peak_update fsHz timeIatPkts a (peaks a2) else peaks a2 = peaks a)) as (a2 & -> & Ha2 & Hp2 & Hl2 & Hc2 & Hpk).
  { rewrite Z.shiftl_mul_pow2, (Z.mul_comm Bopt) by done. change (2 ^ 1) with 2.
    change (am_peakThresholdPkt a1) with (am_peakThresholdPkt a).
    destruct (_ || _) eqn:E; [rewrite bool_decide_true by lia|rewrite bool_decide_false by lia; by exists a1].
    destruct (peak_observed_spec a1 fsHz timeIatPkts Ha1 Ht) as (a2 & E2 & H2 & H3 & H4 & H5 & H6). exists a2.
    do 5 (split; [done|]). destruct H6 as [H0|ps hs H0 H1 Hp Hh|H0 H1|H0 H1 H6].
    - exact (PK_first fsHz timeIatPkts a H0).
    - exact (PK_next fsHz timeIatPkts a ps hs H0 H1 Hp Hh).
    - exact (PK_far fsHz timeIatPkts a H0 H1).
    - exact (PK_reset fsHz timeIatPkts a H0 H1 H6). }
  cbn [mbind option_bind]. pose proof (ai_cur _ Ha2).
  rewrite (Z.shiftl_mul_pow2 (am_curPeakPeriod a2)), (Z.mul_comm (am_curPeakPeriod a2)) by done. change (2 ^ 1) with 2.
  destruct (_ && _) eqn:Ef; cbv beta iota zeta.
  - set (L := Z.max Bopt (am_curPeakHeight a2)).
    assert (1 <= L <= 65) by lia.
    cbn -[u16 Z.shiftl Z.max]. fold L. rewrite (u16_id L) by (simpl; lia).
    rewrite Z.shiftl_mul_pow2 by done. change (2 ^ 8) with 256.
    rewrite u16_id by (simpl; lia). destruct (Z.leb_spec (L * 256) 0); [lia|].
    rewrite s16_id by (simpl; lia).
    eexists _, _, Bopt, B. split; [reflexivity|]. split; [by destruct Ha2|].
    split_and!; try done; cbn -[Z.max u32 b2z bool_decide]; fold L; try lia. cbn -[u32 Z.mul] in Ef. by rewrite bool_decide_true by lia.
  - cbn -[u16 Z.shiftl]. rewrite Z.shiftl_mul_pow2 by done. change (2 ^ 8) with 256.
    rewrite u16_id by (simpl; lia). destruct (Z.leb_spec (Bopt * 256) 0); [lia|].
    rewrite s16_id by (simpl; lia).
    eexists _, _, Bopt, B. split; [reflexivity|]. split; [by destruct Ha2|].
    split_and!; try done; cbn -[u32 b2z bool_decide]; try lia. cbn -[u32 Z.mul] in Ef. by rewrite bool_decide_false by lia.
Qed.


Definition ex_am : Automode :=
  ResetAutomode (mkAutomode 0 0 [] 0 0 0 0 0 0 0 0 0 0 0 0 0 0 [] [] 0 0 0 0 0 0 0 0 0 0 0 0 0 0) 50.

Lemma ResetAutomode_inv a n : am_inv (ResetAutomode a n).
Proof.
  split; cbn; try done; try lia.
  - split; [done| |done]. repeat constructor; vm_compute; discriminate.
  - apply (Forall_replicate _ 8). lia.
Qed.


(** ** Packet arrival *)

Lemma time_iat_range a seqNumber packetLenSamp :
  0 <= time_iat a seqNumber packetLenSamp <= 64.
Proof.
  unfold time_iat, MAX_IAT. cbv zeta.
  pose proof (u32_range (DivW32W16 (s32 (am_packetIatCountSamp a)) packetLenSamp)).
  generalize dependent (u32 (DivW32W16 (s32 (am_packetIatCountSamp a)) packetLenSamp)).
  intros t Ht. pose proof (u32_range (t + u32 (am_lastSeqNo a + 1 - seqNumber))).
  simpl in *. repeat case_if; lia.
Qed.

Lemma streaming_csum_inv a seqNumber fsHz packetLenSamp :
  am_inv a -> am_inv (streaming_csum a seqNumber fsHz packetLenSamp) /\
  am_config (streaming_csum a seqNumber fsHz packetLenSamp) = am_config a.
Proof.
  intros Ha. unfold streaming_csum. cbv zeta.
  repeat case_match; (split; [destruct Ha; by split|done]).
Qed.

Lemma arrival_done_inv a seqNumber timeStamp fsHz :
  am_inv a -> am_inv (arrival_done a seqNumber timeStamp fsHz).
Proof.
  intros Ha. unfold arrival_done. cbv zeta.
  repeat case_match; destruct Ha; by split.
Qed.

Lemma arrival_done_levels a seqNumber timeStamp fsHz :
  am_optBufLevel (arrival_done a seqNumber timeStamp fsHz) = am_optBufLevel a /\
  am_required_delay_q8 (arrival_done a seqNumber timeStamp fsHz) = am_required_delay_q8 a.
Proof. unfold arrival_done. cbv zeta. by repeat case_match. Qed.

Lemma arrival_done_timer a seqNumber timeStamp fsHz :
  am_packetIatCountSamp (arrival_done a seqNumber timeStamp fsHz) = 0.
Proof. unfold arrival_done. cbv zeta. by repeat case_match. Qed.

Lemma limit_level_levels a lvl maxBufLen fsHz p (streamingMode : bool) :
  let base := if streamingMode then Z.max lvl (am_maxCSumIatQ8 a) else lvl in
  let min_q8 := delay_q8 (am_minimum_delay_ms a) fsHz p in
  let max_q8 := delay_q8 (am_maximum_delay_ms a) fsHz p in
  let hi := high_lim_delay a maxBufLen fsHz in
  am_optBufLevel (limit_level a lvl maxBufLen fsHz p streamingMode)
    = Z.min (if 0 <? max_q8 then Z.min (Z.max base min_q8) (Z.max max_q8 256)
             else Z.max base min_q8) hi /\
  am_required_delay_q8 (limit_level a lvl maxBufLen fsHz p streamingMode) = Z.min base hi.
Proof.
  unfold limit_level, high_lim_delay. cbv zeta.
  by destruct streamingMode, (0 <? delay_q8 (am_maximum_delay_ms a) fsHz p).
Qed.

Lemma limit_level_inv a tempvar maxBufLen fsHz packetLenSamp streamingMode :
  am_inv a -> am_inv (limit_level a tempvar maxBufLen fsHz packetLenSamp streamingMode).
Proof.
  intros Ha. unfold limit_level. cbv zeta.
  destruct streamingMode, (0 <? delay_q8 _ _ _); destruct Ha; by split.
Qed.

(** An arrival, in terms of the level of the statistics. *)
Lemma UpdateIatStatistics_steps a maxBufLen seqNumber timeStamp fsHz mdCodec streamingMode :
  am_inv a -> 1 < maxBufLen -> 0 < fsHz ->
  let packetLenSamp := packet_len_samp a seqNumber timeStamp in
  (packetLenSamp <= 0 /\
    UpdateIatStatistics a maxBufLen seqNumber timeStamp fsHz mdCodec streamingMode =
      Some (0, arrival_done a seqNumber timeStamp fsHz)) \/
  (exists a1 lvl, 0 < packetLenSamp /\ am_inv a1 /\ am_config a1 = am_config a /\ 256 <= lvl <= 65 * 256 /\
    UpdateIatStatistics a maxBufLen seqNumber timeStamp fsHz mdCodec streamingMode =
      Some (0, arrival_done (limit_level a1 lvl maxBufLen fsHz packetLenSamp streamingMode)
                 seqNumber timeStamp fsHz)).
Proof.
  intros Ha Hm Hfs p. unfold UpdateIatStatistics. fold p.
  destruct (Z.leb_spec maxBufLen 1), (Z.leb_spec fsHz 0); try lia. cbn [orb].
  destruct (Z.ltb_spec 0 p); [|by left]. right.
  set (a0 := if streamingMode then streaming_csum a seqNumber fsHz p else a).
  assert (am_inv a0 /\ am_config a0 = am_config a) as [Ha0 Hc0]
    by (unfold a0; destruct streamingMode; [by apply streaming_csum_inv|done]).
  destruct (iat_update_spec (am_iatProb a0) (am_iatProbFact a0) (time_iat a seqNumber p))
    as (l' & f' & -> & Hl' & Hf'); [apply Ha0|apply Ha0|apply time_iat_range|].
  cbn [mbind option_bind].
  set (a1 := a0 <| am_iatProb := l' |> <| am_iatProbFact := f' |>).
  assert (am_inv a1) as Ha1 by (destruct Ha0; split; simpl; done || lia).
  destruct (CalcOptimalBufLvl_spec a1 fsHz mdCodec (time_iat a seqNumber p) streamingMode)
    as (lvl & a2 & _ & _ & -> & Ha2 & _ & Hc2 & _ & _ & _ & _ & _ & _ & Hlvl);
    [done|lia|apply time_iat_range|].
  cbn [mbind option_bind]. destruct (Z.ltb_spec 0 lvl); [|lia].
  exists a2, lvl. split_and!; try done; try lia. by rewrite Hc2.
Qed.

(** ** Runs *)

Inductive am_op :=
  | OpArrival (maxBufLen seqNumber timeStamp fsHz : Z) (mdCodec streamingMode : bool)
  | OpFilter (curSizeMs8 sampPerCall fsMult : Z)
  | OpSpeechLen (newLenSamp fsHz : Z)
  | OpReset (maxBufLenPackets : Z).

Definition am_exec (a : Automode) (op : am_op) : option Automode :=
  match op with
  | OpArrival m s t fs md st => snd <$> UpdateIatStatistics a m s t fs md st
  | OpFilter c n fs => Some (BufferLevelFilter c a n fs).2
  | OpSpeechLen n fs => Some (SetPacketSpeechLen a n fs).2
  | OpReset n => Some (ResetAutomode a n)
  end.

Fixpoint am_run (a : Automode) (ops : list am_op) : option Automode :=
  match ops with
  | [] => Some a
  | op :: ops => a ← am_exec a op; am_run a ops
  end.

Lemma BufferLevelFilter_inv c a n fs : am_inv a -> am_inv (BufferLevelFilter c a n fs).2.
Proof.
  intros Ha. unfold BufferLevelFilter. cbv zeta.
  repeat case_match; simpl; destruct Ha; by split.
Qed.

Lemma SetPacketSpeechLen_inv a n fs : am_inv a -> am_inv (SetPacketSpeechLen a n fs).2.
Proof.
  intros Ha. unfold SetPacketSpeechLen. cbv zeta.
  repeat case_match; simpl; destruct Ha; by split.
Qed.

Lemma am_exec_inv a op : am_inv a -> exists a', am_exec a op = Some a' /\ am_inv a'.
Proof.
  intros Ha. destruct op as [m s t fs md st|c n fs|n fs|n]; cbn [am_exec].
  - destruct (Z.leb_spec m 1) as [Hm|Hm].
    { exists a. split; [|done]. unfold UpdateIatStatistics.
      by rewrite (proj2 (Z.leb_le m 1) Hm). }
    destruct (Z.leb_spec fs 0) as [Hf|Hf].
    { exists a. split; [|done]. unfold UpdateIatStatistics.
      by rewrite (proj2 (Z.leb_le fs 0) Hf), orb_true_r. }
    destruct (UpdateIatStatistics_steps a m s t fs md st Ha Hm Hf)
      as [[_ ->]|(a1 & lvl & _ & Ha1 & _ & _ & ->)]; eexists; split; try reflexivity;
      apply arrival_done_inv; [done|by apply limit_level_inv].
  - eexists. split; [reflexivity|]. by apply BufferLevelFilter_inv.
  - eexists. split; [reflexivity|]. by apply SetPacketSpeechLen_inv.
  - eexists. split; [reflexivity|]. apply ResetAutomode_inv.
Qed.

(** C33. From a reset, every sequence of packet arrivals, level filterings,
    packet size changes and resets, with any arguments, runs without an access
    outside the histogram or the peak vectors, and keeps the inter-arrival
    histogram a probability distribution: 65 non-negative entries that add up
    to exactly 1 in Q30, the forgetting factor within its limit. *)
Theorem Automode_invariant (a : Automode) (n : Z) (ops : list am_op) :
  exists a', am_run (ResetAutomode a n) ops = Some a' /\
    zlen (am_iatProb a') = 65 /\ Forall (fun p => 0 <= p) (am_iatProb a') /\
    sum_list (am_iatProb a') = 2 ^ 30 /\ 0 <= am_iatProbFact a' <= IAT_PROB_FACT.
Proof.
  assert (forall ops a, am_inv a -> exists a', am_run a ops = Some a' /\ am_inv a') as H.
  { clear. induction ops as [|op ops IH]; intros a Ha; [by exists a|].
    destruct (am_exec_inv a op Ha) as (a1 & E & Ha1). simpl. rewrite E. by apply IH. }
  destruct (H ops _ (ResetAutomode_inv a n)) as (a' & Hrun & [[? ? ?] ?]). by exists a'.
Qed.

(** The target after an arrival with a positive packet length: it is
    positive and at most 75 per cent of the buffer, as is the required delay;
    it respects the maximum delay (at least a packet), and the minimum delay
    wherever the other two limits leave room for it. *)
Theorem UpdateIat_target a maxBufLen seqNumber timeStamp fsHz (mdCodec streamingMode : bool)
    (Ha : am_inv a) (Hm : 1 < maxBufLen < 32768) (Hfs : 0 < fsHz)
    (Hp : 0 < packet_len_samp a seqNumber timeStamp) :
  let min_q8 := delay_q8 (am_minimum_delay_ms a) fsHz (packet_len_samp a seqNumber timeStamp) in
  let max_q8 := delay_q8 (am_maximum_delay_ms a) fsHz (packet_len_samp a seqNumber timeStamp) in
  exists a' hi,
    UpdateIatStatistics a maxBufLen seqNumber timeStamp fsHz mdCodec streamingMode = Some (0, a') /\
    192 <= hi <= 192 * maxBufLen /\ (am_extraDelayMs a <= 0 -> hi = 192 * maxBufLen) /\
    192 <= am_optBufLevel a' <= hi /\ 192 <= am_required_delay_q8 a' <= hi /\
    (0 < max_q8 -> am_optBufLevel a' <= Z.max max_q8 256) /\
    (min_q8 <= hi -> (0 < max_q8 -> min_q8 <= max_q8) -> min_q8 <= am_optBufLevel a') /\
    am_packetIatCountSamp a' = 0.
Proof.
  intros min_q8 max_q8.
  destruct (UpdateIatStatistics_steps a maxBufLen seqNumber timeStamp fsHz mdCodec streamingMode)
    as [[Hle _]|(a1 & lvl & _ & Ha1 & Hc & Hlvl & ->)]; [done|lia|lia|lia|].
  injection Hc as Hex Hps Hmin Hmax.
  exists (arrival_done (limit_level a1 lvl maxBufLen fsHz
            (packet_len_samp a seqNumber timeStamp) streamingMode) seqNumber timeStamp fsHz).
  exists (high_lim_delay a1 maxBufLen fsHz). split; [done|].
  assert (192 <= high_lim_delay a1 maxBufLen fsHz <= 192 * maxBufLen /\
    (am_extraDelayMs a <= 0 -> high_lim_delay a1 maxBufLen fsHz = 192 * maxBufLen)) as Hhi.
  { assert (forall m, 1 <= m <= maxBufLen ->
      Z.shiftr (s32 (Z.shiftl m 8)) 1 + Z.shiftr (s32 (Z.shiftl m 8)) 2 = 192 * m) as Hsh.
    { intros m Hmr. rewrite Z.shiftl_mul_pow2 by done. change (2 ^ 8) with 256.
      rewrite s32_id by (simpl; lia). rewrite !Z.shiftr_div_pow2 by done.
      change (2 ^ 1) with 2. change (2 ^ 2) with 4. Z.to_euclidean_division_equations; lia. }
    unfold high_lim_delay. rewrite Hex, Hps.
    destruct ((0 <? am_extraDelayMs a) && (0 <? am_packetSpeechLenSamp a)) eqn:E; cbv zeta.
    - bool_lia.
      assert (0 <= Z.quot (Z.quot (am_extraDelayMs a) (am_packetSpeechLenSamp a) * fsHz) 1000).
      { apply Z.quot_pos; [|lia]. apply Z.mul_nonneg_nonneg; [|lia].
        apply Z.quot_pos; lia. }
      rewrite Hsh by lia. lia.
    - rewrite Hsh by lia. lia. }
  destruct (arrival_done_levels (limit_level a1 lvl maxBufLen fsHz
    (packet_len_samp a seqNumber timeStamp) streamingMode) seqNumber timeStamp fsHz) as [-> ->].
  rewrite arrival_done_timer.
  destruct (limit_level_levels a1 lvl maxBufLen fsHz (packet_len_samp a seqNumber timeStamp)
    streamingMode) as [-> ->].
  rewrite Hmin, Hmax. fold min_q8 max_q8. clearbody min_q8 max_q8.
  generalize dependent (high_lim_delay a1 maxBufLen fsHz). intros hi Hhi.
  destruct streamingMode, (Z.ltb_spec 0 max_q8); repeat split; lia.
Qed.

Example UpdateIat_target_witness :
  exists a' hi,
    UpdateIatStatistics (SetPacketSpeechLen ex_am 160 8000).2 50 1 160 8000 false false
      = Some (0, a') /\ 192 <= am_optBufLevel a' <= hi.
Proof.
  refine (match UpdateIat_target (SetPacketSpeechLen ex_am 160 8000).2 50 1 160 8000
                  false false _ _ _ _ with
          | ex_intro _ a' (ex_intro _ hi (conj H (conj _ (conj _ (conj H' _))))) =>
              ex_intro _ a' (ex_intro _ hi (conj H H')) end).
  - apply SetPacketSpeechLen_inv, ResetAutomode_inv.
  - lia.
  - lia.
  - reflexivity.
Defined.

(** ** The level filter *)

(** One filter step without time-scaling moves the filtered level towards
    the current buffer size [c] (in packets; Q8 for the level) and never past
    it: it decreases strictly from above, and rises strictly from 128/256
    packets below on. For the filter factors in use, and any level between the
    extreme packet counts, no intermediate product overflows, and the counters
    advance by the samples of the call. *)
Theorem BufferLevelFilter_approaches (c : Z) (a : Automode) (curSizeMs8 sampPerCall fsMult : Z)
    (Hs : 0 < sampPerCall) (Hf : 0 < fsMult) (Hlen : 0 < am_packetSpeechLenSamp a)
    (Hc : c = s16 (DivW32W16 (s32 (curSizeMs8 * fsMult)) (am_packetSpeechLenSamp a)))
    (Hfact : 251 <= am_levelFiltFact a <= 254) (Hts : am_prevTimeScale a = 0)
    (Hlvl : -8388608 <= am_buffLevelFilt a <= 8388352) :
  let '(r, a') := BufferLevelFilter curSizeMs8 a sampPerCall fsMult in
  r = 0 /\
  Z.min (am_buffLevelFilt a) (256 * c) <= am_buffLevelFilt a'
    <= Z.max (am_buffLevelFilt a) (256 * c) /\
  (256 * c < am_buffLevelFilt a -> am_buffLevelFilt a' < am_buffLevelFilt a) /\
  (am_buffLevelFilt a + 128 <= 256 * c -> am_buffLevelFilt a < am_buffLevelFilt a') /\
  am_packetIatCountSamp a' = u32 (am_packetIatCountSamp a + sampPerCall).
Proof.
  unfold BufferLevelFilter.
  destruct (Z.leb_spec sampPerCall 0), (Z.leb_spec fsMult 0); try lia. cbn [orb].
  destruct (Z.ltb_spec 0 (am_packetSpeechLenSamp a)); [|lia]. rewrite <- Hc.
  assert (in_s16 c) as Hcr by (rewrite Hc; apply s16_range). clear Hc. simpl in Hcr.
  destruct (Z.ltb_spec 0 (am_levelFiltFact a)); [|lia]. cbv zeta.
  match goal with |- context [am_prevTimeScale ?x =? 0] =>
    replace (am_prevTimeScale x =? 0) with true by (symmetry; apply Z.eqb_eq; exact Hts) end.
  cbn [negb]. clear Hts.
  destruct a as [f b ? ? cnt ? len ? ? ? ? ts ? ? ? ? ? ? ? ? ? ? ? ? ? ? ? ? ? ? ? ? ?].
  cbn [am_levelFiltFact am_buffLevelFilt am_packetSpeechLenSamp am_packetIatCountSamp upd] in *.
  assert (exists q, s32 (Z.shiftr (s32 (f * b)) 8 + (256 - f) * c) = q + (256 - f) * c /\
            256 * q <= f * b < 256 * q + 256) as (q & -> & Hq).
  { exists (f * b / 256).
    assert (f = 251 \/ f = 252 \/ f = 253 \/ f = 254) as Hcases by lia.
    rewrite Z.shiftr_div_pow2 by done. change (2 ^ 8) with 256.
    rewrite (s32_id (f * b)) by (simpl; destruct Hcases as [->|[->|[->| ->]]]; lia).
    destruct Hcases as [->|[->|[->| ->]]];
      (split; [apply s32_id; simpl|]; Z.to_euclidean_division_equations; lia). }
  assert (f = 251 \/ f = 252 \/ f = 253 \/ f = 254) as [->|[->|[->| ->]]] by lia;
    repeat split; lia.
Qed.

Example BufferLevelFilter_approaches_witness :
  0 <= am_buffLevelFilt
         (BufferLevelFilter 640 ((SetPacketSpeechLen ex_am 160 8000).2) 80 8).2 <= 8192.
Proof.
  assert (H := BufferLevelFilter_approaches 32 (SetPacketSpeechLen ex_am 160 8000).2 640 80 8
                 ltac:(lia) ltac:(lia) eq_refl eq_refl ltac:(vm_compute; intuition discriminate)
                 eq_refl ltac:(vm_compute; intuition discriminate)).
  exact (proj1 (proj2 H)).
Defined.
