(* ===== verification/BufStats.v ===== *)
(** The playout decision of the NetEQ MCU side: [buffer_stats.h],
    [bufstats_decision.c].

    Play modes are the constants of [neteq_defines.h]; the decisions are the
    values that [WebRtcNetEQ_SignalMcu] turns into instructions for the DSP. *)
From S2P Require Import Prelude SplMath Automode.

(** ** Constants *)

Definition MODE_NORMAL : Z := 0.
Definition MODE_EXPAND : Z := 1.
Definition MODE_MERGE : Z := 2.
Definition MODE_SUCCESS_ACCELERATE : Z := 3.
Definition MODE_RFC3389CNG : Z := 5.
Definition MODE_LOWEN_ACCELERATE : Z := 6.
Definition MODE_CODEC_INTERNAL_CNG : Z := 9.
Definition MODE_SUCCESS_PREEMPTIVE : Z := 10.
Definition MODE_LOWEN_PREEMPTIVE : Z := 12.
Definition MODE_FADE_TO_BGN : Z := 13.
Definition MODE_ERROR : Z := 16.

Definition CNG_OFF : Z := 0.
Definition CNG_RFC3389_ON : Z := 1.
Definition CNG_INTERNAL_ON : Z := 2.

Definition REINIT_AFTER_EXPANDS : Z := 100.
Definition MAX_WAIT_FOR_PACKET : Z := 10.
Definition NETEQ_BUFSTAT_20MS_Q7 : Z := 2560.

Inductive PlayoutMode := kPlayoutOn | kPlayoutOff | kPlayoutFax | kPlayoutStreaming.

(** [BUFSTATS_DO_...] and [BUFSTAT_REINIT...], with their values. *)
Inductive Decision :=
  | DO_NORMAL | DO_ACCELERATE | DO_MERGE | DO_EXPAND | REINIT
  | DO_RFC3389CNG_PACKET | DO_RFC3389CNG_NOPACKET | DO_INTERNAL_CNG_NOPACKET
  | DO_PREEMPTIVE_EXPAND | REINIT_DECODER | DO_DTMF_ONLY
  | DO_ALTERNATIVE_PLC | DO_ALTERNATIVE_PLC_INC_TS
  | DO_AUDIO_REPETITION | DO_AUDIO_REPETITION_INC_TS.

#[export] Instance Decision_eq_dec : EqDecision Decision.
Proof. solve_decision. Defined.
#[export] Instance PlayoutMode_eq_dec : EqDecision PlayoutMode.
Proof. solve_decision. Defined.

Definition decision_value (d : Decision) : Z :=
  match d with
  | DO_NORMAL => 0 | DO_ACCELERATE => 1 | DO_MERGE => 2 | DO_EXPAND => 3 | REINIT => 4
  | DO_RFC3389CNG_PACKET => 5 | DO_RFC3389CNG_NOPACKET => 6 | DO_INTERNAL_CNG_NOPACKET => 7
  | DO_PREEMPTIVE_EXPAND => 8 | REINIT_DECODER => 9 | DO_DTMF_ONLY => 10
  | DO_ALTERNATIVE_PLC => 11 | DO_ALTERNATIVE_PLC_INC_TS => 12
  | DO_AUDIO_REPETITION => 13 | DO_AUDIO_REPETITION_INC_TS => 14
  end.

(** ** State and arguments *)

Record BufStats := mkBufStats {
  bs_cngOn : Z;          (* int16_t *)
  bs_noExpand : Z;       (* int16_t *)
  bs_CNGplayedTS : Z;    (* int32_t *)
  bs_avgDelayMsQ8 : Z;   (* uint16_t *)
  bs_maxDelayMs : Z;     (* int16_t *)
  bs_Automode : Automode
}.

#[export] Instance eta_BufStats : Eta BufStats := fun r =>
  mkBufStats (bs_cngOn r) (bs_noExpand r) (bs_CNGplayedTS r) (bs_avgDelayMsQ8 r)
    (bs_maxDelayMs r) (bs_Automode r).

Record BufArgs := mkBufArgs {
  ba_frameSize : Z;          (* int16_t *)
  ba_cur_size : Z;           (* int32_t *)
  ba_targetTS : Z;           (* uint32_t *)
  ba_availableTS : Z;        (* uint32_t *)
  ba_noPacket : bool;
  ba_cngPacket : bool;
  ba_prevPlayMode : Z;
  ba_playoutMode : PlayoutMode;
  ba_timestampsPerCall : Z;  (* int *)
  ba_NoOfExpandCalls : Z;    (* int *)
  ba_fs_mult : Z;            (* int16_t *)
  ba_lastModeBGNonly : bool;
  ba_playDtmf : Z            (* int *)
}.

(** ** The function *)

(** Statistics, before the decision: the instance and [cur_size] in Q7. *)
Definition bufstats_update (inst : BufStats) (x : BufArgs) : BufStats * Z :=
  let curr_sizeQ7 := s32 (Z.shiftl (ba_cur_size x) 4) in
  let prev := ba_prevPlayMode x in
  let a := bs_Automode inst in
  let a := a <| am_prevTimeScale :=
    Z.land (am_prevTimeScale a)
      (b2z ((prev =? MODE_SUCCESS_ACCELERATE) || (prev =? MODE_LOWEN_ACCELERATE)
            || (prev =? MODE_SUCCESS_PREEMPTIVE) || (prev =? MODE_LOWEN_PREEMPTIVE))) |> in
  let a :=
    if negb (prev =? MODE_RFC3389CNG) && negb (prev =? MODE_CODEC_INTERNAL_CNG)
    then (BufferLevelFilter (ba_cur_size x) a (ba_timestampsPerCall x) (ba_fs_mult x)).2
    else a <| am_packetIatCountSamp := u32 (am_packetIatCountSamp a + ba_timestampsPerCall x) |>
           <| am_peakIatCountSamp := u32 (am_peakIatCountSamp a + ba_timestampsPerCall x) |>
           <| am_timescaleHoldOff := Z.shiftr (am_timescaleHoldOff a) 1 |> in
  let cur_size := Z.min curr_sizeQ7 32767 in
  let currentDelayMs := Z.shiftr curr_sizeQ7 7 in
  (inst <| bs_Automode := a |>
        <| bs_avgDelayMsQ8 := u16 (s16 (Z.shiftr (s16 (bs_avgDelayMsQ8 inst) * 511) 9
                                        + Z.shiftr cur_size 9)) |>
        <| bs_maxDelayMs := if bs_maxDelayMs inst <? currentDelayMs
                            then s16 currentDelayMs else bs_maxDelayMs inst |>,
   cur_size).

(** A CNG packet is available. *)
Definition decide_cng_packet (inst : BufStats) (x : BufArgs) : Decision * BufStats :=
  let a := bs_Automode inst in
  let diffTS := s32 (u32 (u32 (bs_CNGplayedTS inst + ba_targetTS x) - ba_availableTS x)) in
  let optimal_level_samp := Z.shiftr (s32 (am_optBufLevel a * am_packetSpeechLenSamp a)) 8 in
  let excess_waiting_time_samp := s32 (s32 (- diffTS) - optimal_level_samp) in
  let '(inst, diffTS) :=
    if Z.quot optimal_level_samp 2 <? excess_waiting_time_samp
    then (inst <| bs_CNGplayedTS := s32 (bs_CNGplayedTS inst + excess_waiting_time_samp) |>,
          s32 (diffTS + excess_waiting_time_samp))
    else (inst, diffTS) in
  if (diffTS <? 0) && (ba_prevPlayMode x =? MODE_RFC3389CNG)
  then (DO_RFC3389CNG_NOPACKET, inst) else (DO_RFC3389CNG_PACKET, inst).

(** The needed packet is available: the limits in Q8 packets. *)
Definition level_limits (a : Automode) (fs_mult extraDelayPacketsQ8 : Z) : Z * Z :=
  let level_limit_lo := Z.shiftr (am_optBufLevel a) 1 + Z.shiftr (am_optBufLevel a) 2 in
  let level_limit_hi :=
    Z.max (am_optBufLevel a)
      (s32 (level_limit_lo
            + DivW32W16ResW16 (s32 (Z.shiftl (s32 (160 * fs_mult)) 8)) (am_packetSpeechLenSamp a))) in
  if 0 <? extraDelayPacketsQ8
  then (s32 (level_limit_hi + extraDelayPacketsQ8), s32 (level_limit_lo + extraDelayPacketsQ8))
  else (level_limit_hi, level_limit_lo).

Definition decide_timescale (a : Automode) (x : BufArgs) (extraDelayPacketsQ8 : Z) : Decision :=
  let '(level_limit_hi, level_limit_lo) := level_limits a (ba_fs_mult x) extraDelayPacketsQ8 in
  if ((level_limit_hi <=? am_buffLevelFilt a) && (am_timescaleHoldOff a =? 0))
     || (s32 (Z.shiftl level_limit_hi 2) <=? am_buffLevelFilt a)
  then DO_ACCELERATE
  else if (am_buffLevelFilt a <? level_limit_lo) && (am_timescaleHoldOff a =? 0)
  then DO_PREEMPTIVE_EXPAND
  else DO_NORMAL.

(** A later packet than the needed one is available. *)
Definition decide_future (inst : BufStats) (x : BufArgs) (cur_size extraDelayPacketsQ8 : Z)
    : Decision :=
  let a := bs_Automode inst in
  let prev := ba_prevPlayMode x in
  if (prev =? MODE_EXPAND)
     && (u32 (ba_availableTS x - ba_targetTS x)
           <? u32 (s16 (ba_timestampsPerCall x) * REINIT_AFTER_EXPANDS))
     && (ba_NoOfExpandCalls x <? MAX_WAIT_FOR_PACKET)
     && (u32 (ba_targetTS x + s16 (ba_timestampsPerCall x) * s16 (ba_NoOfExpandCalls x))
           <? ba_availableTS x)
     && (am_buffLevelFilt a <=? s32 (am_optBufLevel a + extraDelayPacketsQ8))
  then if ba_playDtmf x =? 1 then DO_DTMF_ONLY else DO_EXPAND
  else if (prev =? MODE_RFC3389CNG) || (prev =? MODE_CODEC_INTERNAL_CNG)
          || ba_lastModeBGNonly x then
    let diffTS := s32 (u32 (u32 (bs_CNGplayedTS inst + ba_targetTS x) - ba_availableTS x)) in
    let val := Z.shiftr (s32 (s32 (am_optBufLevel a + extraDelayPacketsQ8)
                              * am_packetSpeechLenSamp a)) 6 in
    if (0 <=? diffTS) || (val <? ba_cur_size x) then DO_NORMAL
    else if prev =? MODE_RFC3389CNG then DO_RFC3389CNG_NOPACKET
    else if prev =? MODE_CODEC_INTERNAL_CNG then DO_INTERNAL_CNG_NOPACKET
    else if ba_playDtmf x =? 1 then DO_DTMF_ONLY
    else DO_EXPAND
  else if (bs_noExpand inst =? 0)
          || ((ba_frameSize x <? ba_timestampsPerCall x) && (NETEQ_BUFSTAT_20MS_Q7 <? cur_size))
  then DO_MERGE
  else if ba_playDtmf x =? 1 then DO_DTMF_ONLY
  else DO_EXPAND.

(** Normal and streaming mode. *)
Definition decide_on (inst : BufStats) (x : BufArgs) (cur_size : Z) : Decision * BufStats :=
  let prev := ba_prevPlayMode x in
  if prev =? MODE_ERROR then (if ba_noPacket x then DO_EXPAND else REINIT, inst) else
  let inst := inst <| bs_noExpand :=
    b2z (negb (prev =? MODE_EXPAND) && negb (prev =? MODE_FADE_TO_BGN)) |> in
  let a := bs_Automode inst in
  if ba_cngPacket x then decide_cng_packet inst x else
  if ba_noPacket x then
    (if bs_cngOn inst =? CNG_RFC3389_ON then DO_RFC3389CNG_NOPACKET
     else if bs_cngOn inst =? CNG_INTERNAL_ON then DO_INTERNAL_CNG_NOPACKET
     else if ba_playDtmf x =? 1 then DO_DTMF_ONLY
     else DO_EXPAND, inst)
  else if REINIT_AFTER_EXPANDS <? ba_NoOfExpandCalls x then (REINIT_DECODER, inst) else
  let extraDelayPacketsQ8 :=
    if (0 <? am_extraDelayMs a) && (0 <? am_packetSpeechLenSamp a)
    then Z.quot (s32 (Z.shiftl (s32 (am_extraDelayMs a * 8 * ba_fs_mult x)) 8))
                (am_packetSpeechLenSamp a)
    else 0 in
  (if ba_targetTS x =? ba_availableTS x then
     if (bs_noExpand inst =? 1) && (ba_playDtmf x =? 0)
     then decide_timescale a x extraDelayPacketsQ8 else DO_NORMAL
   else if ba_targetTS x <? ba_availableTS x then
     decide_future inst x cur_size extraDelayPacketsQ8
   else REINIT, inst).

(** Playout off and fax mode. *)
Definition decide_off (inst : BufStats) (x : BufArgs) : Decision :=
  let time_to_play :=
    0 <=? s32 (u32 (u32 (bs_CNGplayedTS inst + ba_targetTS x) - ba_availableTS x)) in
  let off := bool_decide (ba_playoutMode x = kPlayoutOff) in
  if ba_cngPacket x then
    if time_to_play then DO_RFC3389CNG_PACKET else DO_RFC3389CNG_NOPACKET
  else if ba_noPacket x then
    if bs_cngOn inst =? CNG_RFC3389_ON then DO_RFC3389CNG_NOPACKET
    else if bs_cngOn inst =? CNG_INTERNAL_ON then DO_INTERNAL_CNG_NOPACKET
    else if off then DO_ALTERNATIVE_PLC else DO_AUDIO_REPETITION
  else if ba_targetTS x =? ba_availableTS x then DO_NORMAL
  else if time_to_play then DO_NORMAL
  else if bs_cngOn inst =? CNG_RFC3389_ON then DO_RFC3389CNG_NOPACKET
  else if bs_cngOn inst =? CNG_INTERNAL_ON then DO_INTERNAL_CNG_NOPACKET
  else if off then DO_ALTERNATIVE_PLC_INC_TS else DO_AUDIO_REPETITION_INC_TS.

Definition BufstatsDecision (inst : BufStats) (x : BufArgs) : Decision * BufStats :=
  let '(inst, cur_size) := bufstats_update inst x in
  if bool_decide (ba_playoutMode x = kPlayoutOn) || bool_decide (ba_playoutMode x = kPlayoutStreaming)
  then decide_on inst x cur_size
  else (decide_off inst x, inst).

(** ** Which decisions are possible *)

(** Decisions that hand the available packet to the decoder (or reset before
    doing so), or wait for it. *)
Definition needs_packet (d : Decision) : bool :=
  match d with
  | DO_NORMAL | DO_ACCELERATE | DO_MERGE | REINIT | DO_RFC3389CNG_PACKET
  | DO_PREEMPTIVE_EXPAND | REINIT_DECODER
  | DO_ALTERNATIVE_PLC_INC_TS | DO_AUDIO_REPETITION_INC_TS => true
  | _ => false
  end.

(** Decisions of the modes in which NetEQ is on, and of those in which it is
    off. *)
Definition on_only (d : Decision) : bool :=
  match d with
  | DO_ACCELERATE | DO_MERGE | DO_EXPAND | REINIT | DO_PREEMPTIVE_EXPAND
  | REINIT_DECODER | DO_DTMF_ONLY => true
  | _ => false
  end.
Definition off_only (d : Decision) : bool := 11 <=? decision_value d.

Definition playout_on (x : BufArgs) : bool :=
  bool_decide (ba_playoutMode x = kPlayoutOn) || bool_decide (ba_playoutMode x = kPlayoutStreaming).

Lemma decide_cng_packet_cases inst x :
  (decide_cng_packet inst x).1 = DO_RFC3389CNG_PACKET \/
  (decide_cng_packet inst x).1 = DO_RFC3389CNG_NOPACKET.
Proof. unfold decide_cng_packet. cbv zeta. repeat case_match; simplify_eq; auto. Qed.

Lemma decide_future_on inst x c e : off_only (decide_future inst x c e) = false.
Proof. unfold decide_future. cbv zeta. by repeat case_match. Qed.

Lemma decide_timescale_on a x e : off_only (decide_timescale a x e) = false.
Proof. unfold decide_timescale. by repeat case_match. Qed.

Lemma decide_timescale_plays a x e :
  decide_timescale a x e = DO_NORMAL \/ decide_timescale a x e = DO_ACCELERATE \/ decide_timescale a x e = DO_PREEMPTIVE_EXPAND.
Proof. unfold decide_timescale. repeat case_match; auto. Qed.

(** Concealment by expansion. *)
Definition expands (d : Decision) : bool :=
  match d with DO_EXPAND | DO_DTMF_ONLY => true | _ => false end.

(** The mode before was an expansion, or its end in background noise. *)
Definition after_expand (x : BufArgs) : Prop := ba_prevPlayMode x = MODE_EXPAND \/ ba_prevPlayMode x = MODE_FADE_TO_BGN.

Lemma decide_future_after_expand inst x c e :
  after_expand x -> bs_noExpand inst = 0 -> ba_lastModeBGNonly x = false ->
  (ba_prevPlayMode x = MODE_EXPAND -> 10 <= ba_NoOfExpandCalls x) -> decide_future inst x c e = DO_MERGE.
Proof.
  intros Hp Hn Hb Hc. unfold decide_future, MAX_WAIT_FOR_PACKET. cbv zeta. rewrite Hn, Hb. destruct Hp as [Hp|Hp].
  - specialize (Hc Hp). rewrite (proj2 (Z.ltb_ge _ 10)) by lia. rewrite Hp, andb_false_r, !andb_false_l. done.
  - by rewrite Hp, !andb_false_l.
Qed.

(** C38. Every call answers one of the fifteen decisions; decisions that use a
    packet are only taken when one is available; time-scaling, expansion,
    merging and resets only happen when NetEQ is on, alternative concealment
    only when it is off.  When NetEQ is on, the mode before was no error, and a
    packet that is no comfort noise is available, the answer is: a reset of the
    decoder after more than 100 expansions; else, for the packet that is due, normal
    or time-scaled playout; for one that is too old a reset; for one from the future a
    merge, if the mode before was an expansion that has taken at least 10 calls, or
    its fade to background noise, and was not background noise only.  So expansion
    (or DTMF alone) in spite of an available packet happens after at most 100
    expansions, for a packet from the future, and when the mode before was
    background noise only, or an expansion of fewer than 10 calls, or neither an
    expansion nor its fade to background noise. *)
Theorem BufstatsDecision_sound (inst : BufStats) (x : BufArgs)
    (Hcng : ba_cngPacket x = true -> ba_noPacket x = false) :
  let '(d, inst') := BufstatsDecision inst x in
  let calls := ba_NoOfExpandCalls x in
  (needs_packet d = true -> ba_noPacket x = false) /\
  (on_only d = true -> playout_on x = true) /\
  (off_only d = true -> playout_on x = false) /\
  (playout_on x = true -> ba_prevPlayMode x <> MODE_ERROR ->
   ba_noPacket x = false -> ba_cngPacket x = false ->
   (100 < calls -> d = REINIT_DECODER) /\
   (calls <= 100 -> ba_targetTS x = ba_availableTS x ->
    d = DO_NORMAL \/ d = DO_ACCELERATE \/ d = DO_PREEMPTIVE_EXPAND) /\
   (calls <= 100 -> ba_availableTS x < ba_targetTS x -> d = REINIT) /\
   (calls <= 100 -> ba_targetTS x < ba_availableTS x ->
    after_expand x -> (ba_prevPlayMode x = MODE_EXPAND -> 10 <= calls) ->
    ba_lastModeBGNonly x = false -> d = DO_MERGE)) /\
  (expands d = true -> ba_noPacket x = false ->
   calls <= 100 /\ ba_targetTS x < ba_availableTS x /\
   (ba_lastModeBGNonly x = true \/ (ba_prevPlayMode x = MODE_EXPAND /\ calls < 10) \/ ~ after_expand x)).
Proof.
  unfold BufstatsDecision. destruct (bufstats_update inst x) as [inst1 c] eqn:E. clear E inst.
  fold (playout_on x). destruct (playout_on x) eqn:Eon.
  - unfold decide_on.
    destruct (Z.eqb_spec (ba_prevPlayMode x) MODE_ERROR).
    { destruct (ba_noPacket x) eqn:Eno; split_and!; done. }
    set (inst2 := inst1 <| bs_noExpand := _ |>).
    destruct (ba_cngPacket x) eqn:Ecng.
    { destruct (decide_cng_packet inst2 x) as [d inst3] eqn:Ed.
      destruct (decide_cng_packet_cases inst2 x) as [E|E]; rewrite Ed in E; simpl in E; subst d;
        split_and!; intros; simplify_eq; auto. }
    destruct (ba_noPacket x) eqn:Eno.
    { repeat case_match; split_and!; intros; simplify_eq; done. }
    unfold REINIT_AFTER_EXPANDS. destruct (Z.ltb_spec 100 (ba_NoOfExpandCalls x)).
    { split_and!; intros; simplify_eq; try done. split_and!; [done|lia..]. }
    set (e := if (0 <? am_extraDelayMs (bs_Automode inst2)) && _ then _ else 0) in *.
    assert (Hno : after_expand x -> bs_noExpand inst2 = 0) by (intros [Hp|Hp]; unfold inst2; cbn; by rewrite Hp).
    destruct (Z.eqb_spec (ba_targetTS x) (ba_availableTS x)) as [Ets|Ets].
    { assert (Hd : forall d, d = (if (bs_noExpand inst2 =? 1) && (ba_playDtmf x =? 0)
        then decide_timescale (bs_Automode inst2) x e else DO_NORMAL) -> d = DO_NORMAL \/ d = DO_ACCELERATE \/ d = DO_PREEMPTIVE_EXPAND).
      { intros d ->. case_match; [apply decide_timescale_plays|by left]. }
      specialize (Hd _ eq_refl). revert Hd. generalize (if (bs_noExpand inst2 =? 1) && (ba_playDtmf x =? 0)
        then decide_timescale (bs_Automode inst2) x e else DO_NORMAL). intros d Hd.
      split_and!; try done; [by destruct Hd as [->|[->| ->]]| |by destruct Hd as [->|[->| ->]]].
      intros _ _ _ _. split_and!; [lia|done|lia|lia]. }
    destruct (Z.ltb_spec (ba_targetTS x) (ba_availableTS x)) as [Hts|Hts].
    + split_and!; [done|done|by rewrite decide_future_on| |].
      * intros _ _ _ _. split_and!; [lia|lia|lia|]. intros _ _ Hp Hc Hb. apply decide_future_after_expand; auto.
      * intros Hd _. split; [done|]. split; [done|].
        destruct (ba_lastModeBGNonly x) eqn:Hb; [by left|]. right.
        destruct (decide (after_expand x)) as [Hp|Hp]; [left|by right].
        destruct (decide (ba_prevPlayMode x = MODE_EXPAND /\ ba_NoOfExpandCalls x < 10)) as [|Hn]; [done|].
        rewrite decide_future_after_expand in Hd; auto; [done|]. intros He. lia.
    + split_and!; try done. intros _ _ _ _. split_and!; [lia|lia|done|lia].
  - unfold decide_off. split_and!; intros; try done;
      repeat case_match; simplify_eq; try done; try (by destruct (Hcng eq_refl)).
Qed.

(** A target of 4 packets and about 8 packets in the buffer. *)
Definition ex_stats : BufStats :=
  mkBufStats 0 1 0 0 0
    (mkAutomode 253 2048 [] 0 0 1024 160 0 0 0 0 0 0 0 0 0 0 [] [] 0 0 0 0 0 0 0 0 0 0 0 0 0 0).

Definition ex_buf_args : BufArgs :=
  mkBufArgs 160 0 1000 1160 false false MODE_EXPAND kPlayoutOn 80 12 1 false 0.

Example BufstatsDecision_sound_witness :
  (BufstatsDecision ex_stats ex_buf_args).1 = DO_MERGE.
Proof.
  pose proof (BufstatsDecision_sound ex_stats ex_buf_args ltac:(done)) as H.
  destruct (BufstatsDecision ex_stats ex_buf_args) as [d inst'].
  destruct H as (_ & _ & _ & H & _). destruct (H eq_refl ltac:(done) eq_refl eq_refl) as (_ & _ & _ & Hm).
  apply Hm; [done|done|by left|done|done].
Defined.

(** ** Time-scaling *)

(** The extra delay in Q8 packets. *)
Definition extra_q8 (a : Automode) (fs_mult : Z) : Z :=
  if (0 <? am_extraDelayMs a) && (0 <? am_packetSpeechLenSamp a)
  then Z.quot (s32 (Z.shiftl (s32 (am_extraDelayMs a * 8 * fs_mult)) 8))
              (am_packetSpeechLenSamp a)
  else 0.

Lemma quarters b : 0 <= b -> 3 * b - 5 <= 4 * (Z.shiftr b 1 + Z.shiftr b 2) <= 3 * b.
Proof.
  intros Hb. rewrite !Z.shiftr_div_pow2 by done. change (2 ^ 1) with 2. change (2 ^ 2) with 4.
  Z.to_euclidean_division_equations; lia.
Qed.

Definition timescaling (d : Decision) : bool :=
  match d with DO_ACCELERATE | DO_PREEMPTIVE_EXPAND => true | _ => false end.

Lemma decide_future_no_timescaling inst x c e : timescaling (decide_future inst x c e) = false.
Proof. unfold decide_future. cbv zeta. by repeat case_match. Qed.

Lemma decide_off_no_timescaling inst x : timescaling (decide_off inst x) = false.
Proof. unfold decide_off. cbv zeta. by repeat case_match. Qed.

(** The thresholds of a call that has the needed packet. *)
Lemma decide_timescale_levels a x e :
  0 <= am_optBufLevel a <= 8388608 -> e <= 8388608 ->
  let b := am_buffLevelFilt a in
  let t := am_optBufLevel a in
  (decide_timescale a x e = DO_ACCELERATE ->
     t + Z.max 0 e <= b /\ (am_timescaleHoldOff a = 0 \/ 4 * (t + Z.max 0 e) <= b)) /\
  (decide_timescale a x e = DO_PREEMPTIVE_EXPAND ->
     4 * b < 3 * t + 4 * Z.max 0 e /\ am_timescaleHoldOff a = 0).
Proof.
  intros Ht He b t. unfold decide_timescale, level_limits. fold t b.
  pose proof (quarters t ltac:(lia)) as Hq.
  set (lo := Z.shiftr t 1 + Z.shiftr t 2) in *.
  set (w := DivW32W16ResW16 _ _).
  assert (in_s16 w) as Hw.
  { unfold w, DivW32W16ResW16. destruct (negb _); [apply s16_range|simpl; lia]. }
  simpl in Hw. clearbody w. rewrite (s32_id (lo + w)) by (simpl; lia).
  destruct (Z.ltb_spec 0 e); rewrite ?(s32_id (_ + e)) by (simpl; lia);
    (rewrite Z.shiftl_mul_pow2 by done; change (2 ^ 2) with 4;
     rewrite s32_id by (simpl; lia));
    (split; intros Hd; repeat case_if; try discriminate;
     rewrite ?orb_true_iff, ?andb_true_iff, ?Z.leb_le, ?Z.eqb_eq in *; lia).
Qed.

(** Time-scaling follows the filtered level [b] against the target [t]
    (both in Q8 packets, for targets of up to 2^15 packets, extra delay [e]
    added to the target): the buffer is only accelerated when [b >= t + e],
    and then either the hold-off timer has run out or [b] is at least four
    times the limit; it is only stretched when [b] is below three quarters of
    the target plus the extra delay and the timer has run out; both only for the needed packet,
    with no DTMF to play, and not straight after an expansion. *)
Theorem BufstatsDecision_timescale (inst : BufStats) (x : BufArgs) :
  let '(d, inst') := BufstatsDecision inst x in
  let a := bs_Automode inst' in
  let b := am_buffLevelFilt a in
  let t := am_optBufLevel a in
  let e := extra_q8 a (ba_fs_mult x) in
  0 <= t <= 8388608 -> e <= 8388608 ->
  (d = DO_ACCELERATE \/ d = DO_PREEMPTIVE_EXPAND ->
     ba_targetTS x = ba_availableTS x /\ ba_noPacket x = false /\ ba_cngPacket x = false /\
     ba_playDtmf x = 0 /\ ba_prevPlayMode x <> MODE_EXPAND /\
     ba_prevPlayMode x <> MODE_FADE_TO_BGN /\ ba_NoOfExpandCalls x <= 100) /\
  (d = DO_ACCELERATE ->
     t + Z.max 0 e <= b /\ (am_timescaleHoldOff a = 0 \/ 4 * (t + Z.max 0 e) <= b)) /\
  (d = DO_PREEMPTIVE_EXPAND -> 4 * b < 3 * t + 4 * Z.max 0 e /\ am_timescaleHoldOff a = 0).
Proof.
  unfold BufstatsDecision. destruct (bufstats_update inst x) as [inst1 c] eqn:E. clear E inst.
  fold (playout_on x).
  assert (forall d, timescaling d = false -> d <> DO_ACCELERATE /\ d <> DO_PREEMPTIVE_EXPAND)
    as Hno by (by intros []).
  assert (forall d (P Q R : Prop), timescaling d = false ->
    (d = DO_ACCELERATE \/ d = DO_PREEMPTIVE_EXPAND -> P) /\ (d = DO_ACCELERATE -> Q) /\
    (d = DO_PREEMPTIVE_EXPAND -> R)) as Hfalse
    by (intros d P Q R Hd; destruct (Hno d Hd); intuition congruence).
  destruct (playout_on x); [|intros; apply Hfalse, decide_off_no_timescaling].
  unfold decide_on.
  destruct (Z.eqb_spec (ba_prevPlayMode x) MODE_ERROR).
  { intros. apply Hfalse. by destruct (ba_noPacket x). }
  set (inst2 := inst1 <| bs_noExpand := _ |>).
  destruct (ba_cngPacket x) eqn:Ecng.
  { destruct (decide_cng_packet inst2 x) as [d inst3] eqn:Ed. intros. apply Hfalse.
    destruct (decide_cng_packet_cases inst2 x) as [E|E]; rewrite Ed in E; simpl in E; by subst d. }
  destruct (ba_noPacket x) eqn:Eno.
  { intros. apply Hfalse. by repeat case_match. }
  unfold REINIT_AFTER_EXPANDS. destruct (Z.ltb_spec 100 (ba_NoOfExpandCalls x)).
  { intros. by apply Hfalse. }
  change (if (0 <? am_extraDelayMs (bs_Automode inst2)) && _ then _ else 0)
    with (extra_q8 (bs_Automode inst2) (ba_fs_mult x)).
  cbv zeta. intros Ht He. set (e := extra_q8 (bs_Automode inst2) (ba_fs_mult x)) in *.
  destruct (Z.eqb_spec (ba_targetTS x) (ba_availableTS x));
    [|destruct (_ <? _); apply Hfalse; [apply decide_future_no_timescaling|done]].
  destruct ((bs_noExpand inst2 =? 1) && (ba_playDtmf x =? 0)) eqn:Ecase; [|by apply Hfalse].
  bool_lia. destruct (decide_timescale_levels (bs_Automode inst2) x e Ht He) as [Hacc Hpre].
  split; [|by split]. intros _. unfold inst2 in *. simpl in *.
  destruct (Z.eqb_spec (ba_prevPlayMode x) MODE_EXPAND), (Z.eqb_spec (ba_prevPlayMode x) MODE_FADE_TO_BGN);
    simpl in *; try discriminate. split_and!; done || lia.
Qed.

Definition ex_scale_args : BufArgs :=
  mkBufArgs 160 1280 1000 1000 false false MODE_NORMAL kPlayoutOn 80 0 1 false 0.

Example BufstatsDecision_timescale_witness :
  (BufstatsDecision ex_stats ex_scale_args).1 = DO_ACCELERATE /\
  am_optBufLevel (bs_Automode (BufstatsDecision ex_stats ex_scale_args).2)
    <= am_buffLevelFilt (bs_Automode (BufstatsDecision ex_stats ex_scale_args).2).
Proof.
  split; [reflexivity|].
  refine (proj1 (proj1 (proj2 (BufstatsDecision_timescale ex_stats ex_scale_args _ _)) _));
    [vm_compute; split; discriminate|vm_compute; discriminate|reflexivity].
Defined.
