(* ===== verification/Split.v ===== *)
(** Splitting a packet into frames before it enters the packet buffer:
    [split_and_insert.c]. *)
From S2P Require Import Prelude Rtp CodecDb PacketBuffer.

Definition PBUFFER_INSERT_ERROR1 : Z := -4002.
Definition PBUFFER_INSERT_ERROR2 : Z := -4003.
Definition PBUFFER_INSERT_ERROR3 : Z := -4004.
Definition PBUFFER_INSERT_ERROR4 : Z := -4005.
Definition PBUFFER_INSERT_ERROR5 : Z := -4006.

(** ** The program *)

(** "Find chunk size": halving while at least [limit]. *)
Fixpoint halve_below (fuel : nat) (limit split_size : Z) : option Z :=
  match fuel with
  | O => None
  | S fuel => if limit <=? split_size then halve_below fuel limit (Z.shiftr split_size 1)
              else Some split_size
  end.

(** The chunk size of soft splitting, made even. *)
Definition soft_split_size (payloadLen deltaTime mult : Z) : option Z :=
  split_size ← halve_below (S (Z.to_nat payloadLen)) (Z.shiftl 80 deltaTime * mult) payloadLen;
  Some (if 1 <? split_size then Z.shiftr split_size 1 * 2 else split_size).

(** The state of the loops: the result of an early return, or the packet with
    [len] bytes left, the flush flag and the buffer. *)
Definition split_state : Type := (Z * bool * PacketBuf) + (RTPPacket * Z * bool * PacketBuf).

Fixpoint soft_loop (fuel : nat) (start : list Z) (split_size deltaTime i : Z) (tmp : RTPPacket)
    (len : Z) (flushed : bool) (buf : PacketBuf) (av_sync : bool) : option split_state :=
  match fuel with
  | O => None
  | S fuel =>
      if 2 * split_size <=? len then
        '(i_ok, localFlushed, buf) ← PacketBufferInsert buf tmp av_sync;
        let flushed := flushed || localFlushed in
        let tmp := tmp <| rtp_timeStamp := u32 (rtp_timeStamp tmp
                            + Z.shiftr (2 * split_size) deltaTime) |> in
        let i := i + 1 in
        let tmp := tmp <| rtp_payload := ptr_w16 start (Z.shiftr (i * split_size) 1) |>
                       <| rtp_starts_byte1 := Z.lxor (rtp_starts_byte1 tmp)
                                                     (Z.land split_size 1) |> in
        let len := len - split_size in
        if i_ok <? 0 then Some (inl (PBUFFER_INSERT_ERROR1, flushed, buf))
        else soft_loop fuel start split_size deltaTime i tmp len flushed buf av_sync
      else Some (inr (tmp, len, flushed, buf))
  end.

Fixpoint hard_loop (fuel : nat) (start : list Z) (deltaBytes deltaTime i : Z) (tmp : RTPPacket)
    (len : Z) (flushed : bool) (buf : PacketBuf) (av_sync : bool) : option split_state :=
  match fuel with
  | O => None
  | S fuel =>
      if deltaBytes <=? len then
        let tmp := tmp <| rtp_payloadLen := s16 deltaBytes |> in
        '(i_ok, localFlushed, buf) ← PacketBufferInsert buf tmp av_sync;
        let flushed := flushed || localFlushed in
        let i := i + 1 in
        let tmp := tmp <| rtp_payload := ptr_w16 start (Z.shiftr (i * deltaBytes) 1) |>
                       <| rtp_timeStamp := u32 (rtp_timeStamp tmp + deltaTime) |>
                       <| rtp_starts_byte1 := Z.lxor (rtp_starts_byte1 tmp)
                                                     (Z.land deltaBytes 1) |> in
        if i_ok <? 0 then Some (inl (PBUFFER_INSERT_ERROR3, flushed, buf))
        else hard_loop fuel start deltaBytes deltaTime i tmp (len - deltaBytes) flushed buf av_sync
      else Some (inr (tmp, len, flushed, buf))
  end.

(** One insertion of the rest, with its error code. *)
Definition insert_rest (tmp : RTPPacket) (len : Z) (flushed : bool) (buf : PacketBuf)
    (av_sync : bool) (error : Z) : option (Z * bool * PacketBuf) :=
  '(i_ok, localFlushed, buf) ← PacketBufferInsert buf (tmp <| rtp_payloadLen := s16 len |>) av_sync;
  Some (if i_ok <? 0 then error else 0, flushed || localFlushed, buf).

(** The result is the return value, [*flushed] and the buffer. *)
Definition SplitAndInsertPayload (packet : RTPPacket) (buf : PacketBuf) (split_inst : SplitInfo)
    (av_sync : bool) : option (Z * bool * PacketBuf) :=
  is_sync_rtp ← (if av_sync then IsSyncPayload (rtp_payload packet) (rtp_payloadLen packet)
                 else Some false);
  let len := rtp_payloadLen packet in
  if (si_deltaBytes split_inst =? NO_SPLIT) || is_sync_rtp then
    '(i_ok, localFlushed, buf) ← PacketBufferInsert buf packet av_sync;
    Some (if i_ok <? 0 then PBUFFER_INSERT_ERROR5 else 0, localFlushed, buf)
  else if si_deltaBytes split_inst <? -10 then
    let mult := Z.abs (si_deltaBytes split_inst) - 10 in
    split_size ← soft_split_size len (si_deltaTime split_inst) mult;
    let tmp := packet <| rtp_payloadLen := s16 split_size |> in
    st ← soft_loop (S (Z.to_nat len)) (rtp_payload tmp) split_size (si_deltaTime split_inst)
           0 tmp len false buf av_sync;
    match st with
    | inl r => Some r
    | inr (tmp, len, flushed, buf) =>
        insert_rest tmp len flushed buf av_sync PBUFFER_INSERT_ERROR2
    end
  else
    st ← hard_loop (S (Z.to_nat len)) (rtp_payload packet) (si_deltaBytes split_inst)
           (si_deltaTime split_inst) 0 packet len false buf av_sync;
    match st with
    | inl r => Some r
    | inr (tmp, len, flushed, buf) =>
        if 0 <? len then insert_rest tmp len flushed buf av_sync PBUFFER_INSERT_ERROR4
        else Some (0, flushed, buf)
    end.

(** ** Specification: a sequence of insertions *)

(** Inserting packets one after the other; each comes with the error code that
    ends the sequence when its insertion fails. *)
Fixpoint insert_seq (l : list (RTPPacket * Z)) (flushed : bool) (buf : PacketBuf)
    (av_sync : bool) : option (Z * bool * PacketBuf) :=
  match l with
  | [] => Some (0, flushed, buf)
  | (p, error) :: l =>
      '(i_ok, localFlushed, buf) ← PacketBufferInsert buf p av_sync;
      if i_ok <? 0 then Some (error, flushed || localFlushed, buf)
      else insert_seq l (flushed || localFlushed) buf av_sync
  end.

(** The payload of a packet, which may start at its second byte. *)
Definition payload_bytes (p : RTPPacket) : list Z :=
  take (Z.to_nat (rtp_payloadLen p))
    (drop (if rtp_starts_byte1 p =? 0 then 0%nat else 1%nat) (rtp_payload p)).

(** Chunk [k] of [packet], [l] bytes long, for chunks of [d] bytes and [t]
    time stamp units. *)
Definition chunk (packet : RTPPacket) (d t k l : Z) : RTPPacket :=
  mkRTPPacket (rtp_seqNumber packet) (u32 (rtp_timeStamp packet + k * t)) (rtp_ssrc packet)
    (rtp_payloadType packet) (ptr_w16 (rtp_payload packet) (Z.shiftr (k * d) 1)) l
    (Z.lxor (rtp_starts_byte1 packet) (Z.land (k * d) 1)) (rtp_rcuPlCntr packet).

(** Chunks [k] to [n - 1]. *)
Definition chunks (packet : RTPPacket) (d t error k n : Z) : list (RTPPacket * Z) :=
  (fun k => (chunk packet d t k d, error)) <$> seqZ k (n - k).

Lemma land_1 x : Z.land x 1 = x mod 2.
Proof. exact (land_ones_mod x 1 ltac:(lia)). Qed.

Lemma land_1_add x y : Z.land (x + y) 1 = Z.lxor (Z.land x 1) (Z.land y 1).
Proof.
  rewrite !land_1.
  rewrite Z.add_mod by done.
  destruct (Z.mod_pos_bound x 2), (Z.mod_pos_bound y 2); try done.
  assert (x mod 2 = 0 \/ x mod 2 = 1) as [->| ->] by lia;
    assert (y mod 2 = 0 \/ y mod 2 = 1) as [->| ->] by lia; done.
Qed.

Lemma chunk_first packet d t :
  in_u32 (rtp_timeStamp packet) -> chunk packet d t 0 (rtp_payloadLen packet) = packet.
Proof.
  intros Hts. unfold chunk. rewrite !Z.mul_0_l, Z.add_0_r, u32_id, Z.lxor_0_r by done.
  by destruct packet.
Qed.

(** The loops advance a chunk to the next one. *)
Lemma chunk_next packet d t k l :
  chunk packet d t (k + 1) l =
    (chunk packet d t k l)
      <| rtp_timeStamp := u32 (rtp_timeStamp (chunk packet d t k l) + t) |>
      <| rtp_payload := ptr_w16 (rtp_payload packet) (Z.shiftr ((k + 1) * d) 1) |>
      <| rtp_starts_byte1 := Z.lxor (rtp_starts_byte1 (chunk packet d t k l)) (Z.land d 1) |>.
Proof.
  unfold chunk. cbn. f_equal.
  - replace (rtp_timeStamp packet + (k + 1) * t) with (rtp_timeStamp packet + k * t + t) by ring.
    generalize (rtp_timeStamp packet + k * t). intros x. wrap_lia.
  - rewrite Z.mul_add_distr_r, Z.mul_1_l, land_1_add. symmetry; apply Z.lxor_assoc.
Qed.

Lemma chunks_step packet d t e k n :
  k < n -> chunks packet d t e k n = (chunk packet d t k d, e) :: chunks packet d t e (k + 1) n.
Proof.
  intros Hk. unfold chunks. rewrite seqZ_cons by lia.
  by replace (Z.pred (n - k)) with (n - (k + 1)) by lia.
Qed.

Lemma chunks_done packet d t e k n : n <= k -> chunks packet d t e k n = [].
Proof. intros Hk. unfold chunks. by rewrite seqZ_nil by lia. Qed.

(** ** The loops are sequences of insertions *)

Definition rest_of (r : option split_state) (av_sync : bool) (error : Z) (all : bool)
    : option (Z * bool * PacketBuf) :=
  st ← r;
  match st with
  | inl r => Some r
  | inr (tmp, len, flushed, buf) =>
      if all || (0 <? len) then insert_rest tmp len flushed buf av_sync error
      else Some (0, flushed, buf)
  end.

Lemma insert_rest_seq tmp len flushed buf av_sync error :
  insert_rest tmp len flushed buf av_sync error
  = insert_seq [(tmp <| rtp_payloadLen := s16 len |>, error)] flushed buf av_sync.
Proof.
  unfold insert_rest. cbn [insert_seq].
  destruct (PacketBufferInsert _ _ _) as [[[i_ok fl] b]|]; [|done]. cbn.
  by destruct (i_ok <? 0).
Qed.

Lemma soft_loop_seq packet d dt n r fuel k flushed buf av_sync :
  0 < d -> 0 <= r < d -> 0 <= k <= n -> n - k < Z.of_nat fuel -> (n + 1) * d + r < 32768 ->
  rest_of (soft_loop fuel (rtp_payload packet) d dt k
             (chunk packet d (Z.shiftr (2 * d) dt) k d) ((n + 1 - k) * d + r) flushed buf av_sync)
    av_sync PBUFFER_INSERT_ERROR2 true
  = insert_seq (chunks packet d (Z.shiftr (2 * d) dt) PBUFFER_INSERT_ERROR1 k n
                ++ [(chunk packet d (Z.shiftr (2 * d) dt) n (d + r), PBUFFER_INSERT_ERROR2)])
      flushed buf av_sync.
Proof.
  intros Hd Hr. revert k flushed buf.
  induction fuel as [|fuel IH]; intros k flushed buf Hk Hf Hmax; [lia|].
  cbn [soft_loop]. destruct (Z.eq_dec k n) as [->|Hne].
  - destruct (Z.leb_spec (2 * d) ((n + 1 - n) * d + r)); [lia|].
    rewrite chunks_done by lia. unfold rest_of. cbn [mbind option_bind orb app].
    rewrite insert_rest_seq. do 3 f_equal.
    replace ((n + 1 - n) * d + r) with (d + r) by ring. rewrite s16_id by (simpl; nia). done.
  - destruct (Z.leb_spec (2 * d) ((n + 1 - k) * d + r)); [|nia].
    rewrite chunks_step by lia. cbn [app insert_seq].
    destruct (PacketBufferInsert _ _ _) as [[[i_ok fl] b]|]; [|done]. cbn [mbind option_bind].
    destruct (i_ok <? 0); [done|]. rewrite <- IH by lia.
    rewrite chunk_next. f_equal. f_equal. ring.
Qed.

Lemma hard_loop_seq packet d t n r fuel k l0 flushed buf av_sync :
  0 < d -> 0 <= r < d -> 0 <= k <= n -> n - k < Z.of_nat fuel -> n * d + r < 32768 ->
  rest_of (hard_loop fuel (rtp_payload packet) d t k
             (chunk packet d t k l0) ((n - k) * d + r) flushed buf av_sync)
    av_sync PBUFFER_INSERT_ERROR4 false
  = insert_seq (chunks packet d t PBUFFER_INSERT_ERROR3 k n
                ++ (if 0 <? r then [(chunk packet d t n r, PBUFFER_INSERT_ERROR4)] else []))
      flushed buf av_sync.
Proof.
  intros Hd Hr. revert k l0 flushed buf.
  induction fuel as [|fuel IH]; intros k l0 flushed buf Hk Hf Hmax; [lia|].
  cbn [hard_loop]. destruct (Z.eq_dec k n) as [->|Hne].
  - destruct (Z.leb_spec d ((n - n) * d + r)); [lia|].
    rewrite chunks_done by lia. unfold rest_of. cbn [mbind option_bind orb app].
    replace ((n - n) * d + r) with r by ring.
    destruct (Z.ltb_spec 0 r); [|done].
    rewrite insert_rest_seq, s16_id by (simpl; nia). done.
  - destruct (Z.leb_spec d ((n - k) * d + r)); [|nia].
    rewrite chunks_step by lia. cbn [app insert_seq].
    rewrite s16_id by (simpl; nia).
    change ((chunk packet d t k l0) <| rtp_payloadLen := d |>) with (chunk packet d t k d).
    destruct (PacketBufferInsert _ _ _) as [[[i_ok fl] b]|]; [|done]. cbn [mbind option_bind].
    destruct (i_ok <? 0); [done|]. rewrite <- (IH _ d) by lia.
    rewrite chunk_next. f_equal. 
    replace ((n - (k + 1)) * d + r) with ((n - k) * d + r - d) by ring. done.
Qed.

(** ** The chunks partition the payload *)

Lemma even_land d : Z.even d = true -> Z.land d 1 = 0.
Proof.
  intros H. rewrite land_1. apply Z.even_spec in H as [q ->]. by rewrite Z.mul_comm, Z.mod_mul.
Qed.

Lemma payload_bytes_chunk packet d t k l :
  0 <= d -> 0 <= k ->
  (rtp_starts_byte1 packet = 0 \/ rtp_starts_byte1 packet = 1 /\ Z.even d = true) ->
  payload_bytes (chunk packet d t k l)
  = take (Z.to_nat l) (drop (Z.to_nat (k * d))
      (drop (if rtp_starts_byte1 packet =? 0 then 0%nat else 1%nat) (rtp_payload packet))).
Proof.
  intros Hd Hk Hs. unfold payload_bytes, chunk, ptr_w16. cbn. f_equal.
  rewrite !drop_drop, Z.shiftr_div_pow2 by done. change (2 ^ 1) with 2. f_equal.
  assert (0 <= k * d) by nia.
  destruct Hs as [-> | [-> He]]; cbn [Z.eqb].
  - rewrite Z.lxor_0_l, land_1.
    pose proof (Z.mod_pos_bound (k * d) 2). pose proof (Z.div_mod (k * d) 2).
    destruct (Z.eqb_spec ((k * d) mod 2) 0); lia.
  - assert (Z.even (k * d) = true) as He2 by (rewrite Z.even_mul, He; by destruct (Z.even k)).
    rewrite even_land by done. cbn.
    apply Z.even_spec in He2 as [q Hq]. rewrite Hq.
    assert (2 * q / 2 = q) as -> by (rewrite Z.mul_comm; by apply Z.div_mul). change (Z.lxor 1 0 =? 0) with false. cbv iota. lia.
Qed.

(** From an odd address and with an odd size, every second chunk is taken two bytes too
    early: the pointer is rounded down although the first byte is not skipped. *)
Lemma payload_bytes_misaligned packet d t k l :
  0 <= d -> 0 <= k -> rtp_starts_byte1 packet = 1 -> Z.even d = false ->
  payload_bytes (chunk packet d t k l)
  = take (Z.to_nat l) (drop (Z.to_nat (k * d + if Z.even k then 1 else -1)) (rtp_payload packet)).
Proof.
  intros Hd Hk Hs He. unfold payload_bytes, chunk, ptr_w16. cbn. f_equal.
  rewrite !drop_drop, Z.shiftr_div_pow2 by done. change (2 ^ 1) with 2. f_equal. rewrite Hs, land_1.
  assert (0 <= k * d) by nia.
  assert ((k * d) mod 2 = if Z.even k then 0 else 1) as Em.
  { rewrite Zmod_even, Z.even_mul, He, orb_false_r. done. }
  assert (Z.even k = false -> 1 <= k * d) by (intros Hodd; assert (k <> 0) by (by intros ->); assert (d <> 0) by (by intros ->); nia).
  rewrite Em. pose proof (Z.div_mod (k * d) 2).
  destruct (Z.even k); [change (Z.lxor 1 0 =? 0) with false|change (Z.lxor 1 1 =? 0) with true]; cbv iota; lia.
Qed.

Lemma chunks_partition packet d t e n l rest :
  0 <= d -> 0 <= n -> 0 <= l ->
  (rtp_starts_byte1 packet = 0 \/ rtp_starts_byte1 packet = 1 /\ Z.even d = true) ->
  concat (payload_bytes ∘ fst <$> rest)
    = take (Z.to_nat l) (drop (Z.to_nat (n * d))
        (drop (if rtp_starts_byte1 packet =? 0 then 0%nat else 1%nat) (rtp_payload packet))) ->
  n * d + l = rtp_payloadLen packet ->
  concat (payload_bytes ∘ fst <$> chunks packet d t e 0 n ++ rest) = payload_bytes packet.
Proof.
  intros Hd Hn Hl Hs Hrest Hlen.
  unfold payload_bytes at 2. rewrite <- Hlen.
  set (X := drop _ (rtp_payload packet)) in *.
  assert (forall m k, Z.of_nat m = n - k -> 0 <= k ->
    concat (payload_bytes ∘ fst <$> chunks packet d t e k n ++ rest)
    = take (Z.to_nat ((n - k) * d + l)) (drop (Z.to_nat (k * d)) X)) as H.
  { induction m as [|m IH]; intros k Hm Hk.
    - rewrite chunks_done by lia. replace k with n by lia. simpl. rewrite Hrest.
      by replace ((n - n) * d + l) with l by ring.
    - rewrite chunks_step by lia. rewrite <- app_comm_cons, fmap_cons. cbn [concat].
      rewrite IH by lia. cbn [compose fst]. rewrite payload_bytes_chunk by done. fold X.
      replace (drop (Z.to_nat ((k + 1) * d)) X) with (drop (Z.to_nat d) (drop (Z.to_nat (k * d)) X))
        by (rewrite drop_drop; f_equal; nia).
      replace (Z.to_nat ((n - k) * d + l)) with (Z.to_nat d + Z.to_nat ((n - (k + 1)) * d + l))%nat
        by nia.
      by rewrite take_take_drop. }
  rewrite (H (Z.to_nat n)) by lia. replace ((n - 0) * d + l) with (n * d + l) by ring.
  by rewrite drop_0.
Qed.

(** A sync packet has seven bytes, and is only recognised in AV-sync mode. *)
Definition not_sync (p : RTPPacket) (av_sync : bool) : Prop :=
  av_sync = false \/ rtp_payloadLen p <> SYNC_PAYLOAD_LEN_BYTES.

Lemma not_sync_false p av_sync :
  not_sync p av_sync ->
  (if av_sync then IsSyncPayload (rtp_payload p) (rtp_payloadLen p) else Some false) = Some false.
Proof.
  intros [-> | H]; [done|]. destruct av_sync; [|done]. unfold IsSyncPayload.
  by rewrite (proj2 (Z.eqb_neq _ _) H).
Qed.

(** C9. Hard splitting (frame based codecs): a packet that is not an AV-sync packet is
    inserted as its frames of [deltaBytes] bytes, in order, then the rest if there is
    one; frame [k] has the time stamp of the packet plus [k * deltaTime]; an insertion
    that fails ends the sequence with its error code, and the flush flag is the union of
    those of the insertions.  The frames are consecutive pieces of the payload and make
    it up, when the payload starts at an even address or [deltaBytes] is even; otherwise
    (an odd frame size in a redundant packet) frame [k] is in its place for even [k] only
    and is taken two bytes too early for odd [k]. *)
Theorem SplitAndInsert_hard packet buf d t av_sync
    (Hts : in_u32 (rtp_timeStamp packet)) (Hlen : 0 <= rtp_payloadLen packet < 32768)
    (Hd : 0 < d)
    (Hs : rtp_starts_byte1 packet = 0 \/ rtp_starts_byte1 packet = 1)
    (Hsync : not_sync packet av_sync) :
  let n := rtp_payloadLen packet / d in
  let r := rtp_payloadLen packet mod d in
  let l := chunks packet d t PBUFFER_INSERT_ERROR3 0 n
           ++ (if 0 <? r then [(chunk packet d t n r, PBUFFER_INSERT_ERROR4)] else []) in
  SplitAndInsertPayload packet buf (mkSplitInfo d t) av_sync = insert_seq l false buf av_sync /\
  if (rtp_starts_byte1 packet =? 0) || Z.even d
  then concat (payload_bytes ∘ fst <$> l) = payload_bytes packet
  else forall k p err, l !! k = Some (p, err) -> payload_bytes p =
    take (Z.to_nat (rtp_payloadLen p))
      (drop (Z.to_nat (Z.of_nat k * d + if Z.even (Z.of_nat k) then 1 else -1)) (rtp_payload packet)).
Proof.
  intros n r l.
  pose proof (Z.div_mod (rtp_payloadLen packet) d ltac:(lia)) as Hdm.
  pose proof (Z.mod_pos_bound (rtp_payloadLen packet) d ltac:(lia)) as Hr.
  assert (0 <= n) by (apply Z.div_pos; lia). fold n r in Hdm, Hr.
  split.
  - unfold SplitAndInsertPayload, NO_SPLIT. rewrite not_sync_false by done.
    cbn [mbind option_bind si_deltaBytes si_deltaTime].
    destruct (Z.eqb_spec d (-1)), (Z.ltb_spec d (-10)); try lia. cbn [orb].
    unfold l. rewrite <- (hard_loop_seq packet d t n r (S (Z.to_nat (rtp_payloadLen packet))) 0
      (rtp_payloadLen packet)) by nia.
    rewrite chunk_first by done. replace ((n - 0) * d + r) with (rtp_payloadLen packet) by lia.
    done.
  - destruct ((rtp_starts_byte1 packet =? 0) || Z.even d) eqn:Ha.
    + assert (rtp_starts_byte1 packet = 0 \/ rtp_starts_byte1 packet = 1 /\ Z.even d = true) as Hs'.
      { apply orb_true_iff in Ha as [Ha%Z.eqb_eq|Ha]; [by left|]. destruct Hs; [by left|by right]. }
      unfold l. apply (chunks_partition _ _ _ _ _ r); try done; try lia.
      destruct (Z.ltb_spec 0 r).
      * cbn. rewrite app_nil_r. by apply payload_bytes_chunk; [lia|..].
      * replace r with 0 by lia. done.
    + apply orb_false_iff in Ha as [Ha%Z.eqb_neq He]. destruct Hs as [|Hs]; [done|].
      assert (Hpos : forall k l0, 0 <= k -> payload_bytes (chunk packet d t k l0) =
        take (Z.to_nat l0) (drop (Z.to_nat (k * d + if Z.even k then 1 else -1)) (rtp_payload packet)))
        by (intros; apply payload_bytes_misaligned; [lia|done..]).
      intros k p err [Hk|[Hk Hr']]%lookup_app_Some.
      * unfold chunks in Hk. rewrite list_lookup_fmap in Hk.
        destruct (seqZ 0 (n - 0) !! k) as [j|] eqn:Ej; [|done]. apply lookup_seqZ in Ej as [-> Hj].
        injection Hk as <- _. rewrite Hpos by lia. done.
      * unfold chunks in Hr', Hk. rewrite length_fmap, length_seqZ in Hr', Hk.
        destruct (0 <? r); [|done]. apply list_lookup_singleton_Some in Hr' as [Hk0 [= <- _]].
        assert (Z.of_nat k = n) as -> by lia. by rewrite Hpos.
Qed.

(** The halving loop ends below the limit, and not below half of it when it
    started above. *)
Lemma halve_below_spec fuel h x :
  0 < h -> 0 <= x < Z.of_nat fuel ->
  exists y, halve_below fuel (2 * h) x = Some y /\ 0 <= y < 2 * h /\ y <= x /\
    (x < 2 * h -> y = x) /\ (2 * h <= x -> h <= y).
Proof.
  intros Hh. revert x. induction fuel as [|fuel IH]; intros x Hx; [lia|].
  cbn [halve_below]. destruct (Z.leb_spec (2 * h) x); [|exists x; split_and!; try done; lia].
  rewrite Z.shiftr_div_pow2 by done. change (2 ^ 1) with 2.
  assert (h <= x / 2 < x) by (Z.to_euclidean_division_equations; lia).
  destruct (IH (x / 2)) as (y & -> & Hy1 & Hy2 & Hy3 & Hy4); [lia|].
  exists y. split_and!; try done; try lia.
Qed.

Lemma soft_split_size_spec payloadLen deltaTime mult :
  0 < payloadLen -> 0 <= deltaTime -> 0 < mult ->
  exists d, soft_split_size payloadLen deltaTime mult = Some d /\
    0 < d <= payloadLen /\ (Z.even d = true \/ payloadLen = 1) /\
    d < Z.shiftl 80 deltaTime * mult /\
    (Z.shiftl 80 deltaTime * mult <= payloadLen -> Z.shiftl 80 deltaTime * mult <= 2 * d).
Proof.
  intros Hl Ht Hm. unfold soft_split_size. rewrite Z.shiftl_mul_pow2 by done.
  set (g := 2 ^ deltaTime * mult). assert (0 < g) by (unfold g; pose proof (Z.pow_pos_nonneg 2 deltaTime); nia).
  replace (80 * 2 ^ deltaTime * mult) with (2 * (40 * g)) by (unfold g; ring). clearbody g.
  destruct (halve_below_spec (S (Z.to_nat payloadLen)) (40 * g) payloadLen)
    as (y & -> & Hy1 & Hyle & Hy2 & Hy3); [lia|lia|]. cbn [mbind option_bind].
  eexists. split; [done|]. rewrite Z.shiftr_div_pow2 by done. change (2 ^ 1) with 2.
  destruct (Z.ltb_spec 1 y).
  - split; [Z.to_euclidean_division_equations; lia|].
    split; [left; rewrite Z.even_mul; apply orb_true_r|].
    Z.to_euclidean_division_equations; lia.
  - assert (y = 1) as ->.
    { destruct (Z.lt_ge_cases payloadLen (2 * (40 * g))); [rewrite Hy2 in * by done|]; lia. }
    lia.
Qed.

(** C10. Soft splitting (sample based codecs): a packet that is not an AV-sync packet is
    inserted as chunks of one size [d], which is even (but for a packet of one byte),
    below the 40 ms limit and, when the packet reaches that limit, at least half of it
    (20 ms), then a last chunk of [d] to [2 d - 1] bytes; the chunks are consecutive
    pieces of the payload, wherever it starts, and make it up; each has the time stamp of
    its first sample; an insertion that fails ends the sequence with its error code. *)
Theorem SplitAndInsert_soft packet buf delta dt av_sync
    (Hts : in_u32 (rtp_timeStamp packet)) (Hlen : 0 < rtp_payloadLen packet < 32768)
    (Hdelta : delta < -10) (Hdt : 0 <= dt)
    (Hs : rtp_starts_byte1 packet = 0 \/ rtp_starts_byte1 packet = 1)
    (Hsync : not_sync packet av_sync) :
  let limit := Z.shiftl 80 dt * (Z.abs delta - 10) in
  exists d n,
    let dur := Z.shiftr (2 * d) dt in
    let last := rtp_payloadLen packet - n * d in
    let l := chunks packet d dur PBUFFER_INSERT_ERROR1 0 n
             ++ [(chunk packet d dur n last, PBUFFER_INSERT_ERROR2)] in
    SplitAndInsertPayload packet buf (mkSplitInfo delta dt) av_sync = insert_seq l false buf av_sync /\
    concat (payload_bytes ∘ fst <$> l) = payload_bytes packet /\
    (Z.even d = true \/ rtp_payloadLen packet = 1) /\
    0 < d < limit /\ (limit <= rtp_payloadLen packet -> limit <= 2 * d) /\ d <= last < 2 * d.
Proof.
  intros limit.
  destruct (soft_split_size_spec (rtp_payloadLen packet) dt (Z.abs delta - 10))
    as (d & Hsize & Hd & Heven & Hlim & Hhalf); [lia..|]. fold limit in Hlim, Hhalf.
  pose proof (Z.div_mod (rtp_payloadLen packet) d ltac:(lia)) as Hdm.
  pose proof (Z.mod_pos_bound (rtp_payloadLen packet) d ltac:(lia)) as Hr.
  assert (1 <= rtp_payloadLen packet / d) by (apply Z.div_le_lower_bound; lia).
  set (r := rtp_payloadLen packet mod d) in *.
  exists d, (rtp_payloadLen packet / d - 1).
  set (n := rtp_payloadLen packet / d - 1) in *.
  replace (rtp_payloadLen packet / d) with (n + 1) in * by lia.
  intros dur last l. assert (last = d + r) as Hlast by (unfold last; nia).
  split; [|split; [|split; [done|split; [lia|split; [done|lia]]]]].
  - unfold SplitAndInsertPayload, NO_SPLIT. rewrite not_sync_false by done.
    cbn [mbind option_bind si_deltaBytes si_deltaTime].
    destruct (Z.eqb_spec delta (-1)), (Z.ltb_spec delta (-10)); try lia. cbn [orb].
    rewrite Hsize. cbn [mbind option_bind]. rewrite s16_id by (simpl; lia).
    unfold l. rewrite Hlast. unfold dur.
    rewrite <- (soft_loop_seq packet d dt n r (S (Z.to_nat (rtp_payloadLen packet))) 0)
      by nia.
    replace ((n + 1 - 0) * d + r) with (rtp_payloadLen packet) by lia.
    assert (chunk packet d (Z.shiftr (2 * d) dt) 0 d = packet <| rtp_payloadLen := d |>) as ->
      by (rewrite <- (chunk_first packet d (Z.shiftr (2 * d) dt)) at 2 by done; done).
    done.
  - unfold l.
    assert (rtp_starts_byte1 packet = 0 \/ rtp_starts_byte1 packet = 1 /\ Z.even d = true \/
            (n = 0 /\ rtp_payloadLen packet = 1)) as Hcases.
    { destruct Hs as [?|?], Heven as [?|E1]; auto. right. right. split; [|done]. nia. }
    destruct Hcases as [Hc|[Hc|[Hn E1]]].
    + apply (chunks_partition _ _ _ _ _ last); [lia|lia|lia|by left| |lia].
      cbn. rewrite app_nil_r. apply payload_bytes_chunk; [lia|lia|by left].
    + apply (chunks_partition _ _ _ _ _ last); [lia|lia|lia|by right| |lia].
      cbn. rewrite app_nil_r. apply payload_bytes_chunk; [lia|lia|by right].
    + rewrite Hn, chunks_done by lia. cbn. rewrite app_nil_r.
      replace last with (rtp_payloadLen packet) by lia.
      unfold payload_bytes, chunk. cbn. rewrite Z.lxor_0_r. done.
Qed.

(** A 60 ms packet of a 8 kHz, 16-bit codec ([deltaTime] 1 bit per byte). *)
Definition ex_split_packet : RTPPacket :=
  mkRTPPacket 7 1000 1 0 (replicate 480 1) 480 0 0.

Definition ex_split_buf : PacketBuf :=
  mkPacketBuf 0 true (replicate 2000 0) 1000 0 0 0 10 (replicate 10 zero_slot) 0.

Example SplitAndInsert_soft_witness :
  exists d n,
    let l := chunks ex_split_packet d (Z.shiftr (2 * d) 1) PBUFFER_INSERT_ERROR1 0 n
             ++ [(chunk ex_split_packet d (Z.shiftr (2 * d) 1) n (480 - n * d), PBUFFER_INSERT_ERROR2)] in
    SplitAndInsertPayload ex_split_packet ex_split_buf (mkSplitInfo (-11) 1) true = insert_seq l false ex_split_buf true /\
    concat (payload_bytes ∘ fst <$> l) = replicate 480 1 /\ (Z.even d = true \/ 480 = 1) /\ 0 < d < 160 /\
    (160 <= 480 -> 160 <= 2 * d) /\ d <= 480 - n * d < 2 * d.
Proof.
  assert (not_sync ex_split_packet true) as Hsync by (right; discriminate).
  destruct (SplitAndInsert_soft ex_split_packet ex_split_buf (-11) 1 true ltac:(simpl; lia) ltac:(simpl; lia)
    ltac:(lia) ltac:(lia) (or_introl eq_refl) Hsync) as (d & n & H1 & H2 & H3 & H4 & H5 & H6).
  exists d, n. cbv zeta. split; [exact H1|]. split; [|split; [exact H3|split; [exact H4|split; [exact H5|exact H6]]]].
  etransitivity; [exact H2|vm_compute; reflexivity].
Defined.

(** Frames of 33 bytes from an odd address. *)
Definition ex_odd_packet : RTPPacket := mkRTPPacket 7 1000 1 3 (seqZ 0 68) 66 1 0.

Example SplitAndInsert_hard_witness :
  SplitAndInsertPayload ex_split_packet ex_split_buf (mkSplitInfo 200 100) false =
    insert_seq (chunks ex_split_packet 200 100 PBUFFER_INSERT_ERROR3 0 2
      ++ [(chunk ex_split_packet 200 100 2 80, PBUFFER_INSERT_ERROR4)]) false ex_split_buf false /\
  payload_bytes ex_split_packet
  = concat (payload_bytes ∘ fst <$> (chunks ex_split_packet 200 100 PBUFFER_INSERT_ERROR3 0 2
      ++ [(chunk ex_split_packet 200 100 2 80, PBUFFER_INSERT_ERROR4)])) /\
  payload_bytes (chunk ex_odd_packet 33 160 1 33) = seqZ 32 33.
Proof.
  destruct (SplitAndInsert_hard ex_split_packet ex_split_buf 200 100 false
    ltac:(simpl; lia) ltac:(simpl; lia) ltac:(lia) (or_introl eq_refl) (or_introl eq_refl)) as [H1 H2].
  destruct (SplitAndInsert_hard ex_odd_packet ex_split_buf 33 160 false
    ltac:(simpl; lia) ltac:(simpl; lia) ltac:(lia) (or_intror eq_refl) (or_introl eq_refl)) as [_ H3].
  split; [exact H1|]. split; [symmetry; exact H2|]. exact (H3 1%nat (chunk ex_odd_packet 33 160 1 33) PBUFFER_INSERT_ERROR3 eq_refl).
Defined.

(** A payload that starts at an odd address (RED) and is split into frames of
    odd length (33 bytes, GSM full rate): the second frame is taken two bytes
    too early, because the pointer is rounded down although the first byte is
    skipped. *)
Example SplitAndInsert_misaligned :
  let p := mkRTPPacket 7 1000 1 3 (seqZ 0 68) 66 1 0 in
  chunks p 33 160 PBUFFER_INSERT_ERROR3 0 2
    = [(p <| rtp_payloadLen := 33 |>, PBUFFER_INSERT_ERROR3);
       (chunk p 33 160 1 33, PBUFFER_INSERT_ERROR3)] /\
  payload_bytes p = seqZ 1 66 /\
  payload_bytes (chunk p 33 160 1 33) = seqZ 32 33.
Proof. by vm_compute. Qed.
