(* ===== verification/RingBuffer.v ===== *)
(** The ring buffer of the echo canceller and of other audio processing
    modules: [audio_processing/utility/ring_buffer.c].

    The memory is a list of elements: one entry stands for the [element_size]
    bytes of an element, so that the byte offsets of the code, which are all
    multiples of [element_size], are element indices.  [size_t] is 64 bits
    wide.  The instance is a valid pointer; a [NULL] [data] is [None]. *)
From S2P Require Import Prelude.

Definition size_t (x : Z) : Z := x mod 18446744073709551616.

(** ** Data *)

Inductive Wrap := SAME_WRAP | DIFF_WRAP.

Record RingBuffer (A : Type) := mkRingBuffer {
  rb_read_pos : Z;        (* size_t *)
  rb_write_pos : Z;       (* size_t *)
  rb_element_count : Z;   (* size_t *)
  rb_element_size : Z;    (* size_t *)
  rb_rw_wrap : Wrap;
  rb_data : list A
}.
#[global] Arguments mkRingBuffer {A}.
#[global] Arguments rb_read_pos {A}.
#[global] Arguments rb_write_pos {A}.
#[global] Arguments rb_element_count {A}.
#[global] Arguments rb_element_size {A}.
#[global] Arguments rb_rw_wrap {A}.
#[global] Arguments rb_data {A}.

#[export] Instance eta_RingBuffer A : Eta (RingBuffer A) := fun r =>
  mkRingBuffer (rb_read_pos r) (rb_write_pos r) (rb_element_count r) (rb_element_size r) (rb_rw_wrap r) (rb_data r).

Section operations.
Context {A : Type}.
Implicit Types (self : RingBuffer A) (data : list A).

(** [element_count * element_size] bytes, a product that wraps, in whole elements. *)
Definition block_elements (element_count element_size : Z) : Z :=
  size_t (element_count * element_size) / element_size.

(** The two [malloc]s: a struct with arbitrary fields and a block with
    arbitrary contents of the size asked for, or failure.  The positions are left
    as they are. *)
Definition CreateBuffer (element_count element_size : Z) (struct : option (RingBuffer A))
    (contents : option (Z -> A)) : option (RingBuffer A) :=
  if (element_count =? 0) || (element_size =? 0) then None
  else
    self ← struct;
    contents ← contents;
    let block := contents <$> seqZ 0 (block_elements element_count element_size) in
    Some (self <| rb_data := block |> <| rb_element_count := element_count |>
               <| rb_element_size := element_size |>).

(** [memset] over the block; [zero] is the element of zero bytes. *)
Definition InitBuffer (zero : A) (self : RingBuffer A) : option (Z * RingBuffer A) :=
  let n := block_elements (rb_element_count self) (rb_element_size self) in
  block ← astore (rb_data self) 0 (replicate (Z.to_nat n) zero);
  Some (0, self <| rb_read_pos := 0 |> <| rb_write_pos := 0 |> <| rb_rw_wrap := SAME_WRAP |>
                <| rb_data := block |>).

Definition available_read (self : RingBuffer A) : Z :=
  match rb_rw_wrap self with
  | SAME_WRAP => size_t (rb_write_pos self - rb_read_pos self)
  | DIFF_WRAP => size_t (rb_element_count self - rb_read_pos self + rb_write_pos self)
  end.

Definition available_write (self : RingBuffer A) : Z :=
  size_t (rb_element_count self - available_read self).

Definition MoveReadPtr (self : RingBuffer A) (element_count : Z) : Z * RingBuffer A :=
  let free_elements := s32 (available_write self) in
  let readable_elements := s32 (available_read self) in
  let read_pos := s32 (rb_read_pos self) in
  let element_count :=
    if readable_elements <? element_count then readable_elements else element_count in
  let element_count :=
    if element_count <? - free_elements then - free_elements else element_count in
  let read_pos := read_pos + element_count in
  let '(read_pos, self) :=
    if s32 (rb_element_count self) <? read_pos
    then (read_pos - s32 (rb_element_count self), self <| rb_rw_wrap := SAME_WRAP |>)
    else (read_pos, self) in
  let '(read_pos, self) :=
    if read_pos <? 0
    then (read_pos + s32 (rb_element_count self), self <| rb_rw_wrap := DIFF_WRAP |>)
    else (read_pos, self) in
  (element_count, self <| rb_read_pos := size_t read_pos |>).

(** The regions to read: offset and length of each, in elements, and the
    number of elements. *)
Definition GetBufferReadRegions (self : RingBuffer A) (element_count : Z)
    : Z * (Z * Z) * (Z * Z) :=
  let readable_elements := available_read self in
  let read_elements :=
    if readable_elements <? element_count then readable_elements else element_count in
  let margin := size_t (rb_element_count self - rb_read_pos self) in
  if margin <? read_elements
  then (read_elements, (rb_read_pos self, margin), (0, read_elements - margin))
  else (read_elements, (rb_read_pos self, read_elements), (0, 0)).

(** Where [*data_ptr] points after a read: into the ring at an offset, or to
    the caller's [data]. *)
Inductive DataPtr := InRing (offset : Z) | InData.

(** [want_ptr] is [data_ptr != NULL].  The result is the return value, the
    contents of [data], [*data_ptr], and the buffer. *)
Definition ReadBuffer (self : RingBuffer A) (want_ptr : bool) (data : option (list A))
    (element_count : Z) : option (Z * option (list A) * option DataPtr * RingBuffer A) :=
  match data with
  | None => Some (0, None, None, self)
  | Some data =>
      let '(read_count, (ptr_1, n_1), (ptr_2, n_2)) := GetBufferReadRegions self element_count in
      '(data, ptr) ←
        (if 0 <? n_2 then
           block_1 ← aload (rb_data self) ptr_1 n_1;
           data ← astore data 0 block_1;
           block_2 ← aload (rb_data self) ptr_2 n_2;
           data ← astore data n_1 block_2;
           Some (data, InData)
         else if negb want_ptr then
           block_1 ← aload (rb_data self) ptr_1 n_1;
           data ← astore data 0 block_1;
           Some (data, InRing ptr_1)
         else Some (data, InRing ptr_1));
      let self := (MoveReadPtr self (s32 read_count)).2 in
      Some (read_count, Some data, if want_ptr then Some ptr else None, self)
  end.

Definition WriteBuffer (self : RingBuffer A) (data : option (list A)) (element_count : Z)
    : option (Z * RingBuffer A) :=
  match data with
  | None => Some (0, self)
  | Some data =>
      let free_elements := available_write self in
      let write_elements :=
        if free_elements <? element_count then free_elements else element_count in
      let margin := size_t (rb_element_count self - rb_write_pos self) in
      '(n, self) ←
        (if margin <? write_elements then
           block ← aload data 0 margin;
           mem ← astore (rb_data self) (rb_write_pos self) block;
           Some (size_t (write_elements - margin),
                 self <| rb_data := mem |> <| rb_write_pos := 0 |> <| rb_rw_wrap := DIFF_WRAP |>)
         else Some (write_elements, self));
      block ← aload data (write_elements - n) n;
      mem ← astore (rb_data self) (rb_write_pos self) block;
      Some (write_elements,
            self <| rb_data := mem |> <| rb_write_pos := size_t (rb_write_pos self + n) |>)
  end.
End operations.

(** ** Representation

    [c] is the memory as seen from the read position, [n] of its elements are
    readable: [take n c] is the queue, oldest element first, and
    [drop n c] the elements already read, the most recent one last. *)
Section proofs.
Context {A : Type}.
Implicit Types (self : RingBuffer A) (data c : list A).

(** The ring position of element [i]. *)
Definition ring_pos (N r i : Z) : Z := if r + i <? N then r + i else r + i - N.

Record ring_rep (N : Z) (c : list A) (n : Z) (self : RingBuffer A) : Prop := {
  rr_size : 0 < N < 2147483648;
  rr_count : rb_element_count self = N;
  rr_data : zlen (rb_data self) = N;
  rr_len : zlen c = N;
  rr_n : 0 <= n <= N;
  rr_read : 0 <= rb_read_pos self <= N;
  rr_write : 0 <= rb_write_pos self <= N;
  rr_wrap : rb_write_pos self = match rb_rw_wrap self with
                                | SAME_WRAP => rb_read_pos self + n
                                | DIFF_WRAP => rb_read_pos self + n - N
                                end;
  rr_view : forall i, 0 <= i < N ->
    aget c i = aget (rb_data self) (ring_pos N (rb_read_pos self) i)
}.

Lemma size_t_id x : 0 <= x < 18446744073709551616 -> size_t x = x.
Proof. intros. unfold size_t. by apply Z.mod_small. Qed.

Lemma available_read_rep N c n self : ring_rep N c n self -> available_read self = n.
Proof.
  intros []. unfold available_read. destruct (rb_rw_wrap self); rewrite size_t_id; lia.
Qed.

Lemma available_write_rep N c n self : ring_rep N c n self -> available_write self = N - n.
Proof.
  intros H. unfold available_write. rewrite (available_read_rep _ _ _ _ H).
  destruct H. rewrite size_t_id; lia.
Qed.

Lemma block_elements_id N element_size :
  0 <= N -> 0 < element_size -> N * element_size < 18446744073709551616 ->
  block_elements N element_size = N.
Proof. intros. unfold block_elements. rewrite size_t_id by nia. apply Z.div_mul. lia. Qed.

(** What [CreateBuffer] leaves, whatever [struct] and [contents] are. *)
Lemma CreateInit_rep zero N element_size (struct : RingBuffer A) contents :
  0 < N < 2147483648 -> 0 < element_size -> N * element_size < 18446744073709551616 ->
  exists self self', CreateBuffer N element_size (Some struct) (Some contents) = Some self /\
    InitBuffer zero self = Some (0, self') /\
    ring_rep N (replicate (Z.to_nat N) zero) 0 self'.
Proof.
  intros HN Hs Hp. unfold CreateBuffer. destruct (Z.eqb_spec N 0), (Z.eqb_spec element_size 0); try lia.
  cbn [orb mbind option_bind]. rewrite block_elements_id by lia. do 2 eexists. split; [reflexivity|].
  unfold InitBuffer. cbn [rb_element_count rb_element_size rb_data upd].
  rewrite block_elements_id by lia.
  assert (zlen (contents <$> seqZ 0 N) = N) as Hl by (unfold zlen; rewrite length_fmap, length_seqZ; lia).
  assert (zlen (replicate (Z.to_nat N) zero) = N) as Hz by (rewrite zlen_replicate; lia).
  assert (astore (contents <$> seqZ 0 N) 0 (replicate (Z.to_nat N) zero) = Some (replicate (Z.to_nat N) zero)) as E.
  { destruct (astore_in (contents <$> seqZ 0 N) (replicate (Z.to_nat N) zero) 0) as (l & E & Hl'); [lia..|].
    rewrite E. f_equal. apply list_eq_aget; [unfold zlen in *; lia|]. intros i Hi. rewrite (aget_astore _ _ _ _ _ E), Hz.
    rewrite decide_True by lia. f_equal. lia. }
  rewrite (bind_eq _ _ _ E). split; [reflexivity|]. split; cbn; rewrite ?Hz; try done; try lia.
  intros i Hi. unfold ring_pos. rewrite Z.add_0_l. by case_if; [|lia].
Qed.

(** Rotation by [k] elements, backwards for a negative [k]. *)
Definition rotate (k : Z) (c : list A) : list A :=
  let j := Z.to_nat (if k <? 0 then zlen c + k else k) in drop j c ++ take j c.

Lemma zlen_rotate k c : zlen (rotate k c) = zlen c.
Proof.
  unfold rotate. rewrite Z.add_comm. cbv zeta.
  generalize (Z.to_nat (if k <? 0 then k + zlen c else k)). intros j.
  unfold zlen. rewrite length_app, length_drop, length_take. lia.
Qed.

Lemma aget_rotate k c i :
  - zlen c <= k <= zlen c -> 0 <= i < zlen c ->
  aget (rotate k c) i
  = aget c (if i + k <? 0 then i + k + zlen c
            else if i + k <? zlen c then i + k else i + k - zlen c).
Proof.
  intros Hk Hi. unfold rotate. cbv zeta.
  set (j := if k <? 0 then zlen c + k else k).
  assert (0 <= j <= zlen c) by (unfold j; case_if; lia).
  assert (zlen (drop (Z.to_nat j) c) = zlen c - j)
    by (unfold zlen in *; rewrite length_drop; lia).
  destruct (Z.lt_ge_cases i (zlen c - j)).
  - rewrite aget_app_l by lia. rewrite !aget_lookup by (unfold j in *; repeat case_if; lia).
    rewrite lookup_drop. f_equal. unfold j in *. repeat case_if; lia.
  - replace i with (zlen (drop (Z.to_nat j) c) + (i - (zlen c - j))) at 1 by lia.
    rewrite aget_app_r by lia. rewrite !aget_lookup by (unfold j in *; repeat case_if; lia).
    rewrite lookup_take_lt by lia. f_equal. unfold j in *. repeat case_if; lia.
Qed.

Lemma MoveReadPtr_rep N c n self k :
  ring_rep N c n self -> in_s32 k ->
  let k' := Z.max (- (N - n)) (Z.min k n) in
  exists self', MoveReadPtr self k = (k', self') /\ rb_data self' = rb_data self /\
    ring_rep N (rotate k' c) (n - k') self'.
Proof.
  intros H Hk k'. unfold MoveReadPtr.
  rewrite (available_write_rep _ _ _ _ H), (available_read_rep _ _ _ _ H).
  destruct H as [HN Hc Hd Hl Hn Hr Hw Hwrap Hview]. simpl in Hk.
  assert ((rb_rw_wrap self = SAME_WRAP /\ rb_write_pos self = rb_read_pos self + n) \/
          (rb_rw_wrap self = DIFF_WRAP /\ rb_write_pos self = rb_read_pos self + n - N)) as Hcases
    by (destruct (rb_rw_wrap self); auto).
  rewrite !(s32_id (N - n)), !(s32_id n), !(s32_id (rb_read_pos self)) by (simpl; lia).
  rewrite Hc, (s32_id N) by (simpl; lia).
  assert ((if (if n <? k then n else k) <? - (N - n) then - (N - n)
           else if n <? k then n else k) = k') as -> by (unfold k'; repeat case_if; lia).
  assert (- (N - n) <= k' <= n) as Hk' by lia. clearbody k'. cbv zeta.
  assert (forall i, 0 <= i < N -> aget (rotate k' c) i
    = aget c (if i + k' <? 0 then i + k' + N
              else if i + k' <? N then i + k' else i + k' - N)) as Hrot
    by (intros i Hi; rewrite aget_rotate by lia; by rewrite Hl).
  assert (forall i r', 0 <= i < N -> 
    (r' = rb_read_pos self + k' \/ r' = rb_read_pos self + k' - N \/ r' = rb_read_pos self + k' + N) ->
    0 <= r' <= N ->
    aget (rotate k' c) i = aget (rb_data self) (ring_pos N r' i)) as Hnew.
  { intros i r' Hi Hr' Hrange. rewrite Hrot by done. rewrite Hview by (repeat case_if; lia).
    f_equal. unfold ring_pos. repeat case_if; lia. }
  assert (zlen (rotate k' c) = N) by (by rewrite zlen_rotate).
  destruct (Z.ltb_spec N (rb_read_pos self + k')); [|destruct (Z.ltb_spec (rb_read_pos self + k') 0)].
  - destruct (Z.ltb_spec (rb_read_pos self + k' - N) 0); [lia|].
    eexists. split; [reflexivity|]. split; [done|].
    split; cbn; rewrite ?Hc, ?(s32_id N), ?size_t_id by (simpl; lia); try done; try lia;
      try (destruct Hcases as [[E ?]|[E ?]]; rewrite ?E; cbn; lia); intros i Hi; apply Hnew; lia.
  - eexists. split; [reflexivity|]. split; [done|].
    split; cbn; rewrite ?Hc, ?(s32_id N), ?size_t_id by (simpl; lia); try done; try lia;
      try (destruct Hcases as [[E ?]|[E ?]]; rewrite ?E; cbn; lia); intros i Hi; apply Hnew; lia.
  - eexists. split; [reflexivity|]. split; [done|].
    split; cbn; rewrite ?Hc, ?(s32_id N), ?size_t_id by (simpl; lia); try done; try lia;
      try (destruct Hcases as [[E ?]|[E ?]]; rewrite ?E; cbn; lia); intros i Hi; apply Hnew; lia.
Qed.

Lemma ring_rep_cases N c n self :
  ring_rep N c n self ->
  (rb_rw_wrap self = SAME_WRAP /\ rb_write_pos self = rb_read_pos self + n) \/
  (rb_rw_wrap self = DIFF_WRAP /\ rb_write_pos self = rb_read_pos self + n - N).
Proof. intros []. destruct (rb_rw_wrap self); auto. Qed.

Lemma zlen_take (k : Z) c : 0 <= k <= zlen c -> zlen (take (Z.to_nat k) c) = k.
Proof. unfold zlen. rewrite length_take. lia. Qed.

Lemma aget_take (k i : Z) c : i < k -> aget (take (Z.to_nat k) c) i = aget c i.
Proof.
  intros Hi. unfold aget. destruct (Z.ltb_spec i 0); [done|]. apply lookup_take_lt. lia.
Qed.

Lemma WriteBuffer_rep N c n self data m :
  ring_rep N c n self -> 0 <= m <= zlen data ->
  let k := Z.min m (N - n) in
  exists c' self', astore c n (take (Z.to_nat k) data) = Some c' /\
    WriteBuffer self (Some data) m = Some (k, self') /\ ring_rep N c' (n + k) self'.
Proof.
  intros H Hm k. pose proof (ring_rep_cases _ _ _ _ H) as Hcases.
  unfold WriteBuffer. rewrite (available_write_rep _ _ _ _ H).
  destruct H as [HN Hc Hd Hl Hn Hr Hw Hwrap Hview].
  assert ((if N - n <? m then N - n else m) = k) as -> by (unfold k; case_if; lia).
  assert (0 <= k <= m /\ k <= N - n) as Hk by lia. clearbody k. cbv zeta.
  rewrite Hc, (size_t_id (N - _)) by lia.
  assert (zlen (take (Z.to_nat k) data) = k) as Hkt by (apply zlen_take; lia).
  destruct (astore_in c (take (Z.to_nat k) data) n) as (c' & Hc' & Hlc'); [lia|lia|].
  assert (forall i, aget c' i
    = if decide (n <= i < n + k) then aget data (i - n) else aget c i) as Hview'.
  { intros i. rewrite (aget_astore _ _ _ _ _ Hc'), Hkt.
    case_decide; [by apply aget_take; lia|done]. }
  exists c'. destruct (Z.ltb_spec (N - rb_write_pos self) k) as [Hmargin|Hmargin].
  - set (g := N - rb_write_pos self) in *.
    destruct (aload data 0 g) as [b1|] eqn:Hb1; [|by rewrite aload_in in Hb1 by lia].
    pose proof (aload_length _ _ _ _ Hb1) as Hlb1. cbn [mbind option_bind].
    destruct (astore_in (rb_data self) b1 (rb_write_pos self)) as (m1 & Hm1 & Hlm1); [lia|lia|].
    rewrite Hm1. cbn [mbind option_bind]. rewrite (size_t_id (k - g)) by lia.
    replace (k - (k - g)) with g by lia.
    destruct (aload data g (k - g)) as [b2|] eqn:Hb2; [|by rewrite aload_in in Hb2 by lia].
    pose proof (aload_length _ _ _ _ Hb2) as Hlb2. cbn [mbind option_bind].
    destruct (astore_in m1 b2 0) as (m2 & Hm2 & Hlm2); [lia|lia|].
    cbn [rb_data rb_write_pos upd]. rewrite Hm2. cbn [mbind option_bind].
    rewrite (size_t_id (0 + _)) by lia.
    eexists. split; [done|]. split; [reflexivity|].
    split; cbn; try done; try lia. intros i Hi.
    rewrite Hview', (aget_astore _ _ _ _ _ Hm2), (aget_astore _ _ _ _ _ Hm1), Hlb1, Hlb2.
    unfold ring_pos. case_decide as Hin.
    + destruct (Z.ltb_spec (rb_read_pos self + i) N).
      * rewrite decide_False, decide_True by lia.
        rewrite (aget_aload _ _ _ _ _ Hb1) by lia. f_equal. lia.
      * rewrite decide_True by lia.
        rewrite (aget_aload _ _ _ _ _ Hb2) by lia. f_equal. lia.
    + rewrite Hview by done. unfold ring_pos.
      destruct (Z.ltb_spec (rb_read_pos self + i) N); rewrite !decide_False by lia; done.
  - cbn [mbind option_bind]. replace (k - k) with 0 by lia.
    destruct (aload data 0 k) as [b|] eqn:Hb; [|by rewrite aload_in in Hb by lia].
    pose proof (aload_length _ _ _ _ Hb) as Hlb. cbn [mbind option_bind].
    destruct (astore_in (rb_data self) b (rb_write_pos self)) as (m1 & Hm1 & Hlm1); [lia|lia|].
    rewrite Hm1. cbn [mbind option_bind]. rewrite (size_t_id (_ + k)) by lia.
    eexists. split; [done|]. split; [reflexivity|].
    split; cbn; try done; try lia.
    { destruct Hcases as [[-> ?]|[-> ?]]; lia. }
    intros i Hi. rewrite Hview', (aget_astore _ _ _ _ _ Hm1), Hlb.
    unfold ring_pos. case_decide as Hin.
    + destruct (Z.ltb_spec (rb_read_pos self + i) N); rewrite decide_True by lia;
        rewrite (aget_aload _ _ _ _ _ Hb) by lia; f_equal; lia.
    + rewrite Hview by done. unfold ring_pos.
      destruct (Z.ltb_spec (rb_read_pos self + i) N); rewrite decide_False by lia; done.
Qed.

(** What the caller sees of a read of [k] elements: through [*data_ptr] if it
    asked for it, else in [data]. *)
Definition read_view (self : RingBuffer A) (k : Z) (data : list A) (ptr : option DataPtr)
    : option (list A) :=
  match ptr with
  | Some (InRing off) => aload (rb_data self) off k
  | _ => aload data 0 k
  end.

Lemma ReadBuffer_rep N c n self data m want_ptr :
  ring_rep N c n self -> 0 <= m <= zlen data ->
  let k := Z.min m n in
  exists data' ptr self', ReadBuffer self want_ptr (Some data) m = Some (k, Some data', ptr, self') /\
    read_view self' k data' ptr = Some (take (Z.to_nat k) c) /\ zlen data' = zlen data /\
    ring_rep N (rotate k c) (n - k) self'.
Proof.
  intros H Hm k. pose proof (ring_rep_cases _ _ _ _ H) as Hcases.
  unfold ReadBuffer, GetBufferReadRegions. rewrite (available_read_rep _ _ _ _ H).
  pose proof H as [HN Hc Hd Hl Hn Hr Hw Hwrap Hview].
  assert ((if n <? m then n else m) = k) as -> by (unfold k; case_if; lia).
  assert (0 <= k <= m /\ k <= n) as Hk by lia. clearbody k. cbv zeta.
  rewrite Hc, (size_t_id (N - _)) by lia.
  destruct (MoveReadPtr_rep N c n self k H) as (self' & Hmove & Hdata & Hrep); [simpl; lia|].
  replace (Z.max (- (N - n)) (Z.min k n)) with k in * by lia.
  assert (zlen (take (Z.to_nat k) c) = k) as Hkt by (apply zlen_take; lia).
  assert (forall l, zlen l = k -> (forall i, 0 <= i < k -> aget l i = aget c i) ->
            l = take (Z.to_nat k) c) as Heq.
  { intros l Hll He. apply list_eq_aget; [lia|]. intros i Hi. rewrite aget_take by lia.
    apply He. lia. }
  destruct (Z.ltb_spec (N - rb_read_pos self) k) as [Hmargin|Hmargin].
  - set (g := N - rb_read_pos self) in *.
    destruct (Z.ltb_spec 0 (k - g)); [|lia].
    destruct (aload (rb_data self) (rb_read_pos self) g) as [b1|] eqn:Hb1;
      [|by rewrite aload_in in Hb1 by lia].
    pose proof (aload_length _ _ _ _ Hb1) as Hlb1. cbn [mbind option_bind].
    destruct (astore_in data b1 0) as (d1 & Hd1 & Hld1); [lia|lia|].
    rewrite Hd1. cbn [mbind option_bind].
    destruct (aload (rb_data self) 0 (k - g)) as [b2|] eqn:Hb2; [|by rewrite aload_in in Hb2 by lia].
    pose proof (aload_length _ _ _ _ Hb2) as Hlb2. cbn [mbind option_bind].
    destruct (astore_in d1 b2 g) as (d2 & Hd2 & Hld2); [lia|lia|].
    rewrite Hd2. cbn [mbind option_bind].
    rewrite s32_id, Hmove by (simpl; lia).
    eexists _, _, _. split; [reflexivity|].
    assert (aload d2 0 k = Some (take (Z.to_nat k) c)) as Hres.
    { destruct (aload d2 0 k) as [l|] eqn:El; [|by rewrite aload_in in El by lia].
      f_equal. apply Heq; [by eapply aload_length|]. intros i Hi.
      rewrite (aget_aload _ _ _ _ _ El), (aget_astore _ _ _ _ _ Hd2),
        (aget_astore _ _ _ _ _ Hd1), Hlb1, Hlb2, Hview by lia. unfold ring_pos.
      destruct (Z.ltb_spec (rb_read_pos self + i) N).
      - rewrite decide_False, decide_True by lia.
        rewrite (aget_aload _ _ _ _ _ Hb1) by lia. f_equal. lia.
      - rewrite decide_True by lia. rewrite (aget_aload _ _ _ _ _ Hb2) by lia. f_equal. lia. }
    split; [by destruct want_ptr|]. split; [lia|done].
  - cbn [Z.ltb Z.compare].
    assert (aload (rb_data self) (rb_read_pos self) k = Some (take (Z.to_nat k) c)) as Hb.
    { destruct (aload (rb_data self) (rb_read_pos self) k) as [l|] eqn:El;
        [|by rewrite aload_in in El by lia].
      f_equal. apply Heq; [by eapply aload_length|]. intros i Hi.
      rewrite (aget_aload _ _ _ _ _ El), Hview by lia. unfold ring_pos.
      destruct (Z.ltb_spec (rb_read_pos self + i) N); [done|lia]. }
    destruct want_ptr; cbn [negb].
    + cbn [mbind option_bind]. rewrite s32_id, Hmove by (simpl; lia).
      eexists _, _, _. split; [reflexivity|]. simpl. rewrite Hdata. done.
    + rewrite Hb. cbn [mbind option_bind].
      destruct (astore_in data (take (Z.to_nat k) c) 0) as (d1 & Hd1 & Hld1); [lia|lia|].
      rewrite Hd1. cbn [mbind option_bind]. rewrite s32_id, Hmove by (simpl; lia).
      eexists _, _, _. split; [reflexivity|]. simpl.
      pose proof (aload_astore_eq _ _ _ _ Hd1) as E. rewrite Hkt in E. done.
Qed.
End proofs.

(** ** Specification: a queue that remembers what was read *)

Section refinement.
Context {A : Type}.
Implicit Types (self : RingBuffer A) (xs data q h : list A).

(** The operations of a client; [data] of a read is the caller's memory. *)
Inductive ring_op :=
  | RingWrite (data : list A) (m : Z)
  | RingRead (want_ptr : bool) (data : list A) (m : Z)
  | RingMove (k : Z).

(** Callers pass at least as much memory as they announce. *)
Definition ring_op_ok (op : ring_op) : Prop :=
  match op with
  | RingWrite data m | RingRead _ data m => 0 <= m <= zlen data
  | RingMove k => in_s32 k
  end.

(** The queue [q], oldest element first, and the history [h] of elements read
    but not yet overwritten, oldest first.  A step answers the count and the
    elements read. *)
Definition queue_read (m : Z) (q h : list A) : Z * list A * (list A * list A) :=
  let k := Z.min m (zlen q) in
  (k, take (Z.to_nat k) q, (drop (Z.to_nat k) q, h ++ take (Z.to_nat k) q)).

Definition queue_step (op : ring_op) (st : list A * list A) : Z * list A * (list A * list A) :=
  let '(q, h) := st in
  match op with
  | RingWrite data m =>
      let k := Z.min m (zlen h) in
      (k, [], (q ++ take (Z.to_nat k) data, drop (Z.to_nat k) h))
  | RingRead _ _ m => queue_read m q h
  | RingMove k =>
      if k <? 0 then
        let j := Z.min (- k) (zlen h) in
        let keep := Z.to_nat (zlen h - j) in
        (- j, [], (drop keep h ++ q, take keep h))
      else let '(k, _, st) := queue_read k q h in (k, [], st)
  end.

Fixpoint queue_run (ops : list ring_op) (st : list A * list A) : list (Z * list A) :=
  match ops with
  | [] => []
  | op :: ops => let '(k, out, st) := queue_step op st in (k, out) :: queue_run ops st
  end.

(** The same for the code. *)
Definition ring_step (op : ring_op) (self : RingBuffer A)
    : option (Z * list A * RingBuffer A) :=
  match op with
  | RingWrite data m => '(k, self) ← WriteBuffer self (Some data) m; Some (k, [], self)
  | RingRead want_ptr data m =>
      '(k, data, ptr, self) ← ReadBuffer self want_ptr (Some data) m;
      data ← data;
      out ← read_view self k data ptr;
      Some (k, out, self)
  | RingMove k => let '(k, self) := MoveReadPtr self k in Some (k, [], self)
  end.

Fixpoint ring_run (ops : list ring_op) (self : RingBuffer A) : option (list (Z * list A)) :=
  match ops with
  | [] => Some []
  | op :: ops =>
      '(k, out, self) ← ring_step op self;
      outs ← ring_run ops self;
      Some ((k, out) :: outs)
  end.

Definition ring_queue (N : Z) (q h : list A) (self : RingBuffer A) : Prop :=
  ring_rep N (q ++ h) (zlen q) self.

Lemma rotate_queue (k : Z) q h :
  0 <= k <= zlen q -> rotate k (q ++ h) = drop (Z.to_nat k) q ++ h ++ take (Z.to_nat k) q.
Proof.
  intros Hk. unfold rotate. destruct (Z.ltb_spec k 0); [lia|].
  unfold zlen in Hk. rewrite drop_app_le, take_app_le by lia. by rewrite <- (assoc_L (++)).
Qed.

Lemma rotate_history (j : Z) q h :
  0 < j <= zlen h ->
  rotate (- j) (q ++ h)
  = (drop (Z.to_nat (zlen h - j)) h ++ q) ++ take (Z.to_nat (zlen h - j)) h.
Proof.
  intros Hj. unfold rotate. destruct (Z.ltb_spec (- j) 0); [|lia].
  rewrite zlen_app. unfold zlen in *.
  rewrite drop_app_ge, take_app_ge by lia.
  replace (Z.to_nat (Z.of_nat (length q) + Z.of_nat (length h) + - j) - length q)%nat
    with (Z.to_nat (Z.of_nat (length h) - j)) by lia.
  by rewrite <- (assoc_L (++)).
Qed.

Lemma zlen_drop_nat (k : Z) q : 0 <= k <= zlen q -> zlen (drop (Z.to_nat k) q) = zlen q - k.
Proof. unfold zlen. rewrite length_drop. lia. Qed.

(** One step of the code is one step of the queue. *)
Lemma ring_step_refines N q h self op :
  ring_queue N q h self -> ring_op_ok op ->
  let '(k, out, (q', h')) := queue_step op (q, h) in
  exists self', ring_step op self = Some (k, out, self') /\ ring_queue N q' h' self'.
Proof.
  intros H Hop. pose proof (rr_len _ _ _ _ H) as Hl. rewrite zlen_app in Hl.
  pose proof (zlen_nonneg q). pose proof (zlen_nonneg h).
  destruct op as [data m|want_ptr data m|k]; cbn [queue_step ring_step ring_op_ok] in *.
  - destruct (WriteBuffer_rep _ _ _ _ data m H Hop) as (c' & self' & Hc' & -> & Hrep).
    replace (N - zlen q) with (zlen h) in * by lia. set (k := Z.min m (zlen h)) in *.
    exists self'. split; [done|]. unfold ring_queue.
    apply astore_Some in Hc' as (_ & _ & ->).
    rewrite zlen_app, zlen_take by lia.
    replace ((q ++ take (Z.to_nat k) data) ++ drop (Z.to_nat k) h)
      with (take (Z.to_nat (zlen q)) (q ++ h) ++ take (Z.to_nat k) data
            ++ drop (Z.to_nat (zlen q) + length (take (Z.to_nat k) data)) (q ++ h)); [done|].
    unfold zlen in *. rewrite Nat2Z.id, take_app_length, length_take, <- (assoc_L (++)).
    do 2 f_equal. rewrite drop_app_ge by lia. f_equal. lia.
  - unfold queue_read.
    destruct (ReadBuffer_rep _ _ _ _ data m want_ptr H Hop)
      as (data' & ptr & self' & -> & Hview & _ & Hrep).
    cbn [mbind option_bind]. rewrite Hview. cbn [mbind option_bind].
    set (k := Z.min m (zlen q)) in *. exists self'. unfold ring_queue.
    rewrite rotate_queue in Hrep by lia. rewrite zlen_drop_nat by lia.
    split; [|done]. rewrite take_app_le by (unfold zlen in *; lia). done.
  - destruct (MoveReadPtr_rep _ _ _ _ k H Hop) as (self' & -> & _ & Hrep).
    replace (N - zlen q) with (zlen h) in * by lia.
    destruct (Z.ltb_spec k 0).
    + replace (Z.max (- zlen h) (Z.min k (zlen q))) with (- Z.min (- k) (zlen h)) in * by lia.
      set (j := Z.min (- k) (zlen h)) in *. exists self'. split; [done|]. unfold ring_queue.
      rewrite zlen_app, zlen_drop_nat by lia.
      destruct (Z.eq_dec j 0) as [E|E].
      * rewrite E in *. unfold rotate in Hrep. simpl in Hrep.
        rewrite take_0, drop_0, app_nil_r in Hrep.
        rewrite drop_ge, take_ge by (unfold zlen; lia). simpl.
        by replace (zlen h - (zlen h - 0) + zlen q) with (zlen q - - 0) by lia.
      * rewrite rotate_history in Hrep by lia.
        by replace (zlen h - (zlen h - j) + zlen q) with (zlen q - - j) by lia.
    + unfold queue_read.
      replace (Z.max (- zlen h) (Z.min k (zlen q))) with (Z.min k (zlen q)) in * by lia.
      set (j := Z.min k (zlen q)) in *. exists self'. split; [done|]. unfold ring_queue.
      rewrite rotate_queue in Hrep by lia. by rewrite zlen_drop_nat by lia.
Qed.
End refinement.
#[global] Arguments ring_op : clear implicits.

(** C27. The ring buffer is a queue: after creation and initialisation with
    [N] elements of zero bytes - a block whose size in bytes fits [size_t], since
    the product is not checked - every sequence of writes, reads (copying or by
    pointer, across the wrap-around or not) and forward or backward moves of
    the read pointer stays inside the memory, reports the counts of a queue of
    capacity [N], and delivers exactly the elements of that queue; moving back
    brings the elements read last to the front again, as long as they are not
    overwritten. *)
Theorem RingBuffer_refines_queue {A : Type} (N element_size : Z) (zero : A)
    (struct : RingBuffer A) (contents : Z -> A) (ops : list (ring_op A))
    (HN : 0 < N < 2147483648) (Hs : 0 < element_size) (Hbytes : N * element_size < 18446744073709551616)
    (Hops : Forall ring_op_ok ops) :
  exists self self', CreateBuffer N element_size (Some struct) (Some contents) = Some self /\
    InitBuffer zero self = Some (0, self') /\
    ring_run ops self' = Some (queue_run ops ([], replicate (Z.to_nat N) zero)).
Proof.
  destruct (CreateInit_rep zero N element_size struct contents HN Hs Hbytes) as (self0 & self & E & E' & H).
  exists self0, self. split; [done|]. split; [done|].
  change (ring_queue N [] (replicate (Z.to_nat N) zero) self) in H.
  revert H. generalize (@nil A) (replicate (Z.to_nat N) zero). intros q h.
  clear E E'. revert q h self. induction Hops as [|op ops Hop _ IH]; intros q h self H; [done|].
  pose proof (ring_step_refines N q h self op H Hop) as Hstep.
  cbn [queue_run ring_run]. destruct (queue_step op (q, h)) as [[k out] [q' h']].
  destruct Hstep as (self' & -> & H'). cbn [mbind option_bind].
  by rewrite (IH q' h').
Qed.

(** Capacity 4: the second write wraps around and is cut short, the read
    takes the first three elements, and moving back returns two of them. *)
Example RingBuffer_refines_queue_witness :
  queue_run [RingWrite [1; 2; 3] 3; RingRead false [0; 0] 2; RingWrite [4; 5; 6; 7] 4;
             RingRead true [0; 0; 0] 3; RingMove (-2); RingRead false [0; 0; 0; 0] 4]
    ([], [0; 0; 0; 0])
  = [(3, []); (2, [1; 2]); (3, []); (3, [3; 4; 5]); (-2, []); (3, [4; 5; 6])] /\
  exists self, CreateBuffer 4 2 (Some (mkRingBuffer 9 9 9 9 DIFF_WRAP [])) (Some (fun i => i + 8)) = Some self.
Proof.
  split; [reflexivity|].
  refine (match RingBuffer_refines_queue 4 2 0 (mkRingBuffer 9 9 9 9 DIFF_WRAP []) (fun i => i + 8)
            [RingWrite [1; 2; 3] 3; RingRead false [0; 0] 2] _ _ _ _ with
          | ex_intro _ self (ex_intro _ _ (conj H _)) => ex_intro _ self H end);
    [lia|lia|lia|repeat constructor; simpl; unfold zlen; simpl; lia].
Defined.

(** The product of the two sizes may wrap to 0: the block is empty, and the
    first write leaves it. *)
Example CreateBuffer_overflow :
  (self ← CreateBuffer 4 0x4000000000000000 (Some (mkRingBuffer 0 0 0 0 SAME_WRAP [])) (Some (fun i => i));
   r ← InitBuffer 0 self;
   Some (rb_element_count r.2, rb_data r.2, WriteBuffer r.2 (Some [1]) 1)) = Some (4, [], None).
Proof. vm_compute. reflexivity. Qed.
