(* ===== verification/G711.v ===== *)
(** The waveform codecs: G.711 ([codecs/g711/g711.h], [g711.c],
    [g711_interface.c]) and linear 16-bit PCM ([codecs/pcm16b/pcm16b.c]), for a
    little-endian build. *)
From S2P Require Import Prelude.

(** ** Bit positions ([g711.h], the portable versions) *)

Definition any (bits mask : Z) : bool := negb (Z.land bits mask =? 0).

(** One round of the binary search: keep the marked half when it is not empty. *)
Definition bit_half (mask step : Z) (p : Z * Z) : Z * Z :=
  let '(bits, i) := p in
  if any bits mask then (Z.land bits mask, i + step) else (bits, i).

Definition top_bit (bits : Z) : Z :=
  if bits =? 0 then -1 else
  (bit_half 0xAAAAAAAA 1 (bit_half 0xCCCCCCCC 2 (bit_half 0xF0F0F0F0 4
    (bit_half 0xFF00FF00 8 (bit_half 0xFFFF0000 16 (bits, 0)))))).2.

Definition bottom_bit (bits : Z) : Z :=
  if bits =? 0 then -1 else
  (bit_half 0x55555555 (-1) (bit_half 0x33333333 (-2) (bit_half 0x0F0F0F0F (-4)
    (bit_half 0x00FF00FF (-8) (bit_half 0x0000FFFF (-16) (bits, 32)))))).2.

(** ** One sample ([g711.h]) *)

Definition ULAW_BIAS : Z := 0x84.
Definition ALAW_AMI_MASK : Z := 0x55.

Definition linear_to_ulaw (linear : Z) : Z :=
  let '(linear, mask) := if linear <? 0 then (ULAW_BIAS - linear - 1, 0x7F)
                         else (ULAW_BIAS + linear, 0xFF) in
  let seg := top_bit (Z.lor linear 0xFF) - 7 in
  if 8 <=? seg then u8 (Z.lxor 0x7F mask)
  else u8 (Z.lxor (Z.lor (Z.shiftl seg 4) (Z.land (Z.shiftr linear (seg + 3)) 0xF)) mask).

Definition ulaw_to_linear (ulaw : Z) : Z :=
  let ulaw := u8 (Z.lnot ulaw) in
  let t := Z.shiftl (Z.shiftl (Z.land ulaw 0x0F) 3 + ULAW_BIAS) (Z.shiftr (Z.land ulaw 0x70) 4) in
  s16 (if any ulaw 0x80 then ULAW_BIAS - t else t - ULAW_BIAS).

Definition linear_to_alaw (linear : Z) : Z :=
  let '(linear, mask) := if 0 <=? linear then (linear, Z.lor ALAW_AMI_MASK 0x80)
                         else (- linear - 1, ALAW_AMI_MASK) in
  let seg := top_bit (Z.lor linear 0xFF) - 7 in
  if 8 <=? seg then
    if 0 <=? linear then u8 (Z.lxor 0x7F mask) else u8 (Z.lxor 0x00 mask)
  else
    u8 (Z.lxor (Z.lor (Z.shiftl seg 4)
                  (Z.land (Z.shiftr linear (if seg =? 0 then 4 else seg + 3)) 0x0F)) mask).

Definition alaw_to_linear (alaw : Z) : Z :=
  let alaw := u8 (Z.lxor alaw ALAW_AMI_MASK) in
  let i := Z.shiftl (Z.land alaw 0x0F) 4 in
  let seg := Z.shiftr (Z.land alaw 0x70) 4 in
  let i := if seg =? 0 then i + 8 else Z.shiftl (i + 0x108) (seg - 1) in
  s16 (if any alaw 0x80 then i else - i).

(** ** Transcoding ([g711.c]) *)

Definition ulaw_to_alaw_table : list Z :=
   [42; 43; 40; 41; 46; 47; 44; 45; 34; 35; 32; 33; 38; 39; 36; 37; 58; 59; 56; 57; 62; 63; 60;
   61; 50; 51; 48; 49; 54; 55; 52; 53; 10; 11; 8; 9; 14; 15; 12; 13; 2; 3; 0; 1; 6; 7; 4; 26;
   27; 24; 25; 30; 31; 28; 29; 18; 19; 16; 17; 22; 23; 20; 21; 106; 104; 105; 110; 111; 108;
   109; 98; 99; 96; 97; 102; 103; 100; 101; 122; 120; 126; 127; 124; 125; 114; 115; 112; 113;
   118; 119; 116; 117; 75; 73; 79; 77; 66; 67; 64; 65; 70; 71; 68; 69; 90; 91; 88; 89; 94; 95;
   92; 93; 82; 82; 83; 83; 80; 80; 81; 81; 86; 86; 87; 87; 84; 84; 85; 85; 170; 171; 168; 169;
   174; 175; 172; 173; 162; 163; 160; 161; 166; 167; 164; 165; 186; 187; 184; 185; 190; 191;
   188; 189; 178; 179; 176; 177; 182; 183; 180; 181; 138; 139; 136; 137; 142; 143; 140; 141;
   130; 131; 128; 129; 134; 135; 132; 154; 155; 152; 153; 158; 159; 156; 157; 146; 147; 144;
   145; 150; 151; 148; 149; 234; 232; 233; 238; 239; 236; 237; 226; 227; 224; 225; 230; 231;
   228; 229; 250; 248; 254; 255; 252; 253; 242; 243; 240; 241; 246; 247; 244; 245; 203; 201;
   207; 205; 194; 195; 192; 193; 198; 199; 196; 197; 218; 219; 216; 217; 222; 223; 220; 221;
   210; 210; 211; 211; 208; 208; 209; 209; 214; 214; 215; 215; 212; 212; 213; 213].

Definition alaw_to_ulaw_table : list Z :=
   [42; 43; 40; 41; 46; 47; 44; 45; 34; 35; 32; 33; 38; 39; 36; 37; 57; 58; 55; 56; 61; 62; 59;
   60; 49; 50; 47; 48; 53; 54; 51; 52; 10; 11; 8; 9; 14; 15; 12; 13; 2; 3; 0; 1; 6; 7; 4; 5;
   26; 27; 24; 25; 30; 31; 28; 29; 18; 19; 16; 17; 22; 23; 20; 21; 98; 99; 96; 97; 102; 103;
   100; 101; 93; 93; 92; 92; 95; 95; 94; 94; 116; 118; 112; 114; 124; 126; 120; 122; 106; 107;
   104; 105; 110; 111; 108; 109; 72; 73; 70; 71; 76; 77; 74; 75; 64; 65; 63; 63; 68; 69; 66;
   67; 86; 87; 84; 85; 90; 91; 88; 89; 79; 79; 78; 78; 82; 83; 80; 81; 170; 171; 168; 169; 174;
   175; 172; 173; 162; 163; 160; 161; 166; 167; 164; 165; 185; 186; 183; 184; 189; 190; 187;
   188; 177; 178; 175; 176; 181; 182; 179; 180; 138; 139; 136; 137; 142; 143; 140; 141; 130;
   131; 128; 129; 134; 135; 132; 133; 154; 155; 152; 153; 158; 159; 156; 157; 146; 147; 144;
   145; 150; 151; 148; 149; 226; 227; 224; 225; 230; 231; 228; 229; 221; 221; 220; 220; 223;
   223; 222; 222; 244; 246; 240; 242; 252; 254; 248; 250; 234; 235; 232; 233; 238; 239; 236;
   237; 200; 201; 198; 199; 204; 205; 202; 203; 192; 193; 191; 191; 196; 197; 194; 195; 214;
   215; 212; 213; 218; 219; 216; 217; 207; 207; 206; 206; 210; 211; 208; 209].

Definition alaw_to_ulaw (alaw : Z) : option Z := aget alaw_to_ulaw_table alaw.
Definition ulaw_to_alaw (ulaw : Z) : option Z := aget ulaw_to_alaw_table ulaw.

(** ** Frames ([g711_interface.c]) *)

(** Two codes per 16-bit word, from sample [n] on. *)
Fixpoint g711_encode (code : Z -> Z) (todo : nat) (n : Z) (speechIn encoded : list Z)
    : option (list Z) :=
  match todo with
  | O => Some encoded
  | S todo =>
      x ← aget speechIn n;
      let tempVal := u16 (code x) in
      w ← (if Z.land n 1 =? 1
           then w ← aget encoded (Z.shiftr n 1); Some (s16 (Z.lor w (Z.shiftl tempVal 8)))
           else Some (s16 tempVal));
      encoded ← aset encoded (Z.shiftr n 1) w;
      g711_encode code todo (n + 1) speechIn encoded
  end.

Fixpoint g711_decode (linear : Z -> Z) (todo : nat) (n : Z) (encoded decoded : list Z)
    : option (list Z) :=
  match todo with
  | O => Some decoded
  | S todo =>
      w ← aget encoded (Z.shiftr n 1);
      let tempVal := u16 (if Z.land n 1 =? 1 then Z.shiftr w 8 else Z.land w 0xFF) in
      decoded ← aset decoded n (linear (u8 tempVal));
      g711_decode linear todo (n + 1) encoded decoded
  end.

(** The return value and the output array. *)
Definition G711_EncodeA (speechIn : list Z) (len : Z) (encoded : list Z) : option (Z * list Z) :=
  if len <? 0 then Some (-1, encoded) else
  encoded ← g711_encode linear_to_alaw (Z.to_nat len) 0 speechIn encoded; Some (len, encoded).
Definition G711_EncodeU (speechIn : list Z) (len : Z) (encoded : list Z) : option (Z * list Z) :=
  if len <? 0 then Some (-1, encoded) else
  encoded ← g711_encode linear_to_ulaw (Z.to_nat len) 0 speechIn encoded; Some (len, encoded).

(** The return value, the output array and [*speechType] when it is written. *)
Definition G711_DecodeA (encoded : list Z) (len : Z) (decoded : list Z)
    : option (Z * list Z * option Z) :=
  if len <? 0 then Some (-1, decoded, None) else
  decoded ← g711_decode alaw_to_linear (Z.to_nat len) 0 encoded decoded; Some (len, decoded, Some 1).
Definition G711_DecodeU (encoded : list Z) (len : Z) (decoded : list Z)
    : option (Z * list Z * option Z) :=
  if len <? 0 then Some (-1, decoded, None) else
  decoded ← g711_decode ulaw_to_linear (Z.to_nat len) 0 encoded decoded; Some (len, decoded, Some 1).

Definition G711_DurationEst (payload_length_bytes : Z) : Z := payload_length_bytes.

(** ** Linear PCM ([pcm16b.c]) *)

Definition pcm_swap (x : Z) : Z :=
  s16 (Z.lor (Z.shiftr (u16 x) 8) (Z.land (Z.shiftl (u16 x) 8) 0xFF00)).
Definition pcm_unswap (x : Z) : Z :=
  s16 (Z.lor (Z.shiftr (u16 x) 8) (Z.shiftl (u16 (Z.land x 0xFF)) 8)).

Fixpoint pcm_loop (f : Z -> Z) (todo : nat) (i : Z) (speechIn speechOut : list Z) : option (list Z) :=
  match todo with
  | O => Some speechOut
  | S todo =>
      x ← aget speechIn i;
      speechOut ← aset speechOut i (f x);
      pcm_loop f todo (i + 1) speechIn speechOut
  end.

Definition Pcm16b_EncodeW16 (speechIn16b : list Z) (len : Z) (speechOut16b : list Z)
    : option (Z * list Z) :=
  out ← pcm_loop pcm_swap (Z.to_nat len) 0 speechIn16b speechOut16b;
  Some (s16 (Z.shiftl len 1), out).

Definition Pcm16b_DecodeW16 (speechIn16b : list Z) (len : Z) (speechOut16b : list Z)
    : option (Z * list Z * Z) :=
  let samples := Z.shiftr len 1 in
  out ← pcm_loop pcm_unswap (Z.to_nat samples) 0 speechIn16b speechOut16b;
  Some (samples, out, 1).

Fixpoint pcm_bytes (todo : nat) (pos : Z) (speech16b speech8b : list Z) : option (list Z) :=
  match todo with
  | O => Some speech8b
  | S todo =>
      x ← aget speech16b pos;
      let short1 := Z.shiftr (s16 (Z.land 0xFF00 x)) 8 in
      let short2 := s16 (Z.land 0xFF x) in
      speech8b ← aset speech8b (pos * 2) (u8 short1);
      speech8b ← aset speech8b (pos * 2 + 1) (u8 short2);
      pcm_bytes todo (pos + 1) speech16b speech8b
  end.

Definition Pcm16b_Encode (speech16b : list Z) (len : Z) (speech8b : list Z) : option (Z * list Z) :=
  out ← pcm_bytes (Z.to_nat len) 0 speech16b speech8b; Some (s16 (len * 2), out).

Fixpoint pcm_words (todo : nat) (pos : Z) (speech8b speech16b : list Z) : option (list Z) :=
  match todo with
  | O => Some speech16b
  | S todo =>
      hi ← aget speech8b (pos * 2);
      let shortval := s16 hi in
      let shortval := s16 (Z.land (Z.shiftl shortval 8) 0xFF00) in
      lo ← aget speech8b (pos * 2 + 1);
      let shortval := s16 (Z.lor shortval (Z.land lo 0xFF)) in
      speech16b ← aset speech16b pos shortval;
      pcm_words todo (pos + 1) speech8b speech16b
  end.

Definition Pcm16b_Decode (speech8b : list Z) (len : Z) (speech16b : list Z) : option (Z * list Z) :=
  let samples := Z.shiftr len 1 in
  out ← pcm_words (Z.to_nat samples) 0 speech8b speech16b; Some (samples, out).

(** ** Lemmas *)

Lemma linear_to_ulaw_u8 x : in_u8 (linear_to_ulaw x).
Proof. unfold linear_to_ulaw. cbv zeta. repeat case_match; apply u8_range. Qed.
Lemma linear_to_alaw_u8 x : in_u8 (linear_to_alaw x).
Proof. unfold linear_to_alaw. cbv zeta. repeat case_match; apply u8_range. Qed.

(** The code of sample [k] in the words of a frame. *)
Definition code_at (words : list Z) (k : Z) : option Z :=
  w ← aget words (Z.shiftr k 1);
  Some (u8 (if Z.land k 1 =? 1 then Z.shiftr w 8 else w)).

Section Encode.
Context (code : Z -> Z) (Hcode : forall x, in_u8 (code x)).

(** From an odd sample on, the other half of the word is clear. *)
Lemma g711_encode_spec speechIn todo : forall n encoded,
  0 <= n -> n + Z.of_nat todo <= zlen speechIn -> n + Z.of_nat todo <= 2 * zlen encoded ->
  (n mod 2 = 1 -> exists w, aget encoded (n / 2) = Some w /\ in_u8 w) ->
  exists encoded', g711_encode code todo n speechIn encoded = Some encoded' /\
    zlen encoded' = zlen encoded /\
    (forall k, 0 <= k < n -> code_at encoded' k = code_at encoded k) /\
    (forall k, n <= k < n + Z.of_nat todo ->
       code_at encoded' k = code <$> aget speechIn k) /\
    (forall j, n + Z.of_nat todo <= 2 * j -> aget encoded' j = aget encoded j).
Proof using Hcode.
  induction todo as [|todo IH]; intros n encoded Hn Hs He Hodd; cbn [g711_encode].
  { exists encoded. split; [done|]. split; [done|]. split; [done|]. split; [lia|done]. }
  destruct (aget_in speechIn n) as [x Hx]; [lia|]. rewrite Hx. cbn [mbind option_bind].
  rewrite land_one, shiftr_one. pose proof (Hcode x) as Hc. unfold in_u8 in Hc.
  rewrite u16_id by (unfold in_u16; lia).
  assert (exists w, (if n mod 2 =? 1
       then w ← aget encoded (n / 2); Some (s16 (Z.lor w (Z.shiftl (code x) 8)))
       else Some (s16 (code x))) = Some w /\
    u8 (if n mod 2 =? 1 then Z.shiftr w 8 else w) = code x /\
    (n mod 2 = 0 -> in_u8 w) /\
    (n mod 2 = 1 -> forall w0, aget encoded (n / 2) = Some w0 -> u8 w = u8 w0)) as (w & -> & Hw & H0 & H1).
  { destruct (Z.eqb_spec (n mod 2) 1) as [E|E].
    - destruct (Hodd E) as (w & Hw & Hw8). rewrite Hw. cbn [mbind option_bind].
      rewrite Z.lor_comm, lor_shiftl_add by (unfold in_u8 in Hw8; lia).
      eexists. split; [done|]. unfold in_u8 in *. split; [|split; [lia|]].
      + rewrite Z.shiftr_div_pow2 by lia. unfold u8, s16. change (2 ^ 8) with 256.
        Z.to_euclidean_division_equations. lia.
      + intros _ w0 Hw0. assert (w0 = w) as -> by congruence.
        unfold u8, s16. change (2 ^ 8) with 256. Z.to_euclidean_division_equations. lia.
    - eexists. split; [done|]. rewrite s16_id by (unfold in_s16; lia).
      split; [by apply u8_id|]. split; [done|]. done. }
  cbn [mbind option_bind]. assert (0 <= n / 2 < zlen encoded) as Hr
    by (Z.to_euclidean_division_equations; lia).
  rewrite aset_in by done. cbn [mbind option_bind].
  destruct (IH (n + 1) (<[Z.to_nat (n / 2) := w]> encoded)) as (enc' & -> & Hz & Hlow & Hhigh & Hrest);
    rewrite ?zlen_insert in *; try lia.
  { intros Hod. exists w. assert ((n + 1) / 2 = n / 2) as -> by (Z.to_euclidean_division_equations; lia).
    split; [by apply aget_insert_eq|]. apply H0. Z.to_euclidean_division_equations; lia. }
  exists enc'. split; [done|]. split; [done|].
  assert (forall k, 0 <= k -> code_at (<[Z.to_nat (n / 2) := w]> encoded) k =
    if decide (k / 2 = n / 2) then Some (u8 (if k mod 2 =? 1 then Z.shiftr w 8 else w))
    else code_at encoded k) as Hat.
  { intros k Hk. unfold code_at. rewrite !shiftr_one, !land_one. case_decide as E.
    - rewrite E, aget_insert_eq by done. done.
    - rewrite aget_insert_ne; [done|..]; Z.to_euclidean_division_equations; lia. }
  split; [|split].
  - intros k Hk. rewrite Hlow by lia. rewrite Hat by lia. case_decide as E; [|done].
    assert (k mod 2 = 0 /\ n mod 2 = 1) as [Ek En] by (Z.to_euclidean_division_equations; lia).
    destruct (Hodd En) as (w0 & Hw0 & _). unfold code_at.
    rewrite shiftr_one, land_one, E, Hw0, Ek. cbn. by rewrite (H1 En _ Hw0).
  - intros k Hk. destruct (decide (k = n)) as [->|]; [|apply Hhigh; lia].
    rewrite Hlow by lia. rewrite Hat by lia. rewrite decide_True by done. rewrite Hw, Hx. done.
  - intros j Hj. rewrite Hrest by lia. apply aget_insert_ne; Z.to_euclidean_division_equations; lia.
Qed.

End Encode.

Lemma g711_decode_spec linear encoded todo : forall n decoded,
  0 <= n -> n + Z.of_nat todo <= 2 * zlen encoded -> n + Z.of_nat todo <= zlen decoded ->
  exists decoded', g711_decode linear todo n encoded decoded = Some decoded' /\
    zlen decoded' = zlen decoded /\
    (forall k, 0 <= k < n \/ n + Z.of_nat todo <= k -> aget decoded' k = aget decoded k) /\
    (forall k, n <= k < n + Z.of_nat todo -> aget decoded' k = linear <$> code_at encoded k).
Proof.
  induction todo as [|todo IH]; intros n decoded Hn He Hd; cbn [g711_decode].
  { exists decoded. split; [done|]. split; [done|]. split; [done|lia]. }
  destruct (aget_in encoded (n / 2)) as [w Hw]; [Z.to_euclidean_division_equations; lia|].
  rewrite shiftr_one, Hw. cbn [mbind option_bind]. rewrite aset_in by lia. cbn [mbind option_bind].
  set (y := linear _).
  assert (linear <$> code_at encoded n = Some y) as Hy.
  { unfold code_at, y. rewrite shiftr_one, Hw. cbn. do 2 f_equal.
    unfold u8, u16. case_match; [|rewrite land_255]; Z.to_euclidean_division_equations; lia. }
  destruct (IH (n + 1) (<[Z.to_nat n := y]> decoded)) as (dec' & -> & Hz & Hlow & Hhigh);
    rewrite ?zlen_insert in *; try lia.
  exists dec'. split; [done|]. split; [done|]. split.
  - intros k Hk. rewrite Hlow by lia. apply aget_insert_ne; lia.
  - intros k Hk. destruct (decide (k = n)) as [->|]; [|apply Hhigh; lia].
    rewrite Hlow by lia. rewrite Hy. apply aget_insert_eq. lia.
Qed.

Lemma frame_roundtrip code linear speechIn len encoded decoded :
  (forall x, in_u8 (code x)) ->
  0 <= len <= zlen speechIn -> len <= 2 * zlen encoded -> len <= zlen decoded ->
  exists encoded' decoded',
    g711_encode code (Z.to_nat len) 0 speechIn encoded = Some encoded' /\
    g711_decode linear (Z.to_nat len) 0 encoded' decoded = Some decoded' /\
    (forall k, 0 <= k < len -> code_at encoded' k = code <$> aget speechIn k) /\
    (forall j, len <= 2 * j -> aget encoded' j = aget encoded j) /\
    (forall k, 0 <= k < len -> aget decoded' k = (fun x => linear (code x)) <$> aget speechIn k) /\
    (forall k, len <= k -> aget decoded' k = aget decoded k).
Proof.
  intros Hc Hs He Hd.
  destruct (g711_encode_spec code Hc speechIn (Z.to_nat len) 0 encoded)
    as (enc' & H1 & Hz & _ & Hk & Hj); [lia..|by intros|].
  destruct (g711_decode_spec linear enc' (Z.to_nat len) 0 decoded)
    as (dec' & H2 & Hz2 & Hrest & Hk2); [lia..|].
  exists enc', dec'. do 2 (split; [done|]). split; [intros k Hr; apply Hk; lia|].
  split; [intros j Hr; apply Hj; lia|]. split.
  - intros k Hr. rewrite Hk2, Hk by lia. by destruct (aget speechIn k).
  - intros k Hr. apply Hrest. lia.
Qed.

(** ** Properties *)

(** C35. A frame survives the line: for both laws, encoding a frame of [len]
    samples - into an array with a byte per sample - puts the code of sample [k] into
    the low byte of word [k / 2] for an even and into the high byte for an odd [k],
    and decoding it again gives the frame of the quantised samples, in order; both
    functions answer [len], stay inside of their arrays and leave alone what is behind
    the frame (the last word of an odd frame is written as a whole). *)
Theorem G711_frame speechIn len encoded decoded
    (Hs : 0 <= len <= zlen speechIn) (He : len <= 2 * zlen encoded) (Hd : len <= zlen decoded) :
  (exists encoded' decoded',
     G711_EncodeU speechIn len encoded = Some (len, encoded') /\
     (forall k, 0 <= k < len -> code_at encoded' k = linear_to_ulaw <$> aget speechIn k) /\
     (forall j, len <= 2 * j -> aget encoded' j = aget encoded j) /\
     G711_DecodeU encoded' len decoded = Some (len, decoded', Some 1) /\
     (forall k, 0 <= k < len ->
        aget decoded' k = (fun x => ulaw_to_linear (linear_to_ulaw x)) <$> aget speechIn k) /\
     (forall k, len <= k -> aget decoded' k = aget decoded k)) /\
  (exists encoded' decoded',
     G711_EncodeA speechIn len encoded = Some (len, encoded') /\
     (forall k, 0 <= k < len -> code_at encoded' k = linear_to_alaw <$> aget speechIn k) /\
     (forall j, len <= 2 * j -> aget encoded' j = aget encoded j) /\
     G711_DecodeA encoded' len decoded = Some (len, decoded', Some 1) /\
     (forall k, 0 <= k < len ->
        aget decoded' k = (fun x => alaw_to_linear (linear_to_alaw x)) <$> aget speechIn k) /\
     (forall k, len <= k -> aget decoded' k = aget decoded k)).
Proof.
  assert ((len <? 0) = false) as Hl by (apply Z.ltb_ge; lia).
  unfold G711_EncodeU, G711_DecodeU, G711_EncodeA, G711_DecodeA. rewrite Hl.
  split.
  - destruct (frame_roundtrip linear_to_ulaw ulaw_to_linear speechIn len encoded decoded)
      as (e & d & H1 & H2 & H3 & H4 & H5 & H6); [apply linear_to_ulaw_u8|done..|].
    exists e, d. by rewrite H1, H2.
  - destruct (frame_roundtrip linear_to_alaw alaw_to_linear speechIn len encoded decoded)
      as (e & d & H1 & H2 & H3 & H4 & H5 & H6); [apply linear_to_alaw_u8|done..|].
    exists e, d. by rewrite H1, H2.
Qed.

Lemma G711_frame_witness :
  exists e d, G711_EncodeU [1000; -5; 32767] 3 [7; 7; 9] = Some (3, e) /\
    G711_DecodeU e 3 [0; 0; 0; 4] = Some (3, d, Some 1) /\
    aget e 2 = Some 9 /\ aget d 0 = Some 988 /\ aget d 3 = Some 4.
Proof.
  destruct (G711_frame [1000; -5; 32767] 3 [7; 7; 9] [0; 0; 0; 4]) as [(e & d & H1 & _ & H2 & H3 & H4 & H5) _];
    [vm_compute; split; discriminate|vm_compute; discriminate|vm_compute; discriminate|].
  exists e, d. split; [exact H1|]. split; [exact H3|]. split; [exact (H2 2 ltac:(lia))|].
  split; [exact (H4 0 ltac:(lia))|exact (H5 3 ltac:(lia))].
Defined.

(** A function that does not decrease from one sample to the next is monotone. *)
Lemma monotone_samples (f : Z -> Z) x y :
  (forall x, in_s16 x -> in_s16 (x + 1) -> f x <= f (x + 1)) ->
  in_s16 x -> in_s16 y -> x <= y -> f x <= f y.
Proof.
  intros H Hx Hy Hxy. unfold in_s16 in *.
  assert (forall n : nat, x + Z.of_nat n < 32768 -> f x <= f (x + Z.of_nat n)) as Hn.
  { induction n as [|n IH]; intros Hn; [replace (x + Z.of_nat 0) with x by lia; lia|].
    replace (x + Z.of_nat (S n)) with (x + Z.of_nat n + 1) by lia.
    specialize (H (x + Z.of_nat n)). lia. }
  specialize (Hn (Z.to_nat (y - x))). replace (x + Z.of_nat (Z.to_nat (y - x))) with y in Hn; lia.
Qed.

(** What a sample passes by evaluation. *)
Definition quantised_u (x : Z) : Z := ulaw_to_linear (linear_to_ulaw x).
Definition quantised_a (x : Z) : Z := alaw_to_linear (linear_to_alaw x).
Definition sample_ok (x : Z) : bool :=
  (negb (Z.abs x <=? 32635) || (32 * Z.abs (quantised_u x - x) <=? Z.abs x + 132))
  && (negb (32635 <? x) || (quantised_u x =? 32124))
  && (negb (x <? -32636) || (quantised_u x =? -32124))
  && (32 * Z.abs (quantised_a x - x) <=? Z.max 256 (Z.abs x))
  && ((x =? 32767) || (quantised_u x <=? quantised_u (x + 1)))
  && ((x =? 32767) || (quantised_a x <=? quantised_a (x + 1))).

Lemma all_samples_ok : all_dyadic sample_ok 16 (-32768) = true.
Proof. vm_compute. reflexivity. Qed.

Lemma sample_facts x :
  in_s16 x ->
  (Z.abs x <= 32635 -> 32 * Z.abs (quantised_u x - x) <= Z.abs x + 132) /\
  (32635 < x -> quantised_u x = 32124) /\ (x < -32636 -> quantised_u x = -32124) /\
  32 * Z.abs (quantised_a x - x) <= Z.max 256 (Z.abs x) /\
  (x <> 32767 -> quantised_u x <= quantised_u (x + 1) /\ quantised_a x <= quantised_a (x + 1)).
Proof.
  intros Hx. pose proof (all_dyadic_spec sample_ok 16 _ x all_samples_ok Hx) as H.
  unfold sample_ok in H.
  generalize dependent (quantised_u x). generalize dependent (quantised_a x). intros a u.
  rewrite !andb_true_iff, !orb_true_iff, !negb_true_iff, !Z.leb_le, !Z.leb_gt, !Z.ltb_ge, !Z.eqb_eq.
  lia.
Qed.

(** C36. The companding laws are quantisers with a relative error of about 3%:
    u-law is off by at most a 32nd of the biased magnitude for samples up to
    32635 and clips to 32124 beyond, A-law is off by at most a 32nd of the
    magnitude, or 8 for small samples; both are monotone, and encoding
    the decoded value of a code gives the code back, except for the negative
    zero 127 of u-law. *)
Theorem G711_companding x y c
    (Hx : in_s16 x) (Hy : in_s16 y) (Hxy : x <= y) (Hc : in_u8 c) :
  let U x := ulaw_to_linear (linear_to_ulaw x) in
  let A x := alaw_to_linear (linear_to_alaw x) in
  (Z.abs x <= 32635 -> 32 * Z.abs (U x - x) <= Z.abs x + 132) /\
  (32635 < x -> U x = 32124) /\ (x < -32636 -> U x = -32124) /\
  32 * Z.abs (A x - x) <= Z.max 256 (Z.abs x) /\
  U x <= U y /\ A x <= A y /\
  (c <> 127 -> linear_to_ulaw (ulaw_to_linear c) = c) /\
  linear_to_alaw (alaw_to_linear c) = c.
Proof.
  intros U A. change U with quantised_u. change A with quantised_a.
  assert (forall z, in_s16 z -> in_s16 (z + 1) ->
    quantised_u z <= quantised_u (z + 1) /\ quantised_a z <= quantised_a (z + 1)) as Hmono.
  { intros z Hz Hz1. apply sample_facts; [done|]. unfold in_s16 in *. lia. }
  pose proof (monotone_samples quantised_u x y (fun z H H' => proj1 (Hmono z H H')) Hx Hy Hxy).
  pose proof (monotone_samples quantised_a x y (fun z H H' => proj2 (Hmono z H H')) Hx Hy Hxy).
  destruct (sample_facts x Hx) as (H1 & H2 & H3 & H4 & _).
  pose proof (forall_below (fun c => ((c =? 127) || (linear_to_ulaw (ulaw_to_linear c) =? c))
    && (linear_to_alaw (alaw_to_linear c) =? c)) 256 c ltac:(vm_compute; reflexivity) Hc) as Hcode.
  cbv beta in Hcode. rewrite andb_true_iff, orb_true_iff, !Z.eqb_eq in Hcode.
  destruct Hcode as [Hu Ha]. split_and!; try done. intros Hc127. by destruct Hu.
Qed.

Lemma G711_companding_witness :
  let U x := ulaw_to_linear (linear_to_ulaw x) in
  32 * Z.abs (U 1000 - 1000) <= 1132 /\ U 1000 <= U 1001 /\ linear_to_alaw (alaw_to_linear 85) = 85.
Proof.
  destruct (G711_companding 1000 1001 85) as (H1 & _ & _ & _ & H5 & _ & _ & H8);
    [unfold in_s16; lia|unfold in_s16; lia|lia|unfold in_u8; lia|].
  split; [apply H1; simpl; lia|]. split; [exact H5|exact H8].
Defined.

(** The portable [bottom_bit] counts from one, against its comment and the
    assembler versions; [top_bit] counts from zero. *)
Example bottom_bit_counts_from_one : (bottom_bit 1, bottom_bit 0x80000000, top_bit 1) = (1, 32, 0).
Proof. reflexivity. Qed.

(** ** Linear PCM *)

Lemma pcm_loop_spec f speechIn todo : forall i speechOut,
  0 <= i -> i + Z.of_nat todo <= zlen speechIn -> i + Z.of_nat todo <= zlen speechOut ->
  exists out, pcm_loop f todo i speechIn speechOut = Some out /\ zlen out = zlen speechOut /\
    (forall k, 0 <= k < i \/ i + Z.of_nat todo <= k -> aget out k = aget speechOut k) /\
    (forall k, i <= k < i + Z.of_nat todo -> aget out k = f <$> aget speechIn k).
Proof.
  induction todo as [|todo IH]; intros i out Hi Hs Ho; cbn [pcm_loop].
  { exists out. split; [done|]. split; [done|]. split; [done|lia]. }
  destruct (aget_in speechIn i) as [x Hx]; [lia|]. rewrite Hx. cbn [mbind option_bind].
  rewrite aset_in by lia. cbn [mbind option_bind].
  destruct (IH (i + 1) (<[Z.to_nat i := f x]> out)) as (out' & -> & Hz & Hlow & Hhigh);
    rewrite ?zlen_insert in *; try lia.
  exists out'. split; [done|]. split; [done|]. split.
  - intros k Hk. rewrite Hlow by lia. apply aget_insert_ne; lia.
  - intros k Hk. destruct (decide (k = i)) as [->|]; [|apply Hhigh; lia].
    rewrite Hlow by lia. rewrite Hx. apply aget_insert_eq. lia.
Qed.

Lemma pcm_swap_bytes x : in_s16 x -> pcm_swap x = s16 (256 * (u16 x mod 256) + u16 x / 256).
Proof.
  intros Hx. pose proof (u16_range x) as Hu. unfold pcm_swap, in_u16 in *.
  generalize dependent (u16 x). intros u Hu. f_equal.
  rewrite Z.shiftr_div_pow2 by lia. change (2 ^ 8) with 256.
  change 0xFF00 with 65280. rewrite land_65280, Z.shiftl_mul_pow2 by lia. change (2 ^ 8) with 256.
  rewrite Z.div_mul by lia. rewrite Z.lor_comm.
  replace (256 * (u mod 256)) with (Z.shiftl (u mod 256) 8) at 1
    by (rewrite Z.shiftl_mul_pow2 by lia; change (2 ^ 8) with 256; lia).
  rewrite lor_shiftl_add by (change (2 ^ 8) with 256; Z.to_euclidean_division_equations; lia).
  change (2 ^ 8) with 256. lia.
Qed.

Lemma pcm_unswap_swap x : in_s16 x -> pcm_unswap (pcm_swap x) = x.
Proof.
  intros Hx. assert ((pcm_unswap (pcm_swap x) =? x) = true) as H; [|by apply Z.eqb_eq].
  apply (all_dyadic_spec (fun x => pcm_unswap (pcm_swap x) =? x) 16 (-32768));
    [vm_compute; reflexivity|done].
Qed.

(** Linear PCM is lossless: a frame of 16-bit samples that is encoded in
    network byte order and decoded again comes back unchanged, with its length,
    and the words on the line hold the high byte of each sample first. *)
Theorem Pcm16b_roundtrip speech len encoded decoded
    (Hs : Forall in_s16 speech) (Hlen : 0 <= len < 16384)
    (H1 : len <= zlen speech) (H2 : len <= zlen encoded) (H3 : len <= zlen decoded) :
  exists encoded' decoded',
    Pcm16b_EncodeW16 speech len encoded = Some (2 * len, encoded') /\
    Pcm16b_DecodeW16 encoded' (2 * len) decoded = Some (len, decoded', 1) /\
    (forall k x, 0 <= k < len -> aget speech k = Some x ->
       aget decoded' k = Some x /\
       aget encoded' k = Some (s16 (256 * (u16 x mod 256) + u16 x / 256))) /\
    (forall k, len <= k -> aget encoded' k = aget encoded k /\ aget decoded' k = aget decoded k).
Proof.
  destruct (pcm_loop_spec pcm_swap speech (Z.to_nat len) 0 encoded)
    as (enc & E1 & Z1 & L1 & K1); [lia..|].
  destruct (pcm_loop_spec pcm_unswap enc (Z.to_nat len) 0 decoded)
    as (dec & E2 & Z2 & L2 & K2); [lia..|].
  exists enc, dec. unfold Pcm16b_EncodeW16, Pcm16b_DecodeW16.
  rewrite E1. cbn [mbind option_bind]. rewrite Z.shiftl_mul_pow2 by lia. change (2 ^ 1) with 2.
  rewrite s16_id by (unfold in_s16; lia). split; [by rewrite Z.mul_comm|].
  rewrite shiftr_one, Z.mul_comm, Z.div_mul by lia. rewrite E2. cbn [mbind option_bind].
  split; [done|]. split.
  - intros k x Hk Hx. pose proof (aget_Forall _ _ _ _ Hs Hx) as Hxs. simpl in Hxs.
    rewrite K2, K1, Hx by lia. cbn. rewrite pcm_unswap_swap by done.
    by rewrite pcm_swap_bytes.
  - intros k Hk. by rewrite L1, L2 by lia.
Qed.

Lemma Pcm16b_roundtrip_witness :
  exists e d, Pcm16b_EncodeW16 [1; -2] 2 [0; 0] = Some (4, e) /\
    Pcm16b_DecodeW16 e 4 [0; 0; 9] = Some (2, d, 1) /\ aget d 1 = Some (-2) /\ aget e 0 = Some 256.
Proof.
  destruct (Pcm16b_roundtrip [1; -2] 2 [0; 0] [0; 0; 9]) as (e & d & H1 & H2 & H3 & _).
  - constructor; [vm_compute; split; congruence|]. constructor; [vm_compute; split; congruence|].
    constructor.
  - lia.
  - vm_compute; discriminate.
  - vm_compute; discriminate.
  - vm_compute; discriminate.
  - exists e, d. split; [exact H1|]. split; [exact H2|].
    split; [exact (proj1 (H3 1 (-2) ltac:(lia) eq_refl))
           |exact (proj2 (H3 0 1 ltac:(lia) eq_refl))].
Defined.
