(* ===== verification/ArithCoder.v ===== *)
(** The arithmetic coder of iSAC (fixed point), encoder side:
    [codecs/isac/fix/source/arith_routines.c], [arith_routines_hist.c] and the
    bit-stream structure of [structs.h].

    The stream is an array of 16-bit words that is filled byte by byte, high byte
    first; [full] is 1 between two words.  A pending carry is added to the bytes
    that have been written already.  This file holds the encoder's operations
    and an abstract coder on unbounded integers that they are proved to
    implement; the decoders are in [ArithDecoder]. *)
From S2P Require Import Prelude.

(** ** Bit streams ([structs.h]) *)

Record Bitstr_enc := mkEnc {
  be_stream : list Z;
  be_W_upper : Z;
  be_streamval : Z;
  be_stream_index : Z;
  be_full : Z;
}.
#[export] Instance eta_enc : Eta Bitstr_enc :=
  fun r => mkEnc (be_stream r) (be_W_upper r) (be_streamval r) (be_stream_index r) (be_full r).

Definition STREAM_MAXW16_60MS : Z := 200.
Definition ISAC_DISALLOWED_BITSTREAM_LENGTH : Z := 6440.

(** What a call does: go on with a value, or return a code at once. *)
Inductive flow (S A : Type) := Go (a : A) | Ret (code : Z) (s : S).
Arguments Go {S A} a.
Arguments Ret {S A} code s.

(** ** One symbol ([arith_routines_hist.c]) *)

(** The scaled interval bound: [W_upper * cdf >> 16] from 16-bit halves. *)
Definition interval_part (W cdf : Z) : Z :=
  let W_upper_LSB := Z.land W 0x0000FFFF in
  let W_upper_MSB := Z.shiftr W 16 in
  u32 (u32 (W_upper_MSB * cdf) + Z.shiftr (u32 (W_upper_LSB * cdf)) 16).

(** [while (!(++( *--p)))]: a carry into the words below position [p]. *)
Fixpoint carry_back (p : nat) (stream : list Z) : option (list Z) :=
  match p with
  | O => None
  | S p =>
      w ← aget stream (Z.of_nat p);
      let negCarry := u16 (w + 1) in
      stream ← aset stream (Z.of_nat p) negCarry;
      if negCarry =? 0 then carry_back p stream else Some stream
  end.

Definition propagate_carry (stream : list Z) (ptr full : Z) : option (list Z) :=
  if full =? 0 then
    w ← aget stream ptr;
    let negCarry := u16 (w + 0x0100) in
    stream ← aset stream ptr negCarry;
    if negCarry =? 0 then carry_back (Z.to_nat ptr) stream else Some stream
  else carry_back (Z.to_nat ptr) stream.

(** The most significant byte of [streamval] goes to the stream. *)
Definition put_byte (ptr : Z) (sd : Bitstr_enc) : option (Z * Bitstr_enc) :=
  if be_full sd =? 0 then
    w ← aget (be_stream sd) ptr;
    stream ← aset (be_stream sd) ptr (u16 (w + u16 (Z.shiftr (be_streamval sd) 24)));
    Some (ptr + 1, sd <| be_stream := stream |> <| be_full := 1 |>)
  else
    stream ← aset (be_stream sd) ptr (u16 (Z.shiftl (Z.shiftr (be_streamval sd) 24) 8));
    Some (ptr, sd <| be_stream := stream |> <| be_full := 0 |>).

(** The loop ends at the latest when the stream is full. *)
Fixpoint enc_renorm (fuel : nat) (W ptr : Z) (sd : Bitstr_enc)
    : option (flow Bitstr_enc (Z * Z * Bitstr_enc)) :=
  if negb (Z.land W 0xFF000000 =? 0) then Some (Go (W, ptr, sd)) else
  match fuel with
  | O => None
  | S fuel =>
      let W := u32 (Z.shiftl W 8) in
      r ← put_byte ptr sd;
      let '(ptr, sd) := r in
      if STREAM_MAXW16_60MS - 1 <? ptr then Some (Ret (- ISAC_DISALLOWED_BITSTREAM_LENGTH) sd) else
      enc_renorm fuel W ptr (sd <| be_streamval := u32 (Z.shiftl (be_streamval sd) 8) |>)
  end.

Definition enc_fuel : nat := 402.

Definition enc_symbol (W ptr : Z) (sd : Bitstr_enc) (cdfLo cdfHi : Z)
    : option (flow Bitstr_enc (Z * Z * Bitstr_enc)) :=
  let W_lower := u32 (interval_part W cdfLo + 1) in
  let W_upper := u32 (interval_part W cdfHi - W_lower) in
  let sd := sd <| be_streamval := u32 (be_streamval sd + W_lower) |> in
  stream ← (if be_streamval sd <? W_lower
            then propagate_carry (be_stream sd) ptr (be_full sd) else Some (be_stream sd));
  enc_renorm enc_fuel W_upper ptr (sd <| be_stream := stream |>).

Fixpoint enc_hist (todo : nat) (i : Z) (data : list Z) (cdf : list (list Z))
    (W ptr : Z) (sd : Bitstr_enc) : option (flow Bitstr_enc (Z * Z * Bitstr_enc)) :=
  match todo with
  | O => Some (Go (W, ptr, sd))
  | S todo =>
      x ← aget data i;
      table ← aget cdf i;
      cdfLo ← aget table (u32 x);
      cdfHi ← aget table (u32 x + 1);
      r ← enc_symbol W ptr sd cdfLo cdfHi;
      match r with
      | Ret code sd => Some (Ret code sd)
      | Go (W, ptr, sd) => enc_hist todo (i + 1) data cdf W ptr sd
      end
  end.

(** The fields that are written back when all is well. *)
Definition enc_finish (r : flow Bitstr_enc (Z * Z * Bitstr_enc)) : Z * Bitstr_enc :=
  match r with
  | Ret code sd => (code, sd)
  | Go (W, ptr, sd) => (0, sd <| be_stream_index := u16 ptr |> <| be_W_upper := W |>)
  end.

Definition EncHistMulti (sd : Bitstr_enc) (data : list Z) (cdf : list (list Z)) (lenData : Z)
    : option (Z * Bitstr_enc) :=
  r ← enc_hist (Z.to_nat lenData) 0 data cdf (be_W_upper sd) (be_stream_index sd) sd;
  Some (enc_finish r).

(** ** The end of a stream ([arith_routines.c]) *)

(** Adding [step] to [streamval], with the carry. *)
Definition term_add (step : Z) (sd : Bitstr_enc) : option Bitstr_enc :=
  let sd := sd <| be_streamval := u32 (be_streamval sd + step) |> in
  if be_streamval sd <? step then
    stream ← propagate_carry (be_stream sd) (be_stream_index sd) (be_full sd);
    Some (sd <| be_stream := stream |>)
  else Some sd.

Definition EncTerminate (sd : Bitstr_enc) : option (Z * Bitstr_enc) :=
  let ptr := be_stream_index sd in
  if 0x01FFFFFF <? be_W_upper sd then
    sd ← term_add 0x01000000 sd;
    r ← put_byte ptr sd;
    let '(ptr, sd) := r in
    Some (s16 (Z.shiftl ptr 1 + b2z (be_full sd =? 0)), sd)
  else
    sd ← term_add 0x00010000 sd;
    if negb (be_full sd =? 0) then
      stream ← aset (be_stream sd) ptr (u16 (Z.shiftr (be_streamval sd) 16));
      Some (s16 (Z.shiftl (ptr + 1) 1 + b2z (be_full sd =? 0)), sd <| be_stream := stream |>)
    else
      w ← aget (be_stream sd) ptr;
      stream ← aset (be_stream sd) ptr (Z.lor w (u16 (Z.shiftr (be_streamval sd) 24)));
      stream ← aset stream (ptr + 1) (Z.land (u16 (Z.shiftr (be_streamval sd) 8)) 0xFF00);
      Some (s16 (Z.shiftl (ptr + 1) 1 + b2z (be_full sd =? 0)), sd <| be_stream := stream |>).

(** A new stream ([encode.c], start of a packet); the words are left alone. *)
Definition enc_reset (sd : Bitstr_enc) : Bitstr_enc :=
  sd <| be_W_upper := 0xFFFFFFFF |> <| be_streamval := 0 |>
     <| be_stream_index := 0 |> <| be_full := 1 |>.

(** ** The abstract coder

    A coder state is the number of bytes written [n], the lower end [V] of the
    interval, on [n + 4] bytes, and the width [W]. *)

Definition part (W c : Z) : Z := W * c / 65536.

Fixpoint abs_renorm (k : nat) (s : Z * Z * Z) : Z * Z * Z :=
  match k with
  | O => s
  | S k => let '(n, V, W) := s in
           if W <? 2 ^ 24 then abs_renorm k (n + 1, 256 * V, 256 * W) else s
  end.

Definition abs_symbol (s : Z * Z * Z) (sym : Z * Z) : Z * Z * Z :=
  let '(n, V, W) := s in
  let '(lo, hi) := sym in
  abs_renorm 3 (n, V + part W lo + 1, part W hi - part W lo - 1).

Definition abs_run (s : Z * Z * Z) (syms : list (Z * Z)) : Z * Z * Z := foldl abs_symbol s syms.

Definition abs_start : Z * Z * Z := (0, 0, 0xFFFFFFFF).

(** A symbol is a non-empty interval of the cumulative distribution. *)
Definition sym_ok (sym : Z * Z) : Prop := 0 <= sym.1 /\ sym.1 < sym.2 /\ sym.2 <= 65535.

(** Byte [k] of a stream and the number made of its first [n] bytes. *)
Definition stream_byte (stream : list Z) (k : nat) : Z :=
  let w := default 0 (stream !! (k / 2)%nat) in
  if Nat.even k then w / 256 else w mod 256.

Fixpoint stream_val (stream : list Z) (n : nat) : Z :=
  match n with
  | O => 0
  | S n => 256 * stream_val stream n + stream_byte stream n
  end.

(** The bytes in the stream when the next word is [ptr]. *)
Definition bytes_out (ptr full : Z) : Z := 2 * ptr + b2z (full =? 0).

(** The encoder stands for the abstract state. *)
Record enc_at (sd : Bitstr_enc) (ptr : Z) (s : Z * Z * Z) : Prop := mkEncAt {
  ea_len : zlen (be_stream sd) = STREAM_MAXW16_60MS;
  ea_words : Forall in_u16 (be_stream sd);
  ea_val : in_u32 (be_streamval sd);
  ea_full : be_full sd = 0 \/ be_full sd = 1;
  ea_ptr : 0 <= ptr < STREAM_MAXW16_60MS;
  ea_low : be_full sd = 0 -> exists w, aget (be_stream sd) ptr = Some w /\ w mod 256 = 0;
  ea_n : s.1.1 = bytes_out ptr (be_full sd);
  ea_V : s.1.2 = stream_val (be_stream sd) (Z.to_nat s.1.1) * 2 ^ 32 + be_streamval sd;
  ea_top : s.1.2 + s.2 < 256 ^ (s.1.1 + 4);
}.

(** ** Interval arithmetic *)

Lemma interval_part_eq W c : in_u32 W -> 0 <= c <= 65535 -> interval_part W c = part W c.
Proof.
  intros HW Hc. unfold interval_part, part. cbv zeta.
  change 0xFFFF with (2 ^ 16 - 1). rewrite land_ones_mod by lia.
  rewrite !Z.shiftr_div_pow2 by lia. change (2 ^ 16) with 65536.
  assert (W = 65536 * (W / 65536) + W mod 65536) as E by (apply Z.div_mod; lia).
  assert (0 <= W / 65536 < 65536) as Hm by wrap_lia.
  assert (0 <= W mod 65536 < 65536) as Hl by (apply Z.mod_pos_bound; lia).
  set (m := W / 65536) in *. set (l := W mod 65536) in *.
  assert (W * c / 65536 = m * c + l * c / 65536) as ->.
  { rewrite E. replace ((65536 * m + l) * c) with (l * c + (m * c) * 65536) by lia.
    rewrite Z.div_add by lia. lia. }
  assert (0 <= m * c <= 65535 * 65535) by nia. assert (0 <= l * c <= 65535 * 65535) by nia.
  rewrite (u32_id (m * c)), (u32_id (l * c)) by (simpl; lia). apply u32_id.
  split; Z.to_euclidean_division_equations; lia.
Qed.

Lemma part_mono W c c' : 0 <= W -> c <= c' -> part W c <= part W c'.
Proof. intros. apply Z.div_le_mono; nia. Qed.

Lemma part_range W c : 0 <= W -> 0 <= c <= 65536 -> 0 <= part W c <= W.
Proof.
  intros. unfold part. split; [apply Z.div_pos; nia|].
  apply Z.div_le_upper_bound; nia.
Qed.

Lemma part_gap W lo hi : 2 ^ 24 <= W -> lo < hi -> part W lo + 256 <= part W hi.
Proof.
  intros HW Hlt. unfold part.
  replace (W * lo / 65536 + 256) with ((W * lo + 256 * 65536) / 65536)
    by (rewrite Z.div_add by lia; lia).
  apply Z.div_le_mono; [lia|]. assert (W * 1 <= W * (hi - lo)) by nia. lia.
Qed.

(** ** Streams as numbers *)

Lemma stream_byte_insert_ne stream p w k :
  (k / 2)%nat <> p -> stream_byte (<[p := w]> stream) k = stream_byte stream k.
Proof. intros. unfold stream_byte. by rewrite list_lookup_insert_ne. Qed.

Lemma stream_val_ext s s' n :
  (forall k, (k < n)%nat -> stream_byte s k = stream_byte s' k) -> stream_val s n = stream_val s' n.
Proof.
  induction n as [|n IH]; intros H; [done|]. cbn [stream_val].
  rewrite IH by (intros; apply H; lia). by rewrite H by lia.
Qed.

Lemma stream_val_lookup s s' n :
  (forall k, (2 * k < n)%nat -> s !! k = s' !! k) -> stream_val s n = stream_val s' n.
Proof.
  intros H. apply stream_val_ext. intros k Hk. unfold stream_byte.
  rewrite H; [done|]. pose proof (Nat.div_mod_eq k 2). lia.
Qed.

Lemma stream_val_insert s p w n : (n <= 2 * p)%nat -> stream_val (<[p := w]> s) n = stream_val s n.
Proof. intros. apply stream_val_lookup. intros k Hk. apply list_lookup_insert_ne. lia. Qed.

Lemma byte_even s p w : s !! p = Some w -> stream_byte s (2 * p) = w / 256.
Proof.
  intros H. unfold stream_byte. rewrite (Nat.mul_comm 2), Nat.div_mul by lia.
  rewrite Nat.even_mul, orb_true_r, H. done.
Qed.

Lemma byte_odd s p w : s !! p = Some w -> stream_byte s (S (2 * p)) = w mod 256.
Proof.
  intros H. unfold stream_byte. replace (S (2 * p) / 2)%nat with p
    by (apply Nat.div_unique with 1%nat; lia).
  rewrite Nat.even_succ, <- Nat.negb_even, Nat.even_mul, H. done.
Qed.

Lemma stream_val_word s p w :
  s !! p = Some w -> stream_val s (2 * S p) = 65536 * stream_val s (2 * p) + w.
Proof.
  intros H. replace (2 * S p)%nat with (S (S (2 * p))) by lia. cbn [stream_val].
  rewrite (byte_even s p w H), (byte_odd s p w H).
  pose proof (Z.div_mod w 256 ltac:(lia)). lia.
Qed.

Lemma stream_byte_range s k : Forall in_u16 s -> 0 <= stream_byte s k < 256.
Proof.
  intros H. unfold stream_byte. destruct (s !! _) as [w|] eqn:E; simpl; [|by case_match].
  rewrite Forall_lookup in H. specialize (H _ _ E). case_match; wrap_lia.
Qed.

Lemma stream_val_range s n : Forall in_u16 s -> 0 <= stream_val s n < 256 ^ Z.of_nat n.
Proof.
  intros H. induction n as [|n IH]; [done|]. cbn [stream_val].
  pose proof (stream_byte_range s n H). rewrite Nat2Z.inj_succ, Z.pow_succ_r by lia. lia.
Qed.

(** ** Carries *)

(** What adding one to the first [n] bytes leaves behind. *)
Definition carried (s s' : list Z) (n : nat) : Prop :=
  length s' = length s /\ Forall in_u16 s' /\
  stream_val s' n = stream_val s n + 1 /\
  (forall k, (n < 2 * k + 1)%nat -> s' !! k = s !! k).

Lemma carry_back_spec p : forall s,
  (p <= length s)%nat -> Forall in_u16 s ->
  stream_val s (2 * p) + 1 < 256 ^ Z.of_nat (2 * p) ->
  exists s', carry_back p s = Some s' /\ carried s s' (2 * p).
Proof.
  induction p as [|p IH]; intros s Hp Hs Hv; [done|].
  destruct (lookup_lt_is_Some_2 s p) as [w Hw]; [lia|].
  assert (in_u16 w) as Hw16 by (rewrite Forall_lookup in Hs; eauto).
  cbn [carry_back]. rewrite aget_lookup, Nat2Z.id, Hw by lia. cbn [mbind option_bind].
  rewrite aset_in by (unfold zlen; lia). rewrite Nat2Z.id. cbn [mbind option_bind].
  rewrite (stream_val_word s p w Hw) in Hv.
  assert (Forall in_u16 (<[p := u16 (w + 1)]> s)) as Hs' by (apply Forall_insert; auto using u16_range).
  assert ((<[p := u16 (w + 1)]> s) !! p = Some (u16 (w + 1))) as Hp'
    by (apply list_lookup_insert_eq; lia).
  destruct (Z.eqb_spec (u16 (w + 1)) 0) as [E|E].
  - assert (w = 65535) as -> by wrap_lia.
    destruct (IH (<[p := u16 (65535 + 1)]> s)) as (s' & Hc & Hl & Hf & Hval & Hrest);
      [rewrite length_insert; lia|done| |].
    { rewrite stream_val_insert by lia.
      replace (Z.of_nat (2 * S p)) with (Z.of_nat (2 * p) + 2) in Hv by lia.
      rewrite Z.pow_add_r in Hv by lia. lia. }
    exists s'. split; [exact Hc|]. split; [by rewrite Hl, length_insert|]. split; [done|]. split.
    + rewrite (stream_val_word s' p (u16 (65535 + 1))), (stream_val_word s p 65535) by
        (rewrite ?Hrest by lia; done).
      rewrite Hval, stream_val_insert by lia. rewrite E. lia.
    + intros k Hk. rewrite Hrest by lia. apply list_lookup_insert_ne. lia.
  - eexists. split; [done|]. split; [by rewrite length_insert|]. split; [done|]. split.
    + rewrite (stream_val_word _ p _ Hp'), (stream_val_word s p w Hw), stream_val_insert by lia.
      rewrite u16_id by wrap_lia. lia.
    + intros k Hk. apply list_lookup_insert_ne. lia.
Qed.

(** With a half-filled word the carry goes to its high byte first. *)
Lemma propagate_carry_spec s ptr full n :
  0 <= ptr -> ptr + 1 <= zlen s -> Forall in_u16 s -> (full = 0 \/ full = 1) ->
  (full = 0 -> exists w, aget s ptr = Some w /\ w mod 256 = 0) ->
  Z.of_nat n = bytes_out ptr full ->
  stream_val s n + 1 < 256 ^ Z.of_nat n ->
  exists s', propagate_carry s ptr full = Some s' /\ length s' = length s /\ Forall in_u16 s' /\
    stream_val s' n = stream_val s n + 1 /\
    (full = 0 -> exists w, aget s' ptr = Some w /\ w mod 256 = 0).
Proof.
  intros Hptr Hlen Hs Hfull Hlow Hn Hv. unfold propagate_carry, bytes_out in *.
  unfold zlen in Hlen.
  destruct Hfull as [-> | ->]; cbn [Z.eqb b2z] in *.
  2:{ replace n with (2 * Z.to_nat ptr)%nat in * by lia.
      destruct (carry_back_spec (Z.to_nat ptr) s) as (s' & -> & Hl & Hf & Hval & _); [lia|done..|].
      exists s'. split_and!; done. }
  destruct (Hlow eq_refl) as (w & Hw & Hw0). rewrite Hw. cbn [mbind option_bind].
  rewrite aset_in by (unfold zlen; lia). cbn [mbind option_bind].
  pose proof Hw as Hw'. rewrite aget_lookup in Hw' by lia.
  set (p := Z.to_nat ptr) in *. replace n with (S (2 * p)) in * by lia. cbn [stream_val] in *.
  rewrite (byte_even s p w Hw') in *.
  assert (in_u16 w) as Hw16 by (rewrite Forall_lookup in Hs; eauto).
  assert (Forall in_u16 (<[p := u16 (w + 256)]> s)) as Hs' by (apply Forall_insert; auto using u16_range).
  assert ((<[p := u16 (w + 256)]> s) !! p = Some (u16 (w + 256))) as Hp'
    by (apply list_lookup_insert_eq; lia).
  change 0x0100 with 256 in *. destruct (Z.eqb_spec (u16 (w + 256)) 0) as [E|E].
  - assert (w / 256 = 255) as Ew by wrap_lia. rewrite Ew in *.
    destruct (carry_back_spec p (<[p := u16 (w + 256)]> s)) as (s' & -> & Hl & Hf & Hval & Hrest);
      [rewrite length_insert; lia|done| |].
    { rewrite stream_val_insert by lia. rewrite Nat2Z.inj_succ, Z.pow_succ_r in Hv by lia. lia. }
    exists s'. split; [done|]. split; [by rewrite Hl, length_insert|]. split; [done|].
    rewrite (byte_even s' p (u16 (w + 256))) by (rewrite Hrest by lia; done).
    rewrite Hval, stream_val_insert by lia. rewrite E. split; [change (0 / 256) with 0; lia|].
    intros _. exists 0. rewrite aget_lookup by lia. fold p. rewrite Hrest, Hp', E by lia. done.
  - eexists. split; [done|]. split; [by rewrite length_insert|]. split; [done|].
    rewrite (byte_even _ p _ Hp'), stream_val_insert by lia. split; [wrap_lia|].
    intros _. exists (u16 (w + 256)). rewrite aget_lookup by lia. fold p. split; [done|wrap_lia].
Qed.

(** ** The encoder implements the abstract coder *)

(** The byte that [put_byte] appends to the first [n]. *)
Lemma put_byte_val sd ptr s :
  enc_at sd ptr s ->
  exists ptr' sd', put_byte ptr sd = Some (ptr', sd') /\
    0 <= ptr' <= STREAM_MAXW16_60MS /\ s.1.1 + 1 = bytes_out ptr' (be_full sd') /\
    be_streamval sd' = be_streamval sd /\ (be_full sd' = 0 \/ be_full sd' = 1) /\
    zlen (be_stream sd') = STREAM_MAXW16_60MS /\ Forall in_u16 (be_stream sd') /\
    (be_full sd' = 0 -> exists w, aget (be_stream sd') ptr' = Some w /\ w mod 256 = 0) /\
    stream_val (be_stream sd') (S (Z.to_nat s.1.1)) =
      256 * stream_val (be_stream sd) (Z.to_nat s.1.1) + be_streamval sd / 2 ^ 24.
Proof.
  intros [Hl Hs Hv Hfull Hptr Hlow Hn HV Htop]. generalize dependent s.1.1. intros n Hn HV Htop.
  assert (0 <= be_streamval sd / 2 ^ 24 < 256) as Hb by wrap_lia.
  unfold put_byte, bytes_out, zlen in *. rewrite Z.shiftr_div_pow2 by lia.
  cbn [stream_val]. set (p := Z.to_nat ptr) in *.
  destruct Hfull as [E|E]; rewrite E in *; cbn [Z.eqb b2z] in *.
  - destruct (Hlow eq_refl) as (w & Hw & Hw0). rewrite Hw. cbn [mbind option_bind].
    rewrite aset_in by (unfold zlen; lia). cbn [mbind option_bind]. fold p.
    rewrite aget_lookup in Hw by lia. fold p in Hw.
    replace (Z.to_nat n) with (S (2 * p)) by lia.
    assert (in_u16 w) as Hw16 by (rewrite Forall_lookup in Hs; eauto).
    set (w' := u16 (w + u16 (be_streamval sd / 2 ^ 24))).
    assert (w' = w + be_streamval sd / 2 ^ 24) as Ew by (unfold w'; wrap_lia).
    assert (<[p := w']> (be_stream sd) !! p = Some w') as Hp' by (apply list_lookup_insert_eq; lia).
    eexists _, _. split; [reflexivity|]. cbn -[stream_val].
    change (p + (p + 0))%nat with (2 * p)%nat. rewrite length_insert. split_and!; try lia; auto.
    + apply Forall_insert; [done|apply u16_range].
    + rewrite (byte_odd _ p w' Hp'). cbn [stream_val]. rewrite stream_val_insert by lia.
      rewrite (byte_even _ p w' Hp'), (byte_even _ p w Hw), Ew.
      Z.to_euclidean_division_equations; lia.
  - rewrite aset_in by (unfold zlen; lia). cbn [mbind option_bind]. fold p.
    replace (Z.to_nat n) with (2 * p)%nat by lia. rewrite Z.shiftl_mul_pow2 by lia.
    set (w' := u16 (be_streamval sd / 2 ^ 24 * 2 ^ 8)).
    assert (w' = 256 * (be_streamval sd / 2 ^ 24)) as Ew by (unfold w'; wrap_lia).
    assert (<[p := w']> (be_stream sd) !! p = Some w') as Hp' by (apply list_lookup_insert_eq; lia).
    eexists _, _. split; [reflexivity|]. cbn -[stream_val].
    change (p + (p + 0))%nat with (2 * p)%nat. rewrite length_insert. split_and!; try lia; auto.
    + apply Forall_insert; [done|apply u16_range].
    + intros _. exists w'. rewrite aget_lookup by lia. fold p. split; [done|]. rewrite Ew. wrap_lia.
    + rewrite (byte_even _ p w' Hp'), stream_val_insert by lia.
      rewrite Ew. Z.to_euclidean_division_equations; lia.
Qed.

(** Writing a byte and shifting [streamval] refines the interval; the stream
    may be full now. *)
Lemma put_byte_at sd ptr n V W :
  enc_at sd ptr (n, V, W) -> W < 2 ^ 24 ->
  exists ptr' sd', put_byte ptr sd = Some (ptr', sd') /\
    ptr' <= STREAM_MAXW16_60MS /\ n + 1 = bytes_out ptr' (be_full sd') /\
    (ptr' < STREAM_MAXW16_60MS ->
     enc_at (sd' <| be_streamval := u32 (Z.shiftl (be_streamval sd') 8) |>) ptr' (n + 1, 256 * V, 256 * W)).
Proof.
  intros Hat HW. destruct (put_byte_val sd ptr (n, V, W) Hat)
    as (ptr' & sd' & E & Hp & Hn' & Hv' & Hfull & Hl & Hs & Hlow & Hval).
  destruct Hat as [_ _ Hv _ Hptr _ Hn HV Htop]. cbn [fst snd] in *.
  assert (0 <= n) as Hn0 by (rewrite Hn; unfold bytes_out, b2z; case_match; lia).
  exists ptr', sd'. split; [done|]. split; [lia|]. split; [done|]. intros Hroom.
  split; cbn -[stream_val]; auto; try exact (u32_range _); [lia| |].
  - replace (Z.to_nat (n + 1)) with (S (Z.to_nat n)) by lia.
    rewrite Hval, Hv', HV, Z.shiftl_mul_pow2 by lia. wrap_lia.
  - replace (n + 1 + 4) with (Z.succ (n + 4)) by lia. rewrite Z.pow_succ_r by lia. lia.
Qed.

(** Adding to [streamval], with the carry. *)
Lemma enc_add sd ptr n V W add :
  enc_at sd ptr (n, V, W) -> 0 < add < 2 ^ 32 -> V + add < 256 ^ (n + 4) ->
  exists stream, (if u32 (be_streamval sd + add) <? add
     then propagate_carry (be_stream sd) ptr (be_full sd) else Some (be_stream sd)) = Some stream /\
    forall W', V + add + W' < 256 ^ (n + 4) ->
      enc_at (sd <| be_streamval := u32 (be_streamval sd + add) |> <| be_stream := stream |>)
        ptr (n, V + add, W').
Proof.
  intros [Hl Hs Hv Hfull Hptr Hlow Hn HV Htop] Hadd Hlt. cbn [fst snd] in *.
  assert (0 <= n) as Hn0 by (rewrite Hn; unfold bytes_out, b2z; case_match; lia).
  set (E := stream_val (be_stream sd) (Z.to_nat n)) in *.
  assert (exists stream, (if u32 (be_streamval sd + add) <? add
      then propagate_carry (be_stream sd) ptr (be_full sd) else Some (be_stream sd)) = Some stream /\
    length stream = length (be_stream sd) /\ Forall in_u16 stream /\
    V + add = stream_val stream (Z.to_nat n) * 2 ^ 32 + u32 (be_streamval sd + add) /\
    (be_full sd = 0 -> exists w, aget stream ptr = Some w /\ w mod 256 = 0))
    as (stream & E' & Hl' & Hs' & HV' & Hlow').
  { destruct (Z.ltb_spec (u32 (be_streamval sd + add)) add) as [Hc|Hc].
    - assert (be_streamval sd + add = u32 (be_streamval sd + add) + 2 ^ 32) as Ec by wrap_lia.
      destruct (propagate_carry_spec (be_stream sd) ptr (be_full sd) (Z.to_nat n))
        as (s' & -> & Hl' & Hs' & Hval & Hlow'); try done; try lia.
      { rewrite Z2Nat.id by lia. fold E. rewrite Z.pow_add_r in Hlt by lia.
        change (256 ^ 4) with (2 ^ 32) in Hlt. wrap_lia. }
      exists s'. split_and!; try done. fold E in Hval. lia.
    - exists (be_stream sd). split_and!; try done. fold E.
      rewrite u32_id in * by wrap_lia. lia. }
  exists stream. split; [done|]. intros W' HW'.
  split; cbn; auto; try exact (u32_range _). unfold zlen in *. by rewrite Hl'.
Qed.

Lemma renorm_test W : in_u32 W -> (Z.land W 0xFF000000 =? 0) = (W <? 2 ^ 24).
Proof.
  intros HW. change 0xFF000000 with ((2 ^ 8 - 1) * 2 ^ 24). rewrite land_mask by lia.
  apply eq_true_iff_eq. rewrite Z.eqb_eq, Z.ltb_lt. wrap_lia.
Qed.

(** What a run of the encoder gives for the abstract state it leads to. *)
Definition enc_result (r : option (flow Bitstr_enc (Z * Z * Bitstr_enc))) (s : Z * Z * Z) : Prop :=
  if s.1.1 <? 2 * STREAM_MAXW16_60MS then
    exists ptr sd, r = Some (Go (s.2, ptr, sd)) /\ enc_at sd ptr s
  else exists sd, r = Some (Ret (- ISAC_DISALLOWED_BITSTREAM_LENGTH) sd).

Lemma enc_at_room sd ptr s : enc_at sd ptr s -> s.1.1 < 2 * STREAM_MAXW16_60MS.
Proof. intros []. unfold bytes_out, b2z in *. case_match; lia. Qed.

Lemma abs_renorm_grows k : forall n V W, n <= (abs_renorm k (n, V, W)).1.1.
Proof.
  induction k as [|k IH]; intros n V W; cbn [abs_renorm]; [cbn; lia|].
  case_match; cbn [fst]; [|lia]. specialize (IH (n + 1) (256 * V) (256 * W)). lia.
Qed.

Lemma enc_renorm_spec k : forall fuel sd ptr n V W,
  (k <= fuel)%nat -> enc_at sd ptr (n, V, W) -> in_u32 W -> 2 ^ 24 <= W * 256 ^ Z.of_nat k ->
  enc_result (enc_renorm fuel W ptr sd) (abs_renorm k (n, V, W)).
Proof.
  induction k as [|k IH]; intros fuel sd ptr n V W Hfuel Hat HW Hk; cbn [abs_renorm].
  all: assert (enc_renorm fuel W ptr sd =
    if W <? 2 ^ 24 then enc_renorm fuel W ptr sd else Some (Go (W, ptr, sd))) as E
    by (destruct fuel; cbn [enc_renorm]; rewrite renorm_test by done; destruct (W <? 2 ^ 24); reflexivity).
  - rewrite E. destruct (Z.ltb_spec W (2 ^ 24)); [cbn in Hk; lia|].
    unfold enc_result. pose proof (enc_at_room _ _ _ Hat). rewrite (proj2 (Z.ltb_lt _ _)) by done. eauto.
  - destruct (Z.ltb_spec W (2 ^ 24)) as [Hlt|].
    2:{ rewrite E. unfold enc_result. pose proof (enc_at_room _ _ _ Hat).
        rewrite (proj2 (Z.ltb_lt _ _)) by done. eauto. }
    destruct fuel as [|fuel]; [lia|]. cbn [enc_renorm]. rewrite renorm_test by done.
    rewrite (proj2 (Z.ltb_lt _ _) Hlt). cbn [negb].
    assert (u32 (Z.shiftl W 8) = 256 * W) as ->.
    { rewrite Z.shiftl_mul_pow2 by lia. wrap_lia. }
    destruct (put_byte_at sd ptr n V W Hat Hlt) as (ptr' & sd' & -> & Hp & Hn' & Hnext).
    cbn [mbind option_bind]. case_if.
    + assert (ptr' = 200) as -> by (unfold STREAM_MAXW16_60MS in *; lia).
      unfold enc_result. rewrite (proj2 (Z.ltb_ge _ _)); [eauto|].
      pose proof (abs_renorm_grows k (n + 1) (256 * V) (256 * W)).
      unfold bytes_out, b2z, STREAM_MAXW16_60MS in *. case_match; lia.
    + apply IH; [lia|apply Hnext; lia| |].
      * assert (2 ^ 24 * 256 = 4294967296) by done. wrap_lia.
      * rewrite Nat2Z.inj_succ, Z.pow_succ_r in Hk by lia. lia.
Qed.

Lemma abs_renorm_width n V W :
  0 < W < 2 ^ 32 -> 2 ^ 24 <= (abs_renorm 3 (n, V, W)).2 < 2 ^ 32.
Proof. intros HW. cbn [abs_renorm]. repeat case_match; bool_lia; cbn [snd]; lia. Qed.

(** ** One symbol *)

Definition width_ok (s : Z * Z * Z) : Prop := 2 ^ 24 <= s.2 < 2 ^ 32.

Lemma abs_symbol_width s sym : width_ok s -> sym_ok sym -> width_ok (abs_symbol s sym).
Proof.
  destruct s as [[n V] W], sym as [lo hi]. intros HW (Hlo & Hlt & Hhi). unfold width_ok in *.
  cbn [fst snd abs_symbol] in *. apply abs_renorm_width.
  pose proof (part_gap W lo hi ltac:(lia) Hlt).
  pose proof (part_range W lo ltac:(lia) ltac:(lia)). pose proof (part_range W hi ltac:(lia) ltac:(lia)).
  lia.
Qed.

(** The two bounds of a symbol's interval. *)
Lemma symbol_bounds W lo hi :
  2 ^ 24 <= W < 2 ^ 32 -> sym_ok (lo, hi) ->
  interval_part W lo = part W lo /\ interval_part W hi = part W hi /\
  0 <= part W lo /\ part W lo + 256 <= part W hi /\ part W hi <= W.
Proof.
  intros HW (Hlo & Hlt & Hhi). cbn [fst snd] in *.
  rewrite !interval_part_eq by (unfold in_u32; lia).
  pose proof (part_gap W lo hi ltac:(lia) Hlt).
  pose proof (part_range W lo ltac:(lia) ltac:(lia)). pose proof (part_range W hi ltac:(lia) ltac:(lia)).
  tauto.
Qed.

Lemma enc_symbol_spec sd ptr n V W lo hi :
  enc_at sd ptr (n, V, W) -> width_ok (n, V, W) -> sym_ok (lo, hi) ->
  enc_result (enc_symbol W ptr sd lo hi) (abs_symbol (n, V, W) (lo, hi)).
Proof.
  intros Hat HW Hsym. unfold width_ok in HW. cbn [fst snd] in HW.
  pose proof (ea_top _ _ _ Hat) as Htop. cbn [fst snd] in Htop.
  destruct (symbol_bounds W lo hi HW Hsym) as (El & Eh & Hl & Hg & Hh).
  unfold enc_symbol, abs_symbol. rewrite El, Eh.
  generalize dependent (part W lo). intros plo El Hl Hg. generalize dependent (part W hi). intros phi Eh Hg Hh.
  clear El Eh Hsym.
  rewrite (u32_id (plo + 1)), (u32_id (phi - (plo + 1))) by (unfold in_u32; lia). cbv zeta.
  replace (V + plo + 1) with (V + (plo + 1)) by lia.
  replace (phi - plo - 1) with (phi - (plo + 1)) by lia.
  destruct (enc_add sd ptr n V W (plo + 1) Hat) as (stream & E & Hat'); [lia|lia|].
  change (be_streamval (sd <| be_streamval := ?v |>)) with v.
  change (be_stream (sd <| be_streamval := ?v |>)) with (be_stream sd).
  change (be_full (sd <| be_streamval := ?v |>)) with (be_full sd).
  rewrite E. cbn [mbind option_bind]. apply enc_renorm_spec; [unfold enc_fuel; lia| |unfold in_u32; lia|].
  - apply Hat'. lia.
  - change (256 ^ Z.of_nat 3) with (2 ^ 24). lia.
Qed.

(** ** Sequences of symbols *)

(** The loop of both encoders, once their symbols are known. *)
Fixpoint enc_syms (syms : list (Z * Z)) (W ptr : Z) (sd : Bitstr_enc)
    : option (flow Bitstr_enc (Z * Z * Bitstr_enc)) :=
  match syms with
  | [] => Some (Go (W, ptr, sd))
  | (lo, hi) :: syms =>
      r ← enc_symbol W ptr sd lo hi;
      match r with
      | Ret code sd => Some (Ret code sd)
      | Go (W, ptr, sd) => enc_syms syms W ptr sd
      end
  end.

Lemma abs_run_grows syms : forall s, s.1.1 <= (abs_run s syms).1.1.
Proof.
  induction syms as [|[lo hi] syms IH]; intros [[n V] W]; [done|].
  change (abs_run (n, V, W) ((lo, hi) :: syms)) with (abs_run (abs_symbol (n, V, W) (lo, hi)) syms).
  specialize (IH (abs_symbol (n, V, W) (lo, hi))).
  pose proof (abs_renorm_grows 3 n (V + part W lo + 1) (part W hi - part W lo - 1)).
  cbn [abs_symbol fst] in *. lia.
Qed.

Lemma abs_run_width syms : forall s, width_ok s -> Forall sym_ok syms -> width_ok (abs_run s syms).
Proof.
  induction syms as [|sym syms IH]; intros s Hs Hf; [done|]. inversion Hf; subst.
  apply IH; [by apply abs_symbol_width|done].
Qed.

Lemma enc_syms_spec syms : forall sd ptr s,
  enc_at sd ptr s -> width_ok s -> Forall sym_ok syms ->
  enc_result (enc_syms syms s.2 ptr sd) (abs_run s syms).
Proof.
  induction syms as [|[lo hi] syms IH]; intros sd ptr [[n V] W] Hat HW Hf; cbn [snd enc_syms].
  { unfold enc_result. rewrite (proj2 (Z.ltb_lt _ _)) by (eapply enc_at_room; exact Hat). eauto. }
  inversion Hf; subst.
  change (abs_run (n, V, W) ((lo, hi) :: syms)) with (abs_run (abs_symbol (n, V, W) (lo, hi)) syms).
  pose proof (enc_symbol_spec sd ptr n V W lo hi Hat HW ltac:(done)) as Hstep.
  pose proof (abs_symbol_width _ (lo, hi) HW ltac:(done)) as HW'.
  set (s' := abs_symbol (n, V, W) (lo, hi)) in *. clearbody s'. unfold enc_result in Hstep.
  destruct (Z.ltb_spec s'.1.1 (2 * STREAM_MAXW16_60MS)).
  - destruct Hstep as (ptr' & sd' & -> & Hat'). cbn [mbind option_bind]. by apply IH.
  - destruct Hstep as (sd' & ->). cbn [mbind option_bind]. unfold enc_result.
    pose proof (abs_run_grows syms s'). rewrite (proj2 (Z.ltb_ge _ _)) by lia. eauto.
Qed.

(** The intervals of the data in their histograms. *)
Fixpoint hist_syms (todo : nat) (i : Z) (data : list Z) (cdf : list (list Z)) : option (list (Z * Z)) :=
  match todo with
  | O => Some []
  | S todo =>
      x ← aget data i;
      table ← aget cdf i;
      lo ← aget table (u32 x);
      hi ← aget table (u32 x + 1);
      syms ← hist_syms todo (i + 1) data cdf;
      Some ((lo, hi) :: syms)
  end.

Lemma enc_hist_syms todo : forall i data cdf syms W ptr sd,
  hist_syms todo i data cdf = Some syms -> enc_hist todo i data cdf W ptr sd = enc_syms syms W ptr sd.
Proof.
  induction todo as [|todo IH]; intros i data cdf syms W ptr sd H; cbn [hist_syms enc_hist] in *.
  - by injection H as <-.
  - destruct (aget data i) as [x|]; [|done]. cbn [mbind option_bind] in *.
    destruct (aget cdf i) as [table|]; [|done]. cbn [mbind option_bind] in *.
    destruct (aget table (u32 x)) as [lo|]; [|done]. cbn [mbind option_bind] in *.
    destruct (aget table (u32 x + 1)) as [hi|]; [|done]. cbn [mbind option_bind] in *.
    destruct (hist_syms todo (i + 1) data cdf) as [syms'|] eqn:E; [|done]. cbn [mbind option_bind] in *.
    injection H as <-. cbn [enc_syms]. destruct (enc_symbol W ptr sd lo hi) as [[[[W' ptr'] sd']|]|];
      cbn [mbind option_bind]; [|done..]. by apply IH.
Qed.

(** Nothing but the stream, the value and [full] changes on the way. *)
Lemma enc_at_fields sd ptr s W idx :
  enc_at sd ptr s -> enc_at (sd <| be_stream_index := idx |> <| be_W_upper := W |>) ptr s.
Proof. intros []. by split. Qed.

(** ** The end of a stream *)

(** Every stream [D] that starts with the bytes written lies in the interval. *)
Definition inside (D : list Z) (s : Z * Z * Z) : Prop :=
  s.1.2 <= stream_val D (Z.to_nat (s.1.1 + 4)) <= s.1.2 + s.2.

Lemma stream_val_tail D n m :
  Forall in_u16 D ->
  exists r, stream_val D (n + m) = stream_val D n * 256 ^ Z.of_nat m + r /\ 0 <= r < 256 ^ Z.of_nat m.
Proof.
  intros HD. induction m as [|m (r & E & Hr)].
  { exists 0. rewrite Nat.add_0_r. change (256 ^ Z.of_nat 0) with 1. lia. }
  exists (256 * r + stream_byte D (n + m)). pose proof (stream_byte_range D (n + m) HD).
  rewrite <- plus_n_Sm, Nat2Z.inj_succ, Z.pow_succ_r by lia. cbn [stream_val]. rewrite E. lia.
Qed.

Definition same_bytes (D stream : list Z) (n : Z) : Prop :=
  Forall in_u16 D /\ forall k, Z.of_nat k < n -> stream_byte D k = stream_byte stream k.

Lemma same_bytes_val D stream n m :
  same_bytes D stream n -> m <= n -> stream_val D (Z.to_nat m) = stream_val stream (Z.to_nat m).
Proof. intros [_ H] Hm. apply stream_val_ext. intros k Hk. apply H. lia. Qed.

(** The last bytes select the middle of the interval. *)
Lemma inside_last D stream n V W (m : Z) :
  same_bytes D stream (n + m) -> 0 <= n -> m = 1 \/ m = 2 ->
  2 ^ (32 - 8 * m + 1) <= W + 1 ->
  stream_val stream (Z.to_nat (n + m)) = (V + 2 ^ (32 - 8 * m)) / 2 ^ (32 - 8 * m) ->
  inside D (n, V, W).
Proof.
  intros Hsame Hn Hm HW Hval. unfold inside. cbn [fst snd].
  rewrite <- (same_bytes_val D stream (n + m) (n + m) Hsame) in Hval by lia.
  destruct (stream_val_tail D (Z.to_nat (n + m)) (Z.to_nat (4 - m))) as (r & E & Hr); [apply Hsame|].
  replace (Z.to_nat (n + m) + Z.to_nat (4 - m))%nat with (Z.to_nat (n + 4)) in E by lia.
  rewrite E, Hval. clear E Hval. destruct Hm as [-> | ->].
  - change (256 ^ Z.of_nat (Z.to_nat (4 - 1))) with 16777216 in *.
    change (2 ^ (32 - 8 * 1)) with 16777216 in *. change (2 ^ (32 - 8 * 1 + 1)) with 33554432 in *.
    Z.to_euclidean_division_equations; lia.
  - change (256 ^ Z.of_nat (Z.to_nat (4 - 2))) with 65536 in *.
    change (2 ^ (32 - 8 * 2)) with 65536 in *. change (2 ^ (32 - 8 * 2 + 1)) with 131072 in *.
    Z.to_euclidean_division_equations; lia.
Qed.

Lemma term_add_spec step sd ptr n V W :
  enc_at sd ptr (n, V, W) -> be_stream_index sd = ptr -> 0 < step <= W -> W < 2 ^ 32 ->
  exists sd', term_add step sd = Some sd' /\ enc_at sd' ptr (n, V + step, W - step).
Proof.
  intros Hat Hi Hstep HW. pose proof (ea_top _ _ _ Hat) as Htop. cbn [fst snd] in Htop.
  destruct (enc_add sd ptr n V W step Hat) as (stream & E & Hat'); [lia|lia|].
  specialize (Hat' (W - step) ltac:(lia)). unfold term_add. cbn in *. rewrite Hi in *.
  destruct (u32 (be_streamval sd + step) <? step).
  - rewrite E. cbn [mbind option_bind]. eauto.
  - injection E as <-. eexists. split; [done|]. by destruct sd.
Qed.

Lemma term_len ptr full : 0 <= ptr <= 200 -> full = 0 \/ full = 1 ->
  s16 (Z.shiftl ptr 1 + b2z (full =? 0)) = bytes_out ptr full.
Proof.
  intros Hp Hf. rewrite Z.shiftl_mul_pow2 by lia. unfold bytes_out.
  destruct Hf as [-> | ->]; cbn [Z.eqb b2z]; rewrite s16_id by (simpl; lia); lia.
Qed.

(** The two bytes of the long ending, at either half of a word. *)
Lemma term_two_bytes sd ptr n V W :
  enc_at sd ptr (n, V, W) -> n + 2 <= 2 * STREAM_MAXW16_60MS ->
  exists stream,
    (if negb (be_full sd =? 0) then aset (be_stream sd) ptr (u16 (Z.shiftr (be_streamval sd) 16))
     else w ← aget (be_stream sd) ptr;
          stream ← aset (be_stream sd) ptr (Z.lor w (u16 (Z.shiftr (be_streamval sd) 24)));
          aset stream (ptr + 1) (Z.land (u16 (Z.shiftr (be_streamval sd) 8)) 0xFF00)) = Some stream /\
    zlen stream = STREAM_MAXW16_60MS /\
    stream_val stream (Z.to_nat (n + 2)) =
      65536 * stream_val (be_stream sd) (Z.to_nat n) + be_streamval sd / 2 ^ 16.
Proof.
  intros [Hl Hs Hv Hfull Hptr Hlow Hn _ _] Hroom. unfold bytes_out in *. cbn [fst snd] in *.
  rewrite !Z.shiftr_div_pow2 by lia. set (p := Z.to_nat ptr) in *.
  destruct Hfull as [E|E]; rewrite E in *; cbn [Z.eqb negb b2z] in *.
  - destruct (Hlow eq_refl) as (w & Hw & Hw0). rewrite Hw. cbn [mbind option_bind].
    unfold STREAM_MAXW16_60MS in *.
    rewrite aset_in by lia. cbn [mbind option_bind]. rewrite aset_in by (rewrite zlen_insert; lia).
    rewrite aget_lookup in Hw by lia. fold p in Hw |- *.
    eexists. split; [done|]. split; [by rewrite !zlen_insert|].
    replace (Z.to_nat (ptr + 1)) with (S p) by lia.
    set (w1 := Z.lor w _). set (w2 := Z.land _ _).
    assert (w1 = w + be_streamval sd / 2 ^ 24) as E1.
    { unfold w1. rewrite u16_id by wrap_lia. rewrite (Z.div_mod w 256), Hw0 by lia.
      replace (256 * (w / 256) + 0) with (Z.shiftl (w / 256) 8) by (rewrite Z.shiftl_mul_pow2 by lia; lia).
      rewrite lor_shiftl_add by wrap_lia. rewrite Z.shiftl_mul_pow2 by lia. done. }
    assert (w2 = 256 * (be_streamval sd / 2 ^ 16 mod 256)) as E2.
    { unfold w2. rewrite land_65280. wrap_lia. }
    set (stream := <[S p := w2]> _).
    assert (stream !! p = Some w1) as H1.
    { unfold stream. rewrite list_lookup_insert_ne by lia. apply list_lookup_insert_eq. unfold zlen in *; lia. }
    assert (stream !! S p = Some w2) as H2
      by (apply list_lookup_insert_eq; rewrite length_insert; unfold zlen in *; lia).
    replace (Z.to_nat (n + 2)) with (S (2 * S p)) by lia. replace (Z.to_nat n) with (S (2 * p)) by lia.
    cbn [stream_val]. rewrite (byte_even _ _ _ H2), (stream_val_word _ _ _ H1), (byte_even _ _ _ Hw).
    unfold stream at 1. rewrite !stream_val_insert by lia. rewrite E1, E2. wrap_lia.
  - rewrite aset_in by lia. fold p. eexists. split; [done|]. split; [by rewrite zlen_insert|].
    replace (Z.to_nat (n + 2)) with (2 * S p)%nat by lia. replace (Z.to_nat n) with (2 * p)%nat by lia.
    rewrite (stream_val_word _ p (u16 (be_streamval sd / 2 ^ 16))), stream_val_insert
      by (try lia; apply list_lookup_insert_eq; unfold zlen in *; lia).
    rewrite u16_id by wrap_lia. lia.
Qed.

(** The end of a stream: where it is, and that it selects the interval. *)
Lemma EncTerminate_at sd s :
  enc_at sd (be_stream_index sd) s -> be_W_upper sd = s.2 -> width_ok s ->
  s.1.1 + 2 <= 2 * STREAM_MAXW16_60MS ->
  exists sd', EncTerminate sd = Some (s.1.1 + (if 0x01FFFFFF <? s.2 then 1 else 2), sd') /\
    zlen (be_stream sd') = STREAM_MAXW16_60MS /\
    forall D, same_bytes D (be_stream sd') (s.1.1 + (if 0x01FFFFFF <? s.2 then 1 else 2)) -> inside D s.
Proof.
  destruct s as [[n V] W]. cbn [fst snd]. intros Hat HWu HW Hroom. unfold width_ok in HW. cbn [snd] in HW.
  assert (0 <= n) as Hn0 by (pose proof (ea_n _ _ _ Hat); pose proof (ea_ptr _ _ _ Hat);
    cbn in *; unfold bytes_out, b2z in *; case_match; lia).
  unfold EncTerminate. rewrite HWu. destruct (Z.ltb_spec 0x01FFFFFF W).
  - destruct (term_add_spec 0x01000000 sd _ n V W Hat eq_refl) as (sd' & -> & Hat'); [lia|lia|].
    cbn [mbind option_bind]. pose proof (ea_V _ _ _ Hat') as HV. pose proof (ea_val _ _ _ Hat') as Hv.
    destruct (put_byte_val sd' _ _ Hat') as (ptr' & sd2 & -> & Hp & Hn & _ & Hf & Hl & _ & _ & Hval).
    cbn [mbind option_bind fst snd] in *. rewrite term_len, <- Hn by done.
    exists sd2. split; [done|]. split; [done|]. intros D HD.
    apply (inside_last D (be_stream sd2) n V W 1 HD Hn0); [lia|lia|].
    replace (Z.to_nat (n + 1)) with (S (Z.to_nat n)) by lia. rewrite Hval.
    change (2 ^ (32 - 8 * 1)) with (2 ^ 24). change 0x1000000 with (2 ^ 24) in HV. rewrite HV. wrap_lia.
  - destruct (term_add_spec 0x00010000 sd _ n V W Hat eq_refl) as (sd' & -> & Hat'); [lia|lia|].
    cbn [mbind option_bind]. pose proof (ea_V _ _ _ Hat') as HV. pose proof (ea_val _ _ _ Hat') as Hv.
    pose proof (ea_n _ _ _ Hat') as Hn. pose proof (ea_full _ _ _ Hat') as Hf. pose proof (ea_ptr _ _ _ Hat') as Hp.
    destruct (term_two_bytes sd' _ n _ _ Hat' Hroom) as (stream & E & Hl & Hval).
    cbn [fst snd] in *. unfold STREAM_MAXW16_60MS in Hp.
    assert (bytes_out (be_stream_index sd + 1) (be_full sd') = n + 2) as Hb by (unfold bytes_out in *; lia).
    exists (sd' <| be_stream := stream |>). rewrite term_len, Hb by (try done; lia). split.
    { destruct (negb (be_full sd' =? 0)); [by rewrite E|].
      destruct (aget (be_stream sd') _) as [w|]; [|done]. cbn [mbind option_bind] in *.
      destruct (aset (be_stream sd') _ _) as [s1|]; [|done]. cbn [mbind option_bind] in *. by rewrite E. }
    split; [done|]. intros D HD. apply (inside_last D stream n V W 2 HD Hn0); [lia|lia|].
    rewrite Hval. change (2 ^ (32 - 8 * 2)) with (2 ^ 16). change 0x10000 with (2 ^ 16) in HV. rewrite HV. wrap_lia.
Qed.

Lemma enc_reset_at sd :
  zlen (be_stream sd) = STREAM_MAXW16_60MS -> Forall in_u16 (be_stream sd) ->
  enc_at (enc_reset sd) 0 abs_start.
Proof. intros Hl Hf. split; cbn; auto; try done; lia. Qed.
