(* ===== verification/ArithDecoder.v ===== *)
(** The arithmetic coder of iSAC (fixed point), histogram decoders:
    [codecs/isac/fix/source/arith_routines_hist.c].  They follow the abstract
    coder of [ArithCoder] on every stream that lies in its interval. *)
From S2P Require Import Prelude ArithCoder.

Record Bitstr_dec := mkBd {
  bd_stream : list Z;
  bd_W_upper : Z;
  bd_streamval : Z;
  bd_stream_index : Z;
  bd_full : Z;
}.
#[export] Instance eta_bd : Eta Bitstr_dec :=
  fun r => mkBd (bd_stream r) (bd_W_upper r) (bd_streamval r) (bd_stream_index r) (bd_full r).

(** The local variables of the decoders, the field [full], which they change
    in place, and the output. *)
Record Dec := mkDec {
  d_W_lower : Z;
  d_W_upper : Z;
  d_streamval : Z;
  d_ptr : Z;
  d_full : Z;
  d_data : list Z;
}.
#[export] Instance eta_dec : Eta Dec :=
  fun r => mkDec (d_W_lower r) (d_W_upper r) (d_streamval r) (d_ptr r) (d_full r) (d_data r).

(** ** Parts all decoders share *)

Definition dec_start (sd : Bitstr_dec) (data : list Z) : option Dec :=
  if bd_stream_index sd =? 0 then
    w0 ← aget (bd_stream sd) 0;
    w1 ← aget (bd_stream sd) 1;
    Some (mkDec 0 (bd_W_upper sd) (Z.lor (u32 (Z.shiftl w0 16)) w1) 2 (bd_full sd) data)
  else
    Some (mkDec 0 (bd_W_upper sd) (bd_streamval sd) (bd_stream_index sd) (bd_full sd) data).

Definition dec_byte (stream : list Z) (d : Dec) : option Dec :=
  w ← aget stream (d_ptr d);
  let streamval := u32 (Z.shiftl (d_streamval d) 8) in
  Some (if d_full d =? 0
        then d <| d_streamval := Z.lor streamval (Z.land w 0x00FF) |> <| d_ptr := d_ptr d + 1 |> <| d_full := 1 |>
        else d <| d_streamval := Z.lor streamval (Z.shiftr w 8) |> <| d_full := 0 |>).

(** An interval of width 0 never ends the loop, which then leaves the stream:
    out of fuel is out of bounds. *)
Fixpoint dec_renorm (fuel : nat) (stream : list Z) (d : Dec) : option Dec :=
  if negb (Z.land (d_W_upper d) 0xFF000000 =? 0) then Some d else
  match fuel with
  | O => None
  | S fuel =>
      d ← dec_byte stream d;
      dec_renorm fuel stream (d <| d_W_upper := u32 (Z.shiftl (d_W_upper d) 8) |>)
  end.

Definition dec_shift (stream : list Z) (d : Dec) : option Dec :=
  let W_lower := u32 (d_W_lower d + 1) in
  dec_renorm 3 stream
    (d <| d_W_lower := W_lower |> <| d_W_upper := u32 (d_W_upper d - W_lower) |>
       <| d_streamval := u32 (d_streamval d - W_lower) |>).

(** One symbol after the other, with the output index [i]. *)
Fixpoint dec_loop (step : Z -> Dec -> option (flow Dec Dec)) (todo : nat) (i : Z) (d : Dec)
    : option (flow Dec Dec) :=
  match todo with
  | O => Some (Go d)
  | S todo =>
      r ← step i d;
      match r with
      | Ret code d => Some (Ret code d)
      | Go d => dec_loop step todo (i + 1) d
      end
  end.

(** Return value, stream structure and output. *)
Definition dec_finish (sd : Bitstr_dec) (r : flow Dec Dec) : Z * Bitstr_dec * list Z :=
  match r with
  | Ret code d => (code, sd <| bd_full := d_full d |>, d_data d)
  | Go d =>
      let idx := u16 (d_ptr d) in
      (s16 (if 0x01FFFFFF <? d_W_upper d then idx * 2 - 3 + b2z (d_full d =? 0)
            else idx * 2 - 2 + b2z (d_full d =? 0)),
       sd <| bd_stream_index := idx |> <| bd_W_upper := d_W_upper d |>
          <| bd_streamval := d_streamval d |> <| bd_full := d_full d |>, d_data d)
  end.

(** ** [DecHistBisectMulti] *)

(** The search for one symbol: position, last bound, interval. *)
Fixpoint bisect (fuel : nat) (table : list Z) (W sv p sizeTmp W_lower W_upper : Z)
    : option (Z * Z * Z * Z) :=
  c ← aget table p;
  let W_tmp := interval_part W c in
  let sizeTmp := Z.shiftr sizeTmp 1 in
  if sizeTmp =? 0 then Some (p, W_tmp, W_lower, W_upper) else
  match fuel with
  | O => None
  | S fuel =>
      if W_tmp <? sv then bisect fuel table W sv (p + sizeTmp) sizeTmp W_tmp W_upper
      else bisect fuel table W sv (p - sizeTmp) sizeTmp W_lower W_tmp
  end.

Definition bisect_symbol (stream table : list Z) (size i : Z) (d : Dec) : option Dec :=
  let sizeTmp := Z.shiftr size 1 in
  r ← bisect 16 table (d_W_upper d) (d_streamval d) (sizeTmp - 1) sizeTmp (d_W_lower d) (d_W_upper d);
  let '(p, W_tmp, W_lower, W_upper) := r in
  let '(W_lower, W_upper, x) :=
    if W_tmp <? d_streamval d then (W_tmp, W_upper, p) else (W_lower, W_tmp, p - 1) in
  data ← aset (d_data d) i (s16 x);
  dec_shift stream (d <| d_data := data |> <| d_W_lower := W_lower |> <| d_W_upper := W_upper |>).

Definition bisect_step (stream : list Z) (cdf : list (list Z)) (cdfSize : list Z) (i : Z) (d : Dec)
    : option (flow Dec Dec) :=
  table ← aget cdf i;
  size ← aget cdfSize i;
  d ← bisect_symbol stream table size i d;
  Some (if d_W_upper d =? 0 then Ret (-2) d else Go d).

Definition DecHistBisectMulti (data : list Z) (sd : Bitstr_dec) (cdf : list (list Z))
    (cdfSize : list Z) (lenData : Z) : option (Z * Bitstr_dec * list Z) :=
  if bd_W_upper sd =? 0 then Some (-2, sd, data) else
  d ← dec_start sd data;
  r ← dec_loop (bisect_step (bd_stream sd) cdf cdfSize) (Z.to_nat lenData) 0 d;
  Some (dec_finish sd r).

(** ** [DecHistOneStepMulti] *)

(** The search upwards from entry [p], whose bound is [W_tmp]: the interval and
    the symbol, or [Some None] at the end of the table (code -3). *)
Fixpoint step_up (fuel : nat) (table : list Z) (W sv p W_tmp : Z) : option (option (Z * Z * Z)) :=
  match fuel with
  | O => None
  | S fuel =>
      let W_lower := W_tmp in
      c ← aget table p;
      if c =? 65535 then Some None else
      c ← aget table (p + 1);
      let W_tmp := interval_part W c in
      if sv <=? W_tmp then Some (Some (W_lower, W_tmp, p)) else step_up fuel table W sv (p + 1) W_tmp
  end.

Fixpoint step_down (fuel : nat) (table : list Z) (W sv p W_tmp : Z) : option (option (Z * Z * Z)) :=
  match fuel with
  | O => None
  | S fuel =>
      let W_upper := W_tmp in
      let p := p - 1 in
      if p <? 0 then Some None else
      c ← aget table p;
      let W_tmp := interval_part W c in
      if W_tmp <? sv then Some (Some (W_tmp, W_upper, p)) else step_down fuel table W sv p W_tmp
  end.

Definition one_step (table : list Z) (init W sv : Z) : option (option (Z * Z * Z)) :=
  c ← aget table init;
  let W_tmp := interval_part W c in
  let fuel := S (length table) in
  if W_tmp <? sv then step_up fuel table W sv init W_tmp else step_down fuel table W sv init W_tmp.

Definition onestep_step (stream : list Z) (cdf : list (list Z)) (initIndex : list Z) (i : Z) (d : Dec)
    : option (flow Dec Dec) :=
  table ← aget cdf i;
  init ← aget initIndex i;
  r ← one_step table init (d_W_upper d) (d_streamval d);
  match r with
  | None => Some (Ret (-3) d)
  | Some (W_lower, W_upper, x) =>
      data ← aset (d_data d) i (s16 x);
      d ← dec_shift stream (d <| d_data := data |> <| d_W_lower := W_lower |> <| d_W_upper := W_upper |>);
      Some (Go d)
  end.

Definition DecHistOneStepMulti (data : list Z) (sd : Bitstr_dec) (cdf : list (list Z))
    (initIndex : list Z) (lenData : Z) : option (Z * Bitstr_dec * list Z) :=
  if bd_W_upper sd =? 0 then Some (-2, sd, data) else
  d ← dec_start sd data;
  r ← dec_loop (onestep_step (bd_stream sd) cdf initIndex) (Z.to_nat lenData) 0 d;
  Some (dec_finish sd r).

(** A new stream ([decode.c]). *)
Definition dec_reset (stream : list Z) : Bitstr_dec := mkBd stream 0xFFFFFFFF 0 0 1.

(** ** Following the abstract coder *)

Record dec_at (D : list Z) (d : Dec) (s : Z * Z * Z) : Prop := mkDecAt {
  da_n : 0 <= s.1.1;
  da_W : d_W_upper d = s.2;
  da_val : d_streamval d = stream_val D (Z.to_nat (s.1.1 + 4)) - s.1.2;
  da_full : d_full d = 0 \/ d_full d = 1;
  da_ptr : bytes_out (d_ptr d) (d_full d) = s.1.1 + 4;
}.

Definition dec_room (D : list Z) (s : Z * Z * Z) : Prop := s.1.1 + 4 <= 2 * zlen D.

Lemma inside_renorm_step D n V W :
  Forall in_u16 D -> 0 <= n -> inside D (n + 1, 256 * V, 256 * W) -> inside D (n, V, W).
Proof.
  intros HD Hn. unfold inside. cbn [fst snd].
  replace (Z.to_nat (n + 1 + 4)) with (S (Z.to_nat (n + 4))) by lia. cbn [stream_val].
  pose proof (stream_byte_range D (Z.to_nat (n + 4)) HD). lia.
Qed.

Lemma inside_renorm D k : forall n V W,
  Forall in_u16 D -> 0 <= n -> inside D (abs_renorm k (n, V, W)) -> inside D (n, V, W).
Proof.
  induction k as [|k IH]; intros n V W HD Hn; cbn [abs_renorm]; [done|].
  destruct (W <? 2 ^ 24); [|done]. intros H. apply IH in H; [|done|lia]. by apply inside_renorm_step in H.
Qed.

(** A symbol's interval is the only one that holds the stream. *)
Lemma inside_symbol D n V W lo hi :
  Forall in_u16 D -> 0 <= n -> width_ok (n, V, W) -> sym_ok (lo, hi) ->
  inside D (abs_symbol (n, V, W) (lo, hi)) ->
  part W lo < stream_val D (Z.to_nat (n + 4)) - V <= part W hi /\ inside D (n, V, W).
Proof.
  intros HD Hn HW (Hlo & Hlt & Hhi) H. cbn [abs_symbol fst snd] in *.
  apply inside_renorm in H; [|done..]. unfold inside, width_ok in *. cbn [fst snd] in *.
  pose proof (part_range W lo ltac:(lia) ltac:(lia)). pose proof (part_range W hi ltac:(lia) ltac:(lia)). lia.
Qed.

Lemma inside_run D syms : forall s,
  Forall in_u16 D -> 0 <= s.1.1 -> width_ok s -> Forall sym_ok syms ->
  inside D (abs_run s syms) -> inside D s.
Proof.
  induction syms as [|[lo hi] syms IH]; intros [[n V] W] HD Hn HW Hf H; [done|].
  inversion Hf; subst. cbn [fst] in Hn.
  change (abs_run (n, V, W) ((lo, hi) :: syms)) with (abs_run (abs_symbol (n, V, W) (lo, hi)) syms) in H.
  apply IH in H; [|done| |by apply abs_symbol_width|done].
  - apply (inside_symbol D n V W lo hi HD Hn HW) in H; [|done]. apply H.
  - pose proof (abs_renorm_grows 3 n (V + part W lo + 1) (part W hi - part W lo - 1)).
    cbn [abs_symbol] in *. lia.
Qed.

Lemma dec_byte_at D d n V W :
  Forall in_u16 D -> dec_at D d (n, V, W) -> inside D (n, V, W) -> W < 2 ^ 24 ->
  dec_room D (n + 1, 256 * V, 256 * W) ->
  exists d', dec_byte D d = Some d' /\ d_data d' = d_data d /\ d_W_upper d' = W /\
    dec_at D (d' <| d_W_upper := 256 * W |>) (n + 1, 256 * V, 256 * W).
Proof.
  intros HD [Hn HW Hv Hf Hp] Hin Hlt Hroom. unfold inside, dec_room in *. cbn [fst snd] in *.
  unfold bytes_out in *. unfold dec_byte.
  destruct (aget_in D (d_ptr d)) as [w Hw]; [unfold b2z in *; case_match; bool_lia; lia|].
  rewrite Hw. cbn [mbind option_bind].
  assert (in_u16 w) as Hw16 by (eapply aget_Forall; eauto). simpl in Hw16.
  rewrite aget_lookup in Hw by (unfold b2z in *; case_match; bool_lia; lia).
  assert (u32 (Z.shiftl (d_streamval d) 8) = Z.shiftl (d_streamval d) 8) as ->.
  { rewrite Z.shiftl_mul_pow2 by lia. apply u32_id. simpl. lia. }
  change 0x00FF with 255. rewrite land_255, Z.shiftr_div_pow2 by lia.
  rewrite !lor_shiftl_add by wrap_lia.
  set (p := Z.to_nat (d_ptr d)) in *.
  destruct Hf as [E|E]; rewrite E in *; cbn [Z.eqb b2z] in *.
  all: eexists; split; [reflexivity|]; split; [done|]; split; [done|].
  all: split; cbn -[stream_val]; auto; try lia.
  all: replace (Z.to_nat (n + 1 + 4)) with (S (Z.to_nat (n + 4))) by lia; cbn [stream_val].
  - replace (Z.to_nat (n + 4)) with (S (2 * p)) in * by lia. rewrite (byte_odd _ _ _ Hw). lia.
  - unfold bytes_out. cbn. lia.
  - replace (Z.to_nat (n + 4)) with (2 * p)%nat in * by lia. rewrite (byte_even _ _ _ Hw).
    change (2 ^ 8) with 256. lia.
  - unfold bytes_out. cbn. lia.
Qed.

Lemma dec_renorm_spec D k : forall fuel d n V W,
  Forall in_u16 D -> (k <= fuel)%nat -> dec_at D d (n, V, W) -> in_u32 W ->
  2 ^ 24 <= W * 256 ^ Z.of_nat k ->
  inside D (abs_renorm k (n, V, W)) -> dec_room D (abs_renorm k (n, V, W)) ->
  exists d', dec_renorm fuel D d = Some d' /\ d_data d' = d_data d /\
    dec_at D d' (abs_renorm k (n, V, W)).
Proof.
  induction k as [|k IH]; intros fuel d n V W HD Hfuel Hat HW Hk Hin Hroom; cbn [abs_renorm] in *.
  all: pose proof (da_W _ _ _ Hat) as HWu; pose proof (da_n _ _ _ Hat) as Hn; cbn [fst snd] in *.
  all: assert (dec_renorm fuel D d = if W <? 2 ^ 24 then dec_renorm fuel D d else Some d) as E
    by (destruct fuel; cbn [dec_renorm]; rewrite HWu, renorm_test by done;
        destruct (W <? 2 ^ 24); reflexivity).
  - rewrite E. change (256 ^ Z.of_nat 0) with 1 in Hk. rewrite (proj2 (Z.ltb_ge _ _)) by lia. eauto.
  - destruct (Z.ltb_spec W (2 ^ 24)) as [Hlt|]; [clear E|rewrite E; eauto].
    destruct fuel as [|fuel]; [lia|]. cbn [dec_renorm]. rewrite HWu, renorm_test by done.
    rewrite (proj2 (Z.ltb_lt _ _) Hlt). cbn [negb].
    rewrite Nat2Z.inj_succ, Z.pow_succ_r in Hk by lia.
    pose proof (inside_renorm D k (n + 1) (256 * V) (256 * W) HD ltac:(lia) Hin) as Hin1.
    pose proof (abs_renorm_grows k (n + 1) (256 * V) (256 * W)) as Hg.
    destruct (dec_byte_at D d n V W HD Hat) as (d' & -> & Hd & HWd & Hat'); [|done| |].
    { by apply inside_renorm_step. }
    { unfold dec_room in *. cbn [fst]. lia. }
    cbn [mbind option_bind]. rewrite HWd.
    assert (u32 (Z.shiftl W 8) = 256 * W) as ->.
    { rewrite Z.shiftl_mul_pow2 by lia. change (2 ^ 8) with 256. rewrite u32_id; simpl in *; lia. }
    destruct (IH fuel _ (n + 1) (256 * V) (256 * W) HD ltac:(lia) Hat') as (d2 & -> & Hd2 & Hat2);
      [simpl in *; lia|lia|done|done|].
    exists d2. split; [done|]. split; [by rewrite Hd2, <- Hd|done].
Qed.

(** After the search: the interval of the symbol that was found. *)
Lemma dec_shift_spec D d data n V W lo hi :
  Forall in_u16 D -> dec_at D d (n, V, W) -> width_ok (n, V, W) -> sym_ok (lo, hi) ->
  inside D (abs_symbol (n, V, W) (lo, hi)) -> dec_room D (abs_symbol (n, V, W) (lo, hi)) ->
  exists d', dec_shift D (d <| d_data := data |> <| d_W_lower := part W lo |> <| d_W_upper := part W hi |>)
      = Some d' /\ d_data d' = data /\ dec_at D d' (abs_symbol (n, V, W) (lo, hi)).
Proof.
  intros HD Hat HW Hsym Hin Hroom.
  destruct (inside_symbol D n V W lo hi HD (da_n _ _ _ Hat) HW Hsym Hin) as [Hb _].
  destruct Hat as [Hn HWu Hv Hf Hp]. unfold width_ok in HW. cbn [fst snd abs_symbol] in *.
  destruct (symbol_bounds W lo hi HW Hsym) as (_ & _ & Hl & Hg & Hh). unfold dec_shift.
  generalize dependent (part W lo). intros plo Hin Hroom Hb Hl Hg.
  generalize dependent (part W hi). intros phi Hh Hin Hroom Hb Hg. cbn [d_W_lower d_W_upper d_streamval upd].
  rewrite <- Hv in Hb.
  rewrite (u32_id (plo + 1)), (u32_id (phi - (plo + 1))), (u32_id (d_streamval d - (plo + 1)))
    by (unfold in_u32; lia).
  replace (phi - plo - 1) with (phi - (plo + 1)) in * by lia.
  match goal with |- context [dec_renorm 3 D ?e] =>
    assert (dec_at D e (n, V + plo + 1, phi - (plo + 1))) as Hat
      by (split; cbn -[stream_val Z.sub Z.add]; auto; lia);
    destruct (dec_renorm_spec D 3 3 e n (V + plo + 1) (phi - (plo + 1)))
      as (d' & E & Hd & Hat'); auto
  end.
  - unfold in_u32. lia.
  - change (256 ^ Z.of_nat 3) with (2 ^ 24). lia.
  - exists d'. split; [exact E|]. split; [exact Hd|exact Hat'].
Qed.

(** ** Distribution tables *)

Fixpoint increasing (l : list Z) : bool :=
  match l with
  | x :: (y :: _) as l' => (x <? y) && increasing l'
  | _ => true
  end.

(** A cumulative distribution on 16 bits without empty symbols. *)
Definition cdf_ok (t : list Z) : bool :=
  increasing t && (default 1 (aget t 0) =? 0) && (default 0 (aget t (zlen t - 1)) =? 65535).

Lemma increasing_step l : increasing l = true -> forall i a b,
  aget l i = Some a -> aget l (i + 1) = Some b -> a < b.
Proof.
  induction l as [|x l IH]; intros H i a b Ha Hb; [apply aget_Some_range in Ha; unfold zlen in Ha; cbn in Ha; lia|].
  pose proof (aget_Some_range _ _ _ Ha) as Hi.
  destruct l as [|y l]; [apply aget_Some_range in Hb; unfold zlen in *; cbn in *; lia|].
  cbn [increasing] in H. apply andb_prop in H as [Hxy H]. apply Z.ltb_lt in Hxy.
  destruct (Z.eqb_spec i 0) as [->|Hne].
  - cbn in Ha, Hb. injection Ha as <-. by injection Hb as <-.
  - rewrite aget_cons in Ha by lia. rewrite aget_cons in Hb by lia.
    apply (IH H (i - 1) a b Ha). by replace (i - 1 + 1) with (i + 1 - 1) by lia.
Qed.

Section Table.
Context (t : list Z) (Ht : cdf_ok t = true).

Lemma table_facts : increasing t = true /\ aget t 0 = Some 0 /\ aget t (zlen t - 1) = Some 65535.
Proof using Ht.
  unfold cdf_ok in Ht. apply andb_prop in Ht as [H1 H3]. apply andb_prop in H1 as [H1 H2].
  apply Z.eqb_eq in H2, H3. destruct (aget t 0), (aget t (zlen t - 1)); cbn in *; subst; done.
Qed.

Lemma table_lt i j a b : aget t i = Some a -> aget t j = Some b -> i < j -> a < b.
Proof using Ht.
  destruct table_facts as (Hinc & _ & _). intros Ha Hb Hij.
  pose proof (aget_Some_range _ _ _ Ha). pose proof (aget_Some_range _ _ _ Hb).
  assert (forall n : nat, forall b, aget t (i + 1 + Z.of_nat n) = Some b -> a < b) as H'.
  { induction n as [|n IH]; intros b' Hb'.
    - replace (i + 1 + Z.of_nat 0) with (i + 1) in Hb' by lia.
      exact (increasing_step t Hinc i a b' Ha Hb').
    - pose proof (aget_Some_range _ _ _ Hb').
      destruct (aget_in t (i + 1 + Z.of_nat n)) as [c Hc]; [lia|].
      pose proof (IH c Hc). pose proof (increasing_step t Hinc _ c b' Hc) as Hs.
      replace (i + 1 + Z.of_nat n + 1) with (i + 1 + Z.of_nat (S n)) in Hs by lia. specialize (Hs Hb'). lia. }
  apply (H' (Z.to_nat (j - i - 1))). by replace (i + 1 + Z.of_nat (Z.to_nat (j - i - 1))) with j by lia.
Qed.

Lemma table_le i j a b : aget t i = Some a -> aget t j = Some b -> i <= j -> a <= b.
Proof using Ht.
  intros Ha Hb Hij. destruct (Z.eq_dec i j) as [->|]; [assert (a = b) by congruence; lia|].
  pose proof (table_lt i j a b Ha Hb). lia.
Qed.

Lemma table_range i a : aget t i = Some a -> 0 <= a <= 65535.
Proof using Ht.
  destruct table_facts as (_ & H0 & H1). intros Ha. pose proof (aget_Some_range _ _ _ Ha).
  pose proof (table_le 0 i 0 a H0 Ha). pose proof (table_le i (zlen t - 1) a 65535 Ha H1). lia.
Qed.

Lemma table_part W i a : in_u32 W -> aget t i = Some a -> interval_part W a = part W a.
Proof using Ht. intros HW Ha. apply interval_part_eq; [done|]. by apply (table_range i). Qed.

(** The symbol of a value. *)
Record found (W sv x lo hi : Z) : Prop := mkFound {
  fo_lo : aget t x = Some lo;
  fo_hi : aget t (x + 1) = Some hi;
  fo_in : part W lo < sv <= part W hi;
}.

Lemma found_before W sv x lo hi i a :
  0 <= W -> found W sv x lo hi -> aget t i = Some a -> (part W a < sv <-> i <= x).
Proof using Ht.
  intros HW [Hlo Hhi Hin] Ha. split; intros H.
  - destruct (Z.le_gt_cases i x); [done|]. exfalso.
    pose proof (table_le (x + 1) i hi a Hhi Ha ltac:(lia)). pose proof (part_mono W hi a HW). lia.
  - pose proof (table_le i x a lo Ha Hlo H). pose proof (part_mono W a lo HW). lia.
Qed.

Lemma found_sym W sv x lo hi : found W sv x lo hi -> sym_ok (lo, hi).
Proof using Ht.
  intros [Hlo Hhi _]. pose proof (table_lt x (x + 1) lo hi Hlo Hhi ltac:(lia)).
  pose proof (table_range _ _ Hlo). pose proof (table_range _ _ Hhi). split; cbn; lia.
Qed.

(** ** The searches *)

Lemma step_up_found W sv x lo hi fuel : forall p c,
  in_u32 W -> found W sv x lo hi -> aget t p = Some c -> p <= x -> x - p < Z.of_nat fuel ->
  step_up fuel t W sv p (part W c) = Some (Some (part W lo, part W hi, x)).
Proof using Ht.
  induction fuel as [|fuel IH]; intros p c HW Hfo Hc Hp Hfuel; [lia|].
  pose proof Hfo as [Hlo Hhi Hin]. pose proof (aget_Some_range _ _ _ Hhi) as Hx.
  pose proof (aget_Some_range _ _ _ Hc) as Hpr. cbn [step_up]. rewrite Hc. cbn [mbind option_bind].
  destruct (aget_in t (p + 1)) as [c' Hc']; [lia|].
  pose proof (table_lt p (p + 1) c c' Hc Hc' ltac:(lia)). pose proof (table_range _ _ Hc').
  rewrite (proj2 (Z.eqb_neq c 65535)) by lia. rewrite Hc'. cbn [mbind option_bind].
  rewrite (table_part W _ _ HW Hc').
  pose proof (found_before W sv x lo hi (p + 1) c' ltac:(simpl in *; lia) Hfo Hc') as Hb.
  destruct (Z.leb_spec sv (part W c')) as [Hle|Hgt].
  - assert (p = x) as -> by lia. assert (c = lo) as -> by congruence. by assert (c' = hi) as -> by congruence.
  - apply IH; [done|done|done|lia|lia].
Qed.

Lemma step_down_found W sv x lo hi fuel : forall p c,
  in_u32 W -> found W sv x lo hi -> aget t p = Some c -> x < p -> p - x <= Z.of_nat fuel ->
  step_down fuel t W sv p (part W c) = Some (Some (part W lo, part W hi, x)).
Proof using Ht.
  induction fuel as [|fuel IH]; intros p c HW Hfo Hc Hp Hfuel; [lia|].
  pose proof Hfo as [Hlo Hhi Hin]. pose proof (aget_Some_range _ _ _ Hlo) as Hx.
  pose proof (aget_Some_range _ _ _ Hc) as Hpr. cbn [step_down].
  rewrite (proj2 (Z.ltb_ge (p - 1) 0)) by lia.
  destruct (aget_in t (p - 1)) as [c' Hc']; [lia|]. rewrite Hc'. cbn [mbind option_bind].
  rewrite (table_part W _ _ HW Hc').
  pose proof (found_before W sv x lo hi (p - 1) c' ltac:(simpl in *; lia) Hfo Hc') as Hb.
  destruct (Z.ltb_spec (part W c') sv) as [Hlt|Hge].
  - assert (x = p - 1) as -> by lia. replace (p - 1 + 1) with p in Hhi by lia.
    assert (c' = lo) as -> by congruence. by assert (c = hi) as -> by congruence.
  - apply IH; [done|done|done|lia|lia].
Qed.

Lemma one_step_found W sv x lo hi init :
  in_u32 W -> found W sv x lo hi -> 0 <= init < zlen t ->
  one_step t init W sv = Some (Some (part W lo, part W hi, x)).
Proof using Ht.
  intros HW Hfo Hinit. unfold one_step. destruct (aget_in t init Hinit) as [c Hc].
  rewrite Hc. cbn [mbind option_bind]. rewrite (table_part W _ _ HW Hc).
  pose proof (found_before W sv x lo hi init c ltac:(simpl in *; lia) Hfo Hc) as Hb.
  pose proof (aget_Some_range _ _ _ (fo_hi _ _ _ _ _ Hfo)). pose proof (aget_Some_range _ _ _ (fo_lo _ _ _ _ _ Hfo)).
  unfold zlen in *.
  destruct (Z.ltb_spec (part W c) sv); [apply step_up_found|apply step_down_found]; auto; lia.
Qed.

(** What the bisection answers, before the last comparison. *)
Lemma bisect_found W sv x lo hi j : forall fuel p W_lower W_upper,
  in_u32 W -> found W sv x lo hi -> (j <= fuel)%nat ->
  -1 <= p - 2 ^ Z.of_nat j -> p + 2 ^ Z.of_nat j <= zlen t ->
  p - 2 ^ Z.of_nat j <= x < p + 2 ^ Z.of_nat j ->
  (forall c, aget t (p - 2 ^ Z.of_nat j) = Some c -> W_lower = part W c) ->
  (forall c, aget t (p + 2 ^ Z.of_nat j) = Some c -> W_upper = part W c) ->
  exists p' W_tmp W_lower' W_upper',
    bisect fuel t W sv p (2 ^ Z.of_nat j) W_lower W_upper = Some (p', W_tmp, W_lower', W_upper') /\
    (if W_tmp <? sv then W_tmp = part W lo /\ W_upper' = part W hi /\ p' = x
     else W_lower' = part W lo /\ W_tmp = part W hi /\ p' - 1 = x).
Proof using Ht.
  induction j as [|j IH]; intros fuel p W_lower W_upper HW Hfo Hfuel Hp0 Hp1 Hx Hlo Hhi.
  all: pose proof Hfo as [Hxlo Hxhi Hin]; pose proof (aget_Some_range _ _ _ Hxhi) as Hr.
  all: pose proof (aget_Some_range _ _ _ Hxlo) as Hr0.
  - assert (bisect fuel t W sv p (2 ^ Z.of_nat 0) W_lower W_upper =
      c ← aget t p; Some (p, interval_part W c, W_lower, W_upper)) as -> by by destruct fuel.
    change (2 ^ Z.of_nat 0) with 1 in *. destruct (aget_in t p) as [c Hc]; [lia|].
    rewrite Hc. cbn [mbind option_bind]. rewrite (table_part W _ _ HW Hc).
    pose proof (found_before W sv x lo hi p c ltac:(simpl in *; lia) Hfo Hc) as Hb.
    eexists _, _, _, _. split; [done|]. destruct (Z.ltb_spec (part W c) sv).
    + assert (p = x) as -> by lia. split; [by assert (c = lo) as -> by congruence|]. split; [by apply Hhi|done].
    + assert (x = p - 1) as -> by lia. split; [by apply Hlo|]. replace (p - 1 + 1) with p in Hxhi by lia.
      split; [by assert (c = hi) as -> by congruence|done].
  - destruct fuel as [|fuel]; [lia|]. cbn [bisect].
    assert (0 < 2 ^ Z.of_nat j) as Hpos by (apply Z.pow_pos_nonneg; lia).
    assert (2 ^ Z.of_nat (S j) = 2 * 2 ^ Z.of_nat j) as E by (rewrite Nat2Z.inj_succ, Z.pow_succ_r; lia).
    rewrite E in *. destruct (aget_in t p) as [c Hc]; [lia|]. rewrite Hc. cbn [mbind option_bind].
    rewrite Z.shiftr_div_pow2 by lia. change (2 ^ 1) with 2. rewrite (Z.mul_comm 2), Z.div_mul by lia.
    rewrite (proj2 (Z.eqb_neq _ 0)) by lia. rewrite (table_part W _ _ HW Hc).
    pose proof (found_before W sv x lo hi p c ltac:(simpl in *; lia) Hfo Hc) as Hb.
    destruct (Z.ltb_spec (part W c) sv); apply IH; auto; try lia; intros c'.
    + replace (p + 2 ^ Z.of_nat j - 2 ^ Z.of_nat j) with p by lia. intros Hc'. congruence.
    + replace (p + 2 ^ Z.of_nat j + 2 ^ Z.of_nat j) with (p + 2 * 2 ^ Z.of_nat j) by lia. apply Hhi.
    + replace (p - 2 ^ Z.of_nat j - 2 ^ Z.of_nat j) with (p - 2 * 2 ^ Z.of_nat j) by lia. apply Hlo.
    + replace (p - 2 ^ Z.of_nat j + 2 ^ Z.of_nat j) with p by lia. intros Hc'. congruence.
Qed.

End Table.

(** ** Sequences of symbols *)

(** What a decoder does with symbol [i] when the stream holds [data] and the
    output array still has its value of [old] at [i]. *)
Definition step_decodes (step : Z -> Dec -> option (flow Dec Dec)) (D data old : list Z)
    (sym : Z -> option (Z * Z)) (i : Z) : Prop :=
  forall d s x lo hi,
    aget data i = Some x -> aget (d_data d) i = aget old i -> sym i = Some (lo, hi) -> sym_ok (lo, hi) ->
    dec_at D d s -> width_ok s -> 0 <= i < zlen (d_data d) ->
    inside D (abs_symbol s (lo, hi)) -> dec_room D (abs_symbol s (lo, hi)) ->
    exists d', step i d = Some (Go d') /\ d_data d' = <[Z.to_nat i := x]> (d_data d) /\
      dec_at D d' (abs_symbol s (lo, hi)).

(** The symbols [i], [i + 1], ... *)
Definition syms_from (sym : Z -> option (Z * Z)) (i : Z) (syms : list (Z * Z)) : Prop :=
  forall k : nat, (k < length syms)%nat -> sym (i + Z.of_nat k) = syms !! k.

(** The output is [data] from [i] on for [n] places and what it was elsewhere. *)
Definition copied (data out out' : list Z) (i n : Z) : Prop :=
  zlen out' = zlen out /\
  (forall k, i <= k < i + n -> aget out' k = aget data k) /\
  (forall k, 0 <= k < i \/ i + n <= k -> aget out' k = aget out k).

Lemma copied_step data out out' i n x :
  0 <= i < zlen out -> 0 <= n -> aget data i = Some x ->
  copied data (<[Z.to_nat i := x]> out) out' (i + 1) n -> copied data out out' i (1 + n).
Proof.
  intros Hi Hn Hx (Hl & Hc & Hr). rewrite zlen_insert in Hl. split; [done|]. split; intros k Hk.
  - destruct (Z.eq_dec k i) as [->|]; [|apply Hc; lia].
    rewrite Hr by lia. by rewrite aget_insert_eq by done.
  - rewrite Hr by lia. apply aget_insert_ne; lia.
Qed.

Lemma syms_from_cons sym i s0 syms :
  syms_from sym i (s0 :: syms) -> sym i = Some s0 /\ syms_from sym (i + 1) syms.
Proof.
  intros H. split.
  - specialize (H 0%nat ltac:(cbn; lia)). by replace (i + Z.of_nat 0) with i in H by lia.
  - intros k Hk. specialize (H (S k) ltac:(cbn; lia)).
    by replace (i + Z.of_nat (S k)) with (i + 1 + Z.of_nat k) in H by lia.
Qed.

Lemma dec_loop_spec step D data old sym syms : forall i d s,
  Forall in_u16 D -> Forall sym_ok syms -> syms_from sym i syms ->
  (forall k, i <= k < i + zlen syms -> step_decodes step D data old sym k) ->
  (forall k, i <= k < i + zlen syms -> aget (d_data d) k = aget old k) ->
  0 <= i -> i + zlen syms <= zlen data -> i + zlen syms <= zlen (d_data d) ->
  dec_at D d s -> width_ok s -> inside D (abs_run s syms) -> dec_room D (abs_run s syms) ->
  exists d', dec_loop step (length syms) i d = Some (Go d') /\ dec_at D d' (abs_run s syms) /\
    copied data (d_data d) (d_data d') i (zlen syms).
Proof.
  induction syms as [|sym0 syms IH]; intros i d s HD Hok Hsyms Hstep Hold Hi Hdata Hout Hat HW Hin Hroom.
  { exists d. split; [done|]. split; [done|]. split; [done|]. split; [|done].
    unfold zlen; cbn; lia. }
  inversion Hok as [|? ? Hok0 Hok']; subst. rewrite zlen_cons in *. pose proof (zlen_nonneg syms).
  apply syms_from_cons in Hsyms as [Hs0 Hsyms]. destruct sym0 as [lo hi].
  destruct (aget_in data i) as [x Hx]; [lia|].
  change (abs_run s ((lo, hi) :: syms)) with (abs_run (abs_symbol s (lo, hi)) syms) in *.
  pose proof (abs_symbol_width s (lo, hi) HW Hok0) as HW'.
  pose proof (da_n _ _ _ Hat) as Hn. destruct s as [[n V] W].
  assert (n <= (abs_symbol (n, V, W) (lo, hi)).1.1) as Hg by apply abs_renorm_grows.
  pose proof (abs_run_grows syms (abs_symbol (n, V, W) (lo, hi))) as Hg'. cbn [fst] in Hn.
  destruct (Hstep i ltac:(lia) d (n, V, W) x lo hi) as (d1 & E & Hd1 & Hat1); try done; try lia.
  { apply Hold. lia. }
  { eapply inside_run; [done|lia|done|exact Hok'|done]. }
  { unfold dec_room in *. lia. }
  cbn [dec_loop length]. rewrite E. cbn [mbind option_bind].
  edestruct (IH (i + 1) d1) as (d' & -> & Hat' & Hc);
    [exact HD|exact Hok'|exact Hsyms|intros k Hk; apply Hstep; lia| |lia|lia| |exact Hat1|exact HW'|exact Hin|exact Hroom|].
  { intros k Hk. rewrite Hd1, aget_insert_ne by lia. apply Hold. lia. }
  { rewrite Hd1, zlen_insert. lia. }
  exists d'. split; [done|]. split; [done|]. rewrite Hd1 in Hc. apply (copied_step _ _ _ _ _ x); [lia|lia|done|done].
Qed.

(** The interval of symbol [i] of [data] in the histograms. *)
Definition hist_sym (data : list Z) (cdf : list (list Z)) (i : Z) : option (Z * Z) :=
  x ← aget data i;
  table ← aget cdf i;
  lo ← aget table (u32 x);
  hi ← aget table (u32 x + 1);
  Some (lo, hi).

Lemma hist_syms_from todo : forall i data cdf syms,
  hist_syms todo i data cdf = Some syms ->
  length syms = todo /\ syms_from (hist_sym data cdf) i syms.
Proof.
  induction todo as [|todo IH]; intros i data cdf syms H; cbn [hist_syms] in H.
  { injection H as <-. split; [done|]. intros k Hk. cbn in Hk. lia. }
  bind_inv. destruct (IH _ _ _ _ Hx3) as [Hl Hf]. split; [cbn; lia|].
  intros [|k] Hk.
  - replace (i + Z.of_nat 0) with i by lia. unfold hist_sym.
    rewrite Hx; cbn [mbind option_bind]. rewrite Hx0; cbn [mbind option_bind].
    rewrite Hx1; cbn [mbind option_bind]. by rewrite Hx2.
  - replace (i + Z.of_nat (S k)) with (i + 1 + Z.of_nat k) by lia. apply Hf. cbn in Hk. lia.
Qed.

(** A symbol of a well-formed table, and where the stream finds it. *)
Lemma hist_sym_found D data cdf i x lo hi table n V W :
  Forall in_u16 D -> 0 <= n -> width_ok (n, V, W) -> in_s16 x ->
  aget data i = Some x -> aget cdf i = Some table -> hist_sym data cdf i = Some (lo, hi) ->
  cdf_ok table = true -> 0 <= x -> inside D (abs_symbol (n, V, W) (lo, hi)) ->
  found table W (stream_val D (Z.to_nat (n + 4)) - V) x lo hi.
Proof.
  intros HD Hn HW Hx16 Hx Htab Hsym Hok Hx0 Hin. unfold hist_sym in Hsym.
  rewrite Hx, Htab in Hsym. cbn [mbind option_bind] in Hsym. rewrite u32_id in Hsym by (simpl in *; lia).
  destruct (aget table x) as [a|] eqn:Ha; [|done]. cbn [mbind option_bind] in Hsym.
  destruct (aget table (x + 1)) as [b|] eqn:Hb; [|done]. cbn [mbind option_bind] in Hsym.
  injection Hsym as -> ->.
  assert (sym_ok (lo, hi)) as Hs.
  { pose proof (table_lt table Hok x (x + 1) lo hi Ha Hb ltac:(lia)).
    pose proof (table_range table Hok _ _ Ha). pose proof (table_range table Hok _ _ Hb). split; cbn; lia. }
  split; [done|done|]. by apply (inside_symbol D n V W lo hi HD Hn HW Hs Hin).
Qed.

Lemma onestep_decodes D data old cdf initIndex table init i :
  Forall in_u16 D -> aget cdf i = Some table -> cdf_ok table = true ->
  aget initIndex i = Some init -> 0 <= init < zlen table ->
  (forall x, aget data i = Some x -> 0 <= x /\ in_s16 x) ->
  step_decodes (onestep_step D cdf initIndex) D data old (hist_sym data cdf) i.
Proof.
  intros HD Htab Hok Hinit Hr Hdata d [[n V] W] x lo hi Hx _ Hsym Hs Hat HW Hi Hin Hroom.
  destruct (Hdata x Hx) as [Hx0 Hx16].
  pose proof (da_n _ _ _ Hat) as Hn. pose proof (da_W _ _ _ Hat) as HWu. pose proof (da_val _ _ _ Hat) as Hv.
  cbn [fst snd] in *.
  pose proof (hist_sym_found D data cdf i x lo hi table n V W HD Hn HW Hx16 Hx Htab Hsym Hok Hx0 Hin) as Hfo.
  unfold onestep_step. rewrite Htab; cbn [mbind option_bind]. rewrite Hinit; cbn [mbind option_bind].
  rewrite HWu, Hv, (one_step_found table Hok W _ x lo hi init) by (auto; unfold width_ok in HW; cbn [snd] in HW; unfold in_u32; lia).
  cbn [mbind option_bind]. rewrite s16_id by done. rewrite aset_in by done. cbn [mbind option_bind].
  destruct (dec_shift_spec D d (<[Z.to_nat i := x]> (d_data d)) n V W lo hi HD Hat HW Hs Hin Hroom)
    as (d' & -> & Hd' & Hat').
  exists d'. auto.
Qed.

(** The search of a whole table. *)
Lemma bisect_table table j W sv x lo hi W_lower :
  cdf_ok table = true -> (j <= 15)%nat -> zlen table = 2 ^ Z.of_nat (S j) - 1 ->
  in_u32 W -> found table W sv x lo hi ->
  let sizeTmp := Z.shiftr (2 ^ Z.of_nat (S j)) 1 in
  exists p W_tmp W_lower' W_upper',
    bisect 16 table W sv (sizeTmp - 1) sizeTmp W_lower W = Some (p, W_tmp, W_lower', W_upper') /\
    (if W_tmp <? sv then W_tmp = part W lo /\ W_upper' = part W hi /\ p = x
     else W_lower' = part W lo /\ W_tmp = part W hi /\ p - 1 = x).
Proof.
  intros Hok Hj Hlen HW Hfo. cbv zeta.
  assert (Z.shiftr (2 ^ Z.of_nat (S j)) 1 = 2 ^ Z.of_nat j) as ->.
  { rewrite Z.shiftr_div_pow2 by lia. rewrite Nat2Z.inj_succ, Z.pow_succ_r by lia.
    change (2 ^ 1) with 2. rewrite Z.mul_comm. by apply Z.div_mul. }
  assert (0 < 2 ^ Z.of_nat j) as Hpos by (apply Z.pow_pos_nonneg; lia).
  rewrite Nat2Z.inj_succ, Z.pow_succ_r in Hlen by lia.
  pose proof (aget_Some_range _ _ _ (fo_hi _ _ _ _ _ _ Hfo)) as Hxr.
  pose proof (aget_Some_range _ _ _ (fo_lo _ _ _ _ _ _ Hfo)) as Hxr0.
  apply (bisect_found table Hok W sv x lo hi j); [done|done|lia|lia|lia|lia|intros c Hc; exfalso..];
    apply aget_Some_range in Hc; lia.
Qed.

Lemma bisect_symbol_found D table size i d x d' p W_tmp W_lower W_upper W lo hi data :
  bisect 16 table (d_W_upper d) (d_streamval d) (Z.shiftr size 1 - 1) (Z.shiftr size 1)
    (d_W_lower d) (d_W_upper d) = Some (p, W_tmp, W_lower, W_upper) ->
  (if W_tmp <? d_streamval d then W_tmp = part W lo /\ W_upper = part W hi /\ p = x
   else W_lower = part W lo /\ W_tmp = part W hi /\ p - 1 = x) ->
  aset (d_data d) i (s16 x) = Some data ->
  dec_shift D (d <| d_data := data |> <| d_W_lower := part W lo |> <| d_W_upper := part W hi |>) = Some d' ->
  bisect_symbol D table size i d = Some d'.
Proof.
  intros Eb Hres Es E. unfold bisect_symbol. cbv zeta. rewrite Eb. cbn [mbind option_bind].
  destruct (W_tmp <? d_streamval d); destruct Hres as (H1 & H2 & H3); subst; cbn iota;
    rewrite Es; cbn [mbind option_bind]; exact E.
Qed.

Lemma bisect_step_found D cdf cdfSize table size i d d' :
  aget cdf i = Some table -> aget cdfSize i = Some size -> bisect_symbol D table size i d = Some d' ->
  (d_W_upper d' =? 0) = false -> bisect_step D cdf cdfSize i d = Some (Go d').
Proof.
  intros Htab Hsize Hb E0. unfold bisect_step.
  rewrite (bind_eq _ _ _ Htab), (bind_eq _ _ _ Hsize), (bind_eq _ _ _ Hb). by rewrite E0.
Qed.

Lemma bisect_decodes D data old cdf cdfSize table j i :
  Forall in_u16 D -> aget cdf i = Some table -> cdf_ok table = true ->
  (j <= 15)%nat -> aget cdfSize i = Some (2 ^ Z.of_nat (S j)) -> zlen table = 2 ^ Z.of_nat (S j) - 1 ->
  (forall x, aget data i = Some x -> 0 <= x /\ in_s16 x) ->
  step_decodes (bisect_step D cdf cdfSize) D data old (hist_sym data cdf) i.
Proof.
  intros HD Htab Hok Hj Hsize Hlen Hdata d [[n V] W] x lo hi Hx _ Hsym Hs Hat HW Hi Hin Hroom.
  destruct (Hdata x Hx) as [Hx0 Hx16].
  pose proof (da_n _ _ _ Hat) as Hn. pose proof (da_W _ _ _ Hat) as HWu. pose proof (da_val _ _ _ Hat) as Hv.
  pose proof (abs_symbol_width _ _ HW Hs) as HW'. cbn [fst snd] in Hn, HWu, Hv.
  pose proof (hist_sym_found D data cdf i x lo hi table n V W HD Hn HW Hx16 Hx Htab Hsym Hok Hx0 Hin) as Hfo.
  rewrite <- Hv in Hfo. assert (in_u32 W) as HW32 by (unfold width_ok in HW; cbn [snd] in HW; unfold in_u32; lia).
  destruct (bisect_table table j W _ x lo hi (d_W_lower d) Hok Hj Hlen HW32 Hfo)
    as (p & W_tmp & lo' & up' & Eb & Hres).
  destruct (dec_shift_spec D d (<[Z.to_nat i := x]> (d_data d)) n V W lo hi HD Hat HW Hs Hin Hroom)
    as (d' & E & Hd' & Hat').
  exists d'. split; [|auto].
  assert ((d_W_upper d' =? 0) = false) as E0.
  { rewrite (da_W _ _ _ Hat'). unfold width_ok in HW'. apply Z.eqb_neq. lia. }
  assert (aset (d_data d) i (s16 x) = Some (<[Z.to_nat i := x]> (d_data d))) as Es
    by (rewrite s16_id by done; by apply aset_in).
  rewrite <- HWu in Eb.
  pose proof (bisect_symbol_found D table _ i d x d' _ _ _ _ W lo hi _ Eb Hres Es E) as Hb.
  exact (bisect_step_found D cdf cdfSize table _ i d d' Htab Hsize Hb E0).
Qed.

(** ** Whole calls *)

(** A decoder between two calls, or before the first one. *)
Record bd_at (D : list Z) (bd : Bitstr_dec) (s : Z * Z * Z) : Prop := mkBdAt {
  ba_stream : bd_stream bd = D;
  ba_W : bd_W_upper bd = s.2;
  ba_n : 0 <= s.1.1;
  ba_pos : (bd_stream_index bd = 0 /\ bd_full bd = 1 /\ s = abs_start) \/
           (bd_stream_index bd <> 0 /\ (bd_full bd = 0 \/ bd_full bd = 1) /\
            bytes_out (bd_stream_index bd) (bd_full bd) = s.1.1 + 4 /\
            bd_streamval bd = stream_val D (Z.to_nat (s.1.1 + 4)) - s.1.2);
}.

Lemma dec_reset_at D : bd_at D (dec_reset D) abs_start.
Proof. split; cbn; auto; lia. Qed.

Lemma dec_start_spec D bd s data :
  Forall in_u16 D -> bd_at D bd s -> dec_room D s ->
  exists d, dec_start bd data = Some d /\ dec_at D d s /\ d_data d = data.
Proof.
  intros HD [<- HW Hn Hpos] Hroom. unfold dec_start, dec_room in *.
  destruct Hpos as [(Hi & Hf & ->)|(Hi & Hf & Hb & Hv)].
  - rewrite Hi. cbn [Z.eqb]. unfold abs_start in *. cbn [fst snd] in *.
    destruct (aget_in (bd_stream bd) 0) as [w0 Hw0]; [lia|].
    destruct (aget_in (bd_stream bd) 1) as [w1 Hw1]; [lia|].
    rewrite (bind_eq _ _ _ Hw0), (bind_eq _ _ _ Hw1).
    assert (in_u16 w0) as H0 by (eapply aget_Forall; eauto). assert (in_u16 w1) as H1 by (eapply aget_Forall; eauto).
    rewrite aget_lookup in Hw0, Hw1 by lia. simpl in H0, H1.
    eexists. split; [reflexivity|]. split; [|done]. split; cbn -[stream_val Z.to_nat Z.add]; [lia|done| |auto|rewrite Hf; done].
    rewrite (u32_id (Z.shiftl w0 16)) by (rewrite Z.shiftl_mul_pow2 by lia; unfold in_u32; lia).
    rewrite lor_shiftl_add by lia. change (Z.to_nat (0 + 4)) with (2 * 2)%nat.
    rewrite (stream_val_word _ 1 _ Hw1). change (2 * 1)%nat with (2 * S 0)%nat.
    rewrite (stream_val_word _ 0 _ Hw0). change (stream_val _ (2 * 0)) with 0. lia.
  - rewrite (proj2 (Z.eqb_neq _ 0)) by done. eexists. split; [reflexivity|]. split; [|done].
    split; cbn -[stream_val]; auto.
Qed.

(** The number of bytes a stream needs that ends here. *)
Definition stream_len (s : Z * Z * Z) : Z := s.1.1 + (if 0x01FFFFFF <? s.2 then 1 else 2).

Lemma dec_finish_spec D bd d s :
  bd_stream bd = D -> dec_at D d s -> s.1.1 < 2 * STREAM_MAXW16_60MS ->
  exists bd', dec_finish bd (Go d) = (stream_len s, bd', d_data d) /\ bd_at D bd' s.
Proof.
  intros Hs [Hn HW Hv Hf Hp] Hroom. cbn [dec_finish]. unfold bytes_out, stream_len, STREAM_MAXW16_60MS in *.
  assert (b2z (d_full d =? 0) = 0 \/ b2z (d_full d =? 0) = 1) as Hb by (unfold b2z; case_match; auto).
  rewrite (u16_id (d_ptr d)) by (unfold in_u16; lia). rewrite HW.
  eexists. split.
  - f_equal. f_equal. destruct (0x1FFFFFF <? s.2); rewrite s16_id by (unfold in_s16; lia); lia.
  - split; cbn -[stream_val]; auto. right. split; [lia|]. auto.
Qed.

(** A decoder of histograms that follows the abstract coder on every symbol. *)
Lemma dec_call step D bd s data data0 sym syms :
  Forall in_u16 D -> bd_at D bd s -> width_ok s -> Forall sym_ok syms -> syms_from sym 0 syms ->
  (forall k, 0 <= k < zlen syms -> step_decodes step D data data0 sym k) ->
  zlen syms <= zlen data -> zlen syms <= zlen data0 ->
  inside D (abs_run s syms) -> dec_room D (abs_run s syms) ->
  (abs_run s syms).1.1 < 2 * STREAM_MAXW16_60MS ->
  exists d bd' data', dec_start bd data0 = Some d /\
    (r ← dec_loop step (length syms) 0 d; Some (dec_finish bd r)) =
      Some (stream_len (abs_run s syms), bd', data') /\
    bd_at D bd' (abs_run s syms) /\ copied data data0 data' 0 (zlen syms).
Proof.
  intros HD Hbd HW Hok Hsyms Hstep Hdata Hout Hin Hroom Hmax.
  pose proof (abs_run_grows syms s) as Hg.
  destruct (dec_start_spec D bd s data0 HD Hbd) as (d & Ed & Hat & Hd); [unfold dec_room in *; lia|].
  exists d. rewrite Ed.
  destruct (dec_loop_spec step D data data0 sym syms 0 d s HD Hok Hsyms) as (d' & E & Hat' & Hc);
    auto; try lia; [by intros; rewrite Hd|by rewrite Hd|].
  destruct (dec_finish_spec D bd d' _ (ba_stream _ _ _ Hbd) Hat' Hmax) as (bd' & Ef & Hbd').
  exists bd', (d_data d'). split; [done|]. rewrite (bind_eq _ _ _ E), Ef. rewrite Hd in Hc. done.
Qed.
