(* ===== verification/ArithLogist.v ===== *)
(** The arithmetic coder of iSAC (fixed point) for spectrum coefficients:
    [codecs/isac/fix/source/arith_routines_logist.c].  The distribution is a
    piecewise linear logistic function scaled by the envelope of the spectrum. *)
From S2P Require Import Prelude SplMath ArithCoder ArithDecoder.

Definition kHistEdges : list Z := [
  -327680; -314573; -301466; -288359; -275252; -262144; -249037; -235930; -222823; -209716;
  -196608; -183501; -170394; -157287; -144180; -131072; -117965; -104858;  -91751;  -78644;
  -65536;  -52429;  -39322;  -26215;  -13108;       0;   13107;   26214;   39321;   52428;
  65536;   78643;   91750;  104857;  117964;  131072;  144179;  157286;  170393;  183500;
  196608;  209715;  222822;  235929;  249036;  262144;  275251;  288358;  301465;  314572;
  327680].

Definition kCdfSlope : list Z := [
  5;    5;     5;     5;     5;     5;     5;     5;    5;    5;
  5;    5;    13;    23;    47;    87;   154;   315;  700; 1088;
  2471; 6064; 14221; 21463; 36634; 36924; 19750; 13270; 5806; 2312;
  1095;  660;   316;   145;    86;    41;    32;     5;    5;    5;
  5;    5;     5;     5;     5;     5;     5;     5;    5;    2;
  0].

Definition kCdfLogistic : list Z := [
  0;     2;     4;     6;     8;    10;    12;    14;    16;    18;
  20;    22;    24;    29;    38;    57;    92;   153;   279;   559;
  994;  1983;  4408; 10097; 18682; 33336; 48105; 56005; 61313; 63636;
  64560; 64998; 65262; 65389; 65447; 65481; 65497; 65510; 65512; 65514;
  65516; 65518; 65520; 65522; 65524; 65526; 65528; 65530; 65532; 65534;
  65535].

(** [WEBRTC_SPL_SAT(kHistEdges[50], x, kHistEdges[0])]. *)
Definition spl_sat (a b c : Z) : Z := if a <? b then a else if b <? c then c else b.

Definition Piecewise (xinQ15 : Z) : option Z :=
  e50 ← aget kHistEdges 50;
  e0 ← aget kHistEdges 0;
  let qtmp1 := spl_sat e50 xinQ15 e0 in
  let ind := Z.shiftr (s32 (5 * (qtmp1 - e0))) 16 in
  e ← aget kHistEdges ind;
  slope ← aget kCdfSlope ind;
  y ← aget kCdfLogistic ind;
  let qtmp2 := u16 (Z.shiftr (u32 (u32 (qtmp1 - e) * slope)) 15) in
  Some (u16 (y + qtmp2)).

(** [Piecewise] of a coefficient (Q7) scaled by the envelope (Q8). *)
Definition pw_scaled (x env : Z) : option Z := Piecewise (s16 x * u16 env).

(** ** The encoder *)

(** Moving a coefficient towards zero until its interval is large enough. *)
Fixpoint log_clip (fuel : nat) (env x cdfLo cdfHi : Z) : option (Z * Z * Z) :=
  if negb (cdfHi <=? u32 (cdfLo + 1)) then Some (x, cdfLo, cdfHi) else
  match fuel with
  | O => None
  | S fuel =>
      if 0 <? x then
        let x := s16 (x - 128) in
        lo ← pw_scaled (x - 64) env;
        log_clip fuel env x lo cdfLo
      else
        let x := s16 (x + 128) in
        hi ← pw_scaled (x + 64) env;
        log_clip fuel env x cdfHi hi
  end.

Definition log_interval (x env : Z) : option (Z * Z * Z) :=
  cdfLo ← pw_scaled (x - 64) env;
  cdfHi ← pw_scaled (x + 64) env;
  log_clip 600 env x cdfLo cdfHi.

(** The step of the envelope after sample [k]: one in four. *)
Definition env_step (k : Z) : Z := Z.land (Z.land k 1) (Z.shiftr k 1).

Fixpoint enc_logist (todo : nat) (k e : Z) (dataQ7 envQ8 : list Z) (W ptr : Z) (sd : Bitstr_enc)
    : option (flow Bitstr_enc (Z * Z * Bitstr_enc) * list Z) :=
  match todo with
  | O => Some (Go (W, ptr, sd), dataQ7)
  | S todo =>
      x ← aget dataQ7 k;
      env ← aget envQ8 e;
      c ← log_interval x env;
      let '(x, cdfLo, cdfHi) := c in
      dataQ7 ← aset dataQ7 k x;
      r ← enc_symbol W ptr sd cdfLo cdfHi;
      match r with
      | Ret code sd => Some (Ret code sd, dataQ7)
      | Go (W, ptr, sd) => enc_logist todo (k + 1) (e + env_step k) dataQ7 envQ8 W ptr sd
      end
  end.

(** Return value, stream and the coefficients that were encoded. *)
Definition EncLogisticMulti2 (sd : Bitstr_enc) (dataQ7 envQ8 : list Z) (lenData : Z)
    : option (Z * Bitstr_enc * list Z) :=
  r ← enc_logist (Z.to_nat lenData) 0 0 dataQ7 envQ8 (be_W_upper sd) (be_stream_index sd) sd;
  Some (enc_finish r.1, r.2).

(** ** The decoder *)

(** One Newton step for the square root; a division by zero is [None]. *)
Definition newton_step (inSqrt res : Z) : option Z :=
  if res =? 0 then None else Some (Z.shiftr (s32 (Z.quot inSqrt res + res)) 1).

(** [do res = newRes; ... while (newRes != res && i-- > 0)]: [res] and [newRes]. *)
Fixpoint newton (i : nat) (inSqrt newRes : Z) : option (Z * Z) :=
  let res := newRes in
  newRes ← newton_step inSqrt res;
  if newRes =? res then Some (res, newRes) else
  match i with
  | O => Some (res, newRes)
  | S i => newton i inSqrt newRes
  end.

(** The magnitude of a squared envelope value: the next [res] and the result. *)
Definition env_sqrt (inSqrt res : Z) : option (Z * Z) :=
  let inSqrt := if inSqrt <? 0 then s32 (- inSqrt) else inSqrt in
  newRes ← newton_step inSqrt res;
  r ← newton 10 inSqrt newRes;
  Some (r.1, u16 r.2).

Definition env_sqrt_start (env0 : Z) : Z := s32 (Z.shiftl 1 (Z.shiftr (GetSizeInBits (u32 env0)) 1)).

Definition log_bound (W cand env : Z) : option Z :=
  c ← pw_scaled cand env; Some (interval_part W c).

(** What a search answers: the interval and the candidate, or two equal
    bounds (code -1), or no answer yet when its rounds are used up.  The loops of
    the source have no such limit: [Searching] stands for a call that goes on. *)
Inductive search :=
  | Found (W_lower W_upper cand : Z)
  | Flat
  | Searching.

(** The loops that move the candidate. *)
Fixpoint log_up (rounds : nat) (W sv env cand W_lower W_tmp : Z) : option search :=
  if negb (W_tmp <? sv) then Some (Found W_lower W_tmp cand) else
  match rounds with
  | O => Some Searching
  | S rounds =>
      let W_lower := W_tmp in
      let cand := s16 (cand + 128) in
      W_tmp ← log_bound W cand env;
      if W_lower =? W_tmp then Some Flat else log_up rounds W sv env cand W_lower W_tmp
  end.

Fixpoint log_down (rounds : nat) (W sv env cand W_tmp W_upper : Z) : option search :=
  if W_tmp <? sv then Some (Found W_tmp W_upper cand) else
  match rounds with
  | O => Some Searching
  | S rounds =>
      let W_upper := W_tmp in
      let cand := s16 (cand - 128) in
      W_tmp ← log_bound W cand env;
      if W_upper =? W_tmp then Some Flat else log_down rounds W sv env cand W_tmp W_upper
  end.

(** From the last candidate to the coefficient between the last two. *)
Definition log_out (dx : Z) (r : search) : search :=
  match r with
  | Found lo hi cand => Found lo hi (s16 (cand + dx))
  | r => r
  end.

(** The coefficient that the stream holds, and its interval. *)
Definition log_search (rounds : nat) (W sv env dither : Z) : option search :=
  let cand := s16 (- dither + 64) in
  W_tmp ← log_bound W cand env;
  if W_tmp <? sv then
    let cand' := s16 (cand + 128) in
    W_tmp' ← log_bound W cand' env;
    r ← log_up rounds W sv env cand' W_tmp W_tmp';
    Some (log_out (-64) r)
  else
    let cand' := s16 (cand - 128) in
    W_tmp' ← log_bound W cand' env;
    r ← log_down rounds W sv env cand' W_tmp' W_tmp;
    Some (log_out 64 r).

(** The code by which a search without an answer leaves the loops of the model:
    none that the function returns, which are 16-bit values. *)
Definition SEARCHING : Z := 65536.

Definition log_step (rounds : nat) (stream : list Z) (env : Z) (k : Z) (d : Dec) : option (flow Dec Dec) :=
  dither ← aget (d_data d) k;
  r ← log_search rounds (d_W_upper d) (d_streamval d) env dither;
  match r with
  | Flat => Some (Ret (-1) d)
  | Searching => Some (Ret SEARCHING d)
  | Found W_lower W_upper x =>
      data ← aset (d_data d) k x;
      d ← dec_shift stream (d <| d_data := data |> <| d_W_lower := W_lower |> <| d_W_upper := W_upper |>);
      Some (Go d)
  end.

(** Four coefficients per envelope value; [n] groups from number [g] on. *)
Fixpoint dec_logist (rounds : nat) (n : nat) (g : Z) (stream envQ8 : list Z) (res : Z) (d : Dec)
    : option (flow Dec Dec) :=
  match n with
  | O => Some (Go d)
  | S n =>
      inSqrt ← aget envQ8 g;
      q ← env_sqrt inSqrt res;
      let '(res, tmpARSpecQ8) := q in
      r ← dec_loop (log_step rounds stream tmpARSpecQ8) 4 (4 * g) d;
      match r with
      | Ret code d => Some (Ret code d)
      | Go d => dec_logist rounds n (g + 1) stream envQ8 res d
      end
  end.

(** [Some (Some _)]: the call returns.  [Some None]: it is still searching
    after that many rounds for one coefficient, every access so far inside of its
    array.  [None]: an access out of bounds or a division by zero.  The fields
    other than [full] stay as they are on an error. *)
Definition DecLogisticMulti2 (rounds : nat) (dataQ7 : list Z) (sd : Bitstr_dec) (envQ8 : list Z) (lenData : Z)
    : option (option (Z * Bitstr_dec * list Z)) :=
  d ← dec_start sd dataQ7;
  env0 ← aget envQ8 0;
  r ← dec_logist rounds (Z.to_nat ((lenData + 3) / 4)) 0 (bd_stream sd) envQ8 (env_sqrt_start env0) d;
  Some (match r with
        | Ret code _ => if code =? SEARCHING then None else Some (dec_finish sd r)
        | Go _ => Some (dec_finish sd r)
        end).

(** ** The piecewise linear function *)

Definition edge (i : Z) : Z := default 0 (aget kHistEdges i).
Definition slope (i : Z) : Z := default 0 (aget kCdfSlope i).
Definition level (i : Z) : Z := default 0 (aget kCdfLogistic i).
Definition pw (x : Z) : Z := default 0 (Piecewise x).

(** On segment [i]. *)
Definition on_segment (i x : Z) : Z := level i + (x - edge i) * slope i / 32768.

Definition segment_ok (i : Z) : bool :=
  (5 * (edge i + 327680) <=? 65536 * i + 4) && (65536 * i - 5 <=? 5 * (edge i + 327680))
  && (0 <=? slope i) && (slope i <=? 36924) && (0 <=? level i)
  && (level i + 13109 * slope i / 32768 <=? 65535)
  && bool_decide (aget kHistEdges i = Some (edge i)) && bool_decide (aget kCdfSlope i = Some (slope i))
  && bool_decide (aget kCdfLogistic i = Some (level i)).

Lemma segments_ok i : 0 <= i < 51 -> segment_ok i = true.
Proof. apply (forall_below segment_ok 51). vm_compute. reflexivity. Qed.

Lemma Piecewise_segment i x :
  -327680 <= x <= 327680 -> 65536 * i <= 5 * (x + 327680) < 65536 * (i + 1) ->
  Piecewise x = Some (on_segment i x) /\ 0 <= on_segment i x <= 65535.
Proof.
  intros Hx Hi. pose proof (segments_ok i ltac:(lia)) as H. unfold segment_ok in H.
  rewrite !andb_true_iff, !bool_decide_eq_true, !Z.leb_le in H.
  destruct H as ((((((((H1 & H2) & H3) & H4) & H5) & H6) & E1) & E2) & E3).
  assert (0 <= x - edge i <= 13109) as He by lia.
  assert (0 <= (x - edge i) * slope i <= 13109 * slope i) as Hq
    by (split; [apply Z.mul_nonneg_nonneg|apply Z.mul_le_mono_nonneg_r]; lia).
  assert ((x - edge i) * slope i / 32768 <= 13109 * slope i / 32768) as Hd by (apply Z.div_le_mono; lia).
  assert (0 <= (x - edge i) * slope i / 32768) as Hd0 by (apply Z.div_pos; lia).
  unfold on_segment. split; [|lia]. unfold Piecewise.
  change (aget kHistEdges 50) with (Some 327680). change (aget kHistEdges 0) with (Some (-327680)).
  cbn [mbind option_bind].
  assert (spl_sat 327680 x (-327680) = x) as ->.
  { unfold spl_sat. destruct (Z.ltb_spec 327680 x), (Z.ltb_spec x (-327680)); lia. }
  rewrite (s32_id (5 * _)) by (unfold in_s32; lia).
  assert (Z.shiftr (5 * (x - -327680)) 16 = i) as ->.
  { rewrite Z.shiftr_div_pow2 by lia. change (2 ^ 16) with 65536. Z.to_euclidean_division_equations; lia. }
  rewrite E1, E2, E3. cbn [mbind option_bind]. f_equal.
  rewrite (u32_id (x - edge i)) by (unfold in_u32; lia).
  rewrite (u32_id ((x - edge i) * slope i)) by (unfold in_u32; lia).
  rewrite Z.shiftr_div_pow2 by lia. change (2 ^ 15) with 32768.
  rewrite (u16_id (_ / _)) by (unfold in_u16; lia). apply u16_id. unfold in_u16. lia.
Qed.

(** The argument is clamped to the table. *)
Definition clamp (x : Z) : Z := Z.max (-327680) (Z.min 327680 x).

Lemma Piecewise_clamp x : Piecewise x = Piecewise (clamp x).
Proof.
  unfold Piecewise. change (aget kHistEdges 50) with (Some 327680).
  change (aget kHistEdges 0) with (Some (-327680)). cbn [mbind option_bind].
  assert (spl_sat 327680 x (-327680) = spl_sat 327680 (clamp x) (-327680)) as ->; [|done].
  unfold spl_sat, clamp.
  repeat match goal with |- context [?a <? ?b] => destruct (Z.ltb_spec a b) end; lia.
Qed.

Definition seg (x : Z) : Z := 5 * (clamp x + 327680) / 65536.

Lemma seg_spec x : 65536 * seg x <= 5 * (clamp x + 327680) < 65536 * (seg x + 1) /\ 0 <= seg x <= 50.
Proof. unfold seg, clamp. Z.to_euclidean_division_equations; lia. Qed.

Lemma pw_segment x : Piecewise x = Some (pw x) /\ pw x = on_segment (seg x) (clamp x) /\ 0 <= pw x <= 65535.
Proof.
  destruct (seg_spec x) as [Hs Hr].
  destruct (Piecewise_segment (seg x) (clamp x)) as [E Hb]; [unfold clamp; lia|done|].
  unfold pw. rewrite Piecewise_clamp, E. done.
Qed.

Lemma pw_eq x : Piecewise x = Some (pw x).
Proof. apply pw_segment. Qed.
Lemma pw_range x : 0 <= pw x <= 65535.
Proof. apply pw_segment. Qed.

(** The first argument of segment [i]. *)
Definition seg_start (i : Z) : Z := (65536 * i + 4) / 5 - 327680.

Definition segment_mono (i : Z) : bool :=
  on_segment i (seg_start (i + 1) - 1) <=? on_segment (i + 1) (seg_start (i + 1)).

Lemma segments_mono i : 0 <= i < 50 -> segment_mono i = true.
Proof. apply (forall_below segment_mono 50). vm_compute. reflexivity. Qed.

Lemma on_segment_mono i x y : 0 <= i < 51 -> x <= y -> on_segment i x <= on_segment i y.
Proof.
  intros Hi Hxy. pose proof (segments_ok i Hi) as H. unfold segment_ok in H.
  rewrite !andb_true_iff, !Z.leb_le in H.
  unfold on_segment. assert ((x - edge i) * slope i <= (y - edge i) * slope i) as Hm by (apply Z.mul_le_mono_nonneg_r; lia).
  pose proof (Z.div_le_mono _ _ 32768 ltac:(lia) Hm). lia.
Qed.

Lemma pw_succ x : pw x <= pw (x + 1).
Proof.
  destruct (pw_segment x) as (_ & Ex & _), (pw_segment (x + 1)) as (_ & Ey & _). rewrite Ex, Ey.
  destruct (seg_spec x) as [Hx Hrx], (seg_spec (x + 1)) as [Hy Hry].
  assert (clamp x <= clamp (x + 1) <= clamp x + 1) as Hc by (unfold clamp; lia).
  destruct (Z.eq_dec (seg x) (seg (x + 1))) as [E|E].
  { rewrite E. apply on_segment_mono; lia. }
  assert (seg (x + 1) = seg x + 1) as E1 by lia. rewrite E1 in *.
  pose proof (segments_mono (seg x) ltac:(lia)) as Hm. unfold segment_mono in Hm. apply Z.leb_le in Hm.
  assert (clamp x = seg_start (seg x + 1) - 1) as ->.
  { unfold seg_start. Z.to_euclidean_division_equations; lia. }
  assert (clamp (x + 1) = seg_start (seg x + 1)) as ->; [|done].
  unfold seg_start. Z.to_euclidean_division_equations; lia.
Qed.

Lemma pw_mono x y : x <= y -> pw x <= pw y.
Proof.
  intros Hxy. assert (forall n : nat, pw x <= pw (x + Z.of_nat n)) as H.
  { induction n as [|n IH]; [by replace (x + Z.of_nat 0) with x by lia|].
    pose proof (pw_succ (x + Z.of_nat n)) as Hs.
    replace (x + Z.of_nat n + 1) with (x + Z.of_nat (S n)) in Hs by lia. lia. }
  specialize (H (Z.to_nat (y - x))). by replace (x + Z.of_nat (Z.to_nat (y - x))) with y in H by lia.
Qed.

(** Except at the two ends the function grows within 6554 places, the length
    of the flat pieces where the slope is least. *)
Lemma on_segment_strict i x : 0 <= i < 49 -> edge i <= x -> on_segment i x < on_segment i (x + 6554).
Proof.
  intros Hi Hx. assert (5 <= slope i) as Hs.
  { apply Z.leb_le. revert i Hi Hx. intros i Hi _. apply (forall_below (fun i => 5 <=? slope i) 49); [by vm_compute|lia]. }
  unfold on_segment. assert (((x - edge i) * slope i + 1 * 32768) / 32768 <= (x + 6554 - edge i) * slope i / 32768) as H
    by (apply Z.div_le_mono; nia).
  rewrite Z.div_add in H by lia. lia.
Qed.

(** From one segment to the next: the slopes and levels of each pair are
    numbers, so this is linear arithmetic. *)
Lemma next_segment_strict i x :
  0 <= i < 49 -> 65536 * i <= 5 * (x + 327680) < 65536 * (i + 1) ->
  65536 * (i + 1) <= 5 * (x + 6554 + 327680) ->
  on_segment i x < on_segment (i + 1) (x + 6554).
Proof.
  intros Hi H1 H2. assert (exists n, (n < 49)%nat /\ i = Z.of_nat n) as (n & Hn & ->)
    by (exists (Z.to_nat i); lia).
  clear Hi. do 49 (destruct n as [|n];
    [unfold on_segment; cbn in H1, H2;
     match goal with |- ?a + _ * ?s / _ < ?b + _ * ?t / _ =>
       let a' := eval vm_compute in a in let s' := eval vm_compute in s in
       let b' := eval vm_compute in b in let t' := eval vm_compute in t in
       change a with a'; change s with s'; change b with b'; change t with t' end;
     repeat match goal with |- context [edge ?k] => let e := eval vm_compute in (edge k) in change (edge k) with e end;
     Z.to_euclidean_division_equations; lia|]).
  lia.
Qed.

Lemma pw_strict x y : x + 6554 <= y -> pw x <= 65533 -> 2 <= pw y -> pw x < pw y.
Proof.
  intros Hxy Hx Hy. pose proof (pw_mono (x + 6554) y Hxy) as Hm.
  assert (pw (-327680) = 0) as E0 by (vm_compute; reflexivity).
  assert (pw 327680 = 65535) as E1 by (vm_compute; reflexivity).
  assert (pw 314573 = 65534) as E2 by (vm_compute; reflexivity).
  destruct (Z.le_gt_cases x (-327680)).
  { pose proof (pw_mono x (-327680) ltac:(lia)). pose proof (pw_range x). lia. }
  assert (x < 314573) as Hx2.
  { destruct (Z.lt_ge_cases x 314573); [done|]. pose proof (pw_mono 314573 x ltac:(lia)). lia. }
  enough (pw x < pw (x + 6554)) by lia.
  destruct (pw_segment x) as (_ & Ex & _), (pw_segment (x + 6554)) as (_ & Ey & _). rewrite Ex, Ey.
  destruct (seg_spec x) as [Hsx Hrx], (seg_spec (x + 6554)) as [Hsy Hry].
  assert (clamp x = x) as Cx by (unfold clamp; lia).
  assert (clamp (x + 6554) = x + 6554) as Cy by (unfold clamp; lia). rewrite Cx, Cy in *.
  destruct (Z.eq_dec (seg x) (seg (x + 6554))) as [E|E].
  - rewrite <- E in *. apply on_segment_strict; [lia|].
    pose proof (segments_ok (seg x) ltac:(lia)) as Hok. unfold segment_ok in Hok.
    rewrite !andb_true_iff, !Z.leb_le in Hok. lia.
  - assert (seg (x + 6554) = seg x + 1) as E1' by lia. rewrite E1' in *. apply next_segment_strict; lia.
Qed.

(** ** One coefficient *)

(** The distribution function at [x] under the envelope [env]. *)
Definition cdf_at (env x : Z) : Z := pw (x * env).

Lemma pw_scaled_eq x env : in_s16 x -> in_u16 env -> pw_scaled x env = Some (cdf_at env x).
Proof. intros Hx He. unfold pw_scaled, cdf_at. rewrite s16_id, u16_id by done. apply pw_eq. Qed.

Lemma cdf_at_range env x : 0 <= cdf_at env x <= 65535.
Proof. apply pw_range. Qed.

Lemma cdf_at_mono env x y : 0 <= env -> x <= y -> cdf_at env x <= cdf_at env y.
Proof. intros. apply pw_mono. nia. Qed.

(** The interval around zero is large for every envelope but 0. *)
Lemma cdf_centre env x : 1 <= env -> -64 <= x <= 64 -> cdf_at env (x - 64) + 1 < cdf_at env (x + 64).
Proof.
  intros He Hx. unfold cdf_at.
  assert (pw (-64) = 33264) as E1 by (vm_compute; reflexivity).
  assert (pw 0 = 33336) as E2 by (vm_compute; reflexivity).
  assert (pw 64 = 33408) as E3 by (vm_compute; reflexivity).
  destruct (Z.le_gt_cases 0 x).
  - pose proof (pw_mono ((x - 64) * env) 0 ltac:(nia)). pose proof (pw_mono 64 ((x + 64) * env) ltac:(nia)). lia.
  - pose proof (pw_mono ((x - 64) * env) (-64) ltac:(nia)). pose proof (pw_mono 0 ((x + 64) * env) ltac:(nia)). lia.
Qed.

(** A coefficient the coder can represent. *)
Definition coeff_ok (x : Z) : Prop := -32640 <= x <= 32640.

(** What is coded for [x]: the same residue, an interval that is large enough. *)
Definition log_coded_as (env x x' : Z) : Prop :=
  coeff_ok x' /\ (x' - x) mod 128 = 0 /\ cdf_at env (x' - 64) + 1 < cdf_at env (x' + 64).

Lemma log_clip_stop fuel env x lo hi :
  0 <= lo <= 65535 -> lo + 1 < hi -> log_clip fuel env x lo hi = Some (x, lo, hi).
Proof.
  intros Hlo Hlt. destruct fuel; cbn [log_clip]; rewrite u32_id by (unfold in_u32; lia);
    by rewrite (proj2 (Z.leb_gt _ _)) by lia.
Qed.

Lemma log_clip_spec env n : forall fuel x,
  1 <= env -> in_u16 env -> coeff_ok x -> Z.abs x <= 64 + 128 * Z.of_nat n -> (n <= fuel)%nat ->
  exists x', log_clip fuel env x (cdf_at env (x - 64)) (cdf_at env (x + 64)) =
    Some (x', cdf_at env (x' - 64), cdf_at env (x' + 64)) /\ log_coded_as env x x' /\
    Z.abs x' <= Z.max 128 (Z.abs x).
Proof.
  induction n as [|n IH]; intros fuel x He Hu Hx Hn Hfuel; unfold coeff_ok in Hx.
  all: pose proof (cdf_at_range env (x - 64)); pose proof (cdf_at_range env (x + 64)).
  all: assert (cdf_at env (x - 64) + 1 < cdf_at env (x + 64) ->
    log_clip fuel env x (cdf_at env (x - 64)) (cdf_at env (x + 64)) =
    Some (x, cdf_at env (x - 64), cdf_at env (x + 64))) as Hstop
    by (intros Hlt; by apply log_clip_stop).
  all: assert (cdf_at env (x - 64) + 1 < cdf_at env (x + 64) -> log_coded_as env x x) as Hsame
    by (intros Hlt; split; [exact Hx|split; [by rewrite Z.sub_diag|exact Hlt]]).
  { exists x. pose proof (cdf_centre env x He ltac:(lia)). split; [by apply Hstop|]. split; [by apply Hsame|lia]. }
  destruct (Z.le_gt_cases (cdf_at env (x + 64)) (cdf_at env (x - 64) + 1)) as [Hsmall|Hlarge].
  2:{ exists x. split; [by apply Hstop|]. split; [by apply Hsame|lia]. }
  assert (~ -64 <= x <= 64) as Hout by (intros Hc; pose proof (cdf_centre env x He Hc); lia).
  destruct fuel as [|fuel]; [lia|]. cbn [log_clip]. rewrite u32_id by (unfold in_u32; lia).
  rewrite (proj2 (Z.leb_le _ _)) by lia. cbn [negb].
  destruct (Z.ltb_spec 0 x).
  - rewrite (s16_id (x - 128)), (bind_eq _ _ _ (pw_scaled_eq (x - 128 - 64) env ltac:(unfold in_s16; lia) Hu))
      by (unfold in_s16; lia).
    replace (x - 64) with (x - 128 + 64) by lia.
    destruct (IH fuel (x - 128)) as (x' & -> & (Hc & Hm & Hlt) & Ha); auto; [unfold coeff_ok; lia|lia|lia|].
    exists x'. split; [done|]. split; [|lia]. split; [done|]. split; [|done].
    replace (x' - x) with (x' - (x - 128) + (-1) * 128) by lia. by rewrite Z.mod_add.
  - rewrite (s16_id (x + 128)), (bind_eq _ _ _ (pw_scaled_eq (x + 128 + 64) env ltac:(unfold in_s16; lia) Hu))
      by (unfold in_s16; lia).
    replace (x + 64) with (x + 128 - 64) by lia.
    destruct (IH fuel (x + 128)) as (x' & -> & (Hc & Hm & Hlt) & Ha); auto; [unfold coeff_ok; lia|lia|lia|].
    exists x'. split; [done|]. split; [|lia]. split; [done|]. split; [|done].
    replace (x' - x) with (x' - (x + 128) + 1 * 128) by lia. by rewrite Z.mod_add.
Qed.

Lemma log_interval_spec env x :
  1 <= env -> in_u16 env -> coeff_ok x ->
  exists x', log_interval x env = Some (x', cdf_at env (x' - 64), cdf_at env (x' + 64)) /\
    log_coded_as env x x'.
Proof.
  intros He Hu Hx. unfold coeff_ok in Hx. unfold log_interval.
  rewrite (bind_eq _ _ _ (pw_scaled_eq (x - 64) env ltac:(unfold in_s16; lia) Hu)).
  rewrite (bind_eq _ _ _ (pw_scaled_eq (x + 64) env ltac:(unfold in_s16; lia) Hu)).
  destruct (log_clip_spec env 255 600 x He Hu Hx) as (x' & E & Hc & _); [lia|lia|].
  exists x'. done.
Qed.

(** ** The search of the decoder *)

Section Search.
Context (W sv env x : Z).
Context (HW : 2 ^ 24 <= W < 2 ^ 32) (He : 52 <= env) (Hu : in_u16 env) (Hx : coeff_ok x).
Context (Hlarge : cdf_at env (x - 64) + 1 < cdf_at env (x + 64)).
Context (Hsv : part W (cdf_at env (x - 64)) < sv <= part W (cdf_at env (x + 64))).

(** The scaled bound at a candidate. *)
Let bound (c : Z) : Z := part W (cdf_at env c).

Lemma log_bound_eq c : in_s16 c -> log_bound W c env = Some (bound c).
Proof using HW Hu.
  intros Hc. unfold log_bound. rewrite (bind_eq _ _ _ (pw_scaled_eq c env Hc Hu)).
  rewrite interval_part_eq; [done|unfold in_u32; lia|apply cdf_at_range].
Qed.

Lemma bound_mono c c' : c <= c' -> bound c <= bound c'.
Proof using HW He. intros. apply part_mono; [lia|]. apply cdf_at_mono; lia. Qed.

(** Two candidates in a row have different bounds inside of the table. *)
Lemma bound_strict c :
  cdf_at env c <= 65533 -> 2 <= cdf_at env (c + 128) -> bound c < bound (c + 128).
Proof using HW He.
  intros H1 H2. assert (cdf_at env c < cdf_at env (c + 128)) as Hlt by (apply pw_strict; [nia|done..]).
  pose proof (part_gap W _ _ (proj1 HW) Hlt). unfold bound. lia.
Qed.

Lemma log_up_found n : forall fuel c,
  c = x + 64 - 128 * Z.of_nat n -> -128 <= c -> (n <= fuel)%nat ->
  log_up fuel W sv env c (bound (c - 128)) (bound c) = Some (Found (bound (x - 64)) (bound (x + 64)) (x + 64)).
Proof using HW He Hu Hx Hlarge Hsv.
  unfold coeff_ok in Hx.
  induction n as [|n IH]; intros fuel c Hc Hpos Hfuel.
  - assert (c = x + 64) as -> by lia. replace (x + 64 - 128) with (x - 64) by lia.
    destruct fuel; cbn [log_up]; by rewrite (proj2 (Z.ltb_ge _ _)) by (unfold bound; lia).
  - destruct fuel as [|fuel]; [lia|]. cbn [log_up].
    pose proof (bound_mono c (x - 64) ltac:(lia)) as Hb. unfold bound in Hb at 2.
    rewrite (proj2 (Z.ltb_lt _ _)) by lia. cbn [negb]. cbv zeta.
    rewrite (s16_id (c + 128)) by (unfold in_s16; lia).
    rewrite (bind_eq _ _ _ (log_bound_eq (c + 128) ltac:(unfold in_s16; lia))).
    assert (bound c < bound (c + 128)) as Hlt.
    { apply bound_strict.
      - pose proof (cdf_at_mono env c (x - 64) ltac:(lia) ltac:(lia)). pose proof (cdf_at_range env (x + 64)). lia.
      - pose proof (cdf_at_mono env 0 (c + 128) ltac:(lia) ltac:(lia)) as H0.
        assert (cdf_at env 0 = 33336) as E0 by (vm_compute; reflexivity). lia. }
    rewrite (proj2 (Z.eqb_neq _ _)) by lia.
    specialize (IH fuel (c + 128) ltac:(lia) ltac:(lia) ltac:(lia)).
    by replace (c + 128 - 128) with c in IH by lia.
Qed.

Lemma log_down_found n : forall fuel c,
  c = x - 64 + 128 * Z.of_nat n -> c <= 128 -> (n <= fuel)%nat ->
  log_down fuel W sv env c (bound c) (bound (c + 128)) = Some (Found (bound (x - 64)) (bound (x + 64)) (x - 64)).
Proof using HW He Hu Hx Hlarge Hsv.
  unfold coeff_ok in Hx.
  induction n as [|n IH]; intros fuel c Hc Hpos Hfuel.
  - assert (c = x - 64) as -> by lia. replace (x - 64 + 128) with (x + 64) by lia.
    destruct fuel; cbn [log_down]; by rewrite (proj2 (Z.ltb_lt _ _)) by (unfold bound; lia).
  - destruct fuel as [|fuel]; [lia|]. cbn [log_down].
    pose proof (bound_mono (x + 64) c ltac:(lia)) as Hb. unfold bound in Hb at 1.
    rewrite (proj2 (Z.ltb_ge _ _)) by lia. cbv zeta.
    rewrite (s16_id (c - 128)) by (unfold in_s16; lia).
    rewrite (bind_eq _ _ _ (log_bound_eq (c - 128) ltac:(unfold in_s16; lia))).
    assert (bound (c - 128) < bound (c - 128 + 128)) as Hlt.
    { apply bound_strict.
      - pose proof (cdf_at_mono env (c - 128) 0 ltac:(lia) ltac:(lia)) as H0.
        assert (cdf_at env 0 = 33336) as E0 by (vm_compute; reflexivity). lia.
      - replace (c - 128 + 128) with c by lia.
        pose proof (cdf_at_mono env (x + 64) c ltac:(lia) ltac:(lia)). pose proof (cdf_at_range env (x - 64)). lia. }
    specialize (IH fuel (c - 128) ltac:(lia) ltac:(lia) ltac:(lia)).
    replace (c - 128 + 128) with c in IH, Hlt by lia.
    rewrite (proj2 (Z.eqb_neq _ _)) by lia. exact IH.
Qed.

Lemma log_search_found rounds dither :
  (600 <= rounds)%nat -> -128 <= dither <= 128 -> (x + dither) mod 128 = 0 ->
  log_search rounds W sv env dither = Some (Found (bound (x - 64)) (bound (x + 64)) x).
Proof using HW He Hu Hx Hlarge Hsv.
  intros Hr Hd Hm. pose proof Hx as Hx'. unfold coeff_ok in Hx'.
  pose proof (Z.div_mod (x + dither) 128 ltac:(lia)) as Hq. rewrite Hm in Hq.
  set (q := (x + dither) / 128) in *. unfold log_search.
  rewrite (s16_id (- dither + 64)) by (unfold in_s16; lia).
  rewrite (bind_eq _ _ _ (log_bound_eq (- dither + 64) ltac:(unfold in_s16; lia))).
  destruct (Z.ltb_spec (bound (- dither + 64)) sv) as [Hlt|Hge].
  - assert (- dither + 64 < x + 64) as Hc.
    { destruct (Z.lt_ge_cases (- dither + 64) (x + 64)); [done|].
      pose proof (bound_mono (x + 64) (- dither + 64) ltac:(lia)) as Hb. unfold bound in Hb at 1. lia. }
    rewrite (s16_id (- dither + 64 + 128)) by (unfold in_s16; lia).
    rewrite (bind_eq _ _ _ (log_bound_eq (- dither + 64 + 128) ltac:(unfold in_s16; lia))).
    pose proof (log_up_found (Z.to_nat (q - 1)) rounds (- dither + 64 + 128) ltac:(lia) ltac:(lia) ltac:(lia)) as E.
    replace (- dither + 64 + 128 - 128) with (- dither + 64) in E by lia.
    rewrite (bind_eq _ _ _ E). cbn [log_out]. replace (x + 64 + -64) with x by lia.
    by rewrite s16_id by (unfold in_s16; lia).
  - assert (x - 64 < - dither + 64) as Hc.
    { destruct (Z.lt_ge_cases (x - 64) (- dither + 64)); [done|].
      pose proof (bound_mono (- dither + 64) (x - 64) ltac:(lia)) as Hb. unfold bound in Hb at 2. lia. }
    rewrite (s16_id (- dither + 64 - 128)) by (unfold in_s16; lia).
    rewrite (bind_eq _ _ _ (log_bound_eq (- dither + 64 - 128) ltac:(unfold in_s16; lia))).
    pose proof (log_down_found (Z.to_nat (- q)) rounds (- dither + 64 - 128) ltac:(lia) ltac:(lia) ltac:(lia)) as E.
    replace (- dither + 64 - 128 + 128) with (- dither + 64) in E by lia.
    rewrite (bind_eq _ _ _ E). cbn [log_out]. replace (x - 64 + 64) with x by lia.
    by rewrite s16_id by (unfold in_s16; lia).
Qed.

End Search.

(** ** The loops *)

Lemma env_step_eq k : 0 <= k -> k / 4 + env_step k = (k + 1) / 4.
Proof.
  intros Hk. unfold env_step. rewrite (land_one k), shiftr_one.
  destruct (Z.eq_dec (k mod 2) 0) as [E|E].
  - rewrite E, Z.land_0_l. Z.to_euclidean_division_equations; lia.
  - assert (k mod 2 = 1) as -> by (Z.to_euclidean_division_equations; lia).
    rewrite Z.land_comm, land_one. Z.to_euclidean_division_equations; lia.
Qed.

(** Coefficient [k] of [data] is coded as coefficient [k] of [xs]. *)
Definition log_codes (data envQ8 xs : list Z) (k : Z) (sym : Z * Z) : Prop :=
  exists x env x', aget data k = Some x /\ aget envQ8 (k / 4) = Some env /\
    log_interval x env = Some (x', sym.1, sym.2) /\ aget xs k = Some x'.

Lemma enc_logist_spec envQ8 xs syms : forall k data W ptr sd,
  0 <= k -> k + zlen syms <= zlen data ->
  (forall j sym, syms !! j = Some sym -> log_codes data envQ8 xs (k + Z.of_nat j) sym) ->
  match enc_syms syms W ptr sd with
  | Some (Go r) => exists data', enc_logist (length syms) k (k / 4) data envQ8 W ptr sd = Some (Go r, data') /\
      copied xs data data' k (zlen syms)
  | Some (Ret code sd') => exists data',
      enc_logist (length syms) k (k / 4) data envQ8 W ptr sd = Some (Ret code sd', data')
  | None => True
  end.
Proof.
  induction syms as [|[lo hi] syms IH]; intros k data W ptr sd Hk Hlen Hcodes; cbn [enc_syms enc_logist length].
  { exists data. split; [done|]. split; [done|]. split; [|done]. unfold zlen. cbn. lia. }
  rewrite zlen_cons in *. pose proof (zlen_nonneg syms).
  destruct (Hcodes 0%nat (lo, hi) eq_refl) as (x & env & x' & Hx & He & Hc & Hx').
  replace (k + Z.of_nat 0) with k in * by lia. cbn [fst snd] in Hc.
  rewrite (bind_eq _ _ _ Hx), (bind_eq _ _ _ He), (bind_eq _ _ _ Hc).
  rewrite (bind_eq _ _ _ (aset_in data k x' ltac:(lia))).
  destruct (enc_symbol W ptr sd lo hi) as [[[[W' ptr'] sd']|code sd']|]; cbn [mbind option_bind]; [|eauto|done].
  rewrite env_step_eq by done.
  specialize (IH (k + 1) (<[Z.to_nat k := x']> data) W' ptr' sd' ltac:(lia)).
  rewrite zlen_insert in IH. specialize (IH ltac:(lia)).
  assert (forall j sym, syms !! j = Some sym ->
    log_codes (<[Z.to_nat k := x']> data) envQ8 xs (k + 1 + Z.of_nat j) sym) as Hcodes'.
  { intros j sym Hj. destruct (Hcodes (S j) sym Hj) as (y & e & y' & Hy & H').
    replace (k + Z.of_nat (S j)) with (k + 1 + Z.of_nat j) in * by lia.
    exists y, e, y'. split; [|done]. by rewrite aget_insert_ne by lia. }
  specialize (IH Hcodes'). destruct (enc_syms syms W' ptr' sd') as [[r|code sd2]|]; [|done..].
  destruct IH as (data' & E & Hcp). exists data'. split; [exact E|].
  apply (copied_step _ _ _ _ _ x'); [lia|lia|done|done].
Qed.

(** The stream at [k] holds coefficient [k] of [xs], coded under [env]. *)
Definition log_holds (env : Z) (xs dith : list Z) (sym : Z -> option (Z * Z)) (k : Z) : Prop :=
  exists x dither, aget xs k = Some x /\ aget dith k = Some dither /\
    -128 <= dither <= 128 /\ (x + dither) mod 128 = 0 /\ coeff_ok x /\
    cdf_at env (x - 64) + 1 < cdf_at env (x + 64) /\
    sym k = Some (cdf_at env (x - 64), cdf_at env (x + 64)).

Lemma log_decodes rounds D env xs dith sym k :
  (600 <= rounds)%nat -> Forall in_u16 D -> 52 <= env -> in_u16 env -> log_holds env xs dith sym k ->
  step_decodes (log_step rounds D env) D xs dith sym k.
Proof.
  intros Hr HD He Hu (x0 & dither & Hx0 & Hdith & Hd & Hm & Hc & Hlarge & Hsym0).
  intros d [[n V] W] x lo hi Hx Hold Hsym Hok Hat HW Hi Hin Hroom.
  assert (x0 = x) as -> by congruence. assert (lo = cdf_at env (x - 64)) as -> by congruence.
  assert (hi = cdf_at env (x + 64)) as -> by congruence.
  pose proof (da_n _ _ _ Hat) as Hn. pose proof (da_W _ _ _ Hat) as HWu. pose proof (da_val _ _ _ Hat) as Hv.
  cbn [fst snd] in Hn, HWu, Hv.
  destruct (inside_symbol D n V W _ _ HD Hn HW Hok Hin) as [Hb _]. rewrite <- Hv in Hb.
  destruct (dec_shift_spec D d (<[Z.to_nat k := x]> (d_data d)) n V W _ _ HD Hat HW Hok Hin Hroom)
    as (d' & E & Hd' & Hat').
  exists d'. split; [|auto]. unfold log_step. rewrite Hdith in Hold. rewrite (bind_eq _ _ _ Hold).
  pose proof (log_search_found W (d_streamval d) env x HW He Hu Hc Hlarge Hb rounds dither Hr Hd Hm) as Es.
  rewrite <- HWu in Es at 1. rewrite (bind_eq _ _ _ Es), (bind_eq _ _ _ (aset_in (d_data d) k x Hi)).
  by rewrite (bind_eq _ _ _ E).
Qed.

(** The envelope values that the decoder computes, from group [g] on. *)
Fixpoint env_roots (n : nat) (g : Z) (envQ8 : list Z) (res : Z) : option (list Z) :=
  match n with
  | O => Some []
  | S n =>
      inSqrt ← aget envQ8 g;
      q ← env_sqrt inSqrt res;
      roots ← env_roots n (g + 1) envQ8 q.1;
      Some (q.2 :: roots)
  end.

Lemma syms_from_app sym i l k :
  syms_from sym i (l ++ k) -> syms_from sym i l /\ syms_from sym (i + zlen l) k.
Proof.
  intros H. split; intros j Hj.
  - rewrite H by (rewrite length_app; lia). by apply lookup_app_l.
  - specialize (H (length l + j)%nat). rewrite length_app in H. specialize (H ltac:(lia)).
    rewrite lookup_app_r in H by lia. unfold zlen.
    replace (i + Z.of_nat (length l + j)) with (i + Z.of_nat (length l) + Z.of_nat j) in H by lia.
    rewrite H. f_equal. lia.
Qed.

Lemma copied_app data out out1 out2 i n m :
  0 <= i -> 0 <= n -> 0 <= m ->
  copied data out out1 i n -> copied data out1 out2 (i + n) m -> copied data out out2 i (n + m).
Proof.
  intros Hi Hn Hm (L1 & C1 & R1) (L2 & C2 & R2). split; [lia|]. split; intros k Hk.
  - destruct (Z.lt_ge_cases k (i + n)); [rewrite R2 by lia; apply C1; lia|apply C2; lia].
  - rewrite R2 by lia. apply R1. lia.
Qed.

Lemma dec_logist_spec rounds D xs dith sym envQ8 n : forall g res roots syms d s,
  (600 <= rounds)%nat -> Forall in_u16 D -> Forall sym_ok syms -> length syms = (4 * n)%nat -> syms_from sym (4 * g) syms ->
  env_roots n g envQ8 res = Some roots ->
  (forall (j : nat) env k, roots !! j = Some env -> 4 * (g + Z.of_nat j) <= k < 4 * (g + Z.of_nat j) + 4 ->
     52 <= env /\ in_u16 env /\ log_holds env xs dith sym k) ->
  (forall k, 4 * g <= k < 4 * g + zlen syms -> aget (d_data d) k = aget dith k) ->
  0 <= g -> 4 * g + zlen syms <= zlen xs -> 4 * g + zlen syms <= zlen (d_data d) ->
  dec_at D d s -> width_ok s -> inside D (abs_run s syms) -> dec_room D (abs_run s syms) ->
  exists d', dec_logist rounds n g D envQ8 res d = Some (Go d') /\ dec_at D d' (abs_run s syms) /\
    copied xs (d_data d) (d_data d') (4 * g) (zlen syms).
Proof.
  induction n as [|n IH];
    intros g res roots syms d s Hrd HD Hok Hl Hsyms Hroots Hholds Hold Hg Hxs Hout Hat HW Hin Hroom.
  { destruct syms; [|done]. exists d. split; [done|]. split; [done|]. split; [done|]. split; [|done].
    unfold zlen; cbn; lia. }
  cbn [env_roots] in Hroots. apply bind_is_Some in Hroots as (inSqrt & Hin1 & Hroots).
  apply bind_is_Some in Hroots as ([res' env] & Hq & Hroots).
  apply bind_is_Some in Hroots as (roots' & Hr & Hroots). injection Hroots as <-. cbn [fst snd] in *.
  assert (exists s4 rest, syms = s4 ++ rest /\ length s4 = 4%nat) as (s4 & rest & -> & Hl4).
  { exists (take 4 syms), (drop 4 syms). split; [by rewrite take_drop|]. rewrite length_take. lia. }
  assert (zlen s4 = 4) as Hz4 by (unfold zlen; lia). rewrite length_app in Hl. rewrite zlen_app in *.
  apply Forall_app in Hok as [Hok4 Hokr]. apply syms_from_app in Hsyms as [Hs4 Hsr]. rewrite Hz4 in *.
  pose proof (zlen_nonneg rest).
  assert (abs_run s (s4 ++ rest) = abs_run (abs_run s s4) rest) as Erun by apply foldl_app.
  rewrite Erun in *. pose proof (abs_run_width s4 s HW Hok4) as HW4.
  pose proof (abs_run_grows s4 s). pose proof (abs_run_grows rest (abs_run s s4)). pose proof (da_n _ _ _ Hat).
  destruct (dec_loop_spec (log_step rounds D env) D xs dith sym s4 (4 * g) d s HD Hok4 Hs4)
    as (d1 & E1 & Hat1 & Hc1); auto; try lia.
  { intros k Hk. destruct (Hholds 0%nat env k eq_refl ltac:(lia)) as (He & Hu & Hh). by apply log_decodes. }
  { intros k Hk. apply Hold. lia. }
  { eapply inside_run; [done|lia|done|exact Hokr|done]. }
  { unfold dec_room in *. lia. }
  rewrite Hl4 in E1. pose proof Hc1 as (L1 & _ & R1).
  destruct (IH (g + 1) res' roots' rest d1 (abs_run s s4) Hrd HD Hokr) as (d' & E & Hat' & Hc);
    auto; rewrite ?L1; try lia.
  { by replace (4 * (g + 1)) with (4 * g + 4) by lia. }
  { intros j e k Hj Hk. apply (Hholds (S j) e k Hj). lia. }
  { intros k Hk. rewrite R1 by lia. apply Hold. lia. }
  exists d'. split; [|split; [done|]].
  - cbn [dec_logist]. rewrite (bind_eq _ _ _ Hin1), (bind_eq _ _ _ Hq), (bind_eq _ _ _ E1). exact E.
  - rewrite Hz4 in Hc1. apply (copied_app _ _ (d_data d1)); [lia..|done|].
    by replace (4 * g + 4) with (4 * (g + 1)) by lia.
Qed.
