(* ===== verification/ArithSession.v ===== *)
(** Whole bit streams of the iSAC arithmetic coder: any sequence of calls to
    the encoders of [arith_routines_hist.c] and [arith_routines_logist.c], ended
    by [EncTerminate], is read back by the matching calls of the decoders. *)
From S2P Require Import Prelude SplMath ArithCoder ArithDecoder ArithLogist.

(** ** Blocks

    A block is what one call encodes: histogram symbols, found again step by
    step or by bisection, or the coefficients of a spectrum with the squared
    envelope and the dither the decoder is given. *)
Inductive block :=
  | Hist (data : list Z) (cdf : list (list Z)) (initIndex : list Z)
  | Bisect (data : list Z) (cdf : list (list Z)) (cdfSize : list Z)
  | Spectrum (dataQ7 envQ8 invEnv dither : list Z).

(** Return value, stream and data as encoded. *)
Definition encode_block (sd : Bitstr_enc) (b : block) : option (Z * Bitstr_enc * list Z) :=
  match b with
  | Hist data cdf _ | Bisect data cdf _ =>
      r ← EncHistMulti sd data cdf (zlen data); Some (r, data)
  | Spectrum dataQ7 envQ8 _ _ => EncLogisticMulti2 sd dataQ7 envQ8 (zlen dataQ7)
  end.

(** 600 rounds for each coefficient: a candidate has 512 values. *)
Definition decode_block (bd : Bitstr_dec) (b : block) : option (Z * Bitstr_dec * list Z) :=
  match b with
  | Hist data cdf initIndex =>
      DecHistOneStepMulti (replicate (length data) 0) bd cdf initIndex (zlen data)
  | Bisect data cdf cdfSize =>
      DecHistBisectMulti (replicate (length data) 0) bd cdf cdfSize (zlen data)
  | Spectrum dataQ7 _ invEnv dither => mjoin (DecLogisticMulti2 600 dither bd invEnv (zlen dataQ7))
  end.

(** Call after call; an encoder that fails ends the packet. *)
Fixpoint encode_blocks (sd : Bitstr_enc) (bs : list block) : option (Z * Bitstr_enc * list (list Z)) :=
  match bs with
  | [] => Some (0, sd, [])
  | b :: bs =>
      r ← encode_block sd b;
      let '(code, sd, data) := r in
      if code <? 0 then Some (code, sd, []) else
      r ← encode_blocks sd bs;
      let '(code, sd, datas) := r in
      Some (code, sd, data :: datas)
  end.

(** The last return value is the length of the stream. *)
Fixpoint decode_blocks (len : Z) (bd : Bitstr_dec) (bs : list block)
    : option (Z * Bitstr_dec * list (list Z)) :=
  match bs with
  | [] => Some (len, bd, [])
  | b :: bs =>
      r ← decode_block bd b;
      let '(code, bd, data) := r in
      if code <? 0 then Some (code, bd, []) else
      r ← decode_blocks code bd bs;
      let '(code, bd, datas) := r in
      Some (code, bd, data :: datas)
  end.

(** ** What a call promises *)

Record enc_ready (sd : Bitstr_enc) (s : Z * Z * Z) : Prop := mkEncReady {
  er_at : enc_at sd (be_stream_index sd) s;
  er_W : be_W_upper sd = s.2;
  er_width : width_ok s;
}.

Definition fits (s : Z * Z * Z) : Prop := s.1.1 < 2 * STREAM_MAXW16_60MS.

(** The interface between a block and the session: on both sides the call is
    the abstract coder's run over [syms], and what is read is [coded]. *)
Class Coded (b : block) (syms : list (Z * Z)) (coded : list Z) : Prop := {
  co_syms : Forall sym_ok syms;
  co_enc : forall sd s, enc_ready sd s -> fits (abs_run s syms) ->
    exists sd', encode_block sd b = Some (0, sd', coded) /\ enc_ready sd' (abs_run s syms);
  co_full : forall sd s, enc_ready sd s -> ~ fits (abs_run s syms) ->
    exists sd' data, encode_block sd b = Some (- ISAC_DISALLOWED_BITSTREAM_LENGTH, sd', data);
  co_dec : forall D bd s, Forall in_u16 D -> bd_at D bd s -> width_ok s ->
    inside D (abs_run s syms) -> dec_room D (abs_run s syms) -> fits (abs_run s syms) ->
    exists bd', decode_block bd b = Some (stream_len (abs_run s syms), bd', coded) /\
      bd_at D bd' (abs_run s syms);
}.

(** The end of an encoder's call. *)
Lemma enc_finish_spec sd s syms r :
  enc_ready sd s -> Forall sym_ok syms ->
  r = enc_syms syms (be_W_upper sd) (be_stream_index sd) sd ->
  (fits (abs_run s syms) -> exists ptr sd', r = Some (Go ((abs_run s syms).2, ptr, sd')) /\
     enc_ready (enc_finish (Go ((abs_run s syms).2, ptr, sd'))).2 (abs_run s syms)) /\
  (~ fits (abs_run s syms) -> exists sd', r = Some (Ret (- ISAC_DISALLOWED_BITSTREAM_LENGTH) sd')).
Proof.
  intros [Hat HW Hw] Hok ->. rewrite HW.
  pose proof (enc_syms_spec syms sd _ s Hat Hw Hok) as H. unfold enc_result, fits in *.
  destruct (Z.ltb_spec (abs_run s syms).1.1 (2 * STREAM_MAXW16_60MS)).
  - destruct H as (ptr & sd' & E & Hat'). split; [intros _|intros Hn; lia]. exists ptr, sd'. split; [done|].
    pose proof (ea_ptr _ _ _ Hat') as Hp. unfold STREAM_MAXW16_60MS in Hp.
    cbn [enc_finish snd]. rewrite u16_id by (unfold in_u16; lia).
    split; [by apply enc_at_fields|done|by apply abs_run_width].
  - destruct H as (sd' & E). split; [intros Hn; lia|eauto].
Qed.

(** ** Histograms *)

Definition hist_ok (data : list Z) (cdf : list (list Z)) (side : Z -> list Z -> Prop) : Prop :=
  forall i x, aget data i = Some x -> exists table, aget cdf i = Some table /\
    cdf_ok table = true /\ 0 <= x < zlen table - 1 /\ in_s16 x /\ side i table.

Lemma hist_syms_total data cdf side todo : hist_ok data cdf side -> forall i,
  0 <= i -> i + Z.of_nat todo = zlen data ->
  exists syms, hist_syms todo i data cdf = Some syms /\ Forall sym_ok syms /\ length syms = todo.
Proof.
  intros Hok. induction todo as [|todo IH]; intros i Hi Hlen; cbn [hist_syms].
  { exists []. auto. }
  destruct (aget_in data i) as [x Hx]; [lia|].
  destruct (Hok i x Hx) as (table & Ht & Htab & Hr & Hx16 & _).
  destruct (aget_in table x) as [lo Hlo]; [lia|]. destruct (aget_in table (x + 1)) as [hi Hhi]; [lia|].
  rewrite (bind_eq _ _ _ Hx), (bind_eq _ _ _ Ht). rewrite u32_id by (simpl in *; lia).
  rewrite (bind_eq _ _ _ Hlo), (bind_eq _ _ _ Hhi).
  destruct (IH (i + 1) ltac:(lia) ltac:(lia)) as (syms & E & Hs & Hl). rewrite (bind_eq _ _ _ E).
  exists ((lo, hi) :: syms). split; [done|]. split; [|cbn; lia]. constructor; [|done].
  pose proof (table_lt table Htab x (x + 1) lo hi Hlo Hhi ltac:(lia)).
  pose proof (table_range table Htab _ _ Hlo). pose proof (table_range table Htab _ _ Hhi).
  split; cbn; lia.
Qed.

Lemma hist_enc sd s data cdf syms :
  enc_ready sd s -> Forall sym_ok syms -> hist_syms (length data) 0 data cdf = Some syms ->
  (fits (abs_run s syms) -> exists sd', EncHistMulti sd data cdf (zlen data) = Some (0, sd') /\
     enc_ready sd' (abs_run s syms)) /\
  (~ fits (abs_run s syms) -> exists sd',
     EncHistMulti sd data cdf (zlen data) = Some (- ISAC_DISALLOWED_BITSTREAM_LENGTH, sd')).
Proof.
  intros Hsd Hok Hs. unfold EncHistMulti, zlen. rewrite Nat2Z.id.
  rewrite (enc_hist_syms _ _ _ _ _ _ _ _ Hs).
  destruct (enc_finish_spec sd s syms _ Hsd Hok eq_refl) as [H1 H2]. split; intros Hf.
  - destruct (H1 Hf) as (ptr & sd' & E & Hr). rewrite (bind_eq _ _ _ E). eexists. split; [reflexivity|done].
  - destruct (H2 Hf) as (sd' & E). rewrite (bind_eq _ _ _ E). eexists. reflexivity.
Qed.

(** Output that was copied over an array of the same length. *)
Lemma copied_all (data out out' : list Z) n :
  copied data out out' 0 n -> zlen out = n -> zlen data = n -> out' = data.
Proof.
  intros (Hl & Hc & _) Ho Hd. apply list_eq_aget; [unfold zlen in *; lia|].
  intros i Hi. apply Hc. lia.
Qed.

(** What the two histogram decoders have in common. *)
Lemma hist_dec step D bd s data cdf syms :
  Forall in_u16 D -> bd_at D bd s -> width_ok s -> Forall sym_ok syms ->
  hist_syms (length data) 0 data cdf = Some syms ->
  (forall k, 0 <= k < zlen data ->
     step_decodes step D data (replicate (length data) 0) (hist_sym data cdf) k) ->
  inside D (abs_run s syms) -> dec_room D (abs_run s syms) -> fits (abs_run s syms) ->
  exists d bd', dec_start bd (replicate (length data) 0) = Some d /\
    (r ← dec_loop step (length data) 0 d; Some (dec_finish bd r)) =
      Some (stream_len (abs_run s syms), bd', data) /\ bd_at D bd' (abs_run s syms).
Proof.
  intros HD Hbd HW Hok Hs Hstep Hin Hroom Hfit.
  destruct (hist_syms_from _ _ _ _ _ Hs) as [Hl Hfrom].
  assert (zlen syms = zlen data) as Hz by (unfold zlen; lia).
  destruct (dec_call step D bd s data (replicate (length data) 0) (hist_sym data cdf) syms)
    as (d & bd' & data' & Ed & E & Hbd' & Hc); auto; try lia.
  { rewrite Hz. done. }
  { rewrite zlen_replicate. unfold zlen in *. lia. }
  exists d, bd'. split; [done|]. split; [|done]. rewrite <- Hl, E. do 2 f_equal.
  apply (copied_all data (replicate (length data) 0) data' (zlen syms)); [done|rewrite zlen_replicate; unfold zlen in *; lia|lia].
Qed.

(** The encoder's half of the interface. *)
Lemma hist_coded b data cdf syms :
  Forall sym_ok syms -> hist_syms (length data) 0 data cdf = Some syms ->
  (forall sd, encode_block sd b = (r ← EncHistMulti sd data cdf (zlen data); Some (r, data))) ->
  (forall D bd s, Forall in_u16 D -> bd_at D bd s -> width_ok s ->
     inside D (abs_run s syms) -> dec_room D (abs_run s syms) -> fits (abs_run s syms) ->
     exists bd', decode_block bd b = Some (stream_len (abs_run s syms), bd', data) /\
       bd_at D bd' (abs_run s syms)) ->
  Coded b syms data.
Proof.
  intros Hsok Hs Henc Hdec. split; [done| | |done]; intros sd s Hsd Hf; rewrite Henc;
    destruct (hist_enc sd s data cdf syms Hsd Hsok Hs) as [H1 H2].
  - destruct (H1 Hf) as (sd' & E & Hr). exists sd'. by rewrite (bind_eq _ _ _ E).
  - destruct (H2 Hf) as (sd' & E). exists sd', data. by rewrite (bind_eq _ _ _ E).
Qed.

Lemma bd_running D bd s : bd_at D bd s -> width_ok s -> (bd_W_upper bd =? 0) = false.
Proof. intros Hbd HW. rewrite (ba_W _ _ _ Hbd). apply Z.eqb_neq. unfold width_ok in HW. lia. Qed.

(** The start entry of the step-wise search lies in the table. *)
Definition init_ok (initIndex : list Z) (i : Z) (table : list Z) : Prop :=
  exists init, aget initIndex i = Some init /\ 0 <= init < zlen table.

(** The bisected table has one entry less than a power of two. *)
Definition size_ok (cdfSize : list Z) (i : Z) (table : list Z) : Prop :=
  exists j : nat, (j <= 15)%nat /\ aget cdfSize i = Some (2 ^ Z.of_nat (S j)) /\
    zlen table = 2 ^ Z.of_nat (S j) - 1.

Lemma Hist_coded data cdf initIndex :
  hist_ok data cdf (init_ok initIndex) ->
  exists syms, Coded (Hist data cdf initIndex) syms data.
Proof.
  intros Hok. destruct (hist_syms_total data cdf _ (length data) Hok 0) as (syms & Hs & Hsok & Hl);
    [lia|unfold zlen; lia|].
  exists syms. apply (hist_coded _ data cdf syms Hsok Hs); [done|].
  intros D bd s HD Hbd HW Hin Hroom Hf.
    destruct (hist_dec (onestep_step D cdf initIndex) D bd s data cdf syms HD Hbd HW Hsok Hs)
      as (d & bd' & Ed & E & Hbd'); auto.
    { intros k Hk. destruct (aget_in data k Hk) as [x Hx].
      destruct (Hok k x Hx) as (table & Ht & Htab & _ & _ & init & Hi & Hr).
      apply (onestep_decodes D data _ cdf initIndex table init k); auto.
      intros y Hy. destruct (Hok k y Hy) as (? & _ & _ & ? & ? & _). split; [lia|done]. }
    exists bd'. split; [|done]. cbn [decode_block]. unfold DecHistOneStepMulti.
    rewrite (bd_running D bd s Hbd HW), (bind_eq _ _ _ Ed), (ba_stream _ _ _ Hbd). unfold zlen.
    rewrite Nat2Z.id. exact E.
Qed.

Lemma Bisect_coded data cdf cdfSize :
  hist_ok data cdf (size_ok cdfSize) ->
  exists syms, Coded (Bisect data cdf cdfSize) syms data.
Proof.
  intros Hok. destruct (hist_syms_total data cdf _ (length data) Hok 0) as (syms & Hs & Hsok & Hl);
    [lia|unfold zlen; lia|].
  exists syms. apply (hist_coded _ data cdf syms Hsok Hs); [done|].
  intros D bd s HD Hbd HW Hin Hroom Hf.
    destruct (hist_dec (bisect_step D cdf cdfSize) D bd s data cdf syms HD Hbd HW Hsok Hs)
      as (d & bd' & Ed & E & Hbd'); auto.
    { intros k Hk. destruct (aget_in data k Hk) as [x Hx].
      destruct (Hok k x Hx) as (table & Ht & Htab & _ & _ & j & Hj & Hsz & Hz).
      apply (bisect_decodes D data _ cdf cdfSize table j k); auto.
      intros y Hy. destruct (Hok k y Hy) as (? & _ & _ & ? & ? & _). split; [lia|done]. }
    exists bd'. split; [|done]. cbn [decode_block]. unfold DecHistBisectMulti.
    rewrite (bd_running D bd s Hbd HW), (bind_eq _ _ _ Ed), (ba_stream _ _ _ Hbd). unfold zlen.
    rewrite Nat2Z.id. exact E.
Qed.

(** ** Spectra *)

Definition spectrum_ok (dataQ7 envQ8 invEnv dither : list Z) : Prop :=
  exists (n : nat) env0, length dataQ7 = (4 * n)%nat /\ zlen dither = zlen dataQ7 /\
    aget invEnv 0 = Some env0 /\ env_roots n 0 invEnv (env_sqrt_start env0) = Some envQ8 /\
    Forall (fun env => 52 <= env /\ in_u16 env) envQ8 /\
    (forall k x d, aget dataQ7 k = Some x -> aget dither k = Some d ->
       coeff_ok x /\ -128 <= d <= 128 /\ (x + d) mod 128 = 0).

(** A coefficient that is large enough is coded as it is. *)
Lemma log_interval_same env x :
  in_u16 env -> coeff_ok x -> cdf_at env (x - 64) + 1 < cdf_at env (x + 64) ->
  log_interval x env = Some (x, cdf_at env (x - 64), cdf_at env (x + 64)).
Proof.
  intros Hu Hx Hlt. unfold coeff_ok in Hx. unfold log_interval.
  rewrite (bind_eq _ _ _ (pw_scaled_eq (x - 64) env ltac:(unfold in_s16; lia) Hu)).
  rewrite (bind_eq _ _ _ (pw_scaled_eq (x + 64) env ltac:(unfold in_s16; lia) Hu)).
  apply log_clip_stop; [apply cdf_at_range|done].
Qed.

(** What coefficient [k] is coded as, and the interval. *)
Definition spectrum_code (dataQ7 envQ8 : list Z) (k : Z) (c : Z * (Z * Z)) : Prop :=
  exists x env, aget dataQ7 k = Some x /\ aget envQ8 (k / 4) = Some env /\
    log_interval x env = Some (c.1, c.2.1, c.2.2) /\ log_coded_as env x c.1 /\
    c.2 = (cdf_at env (c.1 - 64), cdf_at env (c.1 + 64)).

Lemma spectrum_total dataQ7 envQ8 todo : forall k,
  0 <= k -> k + Z.of_nat todo = zlen dataQ7 -> zlen dataQ7 <= 4 * zlen envQ8 ->
  Forall (fun env => 52 <= env /\ in_u16 env) envQ8 -> (forall i x, aget dataQ7 i = Some x -> coeff_ok x) ->
  exists cs, length cs = todo /\
    forall (j : nat) c, cs !! j = Some c -> spectrum_code dataQ7 envQ8 (k + Z.of_nat j) c.
Proof.
  induction todo as [|todo IH]; intros k Hk Hlen He Henv Hx; [by exists []|].
  destruct (IH (k + 1) ltac:(lia) ltac:(lia) He Henv Hx) as (cs & Hl & Hcs).
  destruct (aget_in dataQ7 k) as [x Hkx]; [lia|].
  destruct (aget_in envQ8 (k / 4)) as [env Hke]; [Z.to_euclidean_division_equations; lia|].
  pose proof (aget_Forall _ _ _ _ Henv Hke) as [He52 Hu].
  destruct (log_interval_spec env x ltac:(lia) Hu (Hx k x Hkx)) as (x' & E & Hc).
  exists ((x', (cdf_at env (x' - 64), cdf_at env (x' + 64))) :: cs). split; [cbn; lia|].
  intros [|j] c Hj.
  - injection Hj as <-. replace (k + Z.of_nat 0) with k by lia. exists x, env. done.
  - replace (k + Z.of_nat (S j)) with (k + 1 + Z.of_nat j) by lia. by apply Hcs.
Qed.

Lemma env_roots_length n : forall g envQ8 res roots,
  env_roots n g envQ8 res = Some roots -> length roots = n.
Proof.
  induction n as [|n IH]; intros g envQ8 res roots H; cbn [env_roots] in H; [by injection H as <-|].
  bind_inv. cbn. f_equal. by eapply IH.
Qed.

Section SpectrumBlock.
Context (dataQ7 envQ8 : list Z) (cs : list (Z * (Z * Z))).
Context (Hcl : length cs = length dataQ7)
  (Hcs : forall (j : nat) c, cs !! j = Some c -> spectrum_code dataQ7 envQ8 (0 + Z.of_nat j) c).

Lemma spectrum_at k : 0 <= k < zlen dataQ7 ->
  exists c, cs !! Z.to_nat k = Some c /\ aget cs.*1 k = Some c.1 /\ aget cs.*2 k = Some c.2 /\
    spectrum_code dataQ7 envQ8 k c.
Proof using Hcl Hcs.
  intros Hk. destruct (lookup_lt_is_Some_2 cs (Z.to_nat k)) as [c Hc]; [unfold zlen in *; lia|].
  exists c. split; [done|]. rewrite !aget_fmap, !aget_lookup, Hc by lia.
  split; [done|]. split; [done|]. specialize (Hcs _ _ Hc).
  by replace (0 + Z.of_nat (Z.to_nat k)) with k in Hcs by lia.
Qed.

Lemma spectrum_lens : zlen cs.*2 = zlen dataQ7 /\ zlen cs.*1 = zlen dataQ7.
Proof using Hcl. unfold zlen. rewrite !length_fmap. lia. Qed.

Lemma spectrum_syms : Forall sym_ok cs.*2.
Proof using Hcl Hcs.
  apply list.Forall_forall. intros sym Hsym. apply elem_of_aget in Hsym as [k Hk].
  destruct spectrum_lens as [Hz _].
  destruct (spectrum_at k) as (c & _ & _ & Hs & x & env & _ & _ & _ & (_ & _ & Hlt) & Ec);
    [apply aget_Some_range in Hk; lia|].
  assert (sym = c.2) as -> by congruence. rewrite Ec.
  pose proof (cdf_at_range env (c.1 - 64)). pose proof (cdf_at_range env (c.1 + 64)).
  unfold sym_ok. cbn [fst snd]. lia.
Qed.

Lemma spectrum_enc sd s :
  enc_ready sd s ->
  (fits (abs_run s cs.*2) -> exists sd', EncLogisticMulti2 sd dataQ7 envQ8 (zlen dataQ7) = Some (0, sd', cs.*1) /\
     enc_ready sd' (abs_run s cs.*2)) /\
  (~ fits (abs_run s cs.*2) -> exists sd' data,
     EncLogisticMulti2 sd dataQ7 envQ8 (zlen dataQ7) = Some (- ISAC_DISALLOWED_BITSTREAM_LENGTH, sd', data)).
Proof using Hcl Hcs.
  intros Hsd. destruct spectrum_lens as [Hz Hx].
  destruct (enc_finish_spec sd s cs.*2 _ Hsd spectrum_syms eq_refl) as [H1 H2].
  pose proof (enc_logist_spec envQ8 cs.*1 cs.*2 0 dataQ7 (be_W_upper sd) (be_stream_index sd) sd) as H.
  specialize (H ltac:(lia) ltac:(lia)). change (0 / 4) with 0 in H.
  unfold EncLogisticMulti2. replace (Z.to_nat (zlen dataQ7)) with (length dataQ7) by (unfold zlen; lia).
  replace (length cs.*2) with (length dataQ7) in H by (rewrite length_fmap; lia).
  assert (forall (j : nat) sym, cs.*2 !! j = Some sym ->
    log_codes dataQ7 envQ8 cs.*1 (0 + Z.of_nat j) sym) as Hcodes.
  { intros j sym Hj. apply list_lookup_fmap_Some in Hj as (c & -> & Hj).
    destruct (Hcs j c Hj) as (x & env & Hx1 & Hx2 & Hx3 & _). exists x, env, c.1.
    split; [done|]. split; [done|]. split; [done|].
    rewrite aget_fmap, aget_lookup by lia. by rewrite Z.add_0_l, Nat2Z.id, Hj. }
  specialize (H Hcodes). split; intros Hf.
  - destruct (H1 Hf) as (ptr & sd' & E & Hr). rewrite E in H. destruct H as (data' & E' & Hc).
    eexists. rewrite (bind_eq _ _ _ E'). cbn [fst snd]. split; [|exact Hr].
    rewrite (copied_all cs.*1 dataQ7 data' _ Hc) by lia. reflexivity.
  - destruct (H2 Hf) as (sd' & E). rewrite E in H. destruct H as (data' & E').
    exists sd', data'. by rewrite (bind_eq _ _ _ E').
Qed.

Context (invEnv dither : list Z) (n : nat) (env0 : Z).
Context (Hlen : length dataQ7 = (4 * n)%nat) (Hdl : zlen dither = zlen dataQ7)
  (He0 : aget invEnv 0 = Some env0) (Hroots : env_roots n 0 invEnv (env_sqrt_start env0) = Some envQ8)
  (Henv : Forall (fun env => 52 <= env /\ in_u16 env) envQ8)
  (Hdata : forall k x d, aget dataQ7 k = Some x -> aget dither k = Some d ->
     coeff_ok x /\ -128 <= d <= 128 /\ (x + d) mod 128 = 0).

Lemma spectrum_dec D bd s :
  Forall in_u16 D -> bd_at D bd s -> width_ok s -> inside D (abs_run s cs.*2) ->
  dec_room D (abs_run s cs.*2) -> fits (abs_run s cs.*2) ->
  exists bd', mjoin (DecLogisticMulti2 600 dither bd invEnv (zlen dataQ7)) = Some (stream_len (abs_run s cs.*2), bd', cs.*1) /\
    bd_at D bd' (abs_run s cs.*2).
Proof using All.
  intros HD Hbd HW Hin Hroom Hfit. destruct spectrum_lens as [Hz Hx].
  pose proof (abs_run_grows cs.*2 s) as Hg.
  destruct (dec_start_spec D bd s dither HD Hbd) as (d & Ed & Hat & Hd); [unfold dec_room in *; lia|].
  destruct (dec_logist_spec 600 D cs.*1 dither (aget cs.*2) invEnv n 0 (env_sqrt_start env0) envQ8 cs.*2 d s)
    as (d' & E & Hat' & Hc); rewrite ?Hd; auto using spectrum_syms; try lia.
  { rewrite length_fmap. lia. }
  { intros j Hj. rewrite aget_lookup by lia. f_equal. lia. }
  { intros j env k Hj Hk. pose proof (Forall_lookup_1 _ _ _ _ Henv Hj) as He.
    pose proof (env_roots_length _ _ _ _ _ Hroots). pose proof (lookup_lt_Some _ _ _ Hj).
    split; [apply He|]. split; [apply He|].
    destruct (spectrum_at k) as (c & _ & Hx1 & Hs & x & e & Hk1 & Hk2 & _ & (Hco & Hm & Hlt) & Ec);
      [unfold zlen; lia|].
    assert (k / 4 = Z.of_nat j) as Ek by (Z.to_euclidean_division_equations; lia).
    rewrite Ek, aget_lookup, Nat2Z.id in Hk2 by lia. assert (e = env) as -> by congruence.
    destruct (aget_in dither k) as [dv Hdv]; [unfold zlen in *; lia|].
    destruct (Hdata k x dv Hk1 Hdv) as (_ & Hr & Hmod).
    exists c.1, dv. split; [done|]. split; [done|]. split; [done|].
    split; [|rewrite <- Ec; done]. replace (c.1 + dv) with (c.1 - x + (x + dv)) by lia.
    rewrite Z.add_mod, Hm, Hmod by lia. done. }
  destruct (dec_finish_spec D bd d' _ (ba_stream _ _ _ Hbd) Hat' Hfit) as (bd' & Ef & Hbd').
  exists bd'. split; [|done]. unfold DecLogisticMulti2. rewrite (bind_eq _ _ _ Ed), (bind_eq _ _ _ He0).
  assert (Z.to_nat ((zlen dataQ7 + 3) / 4) = n) as ->.
  { unfold zlen. rewrite Hlen. Z.to_euclidean_division_equations; lia. }
  rewrite (ba_stream _ _ _ Hbd), (bind_eq _ _ _ E), Ef. cbn [mjoin option_join]. do 2 f_equal.
  rewrite Hd in Hc. apply (copied_all cs.*1 dither _ (zlen cs.*2)); [done|lia|lia].
Qed.

End SpectrumBlock.

Lemma Spectrum_coded dataQ7 envQ8 invEnv dither :
  spectrum_ok dataQ7 envQ8 invEnv dither ->
  exists syms xs, Coded (Spectrum dataQ7 envQ8 invEnv dither) syms xs /\ zlen xs = zlen dataQ7 /\
    forall k x env, aget dataQ7 k = Some x -> aget envQ8 (k / 4) = Some env ->
      exists x', aget xs k = Some x' /\ log_coded_as env x x' /\
        (cdf_at env (x - 64) + 1 < cdf_at env (x + 64) -> x' = x).
Proof.
  intros (n & env0 & Hlen & Hdl & He0 & Hroots & Henv & Hdata).
  pose proof (env_roots_length _ _ _ _ _ Hroots) as Hel.
  assert (forall i x, aget dataQ7 i = Some x -> coeff_ok x) as Hcoeff.
  { intros i x Hi. destruct (aget_in dither i) as [d Hd]; [apply aget_Some_range in Hi; lia|].
    by destruct (Hdata i x d Hi Hd). }
  destruct (spectrum_total dataQ7 envQ8 (length dataQ7) 0) as (cs & Hcl & Hcs);
    [lia|unfold zlen; lia|unfold zlen; lia|done|done|].
  destruct (spectrum_lens dataQ7 cs Hcl) as [Hz Hx].
  exists cs.*2, cs.*1. split; [|split; [done|]].
  - split.
    + by apply (spectrum_syms dataQ7 envQ8).
    + intros sd s Hsd Hf. by apply (spectrum_enc dataQ7 envQ8 cs Hcl Hcs).
    + intros sd s Hsd Hf. by apply (spectrum_enc dataQ7 envQ8 cs Hcl Hcs sd s Hsd).
    + intros D bd s HD Hbd HW Hin Hroom Hf. by apply (spectrum_dec dataQ7 envQ8 cs Hcl Hcs invEnv dither n env0).
  - intros k x env Hk Hke.
    destruct (spectrum_at dataQ7 envQ8 cs Hcl Hcs k (aget_Some_range _ _ _ Hk))
      as (c & _ & Hxc & _ & y & e & Hy & Hye & Hint & Hco & _).
    assert (y = x) as -> by congruence. assert (e = env) as -> by congruence.
    exists c.1. split; [done|]. split; [done|]. intros Hlt.
    pose proof (aget_Forall _ _ _ _ Henv Hke) as [_ Hu].
    rewrite (log_interval_same env x Hu (Hcoeff k x Hk) Hlt) in Hint. congruence.
Qed.

(** ** Sessions *)

Definition block_ok (b : block) : Prop :=
  match b with
  | Hist data cdf initIndex => hist_ok data cdf (init_ok initIndex)
  | Bisect data cdf cdfSize => hist_ok data cdf (size_ok cdfSize)
  | Spectrum dataQ7 envQ8 invEnv dither => spectrum_ok dataQ7 envQ8 invEnv dither
  end.

(** What is encoded for a block: symbols as they are, coefficients of too
    small a probability moved towards zero in steps of 128. *)
Definition coded_as (b : block) (coded : list Z) : Prop :=
  match b with
  | Hist data _ _ | Bisect data _ _ => coded = data
  | Spectrum dataQ7 envQ8 _ _ => zlen coded = zlen dataQ7 /\
      forall k x env, aget dataQ7 k = Some x -> aget envQ8 (k / 4) = Some env ->
        exists x', aget coded k = Some x' /\ log_coded_as env x x' /\
          (cdf_at env (x - 64) + 1 < cdf_at env (x + 64) -> x' = x)
  end.

Lemma block_coded b : block_ok b -> exists syms coded, Coded b syms coded /\ coded_as b coded.
Proof.
  destruct b; cbn [block_ok coded_as]; intros H.
  - destruct (Hist_coded _ _ _ H) as (syms & Hc). eauto.
  - destruct (Bisect_coded _ _ _ H) as (syms & Hc). eauto.
  - destruct (Spectrum_coded _ _ _ _ H) as (syms & xs & Hc & Hl & Hx). eauto.
Qed.

(** The promise of [Coded] for a sequence of calls. *)
Record SessionCoded (bs : list block) (syms : list (Z * Z)) (coded : list (list Z)) : Prop := {
  sc_nil : bs = [] -> syms = [];
  sc_syms : Forall sym_ok syms;
  sc_enc : forall sd s, enc_ready sd s ->
    (fits (abs_run s syms) -> exists sd', encode_blocks sd bs = Some (0, sd', coded) /\
       enc_ready sd' (abs_run s syms)) /\
    (~ fits (abs_run s syms) -> exists sd' l,
       encode_blocks sd bs = Some (- ISAC_DISALLOWED_BITSTREAM_LENGTH, sd', l));
  sc_dec : forall D bd s len, Forall in_u16 D -> bd_at D bd s -> width_ok s ->
    inside D (abs_run s syms) -> dec_room D (abs_run s syms) -> fits (abs_run s syms) ->
    exists bd', decode_blocks len bd bs =
      Some (if bs is [] then len else stream_len (abs_run s syms), bd', coded);
}.

Lemma abs_run_app s syms syms' : abs_run s (syms ++ syms') = abs_run (abs_run s syms) syms'.
Proof. apply foldl_app. Qed.

Lemma session_nil : SessionCoded [] [] [].
Proof.
  split; [done|constructor| |].
  - intros sd s Hsd. split; intros Hf; [by exists sd|]. destruct Hf. eapply enc_at_room. apply Hsd.
  - intros D bd s len HD Hbd HW Hin Hroom Hf. by exists bd.
Qed.

Lemma session_cons b bs syms coded syms' coded' :
  Coded b syms coded -> SessionCoded bs syms' coded' ->
  SessionCoded (b :: bs) (syms ++ syms') (coded :: coded').
Proof.
  intros Hb Hbs. split; [done|apply Forall_app; split; [apply Hb|apply Hbs]| |].
  - intros sd s Hsd. rewrite abs_run_app. cbn [encode_blocks].
    pose proof (abs_run_grows syms' (abs_run s syms)) as Hg.
    destruct (Z.lt_ge_cases (abs_run s syms).1.1 (2 * STREAM_MAXW16_60MS)) as [Hf|Hf].
    + destruct (co_enc sd s Hsd Hf) as (sd' & E & Hr). rewrite (bind_eq _ _ _ E).
      destruct (sc_enc _ _ _ Hbs sd' _ Hr) as [H1 H2]. cbn [Z.ltb Z.compare]. split; intros Hf'.
      * destruct (H1 Hf') as (sd2 & E2 & Hr2). exists sd2. by rewrite (bind_eq _ _ _ E2).
      * destruct (H2 Hf') as (sd2 & l & E2). exists sd2, (coded :: l). by rewrite (bind_eq _ _ _ E2).
    + split; intros Hf'; [unfold fits in Hf'; lia|].
      destruct (co_full sd s Hsd) as (sd' & l & E); [unfold fits; lia|].
      exists sd', []. by rewrite (bind_eq _ _ _ E).
  - intros D bd s len HD Hbd HW Hin Hroom Hf. rewrite abs_run_app in *.
    pose proof (abs_run_grows syms s) as Hg. pose proof (abs_run_grows syms' (abs_run s syms)) as Hg'.
    pose proof (ba_n _ _ _ Hbd) as Hn. pose proof (abs_run_width syms s HW co_syms) as HW'.
    destruct (co_dec D bd s HD Hbd HW) as (bd' & E & Hbd').
    { eapply inside_run; [done|lia|done|apply Hbs|done]. }
    { unfold dec_room in *. lia. }
    { unfold fits in *. lia. }
    destruct (sc_dec _ _ _ Hbs D bd' _ (stream_len (abs_run s syms)) HD Hbd' HW' Hin Hroom Hf) as (bd2 & E2).
    exists bd2. cbn [decode_blocks]. rewrite (bind_eq _ _ _ E).
    assert ((stream_len (abs_run s syms) <? 0) = false) as ->
      by (apply Z.ltb_ge; unfold stream_len; destruct (0x01FFFFFF <? _); lia).
    rewrite (bind_eq _ _ _ E2). destruct bs; [|done]. by rewrite (sc_nil _ _ _ Hbs eq_refl).
Qed.

Lemma session_coded bs :
  Forall block_ok bs -> exists syms coded, SessionCoded bs syms coded /\ Forall2 coded_as bs coded.
Proof.
  induction 1 as [|b bs Hb _ (syms' & coded' & Hs & Hf)].
  { exists [], []. split; [apply session_nil|constructor]. }
  destruct (block_coded b Hb) as (syms & coded & Hc & Ha).
  exists (syms ++ syms'), (coded :: coded'). split; [by apply session_cons|by constructor].
Qed.

(** C11. Whole packets: for every sequence of blocks - histogram symbols over
    well-formed tables, read back stepwise or by bisection, and spectra with an
    envelope of at least 52 - encoding from a fresh stream either reports that the
    stream outgrows its 200 words, or succeeds; then [EncTerminate], unless fewer
    than two bytes are left, ends the stream, and from any buffer that starts
    with its bytes, whatever follows, the decoders read back what was encoded,
    and the last one answers the length of the stream. *)
Theorem Isac_stream_roundtrip sd bs
    (Hlen : zlen (be_stream sd) = STREAM_MAXW16_60MS) (Hwords : Forall in_u16 (be_stream sd))
    (Hne : bs <> []) (Hbs : Forall block_ok bs) :
  (exists sd' l, encode_blocks (enc_reset sd) bs = Some (- ISAC_DISALLOWED_BITSTREAM_LENGTH, sd', l)) \/
  (exists sd1 coded, encode_blocks (enc_reset sd) bs = Some (0, sd1, coded) /\ Forall2 coded_as bs coded /\
     (be_stream_index sd1 < STREAM_MAXW16_60MS - 1 ->
      exists len sd2, EncTerminate sd1 = Some (len, sd2) /\
        forall D, same_bytes D (be_stream sd2) len -> len + 3 <= 2 * zlen D ->
          exists bd, decode_blocks 0 (dec_reset D) bs = Some (len, bd, coded))).
Proof.
  destruct (session_coded bs Hbs) as (syms & coded & Hs & Ha).
  assert (enc_ready (enc_reset sd) abs_start) as Hsd
    by (split; [by apply enc_reset_at|done|unfold width_ok, abs_start; cbn [snd]; lia]).
  destruct (sc_enc _ _ _ Hs _ _ Hsd) as [H1 H2].
  destruct (Z.lt_ge_cases (abs_run abs_start syms).1.1 (2 * STREAM_MAXW16_60MS)) as [Hf|Hf].
  2:{ left. apply H2. unfold fits. lia. }
  right. destruct (H1 Hf) as (sd1 & E & Hr). exists sd1, coded. split; [done|]. split; [done|].
  intros Hidx. destruct Hr as [Hat HW Hw].
  assert ((abs_run abs_start syms).1.1 + 2 <= 2 * STREAM_MAXW16_60MS) as Hroom.
  { pose proof (ea_n _ _ _ Hat) as Hn. unfold bytes_out, b2z in Hn. case_match; lia. }
  destruct (EncTerminate_at sd1 _ Hat HW Hw Hroom) as (sd2 & Et & _ & Hin).
  eexists _, sd2. split; [exact Et|]. intros D HD Hlong. specialize (Hin D HD).
  assert (width_ok abs_start) as Hw0 by apply Hsd.
  destruct (sc_dec _ _ _ Hs D (dec_reset D) abs_start 0 (proj1 HD) (dec_reset_at D) Hw0 Hin)
    as (bd & Ed); [|done|].
  { unfold dec_room. destruct (0x01FFFFFF <? _); lia. }
  exists bd. rewrite Ed. by destruct bs.
Qed.

(** ** An instance *)

Definition ex_table : list Z := [0; 21845; 43690; 65535].
Definition ex_blocks : list block :=
  [Hist [2; 0] [ex_table; ex_table] [1; 1]; Bisect [1] [[0; 30000; 65535]] [4];
   Spectrum [84; -44; 20000; -172] [100] [10000] [44; 44; -32; 44]].
Definition ex_enc : Bitstr_enc := mkEnc (replicate 200 7) 0 0 0 0.

Lemma words_u16 l : forallb (fun w => (0 <=? w) && (w <? 65536)) l = true -> Forall in_u16 l.
Proof.
  intros H. apply list.Forall_forall. intros w Hw. rewrite forallb_forall in H.
  specialize (H w ltac:(by apply list_elem_of_In)). unfold in_u16. lia.
Qed.

Lemma ex_blocks_ok : Forall block_ok ex_blocks.
Proof.
  repeat constructor; cbn [block_ok].
  - intros i x Hx. pose proof (aget_Some_range _ _ _ Hx) as Hi. change (zlen [2; 0]) with 2 in Hi.
    exists ex_table. assert (i = 0 \/ i = 1) as [-> | ->] by lia; cbn in Hx; injection Hx as <-;
      (split; [reflexivity|]; split; [reflexivity|]; split; [vm_compute; split; [discriminate|reflexivity]|];
       split; [unfold in_s16; lia|]; exists 1; split; [reflexivity|vm_compute; split; [discriminate|reflexivity]]).
  - intros i x Hx. pose proof (aget_Some_range _ _ _ Hx) as Hi. change (zlen [1]) with 1 in Hi.
    assert (i = 0) as -> by lia. cbn in Hx. injection Hx as <-. exists [0; 30000; 65535].
    split; [reflexivity|]. split; [reflexivity|]. split; [vm_compute; split; [discriminate|reflexivity]|].
    split; [unfold in_s16; lia|]. exists 1%nat. split; [lia|]. split; reflexivity.
  - exists 1%nat, 10000. split; [reflexivity|]. split; [reflexivity|]. split; [reflexivity|].
    split; [vm_compute; reflexivity|]. split; [repeat constructor; unfold in_u16; lia|].
    intros k x d Hx Hd. pose proof (aget_Some_range _ _ _ Hx) as Hk. change (zlen [84; -44; 20000; -172]) with 4 in Hk.
    unfold coeff_ok. assert (k = 0 \/ k = 1 \/ k = 2 \/ k = 3) as [-> | [-> | [-> | ->]]] by lia;
      cbn in Hx, Hd; injection Hx as <-; injection Hd as <-; (split; [lia|]; split; [lia|reflexivity]).
Qed.

(** The third coefficient is moved to 3104. *)
Lemma Isac_stream_roundtrip_witness :
  exists len D bd, decode_blocks 0 (dec_reset D) ex_blocks =
    Some (len, bd, [[2; 0]; [1]; [84; -44; 3104; -172]]).
Proof.
  destruct (Isac_stream_roundtrip ex_enc ex_blocks) as [(sd' & l & E)|(sd1 & coded & E & _ & H)];
    [reflexivity|apply words_u16; vm_compute; reflexivity|discriminate|apply ex_blocks_ok| |].
  - exfalso. vm_compute in E. discriminate.
  - vm_compute in E. injection E as <- <-.
    destruct H as (len & sd2 & Et & Hd); [vm_compute; reflexivity|].
    vm_compute in Et. injection Et as <- <-.
    match type of Hd with forall D, same_bytes D ?s _ -> _ => destruct (Hd s) as (bd & Hb) end;
      [split; [apply words_u16; vm_compute; reflexivity|by intros]|vm_compute; discriminate|].
    eexists _, _, bd. exact Hb.
Defined.

(** ** The ends of the memory *)

(** With one byte left [EncTerminate] may write beyond the last word: the long
    ending of a stream whose last word is half full. *)
Example EncTerminate_overflows :
  EncTerminate (mkEnc (replicate 200 0) 0x01000000 0 199 0) = None.
Proof. vm_compute. reflexivity. Qed.

(** Beyond the tables: a stream of zeros makes the bisection answer -1, and a
    stream of ones the number of table entries less one, both outside of the alphabet. *)
Example DecHistBisectMulti_unchecked :
  ((fun r => r.2) <$> DecHistBisectMulti [7] (dec_reset [0; 0; 0; 0]) [[0; 30000; 65535]] [4] 1) = Some [-1] /\
  ((fun r => r.2) <$> DecHistBisectMulti [7] (dec_reset [65535; 65535; 0; 0]) [[0; 30000; 65535]] [4] 1) = Some [2].
Proof. vm_compute. split; reflexivity. Qed.

(** An envelope of 7: the encoder codes a coefficient of 22416, whose interval
    has three values, but on its way to it the decoder passes two equal bounds. *)
Example DecLogisticMulti2_rejects :
  let r := enc ← EncLogisticMulti2 (enc_reset ex_enc) [22416; -112; -112; -112] [7] 4;
           e ← EncTerminate enc.1.2;
           d ← mjoin (DecLogisticMulti2 600 [-16; -16; -16; -16] (dec_reset (be_stream e.2)) [49] 4);
           Some (enc.1.1, enc.2, d.1.1) in
  r = Some (0, [22416; -112; -112; -112], -1).
Proof. vm_compute. reflexivity. Qed.
