(* ===== verification/ArithSafe.v ===== *)
(** The decoders of [ArithDecoder] and [ArithLogist] on streams that no encoder
    wrote: the step-wise histogram decoder always ends, inside of its memory, with
    symbols of the alphabet or an error; the spectrum decoder need not end. *)
From S2P Require Import Prelude SplMath ArithCoder ArithDecoder ArithLogist.

(** ** Searching without knowing that there is an answer *)

Section Search.
Context (t : list Z) (Ht : cdf_ok t = true) (W sv : Z) (HW : 2 ^ 24 <= W < 2 ^ 32).

Let HW32 : in_u32 W.
Proof. unfold in_u32. lia. Qed.

(** A search that finds the symbol, or the end of the table for a reason. *)
Definition search_result (r : option (option (Z * Z * Z))) (P : Prop) : Prop :=
  (r = Some None /\ P) \/
  (exists lo hi x, r = Some (Some (part W lo, part W hi, x)) /\ found t W sv x lo hi).

Lemma step_up_total fuel : forall p c,
  aget t p = Some c -> part W c < sv -> zlen t - p <= Z.of_nat fuel ->
  search_result (step_up fuel t W sv p (part W c)) (part W 65535 < sv).
Proof using Ht HW.
  induction fuel as [|fuel IH]; intros p c Hc Hlt Hfuel; pose proof (aget_Some_range _ _ _ Hc) as Hp; [lia|].
  cbn [step_up]. rewrite (bind_eq _ _ _ Hc). destruct (Z.eqb_spec c 65535) as [->|Hne]; [by left|].
  assert (p < zlen t - 1) as Hp1.
  { destruct (Z.lt_ge_cases p (zlen t - 1)); [done|]. assert (p = zlen t - 1) as -> by lia.
    destruct (table_facts t Ht) as (_ & _ & Hl). congruence. }
  destruct (aget_in t (p + 1)) as [c' Hc']; [lia|]. rewrite (bind_eq _ _ _ Hc').
  rewrite (table_part t Ht W (p + 1) c' HW32 Hc'). destruct (Z.leb_spec sv (part W c')) as [Hle|Hgt].
  - right. exists c, c', p. split; [done|]. by split.
  - apply IH; [done|done|lia].
Qed.

Lemma step_down_total fuel : forall p c,
  aget t p = Some c -> sv <= part W c -> p < Z.of_nat fuel ->
  search_result (step_down fuel t W sv p (part W c)) (sv <= 0).
Proof using Ht HW.
  induction fuel as [|fuel IH]; intros p c Hc Hle Hfuel; pose proof (aget_Some_range _ _ _ Hc) as Hp; [lia|].
  cbn [step_down]. destruct (Z.ltb_spec (p - 1) 0).
  - left. split; [done|]. assert (p = 0) as -> by lia. destruct (table_facts t Ht) as (_ & H0 & _).
    assert (c = 0) as -> by congruence. unfold part in Hle. by rewrite Z.mul_0_r in Hle.
  - destruct (aget_in t (p - 1)) as [c' Hc']; [lia|]. rewrite (bind_eq _ _ _ Hc').
    rewrite (table_part t Ht W (p - 1) c' HW32 Hc'). destruct (Z.ltb_spec (part W c') sv) as [Hlt|Hge].
    + right. exists c', c, (p - 1). split; [done|]. split; [done|by replace (p - 1 + 1) with p by lia|lia].
    + apply IH; [done|done|lia].
Qed.

Lemma one_step_total init :
  0 <= init < zlen t -> search_result (one_step t init W sv) (sv <= 0 \/ part W 65535 < sv).
Proof using Ht HW.
  intros Hinit. unfold one_step. destruct (aget_in t init Hinit) as [c Hc]. rewrite (bind_eq _ _ _ Hc).
  rewrite (table_part t Ht W init c HW32 Hc). cbv zeta. unfold zlen in Hinit.
  destruct (Z.ltb_spec (part W c) sv) as [Hlt|Hge].
  - destruct (step_up_total (S (length t)) init c Hc Hlt) as [[E H]|H]; [unfold zlen; lia| |by right].
    left. split; [exact E|by right].
  - destruct (step_down_total (S (length t)) init c Hc Hge) as [[E H]|H]; [lia| |by right].
    left. split; [exact E|by left].
Qed.

End Search.

(** ** Any stream *)

(** The decoder after [n] bytes of the stream, whatever they are. *)
Record dec_any (D : list Z) (d : Dec) (n : Z) : Prop := mkDecAny {
  dy_W : 2 ^ 24 <= d_W_upper d < 2 ^ 32;
  dy_val : in_u32 (d_streamval d);
  dy_full : d_full d = 0 \/ d_full d = 1;
  dy_ptr : 2 <= d_ptr d;
  dy_n : bytes_out (d_ptr d) (d_full d) <= n;
}.

Lemma dec_byte_any D d n :
  Forall in_u16 D -> (d_full d = 0 \/ d_full d = 1) -> 2 <= d_ptr d ->
  bytes_out (d_ptr d) (d_full d) <= n -> n < 2 * zlen D ->
  exists d', dec_byte D d = Some d' /\ d_data d' = d_data d /\ d_W_upper d' = d_W_upper d /\
    in_u32 (d_streamval d') /\ (d_full d' = 0 \/ d_full d' = 1) /\ 2 <= d_ptr d' /\
    bytes_out (d_ptr d') (d_full d') <= n + 1.
Proof.
  intros HD Hf Hp Hn Hroom. unfold dec_byte, bytes_out in *.
  destruct (aget_in D (d_ptr d)) as [w Hw]; [unfold b2z in Hn; case_match; lia|].
  rewrite (bind_eq _ _ _ Hw). pose proof (aget_Forall _ _ _ _ HD Hw) as Hw16. simpl in Hw16.
  assert (forall b, 0 <= b < 256 -> in_u32 (Z.lor (u32 (Z.shiftl (d_streamval d) 8)) b)) as Hlor.
  { intros b Hb. assert (u32 (Z.shiftl (d_streamval d) 8) = Z.shiftl (d_streamval d mod 2 ^ 24) 8) as ->.
    { rewrite !Z.shiftl_mul_pow2 by lia. wrap_lia. }
    rewrite lor_shiftl_add by lia. pose proof (Z.mod_pos_bound (d_streamval d) (2 ^ 24) ltac:(lia)).
    unfold in_u32. lia. }
  destruct Hf as [E|E]; rewrite E in *; cbn [Z.eqb b2z] in *; eexists; (split; [reflexivity|]); cbn -[in_u32 Z.lor Z.land].
  - split; [done|]. split; [done|]. split; [|split; [by right|split; lia]].
    apply Hlor. change 0xFF with 255. rewrite land_255. apply Z.mod_pos_bound. lia.
  - split; [done|]. split; [done|]. split; [|split; [by left|split; lia]].
    apply Hlor. rewrite Z.shiftr_div_pow2 by lia. wrap_lia.
Qed.

Lemma dec_renorm_any D k : forall d n,
  Forall in_u16 D -> 0 < d_W_upper d < 2 ^ 32 -> 2 ^ 24 <= d_W_upper d * 256 ^ Z.of_nat k ->
  in_u32 (d_streamval d) -> (d_full d = 0 \/ d_full d = 1) -> 2 <= d_ptr d ->
  bytes_out (d_ptr d) (d_full d) <= n -> n + Z.of_nat k <= 2 * zlen D ->
  exists d', dec_renorm k D d = Some d' /\ d_data d' = d_data d /\ dec_any D d' (n + Z.of_nat k).
Proof.
  induction k as [|k IH]; intros d n HD HW Hk Hv Hf Hp Hn Hroom; cbn [dec_renorm];
    rewrite renorm_test by (unfold in_u32; lia); destruct (Z.ltb_spec (d_W_upper d) (2 ^ 24)) as [Hlt|Hge].
  - change (256 ^ Z.of_nat 0) with 1 in Hk. lia.
  - exists d. split; [done|]. split; [done|]. split; auto; lia.
  - destruct (dec_byte_any D d n HD Hf Hp Hn ltac:(lia)) as (d1 & -> & Hd & HWd & Hv1 & Hf1 & Hp1 & Hn1).
    cbn [negb mbind option_bind]. rewrite HWd.
    assert (u32 (Z.shiftl (d_W_upper d) 8) = 256 * d_W_upper d) as ->.
    { rewrite Z.shiftl_mul_pow2 by lia. change (2 ^ 8) with 256. rewrite u32_id; [lia|unfold in_u32; lia]. }
    rewrite Nat2Z.inj_succ, Z.pow_succ_r in Hk by lia.
    destruct (IH (d1 <| d_W_upper := 256 * d_W_upper d |>) (n + 1)) as (d' & E & Hd' & Hany);
      cbn -[in_u32 Z.mul]; auto; try lia.
    exists d'. split; [exact E|]. split; [by rewrite Hd', <- Hd|].
    replace (n + Z.of_nat (S k)) with (n + 1 + Z.of_nat k) by lia. done.
  - exists d. split; [done|]. split; [done|]. split; auto; lia.
Qed.

(** Symbol [i]: the error, or a symbol of the alphabet and at most three bytes. *)
Lemma onestep_any D cdf initIndex table init i d n :
  Forall in_u16 D -> aget cdf i = Some table -> cdf_ok table = true -> zlen table <= 32768 ->
  aget initIndex i = Some init -> 0 <= init < zlen table ->
  0 <= i < zlen (d_data d) -> dec_any D d n -> n + 3 <= 2 * zlen D ->
  onestep_step D cdf initIndex i d = Some (Ret (-3) d) \/
  exists d' x, onestep_step D cdf initIndex i d = Some (Go d') /\ dec_any D d' (n + 3) /\
    d_data d' = <[Z.to_nat i := x]> (d_data d) /\ 0 <= x < zlen table - 1.
Proof.
  intros HD Htab Hok Hsz Hinit Hr Hi [HW Hv Hf Hp Hn] Hroom. unfold onestep_step.
  rewrite (bind_eq _ _ _ Htab), (bind_eq _ _ _ Hinit).
  destruct (one_step_total table Hok (d_W_upper d) (d_streamval d) HW init Hr) as [[E _]|(lo & hi & x & E & Hfo)].
  { left. by rewrite (bind_eq _ _ _ E). }
  right. rewrite (bind_eq _ _ _ E). pose proof (aget_Some_range _ _ _ (fo_hi _ _ _ _ _ _ Hfo)) as Hx.
  pose proof (aget_Some_range _ _ _ (fo_lo _ _ _ _ _ _ Hfo)) as Hx0. pose proof (fo_in _ _ _ _ _ _ Hfo) as Hin.
  rewrite s16_id by (unfold in_s16; lia). rewrite (bind_eq _ _ _ (aset_in (d_data d) i x Hi)).
  destruct (symbol_bounds (d_W_upper d) lo hi HW (found_sym table Hok _ _ _ _ _ Hfo)) as (_ & _ & Hl & Hg & Hh).
  clear E Hfo. generalize dependent (part (d_W_upper d) lo). intros plo Hin Hl Hg.
  generalize dependent (part (d_W_upper d) hi). intros phi Hin Hg Hh.
  unfold dec_shift. cbn [d_W_lower d_W_upper d_streamval upd].
  rewrite (u32_id (plo + 1)), (u32_id (phi - (plo + 1))), (u32_id (d_streamval d - (plo + 1)))
    by (unfold in_u32 in *; lia).
  match goal with |- context [dec_renorm 3 D ?e] =>
    destruct (dec_renorm_any D 3 e n HD) as (d' & E & Hd' & Hany); cbn -[in_u32 Z.sub Z.add Z.mul Z.pow] end; auto.
  - lia.
  - change (256 ^ Z.of_nat 3) with (2 ^ 24). lia.
  - unfold in_u32 in *. lia.
  - exists d', x. rewrite (bind_eq _ _ _ E). split; [done|]. split; [exact Hany|]. split; [exact Hd'|lia].
Qed.

(** ** A whole call *)

(** Usable tables for the symbols [0] to [len - 1]. *)
Definition tables_ok (cdf : list (list Z)) (initIndex : list Z) (len : Z) : Prop :=
  forall i, 0 <= i < len -> exists table init, aget cdf i = Some table /\ cdf_ok table = true /\
    zlen table <= 32768 /\ aget initIndex i = Some init /\ 0 <= init < zlen table.

(** The output [i] to [j - 1] consists of symbols of the alphabets. *)
Definition symbols_ok (cdf : list (list Z)) (data : list Z) (i j : Z) : Prop :=
  forall k, i <= k < j -> exists x table, aget data k = Some x /\ aget cdf k = Some table /\
    0 <= x < zlen table - 1.

Lemma dec_loop_any D cdf initIndex todo : forall i d n,
  Forall in_u16 D -> tables_ok cdf initIndex (i + Z.of_nat todo) -> 0 <= i ->
  i + Z.of_nat todo <= zlen (d_data d) -> dec_any D d n -> n + 3 * Z.of_nat todo <= 2 * zlen D ->
  symbols_ok cdf (d_data d) 0 i ->
  exists r, dec_loop (onestep_step D cdf initIndex) todo i d = Some r /\
    match r with
    | Ret code d' => code = -3 /\ zlen (d_data d') = zlen (d_data d)
    | Go d' => dec_any D d' (n + 3 * Z.of_nat todo) /\ zlen (d_data d') = zlen (d_data d) /\
        symbols_ok cdf (d_data d') 0 (i + Z.of_nat todo)
    end.
Proof.
  induction todo as [|todo IH]; intros i d n HD Htabs Hi Hlen Hany Hroom Hsyms; cbn [dec_loop].
  { exists (Go d). split; [done|]. replace (n + 3 * Z.of_nat 0) with n by lia.
    replace (i + Z.of_nat 0) with i by lia. done. }
  destruct (Htabs i ltac:(lia)) as (table & init & Htab & Hok & Hsz & Hinit & Hr).
  destruct (onestep_any D cdf initIndex table init i d n HD Htab Hok Hsz Hinit Hr ltac:(lia) Hany ltac:(lia))
    as [E|(d1 & x & E & Hany1 & Hd1 & Hx)]; rewrite (bind_eq _ _ _ E); [by exists (Ret (-3) d)|].
  destruct (IH (i + 1) d1 (n + 3) HD) as (r & Er & Hr'); auto; try lia.
  { intros k Hk. apply Htabs. lia. }
  { rewrite Hd1, zlen_insert. lia. }
  { intros k Hk. rewrite Hd1. destruct (Z.eq_dec k i) as [->|Hne].
    - rewrite aget_insert_eq by lia. eauto.
    - rewrite aget_insert_ne by lia. apply Hsyms. lia. }
  exists r. split; [exact Er|]. rewrite Hd1, zlen_insert in Hr'.
  replace (n + 3 * Z.of_nat (S todo)) with (n + 3 + 3 * Z.of_nat todo) by lia.
  by replace (i + Z.of_nat (S todo)) with (i + 1 + Z.of_nat todo) by lia.
Qed.

(** The state between two calls: at least the first two words have been read,
    unless this is the first call. *)
Record bd_any (bd : Bitstr_dec) : Prop := mkBdAny {
  by_W : 2 ^ 24 <= bd_W_upper bd < 2 ^ 32;
  by_val : in_u32 (bd_streamval bd);
  by_full : bd_full bd = 0 \/ bd_full bd = 1;
  by_idx : (bd_stream_index bd = 0 /\ bd_full bd = 1) \/ 2 <= bd_stream_index bd;
}.

(** The bytes read by then; the first call reads four. *)
Definition bytes_read (bd : Bitstr_dec) : Z :=
  Z.max 4 (bytes_out (bd_stream_index bd) (bd_full bd)).

Lemma dec_start_any bd data :
  Forall in_u16 (bd_stream bd) -> bd_any bd -> 4 <= 2 * zlen (bd_stream bd) ->
  exists d, dec_start bd data = Some d /\ dec_any (bd_stream bd) d (bytes_read bd) /\ d_data d = data.
Proof.
  intros HD [HW Hv Hf Hidx] Hroom. unfold dec_start, bytes_read, bytes_out.
  destruct Hidx as [[E Ef]|Hidx].
  - rewrite E, Ef. cbn [Z.eqb b2z].
    destruct (aget_in (bd_stream bd) 0) as [w0 Hw0]; [lia|].
    destruct (aget_in (bd_stream bd) 1) as [w1 Hw1]; [lia|].
    rewrite (bind_eq _ _ _ Hw0), (bind_eq _ _ _ Hw1).
    assert (in_u16 w0) as H0 by (eapply aget_Forall; eauto). assert (in_u16 w1) as H1 by (eapply aget_Forall; eauto).
    simpl in H0, H1. eexists. split; [reflexivity|]. split; [|done].
    rewrite (u32_id (Z.shiftl w0 16)) by (rewrite Z.shiftl_mul_pow2 by lia; unfold in_u32; lia).
    split; cbn -[in_u32 Z.lor Z.shiftl]; auto; try lia.
    + rewrite lor_shiftl_add by lia. unfold in_u32. lia.
    + unfold bytes_out. cbn. lia.
  - rewrite (proj2 (Z.eqb_neq _ 0)) by lia. eexists. split; [reflexivity|]. split; [|done].
    split; cbn; auto. unfold bytes_out. lia.
Qed.

(** C12. On every stream, whatever wrote it, [DecHistOneStepMulti] ends: with
    three bytes of stream per symbol it stays inside of its arrays and answers
    either the error -3 or a positive length with every output in the alphabet of
    its table, in a state from which the next call can go on. *)
Theorem DecHistOneStepMulti_any data bd cdf initIndex lenData
    (HD : Forall in_u16 (bd_stream bd)) (Hbd : bd_any bd)
    (Hlen : 0 <= lenData <= zlen data) (Htabs : tables_ok cdf initIndex lenData)
    (Hroom : bytes_read bd + 3 * lenData <= 2 * zlen (bd_stream bd))
    (Hmax : zlen (bd_stream bd) <= 16000) :
  exists code bd' data', DecHistOneStepMulti data bd cdf initIndex lenData = Some (code, bd', data') /\
    zlen data' = zlen data /\
    (code = -3 \/ (0 < code /\ symbols_ok cdf data' 0 lenData /\ bd_any bd' /\
       bytes_read bd' <= bytes_read bd + 3 * lenData)).
Proof.
  unfold DecHistOneStepMulti. rewrite (proj2 (Z.eqb_neq _ 0)) by (destruct Hbd; lia).
  destruct (dec_start_any bd data HD Hbd) as (d & Ed & Hany & Hd); [unfold bytes_read in *; lia|].
  rewrite (bind_eq _ _ _ Ed).
  destruct (dec_loop_any (bd_stream bd) cdf initIndex (Z.to_nat lenData) 0 d (bytes_read bd) HD)
    as (r & E & Hr); rewrite ?Z2Nat.id by lia; rewrite ?Hd; auto; try lia; [by intros k Hk; lia|].
  rewrite (bind_eq _ _ _ E). rewrite Z2Nat.id, Hd in Hr by lia. destruct r as [d'|code d'].
  - destruct Hr as ([HW Hv Hf Hp Hn] & Hl & Hs). rewrite Z.add_0_l in Hs.
    assert (d_ptr d' <= zlen (bd_stream bd)) as Hptr by (unfold bytes_out, b2z in Hn; case_match; lia).
    cbn [dec_finish]. rewrite (u16_id (d_ptr d')) by (unfold in_u16; lia).
    eexists _, _, _. split; [reflexivity|]. split; [done|]. right. split.
    { destruct (0x1FFFFFF <? d_W_upper d'), (d_full d' =? 0); cbn [b2z];
        rewrite s16_id by (unfold in_s16; lia); lia. }
    split; [done|]. split; [split; cbn -[in_u32]; auto; lia|].
    unfold bytes_read at 1. cbn. unfold bytes_read in *. lia.
  - destruct Hr as [-> Hl]. cbn [dec_finish]. eexists _, _, _. split; [reflexivity|]. split; [done|by left].
Qed.

Lemma DecHistOneStepMulti_any_witness :
  exists code bd' data',
    DecHistOneStepMulti [0; 0] (dec_reset [51966; 47806; 0; 4660; 22136]) [[0; 30000; 65535]; [0; 65535]] [1; 0] 2
      = Some (code, bd', data') /\ (code = -3 \/ 0 < code).
Proof.
  destruct (DecHistOneStepMulti_any [0; 0] (dec_reset [51966; 47806; 0; 4660; 22136])
    [[0; 30000; 65535]; [0; 65535]] [1; 0] 2) as (code & bd' & data' & E & _ & H).
  - repeat constructor; unfold in_u16; lia.
  - split; cbn; auto; unfold in_u32; lia.
  - vm_compute. split; discriminate.
  - intros i Hi. assert (i = 0 \/ i = 1) as [-> | ->] by lia; eexists _, _;
      (split; [reflexivity|]; split; [reflexivity|]; split; [vm_compute; discriminate|];
       split; [reflexivity|vm_compute; split; [discriminate|reflexivity]]).
  - vm_compute. discriminate.
  - vm_compute. discriminate.
  - exists code, bd', data'. split; [exact E|]. destruct H as [H|[H _]]; [by left|by right].
Defined.

(** ** A search that does not end *)

(** The candidates of a search under the envelope 1: 512 values, all below the
    stream's value and each with another bound than its successor. *)
Definition runs_on (k : Z) : bool :=
  let cand := s16 (64 + 128 * k) in
  match log_bound 0xFFFFFFFF cand 1, log_bound 0xFFFFFFFF (s16 (cand + 128)) 1 with
  | Some b, Some b' => (b <? 0xFFFFFFFE) && negb (b =? b')
  | _, _ => false
  end.

Lemma all_run_on k : 0 <= k < 512 -> runs_on k = true.
Proof. apply (forall_below runs_on 512). vm_compute. reflexivity. Qed.

Lemma log_up_runs rounds : forall k W_lower W_tmp,
  0 <= k < 512 -> log_bound 0xFFFFFFFF (s16 (64 + 128 * k)) 1 = Some W_tmp ->
  log_up rounds 0xFFFFFFFF 0xFFFFFFFE 1 (s16 (64 + 128 * k)) W_lower W_tmp = Some Searching.
Proof.
  induction rounds as [|rounds IH]; intros k W_lower W_tmp Hk Hb; pose proof (all_run_on k Hk) as Hr;
    unfold runs_on in Hr; rewrite Hb in Hr; cbn [log_up].
  all: destruct (log_bound 0xFFFFFFFF (s16 (s16 (64 + 128 * k) + 128)) 1) as [b'|] eqn:Hb'; [|done].
  all: apply andb_prop in Hr as [Hlt Hne]; rewrite Hlt; cbn [negb].
  { done. }
  cbn [mbind option_bind]. apply negb_true_iff in Hne. rewrite Hne.
  assert (s16 (s16 (64 + 128 * k) + 128) = s16 (64 + 128 * ((k + 1) mod 512))) as Es.
  { destruct (Z.eq_dec k 511) as [->|]; [by vm_compute|].
    rewrite (Z.mod_small (k + 1) 512) by lia. wrap_lia. }
  rewrite Es in *. apply IH; [apply Z.mod_pos_bound; lia|done].
Qed.

Lemma log_search_runs rounds : log_search rounds 0xFFFFFFFF 0xFFFFFFFE 1 0 = Some Searching.
Proof.
  unfold log_search. change (s16 (- 0 + 64)) with (s16 (64 + 128 * 0)).
  change (s16 (s16 (64 + 128 * 0) + 128)) with (s16 (64 + 128 * 1)).
  destruct (log_bound 0xFFFFFFFF (s16 (64 + 128 * 0)) 1) as [W_tmp|] eqn:E; [|by vm_compute in E].
  assert ((W_tmp <? 0xFFFFFFFE) = true) as Hlt by (vm_compute in E; by injection E as <-).
  cbn [mbind option_bind]. rewrite Hlt.
  destruct (log_bound 0xFFFFFFFF (s16 (64 + 128 * 1)) 1) as [W_tmp'|] eqn:E'; [|by vm_compute in E'].
  cbn [mbind option_bind]. by rewrite (bind_eq _ _ _ (log_up_runs rounds 1 W_tmp W_tmp' ltac:(lia) E')).
Qed.

Lemma log_step_runs rounds stream d :
  aget (d_data d) 0 = Some 0 -> d_W_upper d = 0xFFFFFFFF -> d_streamval d = 0xFFFFFFFE ->
  log_step rounds stream 1 0 d = Some (Ret SEARCHING d).
Proof.
  intros H0 HW Hv. unfold log_step. rewrite (bind_eq _ _ _ H0), HW, Hv.
  by rewrite (bind_eq _ _ _ (log_search_runs rounds)).
Qed.

(** C40. The spectrum decoder can run away: for a stream that starts with the
    words 0xFFFF 0xFFFE, a first envelope value of 1 and a first dither of 0 - the
    rest of the stream, of the envelope and of the dither being arbitrary - the
    decoder is still searching its first coefficient after any number of rounds,
    each access on the way inside of its array: the candidate wraps around
    before the distribution function becomes flat, which is the only thing the
    error check looks for, so the call never returns. *)
Theorem DecLogisticMulti2_runs_away rounds dither stream envQ8 lenData (Hlen : 0 < lenData) :
  DecLogisticMulti2 rounds (0 :: dither) (dec_reset (0xFFFF :: 0xFFFE :: stream)) (1 :: envQ8) lenData
    = Some None.
Proof.
  unfold DecLogisticMulti2.
  rewrite (bind_eq _ _ (mkDec 0 0xFFFFFFFF 0xFFFFFFFE 2 1 (0 :: dither)) eq_refl).
  rewrite (bind_eq _ _ 1 eq_refl). change (env_sqrt_start 1) with 1.
  destruct (Z.to_nat ((lenData + 3) / 4)) as [|n] eqn:En.
  { assert (1 <= (lenData + 3) / 4) by (apply Z.div_le_lower_bound; lia). lia. }
  cbn [dec_logist]. rewrite (bind_eq _ _ 1 eq_refl), (bind_eq _ _ (1, 1) eq_refl).
  cbn [dec_loop]. change (4 * 0) with 0. by rewrite log_step_runs.
Qed.

Lemma DecLogisticMulti2_runs_away_witness :
  DecLogisticMulti2 4096 [0; 0; 0; 0] (dec_reset [0xFFFF; 0xFFFE; 0; 0]) [1] 4 = Some None.
Proof. exact (DecLogisticMulti2_runs_away _ [0; 0; 0] [0; 0] [] 4 ltac:(lia)). Defined.

(** Under an envelope of 52 (its square is 2704) the same stream is rejected. *)
Example DecLogisticMulti2_ends :
  ((fun r => (r.1.1, r.2)) <$> mjoin (DecLogisticMulti2 600 [0; 0; 0; 0] (dec_reset [0xFFFF; 0xFFFE; 0; 0]) [2704] 4))
    = Some (-1, [0; 0; 0; 0]).
Proof. vm_compute. reflexivity. Qed.
