(* ===== verification/DelayEst.v ===== *)
(** The delay estimator of the echo cancellers:
    [modules/audio_processing/utility/delay_estimator.c] and the fixed-point
    half of [delay_estimator_wrapper.c].  The far end owns a history of binary
    spectra; the estimator, which points to it, compares them with the spectrum
    of the near end and keeps a smoothed count of differing bits per delay. *)
From S2P Require Import Prelude.

Definition kShiftsAtZero : Z := 13.
Definition kShiftsLinearSlope : Z := 3.
Definition kProbabilityOffset : Z := 1024.
Definition kProbabilityLowerLimit : Z := 8704.
Definition kProbabilityMinSpread : Z := 2816.

Record BinaryDelayEstimatorFarend := mkBf {
  bf_far_bit_counts : list Z;
  bf_binary_far_history : list Z;
  bf_history_size : Z;
}.
#[export] Instance eta_bf : Eta BinaryDelayEstimatorFarend :=
  fun r => mkBf (bf_far_bit_counts r) (bf_binary_far_history r) (bf_history_size r).

(** The pointer [farend] is an argument of the operations. *)
Record BinaryDelayEstimator := mkEst {
  est_mean_bit_counts : list Z;
  est_bit_counts : list Z;
  est_binary_near_history : list Z;
  est_near_history_size : Z;
  est_minimum_probability : Z;
  est_last_delay_probability : Z;
  est_last_delay : Z;
}.
#[export] Instance eta_est : Eta BinaryDelayEstimator :=
  fun r => mkEst (est_mean_bit_counts r) (est_bit_counts r) (est_binary_near_history r) (est_near_history_size r)
                (est_minimum_probability r) (est_last_delay_probability r) (est_last_delay r).

(** ** Bit counts *)

(** The masks are the octal constants 033333333333, 011111111111, 030707070707
    and 077. *)
Definition BitCount (u : Z) : Z :=
  let tmp := u32 (u32 (u - Z.land (Z.shiftr u 1) 0xDB6DB6DB) - Z.land (Z.shiftr u 2) 0x49249249) in
  let tmp := Z.land (u32 (tmp + Z.shiftr tmp 3)) 0xC71C71C7 in
  let tmp := u32 (tmp + Z.shiftr tmp 6) in
  Z.land (u32 (u32 (tmp + Z.shiftr tmp 12) + Z.shiftr tmp 24)) 63.

Fixpoint BitCountComparison (todo : nat) (n : Z) (binary_vector : Z) (binary_matrix bit_counts : list Z)
    : option (list Z) :=
  match todo with
  | O => Some bit_counts
  | S todo =>
      row ← aget binary_matrix n;
      bit_counts ← aset bit_counts n (BitCount (Z.lxor binary_vector row));
      BitCountComparison todo (n + 1) binary_vector binary_matrix bit_counts
  end.

(** ** The far end *)

(** Creation; [mem_history] and [mem_counts] are what [malloc] returns. *)
Definition CreateBinaryDelayEstimatorFarend (mem_history mem_counts : option (list Z)) (history_size : Z)
    : option BinaryDelayEstimatorFarend :=
  if negb (1 <? history_size) then None else
  history ← mem_history;
  counts ← mem_counts;
  Some (mkBf counts history history_size).

(** [memset] of an array to zero. *)
Definition zero_fill (mem : list Z) (size : Z) : option (list Z) :=
  astore mem 0 (replicate (Z.to_nat size) 0).

Definition InitBinaryDelayEstimatorFarend (self : BinaryDelayEstimatorFarend)
    : option BinaryDelayEstimatorFarend :=
  history ← zero_fill (bf_binary_far_history self) (bf_history_size self);
  counts ← zero_fill (bf_far_bit_counts self) (bf_history_size self);
  Some (self <| bf_binary_far_history := history |> <| bf_far_bit_counts := counts |>).

(** [memmove] by one entry, and a new first entry. *)
Definition shift_history (mem : list Z) (size x : Z) : option (list Z) :=
  old ← aload mem 0 (size - 1);
  mem ← astore mem 1 old;
  aset mem 0 x.

Definition AddBinaryFarSpectrum (handle : BinaryDelayEstimatorFarend) (binary_far_spectrum : Z)
    : option BinaryDelayEstimatorFarend :=
  history ← shift_history (bf_binary_far_history handle) (bf_history_size handle) binary_far_spectrum;
  counts ← shift_history (bf_far_bit_counts handle) (bf_history_size handle) (BitCount binary_far_spectrum);
  Some (handle <| bf_binary_far_history := history |> <| bf_far_bit_counts := counts |>).

(** ** The estimator *)

(** [minimum], [probability] and [last] stand for the fields that stay uninitialised. *)
Definition CreateBinaryDelayEstimator (mem_mean mem_counts mem_near : option (list Z))
    (minimum probability last : Z) (lookahead : Z) : option BinaryDelayEstimator :=
  if negb (0 <=? lookahead) then None else
  mean ← mem_mean;
  counts ← mem_counts;
  near ← mem_near;
  Some (mkEst mean counts near (lookahead + 1) minimum probability last).

Definition InitBinaryDelayEstimator (self : BinaryDelayEstimator) (farend : BinaryDelayEstimatorFarend)
    : option BinaryDelayEstimator :=
  counts ← zero_fill (est_bit_counts self) (bf_history_size farend);
  near ← zero_fill (est_binary_near_history self) (est_near_history_size self);
  mean ← astore (est_mean_bit_counts self) 0 (replicate (Z.to_nat (bf_history_size farend)) (Z.shiftl 20 9));
  Some (self <| est_bit_counts := counts |> <| est_binary_near_history := near |>
             <| est_mean_bit_counts := mean |>
             <| est_minimum_probability := Z.shiftl 32 9 |>
             <| est_last_delay_probability := Z.shiftl 32 9 |>
             <| est_last_delay := -2 |>).

Definition MeanEstimatorFix (new_value factor mean_value : Z) : Z :=
  let diff := s32 (new_value - mean_value) in
  let diff := if diff <? 0 then s32 (- Z.shiftr (s32 (- diff)) factor) else Z.shiftr diff factor in
  s32 (mean_value + diff).

(** The near end spectrum that is compared: with lookahead, an older one. *)
Definition near_delay (self : BinaryDelayEstimator) (binary_near_spectrum : Z)
    : option (Z * BinaryDelayEstimator) :=
  if 1 <? est_near_history_size self then
    near ← shift_history (est_binary_near_history self) (est_near_history_size self) binary_near_spectrum;
    x ← aget near (est_near_history_size self - 1);
    Some (x, self <| est_binary_near_history := near |>)
  else Some (binary_near_spectrum, self).

Definition mean_shifts (far_bit_count : Z) : Z :=
  kShiftsAtZero - Z.shiftr (kShiftsLinearSlope * far_bit_count) 4.

Fixpoint update_means (todo : nat) (i : Z) (far_bit_counts bit_counts means : list Z) : option (list Z) :=
  match todo with
  | O => Some means
  | S todo =>
      c ← aget bit_counts i;
      let bit_count := s32 (Z.shiftl c 9) in
      far ← aget far_bit_counts i;
      means ← (if 0 <? far then
                 mean ← aget means i;
                 aset means i (MeanEstimatorFix bit_count (mean_shifts far) mean)
               else Some means);
      update_means todo (i + 1) far_bit_counts bit_counts means
  end.

(** Best value, worst value and candidate. *)
Fixpoint find_candidate (todo : nat) (i : Z) (means : list Z) (best worst candidate : Z)
    : option (Z * Z * Z) :=
  match todo with
  | O => Some (best, worst, candidate)
  | S todo =>
      m ← aget means i;
      let '(best, candidate) := if m <? best then (m, i) else (best, candidate) in
      let worst := if worst <? m then m else worst in
      find_candidate todo (i + 1) means best worst candidate
  end.

(** The adaptive threshold. *)
Definition update_minimum (minimum best worst : Z) : Z :=
  if (kProbabilityLowerLimit <? minimum) && (kProbabilityMinSpread <? worst - best) then
    let threshold := best + kProbabilityOffset in
    let threshold := if threshold <? kProbabilityLowerLimit then kProbabilityLowerLimit else threshold in
    if threshold <? minimum then threshold else minimum
  else minimum.

(** The decision: last delay and its level. *)
Definition decide_delay (self : BinaryDelayEstimator) (best worst candidate : Z) : BinaryDelayEstimator :=
  let self := self <| est_minimum_probability := update_minimum (est_minimum_probability self) best worst |> in
  let self := self <| est_last_delay_probability := s32 (est_last_delay_probability self + 1) |> in
  if best + kProbabilityOffset <? worst then
    let self := if best <? est_minimum_probability self then self <| est_last_delay := candidate |> else self in
    if best <? est_last_delay_probability self
    then self <| est_last_delay := candidate |> <| est_last_delay_probability := best |>
    else self
  else self.

Definition ProcessBinarySpectrum (self : BinaryDelayEstimator) (farend : BinaryDelayEstimatorFarend)
    (binary_near_spectrum : Z) : option (Z * BinaryDelayEstimator) :=
  p ← near_delay self binary_near_spectrum;
  let '(near, self) := p in
  let size := Z.to_nat (bf_history_size farend) in
  counts ← BitCountComparison size 0 near (bf_binary_far_history farend) (est_bit_counts self);
  let self := self <| est_bit_counts := counts |> in
  means ← update_means size 0 (bf_far_bit_counts farend) counts (est_mean_bit_counts self);
  let self := self <| est_mean_bit_counts := means |> in
  r ← find_candidate size 0 means (Z.shiftl 32 9) 0 (-1);
  let '(best, worst, candidate) := r in
  let self := decide_delay self best worst candidate in
  Some (est_last_delay self, self).

Definition binary_last_delay (self : BinaryDelayEstimator) : Z := est_last_delay self.

Definition binary_last_delay_quality (self : BinaryDelayEstimator) : Z :=
  let delay_quality := s32 (Z.shiftl 32 9 - est_last_delay_probability self) in
  if delay_quality <? 0 then 0 else delay_quality.

(** ** [BitCount] is the population count

    The proof goes through octal digits, as the function does. *)

(** The number of ones among the [n] lowest bits. *)
Fixpoint popcount (n : nat) (u : Z) : Z :=
  match n with
  | O => 0
  | S n => u mod 2 + popcount n (u / 2)
  end.

Definition octal (ds : list Z) : Z := foldr (fun d v => d + 8 * v) 0 ds.

Definition digits_ok (ds : list Z) : Prop := Forall (fun d => 0 <= d < 8) ds.

Lemma octal_nonneg ds : digits_ok ds -> 0 <= octal ds.
Proof. unfold octal. induction 1; cbn [foldr] in *; lia. Qed.

Lemma land_digit d k h m :
  0 <= d < 8 -> 0 <= k < 8 -> Z.land (d + 8 * h) (k + 8 * m) = Z.land d k + 8 * Z.land h m.
Proof.
  intros Hd Hk.
  assert (E : forall a b, 0 <= b < 8 -> b + 8 * a = Z.lor (Z.shiftl a 3) b)
    by (intros a b Hb; rewrite lor_shiftl_add; change (2 ^ 3) with 8; lia).
  assert (0 <= Z.land d k < 8).
  { rewrite <-(Z.mod_small d (2 ^ 3)), <-(Z.land_ones d 3), <-Z.land_assoc, (Z.land_comm _ k), Z.land_assoc,
      Z.land_ones by lia. apply Z.mod_pos_bound. lia. }
  rewrite !E by done.
  apply Z.bits_inj'. intros n Hn. rewrite !Z.land_spec, !Z.lor_spec, !Z.land_spec.
  destruct (Z.ltb_spec n 3).
  - rewrite !Z.shiftl_spec_low by lia. done.
  - assert (Hhi : forall x, 0 <= x < 8 -> Z.testbit x n = false).
    { intros x Hx. destruct (Z.eqb_spec x 0) as [->|]; [apply Z.bits_0|].
      apply Z.bits_above_log2; [lia|]. assert (Z.log2 x < 3) by (apply Z.log2_lt_pow2; lia). lia. }
    rewrite !(Hhi d), !(Hhi k) by lia. cbn [andb]. rewrite !orb_false_r, !Z.shiftl_spec by lia.
    by rewrite Z.land_spec.
Qed.

Lemma land_octal ds : forall ms, digits_ok ds -> digits_ok ms -> length ms = length ds ->
  Z.land (octal ds) (octal ms) = octal (zip_with Z.land ds ms).
Proof.
  induction ds as [|d ds IH]; intros [|m ms] Hd Hm Hl; try discriminate; [reflexivity|].
  inversion Hd; subst; inversion Hm; subst. cbn. rewrite land_digit by done. rewrite <-IH; auto.
Qed.

(** Octal digits of a number. *)
Fixpoint octal_digits (n : nat) (u : Z) : list Z :=
  match n with
  | O => []
  | S n => u mod 8 :: octal_digits n (u / 8)
  end.

Lemma octal_digits_spec n : forall u, 0 <= u < 8 ^ Z.of_nat n ->
  octal (octal_digits n u) = u /\ digits_ok (octal_digits n u) /\ length (octal_digits n u) = n.
Proof.
  induction n as [|n IH]; intros u Hu; [cbn in *; repeat split; [lia|constructor]|].
  destruct (IH (u / 8)) as (E & D & L).
  { replace (Z.of_nat (S n)) with (Z.of_nat n + 1) in Hu by lia. rewrite Z.pow_add_r in Hu by lia.
    split; [apply Z.div_pos; lia|]. apply Z.div_lt_upper_bound; lia. }
  cbn [octal_digits]. repeat split.
  - cbn [octal foldr]. fold (octal (octal_digits n (u / 8))). rewrite E. pose proof (Z.div_mod u 8). lia.
  - constructor; [apply Z.mod_pos_bound; lia|done].
  - cbn. by rewrite L.
Qed.

Lemma popcount_octal ds : digits_ok ds ->
  popcount (3 * length ds) (octal ds) = sum_list (popcount 3 <$> ds).
Proof.
  induction 1 as [|d ds Hd _ IH]; [reflexivity|].
  replace (3 * length (d :: ds))%nat with (S (S (S (3 * length ds)))) by (cbn; lia).
  rewrite fmap_cons, sum_list_cons, <-IH. cbn [octal foldr]. fold (octal ds).
  generalize (octal ds) as v, (3 * length ds)%nat as k. intros v k. cbn [popcount].
  replace ((d + 8 * v) / 2 / 2 / 2) with v by (rewrite !Z.div_div by lia; wrap_lia).
  assert (d + 8 * v = d + (4 * v) * 2) as -> by lia. rewrite Z.div_add, Z.mod_add by lia.
  assert (d / 2 + 4 * v = d / 2 + (2 * v) * 2) as -> by lia. rewrite Z.div_add, Z.mod_add by lia.
  assert (d / 2 / 2 + 2 * v = d / 2 / 2 + v * 2) as -> by lia. rewrite Z.mod_add by lia. lia.
Qed.

(** The first step: every digit becomes its number of ones. *)
Lemma bit_pairs ds : digits_ok ds ->
  octal ds - Z.land (Z.shiftr (octal ds) 1) (octal (replicate (length ds) 3))
    - Z.land (Z.shiftr (octal ds) 2) (octal (replicate (length ds) 1)) = octal (popcount 3 <$> ds).
Proof.
  induction 1 as [|d ds Hd _ IH]; [reflexivity|].
  cbn [length replicate octal foldr fmap list_fmap]. fold (octal ds).
  fold (octal (popcount 3 <$> ds)). rewrite <-IH.
  fold (octal (replicate (length ds) 3)). fold (octal (replicate (length ds) 1)).
  rewrite !Z.shiftr_div_pow2 by lia. change (2 ^ 1) with 2. change (2 ^ 2) with 4.
  set (v := octal ds).
  replace ((d + 8 * v) / 2) with ((d / 2 + 4 * (v mod 2)) + 8 * (v / 2)) by (wrap_lia).
  replace ((d + 8 * v) / 4) with ((d / 4 + 2 * (v mod 4)) + 8 * (v / 4)) by (wrap_lia).
  rewrite !land_digit by (try lia; wrap_lia).
  replace (Z.land (d / 2 + 4 * (v mod 2)) 3) with (d / 2).
  2:{ change 3 with (Z.ones 2). rewrite Z.land_ones by lia. change (2 ^ 2) with 4. wrap_lia. }
  replace (Z.land (d / 4 + 2 * (v mod 4)) 1) with (d / 4) by (rewrite land_one; wrap_lia).
  cbn [popcount]. wrap_lia.
Qed.

(** The sum of every other base-64 digit. *)
Lemma add_sixths a b c d e f :
  0 <= a <= 12 -> 0 <= b <= 12 -> 0 <= c <= 12 -> 0 <= d <= 12 -> 0 <= e <= 8 -> 0 <= f <= 2 ->
  let tmp := a + 64 * b + 4096 * (c + 64 * d) + 16777216 * (e + 64 * f) in
  u32 (u32 (tmp + tmp / 4096) + tmp / 16777216) mod 64 = a + c + e.
Proof.
  intros. replace (tmp / 4096) with (c + 64 * d + 4096 * (e + 64 * f))
    by (apply (Z.div_unique _ _ _ (a + 64 * b)); subst tmp; lia).
  replace (tmp / 16777216) with (e + 64 * f)
    by (apply (Z.div_unique _ _ _ (a + 64 * b + 4096 * (c + 64 * d))); subst tmp; lia).
  rewrite (u32_id (tmp + _)), u32_id by (subst tmp; cbn; lia).
  symmetry. apply (Z.mod_unique _ _ (b + 64 * c + 4096 * d + 262144 * (e + 64 * f) + d + 64 * (e + 64 * f) + f));
    subst tmp; lia.
Qed.

(** The last steps, on the eleven counts of the digits. *)
Lemma add_digits p0 p1 p2 p3 p4 p5 p6 p7 p8 p9 p10 :
  Forall (fun p => 0 <= p <= 3) [p0; p1; p2; p3; p4; p5; p6; p7; p8; p9] -> 0 <= p10 <= 2 ->
  let tmp := octal [p0; p1; p2; p3; p4; p5; p6; p7; p8; p9; p10] in
  let tmp := Z.land (u32 (tmp + Z.shiftr tmp 3)) 0xC71C71C7 in
  let tmp := u32 (tmp + Z.shiftr tmp 6) in
  Z.land (u32 (u32 (tmp + Z.shiftr tmp 12) + Z.shiftr tmp 24)) 63 =
    p0 + p1 + p2 + p3 + p4 + p5 + p6 + p7 + p8 + p9 + p10.
Proof.
  intros H H10. repeat match goal with H : Forall _ (_ :: _) |- _ => inversion H; clear H; subst end. intros tmp.
  assert (E : Z.land (u32 (tmp + Z.shiftr tmp 3)) 0xC71C71C7 =
              octal [p0 + p1; 0; p2 + p3; 0; p4 + p5; 0; p6 + p7; 0; p8 + p9; 0; p10]).
  { replace (u32 (tmp + Z.shiftr tmp 3)) with
      (octal [p0 + p1; p1 + p2; p2 + p3; p3 + p4; p4 + p5; p5 + p6; p6 + p7; p7 + p8; p8 + p9; p9 + p10; p10]).
    2:{ subst tmp. unfold octal. cbn [foldr]. rewrite Z.shiftr_div_pow2 by lia. change (2 ^ 3) with 8. wrap_lia. }
    change 0xC71C71C7 with (octal [7; 0; 7; 0; 7; 0; 7; 0; 7; 0; 3]).
    rewrite land_octal by (try reflexivity; unfold digits_ok; rewrite !list.Forall_cons, list.Forall_nil; lia). cbn [zip_with].
    change 7 with (Z.ones 3). change (Z.land p10 3) with (Z.land p10 (Z.ones 2)).
    rewrite !Z.land_0_r, !Z.land_ones by lia. change (2 ^ 3) with 8. change (2 ^ 2) with 4.
    rewrite !Z.mod_small by lia. reflexivity. }
  cbv zeta. rewrite E. clear E tmp.
  set (tmp := octal _).
  replace (u32 (tmp + Z.shiftr tmp 6)) with ((p0 + p1 + p2 + p3) + 64 * (p2 + p3 + p4 + p5)
      + 4096 * ((p4 + p5 + p6 + p7) + 64 * (p6 + p7 + p8 + p9)) + 16777216 * ((p8 + p9 + p10) + 64 * p10)).
  2:{ subst tmp. unfold octal. cbn [foldr]. rewrite Z.shiftr_div_pow2 by lia. change (2 ^ 6) with 64. wrap_lia. }
  clear tmp. change 63 with (Z.ones 6). rewrite Z.land_ones by lia. change (2 ^ 6) with 64.
  rewrite !Z.shiftr_div_pow2 by lia. change (2 ^ 12) with 4096. change (2 ^ 24) with 16777216.
  replace (p0 + p1 + p2 + p3 + p4 + p5 + p6 + p7 + p8 + p9 + p10)
    with ((p0 + p1 + p2 + p3) + (p4 + p5 + p6 + p7) + (p8 + p9 + p10)) by lia.
  apply add_sixths; lia.
Qed.

Lemma BitCount_popcount u : in_u32 u -> BitCount u = popcount 32 u.
Proof.
  intros Hu. destruct (octal_digits_spec 11 u) as (E & D & L); [cbn in *; lia|].
  assert (H33 : popcount 33 u = popcount 32 u).
  { cbn [popcount]. rewrite !Z.div_div by lia.
    match goal with |- context [u / ?k mod 2 + 0] => replace (u / k) with 0 by (symmetry; apply Z.div_small; cbn in *; lia) end.
    reflexivity. }
  pose proof (popcount_octal _ D) as C. rewrite L, E in C. change (3 * 11)%nat with 33%nat in C.
  rewrite <-H33, C. clear C H33.
  pose proof (bit_pairs _ D) as P. rewrite E, L in P.
  change (octal (replicate 11 3)) with 0xDB6DB6DB in P.
  change (octal (replicate 11 1)) with 0x49249249 in P.
  assert (Hd : forall d, 0 <= d < 8 -> 0 <= popcount 3 d <= 3) by (intros d Hd; cbn [popcount]; wrap_lia).
  assert (H2 : forall d, 0 <= d < 4 -> 0 <= popcount 3 d <= 2) by (intros d Hd2; cbn [popcount]; wrap_lia).
  unfold BitCount.
  set (a := Z.land (Z.shiftr u 1) 0xDB6DB6DB) in *. set (b := Z.land (Z.shiftr u 2) 0x49249249) in *.
  assert (Ha : 0 <= a) by (apply Z.land_nonneg; lia). assert (Hb : 0 <= b) by (apply Z.land_nonneg; lia).
  assert (Hp : 0 <= octal (popcount 3 <$> octal_digits 11 u)).
  { apply octal_nonneg. apply Forall_fmap. eapply list.Forall_impl; [exact D|]. intros d Hx. specialize (Hd d Hx). change (0 <= popcount 3 d < 8). lia. }
  rewrite (u32_id (u - a)) by (unfold in_u32 in *; lia). rewrite (u32_id (u - a - b)) by (unfold in_u32 in *; lia). rewrite P. clear P a b Ha Hb Hp.
  cbn [octal_digits] in *. cbn [fmap list_fmap] in *. unfold digits_ok in D. rewrite !list.Forall_cons in D.
  rewrite add_digits.
  - unfold sum_list. cbn [foldr]. lia.
  - rewrite !list.Forall_cons, list.Forall_nil. repeat split; apply Hd; lia.
  - apply H2. rewrite !Z.div_div by lia. split; [apply Z.mod_pos_bound; lia|].
    rewrite Z.mod_small; cbn in Hu; [apply Z.div_lt_upper_bound; lia|split; [apply Z.div_pos; lia|apply Z.div_lt_upper_bound; lia]].
Qed.
