(* ===== verification/DelayEstInv.v ===== *)
(** The delay estimator: what each loop computes, the invariant of its two
    objects, and the properties of whole runs. *)
From S2P Require Import Prelude DelayEst.

(** ** Histories *)

Lemma aload_prefix {A} (l : list A) n : 0 <= n <= zlen l -> aload l 0 n = Some (take (Z.to_nat n) l).
Proof. intros H. by rewrite aload_in by lia. Qed.

Lemma astore_all {A} (l v : list A) : zlen v = zlen l -> astore l 0 v = Some v.
Proof.
  intros H. destruct (astore_in l v 0) as (l' & E & _); [lia|lia|]. rewrite E.
  apply astore_Some in E as (_ & _ & ->). unfold zlen in H.
  rewrite take_0, drop_ge, app_nil_r by lia. done.
Qed.

Lemma zero_fill_spec mem n : zlen mem = n -> zero_fill mem n = Some (replicate (Z.to_nat n) 0).
Proof. intros H. apply astore_all. rewrite zlen_replicate. pose proof (zlen_nonneg mem). lia. Qed.

Definition pushed (mem : list Z) (x : Z) : list Z := x :: take (length mem - 1) mem.

Lemma shift_history_spec mem size x :
  zlen mem = size -> 1 <= size -> shift_history mem size x = Some (pushed mem x).
Proof.
  intros Hl Hs. unfold shift_history, pushed. rewrite aload_prefix by lia. cbn [mbind option_bind].
  replace (Z.to_nat (size - 1)) with (length mem - 1)%nat by (unfold zlen in Hl; lia).
  destruct mem as [|m mem]; [rewrite zlen_nil in Hl; lia|]. rewrite zlen_cons in Hl. unfold zlen in Hl.
  set (old := take _ _).
  assert (Ho : length old = length mem) by (subst old; rewrite length_take; cbn; lia).
  destruct (astore_in (m :: mem) old 1) as (l' & E & _); [lia|rewrite zlen_cons; unfold zlen; lia|]. rewrite E.
  apply astore_Some in E as (_ & _ & ->). cbn [mbind option_bind].
  change (Z.to_nat 1) with 1%nat. cbn [take firstn app].
  rewrite drop_ge, app_nil_r by (cbn [length]; lia). reflexivity.
Qed.

Lemma zlen_pushed mem x : 1 <= zlen mem -> zlen (pushed mem x) = zlen mem.
Proof. unfold pushed, zlen. intros H. cbn. rewrite length_take. lia. Qed.

Lemma aget_pushed mem x i :
  0 <= i < zlen mem -> aget (pushed mem x) i = if i =? 0 then Some x else aget mem (i - 1).
Proof.
  unfold pushed, zlen. intros H. case_if.
  { subst i. by rewrite aget_lookup by lia. }
  rewrite aget_cons by lia.
  rewrite !aget_lookup by lia. by rewrite lookup_take_lt by lia.
Qed.

Lemma Forall_pushed (P : Z -> Prop) mem x : P x -> Forall P mem -> Forall P (pushed mem x).
Proof. intros Hx H. constructor; [done|]. by apply Forall_take. Qed.

(** ** The loops *)

Lemma BitCountComparison_spec v matrix todo : forall n counts,
  0 <= n -> n + Z.of_nat todo <= zlen matrix -> n + Z.of_nat todo <= zlen counts ->
  exists counts', BitCountComparison todo n v matrix counts = Some counts' /\ zlen counts' = zlen counts /\
    forall j, aget counts' j = if decide (n <= j < n + Z.of_nat todo)
                               then (fun row => BitCount (Z.lxor v row)) <$> aget matrix j else aget counts j.
Proof.
  induction todo as [|todo IH]; intros n counts Hn Hm Hc; cbn [BitCountComparison].
  { exists counts. split; [done|]. split; [done|]. intros j. by rewrite decide_False by lia. }
  destruct (aget_in matrix n) as [row Hr]; [lia|]. rewrite Hr. cbn [mbind option_bind].
  rewrite aset_in by lia. cbn [mbind option_bind].
  destruct (IH (n + 1) (<[Z.to_nat n := BitCount (Z.lxor v row)]> counts)) as (c' & E & Hz & Hj);
    [lia|lia|rewrite zlen_insert; lia|].
  exists c'. split; [done|]. rewrite zlen_insert in Hz. split; [done|]. intros j. rewrite Hj.
  destruct (decide (n <= j < n + Z.of_nat (S todo))), (decide (n + 1 <= j < n + 1 + Z.of_nat todo)); try lia; try done.
  - assert (j = n) as -> by lia. rewrite Hr. by rewrite aget_insert_eq by lia.
  - by rewrite aget_insert_ne by lia.
Qed.

(** The new mean of one delay. *)
Definition next_mean (far_bit_count bit_count mean : Z) : Z :=
  if 0 <? far_bit_count then MeanEstimatorFix (s32 (Z.shiftl bit_count 9)) (mean_shifts far_bit_count) mean
  else mean.

Lemma update_means_spec far counts todo : forall n means,
  0 <= n -> n + Z.of_nat todo <= zlen far -> n + Z.of_nat todo <= zlen counts -> n + Z.of_nat todo <= zlen means ->
  exists means', update_means todo n far counts means = Some means' /\ zlen means' = zlen means /\
    forall j, aget means' j = if decide (n <= j < n + Z.of_nat todo)
                              then f ← aget far j; c ← aget counts j; m ← aget means j; Some (next_mean f c m)
                              else aget means j.
Proof.
  induction todo as [|todo IH]; intros n means Hn Hf Hc Hm; cbn [update_means].
  { exists means. split; [done|]. split; [done|]. intros j. by rewrite decide_False by lia. }
  destruct (aget_in counts n) as [c Ec]; [lia|]. rewrite Ec. cbn [mbind option_bind].
  destruct (aget_in far n) as [f Ef]; [lia|]. rewrite Ef. cbn [mbind option_bind].
  destruct (aget_in means n) as [m Em]; [lia|].
  assert (E : (if 0 <? f then mean ← aget means n;
                 aset means n (MeanEstimatorFix (s32 (Z.shiftl c 9)) (mean_shifts f) mean)
               else Some means) = Some (<[Z.to_nat n := next_mean f c m]> means)).
  { unfold next_mean. case_if; [rewrite Em; cbn [mbind option_bind]; by rewrite aset_in by lia|].
    f_equal. symmetry. apply list_insert_id. by rewrite aget_lookup in Em by lia. }
  rewrite E. cbn [mbind option_bind].
  destruct (IH (n + 1) (<[Z.to_nat n := next_mean f c m]> means)) as (m' & E' & Hz & Hj);
    [lia|lia|lia|rewrite zlen_insert; lia|].
  exists m'. split; [done|]. rewrite zlen_insert in Hz. split; [done|]. intros j. rewrite Hj.
  destruct (decide (n <= j < n + Z.of_nat (S todo))), (decide (n + 1 <= j < n + 1 + Z.of_nat todo)); try lia.
  - by rewrite aget_insert_ne by lia.
  - assert (j = n) as -> by lia. rewrite Ef, Ec, Em. cbn. by rewrite aget_insert_eq by lia.
  - by rewrite aget_insert_ne by lia.
Qed.

(** The best candidate among the delays from [n] on: the first smallest mean
    below [best0], and the largest mean. *)
Record candidate_of (means : list Z) (n k best0 worst0 cand0 best worst cand : Z) : Prop := mkCandidate {
  ca_best : forall j m, n <= j < n + k -> aget means j = Some m -> best <= m /\ m <= worst;
  ca_worst : worst0 <= worst /\ (worst = worst0 \/ exists j, n <= j < n + k /\ aget means j = Some worst);
  ca_cand : (best = best0 /\ cand = cand0) \/
            (best < best0 /\ n <= cand < n + k /\ aget means cand = Some best /\
             forall j m, n <= j < cand -> aget means j = Some m -> best < m);
}.

Lemma find_candidate_spec means todo : forall n best0 worst0 cand0,
  0 <= n -> n + Z.of_nat todo <= zlen means ->
  exists best worst cand, find_candidate todo n means best0 worst0 cand0 = Some (best, worst, cand) /\
    candidate_of means n (Z.of_nat todo) best0 worst0 cand0 best worst cand.
Proof.
  induction todo as [|todo IH]; intros n best0 worst0 cand0 Hn Hz; cbn [find_candidate].
  { exists best0, worst0, cand0. split; [done|]. split; [lia|split; [lia|by left]|by left]. }
  destruct (aget_in means n) as [m Em]; [lia|]. rewrite Em. cbn [mbind option_bind].
  set (b1 := if m <? best0 then m else best0). set (c1 := if m <? best0 then n else cand0).
  set (w1 := if worst0 <? m then m else worst0).
  replace (if m <? best0 then (m, n) else (best0, cand0)) with (b1, c1) by (subst b1 c1; by case_if).
  destruct (IH (n + 1) b1 w1 c1) as (best & worst & cand & E & C); [lia|lia|].
  exists best, worst, cand. split; [exact E|]. destruct C as [Cb Cw Cc].
  assert (Hb1 : b1 <= m /\ b1 <= best0) by (subst b1; case_if; lia).
  assert (Hw1 : m <= w1 /\ worst0 <= w1) by (subst w1; case_if; lia).
  assert (Hbest : best <= b1) by (destruct Cc as [[-> _]|[? _]]; lia).
  split.
  - intros j x Hj Hx. destruct (Z.eqb_spec j n) as [->|]; [|apply (Cb j); [lia|done]].
    rewrite Em in Hx. injection Hx as <-. lia.
  - split; [lia|]. destruct Cw as [? [->|(j & Hj & Hx)]]; [|right; exists j; split; [lia|done]].
    subst w1. case_if; [right; exists n; split; [lia|done]|by left].
  - destruct Cc as [[-> ->]|(Hlt & Hr & Hx & Hf)].
    + subst b1 c1. case_if; [right|by left]. split; [lia|]. split; [lia|]. split; [done|]. intros; lia.
    + right. split; [lia|]. split; [lia|]. split; [done|]. intros j x Hj Hjx.
      destruct (Z.eqb_spec j n) as [->|]; [|apply (Hf j); [lia|done]].
      rewrite Em in Hjx. injection Hjx as <-. lia.
Qed.

(** ** The smoothing *)

Lemma shiftr_le x f : 0 <= f -> 0 <= x -> 0 <= Z.shiftr x f <= x.
Proof.
  intros Hf Hx. rewrite Z.shiftr_div_pow2 by lia. pose proof (Z.pow_pos_nonneg 2 f).
  split; [apply Z.div_pos; lia|]. apply Z.div_le_upper_bound; [lia|]. nia.
Qed.

Lemma MeanEstimatorFix_eq a f m :
  0 <= a < 2 ^ 31 -> 0 <= m < 2 ^ 31 -> 0 <= f ->
  MeanEstimatorFix a f m = if a <? m then m - Z.shiftr (m - a) f else m + Z.shiftr (a - m) f.
Proof.
  intros Ha Hm Hf. unfold MeanEstimatorFix. rewrite (s32_id (a - m)) by (cbn in *; lia).
  pose proof (fun x => shiftr_le x f Hf) as Hs.
  destruct (Z.ltb_spec a m) as [Hlt|Hge].
  - replace (a - m <? 0) with true by lia. replace (- (a - m)) with (m - a) by lia.
    rewrite (s32_id (m - a)) by (cbn in *; lia). specialize (Hs (m - a)).
    rewrite (s32_id (- _)), s32_id by (cbn in *; lia). lia.
  - replace (a - m <? 0) with false by lia. specialize (Hs (a - m)). rewrite s32_id by (cbn in *; lia). done.
Qed.

(** The mean moves towards the new value, at least by the fraction it can see. *)
Lemma MeanEstimatorFix_between a f m :
  0 <= a < 2 ^ 31 -> 0 <= m < 2 ^ 31 -> 0 <= f ->
  Z.min a m <= MeanEstimatorFix a f m <= Z.max a m.
Proof.
  intros Ha Hm Hf. rewrite MeanEstimatorFix_eq by done.
  pose proof (fun x => shiftr_le x f Hf) as Hs.
  case_if; [specialize (Hs (m - a))|specialize (Hs (a - m))]; lia.
Qed.

Lemma MeanEstimatorFix_down a f m k :
  0 <= a < 2 ^ 31 -> 0 <= m < 2 ^ 31 -> 0 <= f -> 0 < k -> k * 2 ^ f <= m - a ->
  MeanEstimatorFix a f m <= m - k.
Proof.
  intros Ha Hm Hf Hk H. pose proof (Z.pow_pos_nonneg 2 f). rewrite MeanEstimatorFix_eq by done.
  replace (a <? m) with true by nia. rewrite Z.shiftr_div_pow2 by lia.
  assert (k <= (m - a) / 2 ^ f) by (apply Z.div_le_lower_bound; lia). lia.
Qed.

Lemma popcount_range n : forall u, 0 <= popcount n u <= Z.of_nat n.
Proof.
  induction n as [|n IH]; intros u; cbn [popcount]; [lia|].
  specialize (IH (u / 2)). pose proof (Z.mod_pos_bound u 2). lia.
Qed.

Lemma popcount32_range u : 0 <= popcount 32 u <= 32.
Proof. apply (popcount_range 32). Qed.

Lemma mean_shifts_range c : 0 <= c <= 32 -> 7 <= mean_shifts c <= 13.
Proof.
  unfold mean_shifts, kShiftsAtZero, kShiftsLinearSlope. intros H. rewrite Z.shiftr_div_pow2 by lia.
  change (2 ^ 4) with 16. wrap_lia.
Qed.

(** ** The invariant *)

(** The number of bits in which two spectra differ. *)
Definition dist (a b : Z) : Z := popcount 32 (Z.lxor a b).

Lemma lxor_u32 a b : in_u32 a -> in_u32 b -> in_u32 (Z.lxor a b).
Proof.
  unfold in_u32. intros Ha Hb.
  assert (E : Z.lxor a b = Z.lxor a b mod 2 ^ 32).
  { rewrite <-Z.land_ones by lia. apply Z.bits_inj'. intros i Hi.
    rewrite Z.land_spec, Z.lxor_spec, Z.testbit_ones_nonneg by lia.
    destruct (Z.ltb_spec i 32); [by rewrite andb_true_r|]. rewrite andb_false_r.
    assert (Hbit : forall x, 0 <= x < 4294967296 -> Z.testbit x i = false).
    { intros x Hx. destruct (Z.eqb_spec x 0) as [->|]; [apply Z.bits_0|]. apply Z.bits_above_log2; [lia|].
      assert (Z.log2 x < 32) by (apply Z.log2_lt_pow2; lia). lia. }
    by rewrite !Hbit. }
  rewrite E. apply Z.mod_pos_bound. lia.
Qed.

Lemma dist_range a b : 0 <= dist a b <= 32.
Proof. apply popcount_range. Qed.

Record far_inv (n : Z) (f : BinaryDelayEstimatorFarend) : Prop := mkFarInv {
  fi_size : bf_history_size f = n;
  fi_two : 1 < n;
  fi_history : zlen (bf_binary_far_history f) = n;
  fi_spectra : Forall in_u32 (bf_binary_far_history f);
  fi_counts : bf_far_bit_counts f = popcount 32 <$> bf_binary_far_history f;
}.

(** All means are at most 32 in Q9, the value the search starts from. *)
Definition mean_ok (m : Z) : Prop := 0 <= m <= 16384.

Record est_inv (n : Z) (e : BinaryDelayEstimator) : Prop := mkEstInv {
  ei_means : zlen (est_mean_bit_counts e) = n;
  ei_mean : Forall mean_ok (est_mean_bit_counts e);
  ei_counts : zlen (est_bit_counts e) = n;
  ei_near : zlen (est_binary_near_history e) = est_near_history_size e;
  ei_near_size : 1 <= est_near_history_size e;
  ei_spectra : Forall in_u32 (est_binary_near_history e);
  ei_minimum : kProbabilityLowerLimit <= est_minimum_probability e <= 16384;
  ei_level : in_s32 (est_last_delay_probability e);
  ei_delay : est_last_delay e = -2 \/ 0 <= est_last_delay e < n;
}.

Lemma far_created n hist counts :
  zlen hist = n -> zlen counts = n -> 1 < n ->
  exists f f', CreateBinaryDelayEstimatorFarend (Some hist) (Some counts) n = Some f /\
    InitBinaryDelayEstimatorFarend f = Some f' /\ far_inv n f' /\
    bf_binary_far_history f' = replicate (Z.to_nat n) 0.
Proof.
  intros Hh Hc Hn. unfold CreateBinaryDelayEstimatorFarend. replace (1 <? n) with true by lia. cbn.
  eexists _, _. split; [reflexivity|]. unfold InitBinaryDelayEstimatorFarend. cbn.
  rewrite !zero_fill_spec by done. split; [reflexivity|]. split; [|reflexivity]. split; cbn; try done.
  - rewrite zlen_replicate. lia.
  - apply Forall_replicate. cbn. lia.
  - by rewrite fmap_replicate.
Qed.

Lemma est_created n f mean counts near lookahead mp lp ld :
  far_inv n f -> 0 <= lookahead -> zlen mean = n -> zlen counts = n -> zlen near = lookahead + 1 ->
  exists e e', CreateBinaryDelayEstimator (Some mean) (Some counts) (Some near) mp lp ld lookahead = Some e /\
    InitBinaryDelayEstimator e f = Some e' /\ est_inv n e' /\
    e' = mkEst (replicate (Z.to_nat n) 10240) (replicate (Z.to_nat n) 0)
           (replicate (Z.to_nat (lookahead + 1)) 0) (lookahead + 1) 16384 16384 (-2).
Proof.
  intros Hf Hl Hm Hc Hn. destruct Hf. unfold CreateBinaryDelayEstimator. replace (0 <=? lookahead) with true by lia. cbn.
  eexists _, (mkEst (replicate (Z.to_nat n) 10240) (replicate (Z.to_nat n) 0)
    (replicate (Z.to_nat (lookahead + 1)) 0) (lookahead + 1) 16384 16384 (-2)).
  split; [reflexivity|]. unfold InitBinaryDelayEstimator. cbn. rewrite fi_size0.
  rewrite !zero_fill_spec by done. cbn. rewrite astore_all by (rewrite zlen_replicate; lia).
  split; [reflexivity|]. split; [|reflexivity].
  split; cbn [est_mean_bit_counts est_bit_counts est_binary_near_history est_near_history_size
    est_minimum_probability est_last_delay_probability est_last_delay]; rewrite ?zlen_replicate; try lia.
  - apply Forall_replicate. unfold mean_ok. lia.
  - apply Forall_replicate. cbn. lia.
  - unfold kProbabilityLowerLimit. lia.
  - cbn. lia.
Qed.

Lemma AddBinaryFarSpectrum_spec n f x :
  far_inv n f -> in_u32 x ->
  exists f', AddBinaryFarSpectrum f x = Some f' /\ far_inv n f' /\
    bf_binary_far_history f' = pushed (bf_binary_far_history f) x.
Proof.
  intros [Hs Hn Hl Hf Hc] Hx. unfold AddBinaryFarSpectrum. rewrite Hs.
  rewrite Hc, !shift_history_spec by (rewrite ?zlen_fmap; lia). cbn [mbind option_bind].
  eexists. split; [reflexivity|]. split; [|reflexivity]. split; cbn; try done.
  - rewrite zlen_pushed by lia. done.
  - by apply Forall_pushed.
  - unfold pushed. rewrite BitCount_popcount, length_fmap by done. cbn [fmap list_fmap]. f_equal. by rewrite <-fmap_take.
Qed.

(** ** One block *)

(** The near end history and the spectrum that is compared after a call. *)
Definition near_after (e : BinaryDelayEstimator) (x : Z) : list Z :=
  if 1 <? est_near_history_size e then pushed (est_binary_near_history e) x else est_binary_near_history e.

Definition compared (e : BinaryDelayEstimator) (x : Z) : Z :=
  if 1 <? est_near_history_size e
  then default 0 (aget (pushed (est_binary_near_history e) x) (est_near_history_size e - 1)) else x.

Lemma near_delay_spec n e x :
  est_inv n e -> in_u32 x ->
  near_delay e x = Some (compared e x, e <| est_binary_near_history := near_after e x |>) /\
  in_u32 (compared e x) /\ Forall in_u32 (near_after e x) /\ zlen (near_after e x) = est_near_history_size e.
Proof.
  intros [? ? ? Hz Hs Hf ? ? ?] Hx. unfold near_delay, compared, near_after. case_if; [|by destruct e].
  rewrite shift_history_spec by lia. cbn [mbind option_bind].
  assert (Hp : Forall in_u32 (pushed (est_binary_near_history e) x)) by by apply Forall_pushed.
  assert (Hl : zlen (pushed (est_binary_near_history e) x) = est_near_history_size e) by (rewrite zlen_pushed; lia).
  destruct (aget_in (pushed (est_binary_near_history e) x) (est_near_history_size e - 1)) as [y Ey]; [lia|].
  rewrite Ey. cbn [mbind option_bind default]. split; [done|]. split; [|done]. by eapply aget_Forall.
Qed.

(** The answer changes when the valley is distinct and deep enough. *)
Definition reliable (best worst : Z) : bool := best + kProbabilityOffset <? worst.

Definition accepted (best worst minimum level : Z) : bool :=
  reliable best worst && ((best <? minimum) || (best <? s32 (level + 1))).

(** What a call of [ProcessBinarySpectrum] does. *)
Record processed (n : Z) (hist : list Z) (e : BinaryDelayEstimator) (x : Z) (e' : BinaryDelayEstimator)
    (best worst cand : Z) : Prop := mkProcessed {
  pr_near : est_binary_near_history e' = near_after e x;
  pr_near_size : est_near_history_size e' = est_near_history_size e;
  pr_means : forall j m h, aget (est_mean_bit_counts e) j = Some m -> aget hist j = Some h ->
    aget (est_mean_bit_counts e') j = Some (next_mean (popcount 32 h) (dist (compared e x) h) m);
  pr_candidate : candidate_of (est_mean_bit_counts e') 0 n 16384 0 (-1) best worst cand;
  pr_minimum : est_minimum_probability e' = update_minimum (est_minimum_probability e) best worst;
  pr_delay : est_last_delay e' =
    if accepted best worst (est_minimum_probability e') (est_last_delay_probability e) then cand else est_last_delay e;
  pr_level : est_last_delay_probability e' =
    if reliable best worst && (best <? s32 (est_last_delay_probability e + 1)) then best
    else s32 (est_last_delay_probability e + 1);
}.

Lemma decide_delay_eq e best worst cand :
  let e' := decide_delay e best worst cand in
  est_mean_bit_counts e' = est_mean_bit_counts e /\ est_bit_counts e' = est_bit_counts e /\
  est_binary_near_history e' = est_binary_near_history e /\
  est_near_history_size e' = est_near_history_size e /\
  est_minimum_probability e' = update_minimum (est_minimum_probability e) best worst /\
  est_last_delay e' =
    (if accepted best worst (est_minimum_probability e') (est_last_delay_probability e) then cand else est_last_delay e) /\
  est_last_delay_probability e' =
    (if reliable best worst && (best <? s32 (est_last_delay_probability e + 1)) then best
     else s32 (est_last_delay_probability e + 1)).
Proof.
  unfold decide_delay, accepted, reliable. destruct e. cbn.
  destruct (best + kProbabilityOffset <? worst); cbn; [|repeat split].
  generalize (update_minimum est_minimum_probability best worst). intros mn.
  generalize (s32 (est_last_delay_probability + 1)). intros lv.
  destruct (best <? mn) eqn:E1; cbn; destruct (best <? lv) eqn:E2; cbn; rewrite ?E1, ?E2; repeat split.
Qed.

Lemma update_minimum_range minimum best worst :
  kProbabilityLowerLimit <= minimum <= 16384 -> 
  kProbabilityLowerLimit <= update_minimum minimum best worst <= minimum.
Proof. unfold update_minimum. intros H. repeat case_if; cbn in *; lia. Qed.

Lemma next_mean_ok far bits m :
  0 <= far <= 32 -> 0 <= bits <= 32 -> mean_ok m ->
  mean_ok (next_mean far bits m) /\ Z.min (512 * bits) m <= next_mean far bits m <= Z.max (512 * bits) m.
Proof.
  intros Hf Hb Hm. unfold next_mean, mean_ok in *. case_if; [|lia].
  rewrite Z.shiftl_mul_pow2 by lia. change (2 ^ 9) with 512. rewrite s32_id by (cbn; lia).
  pose proof (mean_shifts_range far). pose proof (MeanEstimatorFix_between (bits * 512) (mean_shifts far) m). lia.
Qed.

(** A distinct valley has a candidate. *)
Lemma candidate_valid means n best worst cand :
  Forall mean_ok means -> candidate_of means 0 n 16384 0 (-1) best worst cand ->
  0 <= best <= 16384 /\ (reliable best worst = true -> 0 <= cand < n).
Proof.
  intros Hok [_ [Hw0 Hw] Hc]. unfold reliable, kProbabilityOffset.
  assert (Hworst : worst <= 16384).
  { destruct Hw as [->|(j & _ & Hj)]; [lia|]. pose proof (aget_Forall _ _ _ _ Hok Hj) as [? ?]. lia. }
  destruct Hc as [[-> ->]|(Hlt & Hr & Hx & _)]; [lia|].
  pose proof (aget_Forall _ _ _ _ Hok Hx) as [? ?]. lia.
Qed.

Lemma ProcessBinarySpectrum_spec n f e x :
  far_inv n f -> est_inv n e -> in_u32 x ->
  exists e' best worst cand, ProcessBinarySpectrum e f x = Some (est_last_delay e', e') /\ est_inv n e' /\
    processed n (bf_binary_far_history f) e x e' best worst cand.
Proof.
  intros Hf He Hx. pose proof (near_delay_spec n e x He Hx) as (E & Hc & Hn & Hz).
  destruct Hf as [Fs F2 Fh Ff Fc], He as [Em Ef Ec En Es Esp Emin El Ed].
  unfold ProcessBinarySpectrum. rewrite E, Fs. cbn [mbind option_bind].
  destruct (BitCountComparison_spec (compared e x) (bf_binary_far_history f) (Z.to_nat n) 0 (est_bit_counts e))
    as (counts & E1 & Z1 & J1); [lia|lia|lia|].
  cbn. rewrite E1. cbn [mbind option_bind].
  destruct (update_means_spec (bf_far_bit_counts f) counts (Z.to_nat n) 0 (est_mean_bit_counts e))
    as (means & E2 & Z2 & J2); [lia|rewrite Fc, zlen_fmap; lia|lia|lia|].
  rewrite E2. cbn [mbind option_bind].
  destruct (find_candidate_spec means (Z.to_nat n) 0 16384 0 (-1)) as (best & worst & cand & E3 & C3); [lia|lia|].
  change (Z.shiftl 32 9) with 16384. rewrite E3. cbn [mbind option_bind].
  eexists _, best, worst, cand. split; [reflexivity|].
  match goal with |- context [decide_delay ?e0 _ _ _] => set (e1 := e0) end.
  pose proof (decide_delay_eq e1 best worst cand) as D. cbn zeta in D.
  set (e' := decide_delay e1 best worst cand) in *.
  destruct D as (D1 & D2 & D3 & D4 & D5 & D6 & D7).
  assert (M1 : est_mean_bit_counts e1 = means) by reflexivity. rewrite M1 in D1.
  assert (M2 : est_bit_counts e1 = counts) by reflexivity. rewrite M2 in D2.
  assert (M3 : est_binary_near_history e1 = near_after e x) by reflexivity. rewrite M3 in D3.
  assert (M4 : est_near_history_size e1 = est_near_history_size e) by reflexivity. rewrite M4 in D4.
  assert (M5 : est_minimum_probability e1 = est_minimum_probability e) by reflexivity. rewrite M5 in D5.
  assert (M6 : est_last_delay_probability e1 = est_last_delay_probability e) by reflexivity. rewrite M6 in D6, D7.
  assert (M7 : est_last_delay e1 = est_last_delay e) by reflexivity. rewrite M7 in D6.
  clearbody e' e1. clear M1 M2 M3 M4 M5 M6 M7 e1.
  (* the means *)
  assert (J : forall j m h, aget (est_mean_bit_counts e) j = Some m -> aget (bf_binary_far_history f) j = Some h ->
    aget means j = Some (next_mean (popcount 32 h) (dist (compared e x) h) m)).
  { intros j m h Hm Hh. pose proof (aget_Some_range _ _ _ Hm) as Hj. rewrite J2, decide_True by lia.
    rewrite Fc, aget_fmap, Hh, Hm, J1, decide_True, Hh by lia. cbn.
    rewrite BitCount_popcount; [done|]. apply lxor_u32; [done|]. apply (aget_Forall in_u32 _ _ _ Ff Hh). }
  assert (Hok : Forall mean_ok means).
  { apply list.Forall_lookup. intros i m Hi.
    assert (Hr : (i < length means)%nat) by (eapply lookup_lt_Some; done).
    assert (Hi' : aget means (Z.of_nat i) = Some m) by (rewrite aget_lookup by lia; by rewrite Nat2Z.id).
    unfold zlen in *.
    destruct (aget_in (est_mean_bit_counts e) (Z.of_nat i)) as [m0 Hm0]; [unfold zlen; lia|].
    destruct (aget_in (bf_binary_far_history f) (Z.of_nat i)) as [h Hh]; [unfold zlen; lia|].
    rewrite (J _ _ _ Hm0 Hh) in Hi'. injection Hi' as <-.
    apply next_mean_ok; [apply popcount32_range|apply dist_range|]. apply (aget_Forall mean_ok _ _ _ Ef Hm0). }
  rewrite Z2Nat.id in C3 by lia.
  pose proof (update_minimum_range _ best worst Emin) as Hmin.
  split; split; rewrite ?D1, ?D2, ?D3, ?D4; try done; try lia.
  - rewrite D7. case_if; [|apply s32_range].
    destruct (candidate_valid _ _ _ _ _ Hok C3) as (Hb & _). cbn. lia.
  - rewrite D6. unfold accepted. destruct (reliable best worst) eqn:Hrel; cbn [andb]; [|done].
    destruct (candidate_valid _ _ _ _ _ Hok C3) as (_ & Hc'). specialize (Hc' Hrel). case_if; [right; lia|done].
Qed.
