(* ===== verification/DelayEstTrack.v ===== *)
(** The delay estimator finds a delay: if from some block on the near end
    equals the far end [D] blocks earlier up to a few bits, and differs more from
    all other rows of the history, the estimate becomes [D] and stays. *)
From S2P Require Import Prelude DelayEst DelayEstInv.

Section Track.
#[local] Set Default Proof Using "All".

(** The history has [n] rows, the lookahead is [L]; the binary spectra of block
    [t] are [far t] and [near t], both 0 before the first block. *)
Context (n L D h : Z) (far near : Z -> Z).
Hypothesis Hn : 1 < n.
Hypothesis HL : 0 <= L.
Hypothesis HD : 0 <= D < n.
Hypothesis Hh : 0 <= h <= 14.
Hypothesis Hfar : forall t, in_u32 (far t).
Hypothesis Hnear : forall t, in_u32 (near t).
Hypothesis Hfar0 : forall t, t < 0 -> far t = 0.
Hypothesis Hnear0 : forall t, t < 0 -> near t = 0.

(** In block [t]: enough bits are set, and row [D] matches. *)
Definition row_matches (t : Z) : Prop :=
  D <= t -> 16 <= popcount 32 (far (t - D)) /\ dist (near (t - L)) (far (t - D)) <= h.

(** The other rows with a signal differ in 18 bits or more. *)
Definition others_differ (t : Z) : Prop :=
  forall i, 0 <= i < n -> i <> D -> i <= t -> 0 < popcount 32 (far (t - i)) ->
    18 <= dist (near (t - L)) (far (t - i)).

(** The fall of the mean of row [D] per block, in Q9. *)
Definition rate : Z := (16 - h) / 2.

(** Before block [t]. *)
Record tracking (t : Z) (f : BinaryDelayEstimatorFarend) (e : BinaryDelayEstimator) : Prop := mkTracking {
  tr_far : far_inv n f;
  tr_est : est_inv n e;
  tr_history : forall i, 0 <= i < n -> aget (bf_binary_far_history f) i = Some (far (t - 1 - i));
  tr_size : est_near_history_size e = L + 1;
  tr_near : 0 < L -> forall i, 0 <= i <= L -> aget (est_binary_near_history e) i = Some (near (t - 1 - i));
  tr_others : forall i m, i <> D -> aget (est_mean_bit_counts e) i = Some m -> 9216 <= m;
  tr_row : forall m, aget (est_mean_bit_counts e) D = Some m ->
    m < 8192 \/ m <= 10240 - rate * Z.max 0 (t - D);
}.

Lemma tracking_compared t f e : tracking t f e -> 0 <= t -> compared e (near t) = near (t - L).
Proof.
  intros [_ He _ Hs Hnr _ _] Ht. unfold compared. rewrite Hs. case_if.
  - destruct He as [_ _ _ Hz _ _ _ _ _]. rewrite Hs in Hz.
    rewrite aget_pushed by lia. replace (L + 1 - 1 =? 0) with false by lia.
    rewrite Hnr by lia. cbn. f_equal. lia.
  - f_equal. lia.
Qed.

Lemma rate_pos : 1 <= rate.
Proof. unfold rate. pose proof Hh. Z.to_euclidean_division_equations. lia. Qed.

(** The mean of row [D] after block [t]. *)
Lemma row_falls t m :
  0 <= t -> row_matches t -> mean_ok m -> m < 8192 \/ m <= 10240 - rate * Z.max 0 (t - D) ->
  let m' := next_mean (popcount 32 (far (t - D))) (dist (near (t - L)) (far (t - D))) m in
  m' < 8192 \/ m' <= 10240 - rate * Z.max 0 (t + 1 - D).
Proof.
  intros Ht Hm Hok H m'. destruct (Z.lt_ge_cases t D) as [Hlt|Hge].
  - subst m'. rewrite Hfar0 by lia. replace (Z.max 0 (t + 1 - D)) with (Z.max 0 (t - D)) by lia. exact H.
  - destruct (Hm Hge) as (H16 & Hd). pose proof (popcount32_range (far (t - D))) as Hp.
    pose proof (dist_range (near (t - L)) (far (t - D))) as Hr.
    destruct (next_mean_ok _ _ m Hp Hr Hok) as (_ & Hb). fold m' in Hb.
    destruct (Z.lt_ge_cases m 8192) as [Hlow|Hhigh]; [left; lia|]. destruct H as [H|H]; [lia|].
    right. replace (Z.max 0 (t + 1 - D)) with (Z.max 0 (t - D) + 1) by lia.
    cut (m' <= m - rate); [nia|]. subst m'. unfold next_mean.
    replace (0 <? popcount 32 (far (t - D))) with true by lia.
    rewrite Z.shiftl_mul_pow2 by lia. change (2 ^ 9) with 512.
    rewrite s32_id by (unfold in_s32; lia). unfold mean_ok in Hok.
    assert (Hs : 7 <= mean_shifts (popcount 32 (far (t - D))) <= 10).
    { revert H16 Hp. generalize (popcount 32 (far (t - D))). intros c ? ?.
      unfold mean_shifts, kShiftsAtZero, kShiftsLinearSlope. rewrite Z.shiftr_div_pow2 by lia.
      change (2 ^ 4) with 16. wrap_lia. }
    pose proof rate_pos as Hrp.
    apply MeanEstimatorFix_down; [lia|lia|lia|lia|].
    apply Z.le_trans with (rate * 2 ^ 10).
    + apply Z.mul_le_mono_nonneg_l; [lia|]. apply Z.pow_le_mono_r; lia.
    + change (2 ^ 10) with 1024. assert (rate * 2 <= 16 - h) by (unfold rate; Z.to_euclidean_division_equations; lia).
      lia.
Qed.

(** The other means stay high. *)
Lemma others_stay t i m :
  0 <= t -> others_differ t -> 0 <= i < n -> i <> D -> mean_ok m -> 9216 <= m ->
  9216 <= next_mean (popcount 32 (far (t - i))) (dist (near (t - L)) (far (t - i))) m.
Proof.
  intros Ht Ho Hi HiD Hok Hm.
  pose proof (popcount32_range (far (t - i))) as Hp. pose proof (dist_range (near (t - L)) (far (t - i))) as Hr.
  destruct (Z.eqb_spec (popcount 32 (far (t - i))) 0) as [E|E].
  { rewrite E. exact Hm. }
  destruct (next_mean_ok _ _ m Hp Hr Hok) as (_ & Hb).
  assert (i <= t) by (destruct (Z.le_gt_cases i t); [done|]; rewrite Hfar0 in E by lia; done).
  specialize (Ho i Hi HiD ltac:(done) ltac:(lia)). lia.
Qed.

(** A low mean in row [D] only is accepted. *)
Lemma valley_found e best worst cand mD level :
  est_inv n e -> candidate_of (est_mean_bit_counts e) 0 n 16384 0 (-1) best worst cand ->
  (forall i m, i <> D -> aget (est_mean_bit_counts e) i = Some m -> 9216 <= m) ->
  aget (est_mean_bit_counts e) D = Some mD -> mD < 8192 ->
  accepted best worst (est_minimum_probability e) level = true /\ cand = D.
Proof.
  intros He [Cb _ Cc] Hoth HmD Hlow.
  destruct (Cb D mD) as [Hbest _]; [lia|done|].
  assert (Hworst : 9216 <= worst).
  { set (j := if D =? 0 then 1 else 0).
    assert (Hj : 0 <= j < n /\ j <> D) by (subst j; case_if; lia).
    destruct (aget_in (est_mean_bit_counts e) j) as [m Em]; [rewrite (ei_means _ _ He); lia|].
    destruct (Cb j m) as [_ ?]; [lia|done|]. specialize (Hoth j m ltac:(lia) Em). lia. }
  pose proof (ei_minimum _ _ He) as Hmin. unfold kProbabilityLowerLimit in Hmin.
  split.
  - unfold accepted, reliable, kProbabilityOffset.
    replace (best + 1024 <? worst) with true by lia. by replace (best <? est_minimum_probability e) with true by lia.
  - destruct Cc as [[? _]|(_ & _ & Hx & _)]; [lia|].
    destruct (Z.eqb_spec cand D) as [|Hne]; [done|]. specialize (Hoth cand best Hne Hx). lia.
Qed.

(** One block: both spectra arrive, and the answer is [D] once the mean of its
    row is low. *)
Lemma tracking_block t f e f' :
  0 <= t -> tracking t f e -> row_matches t -> others_differ t ->
  AddBinaryFarSpectrum f (far t) = Some f' ->
  exists a e', ProcessBinarySpectrum e f' (near t) = Some (a, e') /\ tracking (t + 1) f' e' /\
    (2048 < rate * (t + 1 - D) -> a = D).
Proof.
  intros Ht Htr Hrow Hoth Ef. pose proof Htr as [Tf Te Thi Tsz Tnr Tot Trw].
  destruct (AddBinaryFarSpectrum_spec n f (far t) Tf (Hfar t)) as (f1 & E1 & Tf1 & H1).
  rewrite Ef in E1. injection E1 as <-.
  destruct (ProcessBinarySpectrum_spec n f' e (near t) Tf1 Te (Hnear t)) as (e' & best & worst & cand & E2 & Te' & P).
  exists (est_last_delay e'), e'. split; [exact E2|].
  rewrite H1 in P. destruct P as [Pn Ps Pm Pc Pmin Pd _].
  rewrite (tracking_compared t f e Htr Ht) in Pm.
  assert (Hrows : forall i, 0 <= i < n -> aget (pushed (bf_binary_far_history f) (far t)) i = Some (far (t - i))).
  { intros i Hi. rewrite aget_pushed by (destruct Tf; lia). case_if; [subst i; do 2 f_equal; lia|].
    rewrite Thi by lia. do 2 f_equal. lia. }
  assert (Hmean : forall i, 0 <= i < n -> exists m, aget (est_mean_bit_counts e) i = Some m /\ mean_ok m).
  { intros i Hi. destruct (aget_in (est_mean_bit_counts e) i) as [m Em]; [destruct Te; lia|].
    exists m. split; [done|]. destruct Te. by eapply (aget_Forall mean_ok). }
  assert (Hoth' : forall i m, i <> D -> aget (est_mean_bit_counts e') i = Some m -> 9216 <= m).
  { intros i m HiD Hm. pose proof (aget_Some_range _ _ _ Hm) as Hi. rewrite (ei_means _ _ Te') in Hi.
    destruct (Hmean i Hi) as (m0 & Em & Hok). rewrite (Pm _ _ _ Em (Hrows i Hi)) in Hm. injection Hm as <-.
    apply others_stay; [done..|]. by apply (Tot i). }
  assert (Hrow' : exists m, aget (est_mean_bit_counts e') D = Some m /\
            (m < 8192 \/ m <= 10240 - rate * Z.max 0 (t + 1 - D))).
  { destruct (Hmean D HD) as (m0 & Em & Hok). eexists. split; [apply (Pm _ _ _ Em (Hrows D HD))|].
    apply row_falls; auto. }
  destruct Hrow' as (mD & EmD & HmD). split.
  - split; [done|done| | | |done|].
    + intros i Hi. rewrite H1, Hrows by done. do 2 f_equal. lia.
    + lia.
    + intros HLp i Hi. rewrite Pn. unfold near_after. rewrite Tsz. replace (1 <? L + 1) with true by lia.
      rewrite aget_pushed by (rewrite (ei_near _ _ Te); lia). case_if; [subst i; do 2 f_equal; lia|].
      rewrite Tnr by lia. do 2 f_equal. lia.
    + intros m Hm. rewrite EmD in Hm. by injection Hm as <-.
  - intros Hlong. assert (Hlow : mD < 8192) by (pose proof rate_pos; destruct HmD; nia).
    destruct (valley_found _ best worst cand mD (est_last_delay_probability e) Te' Pc Hoth' EmD Hlow) as (Ha & ->).
    by rewrite Pd, Ha.
Qed.

End Track.
