(* ===== verification/DelayWrap.v ===== *)
(** The fixed-point interface of the delay estimator:
    [modules/audio_processing/utility/delay_estimator_wrapper.c].  Spectra
    become binary spectra by comparison with a slowly adapting threshold. *)
From S2P Require Import Prelude DelayEst DelayEstInv.

Definition kBandFirst : Z := 12.
Definition kBandLast : Z := 43.

Record DelayEstimatorFarend := mkFar {
  mean_far_spectrum : list Z;
  far_spectrum_initialized : Z;
  far_spectrum_size : Z;
  binary_farend : BinaryDelayEstimatorFarend;
}.
#[export] Instance eta_far : Eta DelayEstimatorFarend :=
  fun r => mkFar (mean_far_spectrum r) (far_spectrum_initialized r) (far_spectrum_size r) (binary_farend r).

Record DelayEstimator := mkNear {
  mean_near_spectrum : list Z;
  near_spectrum_initialized : Z;
  near_spectrum_size : Z;
  binary_handle : BinaryDelayEstimator;
}.
#[export] Instance eta_near : Eta DelayEstimator :=
  fun r => mkNear (mean_near_spectrum r) (near_spectrum_initialized r) (near_spectrum_size r) (binary_handle r).

Definition SetBit (inp pos : Z) : Z := Z.lor inp (u32 (Z.shiftl 1 pos)).

Definition spectrum_q15 (x q_domain : Z) : Z := s32 (Z.shiftl x (15 - q_domain)).

(** The first spectrum with a signal sets the thresholds. *)
Fixpoint init_threshold (todo : nat) (i : Z) (spectrum threshold : list Z) (q_domain initialized : Z)
    : option (list Z * Z) :=
  match todo with
  | O => Some (threshold, initialized)
  | S todo =>
      x ← aget spectrum i;
      r ← (if 0 <? x then
             threshold ← aset threshold i (Z.shiftr (spectrum_q15 x q_domain) 1);
             Some (threshold, 1)
           else Some (threshold, initialized));
      init_threshold todo (i + 1) spectrum r.1 q_domain r.2
  end.

Fixpoint threshold_bits (todo : nat) (i : Z) (spectrum threshold : list Z) (q_domain out : Z)
    : option (Z * list Z) :=
  match todo with
  | O => Some (out, threshold)
  | S todo =>
      x ← aget spectrum i;
      t ← aget threshold i;
      let t := MeanEstimatorFix (spectrum_q15 x q_domain) 6 t in
      threshold ← aset threshold i t;
      let out := if t <? spectrum_q15 x q_domain then SetBit out (i - kBandFirst) else out in
      threshold_bits todo (i + 1) spectrum threshold q_domain out
  end.

(** The binary spectrum, the thresholds and their indicator. *)
Definition BinarySpectrumFix (spectrum threshold_spectrum : list Z) (q_domain threshold_initialized : Z)
    : option (Z * list Z * Z) :=
  let bands := Z.to_nat (kBandLast - kBandFirst + 1) in
  r ← (if threshold_initialized =? 0
       then init_threshold bands kBandFirst spectrum threshold_spectrum q_domain threshold_initialized
       else Some (threshold_spectrum, threshold_initialized));
  b ← threshold_bits bands kBandFirst spectrum r.1 q_domain 0;
  Some (b, r.2).

(** Creation: [mem_self] tells if the object could be allocated, the other
    arguments [mem_*] are as in [CreateBinaryDelayEstimatorFarend], and
    [initialized] is a field that stays uninitialised.  [None] is a null pointer. *)
Definition CreateDelayEstimatorFarend (mem_self : bool) (mem_history mem_counts mem_mean : option (list Z))
    (initialized : Z) (spectrum_size history_size : Z) : option DelayEstimatorFarend :=
  if negb (kBandLast <=? spectrum_size) then None else
  if negb mem_self then None else
  farend ← CreateBinaryDelayEstimatorFarend mem_history mem_counts history_size;
  mean ← mem_mean;
  Some (mkFar mean initialized spectrum_size farend).

Definition InitDelayEstimatorFarend (handle : option DelayEstimatorFarend)
    : option (Z * option DelayEstimatorFarend) :=
  match handle with
  | None => Some (-1, None)
  | Some self =>
      farend ← InitBinaryDelayEstimatorFarend (binary_farend self);
      mean ← zero_fill (mean_far_spectrum self) (far_spectrum_size self);
      Some (0, Some (self <| binary_farend := farend |> <| mean_far_spectrum := mean |>
                          <| far_spectrum_initialized := 0 |>))
  end.

Definition AddFarSpectrumFix (handle : option DelayEstimatorFarend) (far_spectrum : option (list Z))
    (spectrum_size far_q : Z) : option (Z * option DelayEstimatorFarend) :=
  match handle, far_spectrum with
  | Some self, Some far_spectrum =>
      if negb (spectrum_size =? far_spectrum_size self) then Some (-1, handle) else
      if 15 <? far_q then Some (-1, handle) else
      b ← BinarySpectrumFix far_spectrum (mean_far_spectrum self) far_q (far_spectrum_initialized self);
      let '(binary_spectrum, mean, initialized) := b in
      farend ← AddBinaryFarSpectrum (binary_farend self) binary_spectrum;
      Some (0, Some (self <| mean_far_spectrum := mean |> <| far_spectrum_initialized := initialized |>
                          <| binary_farend := farend |>))
  | _, _ => Some (-1, handle)
  end.

Definition CreateDelayEstimator (mem_self : bool) (mem_mean mem_counts mem_near mem_spectrum : option (list Z))
    (minimum probability last initialized : Z) (farend_handle : option DelayEstimatorFarend) (lookahead : Z)
    : option DelayEstimator :=
  farend ← farend_handle;
  if negb mem_self then None else
  handle ← CreateBinaryDelayEstimator mem_mean mem_counts mem_near minimum probability last lookahead;
  spectrum ← mem_spectrum;
  Some (mkNear spectrum initialized (far_spectrum_size farend) handle).

Definition InitDelayEstimator (handle : option DelayEstimator) (farend : BinaryDelayEstimatorFarend)
    : option (Z * option DelayEstimator) :=
  match handle with
  | None => Some (-1, None)
  | Some self =>
      binary ← InitBinaryDelayEstimator (binary_handle self) farend;
      mean ← zero_fill (mean_near_spectrum self) (near_spectrum_size self);
      Some (0, Some (self <| binary_handle := binary |> <| mean_near_spectrum := mean |>
                          <| near_spectrum_initialized := 0 |>))
  end.

Definition DelayEstimatorProcessFix (handle : option DelayEstimator) (farend : BinaryDelayEstimatorFarend)
    (near_spectrum : option (list Z)) (spectrum_size near_q : Z) : option (Z * option DelayEstimator) :=
  match handle, near_spectrum with
  | Some self, Some near_spectrum =>
      if negb (spectrum_size =? near_spectrum_size self) then Some (-1, handle) else
      if 15 <? near_q then Some (-1, handle) else
      b ← BinarySpectrumFix near_spectrum (mean_near_spectrum self) near_q (near_spectrum_initialized self);
      let '(binary_spectrum, mean, initialized) := b in
      r ← ProcessBinarySpectrum (binary_handle self) farend binary_spectrum;
      Some (r.1, Some (self <| mean_near_spectrum := mean |> <| near_spectrum_initialized := initialized |>
                            <| binary_handle := r.2 |>))
  | _, _ => Some (-1, handle)
  end.

Definition last_delay (handle : option DelayEstimator) : Z :=
  match handle with
  | None => -1
  | Some self => binary_last_delay (binary_handle self)
  end.

Definition last_delay_quality (handle : option DelayEstimator) : Z :=
  match handle with
  | None => -1
  | Some self => binary_last_delay_quality (binary_handle self)
  end.

(** ** Binary spectra *)

Definition threshold_ok (t : Z) : Prop := 0 <= t < 2 ^ 31.

Definition spectrum_ok (size q : Z) (spectrum : list Z) : Prop :=
  zlen spectrum = size /\ Forall in_u16 spectrum /\ 0 <= q <= 15.

Lemma spectrum_q15_range x q : in_u16 x -> 0 <= q <= 15 -> spectrum_q15 x q = x * 2 ^ (15 - q) /\ threshold_ok (spectrum_q15 x q).
Proof.
  unfold in_u16, threshold_ok, spectrum_q15. intros Hx Hq. rewrite Z.shiftl_mul_pow2 by lia.
  assert (0 < 2 ^ (15 - q) <= 32768).
  { split; [apply Z.pow_pos_nonneg; lia|]. change 32768 with (2 ^ 15). apply Z.pow_le_mono_r; lia. }
  rewrite s32_id by (unfold in_s32; nia). split; [done|]. change (2 ^ 31) with 2147483648. nia.
Qed.

Lemma threshold_next x q t :
  in_u16 x -> 0 <= q <= 15 -> threshold_ok t -> threshold_ok (MeanEstimatorFix (spectrum_q15 x q) 6 t).
Proof.
  intros Hx Hq Ht. destruct (spectrum_q15_range x q Hx Hq) as [_ Hs]. unfold threshold_ok in *.
  pose proof (MeanEstimatorFix_between (spectrum_q15 x q) 6 t Hs Ht). lia.
Qed.

Lemma Forall_aset {A} (P : A -> Prop) (l : list A) i v :
  0 <= i < zlen l -> Forall P l -> P v -> aset l i v = Some (<[Z.to_nat i := v]> l) /\ Forall P (<[Z.to_nat i := v]> l).
Proof. intros Hi Hl Hv. split; [by apply aset_in|]. by apply list.Forall_insert. Qed.

Lemma init_threshold_safe spectrum q size : spectrum_ok size q spectrum ->
  forall todo i threshold init, 0 <= i -> i + Z.of_nat todo <= size ->
  zlen threshold = size -> Forall threshold_ok threshold ->
  exists thr' init', init_threshold todo i spectrum threshold q init = Some (thr', init') /\
    zlen thr' = size /\ Forall threshold_ok thr'.
Proof.
  intros (Hz & Hu & Hq). induction todo as [|todo IH]; intros i threshold init Hi Hs Hl Ht; cbn [init_threshold].
  { by exists threshold, init. }
  destruct (aget_in spectrum i) as [x Ex]; [lia|]. rewrite Ex. cbn [mbind option_bind].
  pose proof (aget_Forall _ _ _ _ Hu Ex) as Hx. destruct (spectrum_q15_range x q Hx Hq) as [_ Hr].
  case_if.
  - destruct (Forall_aset threshold_ok threshold i (Z.shiftr (spectrum_q15 x q) 1)) as (E1 & F1); [lia|done| |].
    { unfold threshold_ok in *. rewrite Z.shiftr_div_pow2 by lia. change (2 ^ 1) with 2. wrap_lia. }
    rewrite E1. cbn [mbind option_bind fst snd]. apply IH; [lia|lia|by rewrite zlen_insert|done].
  - cbn [mbind option_bind fst snd]. apply IH; [lia|lia|done|done].
Qed.

Lemma SetBit_u32 out j : in_u32 out -> 0 <= j < 32 -> in_u32 (SetBit out j).
Proof.
  unfold SetBit, in_u32. intros Ho Hj. rewrite Z.shiftl_mul_pow2, Z.mul_1_l by lia.
  assert (0 < 2 ^ j < 2 ^ 32) by (split; [apply Z.pow_pos_nonneg; lia|apply Z.pow_lt_mono_r; lia]).
  rewrite u32_id by (cbn; lia).
  assert (0 <= Z.lor out (2 ^ j)) by (apply Z.lor_nonneg; lia). split; [done|].
  destruct (Z.eqb_spec (Z.lor out (2 ^ j)) 0) as [->|]; [lia|].
  change 4294967296 with (2 ^ 32). apply Z.log2_lt_pow2; [lia|]. rewrite Z.log2_lor by lia.
  rewrite Z.log2_pow2 by lia. destruct (Z.eqb_spec out 0) as [->|]; [cbn; lia|].
  assert (Z.log2 out < 32) by (apply Z.log2_lt_pow2; lia). lia.
Qed.

Lemma threshold_bits_safe spectrum q size : spectrum_ok size q spectrum ->
  forall todo i threshold out, kBandFirst <= i -> i + Z.of_nat todo <= size -> i + Z.of_nat todo <= kBandLast + 1 ->
  zlen threshold = size -> Forall threshold_ok threshold -> in_u32 out ->
  exists out' thr', threshold_bits todo i spectrum threshold q out = Some (out', thr') /\
    zlen thr' = size /\ Forall threshold_ok thr' /\ in_u32 out'.
Proof.
  unfold kBandFirst, kBandLast. intros (Hz & Hu & Hq).
  induction todo as [|todo IH]; intros i threshold out Hi Hs Hb Hl Ht Ho; cbn [threshold_bits].
  { by exists out, threshold. }
  destruct (aget_in spectrum i) as [x Ex]; [lia|]. rewrite Ex. cbn [mbind option_bind].
  destruct (aget_in threshold i) as [t Et]; [lia|]. rewrite Et. cbn [mbind option_bind].
  pose proof (aget_Forall _ _ _ _ Hu Ex) as Hx. pose proof (aget_Forall _ _ _ _ Ht Et) as Hto.
  destruct (Forall_aset threshold_ok threshold i (MeanEstimatorFix (spectrum_q15 x q) 6 t)) as (E1 & F1);
    [lia|done|by apply threshold_next|].
  rewrite E1. cbn [mbind option_bind].
  apply IH; [lia|lia|lia|by rewrite zlen_insert|done|].
  case_if; [|done]. apply SetBit_u32; [done|]. unfold kBandFirst. lia.
Qed.

Lemma BinarySpectrumFix_safe spectrum threshold q init size :
  spectrum_ok size q spectrum -> kBandLast < size -> zlen threshold = size -> Forall threshold_ok threshold ->
  exists out thr' init', BinarySpectrumFix spectrum threshold q init = Some (out, thr', init') /\
    in_u32 out /\ zlen thr' = size /\ Forall threshold_ok thr'.
Proof.
  intros Hs Hsize Hl Ht. unfold BinarySpectrumFix.
  assert (Hb : Z.of_nat (Z.to_nat (kBandLast - kBandFirst + 1)) = 32) by reflexivity.
  revert Hb. generalize (Z.to_nat (kBandLast - kBandFirst + 1)). intros bands Hb. cbv zeta.
  unfold kBandLast in Hsize.
  assert (E : exists r,
    (if init =? 0 then init_threshold bands kBandFirst spectrum threshold q init else Some (threshold, init)) = Some r /\
    zlen r.1 = size /\ Forall threshold_ok r.1).
  { case_if; [|by exists (threshold, init)].
    destruct (init_threshold_safe spectrum q size Hs bands kBandFirst threshold init) as (thr1 & init1 & ? & ? & ?);
      [unfold kBandFirst; lia|unfold kBandFirst; lia|done|done|]. by exists (thr1, init1). }
  destruct E as (r & E & Hl1 & Ht1). rewrite (bind_eq _ _ _ E).
  destruct (threshold_bits_safe spectrum q size Hs bands kBandFirst r.1 0) as (out & thr' & E2 & Hl2 & Ht2 & Ho);
    [lia|unfold kBandFirst; lia|unfold kBandFirst, kBandLast; lia|done|done|cbn; lia|].
  rewrite (bind_eq _ _ _ E2). by exists out, thr', r.2.
Qed.

(** The bands of a spectrum of 43 entries or fewer are not all there. *)
Lemma threshold_bits_short spectrum q todo : forall i threshold out,
  0 <= i -> zlen spectrum < i + Z.of_nat todo -> 0 < Z.of_nat todo -> threshold_bits todo i spectrum threshold q out = None.
Proof.
  induction todo as [|todo IH]; intros i threshold out Hi Hs Hpos; [lia|]. cbn [threshold_bits].
  destruct (aget spectrum i) as [x|] eqn:Ex; [|done]. cbn [mbind option_bind].
  destruct (aget threshold i) as [t|]; [|done]. cbn [mbind option_bind]. destruct (aset _ _ _); [|done]. cbn [mbind option_bind].
  apply aget_Some_range in Ex. apply IH; lia.
Qed.

Lemma BinarySpectrumFix_short spectrum threshold q init : zlen spectrum <= kBandLast -> BinarySpectrumFix spectrum threshold q init = None.
Proof.
  intros Hs. unfold BinarySpectrumFix. unfold kBandLast in Hs.
  assert (Hb : Z.of_nat (Z.to_nat (kBandLast - kBandFirst + 1)) = 32) by reflexivity.
  revert Hb. generalize (Z.to_nat (kBandLast - kBandFirst + 1)). intros bands Hb. cbv zeta. unfold kBandFirst.
  destruct (if init =? 0 then init_threshold bands 12 spectrum threshold q init else Some (threshold, init)) as [r|]; [|reflexivity].
  cbn [mbind option_bind]. rewrite (threshold_bits_short spectrum q bands 12 r.1 0) by lia. reflexivity.
Qed.

(** Silence before the first signal leaves everything as it is. *)
Lemma BinarySpectrumFix_silence size q :
  kBandLast < size -> 0 <= q <= 15 ->
  BinarySpectrumFix (replicate (Z.to_nat size) 0) (replicate (Z.to_nat size) 0) q 0
    = Some (0, replicate (Z.to_nat size) 0, 0).
Proof.
  intros Hsize Hq. unfold BinarySpectrumFix. unfold kBandLast in Hsize.
  assert (Hb : kBandFirst + Z.of_nat (Z.to_nat (kBandLast - kBandFirst + 1)) <= size)
    by (change (kBandFirst + Z.of_nat (Z.to_nat (kBandLast - kBandFirst + 1))) with 44; lia).
  revert Hb. generalize (Z.to_nat (kBandLast - kBandFirst + 1)). intros bands Hb. cbv zeta.
  assert (H0 : 0 <= kBandFirst) by (unfold kBandFirst; lia). revert Hb H0. generalize kBandFirst at 1 2 3 4 as i0.
  assert (Hz : forall i, 0 <= i < size -> aget (replicate (Z.to_nat size) 0) i = Some 0)
    by (intros; apply aget_replicate; lia).
  assert (E1 : forall todo i, 0 <= i -> i + Z.of_nat todo <= size ->
    init_threshold todo i (replicate (Z.to_nat size) 0) (replicate (Z.to_nat size) 0) q 0
      = Some (replicate (Z.to_nat size) 0, 0)).
  { induction todo as [|todo IH]; intros i Hi Hs; cbn [init_threshold]; [done|].
    rewrite (bind_eq _ _ _ (Hz i ltac:(lia))). change (0 <? 0) with false. cbn iota. rewrite (bind_eq _ _ _ eq_refl).
    apply IH; lia. }
  assert (E2 : forall todo i, 0 <= i -> i + Z.of_nat todo <= size ->
    threshold_bits todo i (replicate (Z.to_nat size) 0) (replicate (Z.to_nat size) 0) q 0
      = Some (0, replicate (Z.to_nat size) 0)).
  { assert (Eq : spectrum_q15 0 q = 0) by (unfold spectrum_q15; by rewrite Z.shiftl_0_l).
    induction todo as [|todo IH]; intros i Hi Hs; cbn [threshold_bits]; [done|].
    rewrite !(bind_eq _ _ _ (Hz i ltac:(lia))), Eq. change (MeanEstimatorFix 0 6 0) with 0.
    rewrite aset_in by (rewrite zlen_replicate; lia). rewrite (bind_eq _ _ _ eq_refl).
    rewrite list_insert_id; [change (0 <? 0) with false; apply IH; lia|].
    apply lookup_replicate_2. lia. }
  intros i0 Hb H0. change (0 =? 0) with true. cbn iota. rewrite (bind_eq _ _ _ (E1 bands i0 H0 Hb)). cbn [fst snd].
  by rewrite (bind_eq _ _ _ (E2 bands i0 H0 Hb)).
Qed.

(** Where the threshold of a band starts from. *)
Definition band_start (initialized x q t : Z) : Z :=
  if (initialized =? 0) && (0 <? x) then Z.shiftr (spectrum_q15 x q) 1 else t.

Lemma SetBit_spec out j k : 0 <= j < 32 -> 0 <= k -> Z.testbit (SetBit out j) k = Z.testbit out k || (k =? j).
Proof.
  intros Hj Hk. unfold SetBit. rewrite Z.shiftl_mul_pow2, Z.mul_1_l by lia.
  assert (0 < 2 ^ j < 2 ^ 32) by (split; [apply Z.pow_pos_nonneg; lia|apply Z.pow_lt_mono_r; lia]).
  rewrite u32_id by (cbn; lia). rewrite Z.lor_spec. f_equal.
  rewrite Z.pow2_bits_eqb by lia. lia.
Qed.

Lemma init_threshold_spec spectrum q todo : forall i threshold init thr' init', 0 <= i ->
  init_threshold todo i spectrum threshold q init = Some (thr', init') ->
  (forall j, aget thr' j = if decide (i <= j < i + Z.of_nat todo)
                           then x ← aget spectrum j; t ← aget threshold j; Some (band_start 0 x q t)
                           else aget threshold j) /\
  (init' = init \/ init' = 1 /\ exists j x, i <= j < i + Z.of_nat todo /\ aget spectrum j = Some x /\ 0 < x) /\
  (init' = init -> init = 0 -> forall j x, i <= j < i + Z.of_nat todo -> aget spectrum j = Some x -> x <= 0).
Proof.
  induction todo as [|todo IH]; intros i threshold init thr' init' Hi H; cbn [init_threshold] in H.
  { injection H as <- <-. split; [intros j; by rewrite decide_False by lia|]. split; [by left|]. intros; lia. }
  apply bind_is_Some in H as (x & Ex & H).
  apply bind_is_Some in H as (r & Er & H). apply IH in H as (Hj & Hin & Hno); [|lia].
  assert (Hr : (forall j, aget r.1 j = if decide (j = i) then t ← aget threshold j; Some (band_start 0 x q t)
                                      else aget threshold j) /\
               ((r.2 = init /\ x <= 0) \/ (r.2 = 1 /\ 0 < x))).
  { unfold band_start. revert Er. case_if; intros Er; bind_inv.
    - split; [|right; cbn; split; [done|lia]]. intros j. cbn [fst]. apply aset_Some in Hx as (Hr & ->).
      case_decide; [subst j|by rewrite aget_insert_ne by lia].
      destruct (aget_in threshold i) as [t Et]; [lia|]. rewrite Et. cbn. by rewrite aget_insert_eq by lia.
    - split; [|left; split; [done|lia]]. intros j. cbn [fst]. case_decide; [subst j|done].
      change (0 =? 0) with true. cbn [andb]. by destruct (aget threshold i). }
  destruct Hr as (Hr & Hr2). split.
  - intros j. rewrite Hj. repeat case_decide; try lia; rewrite ?Hr.
    + by rewrite decide_False by lia.
    + assert (j = i) as -> by lia. rewrite decide_True, Ex by lia. done.
    + by rewrite decide_False by lia.
  - assert (Hsig : 0 < x -> exists j y, i <= j < i + Z.of_nat (S todo) /\ aget spectrum j = Some y /\ 0 < y)
      by (intros; exists i, x; split; [lia|done]).
    split.
    + destruct Hin as [->|(-> & j & y & Hy & Ey & Hpos)].
      * destruct Hr2 as [[-> _]|[-> Hx]]; [by left|right; split; [done|by apply Hsig]].
      * right. split; [done|]. exists j, y. split; [lia|done].
    + intros E0 E1 j y Hjr Hy. destruct (Z.eqb_spec j i) as [->|].
      * rewrite Ex in Hy. injection Hy as <-. destruct Hr2 as [[_ ?]|[Hr2 _]]; [done|].
        destruct Hin as [?|[? _]]; subst; lia.
      * apply Hno with (j := j); [|destruct Hr2 as [[? _]|[? _]], Hin as [?|[? _]]; subst; lia|lia|done].
        destruct Hr2 as [[? _]|[? _]], Hin as [?|[? _]]; subst; lia.
Qed.

Lemma threshold_bits_spec spectrum q todo : forall i threshold out out' thr',
  kBandFirst <= i -> i + Z.of_nat todo <= kBandLast + 1 ->
  threshold_bits todo i spectrum threshold q out = Some (out', thr') ->
  (forall j, aget thr' j = if decide (i <= j < i + Z.of_nat todo)
     then x ← aget spectrum j; t ← aget threshold j; Some (MeanEstimatorFix (spectrum_q15 x q) 6 t)
     else aget threshold j) /\
  (forall j x t, i <= j < i + Z.of_nat todo -> aget spectrum j = Some x -> aget threshold j = Some t ->
     Z.testbit out' (j - kBandFirst) =
       Z.testbit out (j - kBandFirst) || (MeanEstimatorFix (spectrum_q15 x q) 6 t <? spectrum_q15 x q)) /\
  (forall k, 0 <= k -> ~ i <= k + kBandFirst < i + Z.of_nat todo -> Z.testbit out' k = Z.testbit out k).
Proof.
  unfold kBandFirst, kBandLast.
  induction todo as [|todo IH]; intros i threshold out out' thr' Hi Hs H; cbn [threshold_bits] in H.
  { injection H as <- <-. split; [intros j; by rewrite decide_False by lia|]. split; [intros; lia|done]. }
  apply bind_is_Some in H as (x & Ex & H). apply bind_is_Some in H as (t & Et & H).
  set (t' := MeanEstimatorFix (spectrum_q15 x q) 6 t) in *.
  apply bind_is_Some in H as (th1 & E1 & H). apply aset_Some in E1 as (Hr & ->).
  unfold kBandFirst in H. apply IH in H as (Hj & Hb & Hk); [|lia|lia]. clear IH.
  assert (Hbit : forall k, 0 <= k -> Z.testbit (if t' <? spectrum_q15 x q then SetBit out (i - 12) else out) k =
                   Z.testbit out k || ((k =? i - 12) && (t' <? spectrum_q15 x q))).
  { intros k Hk0. case_if; [rewrite SetBit_spec by lia; by rewrite andb_true_r|].
    by rewrite andb_false_r, orb_false_r. }
  split; [|split].
  - intros j. rewrite Hj. repeat case_decide; try lia.
    + by rewrite aget_insert_ne by lia.
    + assert (j = i) as -> by lia. rewrite aget_insert_eq by lia. by rewrite Ex, Et.
    + by rewrite aget_insert_ne by lia.
  - intros j y u Hjr Ey Eu. destruct (Z.eqb_spec j i) as [->|].
    + rewrite Hk by lia. rewrite Hbit by lia. rewrite Ex in Ey. injection Ey as <-. rewrite Et in Eu. injection Eu as <-.
      by rewrite Z.eqb_refl.
    + rewrite (Hb j y u); [|lia|done|by rewrite aget_insert_ne by lia].
      rewrite Hbit by lia. replace (j - 12 =? i - 12) with false by lia. by rewrite andb_false_l, orb_false_r.
  - intros k Hk0 Hkr. rewrite Hk by lia. rewrite Hbit by lia.
    replace (k =? i - 12) with false by lia. by rewrite andb_false_l, orb_false_r.
Qed.

(** C37. The binary spectrum of [BinarySpectrumFix]: bit [k] tells whether band
    [12 + k], scaled to Q15, exceeds its threshold after the update; the threshold
    moves a 64th of the way to the band (rounded towards the old threshold), from half
    of the band when the thresholds were not set yet and the band has a signal; the
    thresholds of the other bands stay as they are.  An indicator that was set stays,
    and one that was 0 becomes 1 exactly when one of the 32 bands has a signal, else it
    stays 0. *)
Theorem BinarySpectrumFix_correct size spectrum threshold q init :
  spectrum_ok size q spectrum -> 43 < size -> zlen threshold = size -> Forall threshold_ok threshold ->
  exists out thr' init', BinarySpectrumFix spectrum threshold q init = Some (out, thr', init') /\ in_u32 out /\
    (forall k x t, 0 <= k < 32 -> aget spectrum (12 + k) = Some x -> aget threshold (12 + k) = Some t ->
       let a := x * 2 ^ (15 - q) in
       let t0 := if (init =? 0) && (0 <? x) then a / 2 else t in
       let t1 := if a <? t0 then t0 - (t0 - a) / 64 else t0 + (a - t0) / 64 in
       aget thr' (12 + k) = Some t1 /\ Z.testbit out k = (t1 <? a)) /\
    (forall j, ~ 12 <= j < 44 -> aget thr' j = aget threshold j) /\
    (init <> 0 -> init' = init) /\
    (init = 0 -> (init' = 0 \/ init' = 1) /\
       (init' = 1 <-> exists k x, 0 <= k < 32 /\ aget spectrum (12 + k) = Some x /\ 0 < x)).
Proof.
  intros Hs Hsize Hl Ht. change (43 < size) with (kBandLast < size) in Hsize.
  destruct (BinarySpectrumFix_safe spectrum threshold q init size Hs Hsize Hl Ht) as (out & thr' & init' & E & Ho & _ & _).
  exists out, thr', init'. split; [done|]. split; [done|].
  unfold BinarySpectrumFix in E.
  assert (Hb : Z.of_nat (Z.to_nat (kBandLast - kBandFirst + 1)) = 32) by reflexivity.
  revert Hb E. generalize (Z.to_nat (kBandLast - kBandFirst + 1)). intros bands Hb E. cbv zeta in E.
  apply bind_is_Some in E as (r & E1 & E). apply bind_is_Some in E as (b & E2 & E).
  injection E as -> <-. unfold kBandFirst in E1, E2.
  apply threshold_bits_spec in E2 as (Hj & Hbit & _); [|unfold kBandFirst; lia|unfold kBandLast; lia].
  unfold kBandFirst in Hbit.
  assert (Hr : (forall k x t, 0 <= k < 32 -> aget spectrum (12 + k) = Some x -> aget threshold (12 + k) = Some t ->
                 aget r.1 (12 + k) = Some (band_start init x q t)) /\
               (forall j, ~ 12 <= j < 44 -> aget r.1 j = aget threshold j) /\
               (init <> 0 -> r.2 = init) /\
               (init = 0 -> (r.2 = 0 \/ r.2 = 1) /\
                  (r.2 = 1 <-> exists k x, 0 <= k < 32 /\ aget spectrum (12 + k) = Some x /\ 0 < x))).
  { revert E1. unfold band_start. case_if; intros E1.
    - subst init. destruct r as [t1 i1].
      apply init_threshold_spec in E1 as (Hi & Hin & Hno); [|lia]. cbn [fst snd].
      split; [|split; [|split; [done|intros _; split]]].
      + intros k x t Hk Hx Htk. rewrite Hi, decide_True, Hx, Htk by lia. reflexivity.
      + intros j Hjr. by rewrite Hi, decide_False by lia.
      + destruct Hin as [?|[? _]]; auto.
      + split.
        * intros E1. destruct Hin as [?|(_ & j & x & Hjr & Hx & Hpos)]; [lia|].
          exists (j - 12), x. replace (12 + (j - 12)) with j by lia. split; [lia|done].
        * intros (k & x & Hk & Hx & Hpos). destruct Hin as [E0|[E0 _]]; [|done].
          specialize (Hno E0 eq_refl (12 + k) x ltac:(lia) Hx). lia.
    - injection E1 as <-. cbn [fst snd]. split; [done|]. split; [done|]. split; [done|]. lia. }
  destruct Hr as (Hr & Hrest & Hset & Hsig). split; [|split; [|split; [exact Hset|exact Hsig]]].
  - intros k x t Hk Hx Htk. specialize (Hr k x t Hk Hx Htk). cbv zeta.
    destruct Hs as (_ & Hu & Hq). pose proof (aget_Forall _ _ _ _ Hu Hx) as Hx'. pose proof (aget_Forall _ _ _ _ Ht Htk) as Ht'.
    destruct (spectrum_q15_range x q Hx' Hq) as [Eq Hrange]. rewrite <-Eq.
    assert (band_start init x q t = (if (init =? 0) && (0 <? x) then spectrum_q15 x q / 2 else t)) as Es.
    { unfold band_start. case_match; [by rewrite Z.shiftr_div_pow2|done]. }
    rewrite <-Es. assert (threshold_ok (band_start init x q t)) as Hbs.
    { rewrite Es. unfold threshold_ok in *. destruct ((init =? 0) && (0 <? x)); [|done]. Z.to_euclidean_division_equations; lia. }
    pose proof (MeanEstimatorFix_eq (spectrum_q15 x q) 6 (band_start init x q t) Hrange Hbs ltac:(lia)) as Em.
    rewrite !Z.shiftr_div_pow2 in Em by lia. change (2 ^ 6) with 64 in Em. rewrite <-Em.
    rewrite Hj, decide_True, Hx, Hr by lia. split; [done|].
    specialize (Hbit (12 + k) x _ ltac:(lia) Hx Hr). replace (12 + k - 12) with k in Hbit by lia.
    rewrite Hbit, Z.bits_0. done.
  - intros j Hjr. rewrite Hj, decide_False by lia. by apply Hrest.
Qed.

Lemma BinarySpectrumFix_correct_witness :
  exists out thr', BinarySpectrumFix (replicate 65 100) (replicate 65 0) 8 0 = Some (out, thr', 1) /\
    aget thr' 20 = Some 6500 /\ Z.testbit out 8 = true.
Proof.
  destruct (BinarySpectrumFix_correct 65 (replicate 65 100) (replicate 65 0) 8 0) as (out & thr' & i & E & _ & H & _ & _ & Hi).
  - split; [reflexivity|]. split; [apply Forall_replicate; cbn; lia|lia].
  - lia.
  - reflexivity.
  - apply Forall_replicate. unfold threshold_ok. lia.
  - destruct (H 8 100 0) as (H1 & H2); [lia|reflexivity|reflexivity|].
    destruct (Hi eq_refl) as [_ [_ Hset]]. rewrite Hset in E by (exists 0, 100; split; [lia|split; [reflexivity|lia]]).
    exists out, thr'. split; [exact E|]. split; [exact H1|exact H2].
Defined.
