(* ===== verification/DelayEcho.v ===== *)
(** Whole sessions of the delay estimator: every sequence of calls stays inside
    of the memory and answers a delay of the history; an echo is found. *)
From S2P Require Import Prelude DelayEst DelayEstInv DelayEstTrack DelayWrap.

(** ** Sessions *)

(** The two objects of a session; the estimator points to the far end. *)
Definition session : Type := DelayEstimatorFarend * DelayEstimator.

(** What the echo canceller does at start: creation and initialisation of both. *)
Definition new_session (history counts mean_far mean counts' near mean_near : list Z) (junk : Z)
    (spectrum_size history_size lookahead : Z) : option session :=
  let far := CreateDelayEstimatorFarend true (Some history) (Some counts) (Some mean_far) junk
               spectrum_size history_size in
  let est := CreateDelayEstimator true (Some mean) (Some counts') (Some near) (Some mean_near) junk junk junk junk
               far lookahead in
  f ← InitDelayEstimatorFarend far;
  f ← f.2;
  e ← InitDelayEstimator est (binary_farend f);
  e ← e.2;
  Some (f, e).

Inductive call := FarSpectrum (spectrum : list Z) (q : Z) | NearSpectrum (spectrum : list Z) (q : Z).

(** One call; the second result is its return value. *)
Definition do_call (size : Z) (s : session) (c : call) : option (session * Z) :=
  match c with
  | FarSpectrum x q =>
      r ← AddFarSpectrumFix (Some s.1) (Some x) size q;
      f ← r.2;
      Some ((f, s.2), r.1)
  | NearSpectrum x q =>
      r ← DelayEstimatorProcessFix (Some s.2) (binary_farend s.1) (Some x) size q;
      e ← r.2;
      Some ((s.1, e), r.1)
  end.

Fixpoint do_calls (size : Z) (s : session) (cs : list call) : option (session * list Z) :=
  match cs with
  | [] => Some (s, [])
  | c :: cs =>
      r ← do_call size s c;
      t ← do_calls size r.1 cs;
      Some (t.1, r.2 :: t.2)
  end.

Definition call_ok (size : Z) (c : call) : Prop :=
  match c with FarSpectrum x q | NearSpectrum x q => spectrum_ok size q x end.

(** [k] blocks of the near end were processed. *)
Record session_inv (size n k : Z) (s : session) : Prop := mkSession {
  si_size : kBandLast < size;
  si_far_size : far_spectrum_size s.1 = size;
  si_near_size : near_spectrum_size s.2 = size;
  si_far_mean : zlen (mean_far_spectrum s.1) = size;
  si_far_ok : Forall threshold_ok (mean_far_spectrum s.1);
  si_near_mean : zlen (mean_near_spectrum s.2) = size;
  si_near_ok : Forall threshold_ok (mean_near_spectrum s.2);
  si_far : far_inv n (binary_farend s.1);
  si_est : est_inv n (binary_handle s.2);
  si_level : k < 2 ^ 31 - 2 ^ 14 -> 0 <= est_last_delay_probability (binary_handle s.2) <= 16384 + k;
}.

Definition fresh (n lookahead size : Z) (s : session) : Prop :=
  s = (mkFar (replicate (Z.to_nat size) 0) 0 size (mkBf (replicate (Z.to_nat n) 0) (replicate (Z.to_nat n) 0) n),
       mkNear (replicate (Z.to_nat size) 0) 0 size
         (mkEst (replicate (Z.to_nat n) 10240) (replicate (Z.to_nat n) 0)
            (replicate (Z.to_nat (lookahead + 1)) 0) (lookahead + 1) 16384 16384 (-2))).

Definition memory_ok (n lookahead size : Z) (history counts mean_far mean counts' near mean_near : list Z) : Prop :=
  zlen history = n /\ zlen counts = n /\ zlen mean_far = size /\ zlen mean = n /\ zlen counts' = n /\
  zlen near = lookahead + 1 /\ zlen mean_near = size.

Lemma new_session_fresh history counts mean_far mean counts' near mean_near junk size n lookahead :
  1 < n -> 0 <= lookahead -> kBandLast <= size ->
  memory_ok n lookahead size history counts mean_far mean counts' near mean_near ->
  exists s, new_session history counts mean_far mean counts' near mean_near junk size n lookahead = Some s /\
    fresh n lookahead size s /\ far_inv n (binary_farend s.1) /\ est_inv n (binary_handle s.2).
Proof.
  intros Hn Hl Hs (H1 & H2 & H3 & H4 & H5 & H6 & H7).
  destruct (far_created n history counts H1 H2 Hn) as (f & f' & Ef & Ef' & Hf & Hh).
  assert (Hf0 : f' = mkBf (replicate (Z.to_nat n) 0) (replicate (Z.to_nat n) 0) n).
  { destruct f', Hf as [? ? ? ? Hc]. cbn in *. subst. rewrite fmap_replicate. reflexivity. }
  destruct (est_created n f' mean counts' near lookahead junk junk junk Hf Hl H4 H5 H6) as (e & e' & Ee & Ee' & He & He0).
  unfold new_session, CreateDelayEstimatorFarend, CreateDelayEstimator.
  replace (kBandLast <=? size) with true by lia. cbn [negb]. rewrite Ef. cbn [mbind option_bind]. rewrite Ee.
  cbn [mbind option_bind InitDelayEstimatorFarend InitDelayEstimator binary_farend mean_far_spectrum far_spectrum_size
       binary_handle mean_near_spectrum near_spectrum_size].
  rewrite Ef'. cbn [mbind option_bind]. rewrite !zero_fill_spec by done. cbn [mbind option_bind snd].
  lazymatch goal with |- context [InitBinaryDelayEstimator e ?g] => change g with f' end.
  rewrite Ee'. cbn [mbind option_bind snd].
  eexists. split; [reflexivity|]. subst f' e'. by split.
Qed.

Lemma new_session_spec history counts mean_far mean counts' near mean_near junk size n lookahead :
  1 < n -> 0 <= lookahead -> kBandLast < size ->
  memory_ok n lookahead size history counts mean_far mean counts' near mean_near ->
  exists s, new_session history counts mean_far mean counts' near mean_near junk size n lookahead = Some s /\
    fresh n lookahead size s /\ session_inv size n 0 s.
Proof.
  intros Hn Hl Hs Hm.
  destruct (new_session_fresh history counts mean_far mean counts' near mean_near junk size n lookahead Hn Hl ltac:(lia) Hm)
    as (s & E & -> & Hf & He). eexists. split; [exact E|]. split; [reflexivity|].
  assert (H0 : Forall threshold_ok (replicate (Z.to_nat size) 0)) by (apply Forall_replicate; unfold threshold_ok; lia).
  unfold kBandLast in Hs.
  split; cbn; rewrite ?zlen_replicate; try done; unfold kBandLast; lia.
Qed.

(** ** Safety *)

(** The answer of a call: 0 for the far end, a delay or -2 for the near end. *)
Definition answer_ok (n : Z) (c : call) (a : Z) : Prop :=
  match c with
  | FarSpectrum _ _ => a = 0
  | NearSpectrum _ _ => a = -2 \/ 0 <= a < n
  end.

Lemma AddFarSpectrumFix_ok size n k s x q :
  session_inv size n k s -> spectrum_ok size q x ->
  exists b thr i f', BinarySpectrumFix x (mean_far_spectrum s.1) q (far_spectrum_initialized s.1) = Some (b, thr, i) /\
    in_u32 b /\ AddBinaryFarSpectrum (binary_farend s.1) b = Some f' /\
    AddFarSpectrumFix (Some s.1) (Some x) size q =
      Some (0, Some (s.1 <| mean_far_spectrum := thr |> <| far_spectrum_initialized := i |> <| binary_farend := f' |>)) /\
    session_inv size n k
      (s.1 <| mean_far_spectrum := thr |> <| far_spectrum_initialized := i |> <| binary_farend := f' |>, s.2).
Proof.
  intros [? Hs1 ? ? ? ? ? Hf ? ?] Hx. pose proof Hx as (_ & _ & Hq).
  destruct (BinarySpectrumFix_safe x (mean_far_spectrum s.1) q (far_spectrum_initialized s.1) size) as
    (b & thr & i & E & Hb & Hl & Ht); [done..|].
  destruct (AddBinaryFarSpectrum_spec n (binary_farend s.1) b Hf Hb) as (f' & E' & Hf' & _).
  exists b, thr, i, f'. split; [done|]. split; [done|]. split; [done|]. split; [|by split].
  unfold AddFarSpectrumFix. rewrite Hs1, Z.eqb_refl. cbn [negb]. replace (15 <? q) with false by lia.
  rewrite (bind_eq _ _ _ E), (bind_eq _ _ _ E'). reflexivity.
Qed.

Lemma DelayEstimatorProcessFix_ok size n k s x q :
  session_inv size n k s -> spectrum_ok size q x -> 0 <= k ->
  exists b thr i a e', BinarySpectrumFix x (mean_near_spectrum s.2) q (near_spectrum_initialized s.2) = Some (b, thr, i) /\
    in_u32 b /\ ProcessBinarySpectrum (binary_handle s.2) (binary_farend s.1) b = Some (a, e') /\
    (a = -2 \/ 0 <= a < n) /\
    DelayEstimatorProcessFix (Some s.2) (binary_farend s.1) (Some x) size q =
      Some (a, Some (s.2 <| mean_near_spectrum := thr |> <| near_spectrum_initialized := i |> <| binary_handle := e' |>)) /\
    session_inv size n (k + 1)
      (s.1, s.2 <| mean_near_spectrum := thr |> <| near_spectrum_initialized := i |> <| binary_handle := e' |>).
Proof.
  intros [? ? Hs2 ? ? ? ? Hf He Hk] Hx Hk0. pose proof Hx as (_ & _ & Hq).
  destruct (BinarySpectrumFix_safe x (mean_near_spectrum s.2) q (near_spectrum_initialized s.2) size) as
    (b & thr & i & E & Hb & Hl & Ht); [done..|].
  destruct (ProcessBinarySpectrum_spec n _ _ b Hf He Hb) as (e' & best & worst & cand & E' & He' & P).
  exists b, thr, i, (est_last_delay e'), e'. split; [done|]. split; [done|]. split; [done|].
  split; [apply (ei_delay _ _ He')|]. split.
  - unfold DelayEstimatorProcessFix. rewrite Hs2, Z.eqb_refl. cbn [negb]. replace (15 <? q) with false by lia.
    rewrite (bind_eq _ _ _ E), (bind_eq _ _ _ E'). reflexivity.
  - split; try done. cbn [snd]. change (binary_handle (s.2 <| mean_near_spectrum := thr |>
      <| near_spectrum_initialized := i |> <| binary_handle := e' |>)) with e'.
    intros Hlt. destruct P as [_ _ _ Hc _ _ Hlv]. rewrite Hlv.
    destruct (candidate_valid _ _ _ _ _ (ei_mean _ _ He') Hc) as (Hbest & _).
    specialize (Hk ltac:(lia)). rewrite s32_id by (unfold in_s32; lia).
    case_if; lia.
Qed.

Lemma do_call_ok size n k s c :
  session_inv size n k s -> call_ok size c -> 0 <= k ->
  exists s' a k', do_call size s c = Some (s', a) /\ answer_ok n c a /\ k <= k' <= k + 1 /\ session_inv size n k' s'.
Proof.
  intros Hs Hc Hk. destruct c as [x q|x q]; cbn [do_call call_ok] in *.
  - destruct (AddFarSpectrumFix_ok size n k s x q Hs Hc) as (b & thr & i & f' & _ & _ & _ & E & Hi).
    rewrite (bind_eq _ _ _ E). cbn [fst snd mbind option_bind]. eexists _, _, k. split; [reflexivity|].
    split; [done|]. split; [lia|exact Hi].
  - destruct (DelayEstimatorProcessFix_ok size n k s x q Hs Hc Hk) as (b & thr & i & a & e' & _ & _ & _ & Ha & E & Hi).
    rewrite (bind_eq _ _ _ E). cbn [fst snd mbind option_bind]. eexists _, _, (k + 1). split; [reflexivity|].
    split; [done|]. split; [lia|exact Hi].
Qed.

Lemma do_calls_ok size n cs : forall k s,
  session_inv size n k s -> Forall (call_ok size) cs -> 0 <= k ->
  exists s' answers k', do_calls size s cs = Some (s', answers) /\ Forall2 (answer_ok n) cs answers /\
    k <= k' <= k + zlen cs /\ session_inv size n k' s'.
Proof.
  induction cs as [|c cs IH]; intros k s Hs Hc Hk; cbn [do_calls].
  { exists s, [], k. rewrite zlen_nil. split; [done|]. split; [constructor|]. split; [lia|done]. }
  inversion Hc as [|? ? Hc1 Hc2]; subst. rewrite zlen_cons.
  destruct (do_call_ok size n k s c Hs Hc1 Hk) as (s1 & a & k1 & E & Ha & Hk1 & Hs1).
  rewrite (bind_eq _ _ _ E). cbn [fst snd].
  destruct (IH k1 s1 Hs1 Hc2 ltac:(lia)) as (s' & answers & k' & E' & Has & Hk' & Hs').
  rewrite (bind_eq _ _ _ E'). exists s', (a :: answers), k'. split; [done|]. split; [by constructor|]. split; [lia|done].
Qed.

(** Spectra that are too short by one for the last band. *)
Lemma do_call_short size n lookahead s c :
  size <= kBandLast -> fresh n lookahead size s -> call_ok size c -> do_call size s c = None.
Proof.
  intros Hs -> Hc. destruct c as [x q|x q]; destruct Hc as (Hz & _ & Hq); cbn [do_call fst snd];
    unfold AddFarSpectrumFix, DelayEstimatorProcessFix; cbn [far_spectrum_size near_spectrum_size]; rewrite Z.eqb_refl; cbn [negb];
    replace (15 <? q) with false by lia; by rewrite BinarySpectrumFix_short by lia.
Qed.

(** C14. Sessions of the delay estimator, created in memory of the right sizes, whatever
    it holds.  With spectra of 44 entries or more every session is safe: any sequence of
    calls with spectra of the agreed size in a Q-domain from 0 to 15 runs without leaving
    the memory; the far end answers 0, the near end -2 (no estimate yet) or an index of
    the history, and the quality stays between 0 and 1 in Q14 for the first 2^31 - 2^14
    calls.  With fewer than 43 entries the creation is refused.  With 43 entries it is
    accepted, and the first call reads beyond the end of its spectrum: the check of the
    creation misses one band. *)
Theorem DelayEstimator_safe history counts mean_far mean counts' near mean_near junk size n lookahead cs :
  1 < n -> 0 <= lookahead ->
  memory_ok n lookahead size history counts mean_far mean counts' near mean_near ->
  Forall (call_ok size) cs ->
  (size < 43 -> CreateDelayEstimatorFarend true (Some history) (Some counts) (Some mean_far) junk size n = None) /\
  (size = 43 -> exists s,
    new_session history counts mean_far mean counts' near mean_near junk size n lookahead = Some s /\
    (cs <> [] -> do_calls size s cs = None)) /\
  (43 < size -> exists s s' answers,
    new_session history counts mean_far mean counts' near mean_near junk size n lookahead = Some s /\
    do_calls size s cs = Some (s', answers) /\ Forall2 (answer_ok n) cs answers /\
    (last_delay (Some s'.2) = -2 \/ 0 <= last_delay (Some s'.2) < n) /\
    (zlen cs < 2 ^ 31 - 2 ^ 14 -> 0 <= last_delay_quality (Some s'.2) <= 16384)).
Proof.
  intros Hn Hl Hm Hcs. split; [|split].
  - intros Hs. unfold CreateDelayEstimatorFarend, kBandLast. by replace (43 <=? size) with false by lia.
  - intros Hs. destruct (new_session_fresh history counts mean_far mean counts' near mean_near junk size n lookahead Hn Hl
      ltac:(unfold kBandLast; lia) Hm) as (s & E & Hf & _). exists s. split; [done|].
    intros Hne. destruct Hcs as [|c cs Hc Hcs]; [done|]. cbn [do_calls].
    by rewrite (do_call_short size n lookahead s c ltac:(unfold kBandLast; lia) Hf Hc).
  - intros Hs.
    destruct (new_session_spec history counts mean_far mean counts' near mean_near junk size n lookahead Hn Hl Hs Hm)
      as (s & E & _ & Hs0).
    destruct (do_calls_ok size n cs 0 s Hs0 Hcs ltac:(lia)) as (s' & answers & k & E' & Ha & Hk & Hs').
    exists s, s', answers. split; [done|]. split; [done|]. split; [done|].
    destruct Hs' as [? ? ? ? ? ? ? _ He Hlv]. split; [apply (ei_delay _ _ He)|].
    intros Hlt. specialize (Hlv ltac:(lia)). cbn [last_delay_quality]. unfold binary_last_delay_quality.
    change (Z.shiftl 32 9) with 16384. rewrite s32_id by (unfold in_s32; lia). case_if; lia.
Qed.

Lemma do_calls_app size cs1 : forall cs2 s s1 s2 a1 a2,
  do_calls size s cs1 = Some (s1, a1) -> do_calls size s1 cs2 = Some (s2, a2) ->
  do_calls size s (cs1 ++ cs2) = Some (s2, a1 ++ a2).
Proof.
  induction cs1 as [|c cs1 IH]; intros cs2 s s1 s2 a1 a2 H1 H2; cbn [do_calls app] in *.
  { by injection H1 as <- <-. }
  apply bind_is_Some in H1 as ([s0 a] & E & H1). apply bind_is_Some in H1 as ([s' l] & E' & H1).
  injection H1 as <- <-. rewrite (bind_eq _ _ _ E). cbn [fst snd] in *.
  by rewrite (bind_eq _ _ _ (IH _ _ _ _ _ _ E' H2)).
Qed.

(** ** An echo is found *)

(** A spectrum with its Q-domain. *)
Definition frame : Type := list Z * Z.

(** The binary spectra of a sequence of frames: thresholds and indicator are
    handed on. *)
Definition bin_step (st : list Z * Z) (x : frame) : Z * (list Z * Z) :=
  match BinarySpectrumFix x.1 st.1 x.2 st.2 with
  | Some (out, thr, i) => (out, (thr, i))
  | None => (0, st)
  end.

Fixpoint bin_seq (st : list Z * Z) (xs : list frame) : list Z :=
  match xs with
  | [] => []
  | x :: xs => (bin_step st x).1 :: bin_seq (bin_step st x).2 xs
  end.

Definition bin_after (st : list Z * Z) (xs : list frame) : list Z * Z :=
  foldl (fun st x => (bin_step st x).2) st xs.

Definition bin_start (size : Z) : list Z * Z := (replicate (Z.to_nat size) 0, 0).

Definition binary_spectra (size : Z) (xs : list frame) : list Z := bin_seq (bin_start size) xs.

(** A sequence as a signal, 0 before its start. *)
Definition signal (l : list Z) (t : Z) : Z := if t <? 0 then 0 else default 0 (l !! Z.to_nat t).

Definition frame_ok (size : Z) (x : frame) : Prop := spectrum_ok size x.2 x.1.

Definition thr_ok (size : Z) (st : list Z * Z) : Prop := zlen st.1 = size /\ Forall threshold_ok st.1.

Lemma bin_step_ok size st x : kBandLast < size -> frame_ok size x -> thr_ok size st ->
  BinarySpectrumFix x.1 st.1 x.2 st.2 = Some ((bin_step st x).1, (bin_step st x).2.1, (bin_step st x).2.2) /\
  in_u32 (bin_step st x).1 /\ thr_ok size (bin_step st x).2.
Proof.
  intros Hs Hx [Hl Ht]. unfold bin_step.
  destruct (BinarySpectrumFix_safe x.1 st.1 x.2 st.2 size Hx Hs Hl Ht) as (o & thr & i & E & Ho & Hl' & Ht').
  rewrite E. cbn [fst snd]. split; [done|]. split; [done|]. by split.
Qed.

Lemma bin_seq_lookup xs : forall st k x, xs !! k = Some x ->
  bin_seq st xs !! k = Some (bin_step (bin_after st (take k xs)) x).1.
Proof.
  induction xs as [|y xs IH]; intros st [|k] x H; cbn in *; try discriminate; [by injection H as ->|].
  rewrite (IH _ _ _ H). reflexivity.
Qed.

Lemma bin_after_ok size xs : forall st, kBandLast < size -> Forall (frame_ok size) xs -> thr_ok size st ->
  thr_ok size (bin_after st xs).
Proof.
  induction xs as [|x xs IH]; intros st Hs Hx Hst; [done|]. inversion Hx; subst.
  destruct (bin_step_ok size st x) as (_ & _ & Hst'); [done..|]. by apply (IH (bin_step st x).2).
Qed.

Lemma bin_after_S st xs k x : xs !! k = Some x ->
  bin_after st (take (S k) xs) = (bin_step (bin_after st (take k xs)) x).2.
Proof. intros H. rewrite (take_S_r _ _ _ H). unfold bin_after. by rewrite foldl_app. Qed.

(** The calls of a session in which the near end hears the far end [d] blocks
    later and silence before. *)
Fixpoint blocks (fars nears : list frame) : list call :=
  match fars, nears with
  | f :: fars, m :: nears => FarSpectrum f.1 f.2 :: NearSpectrum m.1 m.2 :: blocks fars nears
  | _, _ => []
  end.

Definition echo_calls (size : Z) (d : nat) (xs : list frame) : list call :=
  blocks xs (replicate d (replicate (Z.to_nat size) 0, 0) ++ xs).

Section Echo.
#[local] Set Default Proof Using "All".
Context (size n L : Z) (d : nat) (xs : list frame).
Hypothesis Hsize : kBandLast < size.
Hypothesis Hn : 1 < n.
Hypothesis HL : 0 <= L.
Hypothesis Hd : Z.of_nat d + L < n.
Hypothesis Hxs : Forall (frame_ok size) xs.

Let bins : list Z := binary_spectra size xs.
Let far (t : Z) : Z := signal bins t.
Let near (t : Z) : Z := far (t - Z.of_nat d).
Let D : Z := Z.of_nat d + L.
Let st (k : nat) : list Z * Z := bin_after (bin_start size) (take k xs).

Hypothesis Hbits : Forall (fun b => 16 <= popcount 32 b) bins.
Hypothesis Hdiff : forall t i, 0 <= t < zlen xs -> 0 <= i < n -> i <> D -> i <= t ->
  18 <= dist (far (t - D)) (far (t - i)).

Lemma start_ok : thr_ok size (bin_start size).
Proof.
  unfold kBandLast in *. split; cbn; [rewrite zlen_replicate; lia|].
  apply Forall_replicate. unfold threshold_ok. lia.
Qed.

Lemma st_ok k : thr_ok size (st k).
Proof. apply bin_after_ok; [done|by apply Forall_take|apply start_ok]. Qed.

Lemma st_step k x : xs !! k = Some x ->
  BinarySpectrumFix x.1 (st k).1 x.2 (st k).2 = Some (far (Z.of_nat k), (st (S k)).1, (st (S k)).2) /\
  in_u32 (far (Z.of_nat k)).
Proof.
  intros Hx. assert (Hxk : frame_ok size x) by (rewrite list.Forall_lookup in Hxs; eauto).
  destruct (bin_step_ok size (st k) x Hsize Hxk (st_ok k)) as (E & Ho & _).
  assert (Hf : far (Z.of_nat k) = (bin_step (st k) x).1).
  { unfold far, signal. rewrite (proj2 (Z.ltb_ge _ _) (Nat2Z.is_nonneg k)). rewrite Nat2Z.id.
    unfold bins, binary_spectra. by rewrite (bin_seq_lookup _ _ _ _ Hx). }
  rewrite Hf. split; [|done]. rewrite E. unfold st at 5 6. rewrite (bin_after_S _ _ _ _ Hx). done.
Qed.

Lemma length_bins : length bins = length xs.
Proof using size xs.
  unfold bins, binary_spectra. clear. generalize (bin_start size). induction xs as [|x l IH]; intros s0; cbn; [done|].
  by rewrite IH.
Qed.

Lemma far_u32 t : in_u32 (far t).
Proof.
  unfold far, signal. case_if; [cbn; lia|].
  destruct (bins !! Z.to_nat t) as [b|] eqn:Eb; [|cbn; lia].
  destruct (lookup_lt_is_Some_2 xs (Z.to_nat t)) as [x Hx].
  { rewrite <-length_bins. by eapply lookup_lt_Some. }
  destruct (st_step _ _ Hx) as [_ Hu]. revert Hu. unfold far, signal. rewrite Z2Nat.id by lia.
  replace (t <? 0) with false by lia. by rewrite Eb.
Qed.

(** Both thresholds follow the same sequence, the near one [d] blocks later. *)
Record echoing (t : nat) (s : session) : Prop := mkEchoing {
  ec_inv : exists k, 0 <= k /\ session_inv size n k s;
  ec_track : tracking n L D 0 far near (Z.of_nat t) (binary_farend s.1) (binary_handle s.2);
  ec_far : mean_far_spectrum s.1 = (st t).1 /\ far_spectrum_initialized s.1 = (st t).2;
  ec_near : mean_near_spectrum s.2 = (st (t - d)).1 /\ near_spectrum_initialized s.2 = (st (t - d)).2;
}.

Definition near_frames : list frame := replicate d (replicate (Z.to_nat size) 0, 0) ++ xs.

Lemma near_step t m : near_frames !! t = Some m ->
  frame_ok size m /\
  BinarySpectrumFix m.1 (st (t - d)).1 m.2 (st (t - d)).2 =
    Some (near (Z.of_nat t), (st (S t - d)).1, (st (S t - d)).2).
Proof.
  intros Hm. unfold near_frames in Hm. destruct (Nat.lt_ge_cases t d) as [Hlt|Hge].
  - rewrite lookup_app_l in Hm by (rewrite length_replicate; lia).
    apply lookup_replicate in Hm as [-> _]. unfold kBandLast in Hsize. split.
    + split; [cbn; rewrite zlen_replicate; lia|]. split; [|cbn; lia]. apply Forall_replicate. cbn. lia.
    + replace (t - d)%nat with 0%nat by lia. replace (S t - d)%nat with 0%nat by lia.
      change (st 0) with (bin_start size). cbn [fst snd bin_start].
      rewrite BinarySpectrumFix_silence by (unfold kBandLast; lia). unfold near, far, signal.
      by replace (Z.of_nat t - Z.of_nat d <? 0) with true by lia.
  - rewrite lookup_app_r in Hm by (rewrite length_replicate; lia). rewrite length_replicate in Hm.
    split; [rewrite list.Forall_lookup in Hxs; eauto|].
    destruct (st_step _ _ Hm) as [E _]. rewrite E. unfold near.
    replace (Z.of_nat t - Z.of_nat d) with (Z.of_nat (t - d)) by lia. by replace (S t - d)%nat with (S (t - d)) by lia.
Qed.

Lemma row_and_others t x : xs !! t = Some x ->
  row_matches L D 0 far near (Z.of_nat t) /\ others_differ n L D far near (Z.of_nat t).
Proof.
  intros Hx. apply lookup_lt_Some in Hx.
  assert (Hnear : near (Z.of_nat t - L) = far (Z.of_nat t - D)) by (unfold near; f_equal; subst D; lia).
  split.
  - intros Ht. rewrite Hnear. split; [|unfold dist; rewrite Z.lxor_nilpotent; done].
    unfold far, signal. rewrite (proj2 (Z.ltb_ge _ _)) by lia.
    destruct (lookup_lt_is_Some_2 bins (Z.to_nat (Z.of_nat t - D))) as [b Hb].
    { rewrite length_bins. subst D. lia. }
    rewrite Hb. cbn [default]. rewrite list.Forall_lookup in Hbits. by apply (Hbits _ _ Hb).
  - intros i Hi HiD Hit _. rewrite Hnear. apply Hdiff; [unfold zlen; lia|done|done|done].
Qed.

(** One block: a far end call and a near end call. *)
Lemma echo_block t s f m :
  xs !! t = Some f -> near_frames !! t = Some m -> echoing t s ->
  exists s' a, do_calls size s [FarSpectrum f.1 f.2; NearSpectrum m.1 m.2] = Some (s', [0; a]) /\
    echoing (S t) s' /\ (2048 < 8 * (Z.of_nat t + 1 - D) -> a = D).
Proof.
  intros Hf Hm [(k & Hk & Hs) Htr [Hfm Hfi] [Hnm Hni]].
  assert (Hfok : frame_ok size f) by (rewrite list.Forall_lookup in Hxs; eauto).
  destruct (near_step t m Hm) as (Hmok & Ebn). destruct (st_step t f Hf) as (Ebf & _).
  destruct (AddFarSpectrumFix_ok size n k s f.1 f.2 Hs Hfok) as (b & thr & i & f' & E1 & _ & E2 & E3 & Hs1).
  rewrite Hfm, Hfi, Ebf in E1. injection E1 as <- <- <-.
  set (s1 := (s.1 <| mean_far_spectrum := (st (S t)).1 |> <| far_spectrum_initialized := (st (S t)).2 |>
                  <| binary_farend := f' |>, s.2)) in *.
  destruct (DelayEstimatorProcessFix_ok size n k s1 m.1 m.2 Hs1 Hmok Hk)
    as (b & thr & i & a & e' & E4 & _ & E5 & _ & E6 & Hs2).
  change (mean_near_spectrum s1.2) with (mean_near_spectrum s.2) in E4.
  change (near_spectrum_initialized s1.2) with (near_spectrum_initialized s.2) in E4.
  rewrite Hnm, Hni, Ebn in E4. injection E4 as <- <- <-.
  change (binary_handle s1.2) with (binary_handle s.2) in E5. change (binary_farend s1.1) with f' in E5.
  assert (Hneg : forall t', t' < 0 -> far t' = 0)
    by (intros t' Ht'; unfold far, signal; by rewrite (proj2 (Z.ltb_lt _ _) Ht')).
  destruct (row_and_others t f Hf) as (Hrow & Hoth).
  destruct (tracking_block n L D 0 far near Hn HL ltac:(subst D; lia) ltac:(lia) far_u32 (fun t' => far_u32 _)
              Hneg (fun t' Ht' => Hneg (t' - Z.of_nat d) ltac:(lia))
              (Z.of_nat t) (binary_farend s.1) (binary_handle s.2) f' ltac:(lia) Htr Hrow Hoth E2)
    as (a' & e'' & E7 & Htr' & Ha).
  rewrite E5 in E7. injection E7 as <- <-.
  assert (C1 : do_call size s (FarSpectrum f.1 f.2) = Some (s1, 0))
    by (cbn [do_call]; rewrite (bind_eq _ _ _ E3); reflexivity).
  match type of Hs2 with session_inv _ _ _ ?x => set (s2 := x) in * end.
  assert (C2 : do_call size s1 (NearSpectrum m.1 m.2) = Some (s2, a))
    by (cbn [do_call]; rewrite (bind_eq _ _ _ E6); reflexivity).
  exists s2, a. split; [|split].
  - cbn [do_calls]. rewrite (bind_eq _ _ _ C1). cbn [fst snd]. rewrite (bind_eq _ _ _ C2). reflexivity.
  - split; cbn [fst snd].
    + exists (k + 1). split; [lia|exact Hs2].
    + replace (Z.of_nat (S t)) with (Z.of_nat t + 1) by lia. exact Htr'.
    + by split.
    + by split.
  - intros Hlong. apply Ha. change (rate 0) with 8. exact Hlong.
Qed.

Lemma echo_run k : forall t s, (t + k = length xs)%nat -> echoing t s ->
  exists s' answers, do_calls size s (blocks (drop t xs) (drop t near_frames)) = Some (s', answers) /\
    forall j, (t <= j < length xs)%nat -> D + 256 <= Z.of_nat j -> answers !! (2 * (j - t) + 1)%nat = Some D.
Proof.
  induction k as [|k IH]; intros t s Hk Hs.
  { rewrite drop_ge by lia. exists s, []. split; [done|]. intros; lia. }
  destruct (lookup_lt_is_Some_2 xs t) as [f Hf]; [lia|].
  destruct (lookup_lt_is_Some_2 near_frames t) as [m Hm]; [unfold near_frames; rewrite length_app; apply Nat.lt_lt_add_l; by eapply lookup_lt_Some|].
  destruct (echo_block t s f m Hf Hm Hs) as (s1 & a & E & Hs1 & Ha).
  destruct (IH (S t) s1 ltac:(lia) Hs1) as (s' & answers & E' & Hans).
  exists s', (0 :: a :: answers). split.
  - rewrite (drop_S _ _ _ Hf), (drop_S _ _ _ Hm). cbn [blocks].
    by apply (do_calls_app _ [_; _] _ _ _ _ _ _ E).
  - intros j Hj Hlong. destruct (Nat.eq_dec j t) as [->|Hne].
    + rewrite Nat.sub_diag. cbn. f_equal. apply Ha. lia.
    + replace (2 * (j - t) + 1)%nat with (S (S (2 * (j - S t) + 1))) by lia. cbn [lookup list_lookup]. apply Hans; lia.
Qed.

End Echo.

Lemma fresh_tracking size n L D h far near s :
  1 < n -> 0 <= L -> 0 <= D -> (forall t, t < 0 -> far t = 0) -> (forall t, t < 0 -> near t = 0) ->
  fresh n L size s -> session_inv size n 0 s ->
  tracking n L D h far near 0 (binary_farend s.1) (binary_handle s.2).
Proof.
  intros Hn HL HD Hf Hm -> Hs. destruct Hs as [_ _ _ _ _ _ _ Hfar Hest _]. cbn [fst snd binary_farend binary_handle] in *.
  split; cbn [bf_binary_far_history est_near_history_size est_binary_near_history est_mean_bit_counts]; [done|done| |done| | |].
  - intros i Hi. rewrite aget_replicate by lia. by rewrite Hf by lia.
  - intros _ i Hi. rewrite aget_replicate by lia. by rewrite Hm by lia.
  - intros i m _ Hm'. pose proof (aget_Some_range _ _ _ Hm') as Hr. rewrite zlen_replicate in Hr.
    rewrite aget_replicate in Hm' by lia. injection Hm' as <-. lia.
  - intros m Hm'. pose proof (aget_Some_range _ _ _ Hm') as Hr. rewrite zlen_replicate in Hr.
    rewrite aget_replicate in Hm' by lia. injection Hm' as <-. right. lia.
Qed.

(** C13. The delay estimator finds an echo.  The near end hears what the far end
    plays, [d] blocks later, after silence.  If the binary spectra of the far end
    have 16 bits or more and, compared with the one [d] plus the lookahead blocks
    ago, all others in the history differ in 18 bits or more, then from block
    [d + lookahead + 256] on every near end call answers [d + lookahead]. *)
Theorem DelayEstimator_finds_echo history counts mean_far mean counts' near mean_near junk size n lookahead d xs :
  kBandLast < size -> 1 < n -> 0 <= lookahead -> Z.of_nat d + lookahead < n ->
  memory_ok n lookahead size history counts mean_far mean counts' near mean_near ->
  Forall (frame_ok size) xs ->
  let bit := signal (binary_spectra size xs) in
  let delay := Z.of_nat d + lookahead in
  Forall (fun b => 16 <= popcount 32 b) (binary_spectra size xs) ->
  (forall t i, 0 <= t < zlen xs -> 0 <= i < n -> i <> delay -> i <= t -> 18 <= dist (bit (t - delay)) (bit (t - i))) ->
  exists s s' answers,
    new_session history counts mean_far mean counts' near mean_near junk size n lookahead = Some s /\
    do_calls size s (echo_calls size d xs) = Some (s', answers) /\
    forall t, delay + 256 <= t < zlen xs -> aget answers (2 * t + 1) = Some delay.
Proof.
  intros Hsize Hn HL Hd Hm Hxs bit delay Hbits Hdiff.
  destruct (new_session_spec history counts mean_far mean counts' near mean_near junk size n lookahead Hn HL Hsize Hm)
    as (s & E & Hfresh & Hs).
  assert (H0 : echoing size n lookahead d xs 0 s).
  { split.
    - exists 0. split; [lia|done].
    - apply (fresh_tracking size); try done; try lia; intros t Ht; unfold signal; rewrite (proj2 (Z.ltb_lt _ _)); try done; lia.
    - by rewrite Hfresh.
    - by rewrite Hfresh. }
  destruct (echo_run size n lookahead d xs Hsize Hn HL Hd Hxs Hbits Hdiff (length xs) 0 s ltac:(lia) H0)
    as (s' & answers & E' & Hans).
  exists s, s', answers. split; [exact E|]. split; [exact E'|].
  intros t Ht. unfold zlen in Ht. rewrite aget_lookup by lia.
  specialize (Hans (Z.to_nat t) ltac:(lia) ltac:(lia)).
  replace (Z.to_nat (2 * t + 1)) with (2 * (Z.to_nat t - 0) + 1)%nat by lia. exact Hans.
Qed.

(** An instance: two spectra in turn, an echo after one block, a history of two. *)
Definition ex_frame (k : Z) : frame :=
  ((fun i => if Z.even k then (if i <? 30 then 1000 else 0) else (if i <? 26 then 0 else 1000)) <$> seqZ 0 65, 8).
Definition ex_frames : list frame := ex_frame <$> seqZ 0 260.

Definition differ_check (bit : Z -> Z) (n delay len : Z) : bool :=
  forallb (fun t => forallb (fun i => (i =? delay) || (18 <=? dist (bit (t - delay)) (bit (t - i)))) (seqZ 0 n)) (seqZ 0 len).

Lemma differ_check_spec bit n delay len t i :
  differ_check bit n delay len = true -> 0 <= t < len -> 0 <= i < n -> i <> delay ->
  18 <= dist (bit (t - delay)) (bit (t - i)).
Proof.
  intros H Ht Hi Hne. pose proof (forall_below _ _ _ H Ht) as H1. cbv beta in H1.
  pose proof (forall_below _ _ _ H1 Hi) as H2. cbv beta in H2.
  apply orb_prop in H2 as [H2|H2]; [apply Z.eqb_eq in H2; lia|by apply Z.leb_le in H2].
Qed.

Lemma DelayEstimator_finds_echo_witness :
  exists s s' answers,
    new_session [1; 2] [3; 4] (replicate 65 5) [6; 7] [8; 9] [10] (replicate 65 11) 12 65 2 0 = Some s /\
    do_calls 65 s (echo_calls 65 1 ex_frames) = Some (s', answers) /\
    aget answers (2 * 257 + 1) = Some 1 /\ aget answers (2 * 259 + 1) = Some 1.
Proof.
  destruct (DelayEstimator_finds_echo [1; 2] [3; 4] (replicate 65 5) [6; 7] [8; 9] [10] (replicate 65 11) 12 65 2 0 1
    ex_frames) as (s & s' & answers & E & E' & H).
  - unfold kBandLast. lia.
  - lia.
  - lia.
  - cbn. lia.
  - by repeat split.
  - apply Forall_fmap, list.Forall_forall. intros k _. split; [reflexivity|]. split; [|cbn; lia].
    apply Forall_fmap, list.Forall_forall. intros i _. cbn. repeat case_if; lia.
  - apply list.Forall_forall. intros b Hb. apply Z.leb_le.
    assert (Hall : forallb (fun b => 16 <=? popcount 32 b) (binary_spectra 65 ex_frames) = true) by (vm_compute; reflexivity).
    rewrite forallb_forall in Hall. apply Hall. by apply list_elem_of_In.
  - intros t i Ht Hi Hne _. apply (differ_check_spec _ 2 1 260); [vm_compute; reflexivity|exact Ht|exact Hi|exact Hne].
  - exists s, s', answers. split; [exact E|]. split; [exact E'|].
    split; apply H; (split; [lia|reflexivity]).
Defined.

Lemma DelayEstimator_safe_witness :
  (exists s s' answers,
    new_session [1; 2] [3; 4] (replicate 65 5) [6; 7] [8; 9] [10] (replicate 65 11) 12 65 2 0 = Some s /\
    do_calls 65 s [FarSpectrum (replicate 65 7) 3; NearSpectrum (replicate 65 9) 15] = Some (s', answers) /\
    (last_delay (Some s'.2) = -2 \/ 0 <= last_delay (Some s'.2) < 2) /\ 0 <= last_delay_quality (Some s'.2) <= 16384) /\
  (exists s,
    new_session [1; 2] [3; 4] (replicate 43 5) [6; 7] [8; 9] [10] (replicate 43 11) 12 43 2 0 = Some s /\
    do_calls 43 s [FarSpectrum (replicate 43 100) 8] = None).
Proof.
  split.
  - destruct (DelayEstimator_safe [1; 2] [3; 4] (replicate 65 5) [6; 7] [8; 9] [10] (replicate 65 11) 12 65 2 0
      [FarSpectrum (replicate 65 7) 3; NearSpectrum (replicate 65 9) 15]) as (_ & _ & H).
    + lia.
    + lia.
    + by repeat split.
    + repeat constructor; try lia; apply Forall_replicate; cbn; lia.
    + destruct (H ltac:(lia)) as (s & s' & answers & E & E' & _ & Hl & Hq).
      exists s, s', answers. split; [exact E|]. split; [exact E'|]. split; [exact Hl|]. apply Hq. vm_compute. reflexivity.
  - destruct (DelayEstimator_safe [1; 2] [3; 4] (replicate 43 5) [6; 7] [8; 9] [10] (replicate 43 11) 12 43 2 0
      [FarSpectrum (replicate 43 100) 8]) as (_ & H & _).
    + lia.
    + lia.
    + by repeat split.
    + repeat constructor; try lia; apply Forall_replicate; cbn; lia.
    + destruct (H eq_refl) as (s & E & E'). exists s. split; [exact E|]. apply E'. discriminate.
Defined.
