(* ===== verification/Prog.v ===== *)
(** Programs with state, early return and out-of-bounds failure, and a logic for
    them.

    [Rec S A] is a computation on a state [S] that ends normally with a value of
    [A], returns early from the whole function with a code ([inl]), or is [None]
    when the code would access memory out of bounds. *)
From S2P Require Import Prelude.

Section Monad.
Context {S : Type}.

Definition Rec (A : Type) : Type := S -> option ((Z + A) * S).

Definition rec_ret {A} (x : A) : Rec A := fun m => Some (inr x, m).
(** [return code;] from the whole function. *)
Definition rec_fail {A} (code : Z) : Rec A := fun m => Some (inl code, m).
Definition rec_bind {A B} (c : Rec A) (f : A -> Rec B) : Rec B := fun m =>
  match c m with
  | None => None
  | Some (inl code, m) => Some (inl code, m)
  | Some (inr x, m) => f x m
  end.
Definition rec_get {A} (f : S -> A) : Rec A := fun m => Some (inr (f m), m).
(** A read that can be out of bounds. *)
Definition rec_try {A} (f : S -> option A) : Rec A := fun m => x ← f m; Some (inr x, m).
Definition rec_modify (f : S -> S) : Rec unit := fun m => Some (inr tt, f m).
(** An operation on the state with a result. *)
Definition rec_op {A} (f : S -> option (A * S)) : Rec A :=
  fun m => '(x, m) ← f m; Some (inr x, m).
Definition rec_when (b : bool) (c : Rec unit) : Rec unit := if b then c else rec_ret tt.
(** "if (i_ok < 0) return i_ok": the early return of an error code. *)
Definition rec_check (i_ok code : Z) : Rec unit := if i_ok <? 0 then rec_fail code else rec_ret tt.
(** The whole function: its return value and the state. *)
Definition rec_run (c : Rec Z) (m : S) : option (Z * S) :=
  '(r, m) ← c m; Some (match r with inl code => code | inr code => code end, m).
End Monad.
#[global] Arguments Rec : clear implicits.

Declare Scope rec_monad_scope.
Notation "x <- c ;; d" := (rec_bind c (fun x => d))
  (at level 60, c at next level, right associativity) : rec_monad_scope.
Notation "c ;;; d" := (rec_bind c (fun _ => d))
  (at level 60, right associativity) : rec_monad_scope.

Lemma rec_step {S A B} (c : Rec S A) (f : A -> Rec S B) m x m' :
  c m = Some (inr x, m') -> rec_bind c f m = f x m'.
Proof. intros H. unfold rec_bind. by rewrite H. Qed.

(** ** Total correctness

    [triple P c Q E]: from every state that satisfies [P], [c] stays inside of
    its memory and ends, normally in a state and with a value that satisfy [Q],
    or early with a code and in a state that satisfy [E]. *)
Section Triple.
Context {S : Type}.
Implicit Types (P : S -> Prop) (E : Z -> S -> Prop).

Definition triple {A} P (c : Rec S A) (Q : A -> S -> Prop) E : Prop :=
  forall m, P m -> exists r m', c m = Some (r, m') /\
    match r with inl code => E code m' | inr x => Q x m' end.

Lemma triple_ret {A} (x : A) P (Q : A -> S -> Prop) E :
  (forall m, P m -> Q x m) -> triple P (rec_ret x) Q E.
Proof. intros H m Hm. exists (inr x), m. split; [done|by apply H]. Qed.

Lemma triple_fail {A} code P (Q : A -> S -> Prop) E :
  (forall m, P m -> E code m) -> triple P (rec_fail code) Q E.
Proof. intros H m Hm. exists (inl code), m. split; [done|by apply H]. Qed.

Lemma triple_bind {A B} (c : Rec S A) (f : A -> Rec S B) P (R : A -> S -> Prop) Q E :
  triple P c R E -> (forall x, triple (R x) (f x) Q E) -> triple P (rec_bind c f) Q E.
Proof.
  intros Hc Hf m Hm. destruct (Hc m Hm) as ([code|x] & m' & Hr & HR);
    unfold rec_bind; rewrite Hr; [by exists (inl code), m'|]. by apply Hf.
Qed.

Lemma triple_op {A} (f : S -> option (A * S)) P (Q : A -> S -> Prop) E :
  (forall m, P m -> exists x m', f m = Some (x, m') /\ Q x m') -> triple P (rec_op f) Q E.
Proof.
  intros H m Hm. destruct (H m Hm) as (x & m' & Hx & HQ). exists (inr x), m'.
  unfold rec_op. by rewrite Hx.
Qed.

Lemma triple_get {A} (f : S -> A) P (Q : A -> S -> Prop) E :
  (forall m, P m -> Q (f m) m) -> triple P (rec_get f) Q E.
Proof. intros H m Hm. exists (inr (f m)), m. split; [done|by apply H]. Qed.

Lemma triple_try {A} (f : S -> option A) P (Q : A -> S -> Prop) E :
  (forall m, P m -> exists x, f m = Some x /\ Q x m) -> triple P (rec_try f) Q E.
Proof.
  intros H m Hm. destruct (H m Hm) as (x & Hx & HQ). exists (inr x), m. unfold rec_try.
  by rewrite Hx.
Qed.

Lemma triple_modify (f : S -> S) P (Q : unit -> S -> Prop) E :
  (forall m, P m -> Q tt (f m)) -> triple P (rec_modify f) Q E.
Proof. intros H m Hm. exists (inr tt), (f m). split; [done|by apply H]. Qed.

Lemma triple_when (b : bool) c P (Q : unit -> S -> Prop) E :
  (b = true -> triple P c Q E) -> (b = false -> forall m, P m -> Q tt m) ->
  triple P (rec_when b c) Q E.
Proof. destruct b; intros H1 H2; [by apply H1|apply triple_ret; auto]. Qed.

Lemma triple_check i_ok code P E :
  (i_ok < 0 -> forall m, P m -> E code m) ->
  triple P (rec_check i_ok code) (fun _ m => P m /\ 0 <= i_ok) E.
Proof.
  intros H. unfold rec_check. destruct (Z.ltb_spec i_ok 0); [by apply triple_fail; auto|].
  by apply triple_ret.
Qed.

Lemma triple_weaken {A} (c : Rec S A) P P' (Q Q' : A -> S -> Prop) E E' :
  triple P' c Q' E' -> (forall m, P m -> P' m) -> (forall x m, Q' x m -> Q x m) ->
  (forall code m, E' code m -> E code m) -> triple P c Q E.
Proof.
  intros Hc HP HQ HE m Hm. destruct (Hc m (HP _ Hm)) as (r & m' & Hr & H).
  exists r, m'. split; [done|]. destruct r; auto.
Qed.

(** A fact about the state that the rest of the program may assume. *)
Lemma triple_pure {A} (c : Rec S A) (X : Prop) P (Q : A -> S -> Prop) E :
  (X -> triple P c Q E) -> triple (fun m => P m /\ X) c Q E.
Proof. intros H m [Hm HX]. by apply H. Qed.

Lemma triple_ex {A B} (c : Rec S A) (P : B -> S -> Prop) (Q : A -> S -> Prop) E :
  (forall k, triple (P k) c Q E) -> triple (fun m => exists k, P k m) c Q E.
Proof. intros H m [k Hm]. by apply (H k). Qed.

(** A fact about the initial state that does not depend on it. *)
Lemma triple_use {A} (c : Rec S A) (X : Prop) P (Q : A -> S -> Prop) E :
  (forall m, P m -> X) -> (X -> triple P c Q E) -> triple P c Q E.
Proof. intros HX H m Hm. apply H; eauto. Qed.

(** *** Programs that keep an invariant *)

Definition safe {A} (I : S -> Prop) (c : Rec S A) (Q : A -> Prop) : Prop :=
  triple I c (fun x m => I m /\ Q x) (fun _ => I).

Context (I : S -> Prop).

Lemma safe_ret {A} (x : A) (Q : A -> Prop) : Q x -> safe I (rec_ret x) Q.
Proof. intros H. apply triple_ret. auto. Qed.

Lemma safe_fail {A} code (Q : A -> Prop) : safe I (rec_fail code) Q.
Proof. apply triple_fail. auto. Qed.

Lemma safe_bind {A B} (c : Rec S A) (f : A -> Rec S B) (R : A -> Prop) (Q : B -> Prop) :
  safe I c R -> (forall x, R x -> safe I (f x) Q) -> safe I (rec_bind c f) Q.
Proof. intros Hc Hf. eapply triple_bind; [exact Hc|]. intros x. apply triple_pure, Hf. Qed.

Lemma safe_get {A} (f : S -> A) (Q : A -> Prop) :
  (forall m, I m -> Q (f m)) -> safe I (rec_get f) Q.
Proof. intros H. apply triple_get. auto. Qed.

Lemma safe_try {A} (f : S -> option A) (Q : A -> Prop) :
  (forall m, I m -> exists x, f m = Some x /\ Q x) -> safe I (rec_try f) Q.
Proof. intros H. apply triple_try. intros m Hm. destruct (H m Hm) as (x & Hx & HQ). eauto. Qed.

Lemma safe_modify (f : S -> S) :
  (forall m, I m -> I (f m)) -> safe I (rec_modify f) (fun _ => True).
Proof. intros H. apply triple_modify. auto. Qed.

Lemma safe_op {A} (f : S -> option (A * S)) (Q : A -> Prop) :
  (forall m, I m -> exists x m', f m = Some (x, m') /\ I m' /\ Q x) -> safe I (rec_op f) Q.
Proof. intros H. by apply triple_op. Qed.

Lemma safe_when (b : bool) c :
  (b = true -> safe I c (fun _ => True)) -> safe I (rec_when b c) (fun _ => True).
Proof. intros H. apply triple_when; [done|auto]. Qed.

Lemma safe_check i_ok code : safe I (rec_check i_ok code) (fun _ => 0 <= i_ok).
Proof. apply triple_check. auto. Qed.
End Triple.

(** The cases that need no thought. *)
Create HintDb safe.
#[export] Hint Resolve safe_fail safe_check : safe.
#[export] Hint Extern 1 (safe _ (rec_ret _) _) => (by apply safe_ret) : safe.
#[export] Hint Extern 1 (safe _ (rec_when _ (rec_fail _)) _) =>
  (apply safe_when; intros; apply safe_fail) : safe.
#[export] Hint Extern 1 (safe _ (rec_get _) _) => (by apply (safe_get _ _ (fun _ => True))) : safe.

(** One step of a program: solve it from the database and go on. *)
Ltac safe_step := eapply safe_bind; [solve [auto with safe]|].
