(* ===== verification/Mcu.v ===== *)
(** The MCU side of NetEQ put together: packet reception
    ([recin.c]: [RecInInternal], time stamp scaling), resets ([mcu_reset.c])
    and the sampling rate ([set_fs.c]).

    An operation that can leave early with an error code is a program of type
    [Rec Mcu] ([Prog]) on the instance. *)
From S2P Require Import Prelude Prog Rtp CodecDb PacketBuffer Rtcp Dtmf SplMath Automode BufStats Split.

Definition RECIN_CNG_ERROR : Z := -3001.
Definition RECIN_UNKNOWNPAYLOAD : Z := -3002.
Definition RECIN_SYNC_RTP_CHANGED_CODEC : Z := -3004.
Definition RECIN_SYNC_RTP_NOT_ACCEPTABLE : Z := -3005.

Definition kLenWaitingTimes : Z := 100.

Inductive TsScaling := kTSnoScaling | kTSscalingTwo | kTSscalingTwoThirds | kTSscalingFourThirds.
#[export] Instance TsScaling_eq_dec : EqDecision TsScaling.
Proof. solve_decision. Defined.

(** ** State ([mcu.h]): all but the addresses of the communication layer *)

Record Mcu := mkMcu {
  mc_current_Codec : Z;          (* int16_t *)
  mc_current_Payload : Z;        (* int16_t *)
  mc_timeStamp : Z;              (* uint32_t *)
  mc_millisecondsPerCall : Z;    (* int16_t *)
  mc_timestampsPerCall : Z;      (* uint16_t *)
  mc_fs : Z;                     (* uint16_t *)
  mc_ssrc : Z;                   (* uint32_t *)
  mc_new_codec : Z;              (* int16_t *)
  mc_first_packet : Z;           (* int16_t *)
  mc_codec_DB : CodecDbInst;
  mc_PayloadSplit : SplitInfo;
  mc_RTCP : RTCP;
  mc_PacketBuffer : PacketBuf;
  mc_BufferStat : BufStats;
  mc_DTMF : Dtmf;
  mc_NoOfExpandCalls : Z;        (* int *)
  mc_AVT_PlayoutOn : Z;          (* int16_t *)
  mc_PlayoutMode : PlayoutMode;
  mc_one_desc : Z;               (* int16_t *)
  mc_lostTS : Z;                 (* uint32_t *)
  mc_lastReportTS : Z;           (* uint32_t *)
  mc_waiting_times : list Z;     (* int[kLenWaitingTimes] *)
  mc_len_waiting_times : Z;      (* int *)
  mc_next_waiting_time_index : Z; (* int *)
  mc_externalTS : Z;             (* uint32_t *)
  mc_internalTS : Z;             (* uint32_t *)
  mc_TSscalingInitialized : Z;   (* int16_t *)
  mc_scalingFactor : TsScaling;
  mc_av_sync : bool;
  mc_usingStereo : Z;            (* int *)
  mc_decoded_packet_sequence_number : Z; (* int *)
  mc_decoded_packet_timestamp : Z        (* uint32_t *)
}.

#[export] Instance eta_Mcu : Eta Mcu := fun r =>
  mkMcu (mc_current_Codec r) (mc_current_Payload r) (mc_timeStamp r) (mc_millisecondsPerCall r)
    (mc_timestampsPerCall r) (mc_fs r) (mc_ssrc r) (mc_new_codec r) (mc_first_packet r)
    (mc_codec_DB r) (mc_PayloadSplit r) (mc_RTCP r) (mc_PacketBuffer r) (mc_BufferStat r)
    (mc_DTMF r) (mc_NoOfExpandCalls r) (mc_AVT_PlayoutOn r) (mc_PlayoutMode r) (mc_one_desc r)
    (mc_lostTS r) (mc_lastReportTS r) (mc_waiting_times r) (mc_len_waiting_times r)
    (mc_next_waiting_time_index r) (mc_externalTS r) (mc_internalTS r)
    (mc_TSscalingInitialized r) (mc_scalingFactor r) (mc_av_sync r) (mc_usingStereo r)
    (mc_decoded_packet_sequence_number r) (mc_decoded_packet_timestamp r).

Open Scope rec_monad_scope.

(** The automode instance inside the buffer statistics. *)
Definition mc_Automode (m : Mcu) : Automode := bs_Automode (mc_BufferStat m).
Definition set_Automode (m : Mcu) (a : Automode) : Mcu :=
  m <| mc_BufferStat := (mc_BufferStat m) <| bs_Automode := a |> |>.

(** ** Time stamp scaling ([recin.c]) *)

Definition GetTimestampScaling (rtpPayloadType : Z) (m : Mcu) : option (Z * Mcu) :=
  codec ← DbGetCodec (mc_codec_DB m) rtpPayloadType;
  if codec <? 0 then Some (codec, m) else
  if is_case codec [kDecoderG722; kDecoderG722_2ch] then
    Some (0, m <| mc_scalingFactor := kTSscalingTwo |>)
  else if is_case codec [kDecoderISACfb; kDecoderOpus] then
    Some (0, m <| mc_scalingFactor := kTSscalingTwoThirds |>)
  else if is_case codec [kDecoderAVT; kDecoderCNG] then
    sample_freq ← DbGetSampleRate (mc_codec_DB m) rtpPayloadType;
    Some (0, if sample_freq =? 48000 then m <| mc_scalingFactor := kTSscalingTwoThirds |> else m)
  else Some (0, m <| mc_scalingFactor := kTSnoScaling |>).

Definition ScaleTimestampExternalToInternal (m : Mcu) (externalTS : Z) : Z :=
  let timestampDiff := s32 (u32 (externalTS - mc_externalTS m)) in
  let timestampDiff :=
    match mc_scalingFactor m with
    | kTSscalingTwo => s32 (Z.shiftl timestampDiff 1)
    | kTSscalingTwoThirds => DivW32W16 (s32 (Z.shiftl timestampDiff 1)) 3
    | kTSscalingFourThirds => DivW32W16 (s32 (Z.shiftl timestampDiff 2)) 3
    | kTSnoScaling => timestampDiff
    end in
  u32 (mc_internalTS m + timestampDiff).

Definition ScaleTimestampInternalToExternal (m : Mcu) (internalTS : Z) : Z :=
  let timestampDiff := s32 (u32 (s32 internalTS - mc_internalTS m)) in
  let timestampDiff :=
    match mc_scalingFactor m with
    | kTSscalingTwo => Z.shiftr timestampDiff 1
    | kTSscalingTwoThirds => Z.shiftr (s32 (timestampDiff * 3)) 1
    | kTSscalingFourThirds => Z.shiftr (s32 (timestampDiff * 3)) 2
    | kTSnoScaling => timestampDiff
    end in
  u32 (mc_externalTS m + timestampDiff).

(** ** Reception ([WebRtcNetEQ_RecInInternal]) *)

(** The adjustment of a packet's time stamp, with the initialisation of the
    scaling. *)
Definition recin_scale (p : RTPPacket) (m : Mcu) : option (RTPPacket * Mcu) :=
  let m :=
    if (mc_TSscalingInitialized m =? 0) && negb (bool_decide (mc_scalingFactor m = kTSnoScaling))
    then m <| mc_externalTS := rtp_timeStamp p |> <| mc_internalTS := rtp_timeStamp p |>
           <| mc_TSscalingInitialized := 1 |>
    else m in
  if mc_TSscalingInitialized m =? 1 then
    let newTS := ScaleTimestampExternalToInternal m (rtp_timeStamp p) in
    Some (p <| rtp_timeStamp := newTS |>,
          m <| mc_externalTS := rtp_timeStamp p |> <| mc_internalTS := newTS |>)
  else Some (p, m).

(** [lastPackCNGorDTMF = x] *)
Definition set_lastPack (x : Z) (m : Mcu) : Mcu :=
  set_Automode m ((mc_Automode m) <| am_lastPackCNGorDTMF := x |>).

(** A telephone event. *)
Definition recin_avt (is_sync_rtp : bool) (p : RTPPacket) : Rec Mcu unit :=
  rec_when is_sync_rtp (rec_fail RECIN_SYNC_RTP_NOT_ACCEPTABLE) ;;;
  avt_on <- rec_get mc_AVT_PlayoutOn ;;
  rec_when (negb (avt_on =? 0))
    (i_ok <- rec_op (fun m =>
       '(r, d) ← DtmfInsertEvent (mc_DTMF m) (rtp_payload p) (rtp_payloadLen p) (rtp_timeStamp p);
       Some (r, m <| mc_DTMF := d |>)) ;;
     if negb (i_ok =? 0) then rec_fail i_ok else rec_ret tt) ;;;
  rec_modify (fun m => if mc_usingStereo m =? 0 then set_lastPack 1 m else m).

Definition buffer_flush (m : Mcu) : Mcu :=
  m <| mc_PacketBuffer := (PacketBufferFlush (mc_PacketBuffer m)).2 |>.

(** A comfort noise packet; the result is [flushed]. *)
Definition recin_cng (is_sync_rtp : bool) (p : RTPPacket) : Rec Mcu bool :=
  fsCng <- rec_try (fun m => DbGetSampleRate (mc_codec_DB m) (rtp_payloadType p)) ;;
  rec_when is_sync_rtp (rec_fail RECIN_SYNC_RTP_NOT_ACCEPTABLE) ;;;
  let fsCng := if 32000 <? fsCng then 32000 else fsCng in
  rec_modify (fun m =>
    if negb (fsCng =? mc_fs m) && (8000 <? fsCng)
    then (buffer_flush m) <| mc_new_codec := 1 |> <| mc_current_Codec := -1 |> else m) ;;;
  r <- rec_op (fun m =>
    '(i_ok, flushed, b) ← PacketBufferInsert (mc_PacketBuffer m) p (mc_av_sync m);
    Some (i_ok, flushed, m <| mc_PacketBuffer := b |>)) ;;
  let '(i_ok, flushed) := r in
  rec_check i_ok RECIN_CNG_ERROR ;;;
  rec_modify (set_lastPack 1) ;;;
  rec_ret flushed.

Definition update_split_info (codec payloadLen : Z) : Rec Mcu unit :=
  i_ok <- rec_op (fun m =>
    let '(r, si) := DbGetSplitInfo (mc_PayloadSplit m) codec payloadLen in
    Some (r, m <| mc_PayloadSplit := si |>)) ;;
  rec_check i_ok i_ok.

(** A speech packet; the result is [flushed]. *)
Definition recin_speech (is_sync_rtp : bool) (p : RTPPacket) : Rec Mcu bool :=
  curr_Codec <- rec_try (fun m => DbGetCodec (mc_codec_DB m) (rtp_payloadType p)) ;;
  current_Codec <- rec_get mc_current_Codec ;;
  rec_when (negb (curr_Codec =? current_Codec))
    (rec_check curr_Codec RECIN_UNKNOWNPAYLOAD ;;;
     rec_when is_sync_rtp (rec_fail RECIN_SYNC_RTP_CHANGED_CODEC) ;;;
     rec_modify (fun m => m <| mc_current_Codec := s16 curr_Codec |>
                            <| mc_current_Payload := s16 (rtp_payloadType p) |>) ;;;
     update_split_info curr_Codec (rtp_payloadLen p) ;;;
     rec_modify (fun m => (buffer_flush m) <| mc_new_codec := 1 |>)) ;;;
  r <- rec_op (fun m =>
    '(i_ok, flushed, b) ← SplitAndInsertPayload p (mc_PacketBuffer m) (mc_PayloadSplit m) (mc_av_sync m);
    Some (i_ok, flushed, m <| mc_PacketBuffer := b |>)) ;;
  let '(i_ok, flushed) := r in
  rec_check i_ok i_ok ;;;
  rec_modify (fun m => if negb (am_lastPackCNGorDTMF (mc_Automode m) =? 0)
                       then set_lastPack (-1) m else m) ;;;
  rec_ret flushed.

(** One round of the loop over the payloads: the packet with its new time
    stamp, and [flushed]. *)
Definition recin_payload (is_sync_rtp isREDPayload : bool) (k : Z) (p : RTPPacket) (flushed : bool)
    : Rec Mcu (RTPPacket * bool) :=
  let p := p <| rtp_rcuPlCntr := if isREDPayload then k else 0 |> in
  ilbc <- rec_try (fun m => DbGetPayload (mc_codec_DB m) kDecoderILBC) ;;
  rec_when ((rtp_payloadType p =? ilbc) && negb is_sync_rtp)
    (codec <- rec_try (fun m => DbGetCodec (mc_codec_DB m) (rtp_payloadType p)) ;;
     update_split_info codec (rtp_payloadLen p)) ;;;
  i_ok <- rec_op (GetTimestampScaling (rtp_payloadType p)) ;;
  rec_check i_ok i_ok ;;;
  p <- rec_op (recin_scale p) ;;
  avt <- rec_try (fun m => DbGetPayload (mc_codec_DB m) kDecoderAVT) ;;
  cng <- rec_get (fun m => DbIsCNGPayload (mc_codec_DB m) (rtp_payloadType p)) ;;
  flushed <-
    (if rtp_payloadType p =? avt then recin_avt is_sync_rtp p ;;; rec_ret flushed
     else if cng then recin_cng is_sync_rtp p
     else recin_speech is_sync_rtp p) ;;
  rec_modify (fun m => if (flushed : bool) then m <| mc_new_codec := 1 |> else m) ;;;
  rec_ret (p, flushed).

(** The loop, from payload [k] on; the result is the packets as the loop leaves
    them. *)
Fixpoint recin_loop (is_sync_rtp isREDPayload : bool) (k : Z) (ps : list RTPPacket)
    (flushed : bool) : Rec Mcu (list RTPPacket) :=
  match ps with
  | [] => rec_ret []
  | p :: ps =>
      r <- recin_payload is_sync_rtp isREDPayload k p flushed ;;
      ps <- recin_loop is_sync_rtp isREDPayload (k + 1) ps r.2 ;;
      rec_ret (r.1 :: ps)
  end.

(** "Reinitialize NetEq if it's needed (changed SSRC or first call)". *)
Definition recin_reinit (p : RTPPacket) (m : Mcu) : Mcu :=
  if negb (rtp_ssrc p =? mc_ssrc m) || (mc_first_packet m =? 1) then
    (buffer_flush (m <| mc_RTCP := RTCPInit (rtp_seqNumber p) |> <| mc_first_packet := 0 |>))
      <| mc_ssrc := rtp_ssrc p |>
      <| mc_timeStamp := rtp_timeStamp p |>
      <| mc_current_Payload := s16 (rtp_payloadType p) |>
      <| mc_new_codec := 1 |>
      <| mc_TSscalingInitialized := 0 |>
  else m.

(** "Only accept a few redundancies of the same type as the main data, AVT
    events and CNG." *)
Definition red_rejects (m : Mcu) (avt : Z) (p0 p1 : RTPPacket) : bool :=
  negb (rtp_payloadType p0 =? rtp_payloadType p1)
  && negb (rtp_payloadType p0 =? avt) && negb (rtp_payloadType p1 =? avt)
  && negb (DbIsCNGPayload (mc_codec_DB m) (rtp_payloadType p0))
  && negb (DbIsCNGPayload (mc_codec_DB m) (rtp_payloadType p1)).

(** The payloads of the packet and [isREDPayload]; [RTPpacket[1]] is not
    initialised before the split. *)
Definition recin_red (is_sync_rtp : bool) (p uninit : RTPPacket) : Rec Mcu (list RTPPacket * bool) :=
  red <- rec_try (fun m => DbGetPayload (mc_codec_DB m) kDecoderRED) ;;
  if rtp_payloadType p =? red then
    rec_when is_sync_rtp (rec_fail RECIN_SYNC_RTP_NOT_ACCEPTABLE) ;;;
    r <- rec_try (fun _ => RedundancySplit [p; uninit] 2) ;;
    let '(i_ok, hs, no_of_payloads) := r in
    rec_check i_ok i_ok ;;;
    n <- rec_try (fun _ => no_of_payloads) ;;
    p0 <- rec_try (fun _ => aget hs 0) ;;
    p1 <- rec_try (fun _ => aget hs 1) ;;
    avt <- rec_try (fun m => DbGetPayload (mc_codec_DB m) kDecoderAVT) ;;
    rejected <- rec_get (fun m => red_rejects m avt p0 p1) ;;
    let n := if (1 <? n) && rejected then 1 else n in
    rec_ret (take (Z.to_nat n) hs, true)
  else rec_ret ([p], false).

(** A call of the bandwidth estimator of a codec: function, codec state and the other
    arguments.  It works on the codec's state, which the MCU does not look into. *)
Record BweCall := mkBweCall {
  bw_func : ptr;
  bw_state : ptr;
  bw_payload : list Z;        (* the bytes from there on *)
  bw_payloadLen : Z;
  bw_seqNumber : Z;
  bw_timeStamp : Z;
  bw_timeRec : Z
}.

(** "re-align to 16-bit alignment", in place. *)
Definition realign (p : RTPPacket) : option RTPPacket :=
  if rtp_starts_byte1 p =? 0 then Some p else
  bytes ← aload (rtp_payload p) 1 (rtp_payloadLen p);
  payload ← astore (rtp_payload p) 0 bytes;
  Some (p <| rtp_payload := payload |> <| rtp_starts_byte1 := 0 |>).

(** "If not sync RTP, update Bandwidth Estimate": the call, if the codec has a function
    for it. *)
Definition recin_bwe (p0 : RTPPacket) (uw32_timeRec : Z) (m : Mcu) : option (option BweCall) :=
  curr_Codec ← DbGetCodec (mc_codec_DB m) (rtp_payloadType p0);
  if curr_Codec <? 0 then Some None else
  codecPos ← aget (db_position (mc_codec_DB m)) curr_Codec;
  entry ← aget (db_entry (mc_codec_DB m)) codecPos;
  if ce_funcUpdBWEst entry =? NULL then Some None else
  p0 ← realign p0;
  Some (Some (mkBweCall (ce_funcUpdBWEst entry) (ce_codec_state entry) (rtp_payload p0) (rtp_payloadLen p0)
                (rtp_seqNumber p0) (rtp_timeStamp p0) uw32_timeRec)).

(** "update statistics" of a packet that follows speech. *)
Definition recin_arrival (p0 : RTPPacket) (m : Mcu) : option (unit * Mcu) :=
  if (0 <=? s32 (u32 (rtp_timeStamp p0 - mc_timeStamp m))) && (mc_new_codec m =? 0) then
    '(_, a) ← UpdateIatStatistics (mc_Automode m) (pb_maxInsertPositions (mc_PacketBuffer m))
                (rtp_seqNumber p0) (rtp_timeStamp p0) (mc_fs m)
                (DbIsMDCodec (mc_current_Codec m))
                (bool_decide (mc_PlayoutMode m = kPlayoutStreaming));
    Some (tt, set_Automode m a)
  else Some (tt, m).

Section RecIn.
Context (call_durationEst : ptr -> ptr -> list Z -> Z -> Z).

Definition recin_size (m : Mcu) : option Z :=
  PacketBufferGetSize call_durationEst (mc_PacketBuffer m) (mc_codec_DB m) (mc_av_sync m).

Definition recin_stats (temp_bufsize : Z) (p0 : RTPPacket) : Rec Mcu unit :=
  last <- rec_get (fun m => am_lastPackCNGorDTMF (mc_Automode m)) ;;
  if last =? 0 then
    size <- rec_try recin_size ;;
    let temp_bufsize := s32 (size - temp_bufsize) in
    rec_modify (fun m =>
      if (0 <? temp_bufsize) && negb (temp_bufsize =? am_packetSpeechLenSamp (mc_Automode m))
      then set_Automode m (SetPacketSpeechLen (mc_Automode m) (s16 temp_bufsize) (mc_fs m)).2
      else m) ;;;
    rec_op (recin_arrival p0)
  else if last =? -1 then
    rec_modify (fun m => set_Automode m ((mc_Automode m) <| am_lastPackCNGorDTMF := 0 |>
                                                         <| am_packetIatCountSamp := 0 |>))
  else rec_ret tt.

(** [uninit] is the initial content of the local [RTPpacket[1]]; the result is
    the return value and the call of the bandwidth estimator. *)
Definition recin_body (p uninit : RTPPacket) (uw32_timeRec : Z) : Rec Mcu (Z * option BweCall) :=
  av_sync <- rec_get mc_av_sync ;;
  is_sync_rtp <- rec_try (fun _ => if (av_sync : bool)
                                   then IsSyncPayload (rtp_payload p) (rtp_payloadLen p)
                                   else Some false) ;;
  temp_bufsize <- rec_try recin_size ;;
  rec_modify (recin_reinit p) ;;;
  rec_when (negb is_sync_rtp)
    (rec_modify (fun m => m <| mc_RTCP :=
       RTCPUpdate (mc_RTCP m) (rtp_seqNumber p) (rtp_timeStamp p) uw32_timeRec |>)) ;;;
  r <- recin_red is_sync_rtp p uninit ;;
  let '(ps, isREDPayload) := r in
  ps <- recin_loop is_sync_rtp isREDPayload 0 ps false ;;
  p0 <- rec_try (fun _ => aget ps 0) ;;
  bwe <- (if (is_sync_rtp : bool) then rec_ret None else rec_try (recin_bwe p0 uw32_timeRec)) ;;
  recin_stats temp_bufsize p0 ;;;
  rec_ret (0, bwe).

(** The return value, the call of the bandwidth estimator, and the instance. *)
Definition RecInInternal (p uninit : RTPPacket) (uw32_timeRec : Z) (m : Mcu)
    : option (Z * option BweCall * Mcu) :=
  '(r, m) ← recin_body p uninit uw32_timeRec m;
  Some (match r with inl code => (code, None) | inr x => x end, m).
End RecIn.

(** ** Resets ([mcu_reset.c]) *)

Definition zero_automode : Automode :=
  mkAutomode 0 0 (replicate 65 0) 0 0 0 0 0 0 0 0 0 0 0 0 0 0 (replicate 8 0) (replicate 8 0)
    0 0 0 0 0 0 0 0 0 0 0 0 0 0.
Definition zero_bufstats : BufStats := mkBufStats 0 0 0 0 0 zero_automode.

Definition ResetMcuInCallStats (m : Mcu) : Mcu :=
  m <| mc_lostTS := 0 |> <| mc_lastReportTS := 0 |>
    <| mc_PacketBuffer := (mc_PacketBuffer m) <| pb_discardedPackets := 0 |> |>.

Definition ResetWaitingTimeStats (m : Mcu) : Mcu :=
  m <| mc_waiting_times := replicate (Z.to_nat kLenWaitingTimes) 0 |>
    <| mc_len_waiting_times := 0 |> <| mc_next_waiting_time_index := 0 |>.

Definition StoreWaitingTime (m : Mcu) (waiting_time : Z) : option Mcu :=
  w ← aset (mc_waiting_times m) (mc_next_waiting_time_index m) waiting_time;
  let next := mc_next_waiting_time_index m + 1 in
  Some (m <| mc_waiting_times := w |>
          <| mc_next_waiting_time_index := if kLenWaitingTimes <=? next then 0 else next |>
          <| mc_len_waiting_times := if mc_len_waiting_times m <? kLenWaitingTimes
                                     then mc_len_waiting_times m + 1
                                     else mc_len_waiting_times m |>).

Definition ResetMcuJitterStat (m : Mcu) : Mcu :=
  set_Automode m ((mc_Automode m) <| am_countIAT500ms := 0 |> <| am_countIAT1000ms := 0 |>
                                  <| am_countIAT2000ms := 0 |> <| am_longestIATms := 0 |>).

Definition McuReset (m : Mcu) : Z * Mcu :=
  let m := m <| mc_one_desc := 0 |> in
  let m := set_Automode m ((mc_Automode m) <| am_extraDelayMs := 0 |>
                             <| am_minimum_delay_ms := 0 |> <| am_maximum_delay_ms := 10000 |>) in
  let m := m <| mc_PlayoutMode := kPlayoutOn |> <| mc_av_sync := false |>
             <| mc_codec_DB := DbReset |> <| mc_PayloadSplit := mkSplitInfo 0 0 |>
             <| mc_PacketBuffer := (PacketBufferFlush (mc_PacketBuffer m)).2
                  <| pb_memorySizeW16 := 0 |> <| pb_maxInsertPositions := 0 |> |>
             <| mc_BufferStat := zero_bufstats |> in
  let '(ok, dtmf) := DtmfDecoderInit (mc_DTMF m) 8000 560 in
  let m := m <| mc_DTMF := dtmf |> in
  if negb (ok =? 0) then (ok, m) else
  let m := m <| mc_NoOfExpandCalls := 0 |> <| mc_current_Codec := -1 |>
             <| mc_current_Payload := -1 |> <| mc_millisecondsPerCall := 10 |>
             <| mc_timestampsPerCall := 80 |> <| mc_fs := 8000 |> <| mc_first_packet := 1 |> in
  let m := ResetMcuJitterStat (ResetWaitingTimeStats (ResetMcuInCallStats m)) in
  (0, set_Automode m (ResetAutomode (mc_Automode m) (pb_maxInsertPositions (mc_PacketBuffer m)))).

(** ** Sampling rate ([set_fs.c], without 48 kHz) *)

Definition McuSetFs (m : Mcu) (fs : Z) : Z * Mcu :=
  let set (MaxPLCtime ms : Z) :=
    let '(ok, dtmf) := DtmfDecoderInit (mc_DTMF m) fs MaxPLCtime in
    (s16 ok, m <| mc_DTMF := dtmf |>
               <| mc_timestampsPerCall := u16 (mc_millisecondsPerCall m * ms) |>
               <| mc_fs := fs |>) in
  if fs =? 8000 then set 560 8
  else if fs =? 16000 then set 1120 16
  else if fs =? 32000 then set 2240 32
  else (CODEC_DB_UNSUPPORTED_FS, m).
