(* ===== verification/McuInv.v ===== *)
(** Reception keeps the MCU well-formed: the invariant of the whole instance,
    and that [RecInInternal] never leaves its arrays and preserves it. *)
From S2P Require Import Prelude Prog Rtp CodecDb PacketBuffer PacketBufferInv Rtcp Dtmf.
From S2P Require Import SplMath Automode AutomodeInv BufStats Split Mcu.

(** ** The codec database finds comfort noise *)

(** A noted comfort-noise payload type comes with a registered codec. *)
Definition cng_ok (db : CodecDbInst) : Prop :=
  forall pt, DbIsCNGPayload db pt = true -> is_Some (db_lookup db kDecoderCNG).

Lemma db_reachable_cng db : db_reachable db -> cng_ok db.
Proof.
  induction 1 as [|db codec e r db' Hr IH H|db codec r db' Hr IH H]; intros pt Hpt.
  - done.
  - pose proof (db_reachable_inv _ Hr) as Hi.
    destruct (DbAdd_spec _ codec e Hi) as (r' & ? & H' & _ & _ & Hne & _ & Heq).
    rewrite H in H'. injection H' as <- <-.
    destruct (decide (r = 0)) as [->|Hr0]; [|rewrite (Hne Hr0) in *; by eapply IH].
    rewrite (Heq eq_refl). destruct (decide (_ ∧ _)) as [_|Hd]; [by eexists|].
    destruct (decide (codec = kDecoderCNG)) as [->|Hc].
    + unfold db_cng_noted in Hd. destruct (db_lookup db kDecoderCNG); [by eexists|].
      destruct Hd. by rewrite andb_false_r.
    + unfold DbIsCNGPayload in *. rewrite (DbAdd_cng _ _ _ _ _ Hc H) in Hpt. by eapply IH.
  - pose proof (db_reachable_inv _ Hr) as Hi.
    destruct (DbRemove_spec _ codec Hi) as (r' & ? & H' & _ & _ & Hne & Heq).
    rewrite H in H'. injection H' as <- <-.
    rewrite Heq. destruct (decide (codec = kDecoderCNG)) as [->|Hc].
    + destruct (decide (r = 0)) as [->|Hr0].
      * exfalso. unfold DbRemove in H. cbn in H.
        change (db_reserved kDecoderCNG) with false in H. cbv iota in H.
        bind_inv. case_match; [done|]. bind_inv. case_match. bind_inv. simplify_eq/=.
        unfold DbIsCNGPayload in Hpt. cbn in Hpt.
        apply existsb_exists in Hpt as (t & Ht & Hb).
        apply list_elem_of_In, list_elem_of_fmap in Ht as (y & -> & _). done.
      * exfalso. rewrite (Hne Hr0) in Hpt. specialize (Heq kDecoderCNG).
        rewrite decide_True in Heq by done. rewrite (Hne Hr0) in Heq.
        destruct (IH _ Hpt). congruence.
    + rewrite decide_False by congruence. 
      unfold DbIsCNGPayload in *. rewrite (DbRemove_cng _ _ _ _ Hc H) in Hpt. by eapply IH.
Qed.

Section Db.
Context (db : CodecDbInst) (Hdb : db_inv db) (Hcng : cng_ok db).

(** A codec id that the search returns is registered. *)
Lemma DbGetCodec_registered_or_error pt :
  exists r, DbGetCodec db pt = Some r /\ (0 <= r -> is_Some (db_lookup db r)).
Proof using Hdb Hcng.
  destruct (DbGetCodec_lookup _ Hdb pt) as (r & Hr & H). exists r. split; [done|].
  intros H0. destruct H as [(e & He & _)|[_ Hre]]; [by eexists|]. subst r.
  destruct (DbIsCNGPayload db pt) eqn:E; [by eapply Hcng|]. done.
Qed.

Lemma DbGetSampleRate_total pt : exists fs, DbGetSampleRate db pt = Some fs.
Proof using Hdb Hcng.
  unfold DbGetSampleRate. destruct (cng_index _ _ _); [by eexists|].
  destruct (DbGetCodec_registered_or_error pt) as (r & -> & Hr). cbn [mbind option_bind].
  destruct (Z.leb_spec 0 r); [|by eexists]. destruct (Hr ltac:(lia)) as [e He].
  rewrite (DbGetPtrs_lookup db r e _ Hdb He). by eexists.
Qed.
End Db.

(** ** Splitting *)

(** What [DbGetSplitInfo] and the reset leave in the split information. *)
Definition split_ok (si : SplitInfo) : Prop :=
  si_deltaBytes si = NO_SPLIT \/ si_deltaBytes si < -10 /\ 0 <= si_deltaTime si \/
  0 <= si_deltaBytes si.

Lemma DbGetSplitInfo_ok si codec len : split_ok si -> split_ok (DbGetSplitInfo si codec len).2.
Proof.
  intros H. unfold DbGetSplitInfo, split_frames, split_ok in *.
  repeat case_match; simpl; first [done | by left | by right; left | by right; right].
Qed.

(** A packet as [RTPPayloadInfo] and [RedundancySplit] hand it over. *)
Record input_ok (p : RTPPacket) : Prop := {
  io_packet : packet_ok p;
  io_len : 0 < rtp_payloadLen p < 32768;
  io_ts : in_u32 (rtp_timeStamp p);
  io_bytes : byte_list (rtp_payload p)
}.

Lemma PacketBufferInsert_keeps inst p av_sync :
  pb_inv inst -> packet_ok p ->
  exists r fl inst', PacketBufferInsert inst p av_sync = Some (r, fl, inst') /\ pb_inv inst' /\
    (rtp_payloadLen p <= 0 -> r = -1).
Proof.
  intros Hi Hp. pose proof (len_ok_range inst p).
  destruct (PacketBufferInsert_cases inst p av_sync Hi Hp)
    as [[Hl H1]|[(Hl & _ & H1)|(Hl & i1 & fl & i0 & i' & H1 & Hi' & _)]];
    do 3 eexists; (split; [exact H1|]); (split; [done|]); intros; try done; rewrite Hl in *;
    destruct H as [H _]; specialize (H eq_refl); lia.
Qed.

Lemma insert_seq_keeps l av_sync : forall fl buf,
  Forall (fun pe => packet_ok pe.1) l -> pb_inv buf ->
  exists r fl' buf', insert_seq l fl buf av_sync = Some (r, fl', buf') /\ pb_inv buf'.
Proof.
  induction l as [|[p e] l IH]; intros fl buf HF Hi; cbn [insert_seq]; [eauto|].
  apply Forall_cons_iff in HF as [Hp HF].
  destruct (PacketBufferInsert_keeps buf p av_sync Hi Hp) as (r & fl' & buf' & -> & Hi' & _).
  cbn [mbind option_bind]. destruct (r <? 0); [eauto|]. by apply IH.
Qed.

Lemma chunk_ok p d t k l :
  packet_ok p -> 0 <= k -> 0 <= d -> k * d + l <= rtp_payloadLen p -> packet_ok (chunk p d t k l).
Proof.
  intros [Hs Hz] Hk Hd Hl. unfold packet_ok, chunk. cbn [rtp_starts_byte1 rtp_payloadLen rtp_payload].
  assert (0 <= k * d) by nia.
  rewrite zlen_ptr_w16, Z.shiftr_div_pow2, land_1 by (rewrite ?Z.shiftr_nonneg; lia).
  change (2 ^ 1) with 2. pose proof (Z.div_mod (k * d) 2 ltac:(lia)).
  assert ((k * d) mod 2 = 0 \/ (k * d) mod 2 = 1) as [E|E]
    by (pose proof (Z.mod_pos_bound (k * d) 2 ltac:(lia)); lia);
    rewrite E in *; destruct Hs as [Hs|Hs]; rewrite Hs in *;
    [change (Z.lxor 0 0) with 0|change (Z.lxor 1 0) with 1|change (Z.lxor 0 1) with 1
    |change (Z.lxor 1 1) with 0]; lia.
Qed.

Lemma chunks_ok p d t e n :
  packet_ok p -> 0 <= d -> n * d <= rtp_payloadLen p ->
  Forall (fun pe => packet_ok pe.1) (chunks p d t e 0 n).
Proof.
  intros Hp Hd Hn. unfold chunks. apply Forall_fmap, Forall_forall. intros k Hk.
  apply list_elem_of_In, elem_of_seqZ in Hk. cbn. apply chunk_ok; try done; nia.
Qed.

Section Split.
Context (p : RTPPacket) (Hp : input_ok p) (av_sync : bool) (buf : PacketBuf) (Hbuf : pb_inv buf).

Lemma hard_split_keeps d t :
  0 <= d ->
  exists r fl buf', rest_of (hard_loop (S (Z.to_nat (rtp_payloadLen p))) (rtp_payload p) d t 0 p
      (rtp_payloadLen p) false buf av_sync) av_sync PBUFFER_INSERT_ERROR4 false
    = Some (r, fl, buf') /\ pb_inv buf'.
Proof using Hp Hbuf.
  intros Hd. destruct Hp as [Hok Hlen Hts _].
  destruct (Z.eq_dec d 0) as [->|].
  - cbn [hard_loop]. destruct (Z.leb_spec 0 (rtp_payloadLen p)); [|lia]. cbv zeta.
    destruct (PacketBufferInsert_keeps buf (p <| rtp_payloadLen := s16 0 |>) av_sync Hbuf)
      as (r & fl & buf' & -> & Hi & Hr).
    { destruct Hok as [? ?]. split; [done|]. cbn. change (s16 0) with 0. lia. }
    rewrite Hr by done. cbn. eauto.
  - pose proof (Z.div_mod (rtp_payloadLen p) d ltac:(lia)).
    pose proof (Z.mod_pos_bound (rtp_payloadLen p) d ltac:(lia)).
    pose proof (hard_loop_seq p d t (rtp_payloadLen p / d) (rtp_payloadLen p mod d)
      (S (Z.to_nat (rtp_payloadLen p))) 0 (rtp_payloadLen p) false buf av_sync) as Hloop.
    assert (0 <= rtp_payloadLen p / d) by (apply Z.div_pos; lia).
    assert (chunk p d t 0 (rtp_payloadLen p) = p) as E by by apply chunk_first.
    rewrite E in Hloop.
    replace ((rtp_payloadLen p / d - 0) * d + rtp_payloadLen p mod d) with (rtp_payloadLen p)
      in Hloop by lia.
    rewrite Hloop by nia.
    apply insert_seq_keeps; [|done]. apply Forall_app; split; [apply chunks_ok; nia || done|].
    case_match; constructor; [|done]. cbn. apply chunk_ok; try done; nia.
Qed.

Lemma soft_split_keeps dt mult :
  0 <= dt -> 0 < mult ->
  exists d, soft_split_size (rtp_payloadLen p) dt mult = Some d /\
  exists r fl buf', rest_of (soft_loop (S (Z.to_nat (rtp_payloadLen p))) (rtp_payload p) d dt 0
      (p <| rtp_payloadLen := s16 d |>) (rtp_payloadLen p) false buf av_sync)
      av_sync PBUFFER_INSERT_ERROR2 true
    = Some (r, fl, buf') /\ pb_inv buf'.
Proof using Hp Hbuf.
  intros Ht Hm. destruct Hp as [Hok Hlen Hts _].
  destruct (soft_split_size_spec (rtp_payloadLen p) dt mult) as (d & -> & Hd & _); [lia..|].
  exists d. split; [done|].
  pose proof (Z.div_mod (rtp_payloadLen p) d ltac:(lia)).
  pose proof (Z.mod_pos_bound (rtp_payloadLen p) d ltac:(lia)).
  assert (1 <= rtp_payloadLen p / d) by (apply Z.div_le_lower_bound; lia).
  set (n := rtp_payloadLen p / d - 1) in *.
  replace (rtp_payloadLen p / d) with (n + 1) in * by lia.
  pose proof (soft_loop_seq p d dt n (rtp_payloadLen p mod d)
    (S (Z.to_nat (rtp_payloadLen p))) 0 false buf av_sync) as Hloop.
  assert (chunk p d (Z.shiftr (2 * d) dt) 0 d = p <| rtp_payloadLen := d |>) as E
    by (rewrite <- (chunk_first p d (Z.shiftr (2 * d) dt) Hts) at 2; done).
  rewrite E in Hloop.
  replace ((n + 1 - 0) * d + rtp_payloadLen p mod d) with (rtp_payloadLen p) in Hloop by lia.
  rewrite s16_id by (simpl; lia). rewrite Hloop by nia.
  apply insert_seq_keeps; [|done]. apply Forall_app; split; [apply chunks_ok; nia || done|].
  constructor; [|done]. cbn. apply chunk_ok; try done; nia.
Qed.

(** Splitting ends, stays inside of the packet and keeps the buffer. *)
Lemma SplitAndInsert_keeps si :
  split_ok si ->
  exists r fl buf', SplitAndInsertPayload p buf si av_sync = Some (r, fl, buf') /\ pb_inv buf'.
Proof using Hp Hbuf.
  intros Hsi. pose proof (io_packet _ Hp) as [Hs Hz].
  unfold SplitAndInsertPayload.
  assert (exists b, (if av_sync then IsSyncPayload (rtp_payload p) (rtp_payloadLen p)
                     else Some false) = Some b) as [b ->].
  { destruct av_sync; [|by eexists]. apply IsSyncPayload_total. lia. }
  cbn [mbind option_bind]. destruct (_ || b) eqn:E.
  { destruct (PacketBufferInsert_keeps buf p av_sync Hbuf ltac:(done)) as (r & fl & buf' & -> & Hi & _).
    cbn. eauto. }
  apply orb_false_elim in E as [E ->]. bool_lia.
  destruct (Z.ltb_spec (si_deltaBytes si) (-10)).
  - destruct Hsi as [?|[[_ Ht]|?]]; [done| |lia].
    destruct (soft_split_keeps (si_deltaTime si) (Z.abs (si_deltaBytes si) - 10))
      as (d & -> & Hr); [lia..|]. exact Hr.
  - destruct Hsi as [?|[?|Hd]]; [done|lia|].
    exact (hard_split_keeps (si_deltaBytes si) (si_deltaTime si) Hd).
Qed.
End Split.

(** ** The size of the buffer *)

Section Size.
Context (call : ptr -> ptr -> list Z -> Z -> Z) (inst : PacketBuf) (db : CodecDbInst).
Context (Hi : pb_inv inst) (Hdb : db_inv db) (Hcng : cng_ok db) (av_sync : bool).

(** -1, an error code or the slot of a registered codec. *)
Definition pos_ok (pos : Z) : Prop := 0 <= pos -> is_Some (aget (db_entry db) pos).

Lemma size_codec_pos_total pt : exists pos, size_codec_pos db pt = Some pos /\ pos_ok pos.
Proof using Hdb Hcng.
  destruct (DbGetCodec_registered_or_error db Hdb Hcng pt) as (r & Hr & Hl).
  unfold size_codec_pos. rewrite Hr. cbn [mbind option_bind].
  destruct (Z.leb_spec 0 r); [|eexists; split; [done|]; intros ?; lia].
  destruct (Hl ltac:(lia)) as [e Hle]. apply db_lookup_Some in Hle as (pos & Hp & Hne & He).
  exists pos. split; [done|]. by eexists.
Qed.

Lemma PacketSize_total i s pos d :
  aget (pb_slot inst) i = Some s -> live s = true -> is_Some (aget (db_entry db) pos) ->
  exists n, PacketBufferGetPacketSize call inst i db pos d av_sync = Some n.
Proof using Hi.
  intros Hs Hl [e He]. unfold PacketBufferGetPacketSize. rewrite He. cbn [mbind option_bind].
  case_match; [by eexists|]. rewrite Hs. cbn [mbind option_bind].
  destruct av_sync; cbn [mbind option_bind]; [|by eexists].
  destruct (slot_sync_total (pb_memory inst) (pb_memorySizeW16 inst) s) as [b ->]; try done.
  - apply Hi.
  - eapply aget_Forall; [apply Hi|done].
  - cbn. case_match; by eexists.
Qed.

Lemma size_loop_total slots : forall pre d lpos lpt x,
  pb_slot inst = pre ++ slots -> pos_ok lpos ->
  is_Some (size_loop call inst db av_sync slots (zlen pre) d lpos lpt x).
Proof using Hi Hdb Hcng.
  induction slots as [|s slots IH]; intros pre d lpos lpt x Hpre Hpos; cbn [size_loop]; [by eexists|].
  assert (pb_slot inst = (pre ++ [s]) ++ slots) as Hpre' by by rewrite <- app_assoc.
  assert (zlen pre + 1 = zlen (pre ++ [s])) as Hz by (rewrite zlen_app, zlen_cons, zlen_nil; lia).
  rewrite Hz. destruct (Z.eqb_spec (sl_payloadLengthBytes s) 0); [by apply IH|].
  destruct (size_codec_pos_total (sl_payloadType s)) as (pos & Hsp & Hp).
  assert (exists pos', (if sl_payloadType s =? lpt then Some lpos
      else size_codec_pos db (sl_payloadType s)) = Some pos' /\ pos_ok pos') as (pos' & -> & Hp')
    by (case_match; eauto).
  cbn [mbind option_bind]. destruct (Z.leb_spec 0 pos'); [|by apply IH].
  destruct (PacketSize_total (zlen pre) s pos' d) as [dur ->].
  - rewrite Hpre. replace (zlen pre) with (zlen pre + 0) by lia. rewrite aget_app_r by lia. done.
  - unfold live. bool_lia. by apply negb_true_iff, Z.eqb_neq.
  - by apply Hp'.
  - cbn [mbind option_bind]. by apply IH.
Qed.

Lemma PacketBufferGetSize_total : is_Some (PacketBufferGetSize call inst db av_sync).
Proof using Hi Hdb Hcng.
  unfold PacketBufferGetSize.
  destruct (size_loop_total (pb_slot inst) [] (pb_packSizeSamples inst) (-1) (-1) 0) as [n Hn];
    [done|intros ?; lia|]. change (zlen []) with 0 in Hn. rewrite Hn. by eexists.
Qed.
End Size.

(** ** The invariant of the instance *)

(** The ring of waiting times and its write index. *)
Definition wait_ok (w : list Z) (next : Z) : Prop :=
  zlen w = kLenWaitingTimes /\ 0 <= next < kLenWaitingTimes.

Record mcu_inv (m : Mcu) : Prop := {
  mi_db : db_inv (mc_codec_DB m);
  mi_cng : cng_ok (mc_codec_DB m);
  mi_buf : pb_inv (mc_PacketBuffer m);
  mi_am : am_inv (mc_Automode m);
  mi_dtmf : exists q, dtmf_queue (mc_DTMF m) q;
  mi_split : split_ok (mc_PayloadSplit m);
  mi_codec : -1 <= mc_current_Codec m < NUM_TOTAL_CODECS;
  mi_wait : wait_ok (mc_waiting_times m) (mc_next_waiting_time_index m)
}.

(** The programs of the reception keep the instance well-formed and its database
    [db]. *)
Section Safe.
Context (db : CodecDbInst).

Definition keeps (m : Mcu) : Prop := mcu_inv m /\ mc_codec_DB m = db.

(** *** Updates that keep the invariant *)

Lemma keeps_frame m m' :
  keeps m -> mc_codec_DB m' = mc_codec_DB m -> mc_PacketBuffer m' = mc_PacketBuffer m ->
  mc_Automode m' = mc_Automode m -> mc_DTMF m' = mc_DTMF m ->
  mc_PayloadSplit m' = mc_PayloadSplit m -> mc_current_Codec m' = mc_current_Codec m ->
  mc_waiting_times m' = mc_waiting_times m ->
  mc_next_waiting_time_index m' = mc_next_waiting_time_index m -> keeps m'.
Proof.
  intros [[] Hdb] E1 E2 E3 E4 E5 E6 E7 E8. split; [|congruence].
  split; rewrite ?E1, ?E2, ?E3, ?E4, ?E5, ?E6, ?E7, ?E8; done.
Qed.

Lemma keeps_codec m c :
  keeps m -> -1 <= c < NUM_TOTAL_CODECS -> keeps (m <| mc_current_Codec := c |>).
Proof. intros [[] Hdb] Hc. split; [by split|done]. Qed.

Lemma keeps_buffer m b : keeps m -> pb_inv b -> keeps (m <| mc_PacketBuffer := b |>).
Proof. intros [[] Hdb] Hb. split; [by split|done]. Qed.

Lemma keeps_automode m a : keeps m -> am_inv a -> keeps (set_Automode m a).
Proof. intros [[] Hdb] Ha. split; [by split|done]. Qed.

Lemma keeps_dtmf m d q : keeps m -> dtmf_queue d q -> keeps (m <| mc_DTMF := d |>).
Proof. intros [[] Hdb] Hd. split; [|done]. split; try done. by exists q. Qed.

Lemma keeps_split m si : keeps m -> split_ok si -> keeps (m <| mc_PayloadSplit := si |>).
Proof. intros [[] Hdb] Hs. split; [by split|done]. Qed.

Lemma keeps_flush m : keeps m -> keeps (buffer_flush m).
Proof. intros Hm. apply keeps_buffer; [done|]. apply Flush_inv, Hm. Qed.

Lemma keeps_lastPack m x : keeps m -> keeps (set_lastPack x m).
Proof. intros Hm. apply keeps_automode; [done|]. destruct Hm as [[] _]. by destruct mi_am0. Qed.

Ltac frame := eapply keeps_frame; [eassumption|done..].

(** *** The steps of the reception *)

Lemma GetCodec_safe m pt :
  keeps m -> exists r, DbGetCodec (mc_codec_DB m) pt = Some r /\
    (0 <= r -> is_Some (db_lookup (mc_codec_DB m) r)).
Proof. intros [[] _]. by apply DbGetCodec_registered_or_error. Qed.

Lemma GetPayload_safe codec :
  0 <= codec < NUM_TOTAL_CODECS ->
  safe keeps (rec_try (fun m => DbGetPayload (mc_codec_DB m) codec)) (fun x => DbGetPayload db codec = Some x).
Proof.
  intros Hc. apply safe_try. intros m [Hi Hd].
  rewrite <- Hd, (DbGetPayload_lookup _ _ (mi_db _ Hi)) by done. eauto.
Qed.

Lemma DtmfInsertEvent_keeps d q p :
  dtmf_queue d q -> input_ok p ->
  exists r d' q', DtmfInsertEvent d (rtp_payload p) (rtp_payloadLen p) (rtp_timeStamp p) = Some (r, d') /\
    dtmf_queue d' q'.
Proof.
  intros Hq [[Hs Hz] _ _ Hb]. destruct (Z.eq_dec (rtp_payloadLen p) 4) as [El|Hl].
  - rewrite El in *.
    destruct (rtp_payload p) as [|b0 [|b1 [|b2 [|b3 rest]]]]; try (cbn in Hz; unfold zlen in Hz; simpl in Hz; lia).
    do 4 (apply Forall_cons_iff in Hb as [? Hb]).
    destruct (DtmfInsertEvent_queue d q b0 b1 b2 b3 rest 4 (rtp_timeStamp p) Hq)
      as (r & d2 & q' & -> & Hq' & _); eauto.
  - unfold DtmfInsertEvent. rewrite (proj2 (Z.eqb_neq _ _) Hl). eauto.
Qed.

Lemma recin_avt_safe sync p : input_ok p -> safe keeps (recin_avt sync p) (fun _ => True).
Proof.
  intros Hp. unfold recin_avt.
  safe_step; intros _ _.
  safe_step; intros on _.
  eapply safe_bind; [apply safe_when; intros _|intros _ _].
  - eapply (safe_bind _ _ _ (fun _ => True)).
    + apply safe_op. intros m Hm. destruct (mi_dtmf _ (proj1 Hm)) as [q Hq].
      destruct (DtmfInsertEvent_keeps _ _ p Hq Hp) as (r & d' & q' & -> & Hq').
      cbn [mbind option_bind]. eexists _, _. split; [done|]. split; [|done].
      by eapply keeps_dtmf.
    + intros i_ok _. case_match; [apply safe_fail|by apply safe_ret].
  - apply safe_modify. intros m Hm. case_match; [by apply keeps_lastPack|done].
Qed.

Lemma PacketBufferInsert_safe_op p :
  packet_ok p ->
  safe keeps (rec_op (fun m => '(i_ok, flushed, b) ← PacketBufferInsert (mc_PacketBuffer m) p (mc_av_sync m);
    Some (i_ok, flushed, m <| mc_PacketBuffer := b |>))) (fun _ => True).
Proof.
  intros Hp. apply safe_op. intros m Hm.
  destruct (PacketBufferInsert_keeps (mc_PacketBuffer m) p (mc_av_sync m)) as (r & fl & b & -> & Hb & _);
    [apply Hm|done|]. cbn [mbind option_bind]. eexists _, _. split; [done|]. split; [|done].
  by apply keeps_buffer.
Qed.

Lemma recin_cng_safe sync p : input_ok p -> safe keeps (recin_cng sync p) (fun _ => True).
Proof.
  intros Hp. unfold recin_cng.
  eapply (safe_bind _ _ _ (fun _ => True)).
  { apply safe_try. intros m [[] _].
    destruct (DbGetSampleRate_total _ mi_db0 mi_cng0 (rtp_payloadType p)) as [fs ->]. eauto. }
  intros fs _. safe_step; intros _ _.
  eapply safe_bind.
  { apply safe_modify. intros m Hm. case_match; [|done].
    pose proof (keeps_flush _ Hm) as Hf.
    apply (keeps_codec _ (-1)) in Hf; [|by compute]. frame. }
  intros _ _. eapply safe_bind; [apply PacketBufferInsert_safe_op, Hp|].
  intros [i_ok fl] _. safe_step; intros _ _.
  eapply safe_bind; [apply safe_modify; intros; by apply keeps_lastPack|intros _ _].
  by apply safe_ret.
Qed.

Lemma update_split_info_safe codec len : safe keeps (update_split_info codec len) (fun _ => True).
Proof.
  unfold update_split_info. eapply (safe_bind _ _ _ (fun _ => True)).
  - apply safe_op. intros m Hm. pose proof (mi_split _ (proj1 Hm)) as Hs.
    apply (DbGetSplitInfo_ok _ codec len) in Hs.
    destruct (DbGetSplitInfo _ _ _) as [r si]. eexists _, _. split; [done|].
    split; [by apply keeps_split|done].
  - intros i_ok _. unfold rec_check. by case_match; [apply safe_fail|apply safe_ret].
Qed.

Lemma recin_speech_safe sync p : input_ok p -> safe keeps (recin_speech sync p) (fun _ => True).
Proof.
  intros Hp. unfold recin_speech.
  eapply (safe_bind _ _ _ (fun codec => 0 <= codec -> codec < NUM_TOTAL_CODECS)).
  { apply safe_try. intros m Hm.
    destruct (GetCodec_safe m (rtp_payloadType p) Hm) as (r & -> & Hr). eexists; split; [done|].
    intros Hr0. destruct (Hr Hr0) as [e He]. eapply db_lookup_range, He. apply Hm. }
  intros codec Hcodec. safe_step; intros cur _.
  eapply safe_bind.
  { apply safe_when. intros _.
    safe_step; intros ? Hc0. assert (0 <= codec) by exact Hc0. specialize (Hcodec Hc0).
    safe_step; intros _ _.
    eapply safe_bind; [apply safe_modify; intros m Hm|intros _ _].
    { unfold NUM_TOTAL_CODECS, kDecoderReservedEnd in Hcodec.
      apply (keeps_codec _ (s16 codec)) in Hm; [frame|].
      rewrite s16_id by (unfold in_s16; lia). unfold NUM_TOTAL_CODECS, kDecoderReservedEnd. lia. }
    eapply safe_bind; [apply update_split_info_safe|intros _ _].
    apply safe_modify. intros m Hm. pose proof (keeps_flush _ Hm). frame. }
  intros _ _. eapply (safe_bind _ _ _ (fun _ => True)).
  { apply safe_op. intros m Hm.
    destruct (SplitAndInsert_keeps p Hp (mc_av_sync m) (mc_PacketBuffer m)
      (mi_buf _ (proj1 Hm)) (mc_PayloadSplit m) (mi_split _ (proj1 Hm))) as (r & fl & b & -> & Hb).
    cbn [mbind option_bind]. eexists _, _. split; [done|]. split; [by apply keeps_buffer|done]. }
  intros [i_ok fl] _. safe_step; intros _ _.
  eapply safe_bind; [|intros _ _; by apply safe_ret].
  apply safe_modify. intros m Hm. case_match; [by apply keeps_lastPack|done].
Qed.

Lemma GetTimestampScaling_safe pt : safe keeps (rec_op (GetTimestampScaling pt)) (fun _ => True).
Proof.
  apply safe_op. intros m Hm. unfold GetTimestampScaling.
  destruct (GetCodec_safe m pt Hm) as (r & -> & _). cbn [mbind option_bind].
  case_if; [by eauto|]. case_match; [eexists _, _; split; [done|]; split; [frame|done]|].
  case_match; [eexists _, _; split; [done|]; split; [frame|done]|].
  case_match; [|eexists _, _; split; [done|]; split; [frame|done]].
  destruct Hm as [[] Hd].
  destruct (DbGetSampleRate_total _ mi_db0 mi_cng0 pt) as [fs ->]. cbn [mbind option_bind].
  eexists _, _. split; [done|]. split; [|done]. by case_match; (split; [by split|done]).
Qed.

Lemma recin_scale_safe p : input_ok p -> safe keeps (rec_op (recin_scale p)) input_ok.
Proof.
  intros Hp. apply safe_op. intros m Hm. unfold recin_scale. cbv zeta.
  set (m1 := if _ : bool then _ else m).
  assert (keeps m1) as Hm1 by (unfold m1; case_match; [frame|done]). clearbody m1.
  case_match; eexists _, _; (split; [done|]); (split; [try frame; done|]); [|done].
  destruct Hp. split; try done. apply u32_range.
Qed.

Lemma recin_payload_safe sync red k p fl :
  input_ok p -> safe keeps (recin_payload sync red k p fl) (fun r => input_ok r.1).
Proof.
  intros Hp0. unfold recin_payload. cbv zeta.
  set (p1 := p <| rtp_rcuPlCntr := _ |>).
  assert (input_ok p1) as Hp by by destruct Hp0. clearbody p1. clear Hp0.
  eapply safe_bind; [by apply GetPayload_safe|intros ilbc _].
  eapply safe_bind.
  { apply safe_when. intros _. eapply (safe_bind _ _ _ (fun _ => True)).
    - apply safe_try. intros m Hm. destruct (GetCodec_safe m (rtp_payloadType p1) Hm) as (r & -> & _).
      eauto.
    - intros codec _. apply update_split_info_safe. }
  intros _ _. eapply safe_bind; [apply GetTimestampScaling_safe|intros i_ok _].
  safe_step; intros _ _.
  eapply safe_bind; [by apply recin_scale_safe|intros p2 Hp2].
  eapply safe_bind; [by apply GetPayload_safe|intros avt _].
  safe_step; intros cng _.
  eapply (safe_bind _ _ _ (fun _ => True)).
  - case_match.
    + eapply safe_bind; [by apply recin_avt_safe|intros _ _; by apply safe_ret].
    + case_match; [by apply recin_cng_safe|by apply recin_speech_safe].
  - intros fl' _. eapply safe_bind; [|intros _ _; by apply safe_ret].
    apply safe_modify. intros m Hm. case_match; [frame|done].
Qed.

Lemma recin_loop_safe sync red ps : forall k fl,
  Forall input_ok ps ->
  safe keeps (recin_loop sync red k ps fl) (fun ps' => length ps' = length ps /\ Forall input_ok ps').
Proof.
  induction ps as [|p ps IH]; intros k fl HF; cbn [recin_loop]; [by apply safe_ret|].
  apply Forall_cons_iff in HF as [Hp HF].
  eapply safe_bind; [by apply recin_payload_safe|intros [p' fl'] Hp'].
  eapply safe_bind; [by apply IH|intros ps' [Hl Hps']]. apply safe_ret. simpl. rewrite Hl. split; [done|by constructor].
Qed.

Lemma recin_reinit_keeps p m : keeps m -> keeps (recin_reinit p m).
Proof.
  intros Hm. unfold recin_reinit. case_match; [|done].
  assert (keeps (m <| mc_RTCP := RTCPInit (rtp_seqNumber p) |> <| mc_first_packet := 0 |>))
    as H1 by frame.
  apply keeps_flush in H1. frame.
Qed.

(** The split of a redundant packet: an error, or one or two payloads that own
    their bytes. *)
Definition red_input_ok (p uninit : RTPPacket) : Prop :=
  exists r hs n, RedundancySplit [p; uninit] 2 = Some (r, hs, n) /\
    (0 <= r -> exists k, n = Some k /\ 1 <= k <= 2 /\ length hs = 2%nat /\
       Forall input_ok (take (Z.to_nat k) hs)).

Lemma recin_red_safe sync p uninit :
  input_ok p ->
  (DbGetPayload db kDecoderRED = Some (rtp_payloadType p) -> red_input_ok p uninit) ->
  safe keeps (recin_red sync p uninit) (fun r => Forall input_ok r.1 /\ r.1 <> []).
Proof.
  intros Hp Hred. unfold recin_red.
  eapply safe_bind; [by apply GetPayload_safe|intros red Hr].
  destruct (Z.eqb_spec (rtp_payloadType p) red) as [<-|]; [|apply safe_ret; split; [by constructor|done]].
  safe_step; intros _ _.
  destruct (Hred Hr) as (r & hs & n & Hs & Hok).
  eapply (safe_bind _ _ _ (fun x => x = (r, hs, n))); [apply safe_try; intros; rewrite Hs; eauto|].
  intros ? ->. safe_step; intros ? Hr0.
  destruct (Hok Hr0) as (k & -> & Hk & Hl & HF).
  destruct hs as [|h0 [|h1 [|]]]; try done.
  eapply (safe_bind _ _ _ (fun x => x = k)); [apply safe_try; eauto|intros ? ->].
  eapply (safe_bind _ _ _ (fun x => True)); [apply safe_try; intros; cbn; eauto|intros p0 _].
  eapply (safe_bind _ _ _ (fun x => True)); [apply safe_try; intros; cbn; eauto|intros p1 _].
  eapply safe_bind; [by apply GetPayload_safe|intros avt _].
  safe_step; intros rej _.
  apply safe_ret. cbn [fst].
  assert (k = 1 \/ k = 2) as [-> | ->] by lia; cbn in *.
  - done.
  - case_match; cbn; [|done]. apply Forall_cons_iff in HF as [? _]. split; [by constructor|done].
Qed.

Lemma realign_ok p : input_ok p -> exists p', realign p = Some p' /\ rtp_starts_byte1 p' = 0 /\
  rtp_payloadLen p' = rtp_payloadLen p /\ rtp_seqNumber p' = rtp_seqNumber p /\ rtp_timeStamp p' = rtp_timeStamp p /\
  rtp_data p' = rtp_data p /\ rtp_payloadLen p' <= zlen (rtp_payload p').
Proof.
  intros [[[Hs|Hs] Hz] Hl _ _]; unfold realign; rewrite Hs; cbn [Z.eqb].
  { exists p. repeat split; try done. lia. }
  rewrite Hs in Hz. rewrite aload_in by lia. cbn [mbind option_bind].
  set (bytes := take _ (drop _ (rtp_payload p))).
  assert (zlen bytes = rtp_payloadLen p) as Lb.
  { unfold bytes, zlen in *. rewrite length_take, length_drop. lia. }
  destruct (astore_in (rtp_payload p) bytes 0) as (l & E & _); [lia|lia|]. rewrite E. cbn [mbind option_bind].
  eexists. split; [done|]. cbn. do 4 (split; [done|]). unfold rtp_data. cbn. rewrite Hs. cbn [Z.eqb].
  pose proof (astore_length _ _ _ _ E) as Ll. apply aload_astore_eq in E. rewrite Lb in E. rewrite E, aload_in by lia. split; [done|lia].
Qed.

(** The payload that the estimator is handed has its length. *)
Definition bwe_ok (bwe : option BweCall) : Prop := forall b, bwe = Some b -> 0 < bw_payloadLen b <= zlen (bw_payload b).

Lemma recin_bwe_safe p t : input_ok p -> safe keeps (rec_try (recin_bwe p t)) bwe_ok.
Proof.
  intros Hp. apply safe_try. intros m Hm. unfold recin_bwe.
  destruct (GetCodec_safe m (rtp_payloadType p) Hm) as (r & -> & Hr). cbn [mbind option_bind].
  destruct (Z.ltb_spec r 0); [by exists None|]. destruct (Hr ltac:(lia)) as [e Hl].
  apply db_lookup_Some in Hl as (pos & -> & _ & He). cbn [mbind option_bind]. rewrite He. cbn [mbind option_bind].
  destruct (_ =? NULL); [by exists None|]. destruct (realign_ok p Hp) as (p' & -> & _ & L & _ & _ & _ & Hz). cbn [mbind option_bind].
  eexists. split; [done|]. intros b [= <-]. cbn. destruct Hp. lia.
Qed.

Lemma recin_arrival_safe p : safe keeps (rec_op (recin_arrival p)) (fun _ => True).
Proof.
  apply safe_op. intros m Hm. unfold recin_arrival. case_match; [|by eauto].
  destruct (am_exec_inv (mc_Automode m) (OpArrival (pb_maxInsertPositions (mc_PacketBuffer m))
    (rtp_seqNumber p) (rtp_timeStamp p) (mc_fs m) (DbIsMDCodec (mc_current_Codec m))
    (bool_decide (mc_PlayoutMode m = kPlayoutStreaming)))) as (a & Ha & Hai); [apply Hm|].
  cbn [am_exec] in Ha. destruct (UpdateIatStatistics _ _ _ _ _ _ _) as [[r a']|]; [|done].
  injection Ha as <-. cbn [mbind option_bind]. eexists _, _. split; [done|]. split; [|done].
  by apply keeps_automode.
Qed.

Section Body.
Context (call : ptr -> ptr -> list Z -> Z -> Z).

Lemma recin_size_safe : safe keeps (rec_try (recin_size call)) (fun _ => True).
Proof.
  apply safe_try. intros m [[] _].
  destruct (PacketBufferGetSize_total call (mc_PacketBuffer m) (mc_codec_DB m) mi_buf0 mi_db0
    mi_cng0 (mc_av_sync m)) as [n Hn]. unfold recin_size. rewrite Hn. eauto.
Qed.

Lemma recin_stats_safe size p : safe keeps (recin_stats call size p) (fun _ => True).
Proof.
  unfold recin_stats. safe_step; intros last _.
  case_match; [|case_match; [|by apply safe_ret]].
  - eapply safe_bind; [apply recin_size_safe|intros size' _]. cbv zeta.
    eapply safe_bind; [|intros _ _; apply recin_arrival_safe].
    apply safe_modify. intros m Hm. case_match; [|done].
    apply keeps_automode; [done|]. apply SetPacketSpeechLen_inv, Hm.
  - apply safe_modify. intros m Hm. apply keeps_automode; [done|].
    destruct (mi_am _ (proj1 Hm)). by split.
Qed.

Lemma recin_body_safe p uninit t :
  input_ok p ->
  (DbGetPayload db kDecoderRED = Some (rtp_payloadType p) -> red_input_ok p uninit) ->
  safe keeps (recin_body call p uninit t) (fun r => bwe_ok r.2).
Proof.
  intros Hp Hred. unfold recin_body.
  safe_step; intros av_sync _.
  eapply (safe_bind _ _ _ (fun _ => True)).
  { apply safe_try. intros m Hm. destruct av_sync; [|by eauto].
    destruct (IsSyncPayload_total (rtp_payload p) (rtp_payloadLen p)) as [b ->]; [|by eauto].
    destruct (io_packet _ Hp). lia. }
  intros sync _. eapply safe_bind; [apply recin_size_safe|intros size _].
  eapply safe_bind; [apply safe_modify; intros; by apply recin_reinit_keeps|intros _ _].
  eapply safe_bind; [apply safe_when; intros _; apply safe_modify; intros; frame|intros _ _].
  eapply safe_bind; [by apply recin_red_safe|intros [ps red] [HF Hne]].
  eapply safe_bind; [by apply recin_loop_safe|intros ps' [Hl Hps]].
  eapply (safe_bind _ _ _ input_ok).
  { apply safe_try. intros m Hm. destruct ps' as [|p0 ps']; [by destruct ps|]. apply Forall_cons_iff in Hps as [Hp0 _]. eauto. }
  intros p0 Hp0. eapply (safe_bind _ _ _ bwe_ok); [destruct sync; [by apply safe_ret|by apply recin_bwe_safe]|intros bwe Hb].
  eapply safe_bind; [apply recin_stats_safe|intros _ _]. by apply safe_ret.
Qed.
End Body.
End Safe.

(** C3. Packet reception is memory safe and keeps the instance well-formed: on
    every well-formed MCU (database, packet buffer, delay statistics,
    telephone-event queue, split information) and for every received packet
    that owns the bytes of its length - for a redundant packet: whose split is
    refused or yields payloads that do - [RecInInternal] returns, whatever the
    duration estimators answer and whatever the uninitialised local packet
    holds; it never reads or writes outside of an array - except that the search for
    the next packet of the buffer may read the entry behind [payloadLengthBytes], which
    is the first one of [rcuPlCntr] in the same block (packet_buffer.c:272) -, the
    payload that a bandwidth estimator is handed is its own, and it leaves a
    well-formed MCU with the same codec database, also when it returns early
    with an error code. *)
Theorem RecIn_safe call (m : Mcu) (p uninit : RTPPacket) (uw32_timeRec : Z)
    (Hm : mcu_inv m) (Hp : input_ok p)
    (Hred : DbGetPayload (mc_codec_DB m) kDecoderRED = Some (rtp_payloadType p) ->
            red_input_ok p uninit) :
  exists r bwe m', RecInInternal call p uninit uw32_timeRec m = Some (r, bwe, m') /\ mcu_inv m' /\
    mc_codec_DB m' = mc_codec_DB m /\
    (forall b, bwe = Some b -> 0 < bw_payloadLen b <= zlen (bw_payload b)).
Proof.
  destruct (recin_body_safe (mc_codec_DB m) call p uninit uw32_timeRec Hp Hred m)
    as (r & m' & H & Hk); [done|].
  unfold RecInInternal. rewrite H. cbn [mbind option_bind].
  destruct r as [code|[r bwe]]; [destruct Hk as [Hi Hd]|destruct Hk as [[Hi Hd] Hb]]; eexists _, _, m'; (split; [reflexivity|]);
    (split; [exact Hi|]); (split; [exact Hd|]); [done|exact Hb].
Qed.

(** *** An instance *)

Definition ex_red : CodecEntry := mkCodecEntry 127 0 0 0 0 0 0 0 0 0 0 0 8000.
Definition ex_avt : CodecEntry := mkCodecEntry 106 0 0 0 0 0 0 0 0 0 0 0 8000.
Definition ex_mcu_db : CodecDbInst :=
  Eval vm_compute in ex_add (ex_add ex_db kDecoderRED ex_red) kDecoderAVT ex_avt.

Lemma ex_mcu_db_reachable : db_reachable ex_mcu_db.
Proof.
  apply (dbr_add (ex_add ex_db kDecoderRED ex_red) kDecoderAVT ex_avt 0); [|vm_compute; reflexivity].
  apply (dbr_add ex_db kDecoderRED ex_red 0); [exact ex_db_reachable|vm_compute; reflexivity].
Qed.

Definition ex_mcu_blank : Mcu :=
  mkMcu 0 0 0 0 0 0 0 0 0 DbReset (mkSplitInfo 0 0) (RTCPInit 0) ex_blank zero_bufstats
    (mkDtmf 0 0 [] 0 0) 0 1 kPlayoutOn 0 0 0 [] 0 0 0 0 0 kTSnoScaling false 0 0 0.

(** A reset instance with four codecs and a packet buffer. *)
Definition ex_mcu : Mcu := Eval vm_compute in
  (McuReset ex_mcu_blank).2 <| mc_codec_DB := ex_mcu_db |> <| mc_PacketBuffer := ex_buf |>.

Lemma ex_mcu_inv : mcu_inv ex_mcu.
Proof.
  split.
  - apply db_reachable_inv, ex_mcu_db_reachable.
  - apply db_reachable_cng, ex_mcu_db_reachable.
  - exact ex_buf_inv.
  - exact (ResetAutomode_inv zero_automode 0).
  - exists []. split; [done|simpl; lia|done|constructor].
  - right. right. done.
  - by compute.
  - by compute.
Qed.

(** A redundant packet: two PCMu blocks of four bytes. *)
Definition ex_red_packet : RTPPacket :=
  mkRTPPacket 7 1000 42 127 [128; 20; 0; 4; 0; 1; 2; 3; 4; 5; 6; 7; 8; 0; 0; 0] 13 0 0.
Definition ex_uninit : RTPPacket := mkRTPPacket 9 9 9 9 [] 9 9 9.

Lemma RecIn_safe_witness :
  exists r bwe m', RecInInternal (fun _ _ _ _ => 0) ex_red_packet ex_uninit 5 ex_mcu = Some (r, bwe, m') /\
    mcu_inv m' /\ mc_codec_DB m' = mc_codec_DB ex_mcu /\
    (forall b, bwe = Some b -> 0 < bw_payloadLen b <= zlen (bw_payload b)).
Proof.
  apply (RecIn_safe (fun _ _ _ _ => 0) ex_mcu ex_red_packet ex_uninit 5 ex_mcu_inv).
  - split; [split; [by left|vm_compute; discriminate]|simpl; lia|simpl; lia|].
    repeat (constructor; [simpl; lia|]). constructor.
  - intros _. eexists 0, _, _. split; [vm_compute; reflexivity|]. intros _. exists 2.
    split; [done|]. split; [lia|]. split; [done|].
    constructor; [|constructor; [|constructor]];
      (split; [split; [simpl; lia|vm_compute; discriminate]|simpl; lia|simpl; lia|]);
      repeat (constructor; [simpl; lia|]); constructor.
Defined.
