(* ===== verification/RecIn.v ===== *)
(** What reception does with a packet: speech packets reach the packet buffer
    through the splitting, and the time stamp scaling is undone by its inverse. *)
From S2P Require Import Prelude Prog Rtp CodecDb PacketBuffer PacketBufferInv Rtcp Dtmf SplMath.
From S2P Require Import Automode AutomodeInv BufStats Split Mcu McuInv.

(** ** Time stamp scaling *)

(** The time stamp units of one tick whose multiples are scaled without
    rounding. *)
Definition scale_unit (s : TsScaling) : Z :=
  match s with kTSnoScaling | kTSscalingTwo => 1 | _ => 3 end.

Lemma s32_u32_diff x y d : in_s32 d -> x = u32 (y + d) -> s32 (u32 (x - y)) = d.
Proof. intros Hd ->. wrap_unfold. unfold in_s32 in Hd. Z.to_euclidean_division_equations; lia. Qed.

Lemma u32_diff_small e b d :
  -1 <= b - d <= 1 -> -1 <= s32 (u32 (u32 (e + b) - u32 (e + d))) <= 1.
Proof. intros H. wrap_lia. Qed.

(** The scaling of a time stamp difference, and its inverse. *)
Definition scale_diff (s : TsScaling) (d : Z) : Z :=
  match s with
  | kTSscalingTwo => s32 (Z.shiftl d 1)
  | kTSscalingTwoThirds => DivW32W16 (s32 (Z.shiftl d 1)) 3
  | kTSscalingFourThirds => DivW32W16 (s32 (Z.shiftl d 2)) 3
  | kTSnoScaling => d end.
Definition unscale_diff (s : TsScaling) (q : Z) : Z :=
  match s with
  | kTSscalingTwo => Z.shiftr q 1
  | kTSscalingTwoThirds => Z.shiftr (s32 (q * 3)) 1
  | kTSscalingFourThirds => Z.shiftr (s32 (q * 3)) 2
  | kTSnoScaling => q end.

Lemma scale_there_and_back s d :
  - 2 ^ 29 < d < 2 ^ 29 ->
  in_s32 (scale_diff s d) /\ -1 <= unscale_diff s (scale_diff s d) - d <= 1 /\
  (d mod scale_unit s = 0 -> unscale_diff s (scale_diff s d) = d).
Proof.
  intros Hd. change (2 ^ 29) with 536870912 in Hd.
  destruct s; cbn [scale_unit scale_diff unscale_diff]; rewrite ?Z.shiftl_mul_pow2 by lia;
    rewrite ?Z.shiftr_div_pow2 by lia; change (2 ^ 1) with 2; change (2 ^ 2) with 4.
  - split; [unfold in_s32; lia|lia].
  - rewrite s32_id by (unfold in_s32; lia). split; [unfold in_s32; lia|].
    Z.to_euclidean_division_equations; lia.
  - rewrite (s32_id (d * 2)) by (unfold in_s32; lia).
    unfold DivW32W16. cbn [Z.eqb negb].
    assert (exists q, Z.quot (d * 2) 3 = q) as [q Eq] by eauto. rewrite Eq.
    assert (-3 < d * 2 - 3 * q < 3 /\ (0 <= d -> 0 <= d * 2 - 3 * q) /\ (d <= 0 -> d * 2 - 3 * q <= 0))
      by (Z.to_euclidean_division_equations; lia).
    rewrite (s32_id q), (s32_id (q * 3)) by (unfold in_s32; lia).
    split; [unfold in_s32; lia|]. clear Eq. Z.to_euclidean_division_equations; lia.
  - rewrite (s32_id (d * 4)) by (unfold in_s32; lia).
    unfold DivW32W16. cbn [Z.eqb negb].
    assert (exists q, Z.quot (d * 4) 3 = q) as [q Eq] by eauto. rewrite Eq.
    assert (-3 < d * 4 - 3 * q < 3 /\ (0 <= d -> 0 <= d * 4 - 3 * q) /\ (d <= 0 -> d * 4 - 3 * q <= 0))
      by (Z.to_euclidean_division_equations; lia).
    rewrite (s32_id q), (s32_id (q * 3)) by (unfold in_s32; lia).
    split; [unfold in_s32; lia|]. clear Eq. Z.to_euclidean_division_equations; lia.
Qed.

(** Time stamp scaling is invertible: a received time stamp less than 2^29
    ticks from the last one, before or after and across wrap-around, scaled to
    NetEQ's internal clock and back, is off by at most one tick, and is exact
    when its distance is a multiple of three ticks or the codec's scaling is
    none or two. *)
Theorem ScaleTimestamp_roundtrip (m : Mcu) (d : Z)
    (He : in_u32 (mc_externalTS m)) (Hi : in_u32 (mc_internalTS m))
    (Hd : - 2 ^ 29 < d < 2 ^ 29) :
  let ext := u32 (mc_externalTS m + d) in
  let back := ScaleTimestampInternalToExternal m (ScaleTimestampExternalToInternal m ext) in
  -1 <= s32 (u32 (back - ext)) <= 1 /\
  (d mod scale_unit (mc_scalingFactor m) = 0 -> back = ext).
Proof.
  intros ext back.
  destruct (scale_there_and_back (mc_scalingFactor m) d Hd) as (Hq & Hb & Hex).
  change (2 ^ 29) with 536870912 in Hd.
  assert (s32 (u32 (ext - mc_externalTS m)) = d) as E1
    by (apply s32_u32_diff; [unfold in_s32; lia|done]).
  set (q := scale_diff (mc_scalingFactor m) d) in *.
  assert (ScaleTimestampExternalToInternal m ext = u32 (mc_internalTS m + q)) as E2
    by (unfold ScaleTimestampExternalToInternal; rewrite E1; done).
  assert (back = u32 (mc_externalTS m + unscale_diff (mc_scalingFactor m) q)) as ->.
  { unfold back. rewrite E2. unfold ScaleTimestampInternalToExternal.
    assert (s32 (u32 (s32 (u32 (mc_internalTS m + q)) - mc_internalTS m)) = q) as ->; [|done].
    clearbody q. clear - Hq. unfold in_s32 in Hq. wrap_lia. }
  split; [|intros Hm; unfold ext; do 2 f_equal; exact (Hex Hm)].
  exact (u32_diff_small _ _ _ Hb).
Qed.

Lemma ScaleTimestamp_roundtrip_witness :
  let m := ex_mcu <| mc_externalTS := 4294967000 |> <| mc_internalTS := 77 |>
                  <| mc_scalingFactor := kTSscalingTwoThirds |> in
  ScaleTimestampInternalToExternal m (ScaleTimestampExternalToInternal m (u32 (4294967000 + 960)))
  = u32 (4294967000 + 960).
Proof.
  intros m. apply (ScaleTimestamp_roundtrip m 960); [simpl; lia|simpl; lia|lia|reflexivity].
Defined.

(** ** A speech packet *)

Lemma update_split_info_eq m codec len :
  update_split_info codec len m
  = let r := DbGetSplitInfo (mc_PayloadSplit m) codec len in
    Some (if r.1 <? 0 then inl r.1 else inr tt, m <| mc_PayloadSplit := r.2 |>).
Proof.
  unfold update_split_info, rec_bind, rec_op. destruct (DbGetSplitInfo _ _ _) as [r si]. cbn [fst snd mbind option_bind].
  unfold rec_check. by destruct (r <? 0).
Qed.

(** The instance up to the RTCP and delay statistics. *)
Definition mcu_view (m : Mcu) :=
  (mc_codec_DB m, mc_PacketBuffer m, mc_PayloadSplit m, mc_current_Codec m,
   mc_av_sync m, mc_new_codec m, mc_fs m).

Lemma mcu_view_lastPack (b : bool) x m :
  mcu_view (if b then set_lastPack x m else m) = mcu_view m.
Proof. by destruct b. Qed.

(** The time stamp of a packet whose codec is not scaled: when the scaling was begun
    by an earlier packet of the stream, the internal clock goes on by the difference of
    the time stamps. *)
Definition unscaled_stamp (m : Mcu) (ts : Z) : Z :=
  if mc_TSscalingInitialized m =? 1 then (mc_internalTS m + (ts - mc_externalTS m)) mod 2 ^ 32 else ts.

(** The packet as it enters the splitting. *)
Definition speech_packet (m : Mcu) (p : RTPPacket) : RTPPacket :=
  p <| rtp_rcuPlCntr := 0 |> <| rtp_timeStamp := unscaled_stamp m (rtp_timeStamp p) |>.

(** Codecs that take none of the special paths of the reception. *)
Definition plain_speech (codec : Z) : bool :=
  negb (is_case codec [kDecoderRED; kDecoderAVT; kDecoderCNG; kDecoderILBC; kDecoderG722;
                       kDecoderG722_2ch; kDecoderISACfb; kDecoderOpus]).

Lemma recin_scale_plain q m : mc_scalingFactor m = kTSnoScaling ->
  exists m', recin_scale q m = Some (q <| rtp_timeStamp := unscaled_stamp m (rtp_timeStamp q) |>, m') /\ mcu_view m' = mcu_view m.
Proof.
  intros Hs. unfold recin_scale, unscaled_stamp. rewrite Hs, bool_decide_true, andb_false_r by done. cbv zeta.
  destruct (mc_TSscalingInitialized m =? 1).
  - unfold ScaleTimestampExternalToInternal. rewrite Hs.
    assert (u32 (mc_internalTS m + s32 (u32 (rtp_timeStamp q - mc_externalTS m)))
      = (mc_internalTS m + (rtp_timeStamp q - mc_externalTS m)) mod 2 ^ 32) as -> by (change (2 ^ 32) with 4294967296; wrap_lia).
    by eexists.
  - exists m. by destruct q.
Qed.

Section Speech.
Context (call : ptr -> ptr -> list Z -> Z -> Z) (p uninit : RTPPacket) (t : Z).
Context (c : Z) (e : CodecEntry) (db : CodecDbInst).
Context (Hdb : db_inv db) (Hl : db_lookup db c = Some e) (Hpt : ce_payloadType e = rtp_payloadType p).
Context (Hpt0 : 0 <= rtp_payloadType p) (Hplain : plain_speech c = true).
Context (Hnocng : DbIsCNGPayload db (rtp_payloadType p) = false).

Lemma speech_codec : DbGetCodec db (rtp_payloadType p) = Some c.
Proof using Hdb Hl Hpt. rewrite <- Hpt. by eapply DbGetCodec_registered. Qed.

Lemma speech_other codec :
  0 <= codec < NUM_TOTAL_CODECS -> codec <> c ->
  exists x, DbGetPayload db codec = Some x /\ (rtp_payloadType p =? x) = false.
Proof using Hdb Hl Hpt Hpt0.
  intros Hc Hne. rewrite DbGetPayload_lookup by done.
  destruct (db_lookup db codec) as [e'|] eqn:He; eexists; (split; [done|]); apply Z.eqb_neq.
  - intros Heq. apply Hne. eapply di_distinct; [done|exact He|exact Hl|congruence].
  - unfold CODEC_DB_NOT_EXIST2. lia.
Qed.

Lemma plain_ne x : is_case x [kDecoderRED; kDecoderAVT; kDecoderCNG; kDecoderILBC; kDecoderG722;
                       kDecoderG722_2ch; kDecoderISACfb; kDecoderOpus] = true -> x <> c.
Proof using Hplain. intros Hx ->. unfold plain_speech in Hplain. by rewrite Hx in Hplain. Qed.

(** A plain codec has no scaling. *)
Lemma speech_scaling m :
  mc_codec_DB m = db -> GetTimestampScaling (rtp_payloadType p) m = Some (0, m <| mc_scalingFactor := kTSnoScaling |>).
Proof using Hdb Hl Hpt Hplain.
  intros Hm. unfold GetTimestampScaling. rewrite Hm, speech_codec. cbn [mbind option_bind].
  pose proof (db_lookup_range _ Hdb _ _ Hl). destruct (Z.ltb_spec c 0); [lia|].
  assert (forall x, is_case x [kDecoderRED; kDecoderAVT; kDecoderCNG; kDecoderILBC; kDecoderG722;
            kDecoderG722_2ch; kDecoderISACfb; kDecoderOpus] = true -> (c =? x) = false) as Hn.
  { intros x Hx. apply Z.eqb_neq. intros <-. by apply (plain_ne c). }
  unfold is_case. cbn [existsb]. by rewrite !Hn.
Qed.

(** The buffer and split information that a packet of codec [c] finds. *)
Definition speech_si (m : Mcu) : SplitInfo :=
  if c =? mc_current_Codec m then mc_PayloadSplit m
  else (DbGetSplitInfo (mc_PayloadSplit m) c (rtp_payloadLen p)).2.
Definition speech_buffer (m : Mcu) : PacketBuf :=
  if c =? mc_current_Codec m then mc_PacketBuffer m
  else (PacketBufferFlush (mc_PacketBuffer m)).2.

Lemma recin_speech_stores q m r fl b :
  rtp_payloadType q = rtp_payloadType p -> rtp_payloadLen q = rtp_payloadLen p ->
  mc_codec_DB m = db -> mc_av_sync m = false ->
  (c <> mc_current_Codec m -> 0 <= (DbGetSplitInfo (mc_PayloadSplit m) c (rtp_payloadLen p)).1) ->
  SplitAndInsertPayload q (speech_buffer m) (speech_si m) false = Some (r, fl, b) ->
  exists m', recin_speech false q m = Some (if r <? 0 then inl r else inr fl, m') /\
    mcu_view m' = (db, b, speech_si m, c, false,
                   if c =? mc_current_Codec m then mc_new_codec m else 1, mc_fs m).
Proof using Hdb Hl Hpt Hplain.
  intros Eq1 Eq2 Hm Hav Hsi Hins. unfold recin_speech.
  erewrite rec_step; [|unfold rec_try; rewrite Hm, Eq1, speech_codec; reflexivity].
  erewrite rec_step; [|reflexivity].
  pose proof (db_lookup_range _ Hdb _ _ Hl) as Hr. unfold NUM_TOTAL_CODECS, kDecoderReservedEnd in Hr.
  set (m1 := if c =? mc_current_Codec m then m
             else (buffer_flush (m <| mc_current_Codec := s16 c |>
                     <| mc_current_Payload := s16 (rtp_payloadType q) |>
                     <| mc_PayloadSplit := speech_si m |>)) <| mc_new_codec := 1 |>).
  erewrite (rec_step _ _ m tt m1).
  2: { unfold rec_when, m1, speech_si. destruct (Z.eqb_spec c (mc_current_Codec m)) as [->|Hne];
         cbn [negb]; [done|].
       specialize (Hsi Hne).
       refine (eq_trans (rec_step _ _ m tt m _) _);
         [unfold rec_check; by destruct (Z.ltb_spec c 0); [lia|]|].
       refine (eq_trans (rec_step _ _ m tt m eq_refl) _).
       refine (eq_trans (rec_step _ _ m tt _ eq_refl) _). rewrite Eq2.
       set (m0 := (m <| mc_current_Codec := s16 c |>) <| mc_current_Payload := _ |>).
       unfold rec_bind at 1. rewrite update_split_info_eq. cbv zeta. change (mc_PayloadSplit m0) with (mc_PayloadSplit m).
       destruct (Z.ltb_spec (DbGetSplitInfo (mc_PayloadSplit m) c (rtp_payloadLen p)).1 0); [lia|]. reflexivity. }
  assert (mcu_view m1 = (db, speech_buffer m, speech_si m, c, false,
            if c =? mc_current_Codec m then mc_new_codec m else 1, mc_fs m)) as Hv.
  { unfold m1, mcu_view, speech_buffer, speech_si.
    destruct (Z.eqb_spec c (mc_current_Codec m)) as [Ec|]; [by rewrite Hm, Hav, <- Ec|].
    cbn. rewrite Hm, Hav, s16_id by (simpl; lia). done. }
  clearbody m1. clear Hsi. injection Hv as H1 H2 H3 H4 H5 H6 H7.
  erewrite rec_step; [|unfold rec_op; rewrite H2, H3, H5, Hins; reflexivity].
  cbv beta iota. unfold rec_check. destruct (r <? 0).
  - eexists. split; [reflexivity|]. unfold mcu_view. cbn. congruence.
  - eexists. split; [reflexivity|]. rewrite mcu_view_lastPack. unfold mcu_view. cbn. congruence.
Qed.

(** The split information of a new codec can be refused. *)
Lemma recin_speech_refused q m :
  rtp_payloadType q = rtp_payloadType p -> rtp_payloadLen q = rtp_payloadLen p ->
  mc_codec_DB m = db -> c <> mc_current_Codec m -> (DbGetSplitInfo (mc_PayloadSplit m) c (rtp_payloadLen p)).1 < 0 ->
  exists m', recin_speech false q m = Some (inl (DbGetSplitInfo (mc_PayloadSplit m) c (rtp_payloadLen p)).1, m') /\
    mc_PacketBuffer m' = mc_PacketBuffer m /\ mc_current_Codec m' = c.
Proof using Hdb Hl Hpt Hplain.
  intros Eq1 Eq2 Hm Hne Hsi. unfold recin_speech.
  pose proof (db_lookup_range _ Hdb _ _ Hl) as Hr. unfold NUM_TOTAL_CODECS, kDecoderReservedEnd in Hr.
  erewrite rec_step; [|unfold rec_try; rewrite Hm, Eq1, speech_codec; reflexivity].
  erewrite rec_step; [|reflexivity].
  unfold rec_bind at 1, rec_when. rewrite (proj2 (Z.eqb_neq _ _) Hne). cbn [negb].
  erewrite rec_step; [|unfold rec_check; destruct (Z.ltb_spec c 0); [lia|reflexivity]].
  erewrite rec_step; [|reflexivity]. erewrite rec_step; [|reflexivity].
  unfold rec_bind at 1. rewrite Eq2, update_split_info_eq. cbv zeta.
  change (mc_PayloadSplit (m <| mc_current_Codec := _ |> <| mc_current_Payload := _ |>)) with (mc_PayloadSplit m).
  destruct (Z.ltb_spec (DbGetSplitInfo (mc_PayloadSplit m) c (rtp_payloadLen p)).1 0); [|lia].
  eexists. split; [reflexivity|]. split; [done|]. cbn. apply s16_id. unfold in_s16. lia.
Qed.

(** Reception of a speech packet up to the splitting. *)
Lemma recin_payload_plain m :
  mc_codec_DB m = db -> exists m1, mcu_view m1 = mcu_view m /\
    recin_payload false false 0 p false m =
    (flushed <- recin_speech false (speech_packet m p) ;;
     rec_modify (fun m => if (flushed : bool) then m <| mc_new_codec := 1 |> else m) ;;;
     rec_ret (speech_packet m p, flushed)) m1.
Proof using Hdb Hl Hpt Hpt0 Hplain Hnocng.
  intros Hm.
  destruct (speech_other kDecoderILBC) as (ilbc & Hilbc & Ei); [done|by apply plain_ne|].
  destruct (speech_other kDecoderAVT) as (avt & Havt & Ea); [done|by apply plain_ne|].
  set (m1 := m <| mc_scalingFactor := kTSnoScaling |>).
  destruct (recin_scale_plain (p <| rtp_rcuPlCntr := 0 |>) m1 eq_refl) as (m2 & H2 & Hv).
  change (_ <| rtp_timeStamp := _ |>) with (speech_packet m p) in H2.
  exists m2. split; [exact Hv|].
  assert (mc_codec_DB m2 = db) as Hm2 by (injection Hv as ->; done).
  unfold recin_payload. cbv zeta. change (rtp_payloadType (p <| rtp_rcuPlCntr := 0 |>)) with (rtp_payloadType p).
  refine (eq_trans (rec_step _ _ m ilbc m _) _); [unfold rec_try; by rewrite Hm, Hilbc|].
  rewrite Ei. refine (eq_trans (rec_step _ _ m tt m eq_refl) _).
  refine (eq_trans (rec_step _ _ m 0 m1 _) _); [unfold rec_op; by rewrite speech_scaling|].
  refine (eq_trans (rec_step _ _ m1 tt m1 eq_refl) _).
  refine (eq_trans (rec_step _ _ m1 (speech_packet m p) m2 _) _); [unfold rec_op; by rewrite H2|].
  refine (eq_trans (rec_step _ _ m2 avt m2 _) _); [unfold rec_try; by rewrite Hm2, Havt|].
  refine (eq_trans (rec_step _ _ m2 false m2 _) _).
  { unfold rec_get. rewrite Hm2. exact (f_equal (fun b => Some (inr b, m2)) Hnocng). }
  change (rtp_payloadType (speech_packet m p)) with (rtp_payloadType p). by rewrite Ea.
Qed.

(** The view after a speech packet: a flush of the buffer asks for new codec. *)
Lemma recin_payload_stores m r fl b :
  mc_codec_DB m = db -> mc_av_sync m = false ->
  (c <> mc_current_Codec m -> 0 <= (DbGetSplitInfo (mc_PayloadSplit m) c (rtp_payloadLen p)).1) ->
  SplitAndInsertPayload (speech_packet m p) (speech_buffer m) (speech_si m) false = Some (r, fl, b) ->
  exists m', recin_payload false false 0 p false m
      = Some (if r <? 0 then inl r else inr (speech_packet m p, fl), m') /\
    mc_PacketBuffer m' = b /\ mc_PayloadSplit m' = speech_si m /\ mc_current_Codec m' = c /\
    (0 <= r -> mc_new_codec m' = if negb (c =? mc_current_Codec m) || fl then 1 else mc_new_codec m).
Proof using Hdb Hl Hpt Hpt0 Hplain Hnocng.
  intros Hm Hav Hsi Hins. destruct (recin_payload_plain m Hm) as (m1 & Hv1 & ->). injection Hv1 as U1 U2 U3 U4 U5 U6 U7.
  destruct (recin_speech_stores (speech_packet m p) m1 r fl b) as (m2 & H2 & Hv); [done|done|congruence|congruence| | |].
  { by rewrite U3, U4. }
  { unfold speech_buffer, speech_si. rewrite U2, U3, U4. exact Hins. }
  unfold speech_si in *. rewrite U3, U4, U6 in Hv. injection Hv as V1 V2 V3 V4 V5 V6 V7.
  exists (if r <? 0 then m2 else if fl then m2 <| mc_new_codec := 1 |> else m2). split.
  - unfold rec_bind at 1. rewrite H2. by destruct (r <? 0).
  - destruct (Z.ltb_spec r 0); [split_and!; try done; lia|].
    destruct fl; cbn; (split_and!; try done); intros _; rewrite ?orb_true_r, ?orb_false_r; [done|].
    rewrite V6. by destruct (c =? _).
Qed.

Lemma recin_payload_refused m :
  mc_codec_DB m = db -> c <> mc_current_Codec m -> (DbGetSplitInfo (mc_PayloadSplit m) c (rtp_payloadLen p)).1 < 0 ->
  exists m', recin_payload false false 0 p false m = Some (inl (DbGetSplitInfo (mc_PayloadSplit m) c (rtp_payloadLen p)).1, m') /\
    mc_PacketBuffer m' = mc_PacketBuffer m /\ mc_current_Codec m' = c.
Proof using Hdb Hl Hpt Hpt0 Hplain Hnocng.
  intros Hm Hne Hsi. destruct (recin_payload_plain m Hm) as (m1 & Hv1 & ->). injection Hv1 as U1 U2 U3 U4 U5 U6 U7.
  destruct (recin_speech_refused (speech_packet m p) m1) as (m2 & H2 & B2 & C2); [done|done|congruence|congruence|by rewrite U3|].
  rewrite U3 in H2. exists m2. split; [|split; [congruence|done]]. unfold rec_bind at 1. by rewrite H2.
Qed.
End Speech.

(** The statistics at the end only touch the delay statistics. *)
Lemma recin_stats_view call size p m r m' :
  recin_stats call size p m = Some (r, m') -> r = inr tt /\ mcu_view m' = mcu_view m.
Proof.
  unfold recin_stats, rec_bind at 1, rec_get. case_match.
  - unfold rec_bind at 1, rec_try. destruct (recin_size call m) as [n|]; [|done].
    cbn [mbind option_bind]. unfold rec_bind, rec_modify, rec_op, recin_arrival.
    set (m1 := if _ : bool then _ else m).
    assert (mcu_view m1 = mcu_view m) as <- by (unfold m1; by case_match). clearbody m1.
    case_match; [|by intros [= <- <-]].
    destruct (UpdateIatStatistics _ _ _ _ _ _ _) as [[? ?]|]; [|done]. by intros [= <- <-].
  - case_match; by intros [= <- <-].
Qed.

Lemma Flush_flush b : (PacketBufferFlush (PacketBufferFlush b).2).2 = (PacketBufferFlush b).2.
Proof.
  unfold PacketBufferFlush. destruct (pb_started b) eqn:E; cbn; rewrite E; [|done]. cbn.
  f_equal. rewrite <- list_fmap_compose. by apply list_fmap_ext.
Qed.

Lemma recin_reinit_view p m :
  mc_codec_DB (recin_reinit p m) = mc_codec_DB m /\ mc_av_sync (recin_reinit p m) = mc_av_sync m /\
  mc_PayloadSplit (recin_reinit p m) = mc_PayloadSplit m /\
  mc_current_Codec (recin_reinit p m) = mc_current_Codec m /\
  mc_internalTS (recin_reinit p m) = mc_internalTS m /\ mc_externalTS (recin_reinit p m) = mc_externalTS m.
Proof. unfold recin_reinit. by case_match. Qed.

(** A new stream starts, or the codec changes, with this packet. *)
Definition new_stream (p : RTPPacket) (m : Mcu) : bool :=
  negb (rtp_ssrc p =? mc_ssrc m) || (mc_first_packet m =? 1).

Lemma recin_size_ex db call m : keeps db m -> exists size, recin_size call m = Some size.
Proof.
  intros Hm. destruct (recin_size_safe db call m Hm) as (sz & m' & Hsz & _).
  unfold rec_try in Hsz. destruct (recin_size call m); [by eexists|done].
Qed.

(** The reception up to the loop, of a packet that is not redundant. *)
Lemma recin_prefix call p uninit t m size :
  mc_av_sync m = false -> recin_size call m = Some size ->
  let m1 := recin_reinit p m in
  let m2 := m1 <| mc_RTCP := RTCPUpdate (mc_RTCP m1) (rtp_seqNumber p) (rtp_timeStamp p) t |> in
  recin_red false p uninit m2 = Some (inr ([p], false), m2) ->
  recin_body call p uninit t m
  = (ps <- recin_loop false false 0 [p] false ;;
     p0 <- rec_try (fun _ => aget ps 0) ;;
     bwe <- rec_try (recin_bwe p0 t) ;; recin_stats call size p0 ;;; rec_ret (0, bwe)) m2.
Proof.
  intros Hav Hsize m1 m2 Hred. unfold recin_body.
  refine (eq_trans (rec_step _ _ m false m _) _); [unfold rec_get; by rewrite Hav|].
  refine (eq_trans (rec_step _ _ m false m eq_refl) _).
  refine (eq_trans (rec_step _ _ m size m _) _); [unfold rec_try; by rewrite Hsize|].
  refine (eq_trans (rec_step (rec_modify (recin_reinit p)) _ m tt m1 eq_refl) _).
  refine (eq_trans (rec_step (rec_when (negb false) (rec_modify (fun m => m <| mc_RTCP :=
    RTCPUpdate (mc_RTCP m) (rtp_seqNumber p) (rtp_timeStamp p) t |>))) _ m1 tt m2 eq_refl) _).
  refine (eq_trans (rec_step _ _ m2 _ m2 Hred) _). done.
Qed.

Lemma recin_loop_one p q fl m m' :
  recin_payload false false 0 p false m = Some (inr (q, fl), m') ->
  recin_loop false false 0 [p] false m = Some (inr [q], m').
Proof. intros H. cbn [recin_loop]. by rewrite (rec_step _ _ _ _ _ H). Qed.

Lemma recin_loop_fail p r m m' :
  recin_payload false false 0 p false m = Some (inl r, m') ->
  recin_loop false false 0 [p] false m = Some (inl r, m').
Proof. intros H. cbn [recin_loop]. unfold rec_bind at 1. by rewrite H. Qed.

Lemma speech_red p uninit c e db :
  db_inv db -> db_lookup db c = Some e -> ce_payloadType e = rtp_payloadType p ->
  0 <= rtp_payloadType p -> plain_speech c = true ->
  forall m, mc_codec_DB m = db -> recin_red false p uninit m = Some (inr ([p], false), m).
Proof.
  intros Hdb Hl Hpt Hpt0 Hplain m Hm.
  destruct (speech_other p c e db Hdb Hl Hpt Hpt0 kDecoderRED) as (x & Hx & Ex);
    [done|by apply (plain_ne c Hplain)|].
  unfold recin_red. refine (eq_trans (rec_step _ _ m x m _) _); [unfold rec_try; by rewrite Hm, Hx|].
  by rewrite Ex.
Qed.

(** The bandwidth estimator gets the payload, aligned, and the header fields. *)
Definition bwe_call (e : CodecEntry) (q : RTPPacket) (t : Z) (bwe : option BweCall) : Prop :=
  if ce_funcUpdBWEst e =? NULL then bwe = None else
  exists bytes, bwe = Some (mkBweCall (ce_funcUpdBWEst e) (ce_codec_state e) bytes (rtp_payloadLen q) (rtp_seqNumber q) (rtp_timeStamp q) t) /\
    aload bytes 0 (rtp_payloadLen q) = rtp_data q.

Lemma recin_bwe_registered db m q t c e :
  db_inv db -> db_lookup db c = Some e -> ce_payloadType e = rtp_payloadType q -> mc_codec_DB m = db -> input_ok q ->
  exists bwe, recin_bwe q t m = Some bwe /\ bwe_call e q t bwe.
Proof.
  intros Hdb Hl Hpt Hm Hq. unfold recin_bwe, bwe_call. rewrite Hm, (speech_codec q c e db Hdb Hl Hpt). cbn [mbind option_bind].
  pose proof (db_lookup_range _ Hdb _ _ Hl). destruct (Z.ltb_spec c 0); [lia|].
  apply db_lookup_Some in Hl as (pos & -> & _ & He). cbn [mbind option_bind]. rewrite He. cbn [mbind option_bind].
  destruct (_ =? NULL); [by eexists|]. destruct (realign_ok q Hq) as (q' & -> & Hs & Hn & E1 & E2 & Hd & _). cbn [mbind option_bind].
  eexists. split; [done|]. rewrite Hn, E1, E2. eexists. split; [done|]. rewrite <-Hd, <-Hn. unfold rtp_data. by rewrite Hs.
Qed.

(** The end of the reception. *)
Lemma recin_tail db call size p t c e m :
  keeps db m -> db_inv db -> db_lookup db c = Some e -> ce_payloadType e = rtp_payloadType p -> input_ok p ->
  exists bwe m', (bwe <- rec_try (recin_bwe p t) ;; recin_stats call size p ;;; rec_ret (0, bwe)) m = Some (inr (0, bwe), m') /\
    mcu_view m' = mcu_view m /\ bwe_call e p t bwe.
Proof.
  intros Hm Hdb Hl Hpt Hp. destruct (recin_bwe_registered db m p t c e Hdb Hl Hpt (proj2 Hm) Hp) as (bwe & E & Hb).
  destruct (recin_stats_safe db call size p m Hm) as (r & m' & H2 & _).
  destruct (recin_stats_view _ _ _ _ _ _ H2) as [-> Hv]. exists bwe, m'. split; [|done].
  refine (eq_trans (rec_step _ _ m bwe m _) _); [unfold rec_try; by rewrite E|].
  by refine (eq_trans (rec_step _ _ m tt m' H2) _).
Qed.

(** What the packet finds after the reinitialisation. *)
Lemma speech_reinit p c m rtcp :
  let m2 := (recin_reinit p m) <| mc_RTCP := rtcp |> in
  let change := negb (c =? mc_current_Codec m) in
  speech_buffer c m2 = (if new_stream p m || change then (PacketBufferFlush (mc_PacketBuffer m)).2
                        else mc_PacketBuffer m) /\
  speech_si p c m2 = (if change then (DbGetSplitInfo (mc_PayloadSplit m) c (rtp_payloadLen p)).2
                      else mc_PayloadSplit m).
Proof.
  cbv zeta. unfold recin_reinit. fold (new_stream p m). unfold speech_buffer, speech_si.
  destruct (new_stream p m); cbn; destruct (c =? mc_current_Codec m); cbn; try done.
  split; [|done]. apply Flush_flush.
Qed.

(** The packet that enters the splitting, in terms of the instance before the call. *)
Definition stored_packet (m : Mcu) (p : RTPPacket) : RTPPacket :=
  if new_stream p m then p <| rtp_rcuPlCntr := 0 |> else speech_packet m p.

Lemma stored_packet_reinit p m rtcp :
  speech_packet ((recin_reinit p m) <| mc_RTCP := rtcp |>) p = stored_packet m p.
Proof.
  unfold stored_packet, recin_reinit, speech_packet, unscaled_stamp. fold (new_stream p m).
  destruct (new_stream p m); [by destruct p|done].
Qed.

Lemma stored_packet_ok m p : input_ok p -> input_ok (stored_packet m p).
Proof.
  intros []. unfold stored_packet, speech_packet, unscaled_stamp. case_match; split; try done. cbn. case_match; [|done].
  unfold in_u32. change (2 ^ 32) with 4294967296. apply Z.mod_pos_bound; lia.
Qed.

(** C4. A speech packet reaches the packet buffer.  For a registered codec that
    needs no special handling (not redundancy, telephone events, comfort noise,
    iLBC or a scaled clock), outside of AV-sync mode: when the packet is the
    first one of a stream, or its codec is not the current one, the buffer is
    flushed; with a new codec the split information is renewed, and a refusal (a payload
    length that the codec cannot have) is the result, with nothing inserted; else the
    packet is split and inserted exactly as [SplitAndInsertPayload] does, whose error
    code is the result.  Its time stamp is the received one, or, when a packet of a
    scaled codec began the scaling earlier in the stream, the internal clock moved on by
    the difference of the time stamps.  On success the result is 0, the codec is the
    current one, a new codec is signalled for a new stream, a codec change and a
    flush of the full buffer, and the codec's bandwidth estimator, if it has one, gets
    the payload bytes, their number, and the header fields. *)
Theorem RecIn_speech call (m : Mcu) (p uninit : RTPPacket) (t c : Z) (e : CodecEntry)
    (Hm : mcu_inv m) (Hp : input_ok p)
    (Hl : db_lookup (mc_codec_DB m) c = Some e) (Hpt : ce_payloadType e = rtp_payloadType p)
    (Hpt0 : 0 <= rtp_payloadType p) (Hplain : plain_speech c = true)
    (Hnocng : DbIsCNGPayload (mc_codec_DB m) (rtp_payloadType p) = false)
    (Hav : mc_av_sync m = false) :
  let change := negb (c =? mc_current_Codec m) in
  let split := DbGetSplitInfo (mc_PayloadSplit m) c (rtp_payloadLen p) in
  let old := if new_stream p m then (PacketBufferFlush (mc_PacketBuffer m)).2 else mc_PacketBuffer m in
  let buf := if change then (PacketBufferFlush (mc_PacketBuffer m)).2 else old in
  let si := if change then split.2 else mc_PayloadSplit m in
  let q := stored_packet m p in
  if change && (split.1 <? 0)
  then exists m', RecInInternal call p uninit t m = Some (split.1, None, m') /\
    mc_PacketBuffer m' = old /\ mc_current_Codec m' = c
  else exists r fl b bwe m',
    SplitAndInsertPayload q buf si false = Some (r, fl, b) /\
    RecInInternal call p uninit t m = Some (if r <? 0 then r else 0, bwe, m') /\
    mc_PacketBuffer m' = b /\ mc_PayloadSplit m' = si /\ mc_current_Codec m' = c /\
    (0 <= r -> mc_new_codec m' = (if new_stream p m || change || fl then 1 else mc_new_codec m) /\ bwe_call e q t bwe) /\
    (r < 0 -> bwe = None).
Proof.
  intros change split old buf si q. set (db := mc_codec_DB m) in *.
  destruct (recin_reinit_view p m) as (V1 & V2 & V3 & V4 & _).
  pose proof (stored_packet_reinit p m (RTCPUpdate (mc_RTCP (recin_reinit p m)) (rtp_seqNumber p) (rtp_timeStamp p) t)) as Hq.
  destruct (speech_reinit p c m (RTCPUpdate (mc_RTCP (recin_reinit p m)) (rtp_seqNumber p) (rtp_timeStamp p) t))
    as [Eb Es].
  set (m1 := recin_reinit p m) in *.
  set (m2 := m1 <| mc_RTCP := RTCPUpdate (mc_RTCP m1) (rtp_seqNumber p) (rtp_timeStamp p) t |>) in *.
  fold change in Eb, Es. fold split in Es. fold si in Es. fold q in Hq.
  assert (keeps db m2) as Hk.
  { assert (keeps db m1) as H1 by by apply recin_reinit_keeps. eapply keeps_frame; [exact H1|done..]. }
  assert (speech_buffer c m2 = buf) as Eb'.
  { rewrite Eb. unfold buf, old. by destruct (new_stream p m), change. }
  assert (mc_current_Codec m2 = mc_current_Codec m /\ mc_PayloadSplit m2 = mc_PayloadSplit m) as [C2 S2] by done.
  destruct (recin_size_ex db call m (conj Hm eq_refl)) as [size Hsize].
  pose proof (recin_prefix call p uninit t m size Hav Hsize) as Hbody. cbv zeta in Hbody.
  fold m1 m2 in Hbody. specialize (Hbody (speech_red p uninit c e db (mi_db _ Hm) Hl Hpt Hpt0 Hplain m2 (proj2 Hk))).
  unfold RecInInternal. rewrite Hbody. clear Hbody. destruct (change && (split.1 <? 0)) eqn:Eref.
  - apply andb_true_iff in Eref as [Hc%negb_true_iff%Z.eqb_neq Hs%Z.ltb_lt].
    destruct (recin_payload_refused p c e db (mi_db _ Hm) Hl Hpt Hpt0 Hplain Hnocng m2) as (m3 & H3 & B3 & C3);
      [done|by rewrite C2|by rewrite S2|].
    rewrite S2 in H3. fold split in H3. exists m3. unfold rec_bind at 1. rewrite (recin_loop_fail _ _ _ _ H3).
    split; [done|]. split; [|done]. rewrite B3. unfold m2, m1, old, recin_reinit. fold (new_stream p m). by destruct (new_stream p m).
  - destruct (SplitAndInsert_keeps q (stored_packet_ok m p Hp) false buf) with (si := si)
      as (r & fl & b & Hins & Hb).
    { rewrite <- Eb'. unfold speech_buffer. destruct (c =? mc_current_Codec m2); [|apply Flush_inv]; apply Hk. }
    { rewrite <- Es. unfold speech_si. destruct (c =? mc_current_Codec m2); [|apply DbGetSplitInfo_ok]; apply Hk. }
    destruct (recin_payload_stores p c e db (mi_db _ Hm) Hl Hpt Hpt0 Hplain Hnocng m2 r fl b)
      as (m3 & H3 & W1 & W2 & W3 & W4); [done|by rewrite <- Hav| | |].
    { rewrite C2, S2. intros Hne. unfold change in Eref. rewrite (proj2 (Z.eqb_neq _ _) Hne) in Eref. cbn in Eref. apply Z.ltb_ge in Eref. done. }
    { by rewrite Hq, Eb', Es. }
    rewrite Hq in H3. rewrite Es in W2.
    assert (keeps db m3) as Hk3.
    { destruct (recin_payload_safe db false false 0 p false Hp m2 Hk) as (x & m' & H & Hk3).
      rewrite H3 in H. injection H as <- <-. case_match; [done|by apply Hk3]. }
    exists r, fl, b. destruct (Z.ltb_spec r 0).
    + exists None, m3. split; [done|].
      unfold rec_bind at 1. rewrite (recin_loop_fail _ _ _ _ H3). split_and!; try done. lia.
    + destruct (recin_tail db call size q t c e m3 Hk3 (mi_db _ Hm) Hl) as (bwe & m4 & H4 & Hv & Hbw).
      { rewrite Hpt. unfold q, stored_packet. by destruct (new_stream p m). }
      { by apply stored_packet_ok. }
      exists bwe, m4. split; [done|]. injection Hv as X1 X2 X3 X4 X5 X6 X7.
      rewrite (rec_step _ _ _ _ _ (recin_loop_one _ _ _ _ _ H3)).
      rewrite (rec_step _ _ m3 q m3) by done. rewrite H4.
      split; [done|]. split_and!; try congruence; [|lia]. intros _. split; [|done]. rewrite X6, (W4 ltac:(lia)).
      rewrite C2. fold change. change (mc_new_codec m2) with (mc_new_codec m1). unfold m1, recin_reinit. fold (new_stream p m).
      by destruct (new_stream p m), change, fl.
Qed.

Definition ex_speech_packet : RTPPacket := mkRTPPacket 7 1000 42 0 [1; 2; 3; 4] 4 0 0.

(** The scaling was begun: the internal clock stands at 5000 for the external time 840. *)
Definition ex_scaled_mcu : Mcu := ex_mcu <| mc_first_packet := 0 |> <| mc_ssrc := 42 |>
  <| mc_TSscalingInitialized := 1 |> <| mc_externalTS := 840 |> <| mc_internalTS := 5000 |>.

Lemma ex_scaled_mcu_inv : mcu_inv ex_scaled_mcu.
Proof. destruct ex_mcu_inv. by split. Qed.

Lemma RecIn_speech_witness :
  exists r fl b bwe m',
    SplitAndInsertPayload (ex_speech_packet <| rtp_timeStamp := 5160 |>) (PacketBufferFlush ex_buf).2
      (mkSplitInfo (-12) 1) false = Some (r, fl, b) /\
    RecInInternal (fun _ _ _ _ => 0) ex_speech_packet ex_uninit 5 ex_scaled_mcu
      = Some (if r <? 0 then r else 0, bwe, m') /\
    mc_PacketBuffer m' = b /\ mc_PayloadSplit m' = mkSplitInfo (-12) 1 /\
    mc_current_Codec m' = kDecoderPCMu /\ (0 <= r -> mc_new_codec m' = 1 /\
      exists bytes, bwe = Some (mkBweCall 18 21 bytes 4 7 5160 5) /\ aload bytes 0 4 = Some [1; 2; 3; 4]).
Proof.
  destruct (RecIn_speech (fun _ _ _ _ => 0) ex_scaled_mcu ex_speech_packet ex_uninit 5 kDecoderPCMu ex_pcmu
    ex_scaled_mcu_inv) as (r & fl & b & bwe & m' & H1 & H2 & H3 & H4 & H5 & H6 & _); try reflexivity; try discriminate.
  { split; [split; [by left|vm_compute; discriminate]|simpl; lia|simpl; lia|].
    repeat (constructor; [simpl; lia|]). constructor. }
  exists r, fl, b, bwe, m'. repeat (split; [assumption|]). exact H6.
Defined.

(** ** Telephone events in a redundant packet *)

(** Two telephone-event blocks (events 5 and 6). *)
Definition ex_red_events : RTPPacket :=
  mkRTPPacket 7 1000 42 127 [234; 20; 0; 4; 106; 5; 10; 0; 160; 6; 10; 0; 160; 0; 0; 0] 13 0 0.

(** Telephone events of a redundant packet with one redundant block are lost:
    their payloads start at the second byte of a word, which the event handler
    is not told; it reads both from the byte before.  The split is right, and
    the reception reports success, but no event is queued. *)
Example RecIn_red_events_lost :
  match RedundancySplit [ex_red_events; ex_uninit] 2 with
  | Some (_, hs, _) => map payload_bytes hs
  | None => []
  end = [[6; 10; 0; 160]; [5; 10; 0; 160]] /\
  exists m', RecInInternal (fun _ _ _ _ => 0) ex_red_events ex_uninit 5 (ex_mcu <| mc_AVT_PlayoutOn := 1 |>)
               = Some (0, None, m') /\
    map ev_event (dt_queue (mc_DTMF m')) = [-1; -1; -1; -1].
Proof. split; [reflexivity|]. eexists. split; vm_compute; reflexivity. Qed.
