(* ===== verification/SignalMcu.v ===== *)
(** The playout side of the NetEQ MCU: [signal_mcu.c].

    Every 10 ms the DSP side calls [WebRtcNetEQ_SignalMcu] with its status; the
    MCU decides what to play and writes an instruction word, a time stamp jump
    and blocks of payload into the memory shared with the DSP ("Data block
    structure for MCU to DSP communication" in [neteq_defines.h]). *)
From S2P Require Import Prelude Prog Rtp CodecDb PacketBuffer Rtcp Dtmf SplMath Automode BufStats Mcu.
Open Scope rec_monad_scope.

(** ** Constants ([neteq_defines.h]) *)

Definition DSP_INSTR_NORMAL : Z := 0x1000.
Definition DSP_INSTR_MERGE : Z := 0x2000.
Definition DSP_INSTR_EXPAND : Z := 0x3000.
Definition DSP_INSTR_ACCELERATE : Z := 0x4000.
Definition DSP_INSTR_DO_RFC3389CNG : Z := 0x5000.
Definition DSP_INSTR_DTMF_GENERATE : Z := 0x6000.
Definition DSP_INSTR_NORMAL_ONE_DESC : Z := 0x7000.
Definition DSP_INSTR_DO_CODEC_INTERNAL_CNG : Z := 0x8000.
Definition DSP_INSTR_PREEMPTIVE_EXPAND : Z := 0x9000.
Definition DSP_INSTR_DO_ALTERNATIVE_PLC : Z := 0xB000.
Definition DSP_INSTR_DO_ALTERNATIVE_PLC_INC_TS : Z := 0xC000.
Definition DSP_INSTR_DO_AUDIO_REPETITION : Z := 0xD000.
Definition DSP_INSTR_DO_AUDIO_REPETITION_INC_TS : Z := 0xE000.
Definition DSP_CODEC_NEW_CODEC : Z := 0x0200.
Definition DSP_CODEC_ADD_LATE_PKT : Z := 0x0300.
Definition DSP_CODEC_RESET : Z := 0x0400.
Definition DSP_DTMF_PAYLOAD : Z := 0x0010.
Definition DSP_CODEC_RED_FLAG : Z := 0x8000.
Definition MODE_DTMF : Z := 7.
Definition MODE_ONE_DESCRIPTOR : Z := 8.
Definition MODE_AWAITING_CODEC_PTR : Z := 0x0100.
Definition MODE_BGN_ONLY : Z := 0x0200.
Definition MODE_MASTER_DTMF_SIGNAL : Z := 0x0400.
Definition MODE_USING_STEREO : Z := 0x0800.
Definition MAX_ONE_DESC : Z := 5.
Definition MAX_LOSS_REPORT_PERIOD : Z := 60.
Definition UNKNOWN_BUFSTAT_DECISION : Z := -2001.

(** [DSP2MCU_info_t] *)
Record DspInfo := mkDspInfo {
  di_playedOutTS : Z;   (* uint32_t *)
  di_samplesLeft : Z;   (* uint16_t *)
  di_MD : Z;            (* int16_t *)
  di_lastMode : Z;      (* int16_t *)
  di_frameLen : Z       (* int16_t *)
}.
#[export] Instance eta_DspInfo : Eta DspInfo := fun r =>
  mkDspInfo (di_playedOutTS r) (di_samplesLeft r) (di_MD r) (di_lastMode r) (di_frameLen r).

(** The instance, the shared memory from [pw16_writeAddress] on, in bytes, and
    [blockPtr], as a word index. *)
Record Sig := mkSig { sg_mcu : Mcu; sg_mem : list Z; sg_blk : Z }.
#[export] Instance eta_Sig : Eta Sig := fun r => mkSig (sg_mcu r) (sg_mem r) (sg_blk r).

(** ** Access to the instance and to the shared memory *)

Definition sig_get {A} (f : Mcu -> A) : Rec Sig A := rec_get (fun s => f (sg_mcu s)).
Definition sig_try {A} (f : Mcu -> option A) : Rec Sig A := rec_try (fun s => f (sg_mcu s)).
Definition sig_upd (f : Mcu -> Mcu) : Rec Sig unit :=
  rec_modify (fun s => s <| sg_mcu := f (sg_mcu s) |>).
Definition sig_op {A} (f : Mcu -> option (A * Mcu)) : Rec Sig A :=
  rec_op (fun s => '(x, m) ← f (sg_mcu s); Some (x, s <| sg_mcu := m |>)).

(** [((int16_t * )p)[k] = v] *)
Definition put_w16 (p : list Z) (k v : Z) : option (list Z) :=
  astore p (2 * k) [u8 v; u8 (Z.shiftr v 8)].

(** [pw16_writeAddress[k] = v] and [*blockPtr = v] *)
Definition sig_put (k v : Z) : Rec Sig unit :=
  rec_op (fun s => mem ← put_w16 (sg_mem s) k v; Some (tt, s <| sg_mem := mem |>)).
Definition sig_block (v : Z) : Rec Sig unit :=
  rec_op (fun s => mem ← put_w16 (sg_mem s) (sg_blk s) v; Some (tt, s <| sg_mem := mem |>)).
(** [blockPtr += n] *)
Definition sig_advance (n : Z) : Rec Sig unit := rec_modify (fun s => s <| sg_blk := sg_blk s + n |>).
(** [memcpy(blockPtr, bytes, ...)] *)
Definition sig_copy (bytes : list Z) : Rec Sig unit :=
  rec_op (fun s => mem ← astore (sg_mem s) (2 * sg_blk s) bytes; Some (tt, s <| sg_mem := mem |>)).
(** [pw16_writeAddress[0] = (pw16_writeAddress[0] & mask) | v] *)
Definition sig_instr (mask v : Z) : Rec Sig unit :=
  w <- rec_try (fun s => get_w16 (sg_mem s) 0) ;;
  sig_put 0 (Z.lor (Z.land w mask) v).
(** The instruction in the top four bits. *)
Definition sig_decide (v : Z) : Rec Sig unit := sig_instr 0x0fff v.

Definition upd_bufstat (f : BufStats -> BufStats) (m : Mcu) : Mcu :=
  m <| mc_BufferStat := f (mc_BufferStat m) |>.
Definition upd_automode (f : Automode -> Automode) (m : Mcu) : Mcu :=
  set_Automode m (f (mc_Automode m)).
Definition upd_buffer (f : PacketBuf -> PacketBuf) (m : Mcu) : Mcu :=
  m <| mc_PacketBuffer := f (mc_PacketBuffer m) |>.

Section Signal.
(** The duration estimators; the bytes of a pointer and of a
    [CodecFuncInst_t] in memory; the initial contents of the locals
    [temp_pkt] and [cinst]. *)
Context (call_durationEst : ptr -> ptr -> list Z -> Z -> Z).
Context (ptr_bytes : ptr -> list Z) (cinst_bytes : CodecFuncInst -> list Z).
Context (uninit_pkt : RTPPacket) (uninit_cinst : CodecFuncInst).

(** ** [WebRtcNetEQ_UpdatePackSizeSamples] *)
Definition UpdatePackSizeSamples (m : Mcu) (buffer_pos payload_type pack_size_samples : Z)
    : option Z :=
  if buffer_pos <? 0 then Some pack_size_samples else
  codec ← DbGetCodec (mc_codec_DB m) payload_type;
  if codec <? 0 then Some pack_size_samples else
  codec_pos ← aget (db_position (mc_codec_DB m)) codec;
  if codec_pos <? 0 then Some pack_size_samples else
  temp ← PacketBufferGetPacketSize call_durationEst (mc_PacketBuffer m) buffer_pos (mc_codec_DB m)
           codec_pos pack_size_samples (mc_av_sync m);
  Some (if 0 <? temp then temp else pack_size_samples).

(** [packSizeSamples] is a [uint16_t]. *)
Definition sig_packsize (pos pt : Z) (guess : Mcu -> Z) : Rec Sig unit :=
  n <- sig_try (fun m => UpdatePackSizeSamples m pos pt (guess m)) ;;
  sig_upd (upd_buffer (fun b => b <| pb_packSizeSamples := u16 n |>)).

(** ** The steps of [WebRtcNetEQ_SignalMcu] *)

(** The flags in [lastMode] and the counters that depend on it: the information
    without the flags, [playDtmf] and [lastModeBGNonly]. *)
Definition flag (mode f : Z) : bool := negb (Z.land mode f =? 0).
Definition unflag (d : DspInfo) (f : Z) : DspInfo :=
  if flag (di_lastMode d) f then d <| di_lastMode := Z.lxor (di_lastMode d) f |> else d.

Definition sig_stereo (stereo : bool) (m : Mcu) : Mcu :=
  let m := if stereo && (mc_usingStereo m =? 0)
           then upd_automode (fun a => ResetAutomode a (pb_maxInsertPositions (mc_PacketBuffer m))) m
           else m in
  m <| mc_usingStereo := b2z stereo |>.

Definition sig_cng_played (lastMode : Z) (m : Mcu) : Mcu :=
  if (lastMode =? MODE_RFC3389CNG) || (lastMode =? MODE_CODEC_INTERNAL_CNG)
     || (lastMode =? MODE_EXPAND)
  then upd_bufstat (fun b =>
         let b := b <| bs_CNGplayedTS := s32 (bs_CNGplayedTS b + mc_timestampsPerCall m) |> in
         if lastMode =? MODE_RFC3389CNG then b <| bs_cngOn := CNG_RFC3389_ON |>
         else if lastMode =? MODE_CODEC_INTERNAL_CNG then b <| bs_cngOn := CNG_INTERNAL_ON |>
         else b) m
  else m.

Definition sig_modes (d : DspInfo) : Rec Sig (DspInfo * Z * bool) :=
  rec_when (flag (di_lastMode d) MODE_AWAITING_CODEC_PTR)
    (sig_upd (fun m => if mc_new_codec m =? 1 then m else m <| mc_current_Codec := -1 |>)) ;;;
  let d := unflag d MODE_AWAITING_CODEC_PTR in
  let playDtmf := b2z (flag (di_lastMode d) MODE_MASTER_DTMF_SIGNAL) in
  let d := unflag d MODE_MASTER_DTMF_SIGNAL in
  sig_upd (sig_stereo (flag (di_lastMode d) MODE_USING_STEREO)) ;;;
  let d := unflag d MODE_USING_STEREO in
  let lastModeBGNonly := flag (di_lastMode d) MODE_BGN_ONLY in
  let d := unflag d MODE_BGN_ONLY in
  sig_upd (sig_cng_played (di_lastMode d)) ;;;
  sig_upd (fun m => if 0 <? di_frameLen d
                    then upd_buffer (fun b => b <| pb_packSizeSamples := u16 (di_frameLen d) |>) m
                    else m) ;;;
  rec_ret (d, playDtmf, lastModeBGNonly).

(** Extracting a packet to [blockPtr + 1]. *)
Definition sig_extract (pos : Z) : Rec Sig (Z * RTPPacket * option Z) :=
  rec_op (fun s =>
    let at_block := 2 * (sg_blk s + 1) in
    '(i_res, p, waitingTime, b) ←
      PacketBufferExtract (mc_PacketBuffer (sg_mcu s))
        (uninit_pkt <| rtp_payload := drop (Z.to_nat at_block) (sg_mem s) |>) pos;
    Some (i_res, p, waitingTime,
          s <| sg_mem := take (Z.to_nat at_block) (sg_mem s) ++ rtp_payload p |>
            <| sg_mcu := (sg_mcu s) <| mc_PacketBuffer := b |> |>)).

(** A payload block: the extracted packet with its length in front. *)
Definition sig_emit (pos : Z) : Rec Sig unit :=
  r <- sig_extract pos ;;
  let '(i_res, p, waitingTime) := r in
  rec_check i_res i_res ;;;
  waitingTime <- rec_try (fun _ => waitingTime) ;;
  sig_op (fun m => m ← StoreWaitingTime m waitingTime; Some (tt, m)) ;;;
  sig_block (if 0 <? rtp_rcuPlCntr p then Z.lor (rtp_payloadLen p) DSP_CODEC_RED_FLAG
             else rtp_payloadLen p) ;;;
  sig_advance (words (rtp_payloadLen p) + 1).

(** The search for a packet; the outputs keep their old value when the buffer
    is not initialised. *)
Definition sig_find (now : Z) (erase : bool) (old : Lowest) : Rec Sig (Z * Lowest) :=
  sig_op (fun m =>
    '(i_res, lo, b) ← PacketBufferFindLowestTimestamp (mc_PacketBuffer m) now erase;
    Some (i_res, default old lo, m <| mc_PacketBuffer := b |>)).

(** "Look for late packet": for multiple description codecs only; the result
    is [latePacketExist]. *)
Definition sig_late (d : DspInfo) (old : Lowest) : Rec Sig bool :=
  new_codec <- sig_get mc_new_codec ;;
  codec <- sig_get mc_current_Codec ;;
  if (new_codec =? 1) || negb (DbIsMDCodec codec) then rec_ret false else
  now <- sig_get mc_timeStamp ;;
  r <- sig_find now true old ;;
  let lo := r.2 in
  pt <- sig_try (fun m => DbGetPayload (mc_codec_DB m) codec) ;;
  if (now =? lo_time_stamp lo) && (now <? di_playedOutTS d) && negb (lo_position lo =? -1)
     && (pt =? lo_payload_type lo)
  then
    sig_emit (lo_position lo) ;;;
    sig_block 0 ;;;
    sig_instr 0xf0ff DSP_CODEC_ADD_LATE_PKT ;;;
    rec_ret true
  else rec_ret false.

(** Discarding comfort noise packets that are not newer than what was played.
    Every round removes a packet. *)
Fixpoint sig_drop_cng (fuel : nat) (now : Z) (erase : bool) (lo : Lowest) : Rec Sig Lowest :=
  match fuel with
  | O => rec_try (fun _ => None)
  | S fuel =>
      cng <- sig_get (fun m => DbIsCNGPayload (mc_codec_DB m) (lo_payload_type lo)) ;;
      if negb (lo_position lo =? -1) && cng && (lo_time_stamp lo <=? now) then
        sig_op (fun m =>
          let b := mc_PacketBuffer m in
          s ← aget (pb_slot b) (lo_position lo);
          slots ← aset (pb_slot b) (lo_position lo) (clear_slot s);
          Some (tt, m <| mc_PacketBuffer := b <| pb_slot := slots |>
                           <| pb_numPacketsInBuffer := pb_numPacketsInBuffer b - 1 |> |>)) ;;;
        r <- sig_find now erase lo ;;
        sig_drop_cng fuel now erase r.2
      else rec_ret lo
  end.

(** "Update statistics and make decision", after the size of the buffer and the
    telephone events: the decision and [playDtmf]. *)
Definition sig_bufsize (d : DspInfo) (fs_mult : Z) : Rec Sig Z :=
  bufsize <- sig_try (fun m =>
    PacketBufferGetSize call_durationEst (mc_PacketBuffer m) (mc_codec_DB m) (mc_av_sync m)) ;;
  rec_when (is_case (di_lastMode d) [MODE_SUCCESS_ACCELERATE; MODE_LOWEN_ACCELERATE;
              MODE_SUCCESS_PREEMPTIVE; MODE_LOWEN_PREEMPTIVE])
    (sig_upd (fun m => upd_automode (fun a => a <| am_sampleMemory :=
       s32 (am_sampleMemory a - (di_samplesLeft d + mc_timestampsPerCall m)) |>) m)) ;;;
  rec_ret (DivW32W16 (s32 (bufsize + di_samplesLeft d)) fs_mult).

Definition sig_dtmf (d : DspInfo) (playDtmf : Z) : Rec Sig Z :=
  r <- sig_op (fun m =>
    let now := u32 (di_playedOutTS d + bs_CNGplayedTS (mc_BufferStat m)) in
    '(len, out, dtmf) ← DtmfDecode (mc_DTMF m) now;
    Some (len, out, m <| mc_DTMF := dtmf |>)) ;;
  let '(len, out) := r in
  blk <- rec_get sg_blk ;;
  match out with
  | Some (event, volume) => sig_put (blk + 1) event ;;; sig_put (blk + 2) volume
  | None => rec_ret tt
  end ;;;
  if 0 <? len then
    sig_instr 0xffff DSP_DTMF_PAYLOAD ;;;
    sig_block 4 ;;;
    sig_advance 3 ;;;
    rec_ret 1
  else rec_ret playDtmf.

Definition sig_decision (d : DspInfo) (lo : Lowest) (fs_mult bufsize playDtmf : Z)
    (lastModeBGNonly : bool) : Rec Sig Decision :=
  sig_op (fun m =>
    let '(instr, b) := BufstatsDecision (mc_BufferStat m)
      (mkBufArgs (s16 (pb_packSizeSamples (mc_PacketBuffer m))) bufsize (di_playedOutTS d)
         (lo_time_stamp lo) (lo_position lo =? -1)
         (DbIsCNGPayload (mc_codec_DB m) (lo_payload_type lo)) (di_lastMode d) (mc_PlayoutMode m)
         (mc_timestampsPerCall m) (mc_NoOfExpandCalls m) fs_mult lastModeBGNonly playDtmf) in
    Some (instr, m <| mc_BufferStat := b |>)).

(** "Check if time to reset loss counter." *)
Definition sig_report (m : Mcu) : Mcu :=
  if u32 (mc_fs m * MAX_LOSS_REPORT_PERIOD) <? mc_lastReportTS m
  then ResetMcuInCallStats m else m.

(** The codec's functions, for a new codec: from the database, or zeros with the
    sampling rate when no codec is current. *)
Definition sig_cinst (pt : Z) : Rec Sig CodecFuncInst :=
  codec <- sig_get mc_current_Codec ;;
  if negb (codec =? -1) then
    r <- sig_try (fun m => DbGetPtrs (mc_codec_DB m) codec uninit_cinst) ;;
    rec_check r.1 r.1 ;;;
    rec_ret r.2
  else
    cng <- sig_get (fun m => DbIsCNGPayload (mc_codec_DB m) pt) ;;
    rec_when cng
      (tempFs <- sig_try (fun m => DbGetSampleRate (mc_codec_DB m) pt) ;;
       sig_upd (fun m => if 32000 <? tempFs then m <| mc_fs := 32000 |>
                         else if 0 <? tempFs then m <| mc_fs := tempFs |> else m)) ;;;
    fs <- sig_get mc_fs ;;
    rec_ret (mkCodecFuncInst 0 0 0 0 0 0 0 0 0 0 fs 0).

(** A block with the given bytes, of an even number. *)
Definition sig_raw_block (bytes : list Z) : Rec Sig unit :=
  let blockLen := Z.shiftr (zlen bytes) 1 in
  sig_block (blockLen * 2) ;;;
  sig_advance 1 ;;;
  sig_copy bytes ;;;
  sig_advance blockLen.

(** "New codec or big change in packet number": the information with the new
    [playedOutTS], and the new decision. *)
Definition sig_new_codec (d : DspInfo) (lo : Lowest) (instr : Decision)
    : Rec Sig (DspInfo * Decision) :=
  rec_modify (fun s => s <| sg_blk := 3 |>) ;;;
  sig_put 0 0 ;;;
  sig_upd (fun m => m <| mc_timeStamp := lo_time_stamp lo |>) ;;;
  let d := d <| di_playedOutTS := lo_time_stamp lo |> in
  cinst <- sig_cinst (lo_payload_type lo) ;;
  sig_raw_block (cinst_bytes (mkCodecFuncInst (cf_funcDecode cinst) (cf_funcDecodeRCU cinst)
    (cf_funcDecodePLC cinst) (cf_funcDecodeInit cinst) (cf_funcAddLatePkt cinst)
    (cf_funcGetMDinfo cinst) (cf_funcUpdBWEst cinst) (cf_funcDurationEst cinst)
    (cf_funcGetErrorCode cinst) (cf_codec_state cinst) (cf_codec_fs cinst) (lo_time_stamp lo))) ;;;
  sig_upd (fun m => m <| mc_new_codec := 0 |>) ;;;
  i_res <- sig_op (fun m => Some (McuSetFs m (cf_codec_fs cinst))) ;;
  rec_check i_res i_res ;;;
  sig_packsize (lo_position lo) (lo_payload_type lo) (fun m => mc_timestampsPerCall m * 3) ;;;
  sig_upd (fun m => upd_automode (fun a =>
    ResetAutomode a (pb_maxInsertPositions (mc_PacketBuffer m))) m) ;;;
  r <- sig_try (fun m => DbGetPtrs (mc_codec_DB m) kDecoderCNG cinst) ;;
  rec_when ((r.1 <? 0) && negb (r.1 =? CODEC_DB_NOT_EXIST1)) (rec_fail r.1) ;;;
  sig_raw_block (ptr_bytes (cf_codec_state r.2)) ;;;
  sig_instr 0xf0ff DSP_CODEC_NEW_CODEC ;;;
  sig_upd ResetMcuInCallStats ;;;
  rec_ret (d, if decide (instr = DO_RFC3389CNG_NOPACKET) then DO_RFC3389CNG_PACKET
              else if decide (instr = DO_RFC3389CNG_PACKET) then instr else DO_NORMAL).

(** "Expand requires no new packet." *)
Definition sig_expand (d : DspInfo) (latePacketExist : bool) : Rec Sig unit :=
  sig_upd (fun m => m <| mc_timeStamp := di_playedOutTS d |>) ;;;
  codec <- sig_get mc_current_Codec ;;
  rec_when (DbIsMDCodec codec && (negb (di_MD d =? 0) || latePacketExist))
    (sig_upd (fun m => if di_lastMode d =? MODE_ONE_DESCRIPTOR then m
                       else m <| mc_one_desc := 0 |>) ;;;
     one_desc <- sig_get mc_one_desc ;;
     if one_desc <? MAX_ONE_DESC then
       sig_upd (fun m => m <| mc_one_desc := one_desc + 1 |>) ;;;
       sig_decide DSP_INSTR_NORMAL_ONE_DESC ;;;
       sig_upd (fun m => m <| mc_NoOfExpandCalls := Z.max (mc_NoOfExpandCalls m - 1) 0 |>) ;;;
       rec_fail 0
     else sig_upd (fun m => m <| mc_one_desc := 0 |>)) ;;;
  sig_decide DSP_INSTR_EXPAND ;;;
  rec_fail 0.

(** The time stamp jump, in two words. *)
Definition sig_jump (jump : Z) : Rec Sig unit :=
  sig_put 1 (Z.shiftr jump 16) ;;; sig_put 2 (Z.land jump 0xFFFF).

(** An instruction without payload: the blocks are closed and the call returns. *)
Definition sig_done (instr : Z) : Rec Sig unit :=
  sig_decide instr ;;; sig_block 0 ;;; rec_fail 0.

(** "Do DTMF without extracting any new packets from buffer." *)
Definition sig_dtmf_only (d : DspInfo) : Rec Sig unit :=
  played <- sig_get (fun m => bs_CNGplayedTS (mc_BufferStat m)) ;;
  let jumps := (0 <? played) && negb (di_lastMode d =? MODE_DTMF) in
  let timeStampJump := if jumps then u32 played else 0 in
  rec_when jumps (sig_jump timeStampJump) ;;;
  sig_upd (fun m => (upd_bufstat (fun b => b <| bs_CNGplayedTS := 0 |>) m)
    <| mc_timeStamp := u32 (di_playedOutTS d + timeStampJump) |> <| mc_NoOfExpandCalls := 0 |>) ;;;
  sig_done DSP_INSTR_DTMF_GENERATE.

(** Time scaling with what is decoded already. *)
Definition sig_scale_now (d : DspInfo) (instr : Z) : Rec Sig unit :=
  sig_decide instr ;;; sig_block 0 ;;;
  sig_upd (upd_automode (fun a => a <| am_sampleMemory := di_samplesLeft d |>
                                    <| am_prevTimeScale := 1 |>)) ;;;
  rec_fail 0.

(** Accelerate and preemptive expand: the number of samples to decode and the
    decision, unless the samples at hand are enough. *)
Definition sig_wanted (d : DspInfo) (fs_mult : Z) (instr : Decision) : Rec Sig (Z * Decision) :=
  pack <- sig_get (fun m => pb_packSizeSamples (mc_PacketBuffer m)) ;;
  call <- sig_get mc_timestampsPerCall ;;
  let left := di_samplesLeft d in
  let long := 240 * fs_mult <=? pack in
  match instr with
  | DO_ACCELERATE =>
      if 240 * fs_mult <=? left then
        sig_scale_now d DSP_INSTR_ACCELERATE ;;; rec_ret (0, instr)
      else if (80 * fs_mult <=? left) && long then
        sig_done DSP_INSTR_NORMAL ;;; rec_ret (0, instr)
      else if (left <? 80 * fs_mult) && long then rec_ret (s16 call, instr)
      else if 160 * fs_mult <=? left then rec_ret (s16 call, instr)
      else rec_ret (s16 (2 * call), DO_NORMAL)
  | DO_PREEMPTIVE_EXPAND =>
      if 240 * fs_mult <=? left then
        sig_scale_now d DSP_INSTR_PREEMPTIVE_EXPAND ;;; rec_ret (0, instr)
      else if (80 * fs_mult <=? left) && long then
        sig_scale_now d DSP_INSTR_PREEMPTIVE_EXPAND ;;; rec_ret (0, instr)
      else if (left <? 80 * fs_mult) && long then rec_ret (s16 call, instr)
      else if 160 * fs_mult <=? left then rec_ret (s16 call, instr)
      else rec_ret (s16 (2 * call), instr)
  | _ => rec_ret (s16 call, instr)
  end.

(** The extraction loop: from the packet found last and the sequence number of
    the packet before it, the number of samples extracted, the packet found next
    and whether it continues the stream. *)
Definition sig_continues (oldPT prevTS prevSeqNo : Z) (lo : Lowest) (m : Mcu) : option (Z * bool) :=
  let b := mc_PacketBuffer m in
  if -1 <? lo_position lo then
    s ← aget (pb_slot b) (lo_position lo);
    if oldPT =? sl_payloadType s then
      let w16_tmp := s16 (sl_seqNumber s - prevSeqNo) in
      let w32_tmp := s32 (u32 (sl_timeStamp s - prevTS)) in
      Some (sl_seqNumber s,
            (w16_tmp =? 1) || ((w16_tmp =? 0) && (w32_tmp =? pb_packSizeSamples b)))
    else Some (prevSeqNo, false)
  else Some (prevSeqNo, false).

Definition sig_round (oldTS oldPT prevTS totalTS prevSeqNo : Z) (lo : Lowest)
    : Rec Sig (Z * Z * Lowest * bool) :=
  sig_upd (fun m => m <| mc_timeStamp := lo_time_stamp lo |>) ;;;
  sig_emit (lo_position lo) ;;;
  pack <- sig_get (fun m => pb_packSizeSamples (mc_PacketBuffer m)) ;;
  let totalTS := if -1 <? lo_position lo then s32 (u32 (lo_time_stamp lo - oldTS + pack))
                 else totalTS in
  now <- sig_get mc_timeStamp ;;
  r <- sig_find now false lo ;;
  let lo := r.2 in
  c <- sig_try (sig_continues oldPT prevTS prevSeqNo lo) ;;
  sig_packsize (lo_position lo) (lo_payload_type lo)
    (fun m => pb_packSizeSamples (mc_PacketBuffer m)) ;;;
  rec_ret (totalTS, c.1, lo, c.2).

(** [do ... while ((totalTS < wantedNoOfTimeStamps) && (nextSeqNoAvail == 1))]: every
    round extracts a packet. *)
Fixpoint sig_rounds (fuel : nat) (wanted oldTS oldPT prevTS totalTS prevSeqNo : Z) (lo : Lowest)
    : Rec Sig Z :=
  match fuel with
  | O => rec_try (fun _ => None)
  | S fuel =>
      r <- sig_round oldTS oldPT prevTS totalTS prevSeqNo lo ;;
      let '(totalTS, prevSeqNo, lo, nextSeqNoAvail) := r in
      if (totalTS <? wanted) && (nextSeqNoAvail : bool)
      then sig_rounds fuel wanted oldTS oldPT prevTS totalTS prevSeqNo lo
      else rec_ret totalTS
  end.

(** "Otherwise get data from buffer, try to get at least 10ms": [totalTS]. *)
Definition sig_get_data (d : DspInfo) (lo : Lowest) (instr : Decision) (wanted : Z) : Rec Sig Z :=
  if (-1 <? lo_position lo) &&
     negb (bool_decide (instr = DO_ALTERNATIVE_PLC)) &&
     negb (bool_decide (instr = DO_ALTERNATIVE_PLC_INC_TS)) &&
     negb (bool_decide (instr = DO_AUDIO_REPETITION)) &&
     negb (bool_decide (instr = DO_AUDIO_REPETITION_INC_TS))
  then
    let jump := u32 (lo_time_stamp lo - di_playedOutTS d) in
    sig_jump jump ;;;
    sig_upd (fun m => if decide (bs_cngOn (mc_BufferStat m) = CNG_OFF)
                      then m <| mc_lostTS := u32 (mc_lostTS m + jump) |> else m) ;;;
    sig_upd (upd_bufstat (fun b =>
      (if decide (instr = DO_RFC3389CNG_PACKET) then b else b <| bs_cngOn := CNG_OFF |>)
        <| bs_CNGplayedTS := 0 |>)) ;;;
    s <- sig_try (fun m => aget (pb_slot (mc_PacketBuffer m)) (lo_position lo)) ;;
    sig_upd (fun m => m <| mc_decoded_packet_sequence_number := sl_seqNumber s |>
                        <| mc_decoded_packet_timestamp := sl_timeStamp s |>) ;;;
    sig_instr 0xFF3F 0 ;;;
    n <- sig_get (fun m => pb_numPacketsInBuffer (mc_PacketBuffer m)) ;;
    sig_rounds (S (Z.to_nat n)) wanted (lo_time_stamp lo) (sl_payloadType s) (sl_timeStamp s) 0
      (sl_seqNumber s) lo
  else rec_ret 0.

(** "Check that we have enough data (30ms) to do the Accelearate." *)
Definition sig_enough (d : DspInfo) (totalTS : Z) (instr : Decision) : Rec Sig Decision :=
  if bool_decide (instr = DO_ACCELERATE) || bool_decide (instr = DO_PREEMPTIVE_EXPAND) then
    call <- sig_get mc_timestampsPerCall ;;
    if (s32 (totalTS + di_samplesLeft d) <? 3 * call) && bool_decide (instr = DO_ACCELERATE)
    then rec_ret DO_NORMAL
    else
      sig_upd (upd_automode (fun a => a <| am_sampleMemory := s32 (di_samplesLeft d + totalTS) |>
                                        <| am_prevTimeScale := 1 |>)) ;;;
      rec_ret instr
  else rec_ret instr.

(** The instruction of a decision that comes this far; [None] is the [default]
    of the [switch]. *)
Definition final_instr (instr : Decision) : option (bool * Z) :=
  match instr with
  | DO_NORMAL => Some (false, DSP_INSTR_NORMAL)
  | DO_ACCELERATE => Some (false, DSP_INSTR_ACCELERATE)
  | DO_MERGE => Some (false, DSP_INSTR_MERGE)
  | DO_RFC3389CNG_PACKET => Some (false, DSP_INSTR_DO_RFC3389CNG)
  | DO_ALTERNATIVE_PLC => Some (true, DSP_INSTR_DO_ALTERNATIVE_PLC)
  | DO_ALTERNATIVE_PLC_INC_TS => Some (true, DSP_INSTR_DO_ALTERNATIVE_PLC_INC_TS)
  | DO_AUDIO_REPETITION => Some (true, DSP_INSTR_DO_AUDIO_REPETITION)
  | DO_AUDIO_REPETITION_INC_TS => Some (true, DSP_INSTR_DO_AUDIO_REPETITION_INC_TS)
  | DO_PREEMPTIVE_EXPAND => Some (false, DSP_INSTR_PREEMPTIVE_EXPAND)
  | _ => None
  end.

Definition sig_finish (d : DspInfo) (instr : Decision) : Rec Sig Z :=
  sig_block 0 ;;;
  match final_instr instr with
  | Some (clear_jump, w) =>
      rec_when clear_jump (sig_put 1 0) ;;;
      sig_decide w ;;;
      sig_upd (fun m => m <| mc_timeStamp := di_playedOutTS d |>) ;;;
      rec_ret 0
  | None => rec_ret UNKNOWN_BUFSTAT_DECISION
  end.

(** ** [WebRtcNetEQ_SignalMcu], in parts *)

(** The decisions that need no packet return here. *)
Definition sig_no_packet (d : DspInfo) (latePacketExist : bool) (instr : Decision) : Rec Sig unit :=
  match instr with
  | DO_EXPAND => sig_expand d latePacketExist
  | DO_MERGE => rec_when (negb (di_MD d =? 0)) (sig_done DSP_INSTR_NORMAL_ONE_DESC)
  | DO_RFC3389CNG_NOPACKET => sig_done DSP_INSTR_DO_RFC3389CNG
  | DO_INTERNAL_CNG_NOPACKET => sig_done DSP_INSTR_DO_CODEC_INTERNAL_CNG
  | DO_DTMF_ONLY => sig_dtmf_only d
  | _ => rec_ret tt
  end.

(** From the decision on. *)
Definition sig_act (d : DspInfo) (fs_mult : Z) (latePacketExist : bool) (lo : Lowest)
    (instr : Decision) : Rec Sig Z :=
  call <- sig_get mc_timestampsPerCall ;;
  rec_when ((call <=? di_samplesLeft d) && negb (bool_decide (instr = DO_ACCELERATE))
            && negb (bool_decide (instr = DO_MERGE))
            && negb (bool_decide (instr = DO_PREEMPTIVE_EXPAND)))
    (sig_block 0 ;;; sig_decide DSP_INSTR_NORMAL ;;; rec_fail 0) ;;;
  sig_upd (fun m => m <| mc_NoOfExpandCalls :=
    if decide (instr = DO_EXPAND) then s32 (mc_NoOfExpandCalls m + 1) else 0 |>) ;;;
  new_codec <- sig_get mc_new_codec ;;
  r <- (if negb (new_codec =? 0) || bool_decide (instr = REINIT)
        then sig_new_codec d lo instr else rec_ret (d, instr)) ;;
  let '(d, instr) := r in
  rec_when (bool_decide (instr = REINIT_DECODER)) (sig_instr 0xf0ff DSP_CODEC_RESET) ;;;
  let instr := if decide (instr = REINIT_DECODER) then DO_NORMAL else instr in
  sig_no_packet d latePacketExist instr ;;;
  r <- sig_wanted d fs_mult instr ;;
  let '(wanted, instr) := r in
  totalTS <- sig_get_data d lo instr wanted ;;
  instr <- sig_enough d totalTS instr ;;
  sig_finish d instr.

(** The waiting times, the cleared header and the counters. *)
Definition sig_start : Rec Sig unit :=
  sig_upd (fun m => m <| mc_lastReportTS := u32 (mc_lastReportTS m + mc_timestampsPerCall m) |>
                      <| mc_PacketBuffer := IncrementWaitingTimes (mc_PacketBuffer m) |>) ;;;
  rec_modify (fun s => s <| sg_blk := 3 |>) ;;;
  sig_put 0 0 ;;; sig_put 1 0 ;;; sig_put 2 0.

(** The next packet, and comfort noise that was played already. *)
Definition sig_next (d : DspInfo) (old : Lowest) : Rec Sig Lowest :=
  erase <- sig_get (fun m => mc_new_codec m =? 0) ;;
  r <- sig_find (di_playedOutTS d) erase old ;;
  rec_check r.1 r.1 ;;;
  cngOn <- sig_get (fun m => bs_cngOn (mc_BufferStat m)) ;;
  if decide (cngOn = CNG_RFC3389_ON) then
    n <- sig_get (fun m => pb_numPacketsInBuffer (mc_PacketBuffer m)) ;;
    sig_drop_cng (S (Z.to_nat n)) (di_playedOutTS d) erase r.2
  else rec_ret r.2.

(** [old] is the initial contents of [uw32_availableTS] and [i_bufferpos], with
    the initial -1 of [payloadType]. *)
Definition SignalMcu (d : DspInfo) (old : Lowest) : Rec Sig Z :=
  fs_mult <- sig_get (fun m => DivW32W16ResW16 (mc_fs m) 8000) ;;
  sig_start ;;;
  r <- sig_modes d ;;
  let '(d, playDtmf, lastModeBGNonly) := r in
  latePacketExist <- sig_late d old ;;
  lo <- sig_next d old ;;
  bufsize <- sig_bufsize d fs_mult ;;
  playDtmf <- sig_dtmf d playDtmf ;;
  sig_packsize (lo_position lo) (lo_payload_type lo)
    (fun m => pb_packSizeSamples (mc_PacketBuffer m)) ;;;
  instr <- sig_decision d lo fs_mult bufsize playDtmf lastModeBGNonly ;;
  sig_upd sig_report ;;;
  sig_act d fs_mult latePacketExist lo instr.
End Signal.
