(* ===== verification/SignalInv.v ===== *)
(** The playout side keeps the MCU well-formed: the shared memory is large
    enough, the loops end, every call leaves an instruction the DSP knows. *)
From S2P Require Import Prelude Prog Rtp CodecDb PacketBuffer PacketBufferInv PacketBufferQuery.
From S2P Require Import Dtmf SplMath Automode AutomodeInv BufStats Mcu McuInv SignalMcu.
Open Scope rec_monad_scope.

(** ** The room the stored payloads need *)

(** Words of the shared memory that a slot takes as a payload block. *)
Definition slot_words (s : Slot) : Z :=
  if live s then words (sl_payloadLengthBytes s) + 1 else 0.
Definition live_words (l : list Slot) : Z := sum_list (slot_words <$> l).

#[global] Arguments live_words : simpl never.
#[global] Arguments words : simpl never.

Lemma live_words_cons s l : live_words (s :: l) = slot_words s + live_words l.
Proof. done. Qed.

Lemma slot_words_nonneg mem s : slot_ok mem s -> 0 <= slot_words s.
Proof. intros [H _]. unfold slot_words. case_match; [words_lia|lia]. Qed.

Lemma live_words_nonneg mem l : Forall (slot_ok mem) l -> 0 <= live_words l.
Proof.
  intros H. apply sum_list_nonneg, Forall_fmap. apply (Forall_mono _ _ _ H).
  intros s. apply slot_words_nonneg.
Qed.

Lemma live_words_insert l i s s' :
  aget l i = Some s ->
  live_words (<[Z.to_nat i := s']> l) = live_words l - slot_words s + slot_words s'.
Proof.
  intros H. pose proof (aget_Some_range _ _ _ H). rewrite aget_lookup in H by lia.
  generalize dependent (Z.to_nat i). clear. intros n.
  revert n. induction l as [|x l IH]; intros [|n] H; [done..| |].
  - injection H as ->. cbn [insert list_insert]. rewrite !live_words_cons. lia.
  - specialize (IH _ H). change (<[S n:=s']> (x :: l)) with (x :: <[n:=s']> l).
    rewrite !live_words_cons. lia.
Qed.

Lemma live_words_scan now erase mem l :
  Forall (slot_ok mem) l -> live_words (scan_slot now erase <$> l) <= live_words l /\
  live_count (scan_slot now erase <$> l) <= live_count l.
Proof.
  induction 1 as [|s l Hs Hl [IH1 IH2]]; [done|]. rewrite fmap_cons, !live_words_cons.
  cbn [live_count]. pose proof (slot_words_nonneg _ _ Hs). 
  assert (scan_slot now erase s = s \/ scan_slot now erase s = clear_slot s) as [->| ->]
    by (unfold scan_slot; case_match; auto); [lia|].
  change (slot_words (clear_slot s)) with 0. change (live (clear_slot s)) with false.
  destruct (live s); simpl; lia.
Qed.

Lemma live_words_ext (f : Slot -> Slot) l :
  (forall s, live (f s) = live s /\ sl_payloadLengthBytes (f s) = sl_payloadLengthBytes s) ->
  live_words (f <$> l) = live_words l /\ live_count (f <$> l) = live_count l.
Proof.
  intros H. induction l as [|s l [IH1 IH2]]; [done|].
  rewrite fmap_cons, !live_words_cons. cbn [live_count]. destruct (H s) as [H1 H2].
  assert (slot_words (f s) = slot_words s) as -> by (unfold slot_words; by rewrite H1, H2).
  by rewrite IH1, IH2, H1.
Qed.

Lemma PacketBufferExtract_room inst p pos r p' w inst' :
  PacketBufferExtract inst p pos = Some (r, p', w, inst') ->
  zlen (rtp_payload p') = zlen (rtp_payload p).
Proof.
  unfold PacketBufferExtract. intros H.
  repeat (case_if; [by simplify_eq|]). apply bind_is_Some in H as (s & Hs & H).
  case_if; [by simplify_eq|]. apply bind_is_Some in H as (bytes & Hb & H).
  apply bind_is_Some in H as (dest & Hd & H). apply bind_is_Some in H as (sl & Hsl & H).
  apply astore_length in Hd. injection H as _ <- _ _. exact Hd.
Qed.

Lemma IncrementWaitingTimes_keeps b :
  pb_inv b -> pb_inv (IncrementWaitingTimes b) /\
  live_words (pb_slot (IncrementWaitingTimes b)) = live_words (pb_slot b) /\
  live_count (pb_slot (IncrementWaitingTimes b)) = live_count (pb_slot b).
Proof.
  intros Hb. unfold IncrementWaitingTimes. cbn [pb_slot].
  set (f := fun s => if sl_payloadLengthBytes s =? 0 then s else _).
  assert (forall s, live (f s) = live s /\ sl_payloadLengthBytes (f s) = sl_payloadLengthBytes s)
    as Hf by (intros s; unfold f; case_if; done).
  destruct (live_words_ext f (pb_slot b) Hf) as [H1 H2]. split; [|done].
  pose proof (pi_slot _ Hb) as HF. pose proof (pi_count _ Hb).
  split; cbn; rewrite ?zlen_fmap; try apply Hb; [congruence|].
  apply Forall_fmap. apply (Forall_mono _ _ _ HF). intros s [Hs1 Hs2].
  destruct (Hf s) as [H1' H2']. unfold compose, slot_ok. rewrite H1', H2'. split; [done|].
  intros Hl. destruct (Hs2 Hl). unfold f. by case_if.
Qed.

(** ** The decision keeps the delay statistics well-formed *)

Lemma bufstats_update_am inst x :
  am_inv (bs_Automode inst) -> am_inv (bs_Automode (bufstats_update inst x).1).
Proof.
  intros H. unfold bufstats_update. cbv zeta. cbn [fst].
  set (a := (bs_Automode inst) <| am_prevTimeScale := _ |>).
  assert (am_inv a) as Ha by (by destruct H). clearbody a.
  change (bs_Automode (?i <| bs_avgDelayMsQ8 := _ |> <| bs_maxDelayMs := _ |>))
    with (bs_Automode i).
  cbn [bs_Automode]. case_match; [by apply BufferLevelFilter_inv|]. by destruct Ha.
Qed.

Lemma decide_on_am inst x c : bs_Automode (decide_on inst x c).2 = bs_Automode inst.
Proof.
  unfold decide_on. case_if; [done|]. cbv zeta.
  repeat (case_if; [try done|]); [|done..]. unfold decide_cng_packet. cbv zeta.
  by repeat case_match; simplify_eq/=.
Qed.

Lemma BufstatsDecision_am inst x :
  am_inv (bs_Automode inst) -> am_inv (bs_Automode (BufstatsDecision inst x).2).
Proof.
  intros H%(bufstats_update_am _ x). unfold BufstatsDecision.
  destruct (bufstats_update inst x) as [i c]. case_if; [|done]. by rewrite decide_on_am.
Qed.

(** ** The codec database and the sampling rate *)

Lemma DbGetPtrs_total db codec p :
  db_inv db -> 0 <= codec < NUM_TOTAL_CODECS ->
  exists r q, DbGetPtrs db codec p = Some (r, q) /\ (r = 0 \/ r = CODEC_DB_NOT_EXIST1).
Proof.
  intros Hdb Hc. unfold DbGetPtrs.
  destruct (aget (db_position db) codec) as [pos|] eqn:Hp.
  2:{ destruct (aget_in (db_position db) codec) as [? ?]; [rewrite (di_position _ Hdb); lia|].
      congruence. }
  cbn [mbind option_bind]. case_if; [|by eauto].
  destruct (aget (db_entry db) (if _ : bool then -1 else pos)) as [e|] eqn:He; [by eexists _, _; eauto|].
  exfalso. case_if; [lia|]. pose proof (db_nr_bound _ Hdb).
  destruct (di_range _ Hdb _ _ Hp) as [->|Hr]; [lia|].
  destruct (aget_in (db_entry db) pos) as [? ?]; [|congruence].
  rewrite (di_entry _ Hdb). unfold NUM_CODECS. lia.
Qed.

Lemma McuSetFs_keeps db m fs :
  keeps db m -> keeps db (McuSetFs m fs).2 /\
  mc_PacketBuffer (McuSetFs m fs).2 = mc_PacketBuffer m /\
  ((McuSetFs m fs).1 = 0 \/ (McuSetFs m fs).1 = CODEC_DB_UNSUPPORTED_FS).
Proof.
  intros Hm. unfold McuSetFs. cbv zeta.
  assert (forall plc fl ms f, keeps db (m <| mc_DTMF := mkDtmf plc 0 (replicate 4 no_event) 0 fl |>
     <| mc_timestampsPerCall := ms |> <| mc_fs := f |>)) as Hk.
  { intros plc fl ms f. assert (dtmf_queue (mkDtmf plc 0 (replicate 4 no_event) 0 fl) []) as H
      by (split; [done|simpl; lia|done|constructor]).
    apply (keeps_dtmf _ _ _ [] Hm) in H. eapply keeps_frame; [exact H|done..]. }
  destruct (Z.eqb_spec fs 8000) as [->|]; [|destruct (Z.eqb_spec fs 16000) as [->|];
    [|destruct (Z.eqb_spec fs 32000) as [->|]; [|by auto]]];
    (split; [apply Hk|split; [done|by left]]).
Qed.

(** ** The assertions *)

(** The instruction word, the first word of the memory, holds an instruction. *)
Definition dsp_instructions : list Z :=
  [DSP_INSTR_NORMAL; DSP_INSTR_MERGE; DSP_INSTR_EXPAND; DSP_INSTR_ACCELERATE;
   DSP_INSTR_DO_RFC3389CNG; DSP_INSTR_DTMF_GENERATE; DSP_INSTR_NORMAL_ONE_DESC;
   DSP_INSTR_DO_CODEC_INTERNAL_CNG; DSP_INSTR_PREEMPTIVE_EXPAND; DSP_INSTR_DO_ALTERNATIVE_PLC;
   DSP_INSTR_DO_ALTERNATIVE_PLC_INC_TS; DSP_INSTR_DO_AUDIO_REPETITION;
   DSP_INSTR_DO_AUDIO_REPETITION_INC_TS].
Definition instr_ok (mem : list Z) : Prop :=
  exists w, get_w16 mem 0 = Some w /\ Z.land w 0xf000 ∈ dsp_instructions.

Lemma instr_ok_first mem mem' :
  take 2 mem' = take 2 mem -> instr_ok mem -> instr_ok mem'.
Proof.
  intros H (w & Hw & Hi). exists w. split; [|done]. rewrite <- Hw. unfold get_w16, aload.
  destruct mem as [|a [|b mem]], mem' as [|a' [|b' mem']]; simplify_eq/=; done.
Qed.

(** Writing to the shared memory. *)
Lemma get_w16_put mem mem' k v :
  0 <= k -> put_w16 mem k v = Some mem' -> get_w16 mem' k = Some (s16 v).
Proof.
  intros Hk H. unfold put_w16 in H.
  assert (s16 v = s16 (u8 v + 256 * u8 (Z.shiftr v 8))) as ->.
  { unfold u8, s16. rewrite Z.shiftr_div_pow2 by lia.
    change (2 ^ 8) with 256. Z.to_euclidean_division_equations. lia. }
  apply get_w16_in; rewrite (aget_astore _ _ _ _ _ H), !zlen_cons, zlen_nil;
    (rewrite decide_True by lia).
  - by rewrite Z.sub_diag.
  - by replace (2 * k + 1 - 2 * k) with 1 by lia.
Qed.

Lemma put_w16_in mem k v :
  0 <= k -> 2 * k + 2 <= zlen mem ->
  exists mem', put_w16 mem k v = Some mem' /\ zlen mem' = zlen mem /\
    (1 <= k -> take 2 mem' = take 2 mem) /\ get_w16 mem' k = Some (s16 v).
Proof.
  intros Hk Hm. destruct (astore_in mem [u8 v; u8 (Z.shiftr v 8)] (2 * k)) as (mem' & Hs & Hz);
    [lia|rewrite !zlen_cons, zlen_nil; lia|].
  exists mem'. split; [done|]. split; [by eapply astore_length|].
  split; [|by eapply get_w16_put].
  apply astore_Some in Hs as (_ & _ & ->). intros Hk1.
  rewrite take_app_le by (rewrite length_take; unfold zlen in *; lia).
  rewrite take_take. f_equal. lia.
Qed.

Section Signal.
Context (db : CodecDbInst) (W : Z).

(** A found packet is one of the buffer. *)
Definition lo_ok (lo : Lowest) (slots : list Slot) : Prop :=
  lo_position lo = -1 \/ exists s, aget slots (lo_position lo) = Some s /\ live s = true.

(** The instance is well-formed, the memory has [W] words, the block pointer is
    at most [b], [r] words and the blocks of all stored payloads fit, at most
    [n] packets are stored, [lo] is a stored packet, and - when [i] - the
    instruction is written. *)
Record St (i : bool) (b r n : Z) (lo : Lowest) (s : Sig) : Prop := {
  st_keeps : keeps db (sg_mcu s);
  st_mem : zlen (sg_mem s) = 2 * W;
  st_blk : 3 <= sg_blk s <= b;
  st_less : b < r;
  st_room : r + live_words (pb_slot (mc_PacketBuffer (sg_mcu s))) <= W;
  st_num : live_count (pb_slot (mc_PacketBuffer (sg_mcu s))) <= n;
  st_lo : lo_ok lo (pb_slot (mc_PacketBuffer (sg_mcu s)));
  st_instr : i = true -> instr_ok (sg_mem s)
}.

(** What holds when the function returns. *)
Definition Fin (code : Z) (s : Sig) : Prop :=
  keeps db (sg_mcu s) /\ zlen (sg_mem s) = 2 * W /\
  code ∈ [0; CODEC_DB_NOT_EXIST1; CODEC_DB_UNSUPPORTED_FS] /\
  (code = 0 -> instr_ok (sg_mem s)).

Lemma St_Fin b r n lo s : St true b r n lo s -> Fin 0 s.
Proof. intros []. split; [done|]. split; [done|]. split; [apply elem_of_cons; by left|auto]. Qed.

Lemma St_error i b r n lo s code :
  code ∈ [CODEC_DB_NOT_EXIST1; CODEC_DB_UNSUPPORTED_FS] -> St i b r n lo s -> Fin code s.
Proof.
  intros H []. split; [done|]. split; [done|]. split; [by apply elem_of_cons; right|].
  intros ->. by repeat (apply elem_of_cons in H as [H|H]; [done|]); apply elem_of_nil in H.
Qed.

Lemma St_live_nonneg i b r n lo s :
  St i b r n lo s -> 0 <= live_words (pb_slot (mc_PacketBuffer (sg_mcu s))).
Proof. intros []. eapply live_words_nonneg, pi_slot, mi_buf, st_keeps0. Qed.

Lemma St_weaken i b b' r n n' lo s :
  St i b r n lo s -> b <= b' < r -> n <= n' -> St i b' r n' lo s.
Proof. intros [] Hb Hn. split; try done; lia. Qed.

Lemma St_uninstr i b r n lo s : St i b r n lo s -> St false b r n lo s.
Proof. intros []. by split. Qed.

Lemma St_none i b r n lo s : St i b r n lo s -> St i b r n (mkLowest 0 (-1) (-1)) s.
Proof. intros []. split; try done. by left. Qed.

(** *** The primitive steps *)

(** Updates that leave the stored packets alone. *)
Definition calm (f : Mcu -> Mcu) : Prop :=
  forall m, keeps db m -> keeps db (f m) /\
    pb_slot (mc_PacketBuffer (f m)) = pb_slot (mc_PacketBuffer m).

Lemma St_mcu i b r n lo s m :
  St i b r n lo s -> keeps db m ->
  pb_slot (mc_PacketBuffer m) = pb_slot (mc_PacketBuffer (sg_mcu s)) ->
  St i b r n lo (s <| sg_mcu := m |>).
Proof. intros [] Hm Hs. split; cbn; rewrite ?Hs; done. Qed.

Lemma upd_St f i b r n lo E :
  calm f -> triple (St i b r n lo) (sig_upd f) (fun _ => St i b r n lo) E.
Proof.
  intros Hf. apply triple_modify. intros s Hs. destruct (Hf _ (st_keeps _ _ _ _ _ _ Hs)).
  by apply St_mcu.
Qed.

Lemma get_St {A} (f : Mcu -> A) i b r n lo E :
  triple (St i b r n lo) (sig_get f) (fun _ => St i b r n lo) E.
Proof. by apply triple_get. Qed.

Lemma try_St {A} (f : Mcu -> option A) i b r n lo E :
  (forall m, keeps db m -> lo_ok lo (pb_slot (mc_PacketBuffer m)) -> is_Some (f m)) ->
  triple (St i b r n lo) (sig_try f) (fun _ => St i b r n lo) E.
Proof.
  intros H. apply triple_try. intros s Hs.
  destruct (H (sg_mcu s)) as [x Hx]; [apply Hs..|]. eauto.
Qed.

Lemma St_store i b r n lo s mem :
  St i b r n lo s -> zlen mem = zlen (sg_mem s) -> (i = true -> instr_ok mem) ->
  St i b r n lo (s <| sg_mem := mem |>).
Proof. intros [] Hm Hi. split; cbn; try done; congruence. Qed.

Lemma St_bounds i b r n lo s :
  St i b r n lo s -> zlen (sg_mem s) = 2 * W /\ 3 <= sg_blk s <= b /\ b < r <= W.
Proof. intros Hs. pose proof (St_live_nonneg _ _ _ _ _ _ Hs). destruct Hs. lia. Qed.

Lemma put_St i b r n lo k v E :
  1 <= k < W -> triple (St i b r n lo) (sig_put k v) (fun _ => St i b r n lo) E.
Proof.
  intros Hk. apply triple_op. intros s Hs. pose proof (st_mem _ _ _ _ _ _ Hs).
  destruct (put_w16_in (sg_mem s) k v) as (mem & -> & Hz & H1 & _); [lia..|].
  eexists tt, _. split; [done|]. apply St_store; [done..|]. intros Hi.
  eapply instr_ok_first; [apply H1; lia|]. by apply (st_instr _ _ _ _ _ _ Hs).
Qed.

Lemma put0_St i b r n lo v E :
  0 < W -> triple (St i b r n lo) (sig_put 0 v) (fun _ => St false b r n lo) E.
Proof.
  intros Hk. apply triple_op. intros s Hs%St_uninstr. pose proof (st_mem _ _ _ _ _ _ Hs).
  destruct (put_w16_in (sg_mem s) 0 v) as (mem & -> & Hz & _); [lia..|].
  eexists tt, _. split; [done|]. by apply St_store.
Qed.

Lemma block_St i b r n lo v E :
  triple (St i b r n lo) (sig_block v) (fun _ => St i b r n lo) E.
Proof.
  apply triple_op. intros s Hs. destruct (St_bounds _ _ _ _ _ _ Hs) as (Hz0 & Hblk & Hr0).
  destruct (put_w16_in (sg_mem s) (sg_blk s) v) as (mem & -> & Hz & H' & _); [lia..|].
  eexists tt, _. split; [done|]. apply St_store; [done..|]. intros Hi.
  eapply instr_ok_first; [apply H'; lia|]. by apply (st_instr _ _ _ _ _ _ Hs).
Qed.

Lemma advance_St i b r n lo k E :
  0 <= k -> b + k < r -> triple (St i b r n lo) (sig_advance k) (fun _ => St i (b + k) r n lo) E.
Proof.
  intros Hk Hr. apply triple_modify. intros s []. split; cbn; try done; lia.
Qed.

Lemma copy_St i b r n lo bytes k E :
  zlen bytes = 2 * k -> 0 <= k -> b + k < r ->
  triple (St i b r n lo) (sig_copy bytes) (fun _ => St i b r n lo) E.
Proof.
  intros Hb Hk Hr. apply triple_op. intros s Hs. destruct (St_bounds _ _ _ _ _ _ Hs) as (Hz0 & Hblk & Hr0).
  destruct (astore_in (sg_mem s) bytes (2 * sg_blk s)) as (mem & Hs' & Hz); [lia..|].
  rewrite Hs'. cbn [mbind option_bind]. eexists tt, _. split; [done|].
  apply St_store; [done|by eapply astore_length|]. intros Hi.
  eapply instr_ok_first; [|by apply (st_instr _ _ _ _ _ _ Hs)].
  apply astore_Some in Hs' as (_ & _ & ->).
  rewrite take_app_le by (rewrite length_take; unfold zlen in *; lia).
  rewrite take_take. f_equal. lia.
Qed.

Lemma instr_St i b r n lo mask v E :
  triple (St i b r n lo) (sig_instr mask v)
    (fun _ s => St false b r n lo s /\ exists w, get_w16 (sg_mem s) 0 = Some (s16 (Z.lor (Z.land w mask) v))) E.
Proof.
  unfold sig_instr. eapply triple_bind with (R := fun _ => St i b r n lo).
  - apply triple_try. intros s Hs. destruct (St_bounds _ _ _ _ _ _ Hs) as (Hz0 & Hblk & Hr0).
    destruct (aget_in (sg_mem s) 0) as [b0 Hb0]; [lia|].
    destruct (aget_in (sg_mem s) 1) as [b1 Hb1]; [lia|].
    erewrite get_w16_in by done. eauto.
  - intros w. apply triple_op. intros s Hs%St_uninstr. destruct (St_bounds _ _ _ _ _ _ Hs) as (Hz0 & Hblk & Hr0).
    destruct (put_w16_in (sg_mem s) 0 (Z.lor (Z.land w mask) v)) as (mem & -> & Hz & _ & Hw); [lia..|].
    eexists tt, _. split; [done|]. split; [by apply St_store|]. by exists w.
Qed.

Lemma flag_St i b r n lo mask v E :
  triple (St i b r n lo) (sig_instr mask v) (fun _ => St false b r n lo) E.
Proof. eapply triple_weaken; [apply instr_St|done|by intros ? ? []|done]. Qed.

(** The written instruction is one of the list. *)
Lemma decide_St i b r n lo v E :
  v ∈ dsp_instructions ->
  triple (St i b r n lo) (sig_decide v) (fun _ => St true b r n lo) E.
Proof.
  intros Hv. eapply triple_weaken; [apply instr_St|done| |done].
  intros _ s [Hs (w & Hw)]. destruct Hs. split; try done. intros _.
  exists (s16 (Z.lor (Z.land w 0x0fff) v)). split; [done|].
  assert (Z.land (s16 (Z.lor (Z.land w 4095) v)) 61440 = Z.land v 61440) as ->.
  2:{ repeat (apply elem_of_cons in Hv as [->|Hv]; [vm_compute; repeat constructor|]).
      by apply elem_of_nil in Hv. }
  apply Z.bits_inj'. intros k Hk. rewrite !Z.land_spec.
  destruct (decide (k < 16)) as [Hlt|].
  - assert (Z.testbit (s16 (Z.lor (Z.land w 4095) v)) k = Z.testbit (Z.lor (Z.land w 4095) v) k)
      as ->.
    { rewrite <- (Z.mod_pow2_bits_low (s16 _) 16), <- (Z.mod_pow2_bits_low (Z.lor _ _) 16) by lia.
      f_equal. unfold s16. change (2 ^ 16) with 65536.
      rewrite Zminus_mod_idemp_l. f_equal. lia. }
    rewrite Z.lor_spec, Z.land_spec.
    change 4095 with (Z.ones 12). change 61440 with (Z.shiftl (Z.ones 4) 12).
    rewrite Z.shiftl_spec, !Z.testbit_ones by lia. 
    destruct (Z.leb_spec 0 k), (Z.ltb_spec k 12), (Z.leb_spec 0 (k - 12)); try lia;
      cbn [andb]; rewrite ?andb_false_r, ?orb_false_l; done.
  - change 61440 with (Z.shiftl (Z.ones 4) 12).
    rewrite Z.shiftl_spec, Z.testbit_ones by lia.
    destruct (Z.ltb_spec (k - 12) 4); [lia|]. by rewrite !andb_false_r.
Qed.

(** "*blockPtr = 0", the instruction, and "return 0". *)
Lemma done_St i b r n lo v :
  v ∈ dsp_instructions -> triple (St i b r n lo) (sig_done v) (fun _ _ => False) Fin.
Proof.
  intros Hv. unfold sig_done.
  eapply triple_bind; [by apply decide_St|intros ?].
  eapply triple_bind; [apply block_St|intros ?].
  apply triple_fail. intros s. apply St_Fin.
Qed.

(** *** Updates of the instance that leave the stored packets alone *)

Lemma calm_frame f :
  (forall m, mc_codec_DB (f m) = mc_codec_DB m) ->
  (forall m, mc_PacketBuffer (f m) = mc_PacketBuffer m) ->
  (forall m, mc_Automode (f m) = mc_Automode m) ->
  (forall m, mc_DTMF (f m) = mc_DTMF m) ->
  (forall m, mc_PayloadSplit (f m) = mc_PayloadSplit m) ->
  (forall m, mc_current_Codec (f m) = mc_current_Codec m) ->
  (forall m, mc_waiting_times (f m) = mc_waiting_times m) ->
  (forall m, mc_next_waiting_time_index (f m) = mc_next_waiting_time_index m) -> calm f.
Proof.
  intros E1 E2 E3 E4 E5 E6 E7 E8 m Hm. split; [|by rewrite E2].
  eapply keeps_frame; [exact Hm|done..].
Qed.

Lemma calm_automode f : (forall a, am_inv a -> am_inv (f a)) -> calm (upd_automode f).
Proof. intros Hf m Hm. split; [|done]. apply keeps_automode; [done|]. apply Hf, Hm. Qed.

Lemma calm_scale x y :
  calm (upd_automode (fun a => a <| am_sampleMemory := x |> <| am_prevTimeScale := y |>)).
Proof. apply calm_automode. intros a []. by split. Qed.

Lemma calm_packsize x : calm (upd_buffer (fun b => b <| pb_packSizeSamples := x |>)).
Proof.
  intros m Hm. split; [|done]. apply keeps_buffer; [done|]. destruct (mi_buf _ (proj1 Hm)). by split.
Qed.

Lemma calm_reset : calm ResetMcuInCallStats.
Proof.
  intros m Hm. split; [|done].
  apply (keeps_buffer _ _ ((mc_PacketBuffer m) <| pb_discardedPackets := 0 |>)) in Hm as Hb.
  - eapply keeps_frame; [exact Hb|done..].
  - destruct (mi_buf _ (proj1 Hm)). by split.
Qed.

Lemma calm_if (c : Mcu -> bool) f g : calm f -> calm g -> calm (fun m => if c m then f m else g m).
Proof. intros Hf Hg m Hm. case_if; auto. Qed.

Lemma calm_id : calm (fun m => m).
Proof. by split. Qed.

Lemma calm_reset_automode :
  calm (fun m => upd_automode (fun a => ResetAutomode a (pb_maxInsertPositions (mc_PacketBuffer m))) m).
Proof. intros m Hm. split; [|done]. apply keeps_automode; [done|]. apply ResetAutomode_inv. Qed.

Lemma calm_comp f g : calm f -> calm g -> calm (fun m => g (f m)).
Proof.
  intros Hf Hg m Hm. destruct (Hf _ Hm) as [H1 <-]. by apply Hg.
Qed.

Ltac calm_frame := apply calm_frame; intros m; cbv [upd_bufstat]; repeat case_match; reflexivity.

(** *** The programs *)

Section Programs.
Context (uninit_pkt : RTPPacket).

(** The search keeps the room and finds a stored packet. *)
Lemma find_St i b r n lo0 now erase old E :
  triple (St i b r n lo0) (sig_find now erase old)
    (fun x s => St i b r n x.2 s /\ x.1 = 0) E.
Proof.
  apply triple_op. intros s Hs. pose proof (st_keeps _ _ _ _ _ _ Hs) as Hm.
  pose proof (mi_buf _ (proj1 Hm)) as Hb.
  destruct (FindLowest_total _ now erase Hb) as (lo & buf & -> & Hb' & Hsl & _ & Hlo).
  cbn [mbind option_bind]. eexists _, _. split; [reflexivity|]. split; [|done].
  destruct (live_words_scan now erase _ _ (pi_slot _ Hb)) as [Hw Hc].
  rewrite <- Hsl in Hw, Hc. destruct Hs. split; cbn; try done; try lia.
  - by apply keeps_buffer.
  - destruct Hlo as [[-> _]|(t & Ht & Hl & _)]; [by left|right; eauto].
Qed.

(** *** Extraction *)

Lemma extract_St i b r n lo E :
  lo_position lo <> -1 ->
  triple (St i b r n lo) (sig_extract uninit_pkt (lo_position lo))
    (fun x s => St i b (r + (words (rtp_payloadLen x.1.2) + 1)) (n - 1) (mkLowest 0 (-1) (-1)) s /\
       (x.1.1 = 0 /\ is_Some x.2 /\ 0 <= words (rtp_payloadLen x.1.2) /\ b < r)) E.
Proof.
  intros Hne. apply triple_op. intros s Hs. pose proof (st_keeps _ _ _ _ _ _ Hs) as Hm.
  destruct (st_lo _ _ _ _ _ _ Hs) as [?|(t & Ht & Hl)]; [done|].
  pose proof (mi_buf _ (proj1 Hm)) as Hb.
  destruct (St_bounds _ _ _ _ _ _ Hs) as (Hz & Hblk & Hr).
  pose proof (live_words_insert _ _ _ (mkSlot 0 0 0 (-1) 0 (sl_rcuPlCntr t) 0) Ht) as Hw.
  pose proof (live_count_insert _ _ _ (mkSlot 0 0 0 (-1) 0 (sl_rcuPlCntr t) 0) Ht) as Hc.
  pose proof (aget_Forall _ _ _ _ (pi_slot _ Hb) Ht) as [Hlen _].
  set (slots' := <[_ := _]> _) in Hw, Hc.
  change (slot_words (mkSlot 0 0 0 (-1) 0 (sl_rcuPlCntr t) 0)) with 0 in Hw.
  assert (slot_words t = words (sl_payloadLengthBytes t) + 1) as Hst by (unfold slot_words; by rewrite Hl).
  assert (0 <= words (sl_payloadLengthBytes t)) as Hwn by words_lia.
  pose proof (st_room _ _ _ _ _ _ Hs).
  set (p0 := uninit_pkt <| rtp_payload := drop (Z.to_nat (2 * (sg_blk s + 1))) (sg_mem s) |>).
  destruct (PacketBufferExtract_live (mc_PacketBuffer (sg_mcu s)) p0 (lo_position lo) t Hb Ht Hl)
    as (data & p' & buf & Hx & _ & _ & _ & Hpl & _ & _ & _ & _ & Hb' & Hbuf).
  { assert (0 <= live_words slots').
    { eapply live_words_nonneg, slots_ok_insert; [apply Hb|]. by apply slot_ok_cleared. }
    cbn. unfold zlen in Hz |- *. rewrite length_drop. lia. }
  cbv beta zeta. fold p0. rewrite Hx. cbn [mbind option_bind].
  eexists _, _. split; [reflexivity|]. cbn [fst snd].
  rewrite Hpl. split; [|split; [done|]; split; [by eexists|]; split; [done|lia]].
  apply PacketBufferExtract_room in Hx. cbn in Hx.
  assert (pb_slot buf = slots') as Hsl by by rewrite Hbuf.
  clear Hbuf. destruct Hs. split; cbn; rewrite ?Hsl; try done; try lia.
  - by apply keeps_buffer.
  - rewrite zlen_app. unfold zlen in Hx, Hz |- *. rewrite Hx, length_take, length_drop. lia.
  - rewrite Hl in Hc. simpl in Hc. lia.
  - by left.
  - intros Hi. eapply instr_ok_first; [|by apply st_instr0].
    rewrite take_app_le by (rewrite length_take; unfold zlen in Hz; lia).
    rewrite take_take. f_equal. lia.
Qed.
Context (call_durationEst : ptr -> ptr -> list Z -> Z -> Z).
Context (ptr_bytes : ptr -> list Z) (cinst_bytes : CodecFuncInst -> list Z).
Context (uninit_cinst : CodecFuncInst).

Lemma UpdatePackSize_total lo m pt guess :
  keeps db m -> lo_ok lo (pb_slot (mc_PacketBuffer m)) ->
  is_Some (UpdatePackSizeSamples call_durationEst m (lo_position lo) pt guess).
Proof.
  intros Hm Hlo. unfold UpdatePackSizeSamples. case_if; [by eexists|].
  destruct Hlo as [Hlo|(s & Hs & Hl)]; [rewrite Hlo in *; bool_lia; lia|].
  destruct Hm as [Hi _]. pose proof (mi_db _ Hi) as Hdb.
  destruct (DbGetCodec_registered_or_error _ Hdb (mi_cng _ Hi) pt) as (c & -> & Hc).
  cbn [mbind option_bind]. case_if; [by eexists|].
  destruct Hc as [e He]; [bool_lia; lia|].
  apply db_lookup_Some in He as (pos & -> & _ & He). cbn [mbind option_bind].
  case_if; [by eexists|].
  destruct (PacketSize_total call_durationEst _ (mc_codec_DB m) (mi_buf _ Hi) (mc_av_sync m) _ _ pos guess Hs Hl)
    as [n ->]; [by eexists|]. by eexists.
Qed.

Lemma packsize_St i b r n lo pt guess E :
  triple (St i b r n lo) (sig_packsize call_durationEst (lo_position lo) pt guess)
    (fun _ => St i b r n lo) E.
Proof.
  unfold sig_packsize. eapply triple_bind; [|intros x; apply upd_St, calm_packsize].
  apply try_St. intros m Hm Hlo. by apply UpdatePackSize_total.
Qed.


(** A payload block takes the room the packet had reserved. *)
Lemma emit_St i b r n lo E :
  lo_position lo <> -1 ->
  triple (St i b r n lo) (sig_emit uninit_pkt (lo_position lo))
    (fun _ s => exists k, 0 <= k /\ St i (b + k) (r + k) (n - 1) (mkLowest 0 (-1) (-1)) s) E.
Proof.
  intros Hne. unfold sig_emit. eapply triple_bind; [by apply extract_St|].
  intros [[i_res p] w]. cbv beta iota. cbn [fst snd].
  apply triple_pure. intros (-> & [t ->] & Hk & Hbr).
  eapply triple_bind with (R := fun _ => St i b (r + (words (rtp_payloadLen p) + 1)) (n - 1) (mkLowest 0 (-1) (-1))).
  { by apply triple_ret. }
  intros _. eapply triple_bind with (R := fun _ => St i b (r + (words (rtp_payloadLen p) + 1)) (n - 1) (mkLowest 0 (-1) (-1))).
  { apply triple_try. eauto. }
  intros t'. eapply triple_bind with (R := fun _ => St i b (r + (words (rtp_payloadLen p) + 1)) (n - 1) (mkLowest 0 (-1) (-1))).
  { apply triple_op. intros s Hs. pose proof (st_keeps _ _ _ _ _ _ Hs) as Hm.
    unfold StoreWaitingTime. destruct (mi_wait _ (proj1 Hm)) as [Hw1 Hw2].
    rewrite aset_in by lia. cbn [mbind option_bind]. eexists _, _. split; [reflexivity|].
    apply St_mcu; [done| |done]. destruct Hm as [[] Hd]. split; [|done]. split; try done.
    split; [by cbn; rewrite zlen_insert|]. cbn. case_if; bool_lia; unfold kLenWaitingTimes in *; lia. }
  intros _. eapply triple_bind; [apply block_St|intros ?].
  apply triple_modify. intros s. generalize dependent (words (rtp_payloadLen p)). intros k Hk Hs.
  exists (k + 1). split; [lia|]. destruct Hs. split; cbn; try done; lia.
Qed.

Lemma drop_cng_St fuel : forall i b r n lo now erase E,
  n < Z.of_nat fuel ->
  triple (St i b r n lo) (sig_drop_cng fuel now erase lo) (fun lo' => St i b r n lo') E.
Proof.
  induction fuel as [|fuel IH]; intros i b r n lo now erase E Hn; cbn [sig_drop_cng].
  { intros s Hs. pose proof (st_num _ _ _ _ _ _ Hs).
    pose proof (live_count_nonneg (pb_slot (mc_PacketBuffer (sg_mcu s)))). lia. }
  eapply triple_bind; [apply get_St|intros cng; cbv beta].
  destruct (negb (lo_position lo =? -1)) eqn:Hp; cbn [andb]; [|by apply triple_ret].
  case_if; [|by apply triple_ret].
  eapply triple_bind with (R := fun _ => St i b r (n - 1) (mkLowest 0 (-1) (-1))).
  - apply triple_op. intros s Hs. pose proof (st_keeps _ _ _ _ _ _ Hs) as Hm.
    destruct (st_lo _ _ _ _ _ _ Hs) as [Hlo|(t & Ht & Hl)]; [by rewrite Hlo in Hp|].
    pose proof (mi_buf _ (proj1 Hm)) as Hb. cbv zeta.
    rewrite Ht. cbn [mbind option_bind].
    rewrite aset_in by (by apply aget_Some_range in Ht). cbn [mbind option_bind].
    eexists _, _. split; [reflexivity|].
    pose proof (live_words_insert _ _ _ (clear_slot t) Ht) as Hw.
    pose proof (live_count_insert _ _ _ (clear_slot t) Ht) as Hc.
    change (slot_words (clear_slot t)) with 0 in Hw. change (live (clear_slot t)) with false in Hc.
    rewrite Hl in Hc. cbn [b2z] in Hc. pose proof (aget_Forall _ _ _ _ (pi_slot _ Hb) Ht) as Hok.
    pose proof (slot_words_nonneg _ _ Hok). pose proof (pi_count _ Hb).
    destruct Hs. split; cbn; try done; try lia; try by left.
    apply keeps_buffer; [done|]. destruct Hb. split; cbn; rewrite ?zlen_insert; try done; try lia.
    apply slots_ok_insert; [done|]. by apply slot_ok_cleared.
  - intros _. eapply triple_bind; [apply find_St|]. intros x. apply triple_pure. intros _.
    eapply triple_weaken; [apply IH|done| |done]; [lia|].
    intros lo' s Hs. destruct (st_less _ _ _ _ _ _ Hs). eapply St_weaken; [done| |lia].
    pose proof (st_blk _ _ _ _ _ _ Hs). pose proof (st_less _ _ _ _ _ _ Hs). lia.
Qed.

Lemma bufsize_St d fs_mult i b r n lo E :
  triple (St i b r n lo) (sig_bufsize call_durationEst d fs_mult) (fun _ => St i b r n lo) E.
Proof.
  unfold sig_bufsize. eapply triple_bind.
  { apply try_St. intros m [Hi _] _.
    destruct (PacketBufferGetSize_total call_durationEst _ _ (mi_buf _ Hi) (mi_db _ Hi) (mi_cng _ Hi)
      (mc_av_sync m)) as [x Hx]. by eexists. }
  intros x. eapply triple_bind with (R := fun _ => St i b r n lo).
  - apply triple_when; [|done]. intros _. apply upd_St. intros m Hm. split; [|done].
    apply keeps_automode; [done|]. destruct (mi_am _ (proj1 Hm)). by split.
  - intros _. by apply triple_ret.
Qed.

(** Telephone events take three words. *)
Lemma dtmf_St d playDtmf b r n lo E :
  b + 3 < r ->
  triple (St false b r n lo) (sig_dtmf d playDtmf) (fun _ => St false (b + 3) r n lo) E.
Proof.
  intros Hb. unfold sig_dtmf. eapply triple_bind with (R := fun _ => St false b r n lo).
  { apply triple_op. intros s Hs. pose proof (st_keeps _ _ _ _ _ _ Hs) as Hm. cbv zeta.
    destruct (mi_dtmf _ (proj1 Hm)) as [q Hq].
    destruct (DtmfDecode_queue _ q (u32 (di_playedOutTS d +
      bs_CNGplayedTS (mc_BufferStat (sg_mcu s)))) Hq) as (dt & -> & Hq').
    cbn [mbind option_bind]. eexists _, _. split; [reflexivity|].
    apply St_mcu; [done| |done]. by eapply keeps_dtmf. }
  intros [len out]. apply (triple_use _ (b < r <= W)); [intros s Hs%St_bounds; lia|intros Hr].
  eapply triple_bind with (R := fun blk s => St false b r n lo s /\ 3 <= blk <= b).
  { apply triple_get. intros s Hs. split; [done|]. apply Hs. }
  intros blk. apply triple_pure. intros Hblk.
  eapply triple_bind with (R := fun _ => St false b r n lo).
  { destruct out as [[event volume]|]; [|by apply triple_ret].
    eapply triple_bind; [apply put_St; lia|intros ?; apply put_St; lia]. }
  intros _. case_if.
  - eapply triple_bind; [apply flag_St|intros ?].
    eapply triple_bind; [apply block_St|intros ?].
    eapply triple_bind; [apply advance_St with (k := 3); lia|intros ?]. by apply triple_ret.
  - apply triple_ret. intros s Hs. eapply St_weaken; [done|lia|done].
Qed.

Lemma decision_St d lo fs_mult bufsize playDtmf bgn i b r n lo0 E :
  triple (St i b r n lo0) (sig_decision d lo fs_mult bufsize playDtmf bgn)
    (fun _ => St i b r n lo0) E.
Proof.
  apply triple_op. intros s Hs. pose proof (st_keeps _ _ _ _ _ _ Hs) as Hm.
  pose proof (fun x => BufstatsDecision_am _ x (mi_am _ (proj1 Hm))) as Ha.
  cbv zeta. set (x := mkBufArgs _ _ _ _ _ _ _ _ _ _ _ _ _). clearbody x. specialize (Ha x).
  destruct (BufstatsDecision _ x) as [instr bs]. cbn [snd] in Ha.
  cbn [mbind option_bind]. eexists _, _. split; [reflexivity|].
  apply St_mcu; [done| |done]. destruct Hm as [[] Hd]. split; [|done]. split; done.
Qed.

Lemma modes_St d i b r n lo E :
  triple (St i b r n lo) (sig_modes d) (fun _ => St i b r n lo) E.
Proof.
  unfold sig_modes. eapply triple_bind with (R := fun _ => St i b r n lo).
  { apply triple_when; [intros _; apply upd_St|done]. intros m Hm. case_if; [done|].
    split; [|done]. apply keeps_codec; [done|by compute]. }
  intros _. cbv zeta. eapply triple_bind; [apply upd_St|intros ?].
  { intros m Hm. unfold sig_stereo. cbv zeta. set (m' := if _ : bool then _ else m).
    assert (keeps db m' /\ pb_slot (mc_PacketBuffer m') = pb_slot (mc_PacketBuffer m)) as [H1 H2].
    { unfold m'. case_if; [|done]. split; [|done]. apply keeps_automode; [done|].
      apply ResetAutomode_inv. }
    clearbody m'. split; [|done]. eapply keeps_frame; [exact H1|done..]. }
  eapply triple_bind; [apply upd_St|intros ?].
  { unfold sig_cng_played. apply calm_if; [|apply calm_id]. calm_frame. }
  eapply triple_bind; [apply upd_St|intros ?; by apply triple_ret].
  apply calm_if; [apply calm_packsize|apply calm_id].
Qed.

(** There are no codecs with several descriptions, hence no late packets. *)
Lemma late_St d old i b r n lo E :
  triple (St i b r n lo) (sig_late uninit_pkt d old) (fun _ => St i b r n lo) E.
Proof.
  unfold sig_late. eapply triple_bind; [apply get_St|intros c].
  eapply triple_bind; [apply get_St|intros codec].
  change (negb (DbIsMDCodec codec)) with true. rewrite orb_true_r. by apply triple_ret.
Qed.

Lemma next_St d old i b r n lo :
  triple (St i b r n lo) (sig_next d old) (fun lo' => St i b r n lo') Fin.
Proof.
  unfold sig_next. eapply triple_bind; [apply get_St|intros erase].
  eapply triple_bind; [apply find_St|intros [i_res lo1]]. cbn [fst snd].
  apply triple_pure. intros ->.
  eapply triple_bind with (R := fun _ => St i b r n lo1); [by apply triple_ret|intros _].
  eapply triple_bind; [apply get_St|intros cng]. cbv beta.
  case_match; [|by apply triple_ret].
  eapply triple_bind with (R := fun x s => St i b r x lo1 s /\ x <= n /\ 0 <= x).
  { apply triple_get. intros s Hs. pose proof (st_keeps _ _ _ _ _ _ Hs) as Hm.
    rewrite (pi_count _ (mi_buf _ (proj1 Hm))).
    pose proof (live_count_nonneg (pb_slot (mc_PacketBuffer (sg_mcu s)))).
    split; [|by destruct Hs]. by destruct Hs; split. }
  intros x. apply triple_pure. intros Hx.
  eapply triple_weaken; [apply drop_cng_St with (n := x); lia|done| |done].
  intros lo' s Hs. pose proof (st_blk _ _ _ _ _ _ Hs). pose proof (st_less _ _ _ _ _ _ Hs).
  eapply St_weaken; [done|lia|lia].
Qed.

(** *** A new codec *)

Context (nc np : Z) (Hnc : forall c, zlen (cinst_bytes c) = 2 * nc)
        (Hnp : forall p, zlen (ptr_bytes p) = 2 * np).

Lemma raw_block_St bytes k i b r n lo E :
  zlen bytes = 2 * k -> b + 1 + k < r ->
  triple (St i b r n lo) (sig_raw_block bytes) (fun _ => St i (b + 1 + k) r n lo) E.
Proof.
  intros Hz Hr. pose proof (zlen_nonneg bytes). unfold sig_raw_block. cbv zeta.
  assert (Z.shiftr (zlen bytes) 1 = k) as ->.
  { rewrite Z.shiftr_div_pow2, Hz by lia. change (2 ^ 1) with 2.
    rewrite Z.mul_comm. apply Z.div_mul. lia. }
  eapply triple_bind; [apply block_St|intros ?].
  eapply triple_bind; [apply advance_St with (k := 1); lia|intros ?].
  eapply triple_bind; [eapply copy_St; [exact Hz|lia..]|intros ?].
  apply advance_St; lia.
Qed.

Lemma cinst_St pt i b r n lo :
  triple (St i b r n lo) (sig_cinst uninit_cinst pt) (fun _ => St i b r n lo) Fin.
Proof.
  unfold sig_cinst.
  eapply triple_bind with (R := fun codec s => St i b r n lo s /\ -1 <= codec < NUM_TOTAL_CODECS).
  { apply triple_get. intros s Hs. split; [done|]. apply (st_keeps _ _ _ _ _ _ Hs). }
  intros codec. apply triple_pure. intros Hcodec. case_if.
  - eapply triple_bind with (R := fun x s => St i b r n lo s /\
      (x.1 = 0 \/ x.1 = CODEC_DB_NOT_EXIST1)).
    { apply triple_try. intros s Hs. destruct (st_keeps _ _ _ _ _ _ Hs) as [Hi _].
      destruct (DbGetPtrs_total _ codec uninit_cinst (mi_db _ Hi)) as (c & q & -> & Hc); [lia|].
      eauto. }
    intros [c q]. apply triple_pure. cbn [fst snd]. intros Hc.
    eapply triple_bind with (R := fun _ => St i b r n lo); [|intros _; by apply triple_ret].
    eapply triple_weaken; [apply (triple_check _ _ _ Fin)|done|by intros ? ? []|done].
    intros Hneg s. destruct Hc as [->| ->]; [lia| ].
    apply St_error. apply elem_of_cons. by left.
  - eapply triple_bind; [apply get_St|intros cng].
    eapply triple_bind with (R := fun _ => St i b r n lo).
    + apply triple_when; [intros _|done].
      eapply triple_bind; [apply try_St|intros fs; apply upd_St; calm_frame].
      intros m [Hi _] _. destruct (DbGetSampleRate_total _ (mi_db _ Hi) (mi_cng _ Hi) pt) as [fs ->].
      by eexists.
    + intros _. eapply triple_bind; [apply get_St|intros fs]. by apply triple_ret.
Qed.

Lemma new_codec_St d lo instr b r n :
  5 + nc + np < r ->
  triple (St false b r n lo)
    (sig_new_codec call_durationEst ptr_bytes cinst_bytes uninit_cinst d lo instr)
    (fun x s => St false (5 + nc + np) r n lo s /\ x.2 <> REINIT) Fin.
Proof using Hnc Hnp.
  intros Hr. unfold sig_new_codec.
  pose proof (zlen_nonneg (cinst_bytes uninit_cinst)) as Hc0. rewrite Hnc in Hc0.
  pose proof (zlen_nonneg (ptr_bytes 0)) as Hp0. rewrite Hnp in Hp0.
  eapply triple_bind with (R := fun _ => St false 3 r n lo).
  { apply triple_modify. intros s []. split; cbn; try done; lia. }
  intros _. apply (triple_use _ (3 < r <= W)); [intros s Hs%St_bounds; lia|intros HW].
  eapply triple_bind; [apply put0_St; lia|intros ?].
  eapply triple_bind; [apply upd_St; calm_frame|intros ?]. cbv zeta.
  eapply triple_bind; [apply cinst_St|intros cinst].
  eapply triple_bind; [eapply raw_block_St; [apply Hnc|lia]|intros ?].
  eapply triple_bind; [apply upd_St; calm_frame|intros ?].
  eapply triple_bind with (R := fun x s => St false (3 + 1 + nc) r n lo s /\
    (x = 0 \/ x = CODEC_DB_UNSUPPORTED_FS)).
  { apply triple_op. intros s Hs.
    destruct (McuSetFs_keeps db (sg_mcu s) (cf_codec_fs cinst)) as (Hk & Hb & Hx);
      [apply Hs|]. destruct (McuSetFs (sg_mcu s) (cf_codec_fs cinst)) as [y m].
    cbn [mbind option_bind fst snd] in *. eexists _, _. split; [reflexivity|].
    split; [|done]. apply St_mcu; [done..|]. by rewrite Hb. }
  intros i_res. apply triple_pure. intros Hres.
  eapply triple_bind with (R := fun _ => St false (3 + 1 + nc) r n lo).
  { eapply triple_weaken; [apply (triple_check _ _ _ Fin)|done|by intros ? ? []|done].
    intros Hneg s. destruct Hres as [->| ->]; [lia|].
    apply St_error. apply elem_of_cons. right. apply elem_of_cons. by left. }
  intros _. eapply triple_bind; [apply packsize_St|intros ?].
  eapply triple_bind; [apply upd_St, calm_reset_automode|intros ?].
  eapply triple_bind with (R := fun x s => St false (3 + 1 + nc) r n lo s /\
      (x.1 = 0 \/ x.1 = CODEC_DB_NOT_EXIST1)).
  { apply triple_try. intros s Hs. destruct (st_keeps _ _ _ _ _ _ Hs) as [Hi _].
    destruct (DbGetPtrs_total _ kDecoderCNG cinst (mi_db _ Hi)) as (c & q & -> & Hc); [by compute|].
    eauto. }
  intros [c q]. apply triple_pure. cbn [fst snd]. intros Hc.
  eapply triple_bind with (R := fun _ => St false (3 + 1 + nc) r n lo).
  { apply triple_when; [|done]. intros Hx. exfalso. by destruct Hc as [->| ->]. }
  intros _. eapply triple_bind; [eapply raw_block_St; [apply Hnp|lia]|intros ?].
  eapply triple_bind; [apply flag_St|intros ?].
  eapply triple_bind; [apply upd_St, calm_reset|intros ?].
  apply triple_ret. intros s Hs. split; [eapply St_weaken; [done|lia|done]|].
  cbn [snd]. repeat case_match; simplify_eq; done.
Qed.

(** *** Decisions without a packet *)

Ltac listed := repeat first [apply elem_of_cons; left; reflexivity | apply elem_of_cons; right].

Lemma expand_St d late b r n lo :
  triple (St false b r n lo) (sig_expand d late) (fun _ _ => False) Fin.
Proof.
  unfold sig_expand. eapply triple_bind; [apply upd_St; calm_frame|intros ?].
  eapply triple_bind; [apply get_St|intros codec]. change (DbIsMDCodec codec) with false.
  cbn [andb rec_when]. eapply triple_bind with (R := fun _ => St false b r n lo).
  { by apply triple_ret. }
  intros ?. eapply triple_bind; [apply decide_St; listed|intros ?].
  apply triple_fail. intros s. apply St_Fin.
Qed.

Lemma dtmf_only_St d b r n lo :
  triple (St false b r n lo) (sig_dtmf_only d) (fun _ _ => False) Fin.
Proof.
  unfold sig_dtmf_only. eapply triple_bind; [apply get_St|intros played]. cbv zeta.
  apply (triple_use _ (3 <= b < r /\ r <= W)); [intros s Hs%St_bounds; lia|intros HW].
  eapply triple_bind with (R := fun _ => St false b r n lo).
  { apply triple_when; [intros _|done].
    eapply triple_bind; [apply put_St; lia|intros ?; apply put_St; lia]. }
  intros ?. eapply triple_bind; [apply upd_St; calm_frame|intros ?]. apply done_St. listed.
Qed.

Lemma scale_now_St d instr b r n lo :
  instr ∈ dsp_instructions ->
  triple (St false b r n lo) (sig_scale_now d instr) (fun _ _ => False) Fin.
Proof.
  intros Hi. unfold sig_scale_now.
  eapply triple_bind; [by apply decide_St|intros ?].
  eapply triple_bind; [apply block_St|intros ?].
  eapply triple_bind; [apply upd_St, calm_scale|intros ?].
  apply triple_fail. intros s. apply St_Fin.
Qed.

(** The decisions that go on to the packet. *)
Definition goes_on (instr : Decision) : bool :=
  match instr with
  | DO_EXPAND | DO_RFC3389CNG_NOPACKET | DO_INTERNAL_CNG_NOPACKET | DO_DTMF_ONLY => false
  | _ => true
  end.

Lemma no_packet_St d late instr b r n lo :
  triple (St false b r n lo) (sig_no_packet d late instr)
    (fun _ s => St false b r n lo s /\ goes_on instr = true) Fin.
Proof.
  destruct instr; cbn [sig_no_packet goes_on];
    try (by apply triple_ret);
    try (eapply triple_weaken; [first [apply expand_St | apply dtmf_only_St | apply done_St; listed]
                               |done|done|done]).
  apply triple_when; [|done]. intros _.
  eapply triple_weaken; [apply done_St; listed|done|done|done].
Qed.

Lemma wanted_St d fs_mult instr b r n lo :
  triple (St false b r n lo) (sig_wanted d fs_mult instr)
    (fun x s => St false b r n lo s /\ (x.2 = instr \/ x.2 = DO_NORMAL)) Fin.
Proof.
  unfold sig_wanted. eapply triple_bind; [apply get_St|intros pack].
  eapply triple_bind; [apply get_St|intros call]. cbv beta zeta.
  assert (forall instr0 x (c : Rec Sig unit),
    triple (St false b r n lo) c (fun _ _ => False) Fin ->
    triple (St false b r n lo) (c ;;; rec_ret (x, instr0))
      (fun (y : Z * Decision) s => St false b r n lo s /\ (y.2 = instr \/ y.2 = DO_NORMAL)) Fin) as Hleave.
  { intros instr0 x c Hc. eapply triple_bind; [exact Hc|intros ?]. by apply triple_ret. }
  destruct instr; repeat case_if;
    first [apply triple_ret; by auto
          |apply Hleave; first [apply scale_now_St; listed | apply done_St; listed]].
Qed.

(** *** The extraction loop *)

Lemma round_St oldTS oldPT prevTS totalTS prevSeqNo lo b r n E :
  lo_position lo <> -1 ->
  triple (St false b r n lo) (sig_round call_durationEst uninit_pkt oldTS oldPT prevTS totalTS prevSeqNo lo)
    (fun x s => exists k, St false (b + k) (r + k) (n - 1) x.1.2 s /\
       (x.2 = true -> lo_position x.1.2 <> -1)) E.
Proof using Type.
  intros Hlo. unfold sig_round. eapply triple_bind; [apply upd_St; calm_frame|intros ?].
  eapply triple_bind; [by apply emit_St|intros ?]. apply triple_ex. intros k. cbv beta.
  apply (triple_weaken _ _ (fun s => St false (b + k) (r + k) (n - 1) (mkLowest 0 (-1) (-1)) s) _
    (fun x s => St false (b + k) (r + k) (n - 1) x.1.2 s /\ (x.2 = true -> lo_position x.1.2 <> -1))
    _ E); [|by intros ? []|by intros; exists k|done].
  eapply triple_bind; [apply get_St|intros pack]. cbv zeta.
  eapply triple_bind; [apply get_St|intros now].
  eapply triple_bind; [apply find_St|intros [i_res lo']]. cbn [fst snd].
  apply triple_pure. intros _.
  eapply triple_bind with (R := fun c s => St false (b + k) (r + k) (n - 1) lo' s /\
    (c.2 = true -> lo_position lo' <> -1)).
  { apply triple_try. intros s Hs. unfold sig_continues. cbv zeta.
    destruct (Z.ltb_spec (-1) (lo_position lo')).
    - destruct (st_lo _ _ _ _ _ _ Hs) as [?|(t & Ht & _)]; [lia|]. rewrite Ht.
      cbn [mbind option_bind]. case_if; eexists; (split; [reflexivity|]); split; try done; lia.
    - eexists; split; [reflexivity|]. done. }
  intros [prev c]. apply triple_pure. cbn [fst snd]. intros Hc.
  eapply triple_bind; [apply packsize_St|intros ?]. by apply triple_ret.
Qed.

Definition Loose (s : Sig) : Prop := exists b r n lo, St false b r n lo s.

Lemma St_Loose b r n lo s : St false b r n lo s -> Loose s.
Proof. intros H. by exists b, r, n, lo. Qed.

Lemma rounds_St fuel wanted oldTS oldPT prevTS : forall totalTS prevSeqNo lo b r n E,
  n < Z.of_nat fuel -> lo_position lo <> -1 ->
  triple (St false b r n lo)
    (sig_rounds call_durationEst uninit_pkt fuel wanted oldTS oldPT prevTS totalTS prevSeqNo lo)
    (fun _ => Loose) E.
Proof using Type.
  induction fuel as [|fuel IH]; intros totalTS prevSeqNo lo b r n E Hn Hlo; cbn [sig_rounds].
  { intros s Hs. pose proof (st_num _ _ _ _ _ _ Hs).
    pose proof (live_count_nonneg (pb_slot (mc_PacketBuffer (sg_mcu s)))). lia. }
  eapply triple_bind; [by apply round_St|intros [[[total prev] lo'] avail]]. cbn [fst snd].
  apply triple_ex. intros k. apply triple_pure. intros Hav. case_if.
  - apply IH; [lia|auto].
  - apply triple_ret. intros s. apply St_Loose.
Qed.

Lemma get_data_St d lo instr wanted b r n E :
  triple (St false b r n lo) (sig_get_data call_durationEst uninit_pkt d lo instr wanted)
    (fun _ => Loose) E.
Proof using Type.
  unfold sig_get_data. case_if.
  2:{ apply triple_ret. intros s. apply St_Loose. }
  assert (lo_position lo <> -1) as Hlo by (intros Heq; rewrite Heq in *; bool_lia; lia).
  cbv zeta. apply (triple_use _ (3 <= b < r /\ r <= W)); [intros s Hs%St_bounds; lia|intros HW].
  eapply triple_bind with (R := fun _ => St false b r n lo).
  { eapply triple_bind; [apply put_St; lia|intros ?; apply put_St; lia]. }
  intros ?. eapply triple_bind; [apply upd_St; calm_frame|intros ?].
  eapply triple_bind; [apply upd_St; calm_frame|intros ?].
  eapply triple_bind; [apply try_St|intros t].
  { intros m _ [?|(t & Ht & _)]; [done|]. by eexists. }
  eapply triple_bind; [apply upd_St; calm_frame|intros ?].
  eapply triple_bind; [apply flag_St|intros ?].
  eapply triple_bind with (R := fun x s => St false b r x lo s /\ 0 <= x).
  { apply triple_get. intros s Hs. pose proof (st_keeps _ _ _ _ _ _ Hs) as Hm.
    rewrite (pi_count _ (mi_buf _ (proj1 Hm))).
    pose proof (live_count_nonneg (pb_slot (mc_PacketBuffer (sg_mcu s)))).
    split; [|done]. by destruct Hs; split. }
  intros num. apply triple_pure. intros Hnum. apply rounds_St; [lia|done].
Qed.

(** *** The whole call *)

Lemma enough_St d totalTS instr E :
  triple Loose (sig_enough d totalTS instr)
    (fun x s => Loose s /\ (x = instr \/ x = DO_NORMAL)) E.
Proof using Type.
  unfold sig_enough. case_if; [|apply triple_ret; auto].
  do 4 (apply triple_ex; intros ?). eapply triple_bind; [apply get_St|intros call].
  case_if; [apply triple_ret; eauto using St_Loose|].
  eapply triple_bind; [apply upd_St, calm_scale|intros ?]. apply triple_ret. eauto using St_Loose.
Qed.

Lemma finish_St d instr :
  goes_on instr = true -> instr <> REINIT -> instr <> REINIT_DECODER ->
  triple Loose (sig_finish d instr) Fin Fin.
Proof using Type.
  intros H1 H2 H3. unfold sig_finish. apply triple_ex; intros b. apply triple_ex; intros r.
  apply triple_ex; intros n. apply triple_ex; intros lo.
  apply (triple_use _ (3 <= b < r /\ r <= W)); [intros s Hs%St_bounds; lia|intros HW].
  eapply triple_bind; [apply block_St|intros ?].
  assert (exists clear w, final_instr instr = Some (clear, w) /\ w ∈ dsp_instructions)
    as (clear & w & -> & Hw).
  { destruct instr; try done; eexists _, _; (split; [reflexivity|]); listed. }
  eapply triple_bind with (R := fun _ => St false b r n lo).
  { apply triple_when; [intros _; apply put_St; lia|done]. }
  intros ?. eapply triple_bind; [by apply decide_St|intros ?].
  eapply triple_bind; [apply upd_St; calm_frame|intros ?].
  apply triple_ret. intros s. apply St_Fin.
Qed.

Lemma act_St d fs_mult late lo instr b r n :
  5 + nc + np < r ->
  triple (St false b r n lo)
    (sig_act call_durationEst ptr_bytes cinst_bytes uninit_pkt uninit_cinst d fs_mult late lo instr)
    Fin Fin.
Proof using Hnc Hnp.
  intros Hr. unfold sig_act. eapply triple_bind; [apply get_St|intros call].
  eapply triple_bind with (R := fun _ => St false b r n lo).
  { apply triple_when; [intros _|done].
    eapply triple_bind; [apply block_St|intros ?].
    eapply triple_bind; [apply decide_St; listed|intros ?].
    apply triple_fail. intros s. apply St_Fin. }
  intros ?. eapply triple_bind; [apply upd_St; calm_frame|intros ?].
  eapply triple_bind; [apply get_St|intros newc].
  eapply triple_bind with (R := fun x s => exists b', St false b' r n lo s /\ x.2 <> REINIT).
  { case_if.
    - eapply triple_weaken; [by apply new_codec_St|done|by eexists|done].
    - apply triple_ret. intros s Hs. exists b. split; [done|]. cbn [snd]. intros ->. done. }
  intros [d' instr']. cbn [snd]. apply triple_ex. intros b'. apply triple_pure. intros Hne.
  eapply triple_bind with (R := fun _ => St false b' r n lo).
  { apply triple_when; [intros _; apply flag_St|done]. }
  intros ?. cbv zeta. set (instr1 := if decide _ then DO_NORMAL else instr').
  assert (instr1 <> REINIT /\ instr1 <> REINIT_DECODER) as [H1 H2]
    by (unfold instr1; case_match; done).
  clearbody instr1. eapply triple_bind; [apply no_packet_St|intros ?]. apply triple_pure.
  intros Hgo. eapply triple_bind; [apply wanted_St|intros [wanted instr2]]. apply triple_pure.
  cbn [snd]. intros H. eapply triple_bind; [apply get_data_St|intros total].
  eapply triple_bind; [apply enough_St|intros instr3]. apply triple_pure. intros H'.
  apply finish_St; destruct H' as [->| ->], H as [->| ->]; done.
Qed.

Lemma SignalMcu_St d old n s :
  keeps db (sg_mcu s) -> zlen (sg_mem s) = 2 * W ->
  7 + nc + np + live_words (pb_slot (mc_PacketBuffer (sg_mcu s))) <= W ->
  live_count (pb_slot (mc_PacketBuffer (sg_mcu s))) <= n ->
  exists r s',
    SignalMcu call_durationEst ptr_bytes cinst_bytes uninit_pkt uninit_cinst d old s = Some (r, s') /\
    match r with inl code => Fin code s' | inr x => Fin x s' end.
Proof using Hnc Hnp.
  intros Hk Hm Hroom Hn.
  pose proof (zlen_nonneg (cinst_bytes uninit_cinst)) as Hc0. rewrite Hnc in Hc0.
  pose proof (zlen_nonneg (ptr_bytes 0)) as Hp0. rewrite Hnp in Hp0.
  assert (exists r, r = 7 + nc + np) as [r Hr] by eauto. set (none := mkLowest 0 (-1) (-1)).
  enough (triple (fun s' => s' = s)
    (SignalMcu call_durationEst ptr_bytes cinst_bytes uninit_pkt uninit_cinst d old) Fin Fin) as H
    by by apply H.
  unfold SignalMcu, sig_start.
  eapply triple_bind with (R := fun _ s' => s' = s); [by apply triple_get|intros fs_mult].
  eapply triple_bind with (R := fun _ => St false 3 r n none).
  { set (m' := fun m => m <| mc_lastReportTS := _ |> <| mc_PacketBuffer := _ |>).
    eapply triple_bind with (R := fun _ s' => s' = s <| sg_mcu := m' (sg_mcu s) |>).
    { apply triple_modify. by intros ? ->. }
    intros ?. eapply triple_bind with (R := fun _ => St false 3 r n none).
    { apply triple_modify. intros ? ->. pose proof (mi_buf _ (proj1 Hk)) as Hb.
      destruct (IncrementWaitingTimes_keeps _ Hb) as (Hb' & Hw & Hc).
      unfold m'. generalize dependent (IncrementWaitingTimes (mc_PacketBuffer (sg_mcu s))).
      intros buf Hb' Hw Hc. split; cbn; rewrite ?Hw, ?Hc; try done; try lia; try by left.
      apply (keeps_buffer _ _ _ Hk) in Hb'. eapply keeps_frame; [exact Hb'|done..]. }
    intros ?. apply (triple_use _ (3 < r /\ r <= W)); [intros s' Hs%St_bounds; lia|intros HW].
    eapply triple_bind; [apply put0_St; lia|intros ?].
    eapply triple_bind; [apply put_St; lia|intros ?]. apply put_St; lia. }
  intros ?. eapply triple_bind; [apply modes_St|intros [[d' playDtmf] bgn]].
  eapply triple_bind; [apply late_St|intros late].
  eapply triple_bind; [apply next_St|intros lo].
  eapply triple_bind; [apply bufsize_St|intros bufsize].
  eapply triple_bind; [apply dtmf_St; lia|intros playDtmf'].
  eapply triple_bind; [apply packsize_St|intros ?].
  eapply triple_bind; [apply decision_St|intros instr].
  eapply triple_bind; [apply upd_St, calm_if; [apply calm_reset|apply calm_id]|intros ?].
  apply act_St. lia.
Qed.
End Programs.
End Signal.
