(* ===== verification/Playout.v ===== *)
(** Properties of the playout side: [WebRtcNetEQ_SignalMcu] is memory safe and
    always leaves an instruction, and hands payloads over unchanged. *)
From S2P Require Import Prelude Prog Rtp CodecDb PacketBuffer PacketBufferInv Dtmf Automode BufStats.
From S2P Require Import Mcu McuInv SignalMcu SignalInv.
Open Scope rec_monad_scope.

(** The words [SignalMcu] may need: three of header, a block for the codec's
    functions, a block for the CNG state or three words of a telephone event, a
    closing word, and a block for every stored payload. *)
Definition shared_words (nc np : Z) (m : Mcu) : Z :=
  7 + nc + np + live_words (pb_slot (mc_PacketBuffer m)).

(** C1. Playout is memory safe, terminates, and keeps the instance well-formed:
    on every well-formed MCU, for every status of the DSP, whatever the duration
    estimators answer and whatever the uninitialised locals hold, a call of
    [SignalMcu] returns - the discarding of comfort noise and the extraction of
    packets both end - and does not leave the slot arrays, the database, the
    waiting-time ring or the shared memory, as long as that memory has room for
    the payloads in the packet buffer.  It answers 0 or one of two errors of the
    codec database, never the [default] of the final [switch]
    (UNKNOWN_BUFSTAT_DECISION); with 0 the first word of the shared memory holds
    one of the instructions the DSP knows. *)
Theorem SignalMcu_safe call ptr_bytes cinst_bytes uninit_pkt uninit_cinst nc np W
    (s : Sig) (d : DspInfo) (old : Lowest)
    (Hnc : forall c, zlen (cinst_bytes c) = 2 * nc) (Hnp : forall p, zlen (ptr_bytes p) = 2 * np)
    (Hm : mcu_inv (sg_mcu s)) (Hmem : zlen (sg_mem s) = 2 * W)
    (Hroom : shared_words nc np (sg_mcu s) <= W) :
  exists r s',
    rec_run (SignalMcu call ptr_bytes cinst_bytes uninit_pkt uninit_cinst d old) s = Some (r, s') /\
    mcu_inv (sg_mcu s') /\ mc_codec_DB (sg_mcu s') = mc_codec_DB (sg_mcu s) /\
    zlen (sg_mem s') = 2 * W /\
    r ∈ [0; CODEC_DB_NOT_EXIST1; CODEC_DB_UNSUPPORTED_FS] /\
    (r = 0 -> instr_ok (sg_mem s')).
Proof.
  destruct (SignalMcu_St (mc_codec_DB (sg_mcu s)) W uninit_pkt call ptr_bytes cinst_bytes uninit_cinst
    nc np Hnc Hnp d old _ s (conj Hm eq_refl) Hmem Hroom (Z.le_refl _)) as (r & s' & H & HF).
  unfold rec_run. rewrite H. cbn [mbind option_bind]. destruct r as [code|x];
    destruct HF as ([Hi Hd] & Hz & Hc & Ho); eauto 10.
Qed.

(** *** A playout call *)

(** The instance after the reception of a PCMu packet, and its shared memory. *)
Definition ex_speech : RTPPacket := mkRTPPacket 7 1000 42 0 (replicate 160 9) 160 0 0.
Definition ex_received0 : Mcu :=
  match RecInInternal (fun _ _ _ _ => 0) ex_speech ex_uninit 5 ex_mcu with
  | Some (_, m) => m
  | None => ex_mcu
  end.
Definition ex_received : Mcu := Eval vm_compute in
  ex_received0 <| mc_fs := 8000 |> <| mc_timestampsPerCall := 80 |> <| mc_millisecondsPerCall := 10 |>.
Definition ex_sig : Sig := mkSig ex_received (replicate 400 0) 0.
Definition ex_dsp : DspInfo := mkDspInfo 920 0 0 0 0.
Definition ex_ptr_bytes (_ : ptr) : list Z := replicate 8 0.
Definition ex_cinst_bytes (_ : CodecFuncInst) : list Z := replicate 88 0.

Definition ex_signal : option (Z * Sig) :=
  rec_run (SignalMcu (fun _ _ _ _ => 0) ex_ptr_bytes ex_cinst_bytes ex_uninit
             (mkCodecFuncInst 0 0 0 0 0 0 0 0 0 0 0 0) ex_dsp (mkLowest 7 7 7)) ex_sig.

Lemma ex_received0_keeps : keeps ex_mcu_db ex_received0.
Proof.
  destruct (recin_body_safe ex_mcu_db (fun _ _ _ _ => 0) ex_speech ex_uninit 5) with (m := ex_mcu)
    as (r & m' & H & Hk).
  - split; [split; [by left|vm_compute; discriminate]|simpl; lia|simpl; lia|].
    apply list.Forall_forall. intros x Hx%elem_of_replicate_inv. subst x. by compute.
  - intros H. vm_compute in H. discriminate H.
  - split; [exact ex_mcu_inv|done].
  - unfold ex_received0, RecInInternal, rec_run. rewrite H. cbn [mbind option_bind].
    destruct r; [exact Hk|exact (proj1 Hk)].
Qed.

Lemma ex_received_inv : mcu_inv ex_received.
Proof.
  refine (proj1 (keeps_frame _ _ ex_received ex_received0_keeps _ _ _ _ _ _ _ _));
    vm_compute; reflexivity.
Qed.

Lemma SignalMcu_safe_witness :
  exists r s', ex_signal = Some (r, s') /\ mcu_inv (sg_mcu s') /\
    mc_codec_DB (sg_mcu s') = mc_codec_DB ex_received /\ zlen (sg_mem s') = 2 * 200 /\
    r ∈ [0; CODEC_DB_NOT_EXIST1; CODEC_DB_UNSUPPORTED_FS] /\ (r = 0 -> instr_ok (sg_mem s')).
Proof.
  apply (SignalMcu_safe (fun _ _ _ _ => 0) ex_ptr_bytes ex_cinst_bytes ex_uninit
    (mkCodecFuncInst 0 0 0 0 0 0 0 0 0 0 0 0) 44 4 200 ex_sig ex_dsp (mkLowest 7 7 7)).
  - reflexivity.
  - reflexivity.
  - exact ex_received_inv.
  - reflexivity.
  - vm_compute. discriminate.
Defined.

(** ** Payloads arrive unchanged *)

Lemma rtp_data_prefix p data :
  rtp_data p = Some data -> rtp_starts_byte1 p = 0 -> 0 <= rtp_payloadLen p ->
  data = take (Z.to_nat (rtp_payloadLen p)) (rtp_payload p).
Proof.
  intros H Hs Hl. unfold rtp_data in H. rewrite Hs in H. by apply aload_Some in H as (_ & _ & _ & ->).
Qed.

(** C2. The payload reaches the DSP unchanged: when a stored packet is extracted
    into the shared memory, the block at the block pointer starts with its
    length in bytes - marked with the redundancy flag if it came as redundant
    data -, the bytes after it are exactly the bytes stored in the packet
    buffer, nothing before the block changes, the block pointer moves behind the
    block, the slot is empty afterwards, every other slot is as before, and the
    time the packet waited is recorded in the statistics. *)
Theorem SignalMcu_payload uninit_pkt (s : Sig) (pos : Z) (t : Slot) (data : list Z)
    (Hm : mcu_inv (sg_mcu s)) (Ht : aget (pb_slot (mc_PacketBuffer (sg_mcu s))) pos = Some t)
    (Hl : live t = true) (Hblk : 0 <= sg_blk s)
    (Hdata : aload (pb_memory (mc_PacketBuffer (sg_mcu s))) (2 * sl_payloadLocation t)
               (sl_payloadLengthBytes t) = Some data)
    (Hroom : 2 * (sg_blk s + 1 + words (sl_payloadLengthBytes t)) <= zlen (sg_mem s)) :
  exists s', sig_emit uninit_pkt pos s = Some (inr tt, s') /\
    get_w16 (sg_mem s') (sg_blk s) =
      Some (s16 (if 0 <? sl_rcuPlCntr t then Z.lor (sl_payloadLengthBytes t) DSP_CODEC_RED_FLAG
                 else sl_payloadLengthBytes t)) /\
    aload (sg_mem s') (2 * (sg_blk s + 1)) (sl_payloadLengthBytes t) = Some data /\
    take (Z.to_nat (2 * sg_blk s)) (sg_mem s') = take (Z.to_nat (2 * sg_blk s)) (sg_mem s) /\
    sg_blk s' = sg_blk s + 1 + words (sl_payloadLengthBytes t) /\
    pb_slot (mc_PacketBuffer (sg_mcu s')) =
      <[Z.to_nat pos := mkSlot 0 0 0 (-1) 0 (sl_rcuPlCntr t) 0]> (pb_slot (mc_PacketBuffer (sg_mcu s))) /\
    aget (mc_waiting_times (sg_mcu s')) (mc_next_waiting_time_index (sg_mcu s)) =
      Some (sl_waitingTime t).
Proof.
  pose proof (mi_buf _ Hm) as Hb. destruct (mi_wait _ Hm) as [Hw1 Hw2].
  pose proof (aget_Forall _ _ _ _ (pi_slot _ Hb) Ht) as [Hlen _].
  assert (0 <= words (sl_payloadLengthBytes t)) as Hwn by words_lia.
  set (p0 := uninit_pkt <| rtp_payload := drop (Z.to_nat (2 * (sg_blk s + 1))) (sg_mem s) |>).
  destruct (PacketBufferExtract_live _ p0 pos t Hb Ht Hl)
    as (data' & p' & buf & Hx & Hd' & Hdp & Hsb & Hpl & _ & _ & _ & Hrcu & _ & Hbuf).
  { cbn. unfold zlen in *. rewrite length_drop. lia. }
  assert (data' = data) as -> by congruence.
  pose proof (PacketBufferExtract_room _ _ _ _ _ _ _ Hx) as Hz. cbn in Hz.
  apply rtp_data_prefix in Hdp; [|done|by rewrite Hpl]. rewrite Hpl in Hdp.
  set (mem1 := take (Z.to_nat (2 * (sg_blk s + 1))) (sg_mem s) ++ rtp_payload p').
  assert (zlen mem1 = zlen (sg_mem s)) as Hz1.
  { unfold mem1. rewrite zlen_app. unfold zlen in *. rewrite Hz, length_take, length_drop. lia. }
  destruct (put_w16_in mem1 (sg_blk s) (if 0 <? sl_rcuPlCntr t
    then Z.lor (sl_payloadLengthBytes t) DSP_CODEC_RED_FLAG else sl_payloadLengthBytes t))
    as (mem2 & Hput & Hz2 & _ & Hget); [lia..|].
  pose proof (aset_in (mc_waiting_times (sg_mcu s)) (mc_next_waiting_time_index (sg_mcu s))
    (sl_waitingTime t) ltac:(lia)) as Hset.
  eexists. split.
  { unfold sig_emit, sig_extract.
    refine (eq_trans (rec_step _ _ _ (0, p', Some (sl_waitingTime t))
      (s <| sg_mem := mem1 |> <| sg_mcu := (sg_mcu s) <| mc_PacketBuffer := buf |> |>) _) _).
    { unfold rec_op. cbv zeta. fold p0. by rewrite Hx. }
    cbv beta iota. refine (eq_trans (rec_step _ _ _ tt _ eq_refl) _).
    refine (eq_trans (rec_step _ _ _ (sl_waitingTime t) _ eq_refl) _).
    refine (eq_trans (rec_step _ _ _ tt _ _) _).
    { unfold sig_op, rec_op, StoreWaitingTime. cbn. rewrite Hset. reflexivity. }
    refine (eq_trans (rec_step _ _ _ tt _ _) _).
    { unfold sig_block, rec_op. cbn [sg_mem sg_blk]. rewrite Hrcu, Hpl, Hput. reflexivity. }
    unfold sig_advance, rec_modify. rewrite Hpl. reflexivity. }
  cbn. split; [done|]. split; [|split; [|split; [lia|split; [by rewrite Hbuf|]]]].
  - unfold put_w16 in Hput.
    rewrite (aload_astore_disjoint _ _ _ _ _ _ Hput); [|right; rewrite !zlen_cons, zlen_nil; lia].
    rewrite aload_in by words_lia. rewrite Hdp. unfold mem1.
    rewrite drop_app_ge by (rewrite length_take; unfold zlen in *; words_lia).
    rewrite length_take. do 2 f_equal.
    replace (_ - _)%nat with 0%nat by (unfold zlen in *; words_lia). done.
  - unfold put_w16 in Hput. apply astore_Some in Hput as (_ & _ & ->). unfold mem1.
    rewrite take_app_le by (rewrite length_take, length_app, length_take; unfold zlen in *; lia).
    rewrite take_take, take_app_le by (rewrite length_take; unfold zlen in *; lia).
    rewrite take_take. f_equal. lia.
  - rewrite aget_insert_eq by (unfold zlen in *; lia). done.
Qed.

Lemma SignalMcu_payload_witness :
  exists s', sig_emit ex_uninit 0 (mkSig ex_received (replicate 400 0) 3) = Some (inr tt, s') /\
    get_w16 (sg_mem s') 3 = Some 160 /\ aload (sg_mem s') 8 160 = Some (replicate 160 9).
Proof.
  destruct (SignalMcu_payload ex_uninit (mkSig ex_received (replicate 400 0) 3) 0
    (mkSlot 1000 0 7 0 160 0 0) (replicate 160 9) ex_received_inv) as (s' & H1 & H2 & H3 & _);
    [vm_compute; reflexivity|reflexivity|simpl; lia|vm_compute; reflexivity
    |vm_compute; discriminate|].
  exists s'. split; [exact H1|]. split; [exact H2|exact H3].
Defined.
